(* ===== verification/_CoqProject ===== *)
-Q . S2P
Prelude.v
Text.v
StdMap.v
ConfParse.v
DagNode.v
DagAddr.v
DagWf.v
DagView.v
DagCodec.v
DagText.v
XiaPath.v
XiaPathOrder.v
XiaPathCodec.v
XidText.v
XiaPathText.v
XiaHeader.v
PathCopies.v
ExtHeader.v
RouteTable.v
RouteTableSpec.v
Elements.v
HeaderView.v
PacketRoute.v
PacketRouteSpec.v
PacketRouteWalk.v
PacketRouteFaults.v
XRouted.v
XRoutedPath.v
XRoutedFaults.v
XRoutedInv.v
XRoutedWire.v
ControlSocket.v
ControlClient.v
ControlServe.v
ControlSpec.v
ControlCall.v
XIARouter.v
XIARouterSpec.v
RoutesInstalled.v
Xcache.v
XcacheInv.v
XcacheSpec.v
XcacheWire.v
Sha1.v
Sha1Spec.v
XTransport.v
TransportWire.v
Carriage.v
TransportSocket.v
TransportStream.v
TransportSetup.v
TransportFaults.v
ContentHash.v
SocketLib.v
SocketCalls.v
SocketLibSpec.v
ByteStream.v
NameService.v
NameSpec.v
ChunkPublish.v
QSort.v
QSortSpec.v
XArpTable.v
XArpTableInv.v
XArpTableSpec.v
XArp.v
XArpSpec.v
XArpFaults.v
Xcmp.v
XcmpSpec.v
XcmpRedirect.v
Xhcp.v
XhcpSpec.v
XhcpRoutes.v
AddrInfo.v
AddrInfoSpec.v
