(* ===== verification/Prelude.v ===== *)
(** * XIA: content cache, addresses and router

    A model of the programs of this repository that store content, name hosts
    and content, and forward packets, with the theorems that say what they do.

    ** The programs

    - The content cache (src/xcache): a daemon that keeps chunks of content in
      slices with a policy and a store, and the client library that talks to it.
    - The address library (src/api/dagaddr/cpp): addresses as directed acyclic
      graphs of identifiers (XIDs), their text and socket forms.
    - The router (src/click-2.0.1): Click elements that parse and build XIA
      packets (lib/, include/) and route them (elements/xia, conf).
    - The transport element of the router (elements/xia/xtransport.cc): sockets
      for applications, streams with acknowledgements and retransmission,
      datagrams, and requests for content.
    - Below and beside the forwarding of packets: the neighbour table with the
      elements that ask and answer for Ethernet addresses (xarptable.cc,
      xarpquerier.cc, xarpresponder.cc), and the messages about packets that are
      not delivered (xcmp.cc).
    - The socket library (src/api/xsocket): the calls of applications, which it
      turns into messages to the transport element.
    - The name service: calls of the socket library, and the name server
      (src/daemons/nameserver).
    - The host configuration (src/daemons/xhcp): a server on a gateway, and a
      client that keeps a host in the network it is in.
    - The routing daemon (src/daemons/xrouted): hello and link-state messages,
      shortest paths, and the routes it gives to the router.
    - The control connection: the router serves it
      (elements/userlevel/controlsocket.cc), and daemons use it to read and
      change routing tables (src/daemons/common: csclient.cc, XIARouter.cc).

    An application names content by an address; the router follows the address
    from node to node with its routing tables, which the daemon fills; the cache
    answers requests for content.  The bytes an application writes to a stream go
    from the socket library to the transport element of its host, through the
    routers to the other host, and up to the other application.  A packet leaves
    a router in a frame to the Ethernet address of its next hop; a router that
    can not forward it tells its source.  A host learns its network from the
    beacons of the gateway, and registers its name at the name server.

    ** Files

    - [Prelude]: outcomes ([res]: a value, or the kind of undefined behaviour),
      heaps, machine integers, loops ([foldM]), bytes.
    - [Text]: strings, and the helpers of dagaddr/cpp/utils.cpp.
    - [Xcache]: src/xcache (commands, metas, slices, policies, stores and the
      controller of src/controller.cc) as a heap of objects with pointers.
      [XcacheInv]: its well-formedness invariant.  [XcacheSpec]: the cache as an
      abstract machine, and the refinement.  [XcacheWire]: the client library
      (clientlib/xcachelib.cc), the receive loop, the file splitter.
    - [DagNode], [DagAddr]: dagaddr/cpp/dagaddr.cpp, nodes with their reference
      counts, and graphs.  [DagWf]: acyclicity and the graph operators.
      [DagView]: positions of nodes in the external formats.  [DagCodec]: socket
      addresses.  [DagText]: text.
    - [ConfParse]: the parts of lib/confparse.cc and lib/args.cc the elements
      use.  [XiaPath], [XiaPathOrder], [XiaPathCodec]: lib/xiapath.cc with its
      topological ordering and header format.  [XidText], [XiaPathText]: XIDs
      and paths as text.  [XiaHeader]: lib/xiaheader.cc on packets as bytes.
      [PathCopies]: the paths of a header and their copies.  [ExtHeader]:
      lib/xiaextheader.cc, lib/xiatransportheader.cc, lib/xiacontentheader.cc.
      [RouteTable], [RouteTableSpec]: elements/xia/xiaxidroutetable.cc.
      [Elements]: the small routing elements.  [HeaderView]: complete headers.
      [PacketRoute]: the compound element XIAPacketRoute of
      conf/xia_router_lib.click.  [PacketRouteSpec], [PacketRouteWalk],
      [PacketRouteFaults]: what routing does.
    - [StdMap]: std::map with string keys.  [XRouted]: daemons/xrouted/xrouted.cc.
      [XRoutedPath]: its shortest paths.  [XRoutedFaults]: where they fail.
      [XRoutedInv]: the invariant of the daemon.  [XRoutedWire]: its messages.
    - [ControlSocket]: elements/userlevel/controlsocket.cc over a type class of
      routers.  [ControlClient]: daemons/common/csclient.cc.  [ControlServe]:
      rounds of the select loop.  [ControlSpec]: requests and answers.
      [ControlCall]: both sides composed.  [XIARouter], [XIARouterSpec]:
      daemons/common/XIARouter.cc, and the routing tables as an instance of the
      class.  [RoutesInstalled]: the daemon, the connection and the routing
      tables composed.
    - [XTransport]: elements/xia/xtransport.cc, every input port and the timer.
      [TransportWire]: the packets it builds and reads.  [Carriage]: a packet
      carried by routers to the host of its address.  [TransportSocket]: the
      invariant of a socket and what each handler does to it.
      [TransportStream]: two hosts, the packets between them and the order in
      which things happen.  [TransportSetup]: how a stream begins.
      [TransportFaults]: where the element is undefined or stops.
    - [Sha1]: elements/ipsec/sha1_impl.cc.  [Sha1Spec]: the function of the
      standard, and that the code computes it.  [ContentHash]: the names of
      chunks that the transport element computes with it.
    - [SocketLib]: api/xsocket (state.c, Xutil.c and the calls).
      [SocketCalls]: the calls for chunks, and about the host.
      [SocketLibSpec]: what its calls promise.  [ByteStream]: two applications,
      their libraries, hosts and the network composed.  [ChunkPublish]: data and
      files that are published in chunks.
    - [NameService]: the name calls of api/xsocket/XgetDAGbyName.c and
      daemons/nameserver/ns.cc.  [NameSpec]: what they promise together.
      [AddrInfo], [AddrInfoSpec]: api/xsocket/Xgetaddrinfo.c, addresses of
      services on hosts.
    - [QSort]: [click_qsort] of lib/glue.cc.  [QSortSpec]: it ends and sorts.
    - [XArpTable]: elements/xia/xarptable.cc as a hash table and a list over the
      same entries.  [XArpTableInv], [XArpTableSpec]: its invariant, and what
      its operations do.  [XArp]: xarpquerier.cc and xarpresponder.cc.
      [XArpSpec]: question and answer composed.  [XArpFaults]: the table of the
      responder, and inputs that go wrong.
    - [Xcmp]: elements/xia/xcmp.cc.  [XcmpSpec]: the messages it sends, and where
      it fails.  [XcmpRedirect]: redirects and the routing table composed.
    - [Xhcp]: daemons/xhcp.  [XhcpSpec]: beacons and the calls for them.
      [XhcpRoutes]: server, client, control connection and routing tables
      composed.

    ** State and operations

    A C++ function is a Definition of the same name where Rocq allows it; it
    takes the state it changes and returns it.  A read or write outside an
    object, a null or dangling pointer, a failed assertion or the use of an
    invalid iterator is a value [Ub] of the result; so a theorem that says [Ok]
    says that the run is free of these.  Integers are kept at their width with
    [wrapU] and [wrapS].  Pointers whose aliasing matters are addresses in a
    heap ([Xcache], [DagNode]); elsewhere values stand for objects with one
    owner.  Functions of other programs (protobuf, inet_addr, the tables of
    names of Click) are parameters, as are the order in which a hash table is
    iterated, the memory [new] returns and the time.

    Memory that a program reads before it writes it is an [option]: [None] is
    the indeterminate value of the language, whose use is [Ub Uninit], and [Some]
    a value that the machine happens to have there.  Where a result depends on
    it, it is a parameter ([surroundings] in [Xcache], the data block of [Sha1],
    bytes from [new] elsewhere), and the theorems say which runs use it.
    [Sha1.load] has a flag for the rule that already the load of an indeterminate
    word is undefined, although its bits are shifted out; and [SocketLib] has the
    flag [one_heap], false when memory from [new[]] may not be released with
    [delete].  Logging is left out, except for the paths and XIDs that are
    printed for it in [Xcmp] and [RouteTable], since printing may fail.

    ** Theorems

    - Cache: the controller refines an abstract cache on every command sequence
      and the commands that are undefined are characterised; reference counts
      are exact; stored content is found again (the length field of a chunk is
      never set, and the theorems say where its value is used); what is never
      evicted, and which limits are not enforced.  The client sends a file in full, and reads past
      its buffer exactly when the server's length says so.
    - Addresses: reference counting is safe; the operators keep graphs acyclic
      and have the stated edges; socket and text forms are read back as the same
      graph, with the dummy source for its source.
    - Paths and headers: the ordering is correct and decides acyclicity; header
      and text formats are read back as the same path, and the payload is found
      behind them; the walk over extension headers ends.
    - Routing: a packet with a complete header and an acyclic address is routed
      to an end without a read outside the packet, and its fate is that of a
      walk over its address ([PacketRouteWalk.walk]); routes that are set take
      effect; listings restore tables; where routing does not end, or fails.
    - Routing daemon: its computation finds shortest paths and the right next
      hops; its tables agree in every reachable state; advertisements are
      recorded once and exactly, and stay as they are when routes are computed;
      where it loses its routes or its memory.
    - Control connection: reads and writes over it are the calls of the handlers
      themselves, however the bytes are split; so the shortest paths of the
      daemon become the routes of the router.
    - Transport: extension headers are read back as they were written; the
      connection calls of two applications establish a stream; over a network
      that loses, repeats and reorders packets, an application receives a prefix
      of what its peer sends; and unacknowledged messages are sent again until
      they are delivered.  The network between the hosts is the routing above.
      Which packets make the element undefined, or stop its timer.
    - Hashes: the digest of data in any pieces is the SHA-1 of the standard,
      whatever the memory of the context held (the code loads a word of it that
      it has not written, and shifts its bits out); so
      a chunk is named by the hash of its data, and an answer with other data is
      marked invalid.
    - Socket library: the calls keep its memory consistent and are defined on
      buffers as long as they are said to be, except that a call that takes all
      of the data that was left over releases memory from [new[]] with [delete];
      [Xrecv] returns the bytes of a
      stream in order however the calls cut them; and from end to end, what one
      application reads is what the other has written.  Where [Xrecvfrom]
      follows a null pointer.  A buffer that is published is cut into chunks
      whose names are the hashes of the pieces.
    - Names: a name that is registered is resolved to its address; the server
      answers every request whose strings end; a host that moves changes its own
      record only, unlike the comments of the server say.  The address of a service on a host is the address of the
      host with the service behind it.
    - Sorting: for any comparison the sort ends with a permutation, inside its
      array and its stack; for an order it sorts.
    - Neighbours: over any sequence of operations the table keeps to its
      capacities, with exact counters and without undefined behaviour; packets
      that wait for an address are sent to it, in order, when the answer comes;
      a responder answers for the addresses it is configured with.
    - Error messages: a packet that is misdirected, undeliverable or out of hops
      is answered with one message that verifies and holds its header; echo
      requests are answered; a redirect changes exactly one route of the host.
      Which packets are released twice, stop the router, or carry its memory.
    - Host configuration: after any sequence of beacons the tables of a host are
      those of the last network; the first beacon configures it from the packet
      of the server to the routing tables.  Where the daemons leave their
      buffers.

    ** Bounds and fuel

    Loops that the source runs to a condition take fuel and end in [OutOfFuel]
    when it runs out.  The theorems give the fuel that is enough (routing: four
    rounds for each node of the address, and eight; loading: one round more than
    lines; payload: the length of the packet; shortest paths: the number of
    nodes; a control read: the length of its data; a question for an address:
    two rounds, since the second finds the entry of the first; the sort: two
    rounds for each element, and two; a listing over the control connection: 121
    characters for each route and two more), or prove that no fuel is enough
    where the program does not end.

    ** Not modelled

    Files, timers and most logging; locks and threads of the socket library; a signal
    that interrupts the routing daemon in the middle of a message; generated
    code; the third party programs below src/click-2.0.1 (everything but the XIA
    files, SHA-1, the sort and the control socket) and src/daemons/DNS;
    experiments, tools and applications.  Of the XIA elements: those that only
    generate, count or print packets for tests and measurements, and xroute.cc,
    which no configuration uses.  Of the socket library: configuration files
    (Xinit.c) and the wrappers of the C library (src/api/wrapper, src/api/xssl).
    Of the control socket: a proxy, and the body of llrpc_command.  Of the
    routing table: the handler that makes up random routes. *)

From stdpp Require Import base gmap sets list strings.
From Stdlib Require Import ZArith Lia.

(** ** Outcomes: C++ runs that may hit undefined behaviour *)

Inductive ub : Set :=
  | NullDeref        (* a null or dangling pointer is followed *)
  | OutOfBounds      (* an access outside an array, vector or packet *)
  | IterInvalid      (* erase of end(), or use of an erased iterator *)
  | SignedOverflow   (* overflow of a signed integer *)
  | AssertFail       (* assert(false) is reached *)
  | Uninit           (* an uninitialised variable is read *)
  | BadType          (* an object is used as one of another type *)
  | BadDelete        (* memory from new[] is released with delete *)
  | Uncaught         (* a C++ exception leaves the function *)
  | OutOfFuel.       (* the model's loop bound is exhausted *)

Inductive res (A : Type) : Type :=
  | Ok (a : A)
  | Ub (u : ub).
Arguments Ok {A} a.
Arguments Ub {A} u.

#[global] Instance ub_eq_dec : EqDecision ub.
Proof. solve_decision. Defined.

#[global] Instance res_eq_dec {A} `{EqDecision A} : EqDecision (res A).
Proof. solve_decision. Defined.

#[global] Instance res_ret : MRet res := @Ok.
#[global] Instance res_bind : MBind res := λ A B f m,
  match m with Ok a => f a | Ub u => Ub u end.
#[global] Instance res_fmap : FMap res := λ A B f m,
  match m with Ok a => Ok (f a) | Ub u => Ub u end.

Definition is_ok {A} (m : res A) : Prop := ∃ a, m = Ok a.

(** Following a possibly null pointer into a heap. *)
Definition deref {A} (h : gmap nat A) (p : option nat) : res A :=
  match p with
  | None => Ub NullDeref
  | Some a => match h !! a with Some x => Ok x | None => Ub NullDeref end
  end.

(** [v[i]] on a vector, unchecked in C++. *)
Definition vget {A} (v : list A) (i : nat) : res A :=
  match v !! i with Some x => Ok x | None => Ub OutOfBounds end.

(** Reading a variable that may be uninitialised. *)
Definition init {A} (o : option A) : res A := match o with Some a => Ok a | None => Ub Uninit end.

(** Writing an element of an array. *)
Definition vset {A} (v : list A) (i : nat) (a : A) : res (list A) :=
  if decide (i < length v)%nat then Ok (<[i := a]> v) else Ub OutOfBounds.

Lemma bind_Ok {A B} (m : res A) (f : A → res B) b :
  m ≫= f = Ok b ↔ ∃ a, m = Ok a ∧ f a = Ok b.
Proof. destruct m; simpl; naive_solver. Qed.

Lemma deref_Ok {A} (h : gmap nat A) p x :
  deref h p = Ok x ↔ ∃ a, p = Some a ∧ h !! a = Some x.
Proof. unfold deref. destruct p as [a|]; [|naive_solver]. destruct (h !! a) eqn:?; naive_solver. Qed.

Lemma deref_Some {A} (h : gmap nat A) a x : h !! a = Some x → deref h (Some a) = Ok x.
Proof. intros H. simpl. by rewrite H. Qed.

Lemma vget_Ok {A} (v : list A) i x : vget v i = Ok x ↔ v !! i = Some x.
Proof. unfold vget. destruct (v !! i); naive_solver. Qed.

(** ** Fixed-width integers *)

Local Open Scope Z_scope.

(** Conversion to an unsigned and to a two's-complement type of [w] bits. *)
Definition wrapU (w z : Z) : Z := z mod 2 ^ w.
Definition wrapS (w z : Z) : Z := (z + 2 ^ (w - 1)) mod 2 ^ w - 2 ^ (w - 1).

Definition u8 := wrapU 8.
Definition u16 := wrapU 16.
Definition u32 := wrapU 32.
Definition u64 := wrapU 64.
Definition i8 := wrapS 8.
Definition i16 := wrapS 16.
Definition i32 := wrapS 32.

(** [size_t(-1)], the value of [npos] constants. *)
Definition npos : Z := 2 ^ 64 - 1.

Lemma wrapU_small w z : 0 ≤ z < 2 ^ w → wrapU w z = z.
Proof. apply Z.mod_small. Qed.

Lemma wrapU_range w z : 0 ≤ w → 0 ≤ wrapU w z < 2 ^ w.
Proof. intros. apply Z.mod_pos_bound. lia. Qed.

Lemma wrapU_idem w z : 0 ≤ w → wrapU w (wrapU w z) = wrapU w z.
Proof. intros. apply wrapU_small, wrapU_range; lia. Qed.

Lemma wrapS_small w z : 0 < w → - 2 ^ (w - 1) ≤ z < 2 ^ (w - 1) → wrapS w z = z.
Proof.
  intros Hw Hz. unfold wrapS.
  assert (2 ^ w = 2 * 2 ^ (w - 1)).
  { rewrite <-Z.pow_succ_r by lia. f_equal; lia. }
  rewrite Z.mod_small; lia.
Qed.

(** [v[i]] with an index of type [size_t] or [int]. *)
Definition vgetz {A} (v : list A) (i : Z) : res A :=
  if decide (0 ≤ i < Z.of_nat (length v)) then vget v (Z.to_nat i) else Ub OutOfBounds.

Lemma vgetz_Ok {A} (v : list A) i x :
  vgetz v i = Ok x ↔ 0 ≤ i ∧ v !! Z.to_nat i = Some x.
Proof.
  unfold vgetz. case_decide as H; [rewrite vget_Ok; naive_solver lia|].
  split; [done|]. intros [? Hx%lookup_lt_Some]. lia.
Qed.

Lemma vgetz_nat {A} (v : list A) (i : nat) : vgetz v (Z.of_nat i) = vget v i.
Proof.
  unfold vgetz. case_decide; [by rewrite Nat2Z.id|]. unfold vget.
  by rewrite lookup_ge_None_2 by lia.
Qed.

(** [v[i]] on a Click [Vector]: the index is asserted to be in range, after
    conversion to [int]. *)
Definition cget {A} (v : list A) (i : nat) : res A :=
  match v !! i with Some x => Ok x | None => Ub AssertFail end.
Definition cgetz {A} (v : list A) (i : Z) : res A :=
  if decide (u32 i < Z.of_nat (length v)) then cget v (Z.to_nat (u32 i)) else Ub AssertFail.

Lemma cget_Ok {A} (v : list A) i x : cget v i = Ok x ↔ v !! i = Some x.
Proof. unfold cget. destruct (v !! i); naive_solver. Qed.

(** A loop body run for each element in turn. *)
Fixpoint foldM {A S} (f : S → A → res S) (s : S) (l : list A) : res S :=
  match l with
  | [] => Ok s
  | a :: l => s ← f s a; foldM f s l
  end.

Lemma foldM_app {A S} (f : S → A → res S) s l1 l2 :
  foldM f s (l1 ++ l2) = s ← foldM f s l1; foldM f s l2.
Proof. revert s. induction l1 as [|a l1 IH]; intros s; simpl; [done|]. by destruct (f s a); simpl. Qed.

(** What every step preserves holds after the loop. *)
Lemma foldM_inv {A S} (P : S → Prop) (f : S → A → res S) s l s' :
  (∀ s a s', a ∈ l → P s → f s a = Ok s' → P s') → P s → foldM f s l = Ok s' → P s'.
Proof.
  revert s. induction l as [|a l IH]; intros s Hf Hs H; simpl in H; [by simplify_eq|].
  apply bind_Ok in H as (s1 & H1 & H). eapply IH; [| |exact H].
  - intros s2 b s3 Hb. apply Hf. by right.
  - eapply Hf; [by left|exact Hs|exact H1].
Qed.

(** A loop whose steps all run, keeping an invariant, runs. *)
Lemma foldM_ok {A S} (P : S → Prop) (f : S → A → res S) s l :
  (∀ s a, a ∈ l → P s → ∃ s', f s a = Ok s' ∧ P s') → P s → ∃ s', foldM f s l = Ok s' ∧ P s'.
Proof.
  revert s. induction l as [|a l IH]; intros s Hf Hs; simpl; [by eauto|].
  destruct (Hf s a) as (s1 & -> & H1); [by left|done|]. apply IH; [|done].
  intros s2 b Hb. apply Hf. by right.
Qed.

(** ** Bytes in memory: the little-endian image of an unsigned integer *)

Fixpoint le_bytes (n : nat) (z : Z) : list Z :=
  match n with
  | O => []
  | S n => z mod 256 :: le_bytes n (z / 256)
  end.

Fixpoint of_le_bytes (bs : list Z) : Z :=
  match bs with
  | [] => 0
  | b :: bs => b + 256 * of_le_bytes bs
  end.

Definition is_byte (b : Z) : Prop := 0 ≤ b < 256.

(** Lists of bytes are recognised by evaluation. *)
Lemma all_bytes b : forallb (λ x, (0 <=? x) && (x <? 256)) b = true → Forall is_byte b.
Proof.
  induction b as [|x b IH]; simpl; intros H; [by constructor|].
  apply andb_prop in H as [H1 H2]. constructor; [unfold is_byte; lia|by apply IH].
Qed.

Lemma length_le_bytes n z : length (le_bytes n z) = n.
Proof. revert z; induction n; intros; simpl; auto. Qed.

Lemma of_le_bytes_le_bytes n z :
  0 ≤ z < 256 ^ Z.of_nat n → of_le_bytes (le_bytes n z) = z.
Proof.
  revert z; induction n as [|n IH]; intros z Hz; simpl le_bytes; simpl of_le_bytes.
  { simpl in Hz. lia. }
  rewrite Nat2Z.inj_succ, Z.pow_succ_r in Hz by lia.
  rewrite IH.
  - pose proof (Z.div_mod z 256). lia.
  - split; [apply Z.div_pos; lia | apply Z.div_lt_upper_bound; lia].
Qed.

Lemma le_bytes_are_bytes n z : Forall is_byte (le_bytes n z).
Proof.
  revert z; induction n as [|n IH]; intros z; simpl; constructor; [|apply IH].
  unfold is_byte. apply Z.mod_pos_bound. lia.
Qed.

Lemma le_bytes_of_le_bytes bs : Forall is_byte bs → le_bytes (length bs) (of_le_bytes bs) = bs.
Proof.
  unfold is_byte. induction 1 as [|b bs Hb _ IH]; simpl; [done|].
  rewrite (Z.mul_comm 256), Z.mod_add, Z.mod_small, Z.div_add, Z.div_small, Z.add_0_l by lia. by rewrite IH.
Qed.

Local Close Scope Z_scope.

(** ** Automation *)

(** Case analysis on the conditionals and matches of a hypothesis that says a
    run returned; undefined-behaviour branches are discarded. *)
Ltac res_inv H :=
  repeat match type of H with
  | (_ ≫= _) = Ok _ =>
      let a := fresh "a" in let Ha := fresh "Ha" in
      apply bind_Ok in H as (a & Ha & H)
  | Ub _ = Ok _ => discriminate H
  | (if ?b then _ else _) = Ok _ => let E := fresh "E" in destruct b eqn:E
  | (match ?x with _ => _ end) = Ok _ => let E := fresh "E" in destruct x eqn:E
  end.

Create HintDb xia.
Create Rewrite HintDb xia.
#[export] Hint Resolve deref_Some length_le_bytes le_bytes_are_bytes : xia.
#[export] Hint Rewrite length_le_bytes : xia.
