(* ===== verification/Text.v ===== *)
(** * Text: the string routines of the address library

    [std::string] values as lists of characters, the helpers of
    src/api/dagaddr/cpp/utils.cpp ([split], [trim], [stoi]) and the C library
    conversions they and the printers use ([sscanf] with "%d" and "%x",
    [printf] with "%d" and "%02x"). *)

From Stdlib Require Import ZArith Lia Ascii String.
From stdpp Require Import base list sets.
From S2P Require Import Prelude.

Local Open Scope Z_scope.

(** ** Characters and strings *)

Abbreviation str := (list ascii).

Definition lit (s : string) : str := list_ascii_of_string s.

Definition code (c : ascii) : Z := Z.of_nat (nat_of_ascii c).
Definition chr (z : Z) : ascii := ascii_of_nat (Z.to_nat z).

(** [isspace] of the C locale. *)
Definition is_space (c : ascii) : bool :=
  bool_decide (code c = 32 ∨ 9 ≤ code c ≤ 13).

(** The value of a digit in base 10 or 16. *)
Definition digit_val (base : Z) (c : ascii) : option Z :=
  let v :=
    if bool_decide (48 ≤ code c ≤ 57) then code c - 48
    else if bool_decide (97 ≤ code c ≤ 102) then code c - 87
    else if bool_decide (65 ≤ code c ≤ 70) then code c - 55
    else base in
  if bool_decide (v < base) then Some v else None.

(** ** The C library: scanning *)

(** The longest prefix of digits: its value continued from [v], and whether it
    has a digit. *)
Fixpoint scan_digits (base v : Z) (s : str) : Z * bool :=
  match s with
  | [] => (v, false)
  | c :: s =>
      match digit_val base c with
      | Some d => ((scan_digits base (v * base + d) s).1, true)
      | None => (v, false)
      end
  end.

Fixpoint skip_space (s : str) : str :=
  match s with
  | c :: s' => if is_space c then skip_space s' else s
  | [] => []
  end.

(** An optional sign. *)
Definition scan_sign (s : str) : bool * str :=
  match s with
  | c :: s' =>
      if bool_decide (c = "-"%char) then (true, s')
      else if bool_decide (c = "+"%char) then (false, s') else (false, s)
  | [] => (false, [])
  end.

(** [sscanf(s, "%d", &n)]: [strtol] saturates at 64 bits, the result is stored
    as an [int]; [None] when no digit matches and [n] is left alone. *)
Definition sscanf_d (s : str) : option Z :=
  let '(neg, s) := scan_sign (skip_space s) in
  let '(v, some) := scan_digits 10 0 s in
  if some
  then Some (i32 (Z.max (- 2 ^ 63) (Z.min (2 ^ 63 - 1) (if neg then - v else v))))
  else None.

(** [sscanf(s, "%x", &n)]: an optional [0x]; [strtoul] saturates at 64 bits. *)
Definition sscanf_x (s : str) : option Z :=
  let '(neg, s) := scan_sign (skip_space s) in
  let r :=
    match s with
    | z :: x :: s' =>
        if bool_decide (z = "0"%char ∧ (x = "x"%char ∨ x = "X"%char))
        then ((scan_digits 16 0 s').1, true) else scan_digits 16 0 s
    | _ => scan_digits 16 0 s
    end in
  let v := r.1 in
  if r.2
  then Some (i32 (if decide (2 ^ 64 ≤ v) then 2 ^ 64 - 1 else if neg then - v else v))
  else None.

(** ** The C library: printing *)

Definition digit (d : Z) : ascii := chr (if decide (d < 10) then 48 + d else 87 + d).

Fixpoint print_digits (fuel : nat) (n : Z) (acc : str) : str :=
  match fuel with
  | O => acc
  | S fuel =>
      let acc := digit (n mod 10) :: acc in
      if decide (n / 10 = 0) then acc else print_digits fuel (n / 10) acc
  end.

(** ["%d"] of an [int]: ten digits are enough. *)
Definition print_d (n : Z) : str :=
  if decide (n < 0) then "-"%char :: print_digits 10 (- n) [] else print_digits 10 n [].

(** ["%02x"] of a byte. *)
Definition print_02x (b : Z) : str := [digit (b / 16); digit (b mod 16)].

(** ** src/api/dagaddr/cpp/utils.cpp *)

(** [std::getline] on a delimiter: no item follows a final delimiter. *)
Fixpoint split_aux (delim : ascii) (s item : str) : list str :=
  match s with
  | [] => match item with [] => [] | _ => [item] end
  | c :: s =>
      if decide (c = delim) then item :: split_aux delim s [] else split_aux delim s (item ++ [c])
  end.

Definition split (s : str) (delim : ascii) : list str := split_aux delim s [].

Definition is_blank (c : ascii) : bool := bool_decide (c = " "%char ∨ code c = 9).

Fixpoint drop_blank (s : str) : str :=
  match s with
  | c :: s' => if is_blank c then drop_blank s' else s
  | [] => []
  end.

(** [trim]: from the first to the last character that is not blank. *)
Definition trim (s : str) : str := rev (drop_blank (rev (drop_blank s))).

(** [stoi]: bases other than 10 and 16 read decimal. *)
Definition stoi (s : str) (base : Z) : Z :=
  default (-1) (if decide (base = 16) then sscanf_x s else sscanf_d s).

(** [s.find(sub) != npos], and [strstr(s, sub) != NULL]. *)
Fixpoint contains (sub s : str) : bool :=
  bool_decide (take (length sub) s = sub) ||
  match s with [] => false | _ :: s => contains sub s end.

(** ** Lemmas: digits *)

Lemma code_chr z : 0 ≤ z < 256 → code (chr z) = z.
Proof. intros. unfold code, chr. rewrite nat_ascii_embedding; lia. Qed.

Lemma digit_val_digit base d : 0 ≤ d < base → base ≤ 16 → digit_val base (digit d) = Some d.
Proof.
  intros Hd Hb. unfold digit_val, digit. case_decide; rewrite code_chr by lia;
  repeat (case_bool_decide; try lia); f_equal; lia.
Qed.

Lemma code_digit d : 0 ≤ d < 16 → 48 ≤ code (digit d) ≤ 57 ∨ 97 ≤ code (digit d) ≤ 102.
Proof. intros. unfold digit. case_decide; rewrite code_chr by lia; lia. Qed.

(** Every character of [s] is a digit below [base]. *)
Definition all_digits (base : Z) (s : str) : Prop := Forall (λ c, is_Some (digit_val base c)) s.

(** [rest] does not continue a number. *)
Definition ends_number (base : Z) (rest : str) : Prop :=
  match rest with [] => True | c :: _ => digit_val base c = None end.


Lemma scan_digits_app base v s rest : all_digits base s →
  (scan_digits base v (s ++ rest)).1 = (scan_digits base (scan_digits base v s).1 rest).1.
Proof.
  intros Hs. revert v. induction Hs as [|c s [d Hd] Hs IH]; intros v; simpl; [done|].
  rewrite Hd. simpl. apply IH.
Qed.

Lemma scan_digits_end base v rest : ends_number base rest → (scan_digits base v rest).1 = v.
Proof. destruct rest; simpl; [done|]. by intros ->. Qed.

Lemma print_digits_all fuel n acc : 0 ≤ n → all_digits 10 acc → all_digits 10 (print_digits fuel n acc).
Proof.
  revert n acc. induction fuel as [|fuel IH]; intros n acc Hn Hacc; simpl; [done|].
  assert (all_digits 10 (digit (n mod 10) :: acc)).
  { constructor; [|done]. rewrite digit_val_digit; [eauto | | lia].
    apply Z.mod_pos_bound. lia. }
  case_decide; [done|]. apply IH; [apply Z.div_pos; lia | done].
Qed.

Lemma print_digits_scan fuel n acc : 0 ≤ n < 10 ^ Z.of_nat fuel → (0 < fuel)%nat →
  (scan_digits 10 0 (print_digits fuel n acc)).1 = (scan_digits 10 n acc).1.
Proof.
  revert n acc. induction fuel as [|fuel IH]; intros n acc Hn Hf; [lia|]. cbn [print_digits].
  pose proof (Z.div_mod n 10 ltac:(lia)). pose proof (Z.mod_pos_bound n 10 ltac:(lia)).
  assert (∀ v, (scan_digits 10 v (digit (n mod 10) :: acc)).1 =
               (scan_digits 10 (v * 10 + n mod 10) acc).1) as Hcons.
  { intros v. simpl. by rewrite digit_val_digit by lia. }
  case_decide.
  - rewrite Hcons. do 2 f_equal. lia.
  - rewrite Nat2Z.inj_succ, Z.pow_succ_r in Hn by lia.
    destruct fuel as [|fuel]; [simpl in Hn; nia|].
    rewrite IH, Hcons; [do 2 f_equal; lia | | lia].
    split; [apply Z.div_pos; lia | apply Z.div_lt_upper_bound; lia].
Qed.

Lemma print_digits_cons fuel n acc : (0 < fuel)%nat → ∃ c s, print_digits fuel n acc = c :: s.
Proof.
  revert n acc. induction fuel as [|fuel IH]; intros n acc Hf; [lia|]. simpl.
  case_decide; [eauto|]. destruct fuel; [simpl; eauto|]. apply IH; lia.
Qed.

Lemma digit10_plain c : is_Some (digit_val 10 c) → 48 ≤ code c ≤ 57.
Proof.
  unfold digit_val. intros [d Hd]. destruct (decide (48 ≤ code c ≤ 57)); [done|].
  rewrite (bool_decide_false (48 ≤ _ ≤ _)) in Hd by done.
  destruct (decide (97 ≤ code c ≤ 102)) as [|];
    [rewrite (bool_decide_true (97 ≤ _ ≤ _)) in Hd by done
    |rewrite (bool_decide_false (97 ≤ _ ≤ _)) in Hd by done];
    repeat case_bool_decide; simplify_eq; lia.
Qed.

Lemma print_d_digits n : 0 ≤ n → all_digits 10 (print_d n).
Proof.
  intros. unfold print_d. rewrite decide_False by lia.
  apply print_digits_all; [done | constructor].
Qed.

Lemma print_d_cons n : 0 ≤ n → ∃ c s, print_d n = c :: s.
Proof. intros. unfold print_d. rewrite decide_False by lia. apply print_digits_cons. lia. Qed.

Lemma print_d_plain n : 0 ≤ n → Forall (λ c, 48 ≤ code c ≤ 57) (print_d n).
Proof. intros H. eapply Forall_impl; [by apply print_d_digits|]. apply digit10_plain. Qed.

(** Reading back a printed number. *)
Lemma sscanf_d_print n : 0 ≤ n < 2 ^ 31 → sscanf_d (print_d n) = Some n.
Proof.
  intros Hn. unfold sscanf_d. destruct (print_d_cons n ltac:(lia)) as (c & s & Hcs).
  assert (all_digits 10 (c :: s)) as Hd by (rewrite <-Hcs; apply print_d_digits; lia).
  inversion Hd as [|?? Hc _]; subst. apply digit10_plain in Hc as Hcode. rewrite Hcs. simpl.
  unfold is_space. rewrite bool_decide_false by lia. cbn [scan_sign].
  rewrite !bool_decide_false by (intros ->; by destruct Hcode as [[] _]).
  assert ((scan_digits 10 0 (c :: s)) = (n, true)) as ->.
  { rewrite (surjective_pairing (scan_digits _ _ _)). f_equal.
    - rewrite <-Hcs. unfold print_d. rewrite decide_False by lia.
      rewrite print_digits_scan; [done | simpl; lia | lia].
    - simpl. destruct Hc as [d ->]. done. }
  f_equal. unfold i32. rewrite Z.min_r, Z.max_r by lia. apply wrapS_small; simpl; lia.
Qed.

Lemma stoi_print_d n : 0 ≤ n < 2 ^ 31 → stoi (print_d n) 10 = n.
Proof. intros. unfold stoi. simpl. by rewrite sscanf_d_print. Qed.

Lemma stoi_print_02x b : is_byte b → stoi (print_02x b) 16 = b.
Proof.
  intros Hb. assert (Forall (λ b, stoi (print_02x b) 16 = b) (seqZ 0 256)) as H.
  { apply Forall_forall. intros x Hx.
    assert (bool_decide (Forall (λ b, stoi (print_02x b) 16 = b) (seqZ 0 256)) = true) as Hall
      by (vm_compute; reflexivity).
    apply bool_decide_eq_true in Hall. rewrite Forall_forall in Hall. auto. }
  rewrite Forall_forall in H. apply H, elem_of_seqZ. unfold is_byte in Hb. lia.
Qed.

Lemma print_02x_plain b : is_byte b →
  Forall (λ c, 48 ≤ code c ≤ 57 ∨ 97 ≤ code c ≤ 102) (print_02x b).
Proof.
  unfold is_byte. intros Hb. unfold print_02x.
  pose proof (Z.mod_pos_bound b 16 ltac:(lia)). pose proof (Z.div_mod b 16 ltac:(lia)).
  apply Forall_cons; split; [|apply Forall_singleton]; apply code_digit; lia.
Qed.

(** ** Lemmas: splitting and trimming *)

Lemma split_aux_item delim a s item : delim ∉ a →
  split_aux delim (a ++ delim :: s) item = (item ++ a) :: split_aux delim s [].
Proof.
  revert item. induction a as [|c a IH]; intros item Hnin; simpl.
  - rewrite decide_True by done. by rewrite app_nil_r.
  - rewrite decide_False by set_solver. rewrite IH by set_solver. by rewrite <-app_assoc.
Qed.

Lemma split_aux_last delim a item : delim ∉ a → item ++ a ≠ [] →
  split_aux delim a item = [item ++ a].
Proof.
  revert item. induction a as [|c a IH]; intros item Hnin Hne; simpl.
  - rewrite app_nil_r in *. by destruct item.
  - rewrite decide_False by set_solver. rewrite IH.
    + by rewrite <-app_assoc.
    + set_solver.
    + by destruct item.
Qed.

Lemma split_cons delim a s : delim ∉ a → split (a ++ delim :: s) delim = a :: split s delim.
Proof. apply split_aux_item. Qed.

Lemma split_one delim a : delim ∉ a → a ≠ [] → split a delim = [a].
Proof. intros. by apply split_aux_last. Qed.

(** Items separated, not terminated, by the delimiter. *)
Fixpoint join (delim : ascii) (items : list str) : str :=
  match items with
  | [] => []
  | [a] => a
  | a :: items => a ++ delim :: join delim items
  end.

Lemma split_join delim items : Forall (λ a, delim ∉ a) items → last items ≠ Some [] →
  split (join delim items) delim = items.
Proof.
  induction items as [|a items IH]; intros Hf Hl; [done|].
  inversion Hf as [|?? Ha Hf']; subst. destruct items as [|b items].
  - simpl in *. apply split_one; [done|]. by intros ->.
  - change (join delim (a :: b :: items)) with (a ++ delim :: join delim (b :: items)).
    rewrite split_cons by done. by rewrite IH.
Qed.

(** [s] begins and ends with a character that is not blank. *)
Definition tight (s : str) : Prop :=
  (∃ c s', s = c :: s' ∧ is_blank c = false) ∧ (∃ c s', s = s' ++ [c] ∧ is_blank c = false).

Lemma drop_blank_app s t : Forall (λ c, is_blank c = true) s → drop_blank (s ++ t) = drop_blank t.
Proof. induction 1 as [|c s Hc _ IH]; simpl; [done|]. by rewrite Hc. Qed.

Lemma trim_tight pre s post :
  Forall (λ c, is_blank c = true) pre → Forall (λ c, is_blank c = true) post → tight s →
  trim (pre ++ s ++ post) = s.
Proof.
  intros Hpre Hpost [(c & s1 & Hs1 & Hc) (c' & s2 & Hs2 & Hc')]. unfold trim.
  rewrite drop_blank_app by done.
  assert (drop_blank (s ++ post) = s ++ post) as ->.
  { rewrite Hs1. simpl. by rewrite Hc. }
  rewrite rev_app_distr, drop_blank_app by (by apply Forall_rev).
  rewrite Hs2, rev_unit. simpl. rewrite Hc'. simpl. by rewrite rev_involutive.
Qed.
