(* ===== verification/StdMap.v ===== *)
(** * StdMap: [std::map] with string keys

    The map itself is a finite map; what the C++ class adds is the order of
    iteration, the byte order of the keys, and [operator[]], which inserts a
    value for a key that is absent. *)

From Stdlib Require Import ZArith Lia Ascii String.
From stdpp Require Import base gmap sets list strings sorting.
From S2P Require Import Prelude Text.

Local Open Scope Z_scope.

(** ** The order of the keys *)

Fixpoint str_leb (a b : str) : bool :=
  match a, b with
  | [], _ => true
  | _ :: _, [] => false
  | x :: a, y :: b => if code x <? code y then true else if code y <? code x then false else str_leb a b
  end.

Definition str_le (a b : str) : Prop := str_leb a b = true.
#[global] Instance str_le_dec a b : Decision (str_le a b).
Proof. unfold str_le. apply _. Defined.

(** ** Iteration *)

Definition entry_le {A} (x y : str * A) : Prop := str_le x.1 y.1.
#[global] Instance entry_le_dec {A} (x y : str * A) : Decision (entry_le x y).
Proof. unfold entry_le. apply _. Defined.

Definition entries {A} (m : gmap str A) : list (str * A) := merge_sort entry_le (map_to_list m).

Lemma elem_of_entries {A} (m : gmap str A) k v : (k, v) ∈ entries m ↔ m !! k = Some v.
Proof. unfold entries. rewrite merge_sort_Permutation. apply elem_of_map_to_list. Qed.

Lemma elem_of_keys {A} (m : gmap str A) k : k ∈ (entries m).*1 ↔ is_Some (m !! k).
Proof.
  split.
  - intros ([k' v] & -> & Hin)%list_elem_of_fmap. apply elem_of_entries in Hin. by eexists.
  - intros [v Hv]. apply elem_of_entries in Hv. by apply (list_elem_of_fmap_2 fst _ (k, v)).
Qed.

Lemma entries_NoDup {A} (m : gmap str A) : NoDup (entries m).*1.
Proof. unfold entries. rewrite merge_sort_Permutation. apply NoDup_fst_map_to_list. Qed.

Lemma length_entries {A} (m : gmap str A) : length (entries m) = size m.
Proof. unfold entries. by rewrite merge_sort_Permutation, length_map_to_list. Qed.

(** ** [operator[]] *)

Section index.
Context {A : Type} (zero : A).

(** The value read, and the map after the read. *)
Definition at_key (k : str) (m : gmap str A) : A := default zero (m !! k).
Definition touch (k : str) (m : gmap str A) : gmap str A := <[k := at_key k m]> m.
Definition update_key (k : str) (f : A → A) (m : gmap str A) : gmap str A := <[k := f (at_key k m)]> m.

Lemma touch_present k m : is_Some (m !! k) → touch k m = m.
Proof. intros [v Hv]. unfold touch, at_key. rewrite Hv. by apply insert_id. Qed.

Lemma at_update k f m : at_key k (update_key k f m) = f (at_key k m).
Proof. unfold at_key at 1, update_key. by rewrite lookup_insert_eq. Qed.

Lemma at_update_ne k j f m : j ≠ k → at_key j (update_key k f m) = at_key j m.
Proof. intros Hne. unfold at_key at 1, update_key. by rewrite lookup_insert_ne. Qed.

Lemma at_touch k j m : at_key j (touch k m) = at_key j m.
Proof.
  unfold touch. destruct (decide (j = k)) as [->|Hne]; unfold at_key.
  - by rewrite lookup_insert_eq.
  - by rewrite lookup_insert_ne.
Qed.

Lemma dom_update k f m : is_Some (m !! k) → dom (update_key k f m) = dom m.
Proof. intros [v Hv]. unfold update_key. rewrite dom_insert_L. apply elem_of_dom_2 in Hv. set_solver. Qed.
End index.
