(* ===== verification/ConfParse.v ===== *)
(** * ConfParse: Click's configuration strings (lib/confparse.cc, lib/args.cc)

    The scanners of the router's configuration and handler strings.  A pointer
    into a string is the rest of the string from there; a pointer past the end,
    which [skip_comment] returns for an unfinished comment, is the empty rest
    (every caller only compares it with the end).  Every round of a loop moves
    the pointer, so the length of the string bounds the number of rounds. *)

From Stdlib Require Import ZArith Lia Ascii String.
From stdpp Require Import base gmap sets list.
From S2P Require Import Prelude Text.

Local Open Scope Z_scope.

(** ** Comments, quotes and spaces *)

Definition NL : ascii := chr 10.
Definition CR : ascii := chr 13.
Definition DQUOTE : ascii := chr 34.

(** The text between two pointers. *)
Definition substring (s t : str) : str := take (length s - length t) s.

Definition comment_start (s : str) : bool :=
  match s with
  | c :: d :: _ => bool_decide (c = "/"%char ∧ (d = "/"%char ∨ d = "*"%char))
  | _ => false
  end.

Fixpoint skip_line (s : str) : str :=
  match s with
  | c :: ((d :: r) as t) =>
      if decide (c = NL) then t
      else if decide (c = CR) then (if decide (d = NL) then r else t)
      else skip_line t
  | _ => []
  end.

Fixpoint skip_block (s : str) : str :=
  match s with
  | a :: ((b :: ((_ :: _) as r)) as t) =>
      if decide (a = "*"%char ∧ b = "/"%char) then r else skip_block t
  | _ => []
  end.

Definition skip_comment (s : str) : str :=
  match s with
  | _ :: d :: r => if decide (d = "/"%char) then skip_line r else skip_block r
  | _ => []
  end.

(** The loop of [skip_backslash] over [\<...>]. *)
Fixpoint skip_angle (fuel : nat) (s : str) : str :=
  match fuel, s with
  | S fuel, c :: r =>
      if decide (c = ">"%char) then r
      else if comment_start s then skip_angle fuel (skip_comment s)
      else skip_angle fuel r
  | _, _ => []
  end.

Definition skip_backslash (s : str) : str :=
  match s with
  | _ :: d :: r =>
      if decide (d = "<"%char) then skip_angle (length r) r
      else if decide (d = CR ∧ head r = Some NL) then tail r
      else r
  | _ => []
  end.

Fixpoint double_quote_loop (fuel : nat) (s : str) : str :=
  match fuel, s with
  | S fuel, c :: r =>
      if decide (c = "\"%char) then double_quote_loop fuel (skip_backslash s)
      else if decide (c = DQUOTE) then r
      else double_quote_loop fuel r
  | _, _ => []
  end.

Definition cp_skip_double_quote (s : str) : str := double_quote_loop (length s) (tail s).

Fixpoint single_quote_loop (s : str) : str :=
  match s with
  | [] => []
  | c :: r => if decide (c = "'"%char) then r else single_quote_loop r
  end.

Definition skip_single_quote (s : str) : str := single_quote_loop (tail s).

Fixpoint skip_comment_space_loop (fuel : nat) (s : str) : str :=
  match fuel, s with
  | S fuel, c :: r =>
      if is_space c then skip_comment_space_loop fuel r
      else if comment_start s then skip_comment_space_loop fuel (skip_comment s)
      else s
  | _, _ => s
  end.

Definition cp_skip_comment_space (s : str) : str := skip_comment_space_loop (length s) s.

(** ** Items separated by spaces *)

Fixpoint spacevec_item_loop (fuel : nat) (s : str) : str :=
  match fuel, s with
  | S fuel, c :: r =>
      if decide (c = "/"%char) then (if comment_start s then s else spacevec_item_loop fuel r)
      else if decide (c = DQUOTE) then spacevec_item_loop fuel (cp_skip_double_quote s)
      else if decide (c = "'"%char) then spacevec_item_loop fuel (skip_single_quote s)
      else if decide (c = "\"%char) then
        spacevec_item_loop fuel (if decide (head r = Some "<"%char) then skip_backslash s else r)
      else if is_space c then s
      else spacevec_item_loop fuel r
  | _, _ => s
  end.

Definition skip_spacevec_item (s : str) : str := spacevec_item_loop (length s) s.

(** The first item and what remains. *)
Definition cp_shift_spacevec (s : str) : str * str :=
  let item := cp_skip_comment_space s in
  let item_end := skip_spacevec_item item in
  (substring item item_end, cp_skip_comment_space item_end).

(** ** Arguments separated by commas *)

(** The loop of [partial_uncomment]: [lft] and [rgt] (the pointers [left] and [right]) delimit the text not
    yet in the accumulator. *)
Fixpoint uncomment_loop (fuel : nat) (s lft rgt sa : str) (closed : bool) : str * str :=
  match fuel, s with
  | S fuel, c :: r =>
      if is_space c then uncomment_loop fuel r lft rgt sa closed
      else if comment_start s then uncomment_loop fuel (skip_comment s) lft rgt sa true
      else if decide (c = ","%char) then (sa ++ substring lft rgt, s)
      else
        let '(lft, sa) :=
          if closed then (s, sa ++ substring lft rgt ++ [" "%char]) else (lft, sa) in
        let s' :=
          if decide (c = "'"%char) then skip_single_quote s
          else if decide (c = DQUOTE) then cp_skip_double_quote s
          else if decide (c = "\"%char ∧ head r = Some "<"%char) then skip_backslash s
          else r in
        uncomment_loop fuel s' lft s' sa false
  | _, _ => (sa ++ substring lft rgt, s)
  end.

(** One argument and the rest from the comma on. *)
Definition partial_uncomment (s : str) : str * str :=
  let s := cp_skip_comment_space s in uncomment_loop (length s) s s s [] false.

Fixpoint argvec_loop (fuel : nat) (s : str) : list str :=
  match fuel, s with
  | S fuel, _ :: _ =>
      let '(arg, rest) := partial_uncomment s in
      (if decide (arg ≠ [] ∨ rest ≠ []) then [arg] else []) ++ argvec_loop fuel (tail rest)
  | _, _ => []
  end.

Definition cp_argvec (s : str) : list str := argvec_loop (length s) s.

(** ** Integers (IntArg) *)

Definition int_digit (b : Z) (c : ascii) : option Z :=
  if decide (48 ≤ code c < 48 + Z.min b 10) then Some (code c - 48)
  else if decide (65 ≤ code c < 65 + Z.max 0 (b - 10)) then Some (code c - 55)
  else if decide (97 ≤ code c < 97 + Z.max 0 (b - 10)) then Some (code c - 87)
  else None.

(** The loop of [span]: [pos] is where [s] starts, [last] the end of the last
    digit. *)
Fixpoint span_loop (b : Z) (s : str) (pos last : Z) : Z * Z :=
  match s with
  | [] => (pos, last)
  | c :: s =>
      if decide (c = "_"%char ∧ last = pos) then span_loop b s (pos + 1) last
      else match int_digit b c with
           | Some _ => span_loop b s (pos + 1) (pos + 1)
           | None => (pos, last)
           end
  end.

(** The length of the sign. *)
Definition span_sign (s : str) (is_signed : bool) : Z :=
  match s with
  | c :: _ => if decide ((is_signed = true ∧ c = "-"%char) ∨ c = "+"%char) then 1 else 0
  | [] => 0
  end.

(** The length of the base prefix of [r], and the base. *)
Definition span_base (r : str) (b : Z) : Z * Z :=
  let zero := bool_decide (head r = Some "0"%char) in
  let x := head (tail r) in
  if decide ((b = 0 ∨ b = 16) ∧ (2 < length r)%nat ∧ zero ∧ (x = Some "x"%char ∨ x = Some "X"%char)) then (2, 16)
  else if decide (b = 0 ∧ (2 < length r)%nat ∧ zero ∧ (x = Some "b"%char ∨ x = Some "B"%char)) then (2, 2)
  else (0, if decide (b = 0) then (if zero then 8 else 10) else b).

(** The length of the number at the start of [s], and its base. *)
Definition IntArg_span (s : str) (is_signed : bool) (b : Z) : Z * Z :=
  let k := span_sign s is_signed in
  let '(l, b) := span_base (drop (Z.to_nat k) s) b in
  let first := k + l in
  let '(pos, last) := span_loop b (drop (Z.to_nat first) s) first (first - 1) in
  (if decide (pos ≠ first) then last else if decide (1 < first) then first - 1 else 0, b).

(** [parse] for four-byte integers.  The limb arithmetic is exact until it
    reports a carry, so the value is written out; characters of the span that
    are not digits (sign, prefix, underscores) are skipped. *)
Definition IntArg_value (b : Z) (s : str) : Z :=
  fold_left (λ v c,
    match (if decide (48 ≤ code c ≤ 57) then Some (code c - 48) else int_digit b c) with
    | Some d => v * b + d
    | None => v
    end) s 0.

Definition IntArg_parse (s : str) (is_signed : bool) : option (Z * Z) :=
  let '(n, b) := IntArg_span s is_signed 0 in
  if decide (n = 0) then None
  else
    let v := IntArg_value b (take (Z.to_nat n) s) in
    let negative := is_signed && bool_decide (head s = Some "-"%char) in
    Some (n,
      if negative then - Z.min v (2 ^ 31)
      else Z.min v (if is_signed then 2 ^ 31 - 1 else 2 ^ 32 - 1)).

(** [cp_integer] on a whole string; out-of-range numbers are clamped. *)
Definition cp_integer (s : str) (is_signed : bool) : option Z :=
  match IntArg_parse s is_signed with
  | Some (n, v) => if decide (n = Z.of_nat (length s)) then Some v else None
  | None => None
  end.

(** ** Lemmas: plain text *)

(** Characters with no meaning of their own to the scanners. *)
Definition plain (c : ascii) : Prop :=
  33 ≤ code c ≤ 126 ∧ c ∉ ["/"; DQUOTE; "'"; "\"; ","]%char.

Lemma plain_not_space c : plain c → is_space c = false.
Proof. intros [Hc _]. unfold is_space. apply bool_decide_eq_false. lia. Qed.

Lemma plain_no_comment c s : plain c → comment_start (c :: s) = false.
Proof.
  intros [_ Hc]. destruct s; [done|]. apply bool_decide_eq_false. intros [-> _]. set_solver.
Qed.

Lemma substring_app s t : substring (s ++ t) t = s.
Proof. unfold substring. rewrite length_app, Nat.add_sub. apply take_app_length. Qed.

(** The scanners stop at once at plain text. *)
Lemma skip_space_plain c s : plain c → cp_skip_comment_space (c :: s) = c :: s.
Proof.
  intros Hc. unfold cp_skip_comment_space. cbn [length skip_comment_space_loop].
  by rewrite plain_not_space, plain_no_comment.
Qed.

Lemma skip_space_blank s : cp_skip_comment_space (" "%char :: s) = cp_skip_comment_space s.
Proof. done. Qed.

(** A word ends at a space or at the end of the string. *)
Definition word_end (s : str) : Prop := match s with [] => True | c :: _ => c = " "%char end.

Lemma skip_item_word w s : Forall plain w → word_end s → skip_spacevec_item (w ++ s) = s.
Proof.
  intros Hw Hs. unfold skip_spacevec_item. induction Hw as [|c w Hc Hw IH].
  - destruct s as [|d s]; [done|]. simpl in Hs. by subst d.
  - cbn [length app spacevec_item_loop]. pose proof Hc as [_ Hn].
    rewrite !decide_False by (intros ->; set_solver). by rewrite plain_not_space.
Qed.

(** Taking a word off a list of words separated by spaces. *)
Lemma shift_word w s : Forall plain w → w ≠ [] → word_end s →
  cp_shift_spacevec (w ++ s) = (w, cp_skip_comment_space s).
Proof.
  intros Hw Hne Hs. unfold cp_shift_spacevec. assert (cp_skip_comment_space (w ++ s) = w ++ s) as ->.
  { destruct Hw as [|c w Hc Hw]; [done|]. by apply skip_space_plain. }
  by rewrite skip_item_word, substring_app.
Qed.

Lemma shift_nil : cp_shift_spacevec [] = ([], []).
Proof. done. Qed.

(** ** Lemmas: arguments *)

Lemma uncomment_word w s : Forall plain w → (s = [] ∨ head s = Some ","%char) →
  ∀ fuel lft sa, (length (w ++ s) ≤ fuel)%nat →
  uncomment_loop fuel (w ++ s) (lft ++ w ++ s) (w ++ s) sa false = (sa ++ lft ++ w, s).
Proof.
  intros Hw Hs. induction Hw as [|c w Hc Hw IH]; intros fuel lft sa Hf.
  - simpl app. rewrite app_nil_r. destruct Hs as [->|Hs].
    + destruct fuel; cbn [uncomment_loop]; by rewrite substring_app.
    + destruct s as [|d s]; [done|]. injection Hs as ->. destruct fuel; [simpl in Hf; lia|].
      cbn [uncomment_loop]. assert (comment_start (","%char :: s) = false) as -> by (by destruct s).
      change (is_space ","%char) with false. cbn iota. by rewrite decide_True, substring_app.
  - destruct fuel as [|fuel]; [simpl in Hf; lia|]. pose proof Hc as [_ Hn].
    cbn [app uncomment_loop]. rewrite plain_not_space, plain_no_comment by done.
    rewrite !decide_False by (first [intros ->|intros [-> _]]; set_solver).
    specialize (IH fuel (lft ++ [c]) sa). simpl in Hf. rewrite <-!app_assoc in IH. apply IH. lia.
Qed.

Lemma partial_uncomment_word w s : Forall plain w → (s = [] ∨ head s = Some ","%char) →
  partial_uncomment (w ++ s) = (w, s).
Proof.
  intros Hw Hs. unfold partial_uncomment.
  assert (cp_skip_comment_space (w ++ s) = w ++ s) as ->.
  { destruct Hw as [|c w Hc Hw]; [|by apply skip_space_plain]. destruct Hs as [->|Hs]; [done|].
    destruct s as [|d s]; [done|]. injection Hs as ->. by destruct s. }
  exact (uncomment_word w s Hw Hs (length (w ++ s)) [] [] (le_n _)).
Qed.

(** Splitting plain arguments joined by commas. *)
Lemma argvec_join items : Forall (Forall plain) items → last items ≠ Some [] →
  cp_argvec (join ","%char items) = items.
Proof.
  unfold cp_argvec. intros Hf Hl. assert (∀ fuel, (length (join ","%char items) ≤ fuel)%nat →
    argvec_loop fuel (join ","%char items) = items) as H; [|by apply H].
  induction Hf as [|w items Hw Hf IH]; intros fuel Hfuel; [by destruct fuel|].
  destruct items as [|w' items].
  - simpl in Hl. cbn [join] in *. destruct w as [|c w]; [done|]. destruct fuel; [simpl in Hfuel; lia|].
    cbn [argvec_loop]. pose proof (partial_uncomment_word (c :: w) [] Hw (or_introl eq_refl)) as Hp.
    rewrite app_nil_r in Hp. rewrite Hp. rewrite decide_True by auto. by destruct fuel.
  - change (join ","%char (w :: w' :: items)) with (w ++ ","%char :: join ","%char (w' :: items)) in *.
    assert (∃ c s, w ++ ","%char :: join ","%char (w' :: items) = c :: s) as (c & s & Hcs)
      by (destruct w; simpl; eauto).
    rewrite length_app in Hfuel. cbn [length] in Hfuel. destruct fuel as [|fuel]; [lia|].
    cbn [argvec_loop]. rewrite Hcs at 1. rewrite partial_uncomment_word by auto.
    rewrite decide_True by auto. cbn [tail app]. rewrite IH; [done|exact Hl|lia].
Qed.

(** ** Lemmas: integers *)

Lemma int_digit_10 c : 48 ≤ code c ≤ 57 → int_digit 10 c = Some (code c - 48).
Proof. intros. unfold int_digit. by rewrite decide_True by lia. Qed.

Lemma span_loop_digits s pos last : Forall (λ c, 48 ≤ code c ≤ 57) s →
  span_loop 10 s pos last = (pos + Z.of_nat (length s), if decide (s = []) then last else pos + Z.of_nat (length s)).
Proof.
  intros Hs. revert pos last. induction Hs as [|c s Hc Hs IH]; intros pos last.
  - simpl. by rewrite Z.add_0_r.
  - cbn [span_loop]. rewrite decide_False by (intros [-> _]; by destruct Hc).
    rewrite int_digit_10, IH by done. rewrite (decide_False (P := c :: s = [])) by done.
    cbn [length]. case_decide; [subst; cbn [length]|]; f_equal; lia.
Qed.

Lemma IntArg_value_scan s v : Forall (λ c, 48 ≤ code c ≤ 57) s →
  fold_left (λ v c,
    match (if decide (48 ≤ code c ≤ 57) then Some (code c - 48) else int_digit 10 c) with
    | Some d => v * 10 + d
    | None => v
    end) s v = (scan_digits 10 v s).1.
Proof.
  intros Hs. revert v. induction Hs as [|c s Hc Hs IH]; intros v; [done|].
  cbn [fold_left scan_digits]. rewrite decide_True, IH by done.
  assert (digit_val 10 c = Some (code c - 48)) as ->; [|done].
  unfold digit_val. rewrite (bool_decide_true (48 ≤ code c ≤ 57)) by done. by rewrite bool_decide_true by lia.
Qed.

(** A positive number is printed without leading zeros. *)
Lemma print_digits_head fuel n acc : 0 < n < 10 ^ Z.of_nat fuel →
  ∃ d s, print_digits fuel n acc = digit d :: s ∧ 1 ≤ d ≤ 9.
Proof.
  revert n acc. induction fuel as [|fuel IH]; intros n acc Hn; [simpl in Hn; lia|].
  cbn [print_digits]. rewrite Nat2Z.inj_succ, Z.pow_succ_r in Hn by lia.
  pose proof (Z.div_mod n 10 ltac:(lia)). pose proof (Z.mod_pos_bound n 10 ltac:(lia)).
  case_decide as Hd; [exists (n mod 10), acc; split; [done|lia]|].
  apply IH. pose proof (Z.div_pos n 10). split; [lia|]. apply Z.div_lt_upper_bound; lia.
Qed.

Lemma code_digit_small d : 0 ≤ d ≤ 9 → code (digit d) = 48 + d.
Proof. intros. unfold digit. rewrite decide_True by lia. apply code_chr. lia. Qed.

Lemma print_d_head n : 0 < n < 2 ^ 31 → ∃ c s, print_d n = c :: s ∧ 49 ≤ code c ≤ 57.
Proof.
  intros Hn. unfold print_d. rewrite decide_False by lia.
  destruct (print_digits_head 10 n []) as (d & s & -> & Hd); [simpl; lia|].
  exists (digit d), s. split; [done|]. rewrite code_digit_small; lia.
Qed.

(** The digits of a number, with or without a sign before them. *)
Lemma IntArg_span_digits sg (signed : bool) n : 0 < n < 2 ^ 31 → (sg = [] ∨ sg = ["-"%char] ∧ signed = true) →
  IntArg_span (sg ++ print_d n) signed 0 = (Z.of_nat (length sg + length (print_d n)), 10).
Proof.
  intros Hn Hsg. pose proof (print_d_plain n ltac:(lia)) as Hp.
  destruct (print_d_head n Hn) as (c & s & Hcs & Hc). rewrite Hcs in *.
  assert (c ≠ "0"%char ∧ c ≠ "-"%char ∧ c ≠ "+"%char) as (Hz & Hm & Hpl)
    by (split_and!; intros ->; by destruct Hc as [[] _]).
  unfold IntArg_span.
  assert (span_sign (sg ++ c :: s) signed = Z.of_nat (length sg)) as ->.
  { destruct Hsg as [->|[-> ->]]; cbn; [by rewrite decide_False by tauto|by rewrite decide_True by auto]. }
  rewrite Nat2Z.id, drop_app_length. unfold span_base. cbn [head tail].
  rewrite bool_decide_false by congruence. rewrite !(decide_False (P := _ ∧ _)) by tauto.
  rewrite decide_True by done. rewrite Z.add_0_r, Nat2Z.id, drop_app_length, span_loop_digits by done.
  rewrite (decide_False (P := c :: s = [])) by done. rewrite decide_True by (cbn [length]; lia). f_equal. lia.
Qed.

(** Reading back printed integers. *)
Lemma cp_integer_print n signed : 0 ≤ n < 2 ^ 31 → cp_integer (print_d n) signed = Some n.
Proof.
  intros Hn. destruct (decide (n = 0)) as [->|Hne]; [by destruct signed|].
  unfold cp_integer, IntArg_parse.
  pose proof (IntArg_span_digits [] signed n ltac:(lia) (or_introl eq_refl)) as Hs. cbn [app] in Hs. rewrite Hs.
  destruct (print_d_head n ltac:(lia)) as (c & s & Hcs & Hc).
  rewrite decide_False by (rewrite Hcs; cbn [length]; lia). rewrite Nat2Z.id, take_ge by done.
  cbn [length]. rewrite decide_True by done. unfold IntArg_value.
  rewrite IntArg_value_scan by (apply print_d_plain; lia).
  assert ((scan_digits 10 0 (print_d n)).1 = n) as ->.
  { unfold print_d. rewrite decide_False by lia. by rewrite print_digits_scan by (simpl; lia). }
  rewrite bool_decide_false by (rewrite Hcs; cbn; intros [= ->]; by destruct Hc as [[] _]).
  rewrite andb_false_r. f_equal. destruct signed; lia.
Qed.

Lemma cp_integer_print_neg n : 0 < n < 2 ^ 31 → cp_integer ("-"%char :: print_d n) true = Some (- n).
Proof.
  intros Hn. unfold cp_integer, IntArg_parse.
  pose proof (IntArg_span_digits ["-"%char] true n ltac:(lia) (or_intror (conj eq_refl eq_refl))) as Hs.
  cbn [app] in Hs. rewrite Hs. rewrite decide_False by (cbn [length]; lia).
  rewrite Nat2Z.id, take_ge by done. cbn [length]. rewrite decide_True by done.
  rewrite bool_decide_true by done. cbn [andb]. f_equal.
  assert (IntArg_value 10 ("-"%char :: print_d n) = n) as ->; [|lia].
  unfold IntArg_value. cbn [fold_left]. change (if decide _ then _ else int_digit 10 "-"%char) with (@None Z).
  cbn iota. rewrite IntArg_value_scan by (apply print_d_plain; lia).
  unfold print_d. rewrite decide_False by lia. by rewrite print_digits_scan by (simpl; lia).
Qed.
