(* ===== verification/DagNode.v ===== *)
(** * DagNode: the nodes of an XIA address (class Node of dagaddr.cpp)

    A node is a handle on a shared, reference-counted container that holds an
    XID type and a 20-byte identifier.  [containers] models the handles and the
    containers they share; [Node] is a live handle together with the contents
    of its container, which no operation changes.  Two nodes are equal when
    they share the container, not when they have equal contents. *)

From Stdlib Require Import ZArith Lia Ascii String.
From stdpp Require Import base gmap sets list.
From S2P Require Import Prelude Text.

Local Open Scope Z_scope.

(** ** XID types *)

Definition ID_LEN : nat := 20.

Definition XID_TYPE_UNKNOWN : Z := 0.
Definition XID_TYPE_DUMMY_SOURCE : Z := 255.
Definition XID_TYPE_AD : Z := 16.
Definition XID_TYPE_HID : Z := 17.
Definition XID_TYPE_CID : Z := 18.
Definition XID_TYPE_SID : Z := 19.
Definition XID_TYPE_IP : Z := 20.

Definition INADDR_NONE : Z := 2 ^ 32 - 1.

(** ** Nodes *)

(** [ptr] is the address of the container, [None] for the static [dummy_source_]. *)
Record Node := mkNode { ptr : option nat; n_type : Z; n_id : list Z }.

#[global] Instance Node_eq_dec : EqDecision Node.
Proof. solve_decision. Defined.

Definition dummy_source : Node := mkNode None XID_TYPE_DUMMY_SOURCE (replicate ID_LEN 0).

(** [operator==]. *)
Definition Node_eqb (a b : Node) : bool := bool_decide (ptr a = ptr b).

Definition Node_equal_to (a b : Node) : bool :=
  bool_decide (n_type a = n_type b) && bool_decide (n_id a = n_id b).

Definition type_string_of (t : Z) : str :=
  if decide (t = XID_TYPE_AD) then lit "AD"
  else if decide (t = XID_TYPE_HID) then lit "HID"
  else if decide (t = XID_TYPE_CID) then lit "CID"
  else if decide (t = XID_TYPE_SID) then lit "SID"
  else if decide (t = XID_TYPE_IP) then lit "IP"
  else if decide (t = XID_TYPE_DUMMY_SOURCE) then lit "SOURCE"
  else lit "UNKNOWN".

Definition type_string (n : Node) : str := type_string_of (n_type n).

Definition id_string_of (id : list Z) : str := id ≫= print_02x.

Definition id_string (n : Node) : str := id_string_of (n_id n).

Definition to_string (n : Node) : str := type_string n ++ ":"%char :: id_string n.

(** The type part of [construct_from_strings]. *)
Definition type_of_string (s : str) : Z :=
  if decide (s = lit "AD") then XID_TYPE_AD
  else if decide (s = lit "HID") then XID_TYPE_HID
  else if decide (s = lit "CID") then XID_TYPE_CID
  else if decide (s = lit "SID") then XID_TYPE_SID
  else if decide (s = lit "IP") then XID_TYPE_IP
  else if decide (s = lit "SOURCE") then XID_TYPE_DUMMY_SOURCE
  else 0.

(** The bytes of [int num] stored by [memcpy(&id[i], &num, 1)]; a pair that does
    not parse leaves the zero. *)
Definition hex_pair (id_str : str) (i : nat) : Z :=
  let num := stoi (take 2 (drop (2 * i) id_str)) 16 in
  if decide (num = -1) then 0 else u8 num.

(** A 4ID: some fixed bytes and the address in network order. *)
Definition fourid (ip : Z) : list Z :=
  [69; 0; 0; 0; 0; 1; 0; 0; 250; 250; 0; 0; 0; 0; 0; 0] ++ le_bytes 4 ip.

(** [Node(int type, std::string id_str)]: [substr] throws when the string has no
    position [2 * i]; a pair that does not parse stores the low byte of -1. *)
Definition Node_of_type_hex (alloc : nat) (type : Z) (id_str : str) : res (Node * nat) :=
  if decide (Z.of_nat (length id_str) < 38) then Ub Uncaught
  else
    Ok (mkNode (Some alloc) (u32 type)
          ((λ i, u8 (stoi (take 2 (drop (2 * i) id_str)) 16)) <$> seq 0 ID_LEN), S alloc).

(** [Node(uint32_t type, const void *id, int)]. *)
Definition Node_of_id (alloc : nat) (type : Z) (id : list Z) : Node * nat :=
  (mkNode (Some alloc) type (take ID_LEN id), S alloc).

Section strings.
(** The C library's [inet_addr]. *)
Variable inet_addr : str → Z.

Definition construct_from_strings (type_str id_str : str) : Z * list Z :=
  let type := type_of_string type_str in
  let ip := inet_addr id_str in
  (type,
   if decide (type = XID_TYPE_IP ∧ ip ≠ INADDR_NONE) then fourid ip
   else if decide (length id_str ≠ 40%nat) then replicate ID_LEN 0
   else hex_pair id_str <$> seq 0 ID_LEN).

Definition Node_of_strings (alloc : nat) (type_str id_str : str) : Node * nat :=
  let ti := construct_from_strings type_str id_str in
  (mkNode (Some alloc) ti.1 ti.2, S alloc).

(** [Node(std::string)]: the text before and after the first colon; no check
    that there is one. *)
Definition Node_of_string (alloc : nat) (s : str) : res (Node * nat) :=
  let xid_elems := split s ":"%char in
  t ← vget xid_elems 0;
  i ← vget xid_elems 1;
  Ok (Node_of_strings alloc t i).
End strings.

(** ** Shared containers *)

Record container := mkContainer { c_type : Z; c_id : list Z; ref_count : Z }.

(** The live [Node] objects, by name, and the containers on the heap. *)
Record containers := mkContainers {
  handles : gmap nat (option nat);
  cheap : gmap nat container;
  cnext : nat }.

Definition acquire (p : option nat) (s : containers) : res containers :=
  match p with
  | None => Ok s
  | Some a =>
      c ← deref (cheap s) p;
      Ok (mkContainers (handles s)
            (<[a := mkContainer (c_type c) (c_id c) (u64 (ref_count c + 1))]> (cheap s)) (cnext s))
  end.

(** [release] on the object [v]: the last reference deletes the container and
    points the object at [dummy_source_]. *)
Definition release (v : nat) (s : containers) : res containers :=
  p ← (match handles s !! v with Some p => Ok p | None => Ub NullDeref end);
  match p with
  | None => Ok s
  | Some a =>
      c ← deref (cheap s) p;
      let n := u64 (ref_count c - 1) in
      if decide (n = 0)
      then Ok (mkContainers (<[v := None]> (handles s)) (delete a (cheap s)) (cnext s))
      else Ok (mkContainers (handles s)
                 (<[a := mkContainer (c_type c) (c_id c) n]> (cheap s)) (cnext s))
  end.

Definition set_handle (v : nat) (p : option nat) (s : containers) : containers :=
  mkContainers (<[v := p]> (handles s)) (cheap s) (cnext s).

Definition Node_default (v : nat) (s : containers) : containers := set_handle v None s.

(** The constructors that allocate a container. *)
Definition Node_alloc (v : nat) (type : Z) (id : list Z) (s : containers) : containers :=
  mkContainers (<[v := Some (cnext s)]> (handles s))
    (<[cnext s := mkContainer type id 1]> (cheap s)) (S (cnext s)).

Definition get_handle (v : nat) (s : containers) : res (option nat) :=
  match handles s !! v with Some p => Ok p | None => Ub NullDeref end.

Definition Node_copy (v r : nat) (s : containers) : res containers :=
  p ← get_handle r s; acquire p (set_handle v p s).

Definition Node_destroy (v : nat) (s : containers) : res containers :=
  s ← release v s; Ok (mkContainers (delete v (handles s)) (cheap s) (cnext s)).

(** [operator=]: the source is read after the target is released. *)
Definition Node_assign (v r : nat) (s : containers) : res containers :=
  s ← release v s;
  p ← get_handle r s;
  acquire p (set_handle v p s).

(** One statement of a program that uses nodes. *)
Inductive node_op : Type :=
  | OpDefault (v : nat)
  | OpNew (v : nat) (type : Z) (id : list Z)
  | OpCopy (v r : nat)
  | OpDestroy (v : nat)
  | OpAssign (v r : nat).

Definition exec_op (o : node_op) (s : containers) : res containers :=
  match o with
  | OpDefault v => Ok (Node_default v s)
  | OpNew v t i => Ok (Node_alloc v t i s)
  | OpCopy v r => Node_copy v r s
  | OpDestroy v => Node_destroy v s
  | OpAssign v r => Node_assign v r s
  end.

(** The scoping rules of C++: constructors build new objects, everything else
    uses live ones. *)
Definition scoped (o : node_op) (s : containers) : Prop :=
  match o with
  | OpDefault v | OpNew v _ _ => handles s !! v = None
  | OpCopy v r => handles s !! v = None ∧ is_Some (handles s !! r)
  | OpDestroy v => is_Some (handles s !! v)
  | OpAssign v r => is_Some (handles s !! v) ∧ is_Some (handles s !! r)
  end.

(** ** Lemmas: printing and parsing nodes *)

(** The types with a name of their own, and 0, which is printed as unknown. *)
Definition known_type (t : Z) : Prop := t ∈ [0; 16; 17; 18; 19; 20; 255].

Definition valid_id (id : list Z) : Prop := length id = ID_LEN ∧ Forall is_byte id.

Lemma type_of_type_string t : known_type t → type_of_string (type_string_of t) = t.
Proof. unfold known_type. rewrite !elem_of_cons, elem_of_nil. intros H. by repeat destruct H as [->|H]. Qed.

Lemma length_id_string id : length (id_string_of id) = (2 * length id)%nat.
Proof. unfold id_string_of. induction id as [|b id IH]; [done|]. rewrite bind_cons, length_app, IH. simpl. lia. Qed.

Lemma hex_pair_id_string id i b : Forall is_byte id → id !! i = Some b →
  hex_pair (id_string_of id) i = b.
Proof.
  intros Hid Hi. assert (is_byte b) as Hb by (rewrite Forall_lookup in Hid; eauto).
  assert (take 2 (drop (2 * i) (id_string_of id)) = print_02x b) as Hp.
  { revert i Hi. clear Hid Hb. induction id as [|a id IH]; intros i Hi; [done|].
    destruct i as [|i]; simpl in Hi; simplify_eq.
    - unfold id_string_of. simpl. by rewrite take_0.
    - replace (2 * S i)%nat with (S (S (2 * i))) by lia. apply (IH i Hi). }
  unfold hex_pair. rewrite Hp, stoi_print_02x by done. unfold is_byte in Hb.
  rewrite decide_False by lia. apply wrapU_small. simpl. lia.
Qed.

Lemma hex_pairs_id_string id : valid_id id → hex_pair (id_string_of id) <$> seq 0 ID_LEN = id.
Proof.
  intros [Hlen Hb]. apply list_eq. intros i. rewrite list_lookup_fmap.
  destruct (decide (i < ID_LEN)%nat) as [Hi|Hi].
  - rewrite lookup_seq_lt by done. simpl.
    destruct (lookup_lt_is_Some_2 id i ltac:(lia)) as [b Hib].
    by rewrite (hex_pair_id_string id i b), Hib.
  - rewrite lookup_seq_ge by lia. simpl. symmetry. apply lookup_ge_None. lia.
Qed.

Lemma construct_id_string inet_addr t id : known_type t → valid_id id →
  (t = XID_TYPE_IP → inet_addr (id_string_of id) = INADDR_NONE) →
  construct_from_strings inet_addr (type_string_of t) (id_string_of id) = (t, id).
Proof.
  intros Ht Hid Hip. unfold construct_from_strings. rewrite type_of_type_string by done.
  f_equal. rewrite decide_False by naive_solver. rewrite length_id_string.
  rewrite decide_False by (destruct Hid as [-> _]; intros Hne; by apply Hne). by apply hex_pairs_id_string.
Qed.

(** The characters a printed node can have. *)
Definition node_char (c : ascii) : Prop :=
  48 ≤ code c ≤ 58 ∨ 65 ≤ code c ≤ 90 ∨ 97 ≤ code c ≤ 102.

Lemma type_string_upper t : Forall (λ c, 65 ≤ code c ≤ 90) (type_string_of t).
Proof.
  unfold type_string_of. repeat case_decide;
  apply Forall_forall; intros c Hc; unfold lit in Hc; simpl in Hc;
  rewrite ?elem_of_cons, ?elem_of_nil in Hc; destruct_or?; subst; try done; vm_compute; split; done.
Qed.

Lemma id_string_hex id : Forall is_byte id →
  Forall (λ c, 48 ≤ code c ≤ 57 ∨ 97 ≤ code c ≤ 102) (id_string_of id).
Proof.
  intros Hid. unfold id_string_of. induction Hid as [|b id Hb _ IH]; [constructor|].
  rewrite bind_cons. apply Forall_app. eauto using print_02x_plain.
Qed.

Lemma to_string_chars n : Forall is_byte (n_id n) → Forall node_char (to_string n).
Proof.
  intros Hid. unfold to_string. apply Forall_app. split.
  - eapply Forall_impl; [apply type_string_upper|]. unfold node_char. simpl. lia.
  - constructor; [left; vm_compute; done|].
    eapply Forall_impl; [by apply id_string_hex|]. unfold node_char. simpl. lia.
Qed.

Lemma Forall_not_elem {P : ascii → Prop} (c : ascii) s : Forall P s → ¬ P c → c ∉ s.
Proof. rewrite Forall_forall. eauto. Qed.

Lemma Node_of_to_string inet_addr alloc n : known_type (n_type n) → valid_id (n_id n) →
  (n_type n = XID_TYPE_IP → inet_addr (id_string n) = INADDR_NONE) →
  Node_of_string inet_addr alloc (to_string n) = Ok (mkNode (Some alloc) (n_type n) (n_id n), S alloc).
Proof.
  intros Ht Hid Hip. unfold Node_of_string, to_string.
  assert (":"%char ∉ type_string n) as Hc1.
  { eapply Forall_not_elem; [apply type_string_upper|]. vm_compute. naive_solver. }
  assert (":"%char ∉ id_string n) as Hc2.
  { eapply Forall_not_elem; [apply id_string_hex; by destruct Hid|]. vm_compute. naive_solver. }
  rewrite split_cons, split_one; [|done| |done].
  - change (Ok (Node_of_strings inet_addr alloc (type_string n) (id_string n)) =
      Ok (mkNode (Some alloc) (n_type n) (n_id n), S alloc)).
    unfold Node_of_strings, type_string, id_string.
    by rewrite construct_id_string.
  - intros Hnil%(f_equal length). unfold id_string in Hnil.
    rewrite length_id_string in Hnil. destruct Hid as [Hlen _]. by rewrite Hlen in Hnil.
Qed.

(** ** Lemmas: reference counts *)

Definition refs (hs : gmap nat (option nat)) (a : nat) : nat :=
  size (filter (λ vp, vp.2 = Some a) hs).

Lemma refs_insert hs v p a : hs !! v = None →
  refs (<[v := p]> hs) a = (refs hs a + if decide (p = Some a) then 1 else 0)%nat.
Proof.
  intros Hv. unfold refs. case_decide as Hp.
  - rewrite map_filter_insert_True by done. rewrite map_size_insert_None; [lia|].
    apply map_lookup_filter_None. auto.
  - rewrite map_filter_insert_False, delete_id by done. lia.
Qed.

Lemma refs_delete hs v p a : hs !! v = Some p →
  refs hs a = (refs (delete v hs) a + if decide (p = Some a) then 1 else 0)%nat.
Proof.
  intros Hv. rewrite <-(insert_delete_id hs v p) at 1 by done.
  apply refs_insert, lookup_delete_eq.
Qed.

Lemma refs_le hs a : (refs hs a ≤ size hs)%nat.
Proof. apply map_size_filter. Qed.

(** The containers account for exactly the references in [hs]. *)
Record accounted (hs : gmap nat (option nat)) (h : gmap nat container) : Prop := {
  acc_count a c : h !! a = Some c → ref_count c = Z.of_nat (refs hs a) ∧ (0 < refs hs a)%nat;
  acc_live v a : hs !! v = Some (Some a) → is_Some (h !! a) }.

Lemma acquire_ok hs s v p : accounted hs (cheap s) → hs !! v = None →
  (∀ a, p = Some a → is_Some (cheap s !! a)) → Z.of_nat (size hs) + 1 < 2 ^ 64 →
  ∃ s', acquire p s = Ok s' ∧ accounted (<[v := p]> hs) (cheap s') ∧
    handles s' = handles s ∧ cnext s' = cnext s.
Proof.
  intros [Hc Hl] Hv Hp Hsz. destruct p as [a|].
  - destruct (Hp a eq_refl) as [c Ha]. destruct (Hc a c Ha) as [Hr Hpos].
    pose proof (refs_le hs a). unfold acquire. rewrite (deref_Some _ _ _ Ha). cbn [mbind res_bind].
    eexists. split_and!; [done| |done|done]. cbn [cheap]. split.
    + intros a' c' Ha'. rewrite refs_insert by done.
      apply lookup_insert_Some in Ha' as [[<- <-]|[Hne Ha']].
      * rewrite decide_True by done. cbn [ref_count]. split; [|lia].
        unfold u64. rewrite wrapU_small by lia. lia.
      * rewrite decide_False by congruence. destruct (Hc _ _ Ha'). split; lia.
    + intros v' a' Hv'. destruct (decide (a' = a)) as [->|]; [rewrite lookup_insert_eq; eauto|].
      rewrite lookup_insert_ne by done.
      apply lookup_insert_Some in Hv' as [[_ [=]]|[_ Hv']]; [congruence|eauto].
  - eexists. split_and!; [done| |done|done]. split.
    + intros a c Ha. rewrite refs_insert by done. rewrite decide_False by done.
      destruct (Hc a c Ha). split; lia.
    + intros v' a Hv'. apply lookup_insert_Some in Hv' as [[_ ?]|[_ ?]]; [done|eauto].
Qed.

Lemma release_ok hs s v p : accounted hs (cheap s) → hs !! v = Some p → handles s !! v = Some p →
  Z.of_nat (size hs) < 2 ^ 64 →
  ∃ s', release v s = Ok s' ∧ accounted (delete v hs) (cheap s') ∧ cnext s' = cnext s ∧
    (handles s' = handles s ∧ (∀ a, p = Some a → (1 < refs hs a)%nat) ∨
     handles s' = <[v := None]> (handles s) ∧ (∀ a, p = Some a → refs hs a = 1%nat)).
Proof.
  intros [Hc Hl] Hv Hhv Hsz. unfold release. rewrite Hhv. cbn [mbind res_bind].
  pose proof (λ a, refs_delete hs v p a Hv) as Hrd.
  assert (∀ v' a, delete v hs !! v' = Some (Some a) → is_Some (cheap s !! a)) as Hl'.
  { intros v' a Hv'. apply lookup_delete_Some in Hv' as [_ ?]. eauto. }
  destruct p as [a|].
  - destruct (Hl v a Hv) as [c Ha]. destruct (Hc a c Ha) as [Hr Hpos]. pose proof (refs_le hs a).
    rewrite (deref_Some _ _ _ Ha). cbn [mbind res_bind]. rewrite Hr.
    unfold u64. rewrite wrapU_small by lia. pose proof (Hrd a) as Hda.
    rewrite decide_True in Hda by done. case_decide as Hz.
    + eexists. split_and!; [done| |done|]; [|right; split; [done|]; intros ? [= <-]; lia].
      cbn [cheap]. split.
      * intros a' c' Ha'. apply lookup_delete_Some in Ha' as [Hne Ha'].
        destruct (Hc a' c' Ha'). specialize (Hrd a'). rewrite decide_False in Hrd by congruence.
        split; lia.
      * intros v' a' Hv'. rewrite lookup_delete_ne; [by eauto|]. intros <-.
        assert (0 < refs (delete v hs) a)%nat; [|lia]. rewrite (refs_delete _ v' (Some a)) by done.
        rewrite decide_True by done. lia.
    + eexists. split_and!; [done| |done|]; [|left; split; [done|]; intros ? [= <-]; lia].
      cbn [cheap]. split.
      * intros a' c' Ha'. apply lookup_insert_Some in Ha' as [[<- <-]|[Hne Ha']].
        { cbn [ref_count]. split; lia. }
        destruct (Hc a' c' Ha'). specialize (Hrd a'). rewrite decide_False in Hrd by congruence.
        split; lia.
      * intros v' a' Hv'. destruct (decide (a' = a)) as [->|]; [rewrite lookup_insert_eq; eauto|].
        rewrite lookup_insert_ne by done. eauto.
  - exists s. split_and!; [done| |done|left; split; [done|]; intros ? [=]].
    split; [|done]. intros a c Ha. destruct (Hc a c Ha). specialize (Hrd a).
    rewrite decide_False in Hrd by done. split; lia.
Qed.

Lemma refs_pos hs a : (0 < refs hs a)%nat → ∃ v, hs !! v = Some (Some a).
Proof.
  intros H. unfold refs in H. destruct (map_choose (filter (λ vp, vp.2 = Some a) hs)) as (v & p & Hp).
  { intros Heq. rewrite Heq, map_size_empty in H. lia. }
  apply map_lookup_filter_Some in Hp as [Hp Heq]. simpl in Heq. subst. eauto.
Qed.

(** The containers of [s'] are containers of [s] with the same contents. *)
Definition same_contents (s s' : containers) : Prop :=
  ∀ a c', cheap s' !! a = Some c' →
    ∃ c, cheap s !! a = Some c ∧ c_type c = c_type c' ∧ c_id c = c_id c'.

Lemma acquire_contents p s s' : acquire p s = Ok s' → same_contents s s'.
Proof.
  unfold acquire. intros H a c' Ha. destruct p as [b|]; [|simplify_eq; eauto].
  res_inv H. apply deref_Ok in Ha0 as (? & [= <-] & Hb). injection H as <-. cbn [cheap] in Ha.
  apply lookup_insert_Some in Ha as [[<- <-]|[_ ?]]; eauto.
Qed.

Lemma release_contents v s s' : release v s = Ok s' → same_contents s s'.
Proof.
  unfold release. intros H a c' Ha. res_inv H; simplify_eq; cbn [cheap] in *.
  all: repeat match goal with Hd : deref _ _ = Ok _ |- _ => apply deref_Ok in Hd as (? & [= <-] & Hd) end.
  all: try (apply lookup_delete_Some in Ha as [_ ?]); try (apply lookup_insert_Some in Ha as [[<- <-]|[_ ?]]).
  all: eauto.
Qed.

(** Memory is consistent: containers count the live objects that share them,
    and addresses not yet allocated are unused. *)
Record counted (s : containers) : Prop := {
  cnt_acc : accounted (handles s) (cheap s);
  cnt_fresh a : (cnext s ≤ a)%nat → cheap s !! a = None }.

Lemma same_fresh s s' n : same_contents s s' → (∀ a, (n ≤ a)%nat → cheap s !! a = None) →
  ∀ a, (n ≤ a)%nat → cheap s' !! a = None.
Proof.
  intros Hs Hf a Ha. destruct (cheap s' !! a) eqn:E; [|done].
  destruct (Hs _ _ E) as (? & Ha' & _). by rewrite Hf in Ha'.
Qed.

Lemma accounted_none hs h v : hs !! v = None → accounted hs h → accounted (<[v := None]> hs) h.
Proof.
  intros Hv [Hc Hl]. split.
  - intros a c Ha. rewrite refs_insert, decide_False by done. destruct (Hc a c Ha). split; lia.
  - intros v' a Hv'. apply lookup_insert_Some in Hv' as [[_ ?]|[_ ?]]; [done|eauto].
Qed.

Lemma alloc_accounted s v t i : accounted (handles s) (cheap s) →
  (∀ a, (cnext s ≤ a)%nat → cheap s !! a = None) → handles s !! v = None →
  accounted (<[v := Some (cnext s)]> (handles s)) (<[cnext s := mkContainer t i 1]> (cheap s)).
Proof.
  intros [Hc Hl] Hf Hv.
  assert (refs (handles s) (cnext s) = 0%nat) as Hz.
  { unfold refs. apply map_size_empty_iff, map_eq. intros v'. rewrite lookup_empty.
    apply map_lookup_filter_None. right. intros p Hp Hp'. simpl in Hp'. subst p.
    destruct (Hl _ _ Hp) as [c Hc']. rewrite Hf in Hc'; [done|lia]. }
  split.
  - intros a c Ha. rewrite refs_insert by done.
    apply lookup_insert_Some in Ha as [[<- <-]|[Hne Ha]].
    + rewrite decide_True, Hz by done. simpl. lia.
    + rewrite decide_False by congruence. destruct (Hc a c Ha). split; lia.
  - intros v' a Hv'. destruct (decide (a = cnext s)) as [->|]; [rewrite lookup_insert_eq; eauto|].
    rewrite lookup_insert_ne by done.
    apply lookup_insert_Some in Hv' as [[_ [=]]|[_ Hv']]; [congruence|eauto].
Qed.

Lemma assign_ok s v r : counted s → is_Some (handles s !! v) → is_Some (handles s !! r) →
  Z.of_nat (size (handles s)) + 1 < 2 ^ 64 →
  ∃ s' p, Node_assign v r s = Ok s' ∧ handles s' = <[v := p]> (handles s) ∧
    accounted (handles s') (cheap s') ∧ cnext s' = cnext s ∧ same_contents s s' ∧
    (v ≠ r → handles s !! r = Some p) ∧
    (v = r → p = None ∨ handles s !! r = Some p ∧ ∀ a, p = Some a → (1 < refs (handles s) a)%nat).
Proof.
  intros [Hacc Hf] [pv Hv] [pr Hr] Hsz.
  destruct (release_ok _ _ _ _ Hacc Hv Hv ltac:(lia)) as (s1 & Hs1 & Hacc1 & Hn1 & Hh1).
  assert (∃ p, get_handle r s1 = Ok p ∧ (v ≠ r → p = pr) ∧
     (v = r → p = None ∨ p = pr ∧ ∀ a, p = Some a → (1 < refs (handles s) a)%nat)) as (p & Hg & Hne & Heq).
  { unfold get_handle. destruct (decide (v = r)) as [<-|Hvr].
    - assert (pv = pr) as -> by congruence.
      destruct Hh1 as [[-> Hm]|[-> Hm]]; [rewrite Hv|rewrite lookup_insert_eq]; naive_solver.
    - assert (handles s1 !! r = Some pr) as ->; [|naive_solver].
      destruct Hh1 as [[-> _]|[-> _]]; [done|by rewrite lookup_insert_ne]. }
  destruct (acquire_ok (delete v (handles s)) (set_handle v p s1) v p Hacc1) as
    (s' & Hs' & Hacc' & Hh' & Hn').
  { apply lookup_delete_eq. }
  { intros a ->. cbn [set_handle cheap]. destruct (decide (v = r)) as [<-|Hvr].
    - destruct (Heq eq_refl) as [?|[<- Hm]]; [done|].
      destruct (refs_pos (delete v (handles s)) a) as [v' Hv'].
      { specialize (Hm a eq_refl). rewrite (refs_delete _ v (Some a)) in Hm by congruence.
        rewrite decide_True in Hm by done. lia. }
      by apply (acc_live _ _ Hacc1 v').
    - apply (acc_live _ _ Hacc1 r). rewrite lookup_delete_ne by done. by rewrite Hne. }
  { rewrite map_size_delete, Hv. lia. }
  assert (handles s' = <[v := p]> (handles s)) as Hhs.
  { rewrite Hh'. cbn [set_handle handles]. destruct Hh1 as [[-> _]|[-> _]]; [done|].
    apply insert_insert_eq. }
  exists s', p. split_and!.
  - unfold Node_assign. rewrite Hs1. cbn [mbind res_bind]. by rewrite Hg.
  - done.
  - rewrite Hhs. by rewrite insert_delete_eq in Hacc'.
  - by rewrite Hn'.
  - intros a c' Ha. destruct (acquire_contents _ _ _ Hs' a c' Ha) as (c1 & Hc1 & <- & <-).
    by apply (release_contents _ _ _ Hs1).
  - intros ?. by rewrite Hne.
  - intros <-. destruct (Heq eq_refl) as [|[-> ?]]; auto.
Qed.

(** C18: reference counting is correct: from a consistent state, every statement
    a program can make runs without touching freed memory and leaves the counts
    equal to the number of live objects that share each container; a container
    still in use is never freed and never changes. *)
Theorem node_memory_safe o s : counted s → scoped o s →
  Z.of_nat (size (handles s)) + 1 < 2 ^ 64 →
  ∃ s', exec_op o s = Ok s' ∧ counted s' ∧
    (∀ v a, handles s !! v = Some (Some a) → handles s' !! v = Some (Some a) →
       ∃ c c', cheap s !! a = Some c ∧ cheap s' !! a = Some c' ∧
         c_type c = c_type c' ∧ c_id c = c_id c').
Proof.
  intros Hcnt Hsc Hsz.
  enough (∃ s', exec_op o s = Ok s' ∧ counted s' ∧
    ∀ v a, handles s !! v = Some (Some a) → handles s' !! v = Some (Some a) →
      ∀ c', cheap s' !! a = Some c' →
      ∃ c, cheap s !! a = Some c ∧ c_type c = c_type c' ∧ c_id c = c_id c') as (s' & He & Hc' & Hs').
  { exists s'. split_and!; [done..|]. intros v a Hv Hv'.
    destruct (acc_live _ _ (cnt_acc _ Hc') v a Hv') as [c' Ha].
    destruct (Hs' v a Hv Hv' c' Ha) as (c & ? & ? & ?). by exists c, c'. }
  pose proof Hcnt as [Hacc Hf]. destruct o as [v|v t i|v r|v|v r]; cbn [exec_op scoped] in *.
  - eexists. split_and!; [done| |eauto]. split; [by apply accounted_none|done].
  - eexists. split_and!; [done|split|].
    + by apply alloc_accounted.
    + intros a Ha. cbn in Ha |- *. rewrite lookup_insert_ne by lia. apply Hf. lia.
    + intros v' a Hv' _ c' Ha. cbn in Ha. destruct (acc_live _ _ Hacc _ _ Hv') as [c Hc].
      rewrite lookup_insert_ne in Ha; [eauto|]. intros <-. by rewrite Hf in Hc.
  - destruct Hsc as [Hv [p Hr]]. unfold Node_copy, get_handle. rewrite Hr. cbn [mbind res_bind].
    destruct (acquire_ok (handles s) (set_handle v p s) v p Hacc Hv) as (s' & Hs' & Ha' & Hh' & Hn').
    { intros a ->. by apply (acc_live _ _ Hacc r). } { done. }
    apply acquire_contents in Hs' as Hsame. exists s'. split_and!; [done|split|eauto].
    + by rewrite Hh'.
    + rewrite Hn'. by eapply same_fresh.
  - destruct Hsc as [p Hv]. destruct (release_ok _ _ _ _ Hacc Hv Hv ltac:(lia)) as (s1 & Hs1 & Ha1 & Hn1 & Hh1).
    apply release_contents in Hs1 as Hsame.
    unfold Node_destroy. rewrite Hs1. eexists. split_and!; [done|split|cbn; eauto].
    + cbn. destruct Hh1 as [[-> _]|[-> _]]; [done|]. by rewrite delete_insert_eq.
    + cbn. rewrite Hn1. by eapply same_fresh.
  - destruct Hsc as [Hv Hr]. destruct (assign_ok s v r Hcnt Hv Hr Hsz) as
      (s' & p & Hs' & Hh & Ha & Hn & Hsame & _). exists s'. split_and!; [done|split|eauto].
    + done.
    + rewrite Hn. by eapply same_fresh.
Qed.

Definition demo_containers : containers :=
  mkContainers {[ 0%nat := Some 0%nat; 1%nat := Some 0%nat; 2%nat := None ]}
    {[ 0%nat := mkContainer 16 (replicate 20 7) 2 ]} 1.

Lemma demo_counted : counted demo_containers.
Proof.
  split; [split|]; unfold demo_containers; cbn [cheap handles cnext].
  - intros a c Ha. apply lookup_singleton_Some in Ha as [<- <-].
    split; [reflexivity | apply Nat.ltb_lt; reflexivity].
  - intros v a Hv. rewrite !lookup_insert_Some, lookup_singleton_Some in Hv.
    exists (mkContainer 16 (replicate 20 7) 2). apply lookup_singleton_Some. naive_solver.
  - intros a Ha. apply lookup_singleton_None. lia.
Qed.

Lemma node_memory_safe_witness :
  ∃ s', exec_op (OpAssign 0 2) demo_containers = Ok s' ∧ counted s'.
Proof.
  destruct (node_memory_safe (OpAssign 0 2) demo_containers demo_counted) as (s' & He & Hc & _).
  - vm_compute. eauto.
  - vm_compute. reflexivity.
  - eauto.
Defined.

(** assigning a node to another object makes the two share a container; an
    object that is the only reference to its container and is assigned to itself
    becomes the dummy source, and its container is freed. *)
Theorem node_assign_result s v r p : counted s →
  is_Some (handles s !! v) → handles s !! r = Some p →
  Z.of_nat (size (handles s)) + 1 < 2 ^ 64 →
  (v ≠ r → handles <$> Node_assign v r s = Ok (<[v := p]> (handles s))) ∧
  (∀ a, v = r → p = Some a → refs (handles s) a = 1%nat →
     handles <$> Node_assign v r s = Ok (<[v := None]> (handles s))).
Proof.
  intros Hc Hv Hr Hsz. destruct (assign_ok s v r Hc Hv ltac:(eauto) Hsz) as
    (s' & p' & -> & Hh & _ & _ & _ & Hne & Heq). cbn [fmap res_fmap]. rewrite Hh. split.
  - intros Hvr. specialize (Hne Hvr). congruence.
  - intros a Hvr -> Hone. destruct (Heq Hvr) as [->|[Hp Hm]]; [done|].
    rewrite Hr in Hp. injection Hp as <-. specialize (Hm a eq_refl). lia.
Qed.

Definition demo_lone : containers :=
  mkContainers {[ 0%nat := Some 0%nat ]} {[ 0%nat := mkContainer 19 (replicate 20 7) 1 ]} 1.

Lemma node_assign_result_witness :
  handles <$> Node_assign 0 0 demo_lone = Ok {[ 0%nat := None ]}.
Proof.
  apply (node_assign_result demo_lone 0 0 (Some 0%nat)) with (a := 0%nat); try reflexivity.
  - split; [split|]; unfold demo_lone; cbn [cheap handles cnext].
    + intros a c Ha. apply lookup_singleton_Some in Ha as [<- <-].
    split; [reflexivity | apply Nat.ltb_lt; reflexivity].
    + intros v a Hv. apply lookup_singleton_Some in Hv as [<- [= <-]]. eexists. reflexivity.
    + intros a Ha. apply lookup_singleton_None. lia.
  - eexists. reflexivity.
Defined.
