(* ===== verification/DagAddr.v ===== *)
(** * DagAddr: XIA addresses as graphs (class Graph of dagaddr.cpp)

    A graph is a vector of nodes with, for each node, the vectors of the
    indices its edges go to and come from.  The functions below follow the
    methods of src/api/dagaddr/cpp/dagaddr.cpp one by one; unchecked vector
    accesses outside the vector are [Ub OutOfBounds].  Indices of type [size_t]
    that may be [size_t(-1)] are integers, others are natural numbers. *)

From Stdlib Require Import ZArith Lia Ascii String.
From stdpp Require Import base gmap sets list.
From S2P Require Import Prelude Text DagNode.

Local Open Scope Z_scope.

(** ** Vectors *)

Fixpoint vector_find {A} (eqb : A → A → bool) (v : list A) (e : A) : option nat :=
  match v with
  | [] => None
  | x :: v => if eqb x e then Some O else S <$> vector_find eqb v e
  end.

Definition vector_push_back_unique {A} (eqb : A → A → bool) (v : list A) (e : A) : list A * nat :=
  match vector_find eqb v e with
  | Some idx => (v, idx)
  | None => (v ++ [e], length v)
  end.

(** ** Graphs *)

Record Graph := mkGraph {
  nodes_ : list Node;
  out_edges_ : list (list nat);
  in_edges_ : list (list nat) }.

Definition Graph_empty : Graph := mkGraph [] [] [].

Definition add_node (g : Graph) (p : Node) (allow_duplicate_nodes : bool) : Graph * nat :=
  let '(ns, idx) :=
    if allow_duplicate_nodes then (nodes_ g ++ [p], length (nodes_ g))
    else vector_push_back_unique Node_eqb (nodes_ g) p in
  if decide (length (out_edges_ g) ≤ idx)%nat
  then (mkGraph ns (out_edges_ g ++ [[]]) (in_edges_ g ++ [[]]), idx)
  else (mkGraph ns (out_edges_ g) (in_edges_ g), idx).

Definition Graph_of_node (n : Node) : Graph := (add_node Graph_empty n false).1.

Definition add_edge (g : Graph) (from_id to_id : nat) : res Graph :=
  if decide (from_id = to_id) then Ok g
  else
    out ← vget (out_edges_ g) from_id;
    let out := (vector_push_back_unique Nat.eqb out to_id).1 in
    inn ← vget (in_edges_ g) to_id;
    let inn := (vector_push_back_unique Nat.eqb inn from_id).1 in
    Ok (mkGraph (nodes_ g) (<[from_id := out]> (out_edges_ g)) (<[to_id := inn]> (in_edges_ g))).

Definition is_source (g : Graph) (id : nat) : res bool :=
  l ← vget (in_edges_ g) id; Ok (bool_decide (length l = 0%nat)).

Definition is_sink (g : Graph) (id : nat) : res bool :=
  l ← vget (out_edges_ g) id; Ok (bool_decide (length l = 0%nat)).

(** ** Merging and appending *)

(** The first loop of [merge_graph]: the nodes of [r]; [None] is the index -1
    of a dummy source that is left out. *)
Definition merge_node (dup : bool) (gm : Graph * list (option nat)) (n : Node)
    : Graph * list (option nat) :=
  if dup && bool_decide (n_type n = XID_TYPE_DUMMY_SOURCE) then (gm.1, gm.2 ++ [None])
  else let gi := add_node gm.1 n dup in (gi.1, gm.2 ++ [Some gi.2]).

Definition mapped_edge (m : list (option nat)) (g : Graph) (from to : nat) : res Graph :=
  f ← vget m from;
  t ← vget m to;
  match f, t with
  | Some f, Some t => add_edge g f t
  | _, _ => Ub OutOfBounds
  end.

(** The second loop: the edges of node [from_id] of [r]. *)
Definition merge_edges (dup : bool) (r : Graph) (m : list (option nat)) (g : Graph) (from_id : nat)
    : res Graph :=
  skip ← (if dup then n ← vget (nodes_ r) from_id; Ok (bool_decide (n_type n = XID_TYPE_DUMMY_SOURCE))
          else Ok false);
  if (skip : bool) then Ok g
  else es ← vget (out_edges_ r) from_id; foldM (λ g t, mapped_edge m g from_id t) g es.

Definition merge_graph (g r : Graph) (dup : bool) : res (Graph * list (option nat)) :=
  let gm := fold_left (merge_node dup) (nodes_ r) (g, []) in
  g ← foldM (merge_edges dup r gm.2) gm.1 (seq 0 (length (out_edges_ r)));
  Ok (g, gm.2).

(** The sinks of the left operand. *)
Definition collect_sinks (g : Graph) : res (list nat) :=
  foldM (λ acc i, b ← is_sink g i; Ok (if (b : bool) then acc ++ [i] else acc)) []
    (seq 0 (length (nodes_ g))).

(** The sources of the right operand; a dummy source is replaced by its
    successors. *)
Definition collect_sources (r : Graph) : res (list nat) :=
  foldM (λ acc i,
    b ← is_source r i;
    if (b : bool) then
      n ← vget (nodes_ r) i;
      if decide (n_type n = XID_TYPE_DUMMY_SOURCE) then
        es ← vget (out_edges_ r) i;
        Ok (fold_left (λ acc e, (vector_push_back_unique Nat.eqb acc e).1) es acc)
      else Ok (acc ++ [i])
    else Ok acc) [] (seq 0 (length (nodes_ r))).

(** [operator*=]. *)
Definition Graph_append (g r : Graph) : res Graph :=
  sinks ← collect_sinks g;
  sources ← collect_sources r;
  gm ← merge_graph g r true;
  foldM (λ h t,
    foldM (λ h s,
      o ← vget gm.2 s;
      match o with Some s => add_edge h t s | None => Ub OutOfBounds end) h sources) gm.1 sinks.

(** [operator+=]. *)
Definition Graph_merge (g r : Graph) : res Graph := gm ← merge_graph g r false; Ok gm.1.

(** ** Indices in address order *)

Definition num_nodes (g : Graph) : Z := u8 (Z.of_nat (length (nodes_ g)) - 1).

(** The loop that finds the last source and the last sink, as in [dag_string],
    [get_node] and [get_out_edges]. *)
Definition find_ends (g : Graph) : res (Z * Z) :=
  foldM (λ st i,
    b ← is_source g i;
    c ← is_sink g i;
    Ok (if (b : bool) then Z.of_nat i else st.1, if (c : bool) then Z.of_nat i else st.2))
    (npos, npos) (seq 0 (length (nodes_ g))).

Definition index_in_dag_string (g : Graph) (index source_index sink_index : Z) : Z :=
  if decide (index = sink_index) then u64 (Z.of_nat (length (nodes_ g)) - 2)
  else
    let new_index := index in
    let new_index := if decide (source_index < index) then u64 (new_index - 1) else new_index in
    if decide (sink_index < index) then u64 (new_index - 1) else new_index.

Definition index_from_dag_string_index (g : Graph) (dag_string_index source_index sink_index : Z)
    : Z :=
  if decide (dag_string_index = -1) then source_index
  else if decide (dag_string_index = num_nodes g - 1) then sink_index
  else
    let real_index := u64 dag_string_index in
    if decide (source_index < sink_index) then
      let real_index := if decide (source_index ≤ real_index) then u64 (real_index + 1) else real_index in
      if decide (sink_index ≤ real_index) then u64 (real_index + 1) else real_index
    else
      let real_index := if decide (sink_index ≤ real_index) then u64 (real_index + 1) else real_index in
      if decide (source_index ≤ real_index) then u64 (real_index + 1) else real_index.

Definition get_node (g : Graph) (i : Z) : res Node :=
  st ← find_ends g;
  vgetz (nodes_ g) (index_from_dag_string_index g i st.1 st.2).

Definition get_out_edges (g : Graph) (i : Z) : res (list Z) :=
  st ← find_ends g;
  let real_index :=
    if decide (i = -1) then st.1 else index_from_dag_string_index g i st.1 st.2 in
  es ← vgetz (out_edges_ g) real_index;
  Ok (map (λ e, index_in_dag_string g (Z.of_nat e) st.1 st.2) es).

(** The first source and the first sink, or -1. *)
Definition first_index (f : nat → res bool) (l : list nat) : res Z :=
  foldM (λ acc i, if decide (acc = npos)
                  then b ← f i; Ok (if (b : bool) then Z.of_nat i else npos) else Ok acc) npos l.

Definition source_index (g : Graph) : res Z := first_index (is_source g) (seq 0 (length (nodes_ g))).
Definition final_intent_index (g : Graph) : res Z := first_index (is_sink g) (seq 0 (length (nodes_ g))).

Definition get_final_intent (g : Graph) : res Node := i ← final_intent_index g; vgetz (nodes_ g) i.

Definition replace_final_intent (g : Graph) (n : Node) : res Graph :=
  i ← final_intent_index g;
  _ ← vgetz (nodes_ g) i;
  Ok (mkGraph (<[Z.to_nat i := n]> (nodes_ g)) (out_edges_ g) (in_edges_ g)).

Definition replace_node_at (g : Graph) (i : Z) (n : Node) : res Graph :=
  _ ← vgetz (nodes_ g) i;
  Ok (mkGraph (<[Z.to_nat i := n]> (nodes_ g)) (out_edges_ g) (in_edges_ g)).

(** [is_final_intent] of a node, compared by container. *)
Definition is_final_intent (g : Graph) (n : Node) : res bool :=
  match vector_find Node_eqb (nodes_ g) n with
  | Some i => is_sink g i
  | None => Ok false
  end.

(** The text after the first colon, if there is one. *)
Definition strip_type (s : str) : res str :=
  if decide (":"%char ∈ s) then vget (split s ":"%char) 1 else Ok s.

Definition find_id (g : Graph) (id : str) : option Node :=
  find (λ n, bool_decide (id_string n = id)) (nodes_ g).

Definition is_final_intent_string (g : Graph) (s : str) : res bool :=
  id ← strip_type s;
  match find_id g id with
  | Some n => is_final_intent g n
  | None => Ok false
  end.

Definition get_nodes_of_type (g : Graph) (t : Z) : list Node :=
  filter (λ n, n_type n = t) (nodes_ g).

(** ** Text form *)

Definition out_edges_for_index (g : Graph) (i source_index sink_index : Z) : res str :=
  es ← vgetz (out_edges_ g) i;
  Ok (concat (map (λ e, " "%char :: print_d (i32 (index_in_dag_string g (Z.of_nat e) source_index sink_index))) es)).

Definition end_line : str := [" "; "-"; " "; chr 10]%char.

(** The line of an intermediate node. *)
Definition dag_string_line (g : Graph) (src snk : Z) (acc : str) (i : nat) : res str :=
  if decide (Z.of_nat i = src ∨ Z.of_nat i = snk) then Ok acc
  else
    n ← vget (nodes_ g) i;
    es ← out_edges_for_index g (Z.of_nat i) src snk;
    Ok (acc ++ type_string n ++ ":"%char :: id_string n ++ es ++ end_line).

Definition dag_string (g : Graph) : res str :=
  st ← find_ends g;
  if decide (st.1 ≠ npos ∧ st.2 ≠ npos) then
    es ← out_edges_for_index g st.1 st.1 st.2;
    s ← foldM (dag_string_line g st.1 st.2) (lit "DAG" ++ es ++ end_line)
          (seq 0 (length (nodes_ g)));
    n ← vgetz (nodes_ g) st.2;
    Ok (s ++ type_string n ++ ":"%char :: id_string n)
  else Ok [].

Section parse.
Variable inet_addr : str → Z.

(** Pass 1 of [construct_from_dag_string]: one node per line; [gm] is the graph,
    the allocator and the indices of the nodes added. *)
Definition dag_line_node (gm : Graph * nat * list nat) (il : nat * str) : res (Graph * nat * list nat) :=
  let '(g, alloc, idx) := gm in
  if decide (il.1 = 0%nat) then
    let gi := add_node g dummy_source false in Ok (gi.1, alloc, idx ++ [gi.2])
  else
    e ← vget (split (trim il.2) " "%char) 0;
    na ← Node_of_string inet_addr alloc e;
    let gi := add_node g na.1 false in Ok (gi.1, na.2, idx ++ [gi.2]).

(** Pass 2: the edges of one line; [dag_idx + 1] is an [int] used as an index. *)
Definition dag_line_edges (idx : list nat) (g : Graph) (il : nat * str) : res Graph :=
  let elems := split (trim il.2) " "%char in
  foldM (λ g e,
    let dag_idx := stoi e 10 in
    f ← vget idx il.1;
    if decide (dag_idx = 2 ^ 31 - 1) then Ub SignedOverflow
    else t ← vgetz idx (dag_idx + 1); add_edge g f t) g (drop 1 elems).

Definition dag_lines (s : str) : list str :=
  split (filter (λ c, c ≠ chr 10) s) "-"%char.

Definition construct_from_dag_string (g : Graph) (alloc : nat) (s : str) : res (Graph * nat) :=
  let lines := dag_lines s in
  let il := zip (seq 0 (length lines)) lines in
  gm ← foldM dag_line_node (g, alloc, []) il;
  g ← foldM (dag_line_edges gm.2) gm.1.1 il;
  Ok (g, gm.1.2).

(** The state of the loop of [construct_from_re_string]. *)
Record re_state := mkRe {
  re_graph : Graph; re_alloc : nat;
  last_intent_idx : nat; last_fallback_idx : option nat; first_fallback_idx : option nat;
  processing_fallback : bool; just_processed_fallback : bool; just_started_fallback : bool }.

(** An index that is still -1 is out of bounds. *)
Definition add_edge_opt (g : Graph) (f t : option nat) : res Graph :=
  match f, t with Some f, Some t => add_edge g f t | _, _ => Ub OutOfBounds end.

Definition re_component (r : re_state) (c : str) : res re_state :=
  if decide (c = lit "(") then
    Ok (mkRe (re_graph r) (re_alloc r) (last_intent_idx r) (last_fallback_idx r)
          (first_fallback_idx r) true (just_processed_fallback r) true)
  else if decide (c = lit ")") then
    Ok (mkRe (re_graph r) (re_alloc r) (last_intent_idx r) (last_fallback_idx r)
          (first_fallback_idx r) false true (just_started_fallback r))
  else
    na ← Node_of_string inet_addr (re_alloc r) c;
    let gi := add_node (re_graph r) na.1 false in
    let cur := gi.2 in
    if processing_fallback r then
      g ← (if just_started_fallback r then Ok gi.1
           else add_edge_opt gi.1 (last_fallback_idx r) (Some cur));
      Ok (mkRe g na.2 (last_intent_idx r) (Some cur)
            (if just_started_fallback r then Some cur else first_fallback_idx r)
            true (just_processed_fallback r) false)
    else
      g ← add_edge gi.1 (last_intent_idx r) cur;
      g ← (if just_processed_fallback r then
             g ← add_edge_opt g (Some (last_intent_idx r)) (first_fallback_idx r);
             add_edge_opt g (last_fallback_idx r) (Some cur)
           else Ok g);
      Ok (mkRe g na.2 cur (last_fallback_idx r) (first_fallback_idx r) false false
            (just_started_fallback r)).

Definition construct_from_re_string (g : Graph) (alloc : nat) (s : str) : res (Graph * nat) :=
  let gi := add_node g dummy_source false in
  r ← foldM re_component (mkRe gi.1 alloc gi.2 None None false false false)
        (drop 1 (split s " "%char));
  Ok (re_graph r, re_alloc r).

Definition Graph_of_string (alloc : nat) (s : str) : res (Graph * nat) :=
  if contains (lit "DAG") s then construct_from_dag_string Graph_empty alloc s
  else if contains (lit "RE") s then construct_from_re_string Graph_empty alloc s
  else Ok ((add_node Graph_empty dummy_source false).1, alloc).
End parse.

(** ** Socket addresses (src/api/include/xia.h) *)

Definition EDGES_MAX : nat := 4.
Definition EDGE_UNUSED : Z := 127.
Definition NODES_MAX : nat := 20.
Definition AF_XIA : Z := 40.

Record node_t := mkNode_t { s_type : Z; s_id : list Z; s_edge : list Z }.
Record sockaddr_x := mkSockaddr { sx_family : Z; s_count : Z; s_addr : list node_t }.

(** The four edge slots of a node. *)
Definition edge_slots (out_edges : list Z) : list Z :=
  map (λ j, match out_edges !! j with Some e => u8 e | None => EDGE_UNUSED end) (seq 0 EDGES_MAX).

(** One node of [fill_sockaddr]; the last one gets the edges of the source. *)
Definition fill_node (g : Graph) (addr : list node_t) (i : nat) : res (list node_t) :=
  _ ← vget addr i;
  n ← get_node g (Z.of_nat i);
  es ← get_out_edges g (if decide (Z.of_nat i = num_nodes g - 1) then -1 else Z.of_nat i);
  Ok (<[i := mkNode_t (n_type n) (n_id n) (edge_slots es)]> addr).

Definition fill_sockaddr (g : Graph) (s : sockaddr_x) : res sockaddr_x :=
  addr ← foldM (fill_node g) (s_addr s) (seq 0 (Z.to_nat (num_nodes g)));
  Ok (mkSockaddr AF_XIA (num_nodes g) addr).

Definition sock_node (s : sockaddr_x) (gm : Graph * nat * list nat) (i : nat)
    : res (Graph * nat * list nat) :=
  node ← vget (s_addr s) i;
  let na := Node_of_id gm.1.2 (s_type node) (s_id node) in
  let gi := add_node gm.1.1 na.1 false in
  Ok (gi.1, na.2, gm.2 ++ [Z.to_nat (u8 (Z.of_nat gi.2))]).

Definition sock_edges (s : sockaddr_x) (idx : list nat) (src : nat) (g : Graph) (i : nat)
    : res Graph :=
  node ← vget (s_addr s) i;
  from ← (if decide (Z.of_nat i = s_count s - 1) then Ok src else vget idx i);
  foldM (λ g to, if decide (to = EDGE_UNUSED) then Ok g else add_edge g from (Z.to_nat to)) g
    (take EDGES_MAX (s_edge node)).

Definition from_sockaddr (g : Graph) (alloc : nat) (s : sockaddr_x) : res (Graph * nat) :=
  let l := seq 0 (Z.to_nat (s_count s)) in
  gm ← foldM (sock_node s) (g, alloc, []) l;
  let gi := add_node gm.1.1 dummy_source false in
  g ← foldM (sock_edges s gm.2 (Z.to_nat (u8 (Z.of_nat gi.2)))) gi.1 l;
  Ok (g, gm.1.2).
