(* ===== verification/DagWf.v ===== *)
(** * DagWf: the representation invariant of address graphs

    Every method of [Graph] keeps the edge vectors as long as the node vector,
    the two directions of an edge recorded together, without duplicates and
    without self loops.  Appending keeps a graph acyclic. *)

From Stdlib Require Import ZArith Lia Ascii String.
From stdpp Require Import base gmap sets list relations.
From S2P Require Import Prelude Text DagNode DagAddr.

Local Open Scope nat_scope.

(** There is an edge from [i] to [j]; the same, as recorded at [j]. *)
Definition edge (g : Graph) (i j : nat) : Prop := ∃ l, out_edges_ g !! i = Some l ∧ j ∈ l.
Definition redge (g : Graph) (i j : nat) : Prop := ∃ l, in_edges_ g !! j = Some l ∧ i ∈ l.

Definition order (g : Graph) : nat := length (nodes_ g).

Record wf_graph (g : Graph) : Prop := {
  wfg_out : length (out_edges_ g) = order g;
  wfg_in : length (in_edges_ g) = order g;
  wfg_sym i j : edge g i j ↔ redge g i j;
  wfg_irrefl i : ¬ edge g i i;
  wfg_nodup_out i l : out_edges_ g !! i = Some l → NoDup l;
  wfg_nodup_in i l : in_edges_ g !! i = Some l → NoDup l }.

(** ** Vectors *)

Lemma vector_find_Some {A} (eqb : A → A → bool) v e i :
  vector_find eqb v e = Some i → i < length v ∧ ∃ x, v !! i = Some x ∧ eqb x e = true.
Proof.
  revert i. induction v as [|x v IH]; intros i H; simpl in H; [done|].
  destruct (eqb x e) eqn:E; [simplify_eq; simpl; split; [lia|eauto]|].
  apply fmap_Some in H as (k & Hk & ->). destruct (IH k Hk) as (? & ? & ?). simpl. split; [lia|eauto].
Qed.

Lemma vector_find_None {A} (eqb : A → A → bool) v e :
  vector_find eqb v e = None ↔ ∀ x, x ∈ v → eqb x e = false.
Proof.
  induction v as [|y v IH]; simpl.
  { split; [intros _ x Hx%elem_of_nil; done|done]. }
  destruct (eqb y e) eqn:E.
  - split; [done|]. intros H. rewrite H in E; [done|left].
  - rewrite fmap_None, IH. split; intros H.
    + intros x [->|Hx]%elem_of_cons; eauto.
    + intros x Hx. apply H. by right.
Qed.

Lemma push_unique_nat (v : list nat) e :
  (vector_push_back_unique Nat.eqb v e).1 = if decide (e ∈ v) then v else v ++ [e].
Proof.
  unfold vector_push_back_unique. destruct (vector_find Nat.eqb v e) as [i|] eqn:E; simpl.
  - apply vector_find_Some in E as (_ & x & Hx & ->%Nat.eqb_eq).
    by rewrite decide_True by (by eapply list_elem_of_lookup_2).
  - rewrite decide_False; [done|]. intros Hin. rewrite vector_find_None in E.
    specialize (E e Hin). by rewrite Nat.eqb_refl in E.
Qed.

Lemma elem_of_push_unique (v : list nat) e x :
  x ∈ (vector_push_back_unique Nat.eqb v e).1 ↔ x ∈ v ∨ x = e.
Proof.
  rewrite push_unique_nat. case_decide; [naive_solver|].
  by rewrite elem_of_app, list_elem_of_singleton.
Qed.

Lemma NoDup_push_unique (v : list nat) e :
  NoDup v → NoDup (vector_push_back_unique Nat.eqb v e).1.
Proof.
  intros Hv. rewrite push_unique_nat. case_decide; [done|].
  apply NoDup_app. split_and!; [done| |apply NoDup_singleton].
  intros x Hx ->%list_elem_of_singleton. done.
Qed.

(** ** Edges *)

Lemma edge_lt g i j : wf_graph g → edge g i j → i < order g ∧ j < order g.
Proof.
  intros Hwf He. split.
  - destruct He as (l & Hl%lookup_lt_Some & _). by rewrite (wfg_out g Hwf) in Hl.
  - apply (wfg_sym g Hwf) in He as (l & Hl%lookup_lt_Some & _). by rewrite (wfg_in g Hwf) in Hl.
Qed.

Lemma out_lookup g i : wf_graph g → i < order g → ∃ l, out_edges_ g !! i = Some l.
Proof. intros Hwf Hi. apply lookup_lt_is_Some_2. by rewrite (wfg_out g Hwf). Qed.

Lemma in_lookup g i : wf_graph g → i < order g → ∃ l, in_edges_ g !! i = Some l.
Proof. intros Hwf Hi. apply lookup_lt_is_Some_2. by rewrite (wfg_in g Hwf). Qed.

Lemma edge_out g i j l : out_edges_ g !! i = Some l → edge g i j ↔ j ∈ l.
Proof. unfold edge. naive_solver. Qed.

(** [add_edge] within bounds. *)
Lemma add_edge_ok g i j : wf_graph g → i < order g → j < order g →
  ∃ g', add_edge g i j = Ok g' ∧ wf_graph g' ∧ nodes_ g' = nodes_ g ∧
    (∀ a b, edge g' a b ↔ edge g a b ∨ (i ≠ j ∧ a = i ∧ b = j)) ∧
    (∀ l, out_edges_ g !! i = Some l → j ∉ l → i ≠ j →
       out_edges_ g' = <[i := l ++ [j]]> (out_edges_ g)).
Proof.
  intros Hwf Hi Hj. unfold add_edge. case_decide as Hij.
  { eexists. split_and!; [done|done|done|naive_solver|naive_solver]. }
  destruct (out_lookup g i Hwf Hi) as [lo Hlo]. destruct (in_lookup g j Hwf Hj) as [li Hli].
  unfold vget. rewrite Hlo, Hli. cbn [mbind res_bind].
  set (g' := mkGraph _ _ _).
  assert (∀ a b, edge g' a b ↔ edge g a b ∨ (i ≠ j ∧ a = i ∧ b = j)) as He.
  { intros a b. unfold edge, g'. cbn [out_edges_]. destruct (decide (a = i)) as [->|Hai].
    - rewrite list_lookup_insert_eq by (by rewrite (wfg_out g Hwf)). rewrite Hlo.
      split; [intros (? & [= <-] & Hb)|intros [(? & [= <-] & ?)|(_ & _ & ->)]];
        [apply elem_of_push_unique in Hb; naive_solver|..];
        eexists; (split; [done|]); apply elem_of_push_unique; auto.
    - rewrite list_lookup_insert_ne by done. naive_solver. }
  assert (∀ a b, redge g' a b ↔ redge g a b ∨ (i ≠ j ∧ a = i ∧ b = j)) as Hr.
  { intros a b. unfold redge, g'. cbn [in_edges_]. destruct (decide (b = j)) as [->|Hbj].
    - rewrite list_lookup_insert_eq by (by rewrite (wfg_in g Hwf)). rewrite Hli.
      split; [intros (? & [= <-] & Hb)|intros [(? & [= <-] & ?)|(_ & -> & _)]];
        [apply elem_of_push_unique in Hb; naive_solver|..];
        eexists; (split; [done|]); apply elem_of_push_unique; auto.
    - rewrite list_lookup_insert_ne by done. naive_solver. }
  exists g'. split_and!; [done| |done|done|].
  - split; unfold order.
    + unfold g'. cbn. rewrite length_insert. apply (wfg_out g Hwf).
    + unfold g'. cbn. rewrite length_insert. apply (wfg_in g Hwf).
    + intros a b. by rewrite He, Hr, (wfg_sym g Hwf).
    + intros a. rewrite He. pose proof (wfg_irrefl g Hwf a). naive_solver.
    + intros a l Hl. unfold g' in Hl. cbn in Hl. apply list_lookup_insert_Some in Hl as [(_ & <- & _)|(_ & ?)].
      * eapply NoDup_push_unique, (wfg_nodup_out g Hwf), Hlo.
      * by eapply wfg_nodup_out.
    + intros a l Hl. unfold g' in Hl. cbn in Hl. apply list_lookup_insert_Some in Hl as [(_ & <- & _)|(_ & ?)].
      * eapply NoDup_push_unique, (wfg_nodup_in g Hwf), Hli.
      * by eapply wfg_nodup_in.
  - intros l [= <-] Hnin _. unfold g'. cbn. by rewrite push_unique_nat, decide_False.
Qed.

(** ** Nodes *)

Definition push_node (g : Graph) (p : Node) : Graph :=
  mkGraph (nodes_ g ++ [p]) (out_edges_ g ++ [[]]) (in_edges_ g ++ [[]]).

Lemma edge_push_node g p i j : edge (push_node g p) i j ↔ edge g i j.
Proof.
  unfold edge, push_node. cbn. split.
  - intros (l & Hl & Hj). apply lookup_snoc_Some in Hl as [[_ ?]|[_ <-]]; [eauto|].
    by apply elem_of_nil in Hj.
  - intros (l & Hl & Hj). exists l. split; [|done]. by apply lookup_app_l_Some.
Qed.

Lemma redge_push_node g p i j : redge (push_node g p) i j ↔ redge g i j.
Proof.
  unfold redge, push_node. cbn. split.
  - intros (l & Hl & Hj). apply lookup_snoc_Some in Hl as [[_ ?]|[_ <-]]; [eauto|].
    by apply elem_of_nil in Hj.
  - intros (l & Hl & Hj). exists l. split; [|done]. by apply lookup_app_l_Some.
Qed.

Lemma order_push_node g p : order (push_node g p) = S (order g).
Proof. unfold order. cbn. rewrite length_app. simpl. lia. Qed.

Lemma wf_push_node g p : wf_graph g → wf_graph (push_node g p).
Proof.
  intros Hwf. split.
  - rewrite order_push_node. cbn. rewrite length_app, (wfg_out g Hwf). simpl. lia.
  - rewrite order_push_node. cbn. rewrite length_app, (wfg_in g Hwf). simpl. lia.
  - intros i j. rewrite edge_push_node, redge_push_node. apply (wfg_sym g Hwf).
  - intros i. rewrite edge_push_node. apply (wfg_irrefl g Hwf).
  - intros i l Hl. cbn in Hl. apply lookup_snoc_Some in Hl as [[_ ?]|[_ <-]]; [|constructor].
    by eapply wfg_nodup_out.
  - intros i l Hl. cbn in Hl. apply lookup_snoc_Some in Hl as [[_ ?]|[_ <-]]; [|constructor].
    by eapply wfg_nodup_in.
Qed.

Lemma wf_empty : wf_graph Graph_empty.
Proof.
  split; try done.
  - intros i j. split; intros (? & Hl & _); done.
  - intros i (? & Hl & _). done.
Qed.

(** [add_node] appends the node, or finds the one with the same container. *)
Lemma add_node_cases g p dup : wf_graph g →
  (add_node g p dup = (push_node g p, order g) ∧
     (dup = false → ∀ n, n ∈ nodes_ g → ptr n ≠ ptr p)) ∨
  (∃ idx n, add_node g p dup = (g, idx) ∧ dup = false ∧
     nodes_ g !! idx = Some n ∧ ptr n = ptr p).
Proof.
  intros Hwf. unfold add_node. destruct dup.
  { left. rewrite decide_True by (by rewrite (wfg_out g Hwf)). done. }
  unfold vector_push_back_unique. destruct (vector_find _ _ _) as [idx|] eqn:E.
  - right. apply vector_find_Some in E as (Hlt & n & Hn & Heq). apply bool_decide_eq_true in Heq.
    rewrite decide_False by (rewrite (wfg_out g Hwf); unfold order; lia).
    exists idx, n. split; [by destruct g|done].
  - left. rewrite decide_True by (by rewrite (wfg_out g Hwf)). split; [done|]. intros _ n Hn Hp.
    rewrite vector_find_None in E. specialize (E n Hn). unfold Node_eqb in E.
    by rewrite bool_decide_true in E.
Qed.

Lemma add_node_ok g p dup : wf_graph g → let gi := add_node g p dup in
  wf_graph gi.1 ∧ gi.2 < order gi.1 ∧ order g ≤ order gi.1 ∧
  (∀ i j, edge gi.1 i j ↔ edge g i j) ∧ (∀ k n, nodes_ g !! k = Some n → nodes_ gi.1 !! k = Some n) ∧
  (∃ n, nodes_ gi.1 !! gi.2 = Some n ∧ ptr n = ptr p).
Proof.
  intros Hwf. destruct (add_node_cases g p dup Hwf) as [[-> _]|(idx & n & -> & _ & Hn & Hp)]; simpl.
  - split_and!; [by apply wf_push_node|rewrite order_push_node; lia..| | |].
    + apply edge_push_node.
    + intros. cbn. by apply lookup_app_l_Some.
    + exists p. split; [|done]. cbn. apply lookup_snoc_Some. auto.
  - split_and!; eauto. by apply lookup_lt_Some in Hn.
Qed.

(** ** Merging *)

(** The dummy sources of [r] are left out when duplicates are allowed. *)
Definition left_out (dup : bool) (r : Graph) (i : nat) : Prop :=
  dup = true ∧ ∃ n, nodes_ r !! i = Some n ∧ n_type n = XID_TYPE_DUMMY_SOURCE.

(** The result of the node loop after a prefix [ns] of the nodes of [r]. *)
Record merged_nodes (dup : bool) (g : Graph) (ns : list Node) (gm : Graph * list (option nat)) : Prop := {
  mn_wf : wf_graph gm.1;
  mn_order : order g ≤ order gm.1;
  mn_edges i j : edge gm.1 i j ↔ edge g i j;
  mn_length : length gm.2 = length ns;
  mn_bound k i : gm.2 !! k = Some (Some i) → i < order gm.1;
  mn_none k n : gm.2 !! k = Some None → ns !! k = Some n →
    dup = true ∧ n_type n = XID_TYPE_DUMMY_SOURCE;
  mn_some k n i : gm.2 !! k = Some (Some i) → ns !! k = Some n →
    ¬ (dup = true ∧ n_type n = XID_TYPE_DUMMY_SOURCE) ∧
    ∃ n', nodes_ gm.1 !! i = Some n' ∧ ptr n' = ptr n;
  mn_same k n i : dup = true → gm.2 !! k = Some (Some i) → ns !! k = Some n →
    nodes_ gm.1 !! i = Some n;
  mn_keep i n : nodes_ g !! i = Some n → nodes_ gm.1 !! i = Some n;
  mn_new k i : dup = true → gm.2 !! k = Some (Some i) → order g ≤ i;
  mn_inj k k' i : dup = true → gm.2 !! k = Some (Some i) → gm.2 !! k' = Some (Some i) → k = k' }.

Lemma lookup_snoc_l {A} (l : list A) x k y : (k < length l) → (l ++ [x]) !! k = Some y → l !! k = Some y.
Proof. intros Hk H. by rewrite lookup_app_l in H. Qed.

(** A node of [r] that is skipped, and one that gets index [i]. *)
Lemma merged_skip dup g ns gm n : merged_nodes dup g ns gm →
  dup = true → n_type n = XID_TYPE_DUMMY_SOURCE →
  merged_nodes dup g (ns ++ [n]) (gm.1, gm.2 ++ [None]).
Proof.
  intros [? ? ? Hlen Hb Hno Hso Hsa Hke Hne Hin] Hdup Ht. split; cbn [fst snd]; try done.
  - by rewrite !length_app, Hlen.
  - intros k i [[_ ?]|[_ [=]]]%lookup_snoc_Some. eauto.
  - intros k n' [[Hk Hk']|[-> _]]%lookup_snoc_Some Hn'.
    + apply lookup_snoc_l in Hn'; [eauto|lia].
    + rewrite Hlen in Hn'. apply lookup_snoc_Some in Hn' as [[? _]|[_ <-]]; [lia|done].
  - intros k n' i [[Hk Hk']|[_ [=]]]%lookup_snoc_Some Hn'. apply lookup_snoc_l in Hn'; [eauto|lia].
  - intros k n' i ? [[Hk Hk']|[_ [=]]]%lookup_snoc_Some Hn'. apply lookup_snoc_l in Hn'; [eauto|lia].
  - intros k i ? [[_ ?]|[_ [=]]]%lookup_snoc_Some. eauto.
  - intros k k' i ? [[_ ?]|[_ [=]]]%lookup_snoc_Some [[_ ?]|[_ [=]]]%lookup_snoc_Some. eauto.
Qed.

Lemma merged_take dup g ns gm n g2 i : merged_nodes dup g ns gm →
  ¬ (dup = true ∧ n_type n = XID_TYPE_DUMMY_SOURCE) →
  wf_graph g2 → i < order g2 → order gm.1 ≤ order g2 → (∀ a b, edge g2 a b ↔ edge gm.1 a b) →
  (∀ k n', nodes_ gm.1 !! k = Some n' → nodes_ g2 !! k = Some n') →
  (∃ n', nodes_ g2 !! i = Some n' ∧ ptr n' = ptr n) →
  (dup = true → i = order gm.1 ∧ nodes_ g2 !! i = Some n) →
  merged_nodes dup g (ns ++ [n]) (g2, gm.2 ++ [Some i]).
Proof.
  intros [Hwf Hord Hed Hlen Hb Hno Hso Hsa Hke Hne Hin] Hd Hwf2 Hi Hord2 Hed2 Hn2 Hp Hnew.
  split; cbn [fst snd]; [done|lia|by intros; rewrite Hed2, Hed|by rewrite !length_app, Hlen|..].
  - intros k j [[_ Hk]|[-> [= <-]]]%lookup_snoc_Some; [specialize (Hb _ _ Hk); lia|lia].
  - intros k n' [[Hk Hk']|[_ [=]]]%lookup_snoc_Some Hn'. apply lookup_snoc_l in Hn'; [eauto|lia].
  - intros k n' j [[Hk Hk']|[-> [= <-]]]%lookup_snoc_Some Hn'.
    + apply lookup_snoc_l in Hn'; [|lia]. destruct (Hso _ _ _ Hk' Hn') as (? & ? & ? & ?). eauto.
    + rewrite Hlen in Hn'. apply lookup_snoc_Some in Hn' as [[? _]|[_ <-]]; [lia|done].
  - intros k n' j Hdup [[Hk Hk']|[-> [= <-]]]%lookup_snoc_Some Hn'.
    + apply lookup_snoc_l in Hn'; [|lia]. eauto.
    + rewrite Hlen in Hn'. apply lookup_snoc_Some in Hn' as [[? _]|[_ <-]]; [lia|]. by apply Hnew.
  - eauto.
  - intros k j Hdup [[_ ?]|[-> [= <-]]]%lookup_snoc_Some; [eauto|]. destruct (Hnew Hdup). lia.
  - intros k k' j Hdup [[Hk Hki]|[-> [= <-]]]%lookup_snoc_Some [[Hk' Hki']|[-> Heq]]%lookup_snoc_Some;
      [eauto| | |done]; destruct (Hnew Hdup) as [-> _]; simplify_eq.
    + specialize (Hb _ _ Hki). lia.
    + specialize (Hb _ _ Hki'). lia.
Qed.

Lemma merge_node_step dup g ns gm n : merged_nodes dup g ns gm →
  merged_nodes dup g (ns ++ [n]) (merge_node dup gm n).
Proof.
  intros Hm. unfold merge_node.
  destruct (dup && bool_decide (n_type n = XID_TYPE_DUMMY_SOURCE)) eqn:Hd.
  - apply andb_true_iff in Hd as [Hdup Ht%bool_decide_eq_true]. by apply merged_skip.
  - pose proof (mn_wf _ _ _ _ Hm) as Hwf.
    destruct (add_node_ok gm.1 n dup Hwf) as (Hwf' & Hlt & Hle & He & Hn & Hp).
    apply merged_take; try done.
    + intros [-> Ht]. by rewrite Ht in Hd.
    + intros ->. destruct (add_node_cases gm.1 n true Hwf) as [[-> _]|(? & ? & _ & ? & _)]; [|done].
      split; [done|]. cbn. apply lookup_snoc_Some. auto.
Qed.

Lemma merge_nodes_all dup g ns : wf_graph g →
  merged_nodes dup g ns (fold_left (merge_node dup) ns (g, [])).
Proof.
  intros Hwf. induction ns as [|n ns IH] using rev_ind.
  - split; try done.
  - rewrite fold_left_app. simpl. by apply merge_node_step.
Qed.

(** ** Loops that add edges *)

(** [g'] is [g] with the edges of [R] added. *)
Definition extends (g g' : Graph) (R : nat → nat → Prop) : Prop :=
  wf_graph g' ∧ nodes_ g' = nodes_ g ∧ ∀ a b, edge g' a b ↔ edge g a b ∨ R a b.

Lemma extends_none g : wf_graph g → extends g g (λ _ _, False).
Proof. intros. split_and!; naive_solver. Qed.

Lemma extends_equiv g g' R R' : (∀ a b, R a b ↔ R' a b) → extends g g' R → extends g g' R'.
Proof. intros HR (? & ? & He). split_and!; [done..|]. intros. by rewrite He, HR. Qed.

Lemma foldM_extends {A} (f : Graph → A → res Graph) (R : A → nat → nat → Prop) l g :
  (∀ g' a, a ∈ l → wf_graph g' → nodes_ g' = nodes_ g →
     ∃ g'', f g' a = Ok g'' ∧ extends g' g'' (R a)) →
  wf_graph g →
  ∃ g', foldM f g l = Ok g' ∧ extends g g' (λ x y, ∃ a, a ∈ l ∧ R a x y).
Proof.
  revert g. induction l as [|a l IH]; intros g Hf Hwf; simpl.
  { exists g. split; [done|]. eapply extends_equiv; [|by apply extends_none].
    intros x y. split; [done|]. by intros (? & ?%elem_of_nil & _). }
  destruct (Hf g a) as (g1 & -> & Hwf1 & Hn1 & He1); [by left|done|done|]. simpl.
  destruct (IH g1) as (g2 & -> & Hwf2 & Hn2 & He2); [|done|].
  { intros g' b Hb Hwf' Hn'. apply Hf; [by right|done|congruence]. }
  exists g2. split; [done|]. split_and!; [done|congruence|].
  intros x y. rewrite He2, He1. setoid_rewrite elem_of_cons. naive_solver.
Qed.

Lemma add_edge_extends g i j : wf_graph g → i < order g → j < order g →
  ∃ g', add_edge g i j = Ok g' ∧ extends g g' (λ x y, i ≠ j ∧ x = i ∧ y = j).
Proof.
  intros Hwf Hi Hj. destruct (add_edge_ok g i j Hwf Hi Hj) as (g' & ? & ? & ? & ? & _).
  exists g'. done.
Qed.

(** The edges of [r], seen through the index map [m]. *)
Definition image (dup : bool) (r : Graph) (m : list (option nat)) (x y : nat) : Prop :=
  ∃ i j, edge r i j ∧ ¬ left_out dup r i ∧ m !! i = Some (Some x) ∧ m !! j = Some (Some y) ∧ x ≠ y.

Section merge.
Context (dup : bool) (g r : Graph).
Context (Hg : wf_graph g) (Hr : wf_graph r).
Context (Hno : ∀ i j, edge r i j → ¬ left_out dup r j).

Definition merged : Graph * list (option nat) := fold_left (merge_node dup) (nodes_ r) (g, []).

Lemma merged_all : merged_nodes dup g (nodes_ r) merged.
Proof using Hg. by apply merge_nodes_all. Qed.

Lemma merged_lookup i : i < order r → ¬ left_out dup r i →
  ∃ x, merged.2 !! i = Some (Some x) ∧ x < order merged.1.
Proof using Hg.
  intros Hi Hl. pose proof merged_all as Hm.
  destruct (lookup_lt_is_Some_2 merged.2 i) as [[x|] Hx].
  { by rewrite (mn_length _ _ _ _ Hm). }
  - exists x. split; [done|]. by eapply (mn_bound _ _ _ _ Hm).
  - destruct Hl. destruct (lookup_lt_is_Some_2 (nodes_ r) i Hi) as [n Hn].
    destruct (mn_none _ _ _ _ Hm i n Hx Hn). split; eauto.
Qed.

Lemma merge_edges_extends h i : wf_graph h → nodes_ h = nodes_ merged.1 → i < order r →
  ∃ h', merge_edges dup r merged.2 h i = Ok h' ∧
    extends h h' (λ x y, ∃ j, edge r i j ∧ ¬ left_out dup r i ∧
      merged.2 !! i = Some (Some x) ∧ merged.2 !! j = Some (Some y) ∧ x ≠ y).
Proof using Hg Hr Hno.
  intros Hh Hnh Hi. unfold merge_edges.
  destruct (lookup_lt_is_Some_2 (nodes_ r) i Hi) as [n Hn].
  destruct (out_lookup r i Hr Hi) as [es Hes]. unfold vget at 1 2. rewrite Hn, Hes.
  destruct (decide (dup = true ∧ n_type n = XID_TYPE_DUMMY_SOURCE)) as [[-> Ht]|Hnl].
  - cbn. rewrite bool_decide_true by done. exists h. split; [done|].
    eapply extends_equiv; [|by apply extends_none]. intros x y. split; [done|].
    intros (j & _ & Hl & _). apply Hl. split; eauto.
  - assert (¬ left_out dup r i) as Hl by (intros (? & n' & ? & ?); naive_solver).
    destruct (merged_lookup i Hi Hl) as (x & Hx & Hxlt).
    assert ((if dup then n0 ← Ok n; Ok (bool_decide (n_type n0 = XID_TYPE_DUMMY_SOURCE))
             else Ok false) = Ok false) as ->.
    { destruct dup; [|done]. cbn. by rewrite bool_decide_false by naive_solver. }
    cbn [mbind res_bind].
    destruct (foldM_extends (λ g0 t, mapped_edge merged.2 g0 i t)
      (λ t a b, merged.2 !! i = Some (Some a) ∧ merged.2 !! t = Some (Some b) ∧ a ≠ b) es h)
      as (h' & -> & Hext); [|done|].
    + intros h1 t Ht Hh1 Hn1. apply (edge_out r i t es Hes) in Ht.
      destruct (edge_lt r i t Hr Ht) as [_ Htlt].
      destruct (merged_lookup t Htlt (Hno i t Ht)) as (y & Hy & Hylt).
      unfold mapped_edge, vget. rewrite Hx, Hy. cbn [mbind res_bind].
      assert (order h1 = order merged.1) as Ho by (unfold order; congruence).
      destruct (add_edge_extends h1 x y Hh1) as (h2 & Hadd & Hext); [lia..|].
      exists h2. split; [done|]. eapply extends_equiv; [|exact Hext]. naive_solver.
    + exists h'. split; [done|]. eapply extends_equiv; [|exact Hext].
      intros a b. setoid_rewrite (edge_out r i _ es Hes). naive_solver.
Qed.

Lemma merge_graph_ok :
  ∃ h, merge_graph g r dup = Ok (h, merged.2) ∧ wf_graph h ∧ nodes_ h = nodes_ merged.1 ∧
    ∀ a b, edge h a b ↔ edge g a b ∨ image dup r merged.2 a b.
Proof using Hg Hr Hno.
  pose proof merged_all as Hm. unfold merge_graph. fold merged.
  destruct (foldM_extends (merge_edges dup r merged.2)
    (λ i x y, ∃ j, edge r i j ∧ ¬ left_out dup r i ∧
      merged.2 !! i = Some (Some x) ∧ merged.2 !! j = Some (Some y) ∧ x ≠ y)
    (seq 0 (length (out_edges_ r))) merged.1) as (h & -> & Hwf & Hn & He).
  - intros h i Hi Hh Hnh. apply elem_of_seq in Hi. rewrite (wfg_out r Hr) in Hi.
    apply merge_edges_extends; [done|done|lia].
  - apply (mn_wf _ _ _ _ Hm).
  - exists h. split_and!; [done..|]. intros a b. rewrite He, (mn_edges _ _ _ _ Hm).
    unfold image. split; [naive_solver|]. intros [?|(i & j & Hij & ?)]; [by left|right].
    exists i. split; [|by eauto]. apply elem_of_seq. rewrite (wfg_out r Hr).
    pose proof (edge_lt r i j Hr Hij). lia.
Qed.
End merge.

(** ** Sources and sinks *)

Definition source (g : Graph) (i : nat) : Prop := i < order g ∧ ∀ j, ¬ edge g j i.
Definition sink (g : Graph) (i : nat) : Prop := i < order g ∧ ∀ j, ¬ edge g i j.

Lemma is_sink_ok g i : wf_graph g → i < order g →
  ∃ b, is_sink g i = Ok b ∧ (b = true ↔ sink g i).
Proof.
  intros Hwf Hi. destruct (out_lookup g i Hwf Hi) as [l Hl]. unfold is_sink, vget. rewrite Hl.
  eexists. split; [done|]. rewrite bool_decide_eq_true, length_zero_iff_nil.
  unfold sink. setoid_rewrite (edge_out g i _ l Hl). split.
  - intros ->. split; [done|]. apply not_elem_of_nil.
  - intros [_ H]. by apply elem_of_nil_inv.
Qed.

Lemma is_source_ok g i : wf_graph g → i < order g →
  ∃ b, is_source g i = Ok b ∧ (b = true ↔ source g i).
Proof.
  intros Hwf Hi. destruct (in_lookup g i Hwf Hi) as [l Hl]. unfold is_source, vget. rewrite Hl.
  eexists. split; [done|]. rewrite bool_decide_eq_true, length_zero_iff_nil.
  unfold source. setoid_rewrite (wfg_sym g Hwf). unfold redge. split.
  - intros ->. split; [done|]. intros j (? & Hl' & Hj). simplify_eq. by apply elem_of_nil in Hj.
  - intros [_ H]. apply elem_of_nil_inv. intros j Hj. apply (H j). eauto.
Qed.

Lemma foldM_collect {A} (f : list nat → A → res (list nat)) (P : A → nat → Prop) l acc :
  (∀ acc a, a ∈ l → ∃ acc', f acc a = Ok acc' ∧ ∀ x, x ∈ acc' ↔ x ∈ acc ∨ P a x) →
  ∃ acc', foldM f acc l = Ok acc' ∧ ∀ x, x ∈ acc' ↔ x ∈ acc ∨ ∃ a, a ∈ l ∧ P a x.
Proof.
  revert acc. induction l as [|a l IH]; intros acc Hf; simpl.
  { exists acc. split; [done|]. intros x. split; [by left|].
    intros [?|(? & ?%elem_of_nil & _)]; done. }
  destruct (Hf acc a) as (acc1 & -> & H1); [by left|]. simpl.
  destruct (IH acc1) as (acc2 & -> & H2); [intros; apply Hf; by right|].
  exists acc2. split; [done|]. intros x. rewrite H2, H1. setoid_rewrite elem_of_cons. naive_solver.
Qed.

Lemma collect_sinks_ok g : wf_graph g →
  ∃ l, collect_sinks g = Ok l ∧ ∀ i, i ∈ l ↔ sink g i.
Proof.
  intros Hwf. unfold collect_sinks.
  destruct (foldM_collect (λ acc i, b ← is_sink g i; Ok (if (b : bool) then acc ++ [i] else acc))
    (λ i x, x = i ∧ sink g i) (seq 0 (order g)) []) as (l & Hl & Hx).
  - intros acc i Hi%elem_of_seq. destruct (is_sink_ok g i Hwf) as (b & -> & Hb); [lia|]. simpl.
    eexists. split; [done|]. intros x. destruct b.
    + rewrite elem_of_app, list_elem_of_singleton. naive_solver.
    + naive_solver.
  - exists l. split; [done|]. intros i. rewrite Hx, elem_of_nil. split; [naive_solver|].
    intros Hs. right. exists i. split; [|done]. apply elem_of_seq. destruct Hs. lia.
Qed.

(** Where an appended graph is entered: its sources, and the successors of its
    dummy sources. *)
Definition dummy (r : Graph) (i : nat) : Prop :=
  ∃ n, nodes_ r !! i = Some n ∧ n_type n = XID_TYPE_DUMMY_SOURCE.
Definition entry (r : Graph) (x : nat) : Prop :=
  ∃ i, source r i ∧ (dummy r i ∧ edge r i x ∨ ¬ dummy r i ∧ x = i).

Lemma elem_of_push_all (es acc : list nat) x :
  x ∈ fold_left (λ acc e, (vector_push_back_unique Nat.eqb acc e).1) es acc ↔ x ∈ acc ∨ x ∈ es.
Proof.
  revert acc. induction es as [|e es IH]; intros acc; simpl.
  - rewrite elem_of_nil. naive_solver.
  - rewrite IH, elem_of_push_unique, elem_of_cons. naive_solver.
Qed.

Lemma collect_sources_ok r : wf_graph r →
  ∃ l, collect_sources r = Ok l ∧ ∀ x, x ∈ l ↔ entry r x.
Proof.
  intros Hwf. unfold collect_sources.
  match goal with |- context [foldM ?f _ _] => destruct (foldM_collect f
    (λ i x, source r i ∧ (dummy r i ∧ edge r i x ∨ ¬ dummy r i ∧ x = i))
    (seq 0 (order r)) []) as (l & Hl & Hx) end.
  - intros acc i Hi%elem_of_seq. destruct (is_source_ok r i Hwf) as (b & -> & Hb); [lia|]. simpl.
    destruct b; [|eexists; split; [done|]; naive_solver].
    destruct (lookup_lt_is_Some_2 (nodes_ r) i) as [n Hn]; [unfold order in *; lia|].
    destruct (out_lookup r i Hwf) as [es Hes]; [lia|]. unfold vget. rewrite Hn, Hes. simpl.
    case_decide as Ht; eexists; (split; [done|]); intros x.
    + rewrite elem_of_push_all, (edge_out r i x es Hes). assert (dummy r i) by (by exists n). naive_solver.
    + assert (¬ dummy r i) by (intros (n' & ? & ?); naive_solver).
      rewrite elem_of_app, list_elem_of_singleton. naive_solver.
  - exists l. split; [exact Hl|]. intros x. rewrite Hx, elem_of_nil. unfold entry. split; [naive_solver|].
    intros (i & Hs & ?). right. exists i. split; [|done]. apply elem_of_seq. destruct Hs. lia.
Qed.

(** ** Appending *)

Definition acyclic (g : Graph) : Prop := ∀ i, ¬ tc (edge g) i i.

Section append.
Context (g r : Graph) (Hg : wf_graph g) (Hr : wf_graph r).
Context (Hno : ∀ i j, edge r i j → ¬ dummy r j).

(** The index in the result of node [j] of [r]. *)
Definition moved (j x : nat) : Prop := (merged true g r).2 !! j = Some (Some x).

Lemma left_out_dummy i : left_out true r i ↔ dummy r i.
Proof using. unfold left_out, dummy. naive_solver. Qed.

Lemma append_ok :
  ∃ h, Graph_append g r = Ok h ∧ wf_graph h ∧ nodes_ h = nodes_ (merged true g r).1 ∧
    ∀ a b, edge h a b ↔ edge g a b ∨ image true r (merged true g r).2 a b ∨
      (sink g a ∧ ∃ s, entry r s ∧ moved s b).
Proof using Hg Hr Hno.
  assert (∀ i j, edge r i j → ¬ left_out true r j) as Hno'.
  { intros i j Hij. rewrite left_out_dummy. eauto. }
  destruct (merge_graph_ok true g r Hg Hr Hno') as (h0 & Hm & Hwf0 & Hn0 & He0).
  pose proof (merged_all true g r Hg) as Hma.
  destruct (collect_sinks_ok g Hg) as (ts & Hts & Hti).
  destruct (collect_sources_ok r Hr) as (ss & Hss & Hsi).
  unfold Graph_append. rewrite Hts. cbn [mbind res_bind]. rewrite Hss. cbn [mbind res_bind].
  rewrite Hm. cbn [mbind res_bind fst snd].
  assert (∀ s, entry r s → ∃ x, moved s x ∧ order g ≤ x < order h0) as Hent.
  { intros s Hs. assert (s < order r ∧ ¬ dummy r s) as [Hlt Hnd].
    { destruct Hs as (i & [Hi Hin] & [[Hd He]|[Hd ->]]); [|done].
      split; [by apply (edge_lt r i s Hr)|eauto]. }
    destruct (merged_lookup true g r Hg s Hlt) as (x & Hx & Hxlt); [by rewrite left_out_dummy|].
    exists x. split; [done|]. unfold order in *. rewrite Hn0.
    pose proof (mn_new _ _ _ _ Hma s x eq_refl Hx). unfold order in *. lia. }
  match goal with |- context [foldM ?f h0 ts] => destruct (foldM_extends f
    (λ t x y, x = t ∧ ∃ s, s ∈ ss ∧ moved s y) ts h0) as (h & -> & Hwf & Hn & He) end; [|done|].
  - intros h1 t Ht Hwf1 Hn1. apply Hti in Ht as [Htlt _].
    assert (order g ≤ order h0) as Hgo.
    { unfold order. rewrite Hn0. apply (mn_order _ _ _ _ Hma). }
    match goal with |- context [foldM ?f h1 ss] => destruct (foldM_extends f
      (λ s x y, x = t ∧ moved s y) ss h1) as (h2 & -> & Hext) end; [|done|].
    + intros h2 s Hs Hwf2 Hn2. apply Hsi, Hent in Hs as (x & Hx & Hxb).
      unfold moved in Hx. unfold vget. rewrite Hx. cbn [mbind res_bind].
      assert (order h2 = order h0) as Ho by (unfold order; congruence).
      destruct (add_edge_extends h2 t x Hwf2) as (h3 & -> & Hext); [lia..|].
      exists h3. split; [done|]. eapply extends_equiv; [|exact Hext].
      intros a b. unfold moved. rewrite Hx. split; [naive_solver|].
      intros [-> [= <-]]. split_and!; try done. lia.
    + exists h2. split; [done|]. eapply extends_equiv; [|exact Hext]. naive_solver.
  - exists h. split_and!; [done|done|congruence|]. intros a b. rewrite He, He0.
    setoid_rewrite Hsi. setoid_rewrite Hti. naive_solver.
Qed.

Lemma moved_range j x : moved j x → order g ≤ x ∧ j < order r ∧ ¬ dummy r j.
Proof using Hg.
  intros Hx. pose proof (merged_all true g r Hg) as Hm. split_and!.
  - by eapply (mn_new _ _ _ _ Hm).
  - apply lookup_lt_Some in Hx. by rewrite (mn_length _ _ _ _ Hm) in Hx.
  - intros (n & Hn & Ht). by destruct (mn_some _ _ _ _ Hm j n x Hx Hn) as [[] _].
Qed.

Lemma moved_inj j j' x : moved j x → moved j' x → j = j'.
Proof using Hg. intros. pose proof (merged_all true g r Hg) as Hm. by eapply (mn_inj _ _ _ _ Hm). Qed.

Lemma image_moved a b : image true r (merged true g r).2 a b →
  ∃ i j, edge r i j ∧ moved i a ∧ moved j b.
Proof using. unfold image, moved. naive_solver. Qed.

(** Paths of the result stay in one operand or cross once. *)
Lemma append_path h a b :
  (∀ a b, edge h a b ↔ edge g a b ∨ image true r (merged true g r).2 a b ∨
      (sink g a ∧ ∃ s, entry r s ∧ moved s b)) →
  tc (edge h) a b →
  (b < order g → a < order g ∧ tc (edge g) a b) ∧
  (order g ≤ a → order g ≤ b ∧ ∃ i j, moved i a ∧ moved j b ∧ tc (edge r) i j).
Proof using Hg.
  intros He Hp.
  assert (∀ x y, edge h x y → (edge g x y ∧ x < order g ∧ y < order g) ∨
    (order g ≤ x ∧ order g ≤ y ∧ ∃ i j, edge r i j ∧ moved i x ∧ moved j y) ∨
    (x < order g ∧ order g ≤ y)) as Hcase.
  { intros x y Hxy. apply He in Hxy as [H|[H|[[H _] (s & _ & Hs)]]].
    - left. pose proof (edge_lt g x y Hg H). naive_solver.
    - right. left. apply image_moved in H as (i & j & Hij & Hi & Hj).
      destruct (moved_range i x Hi), (moved_range j y Hj). naive_solver.
    - right. right. destruct (moved_range s y Hs). naive_solver. }
  induction Hp as [x y Hxy|x y z Hxy Hyz [IH1 IH2]].
  - destruct (Hcase x y Hxy) as [(?&?&?)|[(?&?&i&j&?&?&?)|(?&?)]]; (split; intros; [try lia|try lia]).
    + split; [lia|by apply tc_once].
    + split; [lia|]. exists i, j. split_and!; [done..|by apply tc_once].
  - destruct (Hcase x y Hxy) as [(?&?&?)|[(?&?&i&j&?&?&?)|(?&?)]]; split; intros Hz; try lia.
    + destruct (IH1 Hz). split; [lia|by eapply tc_l].
    + destruct (IH2 ltac:(lia)) as (? & i' & j' & Hi' & ? & ?).
      assert (i' = j) as -> by (by eapply moved_inj).
      split; [lia|]. exists i, j'. split_and!; [done..|by eapply tc_l].
Qed.

(** The index [operator*] gives to node [j] of the right operand. *)
Definition shift (j : nat) : nat := default 0 (mjoin ((merged true g r).2 !! j)).

Lemma moved_shift j x : moved j x → x = shift j.
Proof using. unfold moved, shift. by intros ->. Qed.

Lemma shift_moved j : j < order r → ¬ dummy r j → moved j (shift j).
Proof using Hg.
  intros Hj Hd. destruct (merged_lookup true g r Hg j Hj) as (x & Hx & _).
  - by rewrite left_out_dummy.
  - assert (moved j x) as Hm by done. by rewrite <-(moved_shift j x Hm).
Qed.

Lemma shift_split x : x < order (merged true g r).1 →
  x < order g ∨ ∃ j, j < order r ∧ ¬ dummy r j ∧ x = shift j.
Proof using Hg.
  unfold shift, merged, order, dummy. induction (nodes_ r) as [|n ns IH] using rev_ind; [by left|].
  rewrite fold_left_app. cbn [fold_left]. pose proof (merge_nodes_all true g ns Hg) as Hm.
  set (gm := fold_left _ ns (g, [])) in *. pose proof (mn_length _ _ _ _ Hm) as Hlen.
  intros Hx.
  assert (x < length (nodes_ gm.1) →
    x < length (nodes_ g) ∨ ∃ j, j < length (ns ++ [n]) ∧
      ¬ (∃ n0, (ns ++ [n]) !! j = Some n0 ∧ n_type n0 = XID_TYPE_DUMMY_SOURCE) ∧
      x = default 0 (mjoin ((merge_node true gm n).2 !! j))) as Hold.
  { intros Hx'. destruct (IH Hx') as [?|(j & Hj & Hd & Heq)]; [by left|right].
    exists j. rewrite length_app. split; [lia|]. rewrite lookup_app_l by lia. split; [done|].
    unfold merge_node. case_match; cbn [snd]; by rewrite lookup_app_l by (rewrite Hlen; lia). }
  unfold merge_node in Hx, Hold |- *. cbn [andb] in *. case_bool_decide as Ht; [auto|].
  destruct (add_node_cases gm.1 n true (mn_wf _ _ _ _ Hm)) as [[Hadd _]|(? & ? & _ & ? & _)]; [|done].
  rewrite Hadd in *. cbn [fst snd push_node nodes_] in *. rewrite length_app in Hx. simpl in Hx.
  destruct (decide (x = length (nodes_ gm.1))) as [->|]; [|apply Hold; lia].
  right. exists (length ns). rewrite length_app. simpl. split; [lia|].
  rewrite lookup_app_r, Nat.sub_diag by lia. split; [naive_solver|].
  by rewrite <-Hlen, lookup_app_r, Nat.sub_diag by lia.
Qed.
End append.

(** [shift] leaves the range of the left operand. *)
Lemma shift_ge g r j : wf_graph g → j < order r → ¬ dummy r j → order g ≤ shift g r j.
Proof. intros Hg Hj Hd. eapply (moved_range g r Hg), shift_moved; done. Qed.

Section append_ends.
Context (g r h : Graph) (Hg : wf_graph g) (Hr : wf_graph r).
Context (Hno : ∀ i j, edge r i j → ¬ dummy r j).
Context (Hn : nodes_ h = nodes_ (merged true g r).1).
Context (He : ∀ a b, edge h a b ↔ edge g a b ∨
   (∃ i j, edge r i j ∧ ¬ dummy r i ∧ a = shift g r i ∧ b = shift g r j) ∨
   (sink g a ∧ ∃ s, entry r s ∧ b = shift g r s)).

Lemma entry_kept s : entry r s → s < order r ∧ ¬ dummy r s.
Proof using Hr Hno.
  intros (i & [Hi Hin] & [[Hd Hs]|[Hd ->]]); [|done].
  split; [by apply (edge_lt r i s Hr)|eauto].
Qed.

Lemma append_order : order g ≤ order h ∧ order h = order (merged true g r).1.
Proof using Hg Hn.
  assert (order h = order (merged true g r).1) as -> by (unfold order; by rewrite Hn).
  split; [|done]. apply (mn_order _ _ _ _ (merged_all true g r Hg)).
Qed.

Lemma append_sources t x : sink g t → source h x ↔ source g x.
Proof using Hg Hr Hno Hn He.
  intros Ht. destruct append_order as [Hgo Ho]. split.
  - intros [Hx Hsrc]. destruct (shift_split g r Hg x ltac:(lia)) as [Hlt|(j & Hj & Hd & ->)].
    { split; [done|]. intros y Hy. apply (Hsrc y), He. by left. }
    assert (¬ entry r j) as Hne.
    { intros Hj'. apply (Hsrc t), He. right; right. eauto. }
    exfalso. apply Hne. exists j. split; [|by right]. split; [done|]. intros i Hij.
    pose proof (edge_lt r i j Hr Hij) as [Hi _].
    destruct (decide (n_type <$> nodes_ r !! i = Some XID_TYPE_DUMMY_SOURCE)) as [Hdi|Hdi].
    + apply fmap_Some in Hdi as (n & Hni & Hty). apply Hne. exists i.
      assert (dummy r i) by (by exists n). split; [split; [done|]|by left].
      intros k Hk. by apply (Hno k i Hk).
    + apply (Hsrc (shift g r i)), He. right; left. exists i, j. split_and!; try done.
      intros (n & Hni & Hty). rewrite Hni in Hdi. simpl in Hdi. congruence.
  - intros [Hx Hsrc]. split; [lia|]. intros y [Hy|[(i & j & Hij & _ & -> & ->)|(_ & s & Hs & ->)]]%He.
    + by apply (Hsrc y).
    + pose proof (edge_lt r i j Hr Hij) as [_ Hj].
      pose proof (shift_ge g r j Hg Hj (Hno i j Hij)). lia.
    + destruct (entry_kept s Hs). pose proof (shift_ge g r s Hg). naive_solver lia.
Qed.

Lemma append_sinks s x : entry r s → sink h x ↔ ∃ j, sink r j ∧ ¬ dummy r j ∧ x = shift g r j.
Proof using Hg Hr Hno Hn He.
  intros Hs. destruct append_order as [Hgo Ho]. split.
  - intros [Hx Hsnk]. destruct (shift_split g r Hg x ltac:(lia)) as [Hlt|(j & Hj & Hd & ->)].
    + exfalso. apply (Hsnk (shift g r s)), He. right; right. split; [|eauto]. split; [done|].
      intros y Hy. apply (Hsnk y), He. by left.
    + exists j. split; [split; [done|]|done]. intros i Hji. apply (Hsnk (shift g r i)), He.
      right; left. by exists j, i.
  - intros (j & [Hj Hsnk] & Hd & ->). pose proof (shift_moved g r Hg j Hj Hd) as Hmj.
    split; [rewrite Ho; by eapply (mn_bound _ _ _ _ (merged_all true g r Hg))|].
    pose proof (shift_ge g r j Hg Hj Hd).
    intros y [Hy|[(i & k & Hik & Hdi & Heq & ->)|([Hlt _] & _)]]%He; [|..|lia].
    + pose proof (edge_lt g _ _ Hg Hy). lia.
    + pose proof (edge_lt r i k Hr Hik) as [Hi _]. rewrite Heq in Hmj.
      assert (j = i) as -> by (eapply (moved_inj g r Hg); [done|by apply shift_moved]).
      by apply (Hsnk k).
Qed.
End append_ends.

(** C30: appending one address graph to another ([operator*]) never leaves the
    bounds of its vectors, keeps the representation invariant, and keeps the
    graph acyclic, provided no edge of the appended graph enters a dummy
    source. *)
Theorem append_acyclic g r : wf_graph g → wf_graph r → (∀ i j, edge r i j → ¬ dummy r j) →
  acyclic g → acyclic r →
  ∃ h, Graph_append g r = Ok h ∧ wf_graph h ∧ acyclic h.
Proof.
  intros Hg Hr Hno Hag Har. destruct (append_ok g r Hg Hr Hno) as (h & -> & Hwf & _ & He).
  exists h. split_and!; [done..|]. intros i Hi.
  destruct (append_path g r Hg h i i He Hi) as [H1 H2].
  destruct (decide (i < order g)).
  - destruct (H1 l) as [_ Hc]. by apply (Hag i).
  - destruct (H2 ltac:(lia)) as (_ & a & b & Ha & Hb & Hc).
    assert (a = b) as <- by (by eapply (moved_inj g r Hg)). by apply (Har a).
Qed.

Lemma wf_graph_of_node n : wf_graph (Graph_of_node n).
Proof. apply (add_node_ok Graph_empty n false wf_empty). Qed.

Lemma edge_graph_of_node n i j : ¬ edge (Graph_of_node n) i j.
Proof.
  intros (l & Hl & Hj). cbn in Hl. destruct i as [|i]; [|by destruct i].
  injection Hl as <-. by apply elem_of_nil in Hj.
Qed.

Lemma acyclic_graph_of_node n : acyclic (Graph_of_node n).
Proof.
  intros i Hi. inversion Hi; by eapply edge_graph_of_node.
Qed.

Definition demo_ad : Node := mkNode (Some 100) XID_TYPE_AD (replicate 20 1%Z).
Definition demo_hid : Node := mkNode (Some 101) XID_TYPE_HID (replicate 20 2%Z).
Definition demo_sid : Node := mkNode (Some 102) XID_TYPE_SID (replicate 20 3%Z).

Lemma append_acyclic_witness :
  ∃ h, Graph_append (Graph_of_node dummy_source) (Graph_of_node demo_ad) = Ok h ∧ wf_graph h ∧ acyclic h.
Proof.
  apply (append_acyclic (Graph_of_node dummy_source) (Graph_of_node demo_ad)).
  - apply wf_graph_of_node.
  - apply wf_graph_of_node.
  - intros i j Hij. by apply edge_graph_of_node in Hij.
  - apply acyclic_graph_of_node.
  - apply acyclic_graph_of_node.
Defined.

(** C33: what [operator*] computes: the nodes and edges of both operands are
    kept, the dummy sources of the right one are dropped, and every sink of the
    left operand gets an edge to every entry of the right one.  The result has
    the sources of the left operand and the sinks of the right one, when the
    left has a sink and the right an entry. *)
Theorem append_spec g r : wf_graph g → wf_graph r → (∀ i j, edge r i j → ¬ dummy r j) →
  ∃ h (f : nat → nat), Graph_append g r = Ok h ∧
    (∀ i n, nodes_ g !! i = Some n → nodes_ h !! i = Some n) ∧
    (∀ j n, nodes_ r !! j = Some n → ¬ dummy r j → nodes_ h !! f j = Some n) ∧
    (∀ a b, edge h a b ↔ edge g a b ∨
       (∃ i j, edge r i j ∧ ¬ dummy r i ∧ a = f i ∧ b = f j) ∨
       (sink g a ∧ ∃ s, entry r s ∧ b = f s)) ∧
    ((∃ t, sink g t) → (∃ s, entry r s) →
       (∀ x, source h x ↔ source g x) ∧
       (∀ x, sink h x ↔ ∃ j, sink r j ∧ ¬ dummy r j ∧ x = f j)).
Proof.
  intros Hg Hr Hno. destruct (append_ok g r Hg Hr Hno) as (h & Hh & Hwf & Hn & He).
  pose proof (merged_all true g r Hg) as Hm.
  pose proof (entry_kept r Hr Hno) as Hent.
  assert (∀ a b, edge h a b ↔ edge g a b ∨
       (∃ i j, edge r i j ∧ ¬ dummy r i ∧ a = shift g r i ∧ b = shift g r j) ∨
       (sink g a ∧ ∃ s, entry r s ∧ b = shift g r s)) as He'.
  { intros a b. rewrite He. split; (intros [?|[H|(? & s & Hs & Hb)]]; [by left|..]).
    - right; left. destruct H as (i & j & Hij & Hd & Ha & Hb & _). exists i, j.
      rewrite left_out_dummy in Hd. split_and!; try done; by apply moved_shift.
    - right; right. split; [done|]. exists s. split; [done|]. by apply moved_shift.
    - right; left. destruct H as (i & j & Hij & Hd & -> & ->). exists i, j.
      pose proof (edge_lt r i j Hr Hij) as [Hi Hj]. rewrite left_out_dummy.
      assert (moved g r i (shift g r i)) as Mi by (by apply shift_moved).
      assert (moved g r j (shift g r j)) as Mj by (apply shift_moved; eauto).
      split_and!; try done. intros Heq. rewrite Heq in Mi.
      assert (i = j) as -> by (by eapply (moved_inj g r Hg)). by apply (wfg_irrefl r Hr j).
    - right; right. split; [done|]. exists s. split; [done|]. subst b.
      apply shift_moved; [done|by apply Hent..]. }
  exists h, (shift g r). split_and!; [done| | |done|].
  - intros i n Hi. rewrite Hn. by apply (mn_keep _ _ _ _ Hm).
  - intros j n Hj Hd. rewrite Hn. eapply (mn_same _ _ _ _ Hm); [done| |done].
    apply shift_moved; [done|by apply lookup_lt_Some in Hj|done].
  - intros [t Ht] [s Hs]. split; intros x.
    + by apply (append_sources g r h Hg Hr Hno Hn He' t).
    + by apply (append_sinks g r h Hg Hr Hno Hn He' s).
Qed.

Lemma append_spec_witness :
  ∃ h f, Graph_append (Graph_of_node dummy_source) (Graph_of_node demo_ad) = Ok h ∧
    nodes_ h !! f 0 = Some demo_ad ∧ source h 0 ∧ sink h (f 0).
Proof.
  destruct (append_spec (Graph_of_node dummy_source) (Graph_of_node demo_ad)) as
    (h & f & Hh & _ & Hr & _ & Hends).
  - apply wf_graph_of_node.
  - apply wf_graph_of_node.
  - intros i j Hij. by apply edge_graph_of_node in Hij.
  - assert (¬ dummy (Graph_of_node demo_ad) 0) as Hd by (intros (n & [= <-] & ?); done).
    assert (∀ n, source (Graph_of_node n) 0 ∧ sink (Graph_of_node n) 0) as Hst.
    { intros n. split; (split; [apply Nat.ltb_lt; reflexivity|]); intros j; apply edge_graph_of_node. }
    destruct Hends as [Hs Ht]; [exists 0; apply Hst|exists 0, 0; split; [apply Hst|by right]|].
    exists h, f. split_and!; [done|by apply Hr|apply Hs, Hst|apply Ht].
    exists 0. split_and!; [apply Hst|done|done].
Defined.
