(* ===== verification/DagView.v ===== *)
(** * DagView: the address a graph denotes

    The public accessors [get_node] and [get_out_edges] number the nodes of a
    graph in address order: the source is -1, the final intent comes last.
    [dag_view] collects what they return, the source included; it is the meaning
    of a graph, and two graphs with the same view are the same address.  The two index conversions
    are inverse to each other. *)

From Stdlib Require Import ZArith Lia Ascii String.
From stdpp Require Import base gmap sets list.
From S2P Require Import Prelude Text DagNode DagAddr DagWf.

Local Open Scope Z_scope.

(** One entry of a view: type, identifier, out edges. *)
Abbreviation entry_t := (Z * list Z * list Z)%type.

Definition view_entry (g : Graph) (k : Z) : res entry_t :=
  n ← get_node g k;
  es ← get_out_edges g k;
  Ok (n_type n, n_id n, es).

(** The source, and the other nodes. *)
Definition dag_view (g : Graph) : res (entry_t * list entry_t) :=
  src ← view_entry g (-1);
  ns ← foldM (λ acc k, e ← view_entry g (Z.of_nat k); Ok (acc ++ [e])) [] (seq 0 (Z.to_nat (num_nodes g)));
  Ok (src, ns).

(** The dummy source with the out edges [row]. *)
Definition dummy_entry (row : list Z) : entry_t := (XID_TYPE_DUMMY_SOURCE, replicate ID_LEN 0, row).

(** The external forms do not have the source: a graph that is read from them
    has the dummy source in its place. *)
Definition addressed (v : entry_t * list entry_t) : entry_t * list entry_t := (dummy_entry v.1.2, v.2).

(** A graph with one source [s] and one final intent [t]. *)
Record address (g : Graph) (s t : nat) : Prop := {
  ad_wf : wf_graph g;
  ad_source x : source g x ↔ x = s;
  ad_sink x : sink g x ↔ x = t;
  ad_ne : s ≠ t;
  ad_small : (order g ≤ 256)%nat }.

(** ** The ends are found *)

Lemma address_lt g s t : address g s t → (s < order g)%nat ∧ (t < order g)%nat.
Proof.
  intros H. split.
  - by apply (ad_source g s t H s).
  - by apply (ad_sink g s t H t).
Qed.

Lemma find_ends_ok g s t : address g s t → find_ends g = Ok (Z.of_nat s, Z.of_nat t).
Proof.
  intros H. destruct (address_lt g s t H) as [Hs Ht]. unfold find_ends.
  match goal with |- foldM ?f _ _ = _ => set (F := f) end.
  assert (∀ l st, Forall (λ i, i < order g)%nat l →
    foldM F st l = Ok (if decide (s ∈ l) then Z.of_nat s else st.1,
                       if decide (t ∈ l) then Z.of_nat t else st.2)) as Hl.
  { induction l as [|i l IH]; intros st Hlt.
    { rewrite !decide_False by apply not_elem_of_nil. by destruct st. }
    inversion Hlt as [|?? Hi Hlt']; subst. cbn [foldM].
    destruct (is_source_ok g i (ad_wf _ _ _ H) Hi) as (b & Hbe & Hb).
    destruct (is_sink_ok g i (ad_wf _ _ _ H) Hi) as (c & Hce & Hc).
    assert (F st i = Ok (if b then Z.of_nat i else st.1, if c then Z.of_nat i else st.2)) as ->
      by (unfold F; by rewrite Hbe, Hce).
    cbn [mbind res_bind]. rewrite IH by done. cbn [fst snd]. rewrite (ad_source _ _ _ H) in Hb. rewrite (ad_sink _ _ _ H) in Hc.
    f_equal. f_equal.
    - destruct b; [assert (i = s) as -> by (by apply Hb)|assert (i ≠ s) by naive_solver];
        repeat case_decide; set_solver.
    - destruct c; [assert (i = t) as -> by (by apply Hc)|assert (i ≠ t) by naive_solver];
        repeat case_decide; set_solver. }
  rewrite Hl by (apply Forall_forall; intros i Hi%elem_of_seq; unfold order; lia).
  rewrite !decide_True by (apply elem_of_seq; unfold order in *; lia). done.
Qed.

(** ** The two index conversions *)

Lemma num_nodes_small g : (0 < order g ≤ 256)%nat → num_nodes g = Z.of_nat (order g) - 1.
Proof. intros. unfold num_nodes, order in *. apply wrapU_small. simpl. lia. Qed.

(** Drops the reductions modulo 2^64 that do nothing, innermost first, and
    splits the conditionals on indices. *)
Ltac simple_index x :=
  lazymatch x with context [_ mod _] => fail | context [decide _] => fail | _ => idtac end.
Ltac index_arith :=
  unfold u64, wrapU in *;
  repeat first
    [ match goal with |- context [?x mod 2 ^ 64] =>
        simple_index x; rewrite (Z.mod_small x (2 ^ 64)) by lia end
    | match goal with H : context [?x mod 2 ^ 64] |- _ =>
        simple_index x; rewrite (Z.mod_small x (2 ^ 64)) in H by lia end
    | case_decide; try (exfalso; lia) ]; try lia.

(** From a real index other than the source's. *)
Lemma rank_spec g s t i : address g s t → (i < order g)%nat → i ≠ s →
  let k := index_in_dag_string g (Z.of_nat i) (Z.of_nat s) (Z.of_nat t) in
  0 ≤ k < Z.of_nat (order g) - 1 ∧ (k = Z.of_nat (order g) - 2 ↔ i = t) ∧
  index_from_dag_string_index g k (Z.of_nat s) (Z.of_nat t) = Z.of_nat i.
Proof.
  intros H Hi His. destruct (address_lt g s t H) as [Hs Ht].
  pose proof (ad_ne _ _ _ H). pose proof (ad_small _ _ _ H) as Hsm.
  unfold index_in_dag_string, index_from_dag_string_index.
  rewrite num_nodes_small by lia. fold (order g).
  set (n := order g) in *. clearbody n. cbv zeta.
  destruct (decide (i = t)) as [->|Hit].
  - rewrite (decide_True (P := Z.of_nat t = Z.of_nat t)) by done.
    unfold u64, wrapU. rewrite Z.mod_small by lia. split_and!; [lia|lia|done|].
    rewrite decide_False, decide_True by lia. done.
  - rewrite (decide_False (P := Z.of_nat i = Z.of_nat t)) by lia. split_and!; index_arith.
Qed.

(** From a number of the address order. *)
Lemma real_spec g s t k : address g s t → 0 ≤ k < Z.of_nat (order g) - 1 →
  let i := index_from_dag_string_index g k (Z.of_nat s) (Z.of_nat t) in
  0 ≤ i < Z.of_nat (order g) ∧ i ≠ Z.of_nat s ∧ (k = Z.of_nat (order g) - 2 ↔ i = Z.of_nat t) ∧
  index_in_dag_string g i (Z.of_nat s) (Z.of_nat t) = k.
Proof.
  intros H Hk. destruct (address_lt g s t H) as [Hs Ht].
  pose proof (ad_ne _ _ _ H). pose proof (ad_small _ _ _ H) as Hsm.
  unfold index_in_dag_string, index_from_dag_string_index.
  rewrite num_nodes_small by lia. fold (order g).
  set (n := order g) in *. clearbody n. cbv zeta.
  rewrite (decide_False (P := k = -1)) by lia.
  destruct (decide (k = Z.of_nat n - 1 - 1)) as [->|Hkt].
  - rewrite (decide_True (P := Z.of_nat t = Z.of_nat t)) by done.
    unfold u64, wrapU. rewrite Z.mod_small by lia. lia.
  - unfold u64, wrapU. rewrite (Z.mod_small k) by lia. split_and!; index_arith.
Qed.

(** ** The view of an address *)

Definition real (g : Graph) (s t k : nat) : nat :=
  Z.to_nat (index_from_dag_string_index g (Z.of_nat k) (Z.of_nat s) (Z.of_nat t)).

Definition outs (g : Graph) (i : nat) : list nat := default [] (out_edges_ g !! i).
Definition graph_node (g : Graph) (i : nat) : Node := default dummy_source (nodes_ g !! i).

(** The out edges of node [i], numbered in address order. *)
Definition ranks (g : Graph) (s t i : nat) : list Z :=
  map (λ e, index_in_dag_string g (Z.of_nat e) (Z.of_nat s) (Z.of_nat t)) (outs g i).

Definition entry_at (g : Graph) (s t k : nat) : entry_t :=
  let i := real g s t k in (n_type (graph_node g i), n_id (graph_node g i), ranks g s t i).

Lemma outs_lookup g i : wf_graph g → (i < order g)%nat → out_edges_ g !! i = Some (outs g i).
Proof. intros Hwf Hi. unfold outs. by destruct (out_lookup g i Hwf Hi) as [l ->]. Qed.

Lemma graph_node_lookup g i : (i < order g)%nat → nodes_ g !! i = Some (graph_node g i).
Proof. intros Hi. unfold graph_node. by destruct (lookup_lt_is_Some_2 (nodes_ g) i Hi) as [n ->]. Qed.

Section view.
Context (g : Graph) (s t : nat) (H : address g s t).

Lemma real_lt k : (k < order g - 1)%nat → (real g s t k < order g)%nat ∧ real g s t k ≠ s ∧
  (k = order g - 2 ↔ real g s t k = t)%nat.
Proof using H.
  intros Hk. destruct (real_spec g s t (Z.of_nat k) H ltac:(lia)) as (? & ? & ? & _).
  unfold real. lia.
Qed.

Lemma get_node_source : get_node g (-1) = Ok (graph_node g s).
Proof using H.
  unfold get_node. rewrite (find_ends_ok g s t H). cbn [mbind res_bind fst snd]. unfold index_from_dag_string_index.
  rewrite decide_True by done. rewrite vgetz_nat. unfold vget. destruct (address_lt g s t H). by rewrite graph_node_lookup.
Qed.

Lemma get_out_edges_source : get_out_edges g (-1) = Ok (ranks g s t s).
Proof using H.
  unfold get_out_edges. rewrite (find_ends_ok g s t H). cbn [mbind res_bind fst snd].
  rewrite decide_True by done. rewrite vgetz_nat. unfold vget.
  destruct (address_lt g s t H). by rewrite outs_lookup by first [done|apply (ad_wf _ _ _ H)].
Qed.

Lemma get_node_at k : (k < order g - 1)%nat → get_node g (Z.of_nat k) = Ok (graph_node g (real g s t k)).
Proof using H.
  intros Hk. destruct (real_spec g s t (Z.of_nat k) H ltac:(lia)) as (Hr & _).
  unfold get_node. rewrite (find_ends_ok g s t H). cbn [mbind res_bind fst snd].
  apply vgetz_Ok. split; [lia|]. apply graph_node_lookup. unfold real. lia.
Qed.

Lemma get_out_edges_at k : (k < order g - 1)%nat →
  get_out_edges g (Z.of_nat k) = Ok (ranks g s t (real g s t k)).
Proof using H.
  intros Hk. destruct (real_spec g s t (Z.of_nat k) H ltac:(lia)) as (Hr & _).
  unfold get_out_edges. rewrite (find_ends_ok g s t H). cbn [mbind res_bind fst snd].
  rewrite decide_False by lia.
  assert (vgetz (out_edges_ g) (index_from_dag_string_index g (Z.of_nat k) (Z.of_nat s) (Z.of_nat t))
    = Ok (outs g (real g s t k))) as ->; [|done].
  apply vgetz_Ok. split; [lia|]. apply outs_lookup; [apply (ad_wf _ _ _ H)|unfold real; lia].
Qed.

Lemma foldM_snoc_map {A B} (f : A → res B) (h : A → B) l acc :
  (∀ a, a ∈ l → f a = Ok (h a)) →
  foldM (λ acc a, b ← f a; Ok (acc ++ [b])) acc l = Ok (acc ++ map h l).
Proof using.
  revert acc. induction l as [|a l IH]; intros acc Hf; simpl; [by rewrite app_nil_r|].
  rewrite Hf by (by left). simpl. rewrite IH by (intros; apply Hf; by right).
  by rewrite <-app_assoc.
Qed.

Lemma dag_view_ok :
  dag_view g = Ok ((n_type (graph_node g s), n_id (graph_node g s), ranks g s t s), map (entry_at g s t) (seq 0 (order g - 1))).
Proof using H.
  destruct (address_lt g s t H). pose proof (ad_small _ _ _ H).
  unfold dag_view.
  assert (view_entry g (-1) = Ok (n_type (graph_node g s), n_id (graph_node g s), ranks g s t s)) as ->
    by (unfold view_entry; by rewrite get_node_source, get_out_edges_source).
  cbn [mbind res_bind].
  rewrite num_nodes_small by lia.
  replace (Z.to_nat (Z.of_nat (order g) - 1)) with (order g - 1)%nat by lia.
  rewrite (foldM_snoc_map (λ k, view_entry g (Z.of_nat k)) (entry_at g s t)); [done|].
  intros k Hk%elem_of_seq. unfold view_entry.
  rewrite get_node_at, get_out_edges_at by lia. done.
Qed.

(** The source is the dummy source. *)
Definition from_dummy : Prop := n_type (graph_node g s) = XID_TYPE_DUMMY_SOURCE ∧ n_id (graph_node g s) = replicate ID_LEN 0.

Lemma addressed_view v : dag_view g = Ok v → from_dummy → addressed v = v.
Proof using H. rewrite dag_view_ok. intros [= <-] [Ht Hi]. unfold addressed, dummy_entry. cbn [fst snd]. by rewrite Ht, Hi. Qed.

(** Edges in address order. *)
Lemma ranks_nodup i : (i < order g)%nat → NoDup (ranks g s t i).
Proof using H.
  intros Hi. pose proof (outs_lookup g i (ad_wf _ _ _ H) Hi) as Ho. unfold ranks.
  apply NoDup_fmap_2_strong; [|by eapply (wfg_nodup_out g (ad_wf _ _ _ H))].
  intros x y Hx Hy Heq. apply (edge_out g i _ _ Ho) in Hx, Hy.
  assert (∀ z, edge g i z → (z < order g)%nat ∧ z ≠ s) as Hz.
  { intros z Hz. split; [by apply (edge_lt g i z (ad_wf _ _ _ H))|]. intros ->.
    assert (source g s) as [_ Hs] by (by apply (ad_source _ _ _ H)). by apply (Hs i). }
  destruct (rank_spec g s t x H) as (_ & _ & Hfx); [by apply Hz..|].
  destruct (rank_spec g s t y H) as (_ & _ & Hfy); [by apply Hz..|].
  rewrite Heq in Hfx. lia.
Qed.

Lemma elem_of_ranks i x : (i < order g)%nat →
  x ∈ ranks g s t i ↔ ∃ j, edge g i j ∧ x = index_in_dag_string g (Z.of_nat j) (Z.of_nat s) (Z.of_nat t).
Proof using H.
  intros Hi. pose proof (outs_lookup g i (ad_wf _ _ _ H) Hi) as Ho. unfold ranks.
  rewrite list_elem_of_fmap. setoid_rewrite (edge_out g i _ _ Ho). naive_solver.
Qed.
End view.

(** ** Checking a concrete graph *)

Definition ins (g : Graph) (i : nat) : list nat := default [] (in_edges_ g !! i).

Definition row_checked (n : nat) (l : list nat) : Prop := NoDup l ∧ Forall (λ j, j < n)%nat l.

Definition address_checked (g : Graph) (s t : nat) : Prop :=
  length (out_edges_ g) = order g ∧ length (in_edges_ g) = order g ∧ s ≠ t ∧ (order g ≤ 256)%nat ∧
  Forall (row_checked (order g)) (out_edges_ g) ∧ Forall (row_checked (order g)) (in_edges_ g) ∧
  Forall (λ i, i ∉ outs g i ∧ (ins g i = [] ↔ i = s) ∧ (outs g i = [] ↔ i = t) ∧
    Forall (λ j, j ∈ outs g i ↔ i ∈ ins g j) (seq 0 (order g))) (seq 0 (order g)) ∧
  (s < order g)%nat ∧ (t < order g)%nat.

#[global] Instance row_checked_dec n l : Decision (row_checked n l).
Proof. unfold row_checked. apply _. Defined.
#[global] Instance address_checked_dec g s t : Decision (address_checked g s t).
Proof. unfold address_checked. apply _. Defined.

Lemma edge_outs g i j : edge g i j ↔ j ∈ outs g i.
Proof.
  unfold edge, outs. destruct (out_edges_ g !! i); simpl; [naive_solver|].
  rewrite elem_of_nil. naive_solver.
Qed.

Lemma redge_ins g i j : redge g i j ↔ i ∈ ins g j.
Proof.
  unfold redge, ins. destruct (in_edges_ g !! j); simpl; [naive_solver|].
  rewrite elem_of_nil. naive_solver.
Qed.

Lemma outs_row g i : Forall (row_checked (order g)) (out_edges_ g) → row_checked (order g) (outs g i).
Proof.
  intros Hf. unfold outs. destruct (out_edges_ g !! i) eqn:E; simpl.
  - rewrite Forall_lookup in Hf. eauto.
  - split; constructor.
Qed.

Lemma ins_row g i : Forall (row_checked (order g)) (in_edges_ g) → row_checked (order g) (ins g i).
Proof.
  intros Hf. unfold ins. destruct (in_edges_ g !! i) eqn:E; simpl.
  - rewrite Forall_lookup in Hf. eauto.
  - split; constructor.
Qed.

Lemma address_check g s t : address_checked g s t → address g s t.
Proof.
  intros (Ho & Hi & Hne & Hsm & Hro & Hri & Hall & Hs & Ht). rewrite Forall_forall in Hall.
  assert (∀ i j, (i < order g)%nat → (j < order g)%nat → j ∈ outs g i ↔ i ∈ ins g j) as Hsym.
  { intros i j Hi' Hj. destruct (Hall i) as (_ & _ & _ & Hf); [apply elem_of_seq; lia|].
    rewrite Forall_forall in Hf. apply Hf, elem_of_seq. lia. }
  assert (∀ i j, j ∈ outs g i → (i < order g)%nat ∧ (j < order g)%nat) as Hob.
  { intros i j Hj. destruct (outs_row g i Hro) as [_ Hf]. rewrite Forall_forall in Hf.
    split; [|by apply Hf]. unfold outs in Hj. destruct (out_edges_ g !! i) eqn:E.
    - apply lookup_lt_Some in E. lia.
    - by apply elem_of_nil in Hj. }
  assert (∀ i j, i ∈ ins g j → (i < order g)%nat ∧ (j < order g)%nat) as Hib.
  { intros i j Hj. destruct (ins_row g j Hri) as [_ Hf]. rewrite Forall_forall in Hf.
    split; [by apply Hf|]. unfold ins in Hj. destruct (in_edges_ g !! j) eqn:E.
    - apply lookup_lt_Some in E. lia.
    - by apply elem_of_nil in Hj. }
  assert (∀ i, (i < order g)%nat → i ∉ outs g i ∧ (ins g i = [] ↔ i = s) ∧ (outs g i = [] ↔ i = t)) as Hrow.
  { intros i Hi'. destruct (Hall i) as (? & ? & ? & _); [apply elem_of_seq; lia|done]. }
  split; [split| | |done|done].
  - done.
  - done.
  - intros i j. rewrite edge_outs, redge_ins. split; intros Hx.
    + destruct (Hob i j Hx). by apply Hsym.
    + destruct (Hib i j Hx). by apply Hsym.
  - intros i. rewrite edge_outs. intros Hx. destruct (Hob i i Hx). by destruct (Hrow i).
  - intros i l Hl. rewrite Forall_lookup in Hro. by destruct (Hro i l Hl).
  - intros i l Hl. rewrite Forall_lookup in Hri. by destruct (Hri i l Hl).
  - intros x. unfold source. setoid_rewrite edge_outs. split.
    + intros [Hx Hno]. destruct (Hrow x Hx) as (_ & Hsx & _). apply Hsx, elem_of_nil_inv.
      intros j Hj. destruct (Hib j x Hj). apply (Hno j). by apply Hsym.
    + intros ->. split; [done|]. intros j Hj. destruct (Hob j s Hj). destruct (Hrow s Hs) as (_ & Hsx & _).
      apply Hsym in Hj; [|done..]. rewrite (proj2 Hsx eq_refl) in Hj. by apply elem_of_nil in Hj.
  - intros x. unfold sink. setoid_rewrite edge_outs. split.
    + intros [Hx Hno]. destruct (Hrow x Hx) as (_ & _ & Htx). apply Htx, elem_of_nil_inv, Hno.
    + intros ->. split; [done|]. intros j Hj. destruct (Hrow t Ht) as (_ & _ & Htx).
      rewrite (proj2 Htx eq_refl) in Hj. by apply elem_of_nil in Hj.
Qed.

(** The address "service, or else domain, host, service". *)
Definition demo_graph : Graph :=
  mkGraph [dummy_source; demo_sid; demo_ad; demo_hid]
    [[1; 2]; []; [3]; [1]]%nat [[]; [0; 3]; [0]; [2]]%nat.

Lemma demo_address : address demo_graph 0 1.
Proof. apply address_check, (bool_decide_unpack _). vm_compute. exact I. Qed.
