(* ===== verification/DagCodec.v ===== *)
(** * DagCodec: socket addresses carry addresses faithfully

    The views that come from a graph with one source and one final intent are
    the valid ones, and a graph rebuilt row by row from a valid view has that
    view.  [from_sockaddr] after [fill_sockaddr] is such a rebuilding. *)

From Stdlib Require Import ZArith Lia Ascii String.
From stdpp Require Import base gmap sets list.
From S2P Require Import Prelude Text DagNode DagAddr DagWf DagView.

Local Open Scope Z_scope.

(** ** Valid views *)

Definition row_ok (m : nat) (row : list Z) : Prop :=
  NoDup row ∧ Forall (λ x, 0 ≤ x < Z.of_nat m) row.

Record valid_view (src : list Z) (ns : list entry_t) : Prop := {
  vv_pos : (0 < length ns)%nat;
  vv_src : row_ok (length ns) src ∧ src ≠ [];
  vv_row k e : ns !! k = Some e → row_ok (length ns) e.2 ∧ Z.of_nat k ∉ e.2;
  vv_last k e : ns !! k = Some e → e.2 = [] ↔ k = (length ns - 1)%nat;
  vv_reached k : (k < length ns)%nat →
    Z.of_nat k ∈ src ∨ ∃ j e, ns !! j = Some e ∧ Z.of_nat k ∈ e.2 }.

Lemma entries_lookup g s t k e :
  map (entry_at g s t) (seq 0 (order g - 1)) !! k = Some e →
  (k < order g - 1)%nat ∧ e = entry_at g s t k.
Proof.
  intros Hk. apply list_lookup_fmap_Some in Hk as (k' & -> & [-> Hk']%lookup_seq). done.
Qed.

Section valid.
Context (g : Graph) (s t : nat) (H : address g s t).

Lemma edge_not_source i j : edge g i j → (j < order g)%nat ∧ j ≠ s.
Proof using H.
  intros Hij. split; [by apply (edge_lt g i j (ad_wf _ _ _ H))|]. intros ->.
  assert (source g s) as [_ Hs] by (by apply (ad_source _ _ _ H)). by apply (Hs i).
Qed.

Lemma ranks_ok i : (i < order g)%nat → row_ok (order g - 1) (ranks g s t i).
Proof using H.
  intros Hi. split; [by apply ranks_nodup|]. apply Forall_forall.
  intros x (j & Hij & ->)%(elem_of_ranks g s t H i x Hi).
  destruct (edge_not_source i j Hij) as [Hj Hjs].
  destruct (rank_spec g s t j H Hj Hjs) as (? & _). lia.
Qed.

Lemma ranks_nil i : (i < order g)%nat → ranks g s t i = [] ↔ i = t.
Proof using H.
  intros Hi. rewrite <-(ad_sink _ _ _ H). split.
  - intros Hr. split; [done|]. intros j Hij.
    assert (index_in_dag_string g (Z.of_nat j) (Z.of_nat s) (Z.of_nat t) ∈ ranks g s t i) as Hin.
    { apply (elem_of_ranks g s t H i _ Hi). eauto. }
    rewrite Hr in Hin. by apply elem_of_nil in Hin.
  - intros [_ Ht]. apply elem_of_nil_inv. intros x (j & Hij & _)%(elem_of_ranks g s t H i x Hi).
    by apply (Ht j).
Qed.

Lemma has_predecessor x : (x < order g)%nat → x ≠ s → ∃ i, edge g i x.
Proof using H.
  intros Hx Hxs. pose proof (ad_wf _ _ _ H) as Hwf.
  destruct (in_lookup g _ Hwf Hx) as [[|i l] Hl].
  - exfalso. apply Hxs, (ad_source _ _ _ H). split; [done|].
    intros j (l & Hl' & Hj)%(wfg_sym g Hwf).
    rewrite Hl in Hl'. injection Hl' as <-. by apply elem_of_nil in Hj.
  - exists i. apply (wfg_sym g Hwf). exists (i :: l). split; [done|]. by left.
Qed.

(** The view of an address is valid. *)
Lemma view_valid : valid_view (ranks g s t s) (map (entry_at g s t) (seq 0 (order g - 1))).
Proof using H.
  destruct (address_lt g s t H) as [Hs Ht]. pose proof (ad_ne _ _ _ H) as Hne.
  pose proof (ad_wf _ _ _ H) as Hwf.
  split; rewrite ?length_map, ?length_seq.
  - lia.
  - split; [by apply ranks_ok|]. rewrite ranks_nil by done. done.
  - intros k e [Hk ->]%entries_lookup. unfold entry_at. cbn [snd].
    destruct (real_lt g s t H k Hk) as (Hr & _). split; [by apply ranks_ok|].
    intros (j & Hij & Heq)%(elem_of_ranks g s t H _ _ Hr).
    destruct (edge_not_source _ j Hij) as [Hj Hjs].
    destruct (rank_spec g s t j H Hj Hjs) as (_ & _ & Hfrom). rewrite <-Heq in Hfrom.
    assert (real g s t k = j) as Hk' by (unfold real; lia). rewrite Hk' in Hij.
    by apply (wfg_irrefl g Hwf j).
  - intros k e [Hk ->]%entries_lookup. unfold entry_at. cbn [snd].
    destruct (real_lt g s t H k Hk) as (Hr & _ & Hlast). rewrite ranks_nil by done. lia.
  - intros k Hk. destruct (real_lt g s t H k Hk) as (Hr & Hrs & _).
    destruct (real_spec g s t (Z.of_nat k) H ltac:(lia)) as (Hr0 & _ & _ & Hin).
    destruct (has_predecessor _ Hr Hrs) as [i Hi].
    destruct (edge_lt g i _ Hwf Hi) as [Hi' _].
    assert (Z.of_nat k ∈ ranks g s t i) as Hki.
    { apply (elem_of_ranks g s t H i _ Hi'). exists (real g s t k). split; [done|].
      unfold real. by rewrite Z2Nat.id by lia. }
    destruct (decide (i = s)) as [->|His]; [by left|right].
    destruct (rank_spec g s t i H Hi' His) as (Hk' & _ & Hfrom).
    set (j := index_in_dag_string g (Z.of_nat i) (Z.of_nat s) (Z.of_nat t)) in *.
    exists (Z.to_nat j), (entry_at g s t (Z.to_nat j)).
    split; [apply list_lookup_fmap_Some; eexists; split; [done|]; apply lookup_seq; lia|].
    unfold entry_at, real. cbn [snd]. rewrite Z2Nat.id, Hfrom, Nat2Z.id by lia. done.
Qed.
End valid.

(** ** Rebuilding a graph row by row *)

Definition add_row (g : Graph) (row : nat * list nat) : res Graph :=
  foldM (λ g j, add_edge g row.1 j) g row.2.

Lemma add_row_exact es : ∀ g i pre, wf_graph g → out_edges_ g !! i = Some pre →
  NoDup (pre ++ es) → Forall (λ j, j < order g ∧ j ≠ i)%nat es →
  ∃ g', add_row g (i, es) = Ok g' ∧ wf_graph g' ∧ nodes_ g' = nodes_ g ∧
    out_edges_ g' = <[i := pre ++ es]> (out_edges_ g).
Proof.
  unfold add_row. cbn [fst snd]. induction es as [|j es IH]; intros g i pre Hwf Hi Hnd Hf.
  { exists g. rewrite app_nil_r, list_insert_id by done. done. }
  apply Forall_cons in Hf as [[Hj Hji] Hf]. cbn [foldM].
  assert (i < order g)%nat as Hil by (rewrite <-(wfg_out g Hwf); by eapply lookup_lt_Some).
  destruct (add_edge_ok g i j Hwf Hil Hj) as (g1 & -> & Hwf1 & Hn1 & _ & Ho1). cbn [mbind res_bind].
  specialize (Ho1 pre Hi). rewrite NoDup_app in Hnd. destruct Hnd as (Hp & Hd & He).
  specialize (Ho1 ltac:(intros Hx; apply (Hd j Hx); by left) ltac:(done)).
  destruct (IH g1 i (pre ++ [j])) as (g' & -> & Hwf' & Hn' & Ho'); [done| | | |].
  - rewrite Ho1, list_lookup_insert_eq; [done|]. by rewrite (wfg_out g Hwf).
  - rewrite <-app_assoc. simpl. apply NoDup_app. done.
  - unfold order in *. by rewrite Hn1.
  - exists g'. split_and!; [done|done|congruence|].
    by rewrite Ho', Ho1, list_insert_insert_eq, <-app_assoc.
Qed.

Lemma add_rows_exact rows : ∀ g, wf_graph g → NoDup rows.*1 →
  Forall (λ r, out_edges_ g !! r.1 = Some [] ∧ NoDup r.2 ∧ Forall (λ j, j < order g ∧ j ≠ r.1)%nat r.2) rows →
  ∃ g', foldM add_row g rows = Ok g' ∧ wf_graph g' ∧ nodes_ g' = nodes_ g ∧
    (∀ r, r ∈ rows → out_edges_ g' !! r.1 = Some r.2) ∧
    (∀ i, i ∉ rows.*1 → out_edges_ g' !! i = out_edges_ g !! i).
Proof.
  induction rows as [|[i es] rows IH]; intros g Hwf Hnd Hf.
  { exists g. split_and!; try done. by intros ? ?%elem_of_nil. }
  apply Forall_cons in Hf as [(Hi & He & Hes) Hf]. cbn [fst snd fmap list_fmap] in *.
  apply NoDup_cons in Hnd as [Hin Hnd]. cbn [foldM].
  destruct (add_row_exact es g i [] Hwf Hi He Hes) as (g1 & -> & Hwf1 & Hn1 & Ho1). cbn [mbind res_bind].
  destruct (IH g1 Hwf1 Hnd) as (g' & -> & Hwf' & Hn' & Hr & Hu).
  { eapply Forall_impl; [apply Forall_and; split; [exact Hf|]; apply Forall_forall; intros r Hr; exact Hr|].
    intros r [(Hr1 & ? & ?) Hrin]. unfold order. rewrite Hn1. split_and!; [|done|done].
    rewrite Ho1, list_lookup_insert_ne; [done|].
    intros Heq. apply Hin. rewrite Heq. by apply list_elem_of_fmap_2. }
  exists g'. split_and!; [done|done|congruence| |].
  - intros r [->|Hrin]%elem_of_cons; [|by apply Hr]. cbn [fst snd].
    rewrite Hu by done. rewrite Ho1, list_lookup_insert_eq; [done|]. by eapply lookup_lt_Some.
  - intros j Hj. apply not_elem_of_cons in Hj as [Hji Hj]. rewrite Hu by done.
    by rewrite Ho1, list_lookup_insert_ne.
Qed.

Lemma nonempty_elem {A} (l : list A) : l ≠ [] → ∃ x, x ∈ l.
Proof. destruct l as [|x l]; [done|]. exists x. by left. Qed.

Lemma in_row_lt m row x : row_ok m row → x ∈ row → (Z.to_nat x < m)%nat.
Proof. intros [_ Hf] Hx. rewrite Forall_forall in Hf. specialize (Hf x Hx). simpl in Hf. lia. Qed.

(** A graph of [S (length ns)] nodes that has source [s], node [k] of the view at
    [pos k], and the rows of the view as its edges. *)
Section rebuilt.
Context (src : list Z) (ns : list entry_t) (V : valid_view src ns).
Context (h : Graph) (s : nat) (pos : nat → nat).
Context (Hwf : wf_graph h) (Hord : order h = S (length ns)) (Hsmall : (length ns < 256)%nat).
Context (Hs : (s ≤ length ns)%nat) (Hpos : ∀ k, (k < length ns)%nat → (pos k ≤ length ns)%nat ∧ pos k ≠ s).
Context (Hcover : ∀ i, (i ≤ length ns)%nat → i = s ∨ ∃ k, (k < length ns)%nat ∧ i = pos k).
Context (Hinj : ∀ k k', (k < length ns)%nat → (k' < length ns)%nat → pos k = pos k' → k = k').
Context (Hsrc : out_edges_ h !! s = Some (map (λ x, pos (Z.to_nat x)) src)).
Context (Hout : ∀ k e, ns !! k = Some e →
  out_edges_ h !! pos k = Some (map (λ x, pos (Z.to_nat x)) e.2)).

Lemma rebuilt_edge_source j : edge h s j ↔ ∃ x, x ∈ src ∧ j = pos (Z.to_nat x).
Proof using Hsrc. rewrite (edge_out h s j _ Hsrc), list_elem_of_fmap. split; intros (x & ? & ?); eauto. Qed.

Lemma rebuilt_edge k e j : ns !! k = Some e → edge h (pos k) j ↔ ∃ x, x ∈ e.2 ∧ j = pos (Z.to_nat x).
Proof using Hout.
  intros Hk. rewrite (edge_out h _ j _ (Hout k e Hk)), list_elem_of_fmap.
  split; intros (x & ? & ?); eauto.
Qed.

Lemma rebuilt_address : address h s (pos (length ns - 1)).
Proof using All.
  pose proof (vv_pos _ _ V) as Hm. destruct (vv_src _ _ V) as [Hrow Hsne].
  split; [done| | |apply not_eq_sym; apply Hpos; lia|lia].
  - intros i. split.
    + intros [Hi Hno]. destruct (Hcover i ltac:(lia)) as [|(k & Hk & ->)]; [done|]. exfalso.
      destruct (vv_reached _ _ V k Hk) as [Hks|(j & e & Hj & Hke)].
      * apply (Hno s), rebuilt_edge_source. exists (Z.of_nat k). by rewrite Nat2Z.id.
      * apply (Hno (pos j)), (rebuilt_edge j e _ Hj). exists (Z.of_nat k). by rewrite Nat2Z.id.
    + intros ->. split; [lia|]. intros j Hj. pose proof (edge_lt h j s Hwf Hj) as [Hjlt _].
      destruct (Hcover j ltac:(lia)) as [->|(k & Hk & ->)].
      { by apply (wfg_irrefl h Hwf s). }
      destruct (lookup_lt_is_Some_2 ns k Hk) as [e He].
      apply (rebuilt_edge k e _ He) in Hj as (x & Hx & Heq).
      destruct (vv_row _ _ V k e He) as [Hr _].
      destruct (Hpos (Z.to_nat x)); [by eapply in_row_lt|]. done.
  - intros i. split.
    + intros [Hi Hno]. destruct (Hcover i ltac:(lia)) as [->|(k & Hk & ->)].
      * exfalso. destruct (nonempty_elem src Hsne) as [x Hx].
        apply (Hno (pos (Z.to_nat x))), rebuilt_edge_source. eauto.
      * f_equal. destruct (lookup_lt_is_Some_2 ns k Hk) as [e He]. apply (vv_last _ _ V k e He).
        apply elem_of_nil_inv. intros x Hx. apply (Hno (pos (Z.to_nat x))), (rebuilt_edge k e _ He). eauto.
    + intros ->. destruct (lookup_lt_is_Some_2 ns (length ns - 1)) as [e He]; [lia|].
      split; [rewrite Hord; destruct (Hpos (length ns - 1)%nat); lia|].
      intros j (x & Hx & _)%(rebuilt_edge _ e _ He).
      assert (e.2 = []) as Hnil by (by apply (vv_last _ _ V _ e He)).
      rewrite Hnil in Hx. by apply elem_of_nil in Hx.
Qed.

Context (Hnodes : ∀ k e, ns !! k = Some e → ∃ n, nodes_ h !! pos k = Some n ∧ n_type n = e.1.1 ∧ n_id n = e.1.2).
Context (Hstart : nodes_ h !! s = Some dummy_source).
Context (Hin : ∀ k, (k < length ns)%nat → index_in_dag_string h (Z.of_nat (pos k)) (Z.of_nat s)
  (Z.of_nat (pos (length ns - 1))) = Z.of_nat k).

Lemma map_pos_back row : row_ok (length ns) row →
  map (λ e, index_in_dag_string h (Z.of_nat e) (Z.of_nat s) (Z.of_nat (pos (length ns - 1))))
    (map (λ x, pos (Z.to_nat x)) row) = row.
Proof using Hin.
  intros Hrow. rewrite map_map. transitivity (map id row); [|apply map_id].
  apply map_ext_in. intros x Hx%list_elem_of_In. destruct Hrow as [_ Hf].
  rewrite Forall_forall in Hf. specialize (Hf x Hx). simpl in Hf.
  rewrite Hin by (clear -Hf; lia). unfold id. clear -Hf. lia.
Qed.

Lemma rebuilt_view : dag_view h = Ok (dummy_entry src, ns).
Proof using All.
  pose proof rebuilt_address as Ha. rewrite (dag_view_ok h s _ Ha). rewrite Hord.
  replace (S (length ns) - 1)%nat with (length ns) by lia. unfold graph_node at 1 2. rewrite Hstart. do 2 f_equal.
  - unfold dummy_entry. f_equal. unfold ranks, outs. rewrite Hsrc. simpl. apply map_pos_back, (vv_src _ _ V).
  - apply list_eq. intros k. rewrite list_lookup_fmap.
    destruct (decide (k < length ns)%nat) as [Hk|Hk].
    + rewrite lookup_seq_lt by done. simpl. destruct (lookup_lt_is_Some_2 ns k Hk) as [e He].
      rewrite He. f_equal. unfold entry_at.
      assert (real h s (pos (length ns - 1)) k = pos k) as ->.
      { destruct (Hpos k Hk) as [Hle Hks].
        destruct (rank_spec h s _ (pos k) Ha ltac:(lia) Hks) as (_ & _ & Hf).
        rewrite Hin in Hf by done. unfold real. lia. }
      destruct (Hnodes k e He) as (n & Hn & Ht & Hi). unfold graph_node, ranks, outs.
      rewrite Hn, (Hout k e He). simpl. rewrite Ht, Hi, map_pos_back by (by eapply (vv_row _ _ V)).
      by destruct e as [[? ?] ?].
    + rewrite lookup_seq_ge by lia. simpl. symmetry. apply lookup_ge_None. lia.
Qed.
End rebuilt.

(** ** Filling a socket address *)

Lemma foldM_insert {A} (f : list A → nat → res (list A)) (v : nat → A) addr n :
  (∀ addr' i, length addr' = length addr → (i < n)%nat → f addr' i = Ok (<[i := v i]> addr')) →
  (n ≤ length addr)%nat →
  ∃ addr', foldM f addr (seq 0 n) = Ok addr' ∧ length addr' = length addr ∧
    ∀ i, (i < n)%nat → addr' !! i = Some (v i).
Proof.
  induction n as [|n IH]; intros Hf Hlen.
  { exists addr. split_and!; [done..|]. intros i Hi. lia. }
  destruct IH as (a1 & Hrun & Hl & Hv); [intros; apply Hf; lia|lia|].
  rewrite seq_S, foldM_app, Hrun. cbn [mbind res_bind foldM Nat.add]. rewrite Hf by lia.
  eexists. split; [done|]. rewrite length_insert. split; [done|]. intros i Hi.
  destruct (decide (i = n)) as [->|]; [rewrite list_lookup_insert_eq by lia; done|].
  rewrite list_lookup_insert_ne by done. apply Hv. lia.
Qed.

(** What [fill_sockaddr] puts in slot [k]. *)
Definition slot (g : Graph) (s t k : nat) : node_t :=
  let n := graph_node g (real g s t k) in
  mkNode_t (n_type n) (n_id n)
    (edge_slots (if decide (k = order g - 2)%nat then ranks g s t s else ranks g s t (real g s t k))).

Lemma fill_ok g s t sa : address g s t → (order g - 1 ≤ length (s_addr sa))%nat →
  ∃ addr, fill_sockaddr g sa = Ok (mkSockaddr AF_XIA (Z.of_nat (order g - 1)) addr) ∧
    length addr = length (s_addr sa) ∧
    ∀ k, (k < order g - 1)%nat → addr !! k = Some (slot g s t k).
Proof.
  intros H Hlen. destruct (address_lt g s t H) as [Hs Ht].
  pose proof (ad_ne _ _ _ H). pose proof (ad_small _ _ _ H).
  unfold fill_sockaddr. rewrite num_nodes_small by lia.
  replace (Z.of_nat (order g) - 1) with (Z.of_nat (order g - 1)) by lia. rewrite Nat2Z.id.
  destruct (foldM_insert (fill_node g) (slot g s t) (s_addr sa) (order g - 1)) as (addr & -> & Hl & Hv).
  - intros addr k Ha Hk. unfold fill_node.
    destruct (lookup_lt_is_Some_2 addr k) as [x Hx]; [lia|]. unfold vget. rewrite Hx.
    cbn [mbind res_bind]. rewrite (get_node_at g s t H k Hk), num_nodes_small by lia.
    cbn [mbind res_bind]. unfold slot.
    destruct (decide (k = order g - 2)%nat) as [->|Hne].
    + rewrite decide_True by lia. by rewrite (get_out_edges_source g s t H).
    + rewrite decide_False by lia. by rewrite (get_out_edges_at g s t H k Hk).
  - done.
  - exists addr. done.
Qed.

Lemma edge_slots_split es : (length es ≤ EDGES_MAX)%nat →
  edge_slots es = map u8 es ++ replicate (EDGES_MAX - length es) EDGE_UNUSED.
Proof.
  unfold EDGES_MAX. intros Hlen. destruct es as [|? [|? [|? [|? [|? ?]]]]];
    [reflexivity..|simpl in Hlen; lia].
Qed.

(** Reading the slots back: unused ones are skipped. *)
Lemma edge_slots_read g i (es : list Z) : (length es ≤ EDGES_MAX)%nat →
  Forall (λ x, 0 ≤ x < 20) es →
  foldM (λ g to, if decide (to = EDGE_UNUSED) then Ok g else add_edge g i (Z.to_nat to)) g
    (take EDGES_MAX (edge_slots es)) = add_row g (i, map Z.to_nat es).
Proof.
  intros Hlen Hes. rewrite take_ge by (unfold edge_slots; rewrite length_map, length_seq; done).
  rewrite edge_slots_split, foldM_app by done. unfold add_row. cbn [fst snd]. clear Hlen.
  match goal with |- context [foldM ?f g _] => set (F := f) end.
  assert (∀ n h, foldM F h (replicate n EDGE_UNUSED) = Ok h) as Hrep.
  { induction n as [|n IH]; intros h; [done|]. cbn [replicate foldM].
    assert (F h EDGE_UNUSED = Ok h) as -> by (unfold F; by rewrite decide_True). apply IH. }
  transitivity (h ← foldM F g (map u8 es); Ok h).
  { destruct (foldM F g (map u8 es)); [|done]. apply Hrep. }
  clear Hrep. revert g. induction Hes as [|x es Hx Hes IH]; intros g; [done|].
  assert (F g (u8 x) = add_edge g i (Z.to_nat x)) as Hstep.
  { unfold F, u8. rewrite wrapU_small by (simpl; lia).
    by rewrite decide_False by (unfold EDGE_UNUSED; lia). }
  cbn [map foldM]. rewrite Hstep. destruct (add_edge g i (Z.to_nat x)); [apply IH|done].
Qed.

(** ** Reading a socket address *)

(** [k] nodes with fresh containers and no edges, holding the first slots. *)
Record fresh_nodes (alloc : nat) (slots : list node_t) (g : Graph) : Prop := {
  fn_wf : wf_graph g;
  fn_order : order g = length slots;
  fn_out i l : out_edges_ g !! i = Some l → l = [];
  fn_node i x : slots !! i = Some x →
    nodes_ g !! i = Some (mkNode (Some (alloc + i)%nat) (s_type x) (take ID_LEN (s_id x))) }.

Lemma fresh_ptr alloc slots g n : fresh_nodes alloc slots g → n ∈ nodes_ g →
  ∃ i, ptr n = Some (alloc + i)%nat ∧ (i < length slots)%nat.
Proof.
  intros [_ Ho _ Hn] (i & Hi)%list_elem_of_lookup. exists i.
  assert (i < length slots)%nat as Hlt by (rewrite <-Ho; by eapply lookup_lt_Some).
  destruct (lookup_lt_is_Some_2 slots i Hlt) as [x Hx]. rewrite (Hn i x Hx) in Hi. by simplify_eq.
Qed.

Lemma push_no_edges g p : (∀ i l, out_edges_ g !! i = Some l → l = []) →
  ∀ i l, out_edges_ (push_node g p) !! i = Some l → l = [].
Proof. intros H i l Hl. cbn in Hl. apply lookup_snoc_Some in Hl as [[_ ?]|[_ <-]]; eauto. Qed.

Lemma sock_node_step sa alloc slots g x k : fresh_nodes alloc slots g →
  (length slots < 255)%nat → k = length slots → s_addr sa !! k = Some x →
  ∃ g', sock_node sa (g, (alloc + k)%nat, seq 0 k) k = Ok (g', (alloc + S k)%nat, seq 0 (S k)) ∧
    fresh_nodes alloc (slots ++ [x]) g'.
Proof.
  intros Hf Hlt -> Hx. pose proof Hf as [Hwf Ho Hout Hn]. unfold sock_node. cbn [fst snd]. unfold vget.
  rewrite Hx. cbn [mbind res_bind Node_of_id fst snd].
  destruct (add_node_cases g (mkNode (Some (alloc + length slots)%nat) (s_type x) (take ID_LEN (s_id x))) false Hwf)
    as [[-> _]|(idx & n & _ & _ & Hi & Hp)].
  2: { apply list_elem_of_lookup_2 in Hi. destruct (fresh_ptr _ _ _ _ Hf Hi) as (i & Hpi & ?).
       rewrite Hpi in Hp. simpl in Hp. injection Hp. lia. }
  eexists. cbn [fst snd]. rewrite Ho, seq_S. unfold u8. rewrite wrapU_small by (simpl; lia).
  rewrite Nat2Z.id, Nat.add_succ_r. split; [done|]. split.
  - by apply wf_push_node.
  - rewrite order_push_node, length_app, Ho. simpl. lia.
  - by apply push_no_edges.
  - intros i y Hy. cbn [push_node nodes_]. unfold order in Ho.
    apply lookup_snoc_Some in Hy as [[Hi Hy]|[-> <-]].
    + rewrite lookup_app_l by lia. by apply Hn.
    + by rewrite <-Ho, lookup_app_r, Nat.sub_diag by lia.
Qed.

Lemma sock_nodes_ok sa alloc m slots : (m < 256)%nat → length slots = m →
  (∀ k, (k < m)%nat → s_addr sa !! k = slots !! k) →
  ∃ g, foldM (sock_node sa) (Graph_empty, alloc, []) (seq 0 m) = Ok (g, (alloc + m)%nat, seq 0 m) ∧
    fresh_nodes alloc slots g.
Proof.
  revert slots. induction m as [|m IH]; intros slots Hm Hlen Hs.
  { exists Graph_empty. destruct slots; [|done]. rewrite Nat.add_0_r. split; [done|].
    split; [apply wf_empty|done..]. }
  destruct (lookup_lt_is_Some_2 slots m) as [x Hx]; [lia|].
  assert (slots = take m slots ++ [x]) as Hsl.
  { rewrite <-(take_S_r slots m x Hx). symmetry. apply take_ge. lia. }
  assert (length (take m slots) = m) as Hlt by (rewrite length_take; lia).
  destruct (IH (take m slots)) as (g & Hrun & Hf); [lia|done| |].
  { intros k Hk. rewrite Hs by lia. by rewrite lookup_take_lt. }
  rewrite seq_S, foldM_app, Hrun. cbn [mbind res_bind foldM Nat.add].
  destruct (sock_node_step sa alloc (take m slots) g x m Hf) as (g' & Hstep & Hf');
    [lia|done|by rewrite Hs by lia|].
  exists g'. rewrite Hstep, <-seq_S. cbn [mbind res_bind]. by rewrite Hsl.
Qed.

Lemma foldM_rows {A} (f : Graph → A → res Graph) (row : A → nat * list nat) l g :
  (∀ g a, a ∈ l → f g a = add_row g (row a)) → foldM f g l = foldM add_row g (map row l).
Proof.
  revert g. induction l as [|a l IH]; intros g Hf; [done|]. cbn [foldM map].
  rewrite Hf by (by left). destruct (add_row g (row a)); [|done]. apply IH. intros. apply Hf. by right.
Qed.

Section from_view.
Context (src : list Z) (ns : list entry_t) (V : valid_view src ns).
Context (Hm : (length ns ≤ NODES_MAX)%nat).
Context (Hdeg : (length src ≤ EDGES_MAX)%nat ∧ ∀ k e, ns !! k = Some e → (length e.2 ≤ EDGES_MAX)%nat).
Context (Hids : ∀ k e, ns !! k = Some e → length e.1.2 = ID_LEN).
Context (sa : sockaddr_x) (Hcount : s_count sa = Z.of_nat (length ns)).

(** The edges slot [k] holds: the source's in the last one. *)
Definition slot_row (k : nat) : list Z :=
  if decide (k = length ns - 1)%nat then src else default [] (snd <$> ns !! k).

Context (Hslots : ∀ k e, ns !! k = Some e →
  s_addr sa !! k = Some (mkNode_t e.1.1 e.1.2 (edge_slots (slot_row k)))).

Definition from_row (k : nat) : nat * list nat :=
  (if decide (k = length ns - 1)%nat then length ns else k, map Z.to_nat (slot_row k)).

Lemma slot_row_ok k : (k < length ns)%nat →
  row_ok (length ns) (slot_row k) ∧ (length (slot_row k) ≤ EDGES_MAX)%nat ∧
  ((from_row k).1 < length ns → Z.of_nat (from_row k).1 ∉ slot_row k)%nat.
Proof using V Hdeg Hm.
  intros Hk. destruct (lookup_lt_is_Some_2 ns k Hk) as [e He]. unfold slot_row, from_row.
  destruct (vv_src _ _ V), (vv_row _ _ V k e He). case_decide; cbn [fst].
  - split_and!; [done|by apply Hdeg|lia].
  - rewrite He. simpl. split_and!; [done|by eapply Hdeg|done].
Qed.

Lemma sock_edges_row g k : (k < length ns)%nat →
  sock_edges sa (seq 0 (length ns)) (length ns) g k = add_row g (from_row k).
Proof using V Hm Hdeg Hcount Hslots.
  intros Hk. destruct (lookup_lt_is_Some_2 ns k Hk) as [e He]. unfold sock_edges, vget.
  rewrite (Hslots k e He). cbn [mbind res_bind s_edge]. rewrite Hcount.
  assert ((if decide (Z.of_nat k = Z.of_nat (length ns) - 1) then Ok (length ns)
     else match seq 0 (length ns) !! k with Some x => Ok x | None => Ub OutOfBounds end)
     = Ok (from_row k).1) as ->.
  { unfold from_row. cbn [fst]. rewrite lookup_seq_lt by done. simpl. repeat case_decide; (done || lia). }
  cbn [mbind res_bind]. destruct (slot_row_ok k Hk) as ([_ Hr] & Hd & _).
  rewrite edge_slots_read; [done|done|]. eapply Forall_impl; [exact Hr|].
  unfold NODES_MAX in Hm. simpl. lia.
Qed.

Lemma from_row_inj k k' : (k < length ns)%nat → (k' < length ns)%nat →
  (from_row k).1 = (from_row k').1 → k = k'.
Proof using. clear. unfold from_row. cbn [fst]. intros. repeat case_decide; lia. Qed.

(** The rows read back are acceptable to a graph without edges. *)
Lemma from_rows_ok h0 : order h0 = S (length ns) →
  (∀ i, (i < order h0)%nat → out_edges_ h0 !! i = Some []) →
  NoDup (map from_row (seq 0 (length ns))).*1 ∧
  Forall (λ r, out_edges_ h0 !! r.1 = Some [] ∧ NoDup r.2 ∧
    Forall (λ j, j < order h0 ∧ j ≠ r.1)%nat r.2) (map from_row (seq 0 (length ns))).
Proof using V Hm Hdeg.
  intros Ho0 Hempty. split.
  - rewrite <-list_fmap_compose. apply NoDup_fmap_2_strong; [|apply NoDup_seq].
    intros k k' Hk%elem_of_seq Hk'%elem_of_seq Heq. apply from_row_inj in Heq; lia.
  - apply Forall_forall. intros r (k & -> & Hk%elem_of_seq)%list_elem_of_fmap.
    destruct (slot_row_ok k ltac:(lia)) as ([Hnd Hr] & _ & Hself). rewrite Ho0 in *.
    rewrite Forall_forall in Hr. simpl in Hr.
    assert ((from_row k).1 ≤ length ns)%nat as Hle by (unfold from_row; cbn [fst]; case_decide; lia).
    split_and!; [apply Hempty; lia| |].
    + unfold from_row. cbn [snd]. apply NoDup_fmap_2_strong; [|done]. intros x y Hx Hy Heq.
      pose proof (Hr x Hx). pose proof (Hr y Hy). lia.
    + apply Forall_forall. intros j (x & -> & Hx)%list_elem_of_fmap.
      pose proof (Hr x Hx) as Hxr. split; [lia|]. intros Heq. apply Hself; [lia|].
      rewrite <-Heq, Z2Nat.id by lia. done.
Qed.

(** The graph after the node loop of [from_sockaddr] and the dummy source. *)
Lemma from_nodes alloc : ∃ g, fresh_nodes alloc
    (imap (λ k e, mkNode_t e.1.1 e.1.2 (edge_slots (slot_row k))) ns) g ∧
  from_sockaddr Graph_empty alloc sa =
    (h ← foldM add_row (push_node g dummy_source) (map from_row (seq 0 (length ns)));
     Ok (h, (alloc + length ns)%nat)).
Proof using V Hm Hdeg Hcount Hslots.
  unfold NODES_MAX in Hm. unfold from_sockaddr. rewrite Hcount, Nat2Z.id.
  destruct (sock_nodes_ok sa alloc (length ns) (imap (λ k e, mkNode_t e.1.1 e.1.2 (edge_slots (slot_row k))) ns))
    as (g & -> & Hf); [lia|by rewrite length_imap| |].
  { intros k Hk. destruct (lookup_lt_is_Some_2 ns k Hk) as [e He].
    by rewrite list_lookup_imap, He, (Hslots k e He). }
  exists g. split; [done|]. cbn [mbind res_bind fst snd].
  pose proof Hf as [Hwf Ho _ _]. rewrite length_imap in Ho.
  destruct (add_node_cases g dummy_source false Hwf) as [[-> _]|(idx & n & _ & _ & Hi & Hp)].
  2: { apply list_elem_of_lookup_2 in Hi. destruct (fresh_ptr _ _ _ _ Hf Hi) as (i & Hpi & ?).
       by rewrite Hpi in Hp. }
  cbn [fst snd]. rewrite Ho. unfold u8. rewrite wrapU_small, Nat2Z.id by (simpl; lia).
  by rewrite (foldM_rows _ from_row) by (intros g' k Hk%elem_of_seq; apply sock_edges_row; lia).
Qed.

Lemma from_view alloc :
  ∃ h, from_sockaddr Graph_empty alloc sa = Ok (h, (alloc + length ns)%nat) ∧
    wf_graph h ∧ dag_view h = Ok (dummy_entry src, ns).
Proof using All.
  pose proof (vv_pos _ _ V) as Hpos. destruct (from_nodes alloc) as (g & [Hwf Ho Hout Hn] & ->).
  rewrite length_imap in Ho. set (h0 := push_node g dummy_source).
  assert (order h0 = S (length ns)) as Ho0 by (unfold h0; rewrite order_push_node; lia).
  pose proof (wf_push_node g dummy_source Hwf) as Hwf0.
  assert (∀ i, (i < order h0)%nat → out_edges_ h0 !! i = Some []) as Hempty.
  { intros i Hi. destruct (out_lookup h0 i Hwf0 Hi) as [l Hl]. rewrite Hl. f_equal.
    by eapply (push_no_edges g dummy_source). }
  destruct (from_rows_ok h0 Ho0 Hempty) as [Hnd Hrok].
  destruct (add_rows_exact _ h0 Hwf0 Hnd Hrok) as (h & -> & Hwfh & Hnh & Hrows & Hrest).
  exists h. split_and!; [done|done|].
  assert (order h = S (length ns)) as Hoh by (unfold order in *; congruence).
  assert (∀ k, (k < length ns)%nat → out_edges_ h !! (from_row k).1 = Some (from_row k).2) as Hrow.
  { intros k Hk. apply Hrows, list_elem_of_fmap. exists k. split; [done|]. apply elem_of_seq. lia. }
  apply (rebuilt_view src ns V h (length ns) id); unfold id in *; try done; try lia.
  - unfold NODES_MAX in Hm. lia.
  - intros i Hi. destruct (decide (i = length ns)); [by left|right]. exists i. lia.
  - specialize (Hrow (length ns - 1)%nat ltac:(lia)). unfold from_row, slot_row in Hrow.
    by rewrite !decide_True in Hrow by done.
  - intros k e He. pose proof (lookup_lt_Some _ _ _ He) as Hk.
    destruct (decide (k = length ns - 1)%nat) as [->|Hne].
    + assert (e.2 = []) as -> by (by apply (vv_last _ _ V _ e He)).
      rewrite Hrest; [apply Hempty; lia|]. rewrite <-list_fmap_compose.
      intros (k & Heq & Hk'%elem_of_seq)%list_elem_of_fmap. unfold from_row in Heq. simpl in Heq.
      case_decide; lia.
    + specialize (Hrow k Hk). unfold from_row, slot_row in Hrow.
      by rewrite !decide_False, He in Hrow by done.
  - intros k e He. rewrite Hnh. pose proof (lookup_lt_Some _ _ _ He) as Hk. unfold order in Ho.
    eexists. split; [cbn; rewrite lookup_app_l by lia; apply Hn; by rewrite list_lookup_imap, He|].
    cbn. split; [done|]. apply take_ge. rewrite (Hids k e He). done.
  - rewrite Hnh. unfold h0. cbn. unfold order in Ho. by rewrite lookup_app_r, Ho, Nat.sub_diag by lia.
  - intros k Hk. unfold index_in_dag_string. fold (order h). rewrite Hoh. unfold NODES_MAX in Hm.
    unfold u64. case_decide; [rewrite wrapU_small; lia|]. by rewrite !decide_False by lia.
Qed.
End from_view.

Lemma sockaddr_reads_back g s t sa alloc : address g s t → (order g ≤ S NODES_MAX)%nat →
  (∀ i l, out_edges_ g !! i = Some l → (length l ≤ EDGES_MAX)%nat) →
  (∀ n, n ∈ nodes_ g → length (n_id n) = ID_LEN) → length (s_addr sa) = NODES_MAX →
  ∃ sa' h v, fill_sockaddr g sa = Ok sa' ∧
    from_sockaddr Graph_empty alloc sa' = Ok (h, (alloc + (order g - 1))%nat) ∧
    wf_graph h ∧ dag_view g = Ok v ∧ dag_view h = Ok (addressed v) ∧ (from_dummy g s → addressed v = v).
Proof.
  intros H Ho Hdeg Hids Hlen. unfold NODES_MAX in *. destruct (address_lt g s t H) as [Hs Ht].
  destruct (fill_ok g s t sa H ltac:(lia)) as (addr & Hfill & Hal & Hslot).
  pose proof (view_valid g s t H) as V. pose proof (ad_ne _ _ _ H).
  assert (∀ i, (i < order g)%nat → (length (ranks g s t i) ≤ EDGES_MAX)%nat) as Hranks.
  { intros i Hi. unfold ranks. rewrite length_map. eapply Hdeg, outs_lookup; [apply (ad_wf _ _ _ H)|done]. }
  assert (length (map (entry_at g s t) (seq 0 (order g - 1))) = (order g - 1)%nat) as Hl
    by (by rewrite length_map, length_seq).
  destruct (from_view _ _ V) with (sa := mkSockaddr AF_XIA (Z.of_nat (order g - 1)) addr) (alloc := alloc)
    as (h & Hfrom & Hwf & Hview).
  - unfold NODES_MAX. lia.
  - split; [by apply Hranks|]. intros k e [Hk ->]%entries_lookup. apply Hranks.
    by apply (real_lt g s t H k Hk).
  - intros k e [Hk ->]%entries_lookup. cbn. apply Hids. eapply list_elem_of_lookup_2, graph_node_lookup.
    by apply (real_lt g s t H k Hk).
  - cbn. by rewrite Hl.
  - intros k e He. pose proof He as [Hk ->]%entries_lookup. cbn [s_addr]. rewrite (Hslot k Hk).
    unfold slot, slot_row. rewrite Hl, He. do 3 f_equal.
    repeat case_decide; try lia; done.
  - rewrite Hl in Hfrom. pose proof (dag_view_ok g s t H) as Hv. eexists _, h, _. split_and!; [done|done|done|exact Hv|exact Hview|].
    by apply (addressed_view g s t H).
Qed.

(** C21: a socket address carries an address graph: for a graph with one source
    and one final intent, at most 20 nodes besides the source and at most four
    edges per node, [from_sockaddr] of what [fill_sockaddr] wrote gives a graph
    with the same nodes and edges in address order.  The source itself is not
    written: the graph that is read has the dummy source in its place, so that
    it is the same graph when the source was the dummy source, and another one
    when it was not (as in the product of an AD and an HID). *)
Theorem sockaddr_roundtrip g s t sa alloc : address g s t → (order g ≤ S NODES_MAX)%nat →
  (∀ i l, out_edges_ g !! i = Some l → (length l ≤ EDGES_MAX)%nat) →
  (∀ n, n ∈ nodes_ g → length (n_id n) = ID_LEN) → length (s_addr sa) = NODES_MAX →
  ∃ sa' h v, fill_sockaddr g sa = Ok sa' ∧
    from_sockaddr Graph_empty alloc sa' = Ok (h, (alloc + (order g - 1))%nat) ∧
    wf_graph h ∧ dag_view g = Ok v ∧ dag_view h = Ok (addressed v) ∧ (from_dummy g s → addressed v = v).
Proof. apply sockaddr_reads_back. Qed.

Definition blank_sockaddr : sockaddr_x :=
  mkSockaddr 0 0 (replicate NODES_MAX (mkNode_t 0 (replicate ID_LEN 0) (replicate EDGES_MAX 0))).

Lemma sockaddr_roundtrip_witness :
  ∃ sa' h v, fill_sockaddr demo_graph blank_sockaddr = Ok sa' ∧
    from_sockaddr Graph_empty 7 sa' = Ok (h, 10%nat) ∧
    wf_graph h ∧ dag_view demo_graph = Ok v ∧ dag_view h = Ok v.
Proof.
  destruct (sockaddr_roundtrip demo_graph 0 1 blank_sockaddr 7) as (sa' & h & v & H1 & H2 & H3 & H4 & H5 & H6).
  - apply demo_address.
  - apply Nat.leb_le. reflexivity.
  - intros i l Hl. apply list_elem_of_lookup_2 in Hl. unfold demo_graph in Hl. cbn in Hl.
    rewrite !elem_of_cons, elem_of_nil in Hl. unfold EDGES_MAX.
    destruct Hl as [->|[->|[->|[->|[]]]]]; simpl; lia.
  - intros n Hn. unfold demo_graph in Hn. cbn in Hn. rewrite !elem_of_cons, elem_of_nil in Hn.
    by destruct Hn as [->|[->|[->|[->|[]]]]].
  - reflexivity.
  - exists sa', h, v. rewrite H6 in H5 by done. by split_and!.
Defined.

(** the two index conversions between the vector order and the address
    order are inverse to each other, and the final intent is the last number. *)
Theorem index_conversions g s t : address g s t →
  (∀ i, (i < order g)%nat → i ≠ s →
     let k := index_in_dag_string g (Z.of_nat i) (Z.of_nat s) (Z.of_nat t) in
     0 ≤ k < num_nodes g ∧ (k = num_nodes g - 1 ↔ i = t) ∧
     index_from_dag_string_index g k (Z.of_nat s) (Z.of_nat t) = Z.of_nat i) ∧
  (∀ k, 0 ≤ k < num_nodes g →
     let i := index_from_dag_string_index g k (Z.of_nat s) (Z.of_nat t) in
     0 ≤ i < Z.of_nat (order g) ∧ i ≠ Z.of_nat s ∧
     index_in_dag_string g i (Z.of_nat s) (Z.of_nat t) = k).
Proof.
  intros H. destruct (address_lt g s t H). pose proof (ad_small _ _ _ H).
  rewrite num_nodes_small by lia. split.
  - intros i Hi His. destruct (rank_spec g s t i H Hi His) as (? & ? & ?). cbv zeta.
    split_and!; [lia|lia|lia|done].
  - intros k Hk. destruct (real_spec g s t k H ltac:(lia)) as (? & ? & ? & ?). cbv zeta.
    split_and!; [lia|lia|lia|done].
Qed.

Lemma index_conversions_witness :
  index_from_dag_string_index demo_graph
    (index_in_dag_string demo_graph 3 0 1) 0 1 = 3.
Proof.
  destruct (index_conversions demo_graph 0 1 demo_address) as [H _].
  destruct (H 3%nat) as (_ & _ & H3); [apply Nat.ltb_lt; reflexivity|lia|exact H3].
Defined.
