(* ===== verification/DagText.v ===== *)
(** * DagText: the text form carries addresses faithfully

    [dag_string] prints the view of a graph, and [Graph_of_string] of the text
    rebuilds a graph with that view. *)

From Stdlib Require Import ZArith Lia Ascii String.
From stdpp Require Import base gmap sets list.
From S2P Require Import Prelude Text DagNode DagAddr DagWf DagView DagCodec.

Local Open Scope Z_scope.

(** ** Printing *)

Definition print_ids (es : list Z) : str := concat (map (λ x, " "%char :: print_d x) es).

Definition print_node (e : entry_t) : str := type_string_of e.1.1 ++ ":"%char :: id_string_of e.1.2.

Definition print_line (e : entry_t) : str := print_node e ++ print_ids e.2 ++ end_line.

(** The text of a view with nodes [ns] before the final intent [e]. *)
Definition print_view (src : list Z) (ns : list entry_t) (e : entry_t) : str :=
  lit "DAG" ++ print_ids src ++ end_line ++ concat (map print_line ns) ++ print_node e.

Section printed.
Context (g : Graph) (s t : nat) (H : address g s t).

Lemma out_edges_for_index_ok i : (i < order g)%nat →
  out_edges_for_index g (Z.of_nat i) (Z.of_nat s) (Z.of_nat t) = Ok (print_ids (ranks g s t i)).
Proof using H.
  intros Hi. unfold out_edges_for_index. rewrite vgetz_nat. unfold vget.
  rewrite outs_lookup by first [done|apply (ad_wf _ _ _ H)]. cbn [mbind res_bind]. f_equal.
  unfold print_ids. f_equal. unfold ranks. rewrite map_map. apply map_ext_in.
  intros j Hj%list_elem_of_In. do 2 f_equal.
  assert (index_in_dag_string g (Z.of_nat j) (Z.of_nat s) (Z.of_nat t) ∈ ranks g s t i) as Hin
    by (by apply (list_elem_of_fmap_2 (λ e, index_in_dag_string g (Z.of_nat e) _ _))).
  destruct (ranks_ok g s t H i Hi) as [_ Hf]. rewrite Forall_forall in Hf. specialize (Hf _ Hin).
  simpl in Hf. pose proof (ad_small _ _ _ H). unfold i32. apply wrapS_small; simpl; lia.
Qed.

(** How many of the nodes before [i] are neither end. *)
Definition inner (i : nat) : nat :=
  (i - (if decide (s < i) then 1 else 0) - (if decide (t < i) then 1 else 0))%nat.

Lemma inner_rank i : (i < order g)%nat → i ≠ s → i ≠ t →
  real g s t (inner i) = i ∧ (inner i < order g - 2)%nat.
Proof using H.
  intros Hi His Hit. destruct (address_lt g s t H). pose proof (ad_ne _ _ _ H).
  destruct (rank_spec g s t i H Hi His) as (Hk & Hlast & Hfrom).
  assert (index_in_dag_string g (Z.of_nat i) (Z.of_nat s) (Z.of_nat t) = Z.of_nat (inner i)) as Heq.
  { unfold index_in_dag_string, inner. rewrite decide_False by lia. pose proof (ad_small _ _ _ H).
    index_arith. }
  rewrite Heq in *. unfold real. rewrite Hfrom. lia.
Qed.

Lemma dag_string_line_ok acc i : (i < order g)%nat → i ≠ s → i ≠ t →
  dag_string_line g (Z.of_nat s) (Z.of_nat t) acc i =
    Ok (acc ++ print_line (entry_at g s t (inner i))).
Proof using H.
  intros Hi His Hit. unfold dag_string_line. rewrite decide_False by lia.
  unfold vget. rewrite (graph_node_lookup g i Hi). cbn [mbind res_bind].
  rewrite out_edges_for_index_ok by done. cbn [mbind res_bind].
  unfold print_line, print_node, entry_at. destruct (inner_rank i Hi His Hit) as [-> _]. cbn [fst snd].
  unfold type_string, id_string. by rewrite <-!app_assoc.
Qed.

Lemma dag_string_lines acc i : (i ≤ order g)%nat →
  foldM (dag_string_line g (Z.of_nat s) (Z.of_nat t)) acc (seq 0 i) =
    Ok (acc ++ concat (map (λ k, print_line (entry_at g s t k)) (seq 0 (inner i)))).
Proof using H.
  pose proof (ad_ne _ _ _ H). induction i as [|i IH]; intros Hi.
  { cbn. by rewrite app_nil_r. }
  rewrite seq_S, foldM_app, IH by lia. cbn [mbind res_bind foldM Nat.add].
  destruct (decide (i = s ∨ i = t)) as [Hst|Hst].
  - unfold dag_string_line. rewrite decide_True by lia. cbn [mbind res_bind]. do 5 f_equal.
    unfold inner. repeat case_decide; lia.
  - rewrite dag_string_line_ok by (lia || tauto). cbn [mbind res_bind].
    assert (inner (S i) = S (inner i)) as ->.
    { destruct (inner_rank i ltac:(lia)) as [_ ?]; [tauto..|]. unfold inner.
      repeat case_decide; lia. }
    rewrite seq_S, map_app, concat_app. cbn. by rewrite app_nil_r, app_assoc.
Qed.

Lemma dag_string_ok : dag_string g = Ok (print_view (ranks g s t s)
  (map (entry_at g s t) (seq 0 (order g - 2))) (entry_at g s t (order g - 2))).
Proof using H.
  destruct (address_lt g s t H). pose proof (ad_ne _ _ _ H). pose proof (ad_small _ _ _ H).
  unfold dag_string. rewrite (find_ends_ok g s t H). cbn [mbind res_bind fst snd].
  rewrite decide_True by (unfold npos; lia). rewrite out_edges_for_index_ok by done.
  cbn [mbind res_bind]. unfold print_view, order at 1. rewrite dag_string_lines by done.
  cbn [mbind res_bind]. rewrite vgetz_nat. unfold vget. rewrite (graph_node_lookup g t) by done.
  cbn [mbind res_bind]. f_equal. rewrite map_map, <-!app_assoc.
  assert (inner (order g) = (order g - 2)%nat) as Hin by (unfold inner; repeat case_decide; lia).
  unfold order in *. rewrite Hin. do 4 f_equal. unfold print_node, entry_at. cbn [fst snd].
  destruct (real_lt g s t H (order g - 2)) as (_ & _ & Hlast); [unfold order; lia|].
  unfold order in *. by rewrite (proj1 Hlast eq_refl).
Qed.
End printed.

(** ** Lines and words *)

(** Characters of words: no blank, newline or dash. *)
Definition plain (c : ascii) : Prop :=
  code c ≠ 32 ∧ code c ≠ 9 ∧ code c ≠ 45 ∧ code c ≠ 10.

Definition word (w : str) : Prop := w ≠ [] ∧ Forall plain w.

Lemma plain_not_blank c : plain c → is_blank c = false.
Proof.
  intros (H32 & H9 & _). unfold is_blank. apply bool_decide_eq_false. intros [->|?]; [|done].
  by apply H32.
Qed.

Lemma print_d_word x : 0 ≤ x → word (print_d x).
Proof.
  intros Hx. split.
  - destruct (print_d_cons x Hx) as (c & s & ->). done.
  - eapply Forall_impl; [by apply print_d_plain|]. unfold plain. simpl. lia.
Qed.

Lemma print_node_word e : Forall is_byte e.1.2 → word (print_node e).
Proof.
  intros Hb. split.
  - unfold print_node. by destruct (type_string_of e.1.1).
  - pose proof (to_string_chars (mkNode None e.1.1 e.1.2) Hb) as Hc.
    eapply Forall_impl; [exact Hc|]. unfold node_char, plain. simpl. lia.
Qed.

Lemma lit_DAG_word : word (lit "DAG").
Proof. split; [done|]. unfold lit, plain. by repeat constructor. Qed.

(** A line as words separated by single blanks. *)
Lemma print_ids_join hd es : hd ++ print_ids es = join " "%char (hd :: map print_d es).
Proof.
  unfold print_ids. revert hd. induction es as [|x es IH]; intros hd; [cbn; by rewrite app_nil_r|].
  change (join " "%char (hd :: map print_d (x :: es))) with
    (hd ++ " "%char :: join " "%char (print_d x :: map print_d es)).
  rewrite <-IH. done.
Qed.

Lemma join_first c (ws : list str) (w : str) : w ≠ [] → ∃ s, join c (w :: ws) = w ++ s.
Proof. intros _. destruct ws; [exists []; simpl; by rewrite app_nil_r|eexists; reflexivity]. Qed.

Lemma join_tight ws : ws ≠ [] → Forall word ws → tight (join " "%char ws).
Proof.
  intros Hne Hf. split.
  - destruct ws as [|w ws]; [done|]. apply Forall_cons in Hf as [[Hw Hp] _].
    destruct (join_first " "%char ws w Hw) as [s ->]. destruct w as [|c w]; [done|].
    apply Forall_cons in Hp as [Hc _]. exists c, (w ++ s). split; [done|]. by apply plain_not_blank.
  - induction ws as [|w ws IH]; [done|]. apply Forall_cons in Hf as [[Hw Hp] Hf].
    destruct ws as [|w' ws].
    + destruct w as [|c w] using rev_ind; [done|]. apply Forall_app in Hp as [_ Hc].
      rewrite Forall_singleton in Hc. exists c, w. split; [done|]. by apply plain_not_blank.
    + destruct (IH ltac:(done) Hf) as (c & s & Hs & Hc).
      change (join " "%char (w :: w' :: ws)) with (w ++ " "%char :: join " "%char (w' :: ws)).
      rewrite Hs. exists c, (w ++ " "%char :: s). split; [|done]. by rewrite <-app_assoc.
Qed.

Lemma word_no_blank w : word w → " "%char ∉ w.
Proof. intros [_ Hp]. eapply Forall_not_elem; [exact Hp|]. intros (H & _). by apply H. Qed.

Lemma split_words ws : ws ≠ [] → Forall word ws → split (join " "%char ws) " "%char = ws.
Proof.
  intros Hne Hf. apply split_join.
  - eapply Forall_impl; [exact Hf|]. apply word_no_blank.
  - intros Hl. apply last_Some in Hl as [l ->]. apply Forall_app in Hf as [_ Hf].
    rewrite Forall_singleton in Hf. by destruct Hf.
Qed.

(** A line of the text, with the blanks that surround it. *)
Definition padded (pre post : str) (ws : list str) : str := pre ++ join " "%char ws ++ post.

Lemma trim_padded pre post ws : Forall (λ c, is_blank c = true) pre →
  Forall (λ c, is_blank c = true) post → ws ≠ [] → Forall word ws →
  split (trim (padded pre post ws)) " "%char = ws.
Proof.
  intros. unfold padded. rewrite trim_tight by (done || by apply join_tight). by apply split_words.
Qed.

(** No dash and no newline in a padded line. *)
Definition flat (s : str) : Prop := Forall (λ c, code c ≠ 45 ∧ code c ≠ 10) s.

Lemma flat_join ws : Forall word ws → flat (join " "%char ws).
Proof.
  unfold flat. induction 1 as [|w ws [_ Hw] Hf IH]; [constructor|].
  assert (Forall (λ c, code c ≠ 45 ∧ code c ≠ 10) w) as Hw'.
  { eapply Forall_impl; [exact Hw|]. unfold plain. naive_solver. }
  destruct ws as [|w' ws]; [done|].
  change (join " "%char (w :: w' :: ws)) with (w ++ " "%char :: join " "%char (w' :: ws)).
  apply Forall_app. split; [done|]. constructor; [done|exact IH].
Qed.

Lemma filter_flat s : flat s → filter (λ c, c ≠ chr 10) s = s.
Proof.
  induction 1 as [|c s [_ Hc] _ IH]; [done|]. rewrite filter_cons, decide_True, IH; [done|].
  intros ->. by apply Hc.
Qed.

(** ** The lines of a printed view *)

Definition words (e : entry_t) : list str := print_node e :: map print_d e.2.

Definition bodies (src : list Z) (ns : list entry_t) (e : entry_t) : list str :=
  padded [] [" "%char] (lit "DAG" :: map print_d src) ::
  map (λ x, padded [" "%char] [" "%char] (words x)) ns ++ [padded [" "%char] [] [print_node e]].

Definition entry_ok (e : entry_t) : Prop := Forall is_byte e.1.2 ∧ Forall (λ x, 0 ≤ x) e.2.

Lemma words_ok hd es : word hd → Forall (λ x, 0 ≤ x) es → Forall word (hd :: map print_d es).
Proof.
  intros Hw Hes. constructor; [done|]. apply Forall_fmap. eapply Forall_impl; [exact Hes|].
  intros x. apply print_d_word.
Qed.

Lemma entry_words e : entry_ok e → Forall word (words e).
Proof. intros [Hb Hes]. apply words_ok; [by apply print_node_word|done]. Qed.

Lemma filter_end_line : filter (λ c, c ≠ chr 10) end_line = [" "; "-"; " "]%char.
Proof. reflexivity. Qed.

Lemma filter_lines ns e : Forall entry_ok ns → entry_ok e →
  " "%char :: filter (λ c, c ≠ chr 10) (concat (map print_line ns) ++ print_node e) =
    join "-"%char (map (λ x, padded [" "%char] [" "%char] (words x)) ns ++ [padded [" "%char] [] [print_node e]]).
Proof.
  intros Hns He. induction Hns as [|x ns Hx Hns IH].
  - simpl. unfold padded. simpl. rewrite app_nil_r, filter_flat; [done|].
    change (flat (join " "%char [print_node e])). apply flat_join. constructor; [|constructor].
    apply print_node_word, He.
  - cbn [map concat app]. unfold print_line at 1.
    rewrite <-!app_assoc, (app_assoc (print_node x)), print_ids_join, filter_app.
    rewrite (filter_flat (join _ _)) by (apply flat_join, entry_words, Hx).
    rewrite filter_app, filter_end_line. cbn [app]. rewrite IH.
    fold (words x). destruct (map _ ns ++ _) as [|b bs] eqn:Hb; [by destruct ns|].
    change (join "-"%char (?a :: b :: bs)) with (a ++ "-"%char :: join "-"%char (b :: bs)).
    unfold padded. cbn [app]. by rewrite <-app_assoc.
Qed.

Lemma flat_padded pre post ws : flat pre → flat post → Forall word ws → flat (padded pre post ws).
Proof. intros. unfold padded, flat in *. rewrite !Forall_app. split_and!; [done| |done]. by apply flat_join. Qed.

Lemma flat_blank : flat [" "%char].
Proof. by repeat constructor. Qed.

Lemma dag_lines_view src ns e : Forall (λ x, 0 ≤ x) src → Forall entry_ok ns → entry_ok e →
  dag_lines (print_view src ns e) = bodies src ns e.
Proof.
  intros Hsrc Hns He. unfold dag_lines, print_view.
  pose proof (words_ok _ _ lit_DAG_word Hsrc) as HD.
  rewrite (app_assoc (lit "DAG")), print_ids_join, filter_app.
  rewrite (filter_flat (join _ _)) by (by apply flat_join).
  rewrite filter_app, filter_end_line. cbn [app]. rewrite filter_lines by done.
  replace (join " "%char (lit "DAG" :: map print_d src) ++ _) with
    (join "-"%char (bodies src ns e)).
  2: { unfold bodies. destruct (map _ ns ++ _) as [|b bs] eqn:Hb; [by destruct ns|].
       change (join "-"%char (?a :: b :: bs)) with (a ++ "-"%char :: join "-"%char (b :: bs)).
       unfold padded at 1. cbn [app]. by rewrite <-app_assoc. }
  apply split_join.
  - assert (∀ s, flat s → "-"%char ∉ s) as Hf.
    { intros s Hs. eapply Forall_not_elem; [exact Hs|]. intros [Hx _]. by apply Hx. }
    unfold bodies. constructor; [apply Hf, flat_padded; [constructor|apply flat_blank|done]|].
    apply Forall_app. split.
    + apply Forall_fmap. eapply Forall_impl; [exact Hns|]. intros x Hx. simpl.
      apply Hf, flat_padded; [apply flat_blank..|by apply entry_words].
    + apply Forall_singleton, Hf, flat_padded; [apply flat_blank|constructor|].
      constructor; [apply print_node_word, He|constructor].
  - unfold bodies. rewrite app_comm_cons, last_snoc. done.
Qed.

(** ** Pass 1: the nodes *)

(** The dummy source followed by fresh nodes for [es], without edges. *)
Record fresh_text (alloc : nat) (es : list entry_t) (g : Graph) : Prop := {
  ft_wf : wf_graph g;
  ft_order : order g = S (length es);
  ft_out i l : out_edges_ g !! i = Some l → l = [];
  ft_source : nodes_ g !! 0%nat = Some dummy_source;
  ft_node i e : es !! i = Some e →
    nodes_ g !! S i = Some (mkNode (Some (alloc + i)%nat) e.1.1 e.1.2) }.

(** What the parser needs of an entry to read it back. *)
Definition readable (inet_addr : str → Z) (e : entry_t) : Prop :=
  known_type e.1.1 ∧ valid_id e.1.2 ∧
  (e.1.1 = XID_TYPE_IP → inet_addr (id_string_of e.1.2) = INADDR_NONE).

Lemma fresh_text_ptr alloc es g n : fresh_text alloc es g → n ∈ nodes_ g →
  ptr n ≠ Some (alloc + length es)%nat.
Proof.
  intros [_ Ho _ H0 Hn] (i & Hi)%list_elem_of_lookup. destruct i as [|i].
  { rewrite H0 in Hi. by simplify_eq. }
  assert (i < length es)%nat as Hlt.
  { apply lookup_lt_Some in Hi. unfold order in Ho. lia. }
  destruct (lookup_lt_is_Some_2 es i Hlt) as [e He]. rewrite (Hn i e He) in Hi. simplify_eq.
  simpl. intros [=]. lia.
Qed.

Section passes.
Context (inet_addr : str → Z) (alloc : nat).

Lemma dag_line_node_step es g e line : fresh_text alloc es g → readable inet_addr e →
  split (trim line) " "%char = words e →
  ∃ g', dag_line_node inet_addr (g, (alloc + length es)%nat, seq 0 (S (length es))) (S (length es), line) =
      Ok (g', (alloc + length (es ++ [e]))%nat, seq 0 (S (length (es ++ [e])))) ∧
    fresh_text alloc (es ++ [e]) g'.
Proof.
  intros Hf (Ht & Hid & Hip) Hw. pose proof Hf as [Hwf Ho Hout H0 Hn].
  unfold dag_line_node. cbn [fst snd]. rewrite decide_False, Hw by done.
  unfold vget. cbn [words lookup list_lookup mbind res_bind].
  change (print_node e) with (to_string (mkNode None e.1.1 e.1.2)).
  rewrite Node_of_to_string by done. cbn [mbind res_bind fst snd n_type n_id].
  destruct (add_node_cases g (mkNode (Some (alloc + length es)%nat) e.1.1 e.1.2) false Hwf)
    as [[-> _]|(idx & n & _ & _ & Hi & Hp)].
  2: { apply list_elem_of_lookup_2 in Hi. by destruct (fresh_text_ptr _ _ _ _ Hf Hi). }
  eexists. cbn [fst snd]. rewrite Ho, length_app. cbn [length].
  rewrite (Nat.add_1_r (length es)), (seq_S (S (length es))), Nat.add_succ_r. split; [done|].
  split.
  - by apply wf_push_node.
  - rewrite order_push_node, length_app, Ho. simpl. lia.
  - by apply push_no_edges.
  - cbn. by rewrite lookup_app_l by (unfold order in Ho; lia).
  - intros i y Hy. cbn [push_node nodes_]. unfold order in Ho.
    apply lookup_snoc_Some in Hy as [[Hi Hy]|[-> <-]].
    + rewrite lookup_app_l by lia. by apply Hn.
    + by rewrite <-Ho, lookup_app_r, Nat.sub_diag by lia.
Qed.

Lemma dag_nodes_ok lines es2 : Forall2 (λ line e, split (trim line) " "%char = words e ∧ readable inet_addr e) lines es2 →
  ∀ es g, fresh_text alloc es g →
  ∃ g', foldM (dag_line_node inet_addr) (g, (alloc + length es)%nat, seq 0 (S (length es)))
      (zip (seq (S (length es)) (length lines)) lines) =
      Ok (g', (alloc + length (es ++ es2))%nat, seq 0 (S (length (es ++ es2)))) ∧
    fresh_text alloc (es ++ es2) g'.
Proof.
  induction 1 as [|line e lines es2 [Hw He] _ IH]; intros es g Hf.
  { exists g. by rewrite app_nil_r. }
  change (zip (seq (S (length es)) (length (line :: lines))) (line :: lines)) with
    ((S (length es), line) :: zip (seq (S (S (length es))) (length lines)) lines).
  cbn [foldM]. destruct (dag_line_node_step es g e line Hf He Hw) as (g1 & -> & Hf1).
  cbn [mbind res_bind]. destruct (IH (es ++ [e]) g1 Hf1) as (g' & Hrun & Hf').
  rewrite length_app in Hrun. cbn [length] in Hrun. rewrite Nat.add_1_r in Hrun.
  exists g'. rewrite <-app_assoc in *. cbn [app] in *.
  rewrite length_app. cbn [length]. rewrite Nat.add_1_r. rewrite Hrun. done.
Qed.
End passes.

(** ** Pass 2: the edges *)

Definition text_row (src : list Z) (ns : list entry_t) (i : nat) : list Z :=
  match i with O => src | S k => default [] (snd <$> ns !! k) end.

Definition text_add (src : list Z) (ns : list entry_t) (i : nat) : nat * list nat :=
  (i, map (λ x, S (Z.to_nat x)) (text_row src ns i)).

Lemma dag_line_edges_row m g i line hd es : (i ≤ m)%nat → split (trim line) " "%char = hd :: map print_d es →
  Forall (λ x, 0 ≤ x < Z.of_nat m) es → (m < 256)%nat →
  dag_line_edges (seq 0 (S m)) g (i, line) = add_row g (i, map (λ x, S (Z.to_nat x)) es).
Proof.
  intros Hi Hw Hes Hm. unfold dag_line_edges, add_row. cbn [fst snd]. rewrite Hw. cbn [drop].
  rewrite drop_0. clear Hw.
  assert (∀ j, (j ≤ m)%nat → vget (seq 0 (S m)) j = Ok j) as Hget.
  { intros j Hj. unfold vget. by rewrite lookup_seq_lt by lia. }
  rewrite (Hget i Hi). cbn [mbind res_bind]. revert g. induction Hes as [|x es Hx Hes IH]; intros g; [done|].
  cbn [map foldM]. cbv beta zeta. rewrite stoi_print_d by lia.
  rewrite decide_False by lia.
  replace (x + 1) with (Z.of_nat (S (Z.to_nat x))) by lia. rewrite vgetz_nat.
  rewrite Hget by lia. cbn [mbind res_bind].
  destruct (add_edge g i (S (Z.to_nat x))); [apply IH|done].
Qed.

Section text_view.
Context (inet_addr : str → Z) (alloc : nat).
Context (src : list Z) (ns : list entry_t) (V : valid_view src ns) (Hm : (length ns < 256)%nat).
Context (Hread : Forall (readable inet_addr) ns).

Lemma text_row_ok i : (i ≤ length ns)%nat → row_ok (length ns) (text_row src ns i) ∧
  (∀ k, i = S k → Z.of_nat k ∉ text_row src ns i).
Proof using V Hm.
  intros Hi. destruct i as [|k]; cbn [text_row].
  - split; [apply (vv_src _ _ V)|done].
  - destruct (lookup_lt_is_Some_2 ns k) as [e He]; [lia|]. rewrite He.
    destruct (vv_row _ _ V k e He). split; [done|]. by intros ? [= <-].
Qed.

Lemma text_rows_ok h0 : order h0 = S (length ns) →
  (∀ i, (i < order h0)%nat → out_edges_ h0 !! i = Some []) →
  NoDup (map (text_add src ns) (seq 0 (S (length ns)))).*1 ∧
  Forall (λ r, out_edges_ h0 !! r.1 = Some [] ∧ NoDup r.2 ∧
    Forall (λ j, j < order h0 ∧ j ≠ r.1)%nat r.2) (map (text_add src ns) (seq 0 (S (length ns)))).
Proof using V Hm.
  intros Ho0 Hempty. split.
  - rewrite <-list_fmap_compose. unfold compose, text_add. simpl.
    rewrite list_fmap_id. apply (NoDup_seq 0 (S (length ns))).
  - apply Forall_forall. intros r (i & -> & Hi%elem_of_seq)%list_elem_of_fmap.
    destruct (text_row_ok i ltac:(lia)) as [[Hnd Hr] Hself]. rewrite Forall_forall in Hr. simpl in Hr.
    unfold text_add. cbn [fst snd]. split_and!; [apply Hempty; lia| |].
    + apply NoDup_fmap_2_strong; [|done]. intros x y Hx Hy Heq.
      pose proof (Hr x Hx). pose proof (Hr y Hy). lia.
    + apply Forall_forall. intros j (x & -> & Hx)%list_elem_of_fmap. pose proof (Hr x Hx).
      split; [lia|]. intros Heq. apply (Hself (Z.to_nat x)); [lia|]. by rewrite Z2Nat.id by lia.
Qed.

Context (lines : list str) (Hlen : length lines = S (length ns)).
Context (Hwords : ∀ i line, lines !! i = Some line →
  ∃ hd, split (trim line) " "%char = hd :: map print_d (text_row src ns i) ∧
    (∀ k e, i = S k → ns !! k = Some e → hd = print_node e)).
Context (s : str) (Hs : dag_lines s = lines).

(** After both passes. *)
Lemma construct_nodes : ∃ g, fresh_text alloc ns g ∧
  construct_from_dag_string inet_addr Graph_empty alloc s =
    (h ← foldM add_row g (map (text_add src ns) (seq 0 (S (length ns))));
     Ok (h, (alloc + length ns)%nat)).
Proof using V Hm Hread Hlen Hwords Hs.
  unfold construct_from_dag_string. rewrite Hs. destruct lines as [|l0 ls]; [done|].
  assert (Forall2 (λ line e, split (trim line) " "%char = words e ∧ readable inet_addr e) ls ns) as H2.
  { apply Forall2_same_length_lookup_2; [simpl in Hlen; lia|]. intros k line e Hl He.
    destruct (Hwords (S k) line Hl) as (hd & Hw & Hhd). rewrite (Hhd k e eq_refl He) in Hw.
    split; [|by eapply Forall_lookup_1]. rewrite Hw. unfold text_row. by rewrite He. }
  assert (fresh_text alloc [] (push_node Graph_empty dummy_source)) as Hf0.
  { split; [apply wf_push_node, wf_empty|done| |done|done].
    by apply (push_no_edges Graph_empty dummy_source). }
  destruct (dag_nodes_ok inet_addr alloc ls ns H2 [] _ Hf0) as (g & Hrun & Hf).
  cbn [app length] in Hrun. rewrite Nat.add_0_r in Hrun.
  exists g. split; [done|].
  assert (foldM (dag_line_node inet_addr) (Graph_empty, alloc, []) (zip (seq 0 (length (l0 :: ls))) (l0 :: ls)) =
    Ok (g, (alloc + length ns)%nat, seq 0 (S (length ns)))) as -> by exact Hrun.
  cbn [mbind res_bind fst snd].
  rewrite (foldM_rows (dag_line_edges (seq 0 (S (length ns)))) (λ il, text_add src ns il.1)).
  - replace (map (λ il : nat * str, text_add src ns il.1) (zip (seq 0 (length (l0 :: ls))) (l0 :: ls)))
      with (map (text_add src ns) (seq 0 (S (length ns)))); [done|].
    transitivity (map (text_add src ns) (map fst (zip (seq 0 (length (l0 :: ls))) (l0 :: ls))));
      [|by rewrite map_map].
    f_equal. symmetry. rewrite <-Hlen. apply fst_zip. by rewrite length_seq.
  - intros g' [i line] (j & Hj)%list_elem_of_lookup. apply lookup_zip_Some in Hj as [[-> Hj]%lookup_seq Hl].
    simpl in Hl. destruct (Hwords j line Hl) as (hd & Hw & _).
    destruct (text_row_ok j ltac:(lia)) as [[_ Hr] _]. by apply (dag_line_edges_row _ _ _ _ hd); [lia| |..].
Qed.

Lemma text_view : ∃ h, construct_from_dag_string inet_addr Graph_empty alloc s = Ok (h, (alloc + length ns)%nat) ∧
  wf_graph h ∧ dag_view h = Ok (dummy_entry src, ns).
Proof using All.
  pose proof (vv_pos _ _ V) as Hpos. destruct construct_nodes as (g & [Hwf Ho Hout H0 Hn] & ->).
  assert (∀ i, (i < order g)%nat → out_edges_ g !! i = Some []) as Hempty.
  { intros i Hi. destruct (out_lookup g i Hwf Hi) as [l Hl]. rewrite Hl. f_equal. eauto. }
  destruct (text_rows_ok g Ho Hempty) as [Hnd Hrok].
  destruct (add_rows_exact _ g Hwf Hnd Hrok) as (h & -> & Hwfh & Hnh & Hrows & _).
  exists h. split_and!; [done|done|].
  assert (order h = S (length ns)) as Hoh by (unfold order in *; congruence).
  assert (∀ i, (i ≤ length ns)%nat → out_edges_ h !! i = Some (map (λ x, S (Z.to_nat x)) (text_row src ns i))) as Hrow.
  { intros i Hi. apply (Hrows (text_add src ns i)), list_elem_of_fmap. exists i. split; [done|].
    apply elem_of_seq. lia. }
  apply (rebuilt_view src ns V h 0 S); try done; try lia.
  - intros i Hi. destruct i as [|i]; [by left|right]. exists i. lia.
  - apply (Hrow 0%nat). lia.
  - intros k e He. pose proof (lookup_lt_Some _ _ _ He). rewrite (Hrow (S k)) by lia.
    cbn [text_row]. by rewrite He.
  - intros k e He. rewrite Hnh. eauto.
  - by rewrite Hnh.
  - intros k Hk. unfold index_in_dag_string. fold (order h). rewrite Hoh.
    index_arith.
Qed.
End text_view.

Lemma blank_pad : Forall (λ c, is_blank c = true) [" "%char].
Proof. by repeat constructor. Qed.

Lemma bodies_words src ns e i line : Forall (λ x, 0 ≤ x) src → Forall entry_ok ns → entry_ok e →
  e.2 = [] → bodies src ns e !! i = Some line →
  ∃ hd, split (trim line) " "%char = hd :: map print_d (text_row src (ns ++ [e]) i) ∧
    (∀ k x, i = S k → (ns ++ [e]) !! k = Some x → hd = print_node x).
Proof.
  intros Hsrc Hns He Hnil Hi. unfold bodies in Hi. destruct i as [|k].
  { simpl in Hi. injection Hi as <-. exists (lit "DAG"). split; [|done].
    apply trim_padded; [constructor|apply blank_pad|done|]. apply words_ok; [apply lit_DAG_word|done]. }
  rewrite lookup_cons_ne_0 in Hi by done. simpl in Hi. cbn [text_row].
  apply lookup_app_Some in Hi as [Hk|[Hlen Hk]].
  - apply list_lookup_fmap_Some in Hk as (x & -> & Hx). exists (print_node x).
    rewrite (lookup_app_l_Some _ _ _ _ Hx). split.
    + apply trim_padded; [apply blank_pad..|done|]. apply entry_words. by eapply Forall_lookup_1.
    + intros ? ? [= <-] Hx'. rewrite (lookup_app_l_Some _ _ _ _ Hx) in Hx'. by injection Hx' as <-.
  - rewrite length_map in Hlen, Hk. destruct (k - length ns)%nat as [|j] eqn:Hkn; [|by destruct j].
    simpl in Hk. injection Hk as <-. assert (k = length ns) as -> by lia. exists (print_node e).
    rewrite lookup_app_r, Nat.sub_diag by lia. simpl. rewrite Hnil. simpl. split.
    + apply (trim_padded [" "%char] [] [print_node e]); [apply blank_pad|constructor|done|].
      constructor; [apply print_node_word, He|constructor].
    + intros ? ? [= <-] Hx. rewrite lookup_app_r, Nat.sub_diag in Hx by lia. by injection Hx as <-.
Qed.

Lemma length_bodies src ns e : length (bodies src ns e) = S (length (ns ++ [e])).
Proof. unfold bodies. cbn [length]. by rewrite !length_app, length_map. Qed.

Lemma contains_DAG s : contains (lit "DAG") (lit "DAG" ++ s) = true.
Proof.
  change (contains (lit "DAG") (lit "DAG" ++ s)) with
    (bool_decide (take 3 (lit "DAG" ++ s) = lit "DAG") || contains (lit "DAG") (lit "AG" ++ s)).
  rewrite bool_decide_true; [done|]. by destruct s.
Qed.

(** Printing and parsing. *)
Lemma dag_text_lossless inet_addr g s t alloc : address g s t →
  (∀ n, n ∈ nodes_ g → known_type (n_type n) ∧ valid_id (n_id n) ∧
     (n_type n = XID_TYPE_IP → inet_addr (id_string n) = INADDR_NONE)) →
  ∃ txt h v, dag_string g = Ok txt ∧
    Graph_of_string inet_addr alloc txt = Ok (h, (alloc + (order g - 1))%nat) ∧
    wf_graph h ∧ dag_view g = Ok v ∧ dag_view h = Ok (addressed v) ∧ (from_dummy g s → addressed v = v).
Proof.
  intros H Hnodes. destruct (address_lt g s t H) as [Hs Ht]. pose proof (ad_ne _ _ _ H) as Hne.
  pose proof (ad_small _ _ _ H) as Hsm. pose proof (view_valid g s t H) as V.
  assert (seq 0 (order g - 1) = seq 0 (order g - 2) ++ [(order g - 2)%nat]) as Hseq.
  { replace (order g - 1)%nat with (S (order g - 2)) by lia. apply seq_S. }
  set (ns := map (entry_at g s t) (seq 0 (order g - 2))). set (e := entry_at g s t (order g - 2)).
  assert (map (entry_at g s t) (seq 0 (order g - 1)) = ns ++ [e]) as Hns by (by rewrite Hseq, map_app).
  assert (length (ns ++ [e]) = (order g - 1)%nat) as Hlen by (rewrite <-Hns, length_map; apply length_seq).
  assert (∀ k, (k < order g - 1)%nat → readable inet_addr (entry_at g s t k) ∧ entry_ok (entry_at g s t k)) as Hk.
  { intros k Hk. destruct (real_lt g s t H k Hk) as (Hr & _).
    destruct (Hnodes (graph_node g (real g s t k))) as (? & Hid & ?).
    { by eapply list_elem_of_lookup_2, graph_node_lookup. }
    split; [done|]. split; [apply Hid|]. destruct (ranks_ok g s t H _ Hr) as [_ Hf].
    eapply Forall_impl; [exact Hf|]. simpl. lia. }
  assert (Forall (λ x, 0 ≤ x) (ranks g s t s)) as Hsrc.
  { destruct (ranks_ok g s t H s Hs) as [_ Hf]. eapply Forall_impl; [exact Hf|]. simpl. lia. }
  assert (Forall entry_ok ns) as Hns_ok.
  { apply Forall_fmap, Forall_forall. intros k Hk'%elem_of_seq. apply Hk. lia. }
  assert (entry_ok e) as He_ok by (apply Hk; lia).
  assert (e.2 = []) as Hnil.
  { apply (vv_last _ _ V (order g - 2)); rewrite Hns, ?Hlen; [|lia].
    rewrite lookup_app_r by (unfold ns; rewrite length_map, length_seq; lia).
    unfold ns. by rewrite length_map, length_seq, Nat.sub_diag. }
  rewrite Hns in V. pose proof (dag_lines_view _ ns e Hsrc Hns_ok He_ok) as Hlines.
  destruct (text_view inet_addr alloc _ _ V) with (lines := bodies (ranks g s t s) ns e)
    (s := print_view (ranks g s t s) ns e) as (h & Hc & Hwf & Hview).
  - lia.
  - rewrite <-Hns. apply Forall_fmap, Forall_forall. intros k Hk'%elem_of_seq. apply Hk. lia.
  - apply length_bodies.
  - intros i line. by apply bodies_words.
  - done.
  - pose proof (dag_view_ok g s t H) as Hv. rewrite Hns in Hv.
    eexists _, h, _. split_and!; [by apply dag_string_ok| |done|exact Hv|exact Hview|].
    + unfold Graph_of_string, print_view. rewrite contains_DAG. rewrite <-Hlen. exact Hc.
    + by apply (addressed_view g s t H).
Qed.

(** C27: printing an address graph and parsing the text gives back a graph with
    the same nodes and edges in address order, for every graph with one source
    and one final intent whose nodes have known types and 20-byte identifiers
    (and whose 4IDs are not themselves read as dotted addresses by
    [inet_addr]).  The source itself is not printed: the graph that is read has
    the dummy source in its place, so that it is the same graph when the source
    was the dummy source, and another one when it was not. *)
Theorem dag_string_roundtrip inet_addr g s t alloc : address g s t →
  (∀ n, n ∈ nodes_ g → known_type (n_type n) ∧ valid_id (n_id n) ∧
     (n_type n = XID_TYPE_IP → inet_addr (id_string n) = INADDR_NONE)) →
  ∃ txt h v, dag_string g = Ok txt ∧
    Graph_of_string inet_addr alloc txt = Ok (h, (alloc + (order g - 1))%nat) ∧
    wf_graph h ∧ dag_view g = Ok v ∧ dag_view h = Ok (addressed v) ∧ (from_dummy g s → addressed v = v).
Proof. apply dag_text_lossless. Qed.

Lemma dag_string_roundtrip_witness :
  ∃ txt h v, dag_string demo_graph = Ok txt ∧
    Graph_of_string (λ _, INADDR_NONE) 0 txt = Ok (h, 3%nat) ∧
    wf_graph h ∧ dag_view demo_graph = Ok v ∧ dag_view h = Ok v.
Proof.
  destruct (dag_string_roundtrip (λ _, INADDR_NONE) demo_graph 0 1 0) as (txt & h & v & H1 & H2 & H3 & H4 & H5 & H6).
  - apply demo_address.
  - intros n Hn. unfold demo_graph in Hn. cbn [nodes_] in Hn. rewrite !elem_of_cons, elem_of_nil in Hn.
    destruct Hn as [->|[->|[->|[->|[]]]]];
      (split_and!; [apply (bool_decide_unpack _); vm_compute; exact I|split; [done|]|done]);
      apply (bool_decide_unpack _); vm_compute; exact I.
  - exists txt, h, v. rewrite H6 in H5 by done. by split_and!.
Defined.
