(* ===== verification/XiaPath.v ===== *)
(** * XiaPath: paths in the router (class XIAPath of lib/xiapath.cc)

    A path is a vector of nodes with handles of their successors, and the
    handles of the source and destination.  The header format is a list of
    nodes with four 7-bit edge slots, in which the edges of the source are kept
    in the last slot row, that of the destination. *)

From Stdlib Require Import ZArith Lia.
From stdpp Require Import base gmap sets list.
From S2P Require Import Prelude.

Local Open Scope Z_scope.

(** ** XIDs and the header format (include/clicknet/xia.h) *)

Record Xid := mkXid { xid_type : Z; xid_id : list Z }.

#[global] Instance Xid_eq_dec : EqDecision Xid.
Proof. solve_decision. Defined.

Definition Xid_undef : Xid := mkXid 0 (replicate 20 0).

Definition CLICK_XIA_XID_EDGE_NUM : nat := 4.
Definition CLICK_XIA_XID_EDGE_UNUSED : Z := 127.

(** An edge slot: a 7-bit index and the visited bit. *)
Record xid_edge := mkEdge { e_idx : Z; e_visited : Z }.

Record xid_node := mkXidNode { wn_xid : Xid; wn_edge : list xid_edge }.

(** ** Paths *)

Record PNode := mkPNode { p_xid : Xid; p_edges : list nat; p_order : Z }.

Record XIAPath := mkPath { p_nodes : list PNode; p_src : Z; p_dst : Z }.

Definition XIAPath_reset : XIAPath := mkPath [] npos npos.

Definition new_node (x : Xid) : PNode := mkPNode x [] npos.

(** ** Reading the header format *)

(** The used slots of a node. *)
Definition read_edges (w : xid_node) : list nat :=
  omap (λ e, if decide (e_idx e = CLICK_XIA_XID_EDGE_UNUSED) then None else Some (Z.to_nat (e_idx e)))
    (take CLICK_XIA_XID_EDGE_NUM (wn_edge w)).

Definition parse_node (ws : list xid_node) : XIAPath :=
  let nodes := map (λ w, mkPNode (wn_xid w) (read_edges w) npos) ws in
  match last nodes with
  | None => XIAPath_reset
  | Some d =>
      mkPath (removelast nodes ++ [mkPNode (p_xid d) [] (p_order d); mkPNode Xid_undef (p_edges d) (p_order d)])
        (Z.of_nat (length ws)) (Z.of_nat (length ws) - 1)
  end.

(** ** Topological ordering *)

Definition set_order (o : Z) (n : PNode) : PNode := mkPNode (p_xid n) (p_edges n) o.

(** [indegree[e] += d]; the array is indexed without a check. *)
Definition bump (d : Z) (indeg : list Z) (e : nat) : res (list Z) :=
  k ← vget indeg e; Ok (<[e := k + d]> indeg).

Definition count_indegrees (nodes : list PNode) : res (list Z) :=
  foldM (λ indeg n, foldM (bump 1) indeg (p_edges n)) (replicate (length nodes) 0) nodes.

(** The queue is used as a stack; its top is the head of the list. *)
Definition initial_queue (indeg : list Z) : list nat :=
  reverse (filter (λ i, indeg !! i = Some 0) (seq 0 (length indeg))).

Definition relax (iq : list Z * list nat) (e : nat) : res (list Z * list nat) :=
  indeg ← bump (-1) iq.1 e;
  k ← vget indeg e;
  Ok (indeg, if decide (k = 0) then e :: iq.2 else iq.2).

Fixpoint order_loop (fuel : nat) (nodes : list PNode) (indeg : list Z) (q : list nat) (next_order : Z)
    : res (list PNode * Z) :=
  match fuel with
  | O => Ub OutOfFuel
  | S fuel =>
      match q with
      | [] => Ok (nodes, next_order)
      | x :: q =>
          n ← cget nodes x;
          iq ← foldM relax (indeg, q) (p_edges n);
          order_loop fuel (<[x := set_order next_order n]> nodes) iq.1 iq.2 (next_order + 1)
      end
  end.

(** Each node is dequeued at most once, so one round per node and a last one
    are enough. *)
Definition topological_ordering (p : XIAPath) : res (XIAPath * bool) :=
  indeg ← count_indegrees (p_nodes p);
  r ← order_loop (S (length (p_nodes p))) (p_nodes p) indeg (initial_queue indeg) 0;
  Ok (mkPath r.1 (p_src p) (p_dst p), bool_decide (r.2 = Z.of_nat (length (p_nodes p)))).

(** ** Validity *)

(** The first loop over the nodes: early return, or the in-degrees. *)
Fixpoint check_nodes (dst : Z) (i : nat) (nodes : list PNode) (indeg : list Z) : res (option (list Z)) :=
  match nodes with
  | [] => Ok (Some indeg)
  | n :: nodes =>
      if decide (length (p_edges n) = 0%nat ∧ Z.of_nat i ≠ dst) then Ok None
      else if decide (CLICK_XIA_XID_EDGE_NUM < length (p_edges n))%nat then Ok None
      else indeg ← foldM (bump 1) indeg (p_edges n); check_nodes dst (S i) nodes indeg
  end.

Definition is_valid (p : XIAPath) : res (XIAPath * bool) :=
  let n := Z.of_nat (length (p_nodes p)) in
  if decide (n ≤ p_src p ∨ n ≤ p_dst p ∨ p_src p = p_dst p) then Ok (p, false)
  else
    o ← check_nodes (p_dst p) 0 (p_nodes p) (replicate (length (p_nodes p)) 0);
    match o with
    | None => Ok (p, false)
    | Some indeg =>
        if existsb (λ i, bool_decide (indeg !! i = Some 0 ∧ Z.of_nat i ≠ p_src p)) (seq 0 (length (p_nodes p)))
        then Ok (p, false)
        else topological_ordering p
    end.

(** ** Writing the header format *)

Definition unparse_node_size (p : XIAPath) : Z :=
  if decide (length (p_nodes p) = 0%nat) then 0 else Z.of_nat (length (p_nodes p)) - 1.

(** The slots written for a node that is not the destination; the index is
    stored in seven bits. *)
Definition unparse_edges (p : XIAPath) (total_n : Z) (n : PNode) : res (list xid_edge) :=
  foldM (λ acc j,
    match p_edges n !! j with
    | Some e =>
        m ← cget (p_nodes p) e;
        let next_node_order := u64 (p_order m - 1) in
        if decide (next_node_order < total_n)
        then Ok (acc ++ [mkEdge (wrapU 7 next_node_order) 0]) else Ub AssertFail
    | None => Ok (acc ++ [mkEdge CLICK_XIA_XID_EDGE_UNUSED 0])
    end) [] (seq 0 CLICK_XIA_XID_EDGE_NUM).

Definition unparse_one (p : XIAPath) (total_n n : Z) (buf : list xid_node) (nd : PNode)
    : res (list xid_node) :=
  let order := p_order nd in
  let index := if decide (order = 0) then total_n - 1 else order - 1 in
  if decide (index < n) then
    w ← vgetz buf index;
    let x := if decide (0 < order) then p_xid nd else wn_xid w in
    if decide (order < total_n) then
      es ← unparse_edges p total_n nd; Ok (<[Z.to_nat index := mkXidNode x es]> buf)
    else if decide (order < total_n + 1) then Ok (<[Z.to_nat index := mkXidNode x (wn_edge w)]> buf)
    else Ub AssertFail
  else Ok buf.

(** [unparse_node]: the buffer of [n] nodes is filled in. *)
Definition unparse_node (p : XIAPath) (buf : list xid_node) (n : Z) : res (XIAPath * list xid_node * Z) :=
  pt ← topological_ordering p;
  let p := pt.1 in
  if (pt.2 : bool) then
    let total_n := unparse_node_size p in
    let n := Z.min n total_n in
    if decide (total_n = 0) then Ok (p, buf, 0)
    else buf ← foldM (unparse_one p total_n n) buf (p_nodes p); Ok (p, buf, n)
  else Ok (p, buf, 0).

(** ** Access and manipulation *)

Definition path_xid (p : XIAPath) (i : Z) : res Xid := n ← cgetz (p_nodes p) i; Ok (p_xid n).
Definition next_nodes (p : XIAPath) (i : Z) : res (list nat) := n ← cgetz (p_nodes p) i; Ok (p_edges n).

Definition path_add_node (p : XIAPath) (x : Xid) : XIAPath * nat :=
  (mkPath (p_nodes p ++ [new_node x]) (p_src p) (p_dst p), length (p_nodes p)).

Definition with_edges (n : PNode) (es : list nat) : PNode := mkPNode (p_xid n) es (p_order n).

Definition path_add_edge (p : XIAPath) (from to : nat) (priority : Z) : res XIAPath :=
  n ← cget (p_nodes p) from;
  let es := p_edges n in
  let es' :=
    if decide (priority < Z.of_nat (length es))
    then take (Z.to_nat priority) es ++ to :: drop (Z.to_nat priority) es
    else es ++ [to] in
  Ok (mkPath (<[from := with_edges n es']> (p_nodes p)) (p_src p) (p_dst p)).

(** The edges of a node when [node] is removed: edges to it are dropped, larger
    handles move down. *)
Definition drop_handle (node : nat) (es : list nat) : list nat :=
  omap (λ e, if decide (e = node) then None else Some (if decide (node < e)%nat then (e - 1)%nat else e)) es.

Definition drop_end (node : nat) (h : Z) : Z :=
  if decide (h ≠ npos ∧ Z.of_nat node ≤ h) then u64 (h - 1) else h.

Definition remove_node (p : XIAPath) (node : nat) : res XIAPath :=
  _ ← cget (p_nodes p) node;
  Ok (mkPath (map (λ n, with_edges n (drop_handle node (p_edges n))) (delete node (p_nodes p)))
        (drop_end node (p_src p)) (drop_end node (p_dst p))).

Fixpoint remove_first (e : nat) (es : list nat) : list nat :=
  match es with
  | [] => []
  | x :: es => if decide (x = e) then es else x :: remove_first e es
  end.

Definition remove_edge (p : XIAPath) (from to : nat) : res XIAPath :=
  n ← cget (p_nodes p) from;
  Ok (mkPath (<[from := with_edges n (remove_first to (p_edges n))]> (p_nodes p)) (p_src p) (p_dst p)).

Definition set_source_node (p : XIAPath) (h : Z) : XIAPath := mkPath (p_nodes p) h (p_dst p).
Definition set_destination_node (p : XIAPath) (h : Z) : XIAPath := mkPath (p_nodes p) (p_src p) h.

(** [incr]: when no node has the order the loop runs off the end and the read
    of [_nodes[i]] fails its assertion. *)
Definition path_incr (p : XIAPath) (order : Z) : res XIAPath :=
  pt ← topological_ordering p;
  let p := pt.1 in
  if (pt.2 : bool) then
    match list_find (λ n, p_order n = order) (p_nodes p) with
    | None => Ub AssertFail
    | Some (i, n) =>
        match xid_id (p_xid n) with
        | [] => Ub OutOfBounds
        | b :: bs => Ok (mkPath (<[i := mkPNode (mkXid (xid_type (p_xid n)) (u8 (1 + b) :: bs)) (p_edges n) (p_order n)]>
                                  (p_nodes p)) (p_src p) (p_dst p))
        end
    end
  else Ok p.
