(* ===== verification/XiaPathOrder.v ===== *)
(** * XiaPathOrder: the topological ordering of paths

    [topological_ordering] terminates, numbers the nodes so that every edge
    goes from a smaller to a larger number exactly when the graph has no cycle,
    and [is_valid] decides the validity of a path, provided the edges of the
    path stay inside its node vector.  An edge outside it makes both functions
    write outside an array. *)

From Stdlib Require Import ZArith Lia.
From stdpp Require Import base gmap sets list relations.
From S2P Require Import Prelude XiaPath.

Local Open Scope nat_scope.

Definition pedge (nodes : list PNode) (i j : nat) : Prop :=
  ∃ n, nodes !! i = Some n ∧ j ∈ p_edges n.

Definition in_range (nodes : list PNode) : Prop := ∀ i j, pedge nodes i j → j < length nodes.

Definition path_acyclic (nodes : list PNode) : Prop := ∀ i, ¬ tc (pedge nodes) i i.

(** ** Counting *)

Fixpoint sum_f (f : nat → nat) (n : nat) : nat :=
  match n with O => 0 | S n => sum_f f n + f n end.

Lemma sum_f_ext f g n : (∀ u, u < n → f u = g u) → sum_f f n = sum_f g n.
Proof. induction n as [|n IH]; intros H; simpl; [done|]. rewrite IH by (intros; apply H; lia). by rewrite H by lia. Qed.

Lemma sum_f_change f g n x d : x < n → f x = g x + d → (∀ u, u < n → u ≠ x → f u = g u) →
  sum_f f n = sum_f g n + d.
Proof.
  induction n as [|n IH]; intros Hx Hd H; [lia|]. simpl. destruct (decide (x = n)) as [->|Hne].
  - rewrite (sum_f_ext f g n) by (intros; apply H; lia). lia.
  - rewrite IH by (lia || (intros; apply H; lia)). rewrite (H n) by lia. lia.
Qed.

Lemma sum_f_zero f n : sum_f f n = 0 ↔ ∀ u, u < n → f u = 0.
Proof.
  induction n as [|n IH]; simpl; [split; [lia|done]|]. rewrite Nat.eq_add_0, IH. split.
  - intros [H1 H2] u Hu. destruct (decide (u = n)) as [->|]; [done|]. apply H1. lia.
  - intros H. split; [intros u Hu; apply H; lia|apply H; lia].
Qed.

Abbreviation count := (count_occ Nat.eq_dec).

Lemma count_zero (l : list nat) v : count l v = 0 ↔ v ∉ l.
Proof. rewrite <-count_occ_not_In. by rewrite list_elem_of_In. Qed.

(** ** The in-degree array *)

Lemma bump_ok d indeg e : e < length indeg → ∃ k, indeg !! e = Some k ∧
  bump d indeg e = Ok (<[e := (k + d)%Z]> indeg).
Proof.
  intros He. destruct (lookup_lt_is_Some_2 indeg e He) as [k Hk]. exists k. split; [done|].
  unfold bump, vget. by rewrite Hk.
Qed.

Lemma bump_all d es : ∀ indeg, Forall (λ e, e < length indeg) es →
  ∃ indeg', foldM (bump d) indeg es = Ok indeg' ∧ length indeg' = length indeg ∧
    ∀ v k, indeg !! v = Some k → indeg' !! v = Some (k + d * Z.of_nat (count es v))%Z.
Proof.
  induction es as [|e es IH]; intros indeg Hf; cbn [foldM].
  { exists indeg. split_and!; [done..|]. intros v k Hv. simpl. by rewrite Z.mul_0_r, Z.add_0_r. }
  apply Forall_cons in Hf as [He Hf]. destruct (bump_ok d indeg e He) as (k0 & Hk0 & ->).
  cbn [mbind res_bind].
  destruct (IH (<[e := (k0 + d)%Z]> indeg)) as (indeg' & Hrun & Hl & Hv).
  { by rewrite length_insert. }
  exists indeg'. rewrite length_insert in Hl. split_and!; [done..|]. intros v k Hk.
  destruct (decide (v = e)) as [->|Hne].
  - rewrite count_occ_cons_eq by done. rewrite Hk0 in Hk. injection Hk as <-.
    rewrite (Hv e (k0 + d)%Z) by (by apply list_lookup_insert_eq). f_equal. lia.
  - rewrite count_occ_cons_neq by done. apply Hv. by rewrite list_lookup_insert_ne.
Qed.

(** The edges of node [u]. *)
Definition edges_of (nodes : list PNode) (u : nat) : list nat := default [] (p_edges <$> nodes !! u).

Lemma pedge_edges_of nodes i j : pedge nodes i j ↔ j ∈ edges_of nodes i.
Proof.
  unfold pedge, edges_of. destruct (nodes !! i); simpl; [naive_solver|].
  rewrite elem_of_nil. naive_solver.
Qed.

(** The number of edges to [v] from nodes outside [P]. *)
Definition pending (nodes : list PNode) (P : list nat) (v : nat) : nat :=
  sum_f (λ u, if decide (u ∈ P) then 0 else count (edges_of nodes u) v) (length nodes).

Lemma pending_zero nodes P v : pending nodes P v = 0 ↔ ∀ u, pedge nodes u v → u ∈ P.
Proof.
  unfold pending. rewrite sum_f_zero. split.
  - intros H u Hu. assert (u < length nodes) as Hlt.
    { destruct Hu as (n & Hn & _). by eapply lookup_lt_Some. }
    specialize (H u Hlt). simpl in H. case_decide; [done|]. apply count_zero in H.
    by apply pedge_edges_of in Hu.
  - intros H u Hu. case_decide as Hin; [done|]. apply count_zero. rewrite <-pedge_edges_of. eauto.
Qed.

Lemma pending_add nodes P x v : x < length nodes → x ∉ P →
  pending nodes P v = pending nodes (P ++ [x]) v + count (edges_of nodes x) v.
Proof.
  intros Hx Hnin. unfold pending. apply (sum_f_change _ _ _ x); [done| |].
  - rewrite decide_False by done. rewrite decide_True by (apply elem_of_app; right; by left). lia.
  - intros u Hu Hne. repeat case_decide; try done; set_solver.
Qed.

Lemma in_range_edges nodes u : in_range nodes → Forall (λ e, e < length nodes) (edges_of nodes u).
Proof. intros H. apply Forall_forall. intros e He. by apply (H u), pedge_edges_of. Qed.

Lemma count_indegrees_ok nodes : in_range nodes →
  ∃ indeg, count_indegrees nodes = Ok indeg ∧ length indeg = length nodes ∧
    ∀ v, v < length nodes → indeg !! v = Some (Z.of_nat (pending nodes [] v)).
Proof.
  intros Hr. unfold count_indegrees, pending.
  assert (∀ k, k ≤ length nodes → ∃ indeg,
    foldM (λ indeg n, foldM (bump 1) indeg (p_edges n)) (replicate (length nodes) 0%Z) (take k nodes) = Ok indeg ∧
    length indeg = length nodes ∧ ∀ v, v < length nodes →
      indeg !! v = Some (Z.of_nat (sum_f (λ u, if decide (u ∈ []) then 0 else count (edges_of nodes u) v) k))) as Hk.
  { induction k as [|k IH]; intros Hk.
    { eexists. split; [done|]. rewrite length_replicate. split; [done|]. intros v Hv.
      by apply lookup_replicate_2. }
    destruct (lookup_lt_is_Some_2 nodes k) as [n Hn]; [lia|]. destruct IH as (indeg & Hrun & Hl & Hv); [lia|].
    rewrite (take_S_r nodes k n Hn), foldM_app, Hrun. cbn [mbind res_bind foldM].
    assert (edges_of nodes k = p_edges n) as He by (unfold edges_of; by rewrite Hn).
    destruct (bump_all 1 (p_edges n) indeg) as (indeg' & -> & Hl' & Hv').
    { rewrite Hl, <-He. by apply in_range_edges. }
    eexists. split; [done|]. split; [congruence|]. intros v Hvlt. rewrite (Hv' v _ (Hv v Hvlt)). f_equal.
    cbn [sum_f]. rewrite decide_False by apply not_elem_of_nil. rewrite He. lia. }
  destruct (Hk (length nodes) (le_n _)) as (indeg & Hrun & ? & ?). rewrite firstn_all in Hrun. eauto.
Qed.

(** ** The loop *)

(** Orders are the only part of a node the loop changes. *)
Definition same_graph (nodes nodes' : list PNode) : Prop :=
  length nodes' = length nodes ∧ ∀ i n, nodes !! i = Some n →
    ∃ n', nodes' !! i = Some n' ∧ p_xid n' = p_xid n ∧ p_edges n' = p_edges n.

Lemma same_graph_refl nodes : same_graph nodes nodes.
Proof. split; [done|]. eauto. Qed.

Lemma same_graph_edges nodes nodes' u : same_graph nodes nodes' → edges_of nodes' u = edges_of nodes u.
Proof.
  intros [Hl Hs]. unfold edges_of. destruct (nodes !! u) as [n|] eqn:E.
  - destruct (Hs u n E) as (n' & -> & _ & He). simpl. done.
  - apply lookup_ge_None in E. by rewrite lookup_ge_None_2 by lia.
Qed.

Section ordering.
Context (nodes : list PNode) (Hr : in_range nodes).

(** After the nodes [P] were numbered in this order, with [q] on the stack. *)
Record ordered (nodes' : list PNode) (indeg : list Z) (q P : list nat) : Prop := {
  or_same : same_graph nodes nodes';
  or_nodup : NoDup (P ++ q);
  or_lt x : x ∈ P ++ q → x < length nodes;
  or_len : length indeg = length nodes;
  or_indeg v : v < length nodes → indeg !! v = Some (Z.of_nat (pending nodes P v));
  or_ready v : v < length nodes → pending nodes P v = 0 ↔ v ∈ P ++ q;
  or_order k x : P !! k = Some x → ∃ n, nodes' !! x = Some n ∧ p_order n = Z.of_nat k;
  or_before k x u : P !! k = Some x → pedge nodes u x → ∃ j, j < k ∧ P !! j = Some u }.

Lemma relax_one indeg q e k : indeg !! e = Some k →
  relax (indeg, q) e = Ok (<[e := (k + -1)%Z]> indeg, if decide ((k + -1)%Z = 0%Z) then e :: q else q).
Proof using.
  intros Hk. assert (e < length indeg) by (by eapply lookup_lt_Some). unfold relax. cbn [fst snd].
  destruct (bump_ok (-1) indeg e) as (k' & Hk' & ->); [done|]. simplify_eq. cbn [mbind res_bind].
  unfold vget. by rewrite list_lookup_insert_eq by done.
Qed.

(** The inner loop, with the edges [es] of the dequeued node still to do. *)
Lemma relax_ok P es : ∀ indeg q, Forall (λ e, e < length nodes) es → NoDup (P ++ q) →
  length indeg = length nodes →
  (∀ v, v < length nodes → indeg !! v = Some (Z.of_nat (pending nodes P v + count es v))) →
  (∀ v, v < length nodes → pending nodes P v + count es v = 0 ↔ v ∈ P ++ q) →
  ∃ indeg' q', foldM relax (indeg, q) es = Ok (indeg', q') ∧ NoDup (P ++ q') ∧
    (∀ x, x ∈ q' → x ∈ q ∨ x < length nodes) ∧ length indeg' = length nodes ∧
    (∀ v, v < length nodes → indeg' !! v = Some (Z.of_nat (pending nodes P v))) ∧
    (∀ v, v < length nodes → pending nodes P v = 0 ↔ v ∈ P ++ q').
Proof.
  induction es as [|e es IH]; intros indeg q Hf Hnd Hl Hv Hz; cbn [foldM].
  { exists indeg, q. split_and!; try done; [auto|..]; intros v Hvl.
    - rewrite Hv by done. simpl. do 2 f_equal. lia.
    - rewrite <-Hz by done. simpl. lia. }
  apply Forall_cons in Hf as [He Hf]. pose proof (Hv e He) as Hk. rewrite count_occ_cons_eq in Hk by done.
  rewrite (relax_one indeg q e _ Hk). cbn [mbind res_bind].
  assert (∀ v, v ≠ e → count (e :: es) v = count es v) as Hne by (intros; by apply count_occ_cons_neq).
  set (k := (Z.of_nat (pending nodes P e + S (count es e)) + -1)%Z).
  set (q1 := if decide (k = 0%Z) then e :: q else q).
  assert (e ∉ P ++ q) as Hnew.
  { rewrite <-Hz by done. rewrite count_occ_cons_eq by done. lia. }
  destruct (IH (<[e := k]> indeg) q1) as (indeg' & q' & Hrun & Hnd' & Hq' & Hrest).
  - done.
  - unfold q1. case_decide; [|done]. apply NoDup_app in Hnd as (HP & Hd & Hq). rewrite elem_of_app in Hnew.
    apply NoDup_app. split_and!; [done| |apply NoDup_cons; naive_solver].
    intros x Hx [->|?]%elem_of_cons; [naive_solver|by apply (Hd x)].
  - by rewrite length_insert.
  - intros v Hvl. destruct (decide (v = e)) as [->|Hve].
    + rewrite list_lookup_insert_eq by lia. f_equal. unfold k. lia.
    + rewrite list_lookup_insert_ne, Hv, Hne by done. done.
  - intros v Hvl. destruct (decide (v = e)) as [->|Hve].
    + unfold q1. case_decide as Hk0.
      * unfold k in Hk0. split; [|lia]. intros _. apply elem_of_app. right. by left.
      * unfold k in Hk0. split; [lia|]. done.
    + specialize (Hz v Hvl). rewrite Hne in Hz by done. rewrite Hz. unfold q1. case_decide; [|done].
      rewrite !elem_of_app, elem_of_cons. naive_solver.
  - exists indeg', q'. split_and!; try done; try apply Hrest. intros x [Hx|Hx]%Hq'; [|by right].
    unfold q1 in Hx. case_decide; [|by left]. apply elem_of_cons in Hx as [->|?]; [by right|by left].
Qed.

Lemma order_step nodes' indeg x q P n : ordered nodes' indeg (x :: q) P → nodes' !! x = Some n →
  ∃ indeg' q', foldM relax (indeg, q) (p_edges n) = Ok (indeg', q') ∧
    ordered (<[x := set_order (Z.of_nat (length P)) n]> nodes') indeg' q' (P ++ [x]).
Proof.
  intros [Hsame Hnd Hlt Hl Hin Hrd Hor Hbf] Hn.
  assert (x < length nodes) as Hx by (apply Hlt, elem_of_app; right; by left).
  assert (P ++ x :: q = (P ++ [x]) ++ q) as Happ by (by rewrite <-app_assoc). rewrite Happ in *.
  assert (x ∉ P) as HxP.
  { apply NoDup_app in Hnd as (Hnd & _ & _). apply NoDup_app in Hnd as (_ & Hd & _).
    intros Hp. apply (Hd x Hp). by left. }
  assert (edges_of nodes x = p_edges n) as He.
  { rewrite <-(same_graph_edges nodes nodes' x Hsame). unfold edges_of. by rewrite Hn. }
  destruct (relax_ok (P ++ [x]) (p_edges n) indeg q) as (indeg' & q' & Hrun & Hnd' & Hq' & Hl' & Hv' & Hz').
  - rewrite <-He. by apply in_range_edges.
  - done.
  - done.
  - intros v Hv. rewrite Hin by done. rewrite (pending_add nodes P x v) by done. by rewrite He.
  - intros v Hv. rewrite <-Hrd by done. rewrite (pending_add nodes P x v) by done. by rewrite He.
  - exists indeg', q'. split; [done|]. split; try done.
    + destruct Hsame as [Hls Hs]. split; [by rewrite length_insert|]. intros i m Hm.
      destruct (Hs i m Hm) as (m' & Hm' & ? & ?). destruct (decide (i = x)) as [->|].
      * simplify_eq. eexists. rewrite list_lookup_insert_eq by (by eapply lookup_lt_Some). done.
      * rewrite list_lookup_insert_ne by done. eauto.
    + intros y Hy. rewrite elem_of_app in Hy. destruct Hy as [Hy|[Hy|Hy]%Hq'];
        [apply Hlt, elem_of_app; by left|apply Hlt, elem_of_app; by right|done].
    + intros k y Hk. destruct (decide (y = x)) as [->|Hyx].
      * rewrite list_lookup_insert_eq by (by eapply lookup_lt_Some). eexists. split; [done|]. simpl.
        apply lookup_snoc_Some in Hk as [[_ Hk]|[-> _]]; [|done].
        apply list_elem_of_lookup_2 in Hk. done.
      * rewrite list_lookup_insert_ne by done. apply lookup_snoc_Some in Hk as [[_ Hk]|[_ <-]]; [eauto|done].
    + intros k y u Hk Hu. apply lookup_snoc_Some in Hk as [[Hkl Hk]|[-> <-]].
      * destruct (Hbf k y u Hk Hu) as (j & Hj & HPj). exists j. split; [done|]. by apply lookup_app_l_Some.
      * assert (pending nodes P x = 0) as Hp0.
        { apply Hrd; [done|]. rewrite !elem_of_app. left. right. by left. }
        rewrite pending_zero in Hp0. apply Hp0 in Hu as (j & Hj)%list_elem_of_lookup.
        exists j. split; [by eapply lookup_lt_Some|]. by apply lookup_app_l_Some.
Qed.

Lemma order_loop_ok fuel : ∀ nodes' indeg q P, ordered nodes' indeg q P →
  length nodes < fuel + length P →
  ∃ nodes'' indeg'' P', order_loop fuel nodes' indeg q (Z.of_nat (length P)) =
      Ok (nodes'', Z.of_nat (length P')) ∧ ordered nodes'' indeg'' [] P'.
Proof using Hr.
  induction fuel as [|fuel IH]; intros nodes' indeg q P Ho Hfuel.
  { exfalso. assert (length P ≤ length nodes); [|lia].
    pose proof (or_nodup _ _ _ _ Ho) as Hnd. apply NoDup_app in Hnd as (Hnd & _ & _).
    rewrite <-(length_seq (length nodes) 0). apply submseteq_length, NoDup_submseteq; [done|].
    intros x Hx. apply elem_of_seq. split; [lia|]. apply (or_lt _ _ _ _ Ho), elem_of_app. by left. }
  destruct q as [|x q]; cbn [order_loop]; [eauto|].
  assert (x < length nodes) as Hx by (apply (or_lt _ _ _ _ Ho), elem_of_app; right; by left).
  destruct (or_same _ _ _ _ Ho) as [Hl _].
  destruct (lookup_lt_is_Some_2 nodes' x) as [n Hn]; [lia|].
  destruct (order_step _ _ _ _ _ _ Ho Hn) as (indeg' & q' & Hrun & Ho').
  unfold cget. rewrite Hn. cbn [mbind res_bind]. rewrite Hrun. cbn [mbind res_bind fst snd].
  destruct (IH _ _ _ _ Ho') as (nodes'' & indeg'' & P' & Hloop & Ho''); [rewrite length_app; simpl; lia|].
  exists nodes'', indeg'', P'. split; [|done].
  rewrite length_app, Nat2Z.inj_add in Hloop. exact Hloop.
Qed.

Lemma initial_ordered indeg : length indeg = length nodes →
  (∀ v, v < length nodes → indeg !! v = Some (Z.of_nat (pending nodes [] v))) →
  ordered nodes indeg (initial_queue indeg) [].
Proof using.
  intros Hl Hv. split; try done.
  - apply same_graph_refl.
  - simpl. unfold initial_queue. rewrite reverse_Permutation.
    apply NoDup_filter, NoDup_seq.
  - intros x Hx. simpl in Hx. unfold initial_queue in Hx. rewrite elem_of_reverse in Hx.
    apply list_elem_of_filter in Hx as [_ Hx%elem_of_seq]. lia.
  - intros v Hvl. simpl. unfold initial_queue. rewrite elem_of_reverse, list_elem_of_filter.
    rewrite Hv, elem_of_seq by done. split; [intros ->; split; [done|lia]|]. intros [[= ?] _]. lia.
Qed.

Lemma topological_run : ∃ nodes' indeg P,
  order_loop (S (length nodes)) nodes indeg (initial_queue indeg) 0 = Ok (nodes', Z.of_nat (length P)) ∧
  count_indegrees nodes = Ok indeg ∧ (∃ indeg', ordered nodes' indeg' [] P).
Proof using Hr.
  destruct (count_indegrees_ok nodes Hr) as (indeg & Hc & Hl & Hv).
  destruct (order_loop_ok (S (length nodes)) nodes indeg (initial_queue indeg) []) as
    (nodes' & indeg' & P & Hrun & Ho).
  - by apply initial_ordered.
  - simpl. lia.
  - exists nodes', indeg, P. split_and!; eauto.
Qed.
End ordering.

(** ** What the ordering means *)

Section ordered_result.
Context (nodes nodes' : list PNode) (indeg : list Z) (P : list nat) (Ho : ordered nodes nodes' indeg [] P).

Lemma ordered_le : length P ≤ length nodes.
Proof using Ho.
  pose proof (or_nodup _ _ _ _ _ Ho) as Hnd. rewrite app_nil_r in Hnd.
  rewrite <-(length_seq (length nodes) 0). apply submseteq_length, NoDup_submseteq; [done|].
  intros x Hx. apply elem_of_seq. split; [lia|]. apply (or_lt _ _ _ _ _ Ho). by rewrite app_nil_r.
Qed.

Lemma ordered_all : length P = length nodes ↔ ∀ x, x < length nodes → x ∈ P.
Proof using Ho.
  pose proof (or_nodup _ _ _ _ _ Ho) as Hnd. rewrite app_nil_r in Hnd. split.
  - intros Hl x Hx. assert (P ≡ₚ seq 0 (length nodes)) as ->; [|apply elem_of_seq; lia].
    apply submseteq_length_Permutation; [|rewrite length_seq; lia].
    apply NoDup_submseteq; [done|]. intros y Hy. apply elem_of_seq. split; [lia|].
    apply (or_lt _ _ _ _ _ Ho). by rewrite app_nil_r.
  - intros Hall. apply Nat.le_antisymm; [apply ordered_le|].
    rewrite <-(length_seq (length nodes) 0). apply submseteq_length, NoDup_submseteq; [apply NoDup_seq|].
    intros x Hx%elem_of_seq. apply Hall. lia.
Qed.

(** A node left out has a predecessor left out. *)
Lemma left_out_pred x : x < length nodes → x ∉ P → ∃ u, pedge nodes u x ∧ u ∉ P.
Proof using Ho.
  intros Hx HxP. pose proof (or_ready _ _ _ _ _ Ho x Hx) as Hrd. rewrite app_nil_r, pending_zero in Hrd.
  destruct (decide (Exists (λ u, x ∈ edges_of nodes u ∧ u ∉ P) (seq 0 (length nodes)))) as [He|He].
  - apply Exists_exists in He as (u & _ & Hu & HuP). exists u. split; [by apply pedge_edges_of|done].
  - exfalso. apply HxP, (proj1 Hrd). intros u Hu. destruct (decide (u ∈ P)) as [|HuP]; [done|].
    destruct He. apply Exists_exists. exists u. split_and!; [|by apply pedge_edges_of|done].
    apply elem_of_seq. destruct Hu as (n & Hn & _). apply lookup_lt_Some in Hn. lia.
Qed.

Lemma tc_flip_edge x y : tc (flip (pedge nodes)) x y → tc (pedge nodes) y x.
Proof using.
  induction 1 as [x y Hxy|x y z Hxy _ IH]; [by apply tc_once|]. eapply tc_r; [exact IH|done].
Qed.

Lemma acyclic_all : path_acyclic nodes → ∀ x, x < length nodes → x ∈ P.
Proof using Ho.
  intros Hac x Hx. assert (sn (flip (pedge nodes)) x) as Hsn.
  { apply tc_finite_sn.
    - intros y Hy. by apply (Hac y), tc_flip_edge.
    - exists (seq 0 (length nodes)). intros y Hy%tc_flip_edge. apply elem_of_seq. split; [lia|].
      assert (∃ z, pedge nodes y z) as (z & n & Hn & _) by (inversion Hy; eauto).
      by apply lookup_lt_Some in Hn. }
  induction Hsn as [x _ IH]. destruct (decide (x ∈ P)) as [|HxP]; [done|].
  destruct (left_out_pred x Hx HxP) as (u & Hu & HuP). destruct HuP. apply IH; [done|].
  destruct Hu as (n & Hn & _). by apply lookup_lt_Some in Hn.
Qed.

(** The order a node got. *)
Definition order_of (ns : list PNode) (i : nat) : Z := default npos (p_order <$> ns !! i).

Lemma order_of_lookup k x : P !! k = Some x → order_of nodes' x = Z.of_nat k.
Proof using Ho.
  intros Hk. destruct (or_order _ _ _ _ _ Ho k x Hk) as (n & Hn & <-). unfold order_of. by rewrite Hn.
Qed.

Lemma order_increases i j : j ∈ P → pedge nodes i j → (order_of nodes' i < order_of nodes' j)%Z.
Proof using Ho.
  intros (k & Hk)%list_elem_of_lookup Hij. destruct (or_before _ _ _ _ _ Ho k j i Hk Hij) as (l & Hl & HPl).
  rewrite (order_of_lookup k j Hk), (order_of_lookup l i HPl). lia.
Qed.

Lemma all_acyclic : in_range nodes → (∀ x, x < length nodes → x ∈ P) → path_acyclic nodes.
Proof using Ho.
  intros Hr Hall. assert (∀ i j, tc (pedge nodes) i j → (order_of nodes' i < order_of nodes' j)%Z) as Hinc.
  { induction 1 as [i j Hij|i j k Hij _ IH].
    - apply order_increases; [|done]. apply Hall. by eapply Hr.
    - etrans; [|exact IH]. apply order_increases; [|done]. apply Hall. by eapply Hr. }
  intros i Hi. specialize (Hinc i i Hi). lia.
Qed.
End ordered_result.

(** The numbers [0 .. n-1], each used once, growing along edges. *)
Definition numbered (nodes nodes' : list PNode) : Prop :=
  (∀ i, i < length nodes → (0 ≤ order_of nodes' i < Z.of_nat (length nodes))%Z) ∧
  (∀ i j, i < length nodes → j < length nodes → order_of nodes' i = order_of nodes' j → i = j) ∧
  (∀ i j, pedge nodes i j → (order_of nodes' i < order_of nodes' j)%Z).

Lemma ordered_numbered nodes nodes' indeg P : in_range nodes → ordered nodes nodes' indeg [] P →
  (∀ x, x < length nodes → x ∈ P) → numbered nodes nodes'.
Proof.
  intros Hr Ho Hall. pose proof (ordered_le _ _ _ _ Ho). split_and!.
  - intros i (k & Hk)%Hall%list_elem_of_lookup. rewrite (order_of_lookup _ _ _ _ Ho k i Hk).
    apply lookup_lt_Some in Hk. lia.
  - intros i j (k & Hk)%Hall%list_elem_of_lookup (l & Hl)%Hall%list_elem_of_lookup.
    rewrite (order_of_lookup _ _ _ _ Ho k i Hk), (order_of_lookup _ _ _ _ Ho l j Hl).
    intros <-%Nat2Z.inj. congruence.
  - intros i j Hij. eapply order_increases; [done| |done]. apply Hall. by eapply Hr.
Qed.

Lemma topological_ok p : in_range (p_nodes p) →
  ∃ p' b, topological_ordering p = Ok (p', b) ∧ same_graph (p_nodes p) (p_nodes p') ∧
    p_src p' = p_src p ∧ p_dst p' = p_dst p ∧
    (b = true ↔ path_acyclic (p_nodes p)) ∧ (b = true → numbered (p_nodes p) (p_nodes p')).
Proof.
  intros Hr. destruct (topological_run (p_nodes p) Hr) as (nodes' & indeg & P & Hrun & Hc & indeg' & Ho).
  unfold topological_ordering. rewrite Hc. cbn [mbind res_bind]. rewrite Hrun. cbn [mbind res_bind fst snd].
  eexists _, _. split; [done|]. cbn [p_nodes p_src p_dst].
  rewrite bool_decide_eq_true. rewrite (inj_iff Z.of_nat), (ordered_all _ _ _ _ Ho). split_and!; try done.
  - apply (or_same _ _ _ _ _ Ho).
  - split; [by apply (all_acyclic _ _ _ _ Ho)|by apply (acyclic_all _ _ _ _ Ho)].
  - intros Hall. by eapply ordered_numbered.
Qed.

(** ** Validity *)

Definition out_ok (dst : Z) (i : nat) (n : PNode) : Prop :=
  (p_edges n = [] → Z.of_nat i = dst) ∧ length (p_edges n) ≤ CLICK_XIA_XID_EDGE_NUM.

(** A valid path: source and destination are different nodes, only the
    destination has no successor, no node has more than four, only the source
    has no predecessor, and there is no cycle. *)
Record path_valid (p : XIAPath) : Prop := {
  pv_src : (p_src p < Z.of_nat (length (p_nodes p)))%Z;
  pv_dst : (p_dst p < Z.of_nat (length (p_nodes p)))%Z;
  pv_ne : p_src p ≠ p_dst p;
  pv_out i n : p_nodes p !! i = Some n → out_ok (p_dst p) i n;
  pv_in i : i < length (p_nodes p) → (∀ u, ¬ pedge (p_nodes p) u i) → Z.of_nat i = p_src p;
  pv_acyclic : path_acyclic (p_nodes p) }.

Lemma check_nodes_ok dst ns : ∀ i indeg,
  Forall (λ n, Forall (λ e, e < length indeg) (p_edges n)) ns →
  ∃ o, check_nodes dst i ns indeg = Ok o ∧
    match o with
    | None => ∃ k n, ns !! k = Some n ∧ ¬ out_ok dst (i + k) n
    | Some indeg' =>
        foldM (λ indeg n, foldM (bump 1) indeg (p_edges n)) indeg ns = Ok indeg' ∧
        ∀ k n, ns !! k = Some n → out_ok dst (i + k) n
    end.
Proof.
  induction ns as [|n ns IH]; intros i indeg Hf; cbn [check_nodes].
  { eexists. split; [done|]. simpl. done. }
  apply Forall_cons in Hf as [Hn Hf]. case_decide as H1.
  { eexists. split; [done|]. exists 0, n. rewrite Nat.add_0_r. split; [done|].
    intros [He _]. destruct H1 as [Hl%length_zero_iff_nil Hd]. auto. }
  case_decide as H2.
  { eexists. split; [done|]. exists 0, n. rewrite Nat.add_0_r. split; [done|]. intros [_ Hl]. lia. }
  destruct (bump_all 1 (p_edges n) indeg Hn) as (indeg1 & Hb & Hl & _). rewrite Hb. cbn [mbind res_bind].
  assert (out_ok dst i n) as Hok.
  { split; [|lia]. intros He. destruct (decide (Z.of_nat i = dst)); [done|]. destruct H1. by rewrite He. }
  destruct (IH (S i) indeg1) as (o & -> & Ho).
  { eapply Forall_impl; [exact Hf|]. simpl. by rewrite Hl. }
  exists o. split; [done|]. destruct o as [indeg'|].
  - destruct Ho as [Hrun Hall]. split; [cbn [foldM]; by rewrite Hb|]. intros [|k] m Hk.
    + simplify_eq/=. by rewrite Nat.add_0_r.
    + rewrite Nat.add_succ_r. by apply (Hall k).
  - destruct Ho as (k & m & Hk & Hno). exists (S k), m. by rewrite Nat.add_succ_r.
Qed.

Lemma in_range_all nodes : in_range nodes → Forall (λ n, Forall (λ e, e < length nodes) (p_edges n)) nodes.
Proof.
  intros Hr. apply Forall_lookup. intros i n Hn. apply Forall_forall. intros e He. apply (Hr i). by exists n.
Qed.

(** Every number is used. *)
Lemma numbered_surj nodes nodes' o : numbered nodes nodes' → (0 ≤ o < Z.of_nat (length nodes))%Z →
  ∃ i, i < length nodes ∧ order_of nodes' i = o.
Proof.
  intros (Hrange & Hinj & _) Ho. set (l := map (order_of nodes') (seq 0 (length nodes))).
  assert (l ≡ₚ seqZ 0 (Z.of_nat (length nodes))) as Hp.
  { apply submseteq_length_Permutation; [|unfold l; rewrite length_seqZ, length_map, length_seq; lia].
    apply NoDup_submseteq.
    - apply NoDup_fmap_2_strong; [|apply NoDup_seq]. intros x y Hx%elem_of_seq Hy%elem_of_seq. apply Hinj; lia.
    - intros x (i & -> & Hi%elem_of_seq)%list_elem_of_fmap. apply elem_of_seqZ. specialize (Hrange i). lia. }
  assert (o ∈ l) as (i & -> & Hi%elem_of_seq)%list_elem_of_fmap by (rewrite Hp; apply elem_of_seqZ; lia).
  exists i. split; [lia|done].
Qed.

(** The ends of a valid path have the first and the last number. *)
Lemma valid_ends p nodes' : in_range (p_nodes p) → path_valid p → numbered (p_nodes p) nodes' →
  (0 ≤ p_src p)%Z → (0 ≤ p_dst p)%Z →
  order_of nodes' (Z.to_nat (p_src p)) = 0%Z ∧
  order_of nodes' (Z.to_nat (p_dst p)) = (Z.of_nat (length (p_nodes p)) - 1)%Z.
Proof.
  intros Hr [Hs Hd Hne Hout Hin Hac] Hnum Hs0 Hd0. pose proof Hnum as (Hrange & Hinj & Hinc).
  split.
  - destruct (numbered_surj _ _ 0%Z Hnum ltac:(lia)) as (i & Hi & Ho). assert (Z.of_nat i = p_src p) as <-.
    { apply Hin; [done|]. intros u Hu. specialize (Hinc u i Hu).
      assert (u < length (p_nodes p)) as Hlt by (destruct Hu as (n & Hn & _); by apply lookup_lt_Some in Hn).
      specialize (Hrange u Hlt). lia. }
    by rewrite Nat2Z.id.
  - destruct (numbered_surj _ _ (Z.of_nat (length (p_nodes p)) - 1)%Z Hnum ltac:(lia)) as (i & Hi & Ho).
    destruct (lookup_lt_is_Some_2 (p_nodes p) i Hi) as [n Hn].
    assert (Z.of_nat i = p_dst p) as <-; [|by rewrite Nat2Z.id].
    apply (Hout i n Hn), elem_of_nil_inv. intros j Hj.
    assert (pedge (p_nodes p) i j) as Hij by (by exists n).
    specialize (Hinc i j Hij). specialize (Hr i j Hij). specialize (Hrange j Hr). lia.
Qed.

Lemma is_valid_ok p : in_range (p_nodes p) → (0 ≤ p_src p)%Z → (0 ≤ p_dst p)%Z →
  ∃ p' b, is_valid p = Ok (p', b) ∧ same_graph (p_nodes p) (p_nodes p') ∧
    p_src p' = p_src p ∧ p_dst p' = p_dst p ∧ (b = true ↔ path_valid p) ∧
    (b = true → numbered (p_nodes p) (p_nodes p')).
Proof.
  intros Hr Hs0 Hd0. pose proof (same_graph_refl (p_nodes p)). unfold is_valid. case_decide as Hends.
  { exists p, false. split_and!; try done. split; [done|]. intros []. lia. }
  destruct (check_nodes_ok (p_dst p) (p_nodes p) 0 (replicate (length (p_nodes p)) 0%Z)) as (o & -> & Ho).
  { rewrite length_replicate. by apply in_range_all. }
  cbn [mbind res_bind]. destruct o as [indeg|].
  2: { destruct Ho as (k & n & Hk & Hno). exists p, false. split_and!; try done.
       split; [done|]. intros Hv. destruct Hno. by apply (pv_out p Hv k). }
  destruct Ho as [Hrun Hout]. destruct (count_indegrees_ok (p_nodes p) Hr) as (indeg' & Hc & Hl & Hv).
  unfold count_indegrees in Hc. rewrite Hrun in Hc. injection Hc as ->.
  assert (∀ i, i < length (p_nodes p) → indeg' !! i = Some 0%Z ↔ ∀ u, ¬ pedge (p_nodes p) u i) as Hz.
  { intros i Hi. rewrite Hv by done. rewrite (inj_iff Some), (Nat2Z.inj_iff _ 0), pending_zero.
    setoid_rewrite elem_of_nil. done. }
  destruct (existsb _ _) eqn:Hex.
  - apply existsb_exists in Hex as (i & Hi%list_elem_of_In%elem_of_seq & [Hi0 Hne]%bool_decide_eq_true).
    exists p, false. split_and!; try done. split; [done|]. intros Hpv. destruct Hne.
    apply (pv_in p Hpv); [lia|]. apply Hz; [lia|done].
  - destruct (topological_ok p Hr) as (p' & b & Hrun' & Hsame & Hsrc & Hdst & Hb & Hnum).
    exists p', b. split_and!; try done. rewrite Hb. split; [|apply pv_acyclic].
    intros Hac. split; try lia; [intros i n Hn; by apply (Hout i)| |done].
    intros i Hi Hno. apply Hz in Hno; [|done]. destruct (decide (Z.of_nat i = p_src p)); [done|].
    exfalso. assert (existsb (λ i, bool_decide (indeg' !! i = Some 0%Z ∧ Z.of_nat i ≠ p_src p))
      (seq 0 (length (p_nodes p))) = true) as Ht; [|congruence].
    apply existsb_exists. exists i. split; [apply list_elem_of_In, elem_of_seq; lia|].
    by apply bool_decide_eq_true.
Qed.
