(* ===== verification/XiaPathCodec.v ===== *)
(** * XiaPathCodec: properties of paths

    The ordering and validity check are correct; a valid path written in the
    header format and read back is the same path up to the numbering of its
    nodes. *)

From Stdlib Require Import ZArith Lia.
From stdpp Require Import base gmap sets list relations.
From S2P Require Import Prelude XiaPath XiaPathOrder.

Local Open Scope Z_scope.

(** ** Ordering and validity *)

(** C39: on a path whose edges stay inside the node vector, the topological
    ordering terminates and succeeds exactly when the graph has no cycle; it
    changes only the order fields, and when it succeeds they are a numbering of
    the nodes that grows along every edge. *)
Theorem topological_ordering_correct p : in_range (p_nodes p) →
  ∃ p' b, topological_ordering p = Ok (p', b) ∧ same_graph (p_nodes p) (p_nodes p') ∧
    p_src p' = p_src p ∧ p_dst p' = p_dst p ∧
    (b = true ↔ path_acyclic (p_nodes p)) ∧ (b = true → numbered (p_nodes p) (p_nodes p')).
Proof. apply topological_ok. Qed.

(** The path source -> A -> D, source -> D, of an AD and an SID (the type words
    are in network byte order). *)
Definition xid_a : Xid := mkXid (16 * 2 ^ 24) (replicate 20 1).
Definition xid_d : Xid := mkXid (19 * 2 ^ 24) (replicate 20 2).
Definition demo_path : XIAPath :=
  mkPath [mkPNode Xid_undef [2; 1]%nat npos; mkPNode xid_a [2]%nat npos; mkPNode xid_d [] npos] 0 2.

Lemma pedge_demo i j : pedge (p_nodes demo_path) i j → (i < j < 3)%nat.
Proof.
  intros (n & Hn & Hj). do 3 (destruct i as [|i]; [injection Hn as <-; set_unfold in Hj; simpl in Hj; lia|]).
  done.
Qed.

Lemma demo_in_range : in_range (p_nodes demo_path).
Proof. intros i j Hij%pedge_demo. simpl. lia. Qed.

Lemma demo_acyclic : path_acyclic (p_nodes demo_path).
Proof.
  assert (∀ i j, tc (pedge (p_nodes demo_path)) i j → (i < j)%nat) as H.
  { induction 1 as [i j Hij%pedge_demo|i j k Hij%pedge_demo _ IH]; lia. }
  intros i Hi%H. lia.
Qed.

Lemma topological_ordering_correct_witness :
  ∃ p', topological_ordering demo_path = Ok (p', true) ∧ numbered (p_nodes demo_path) (p_nodes p').
Proof.
  destruct (topological_ordering_correct demo_path demo_in_range) as (p' & b & Hrun & _ & _ & _ & Hb & Hn).
  assert (b = true) as -> by (apply Hb, demo_acyclic). exists p'. auto.
Defined.

(** Edges outside the vector. *)
Lemma bump_all_bad d es : ∀ indeg, ¬ Forall (λ e, e < length indeg)%nat es →
  foldM (bump d) indeg es = Ub OutOfBounds.
Proof.
  induction es as [|e es IH]; intros indeg Hf; [by destruct Hf|]. cbn [foldM].
  destruct (decide (e < length indeg)%nat) as [He|He].
  - destruct (bump_ok d indeg e He) as (k & _ & ->). cbn [mbind res_bind]. apply IH.
    rewrite length_insert. intros Hf'. apply Hf. by constructor.
  - unfold bump, vget. by rewrite lookup_ge_None_2 by lia.
Qed.

Lemma count_bad ns : ∀ indeg, ¬ Forall (λ n, Forall (λ e, e < length indeg)%nat (p_edges n)) ns →
  foldM (λ indeg n, foldM (bump 1) indeg (p_edges n)) indeg ns = Ub OutOfBounds.
Proof.
  induction ns as [|n ns IH]; intros indeg Hf; [by destruct Hf|]. cbn [foldM].
  destruct (decide (Forall (λ e, e < length indeg)%nat (p_edges n))) as [Hn|Hn].
  - destruct (bump_all 1 (p_edges n) indeg Hn) as (indeg' & -> & Hl & _). cbn [mbind res_bind]. apply IH.
    rewrite Hl. intros Hf'. apply Hf. by constructor.
  - by rewrite bump_all_bad.
Qed.

(** an edge index outside the node vector, which [parse_node] takes from a
    packet without a check, makes the topological ordering write outside its
    in-degree array. *)
Theorem topological_ordering_out_of_range p : ¬ in_range (p_nodes p) →
  topological_ordering p = Ub OutOfBounds.
Proof.
  intros Hr. unfold topological_ordering, count_indegrees. rewrite count_bad; [done|].
  rewrite length_replicate. intros Hf. apply Hr. intros i j (n & Hn & Hj).
  rewrite Forall_lookup in Hf. specialize (Hf i n Hn). rewrite Forall_forall in Hf. by apply Hf.
Qed.

Lemma topological_ordering_out_of_range_witness :
  topological_ordering (parse_node [mkXidNode xid_d (mkEdge 5 0 :: replicate 3 (mkEdge 127 0))]) =
    Ub OutOfBounds.
Proof.
  apply (topological_ordering_out_of_range
    (parse_node [mkXidNode xid_d (mkEdge 5 0 :: replicate 3 (mkEdge 127 0))])).
  intros Hr. specialize (Hr 1%nat 5%nat). assert (5 < 2)%nat; [|lia]. apply Hr.
  eexists. split; [reflexivity|]. simpl. by left.
Defined.

(** [is_valid] decides whether a path is valid: the source and destination
    are different nodes, only the destination has no successor and only the
    source no predecessor, at most four edges leave a node, and there is no
    cycle.  In a valid path the source gets the first number and the
    destination the last, which is what [unparse_node] relies on. *)
Theorem is_valid_correct p : in_range (p_nodes p) → 0 ≤ p_src p → 0 ≤ p_dst p →
  ∃ p' b, is_valid p = Ok (p', b) ∧ same_graph (p_nodes p) (p_nodes p') ∧ (b = true ↔ path_valid p) ∧
    (b = true → order_of (p_nodes p') (Z.to_nat (p_src p)) = 0 ∧
       order_of (p_nodes p') (Z.to_nat (p_dst p)) = Z.of_nat (length (p_nodes p)) - 1).
Proof.
  intros Hr Hs Hd. destruct (is_valid_ok p Hr Hs Hd) as (p' & b & Hrun & Hsame & _ & _ & Hb & Hnum).
  exists p', b. split_and!; try done. intros Ht. apply valid_ends; auto. by apply Hb.
Qed.

Lemma demo_valid : path_valid demo_path.
Proof.
  split; simpl; try lia.
  - intros i n Hn. unfold out_ok. do 3 (destruct i as [|i];
      [injection Hn as <-; simpl; (split; [done|unfold CLICK_XIA_XID_EDGE_NUM; lia])|]). done.
  - intros i Hi Hno. destruct i as [|[|[|i]]]; [done|exfalso..].
    + apply (Hno 0%nat). eexists. split; [reflexivity|]. simpl. right. by left.
    + apply (Hno 0%nat). eexists. split; [reflexivity|]. simpl. by left.
    + simpl in Hi. lia.
  - apply demo_acyclic.
Qed.

Lemma is_valid_correct_witness : ∃ p', is_valid demo_path = Ok (p', true).
Proof.
  destruct (is_valid_correct demo_path demo_in_range) as (p' & b & Hrun & _ & Hb & _); [simpl; lia..|].
  assert (b = true) as -> by (apply Hb, demo_valid). eauto.
Defined.

(** ** Writing and reading the header format *)

Section unparse.
Context (p : XIAPath) (total : Z).
Context (Htotal : total = Z.of_nat (length (p_nodes p)) - 1) (Hpos : 0 < total ≤ 127).
Context (Hr : in_range (p_nodes p)).
Context (Hnum : numbered (p_nodes p) (p_nodes p)).

Definition ord (i : nat) : Z := order_of (p_nodes p) i.

(** The slots of a node. *)
Definition slots_of (n : PNode) : list xid_edge :=
  map (λ j, match p_edges n !! j with
            | Some e => mkEdge (ord e - 1) 0
            | None => mkEdge CLICK_XIA_XID_EDGE_UNUSED 0
            end) (seq 0 CLICK_XIA_XID_EDGE_NUM).

Lemma foldM_collect_map {A B} (f : list B → A → res (list B)) (h : A → B) l : ∀ acc,
  (∀ acc a, a ∈ l → f acc a = Ok (acc ++ [h a])) → foldM f acc l = Ok (acc ++ map h l).
Proof using.
  induction l as [|a l IH]; intros acc Hf; [simpl; by rewrite app_nil_r|]. cbn [foldM].
  rewrite Hf by (by left). cbn [mbind res_bind]. rewrite IH by (intros; apply Hf; by right).
  by rewrite <-app_assoc.
Qed.

Lemma successor_order i n e : p_nodes p !! i = Some n → e ∈ p_edges n →
  ∃ m, p_nodes p !! e = Some m ∧ p_order m = ord e ∧ 1 ≤ ord e ≤ total.
Proof using Htotal Hr Hnum.
  intros Hn He. destruct Hnum as (Hrange & _ & Hinc).
  assert (pedge (p_nodes p) i e) as Hie by (by exists n).
  pose proof (Hr i e Hie) as Hlt. destruct (lookup_lt_is_Some_2 _ e Hlt) as [m Hm].
  exists m. split; [done|]. split; [unfold ord, order_of; by rewrite Hm|].
  pose proof (Hinc i e Hie). pose proof (Hrange e Hlt).
  pose proof (Hrange i (lookup_lt_Some _ _ _ Hn)). unfold ord. lia.
Qed.

Lemma unparse_edges_ok i n : p_nodes p !! i = Some n → unparse_edges p total n = Ok (slots_of n).
Proof using Htotal Hpos Hr Hnum.
  intros Hn. unfold unparse_edges, slots_of. rewrite (foldM_collect_map _
    (λ j, match p_edges n !! j with Some e => mkEdge (ord e - 1) 0 | None => mkEdge CLICK_XIA_XID_EDGE_UNUSED 0 end));
    [done|].
  intros acc j _. destruct (p_edges n !! j) as [e|] eqn:Ej; [|done].
  destruct (successor_order i n e Hn) as (m & Hm & Ho & Hb); [by eapply list_elem_of_lookup_2|].
  unfold cget. rewrite Hm. cbn [mbind res_bind]. rewrite Ho. unfold u64.
  rewrite wrapU_small by lia. rewrite decide_True by lia. by rewrite wrapU_small by lia.
Qed.

(** The header cell node [i] writes to, and what it leaves there. *)
Definition cell (i : nat) : nat := Z.to_nat (if decide (ord i = 0) then total - 1 else ord i - 1).

Definition written (i : nat) (n : PNode) (w : xid_node) : xid_node :=
  mkXidNode (if decide (0 < ord i) then p_xid n else wn_xid w)
    (if decide (ord i < total) then slots_of n else wn_edge w).

Lemma unparse_one_ok buf i n : p_nodes p !! i = Some n → total ≤ Z.of_nat (length buf) →
  ∃ w, buf !! cell i = Some w ∧ unparse_one p total total buf n = Ok (<[cell i := written i n w]> buf).
Proof using Htotal Hpos Hr Hnum.
  intros Hn Hbuf. destruct Hnum as (Hrange & _). pose proof (Hrange i (lookup_lt_Some _ _ _ Hn)) as Ho.
  assert (p_order n = ord i) as Hon by (unfold ord, order_of; by rewrite Hn). fold (ord i) in Ho.
  destruct (lookup_lt_is_Some_2 buf (cell i)) as [w Hw]; [unfold cell; case_decide; lia|].
  exists w. split; [done|]. unfold unparse_one. rewrite Hon. unfold cell in *.
  set (index := if decide (ord i = 0) then total - 1 else ord i - 1) in *.
  assert (0 ≤ index < total) as Hidx by (unfold index; case_decide; lia).
  rewrite decide_True by lia. assert (vgetz buf index = Ok w) as -> by (apply vgetz_Ok; split; [lia|done]).
  cbn [mbind res_bind]. unfold written. destruct (decide (ord i < total)).
  - by rewrite (unparse_edges_ok i n Hn).
  - by rewrite decide_True by lia.
Qed.

(** What is in the buffer after the first [k] nodes. *)
Record filled (k : nat) (buf : list xid_node) : Prop := {
  fi_len : total ≤ Z.of_nat (length buf);
  fi_xid i n : (i < k)%nat → p_nodes p !! i = Some n → 0 < ord i →
    wn_xid <$> buf !! cell i = Some (p_xid n);
  fi_edge i n : (i < k)%nat → p_nodes p !! i = Some n → ord i < total →
    wn_edge <$> buf !! cell i = Some (slots_of n) }.

Lemma filled_step k buf n : filled k buf → p_nodes p !! k = Some n →
  ∃ buf', unparse_one p total total buf n = Ok buf' ∧ length buf' = length buf ∧ filled (S k) buf'.
Proof using Htotal Hpos Hr Hnum.
  intros [Hl Hx He] Hn. destruct (unparse_one_ok buf k n Hn Hl) as (w & Hw & ->).
  eexists. split; [done|]. rewrite length_insert. split; [done|].
  assert (cell k < length buf)%nat as Hc by (by eapply lookup_lt_Some).
  destruct Hnum as (Hrange & Hinj & _).
  assert (∀ i m, p_nodes p !! i = Some m → 0 ≤ ord i ≤ total) as Hord.
  { intros i m Hm. pose proof (Hrange i (lookup_lt_Some _ _ _ Hm)). unfold ord. lia. }
  pose proof (Hord k n Hn) as Hok.
  split; [by rewrite length_insert|..]; intros i m Hi Hm Hoi; pose proof (Hord i m Hm) as Hoi'.
  all: destruct (decide (i = k)) as [->|Hne];
    [rewrite Hn in Hm; injection Hm as <-; rewrite list_lookup_insert_eq by done; simpl; by rewrite decide_True|].
  all: assert (ord i ≠ ord k) as Hio by (intros Heq; apply Hne, Hinj;
    [by eapply lookup_lt_Some|by eapply lookup_lt_Some|done]).
  all: destruct (decide (cell i = cell k)) as [Heq|Hck]; [|rewrite list_lookup_insert_ne by done;
    (apply Hx || apply He); (done || lia)].
  all: rewrite Heq, list_lookup_insert_eq by done; simpl; unfold cell in Heq.
  - rewrite decide_False; [|repeat case_decide; lia]. specialize (Hx i m ltac:(lia) Hm Hoi).
    unfold cell in Hx, Hw. rewrite Heq, Hw in Hx. done.
  - rewrite decide_False; [|repeat case_decide; lia]. specialize (He i m ltac:(lia) Hm Hoi).
    unfold cell in He, Hw. rewrite Heq, Hw in He. done.
Qed.

Lemma filled_all buf : total ≤ Z.of_nat (length buf) →
  ∃ buf', foldM (unparse_one p total total) buf (p_nodes p) = Ok buf' ∧ length buf' = length buf ∧
    filled (length (p_nodes p)) buf'.
Proof using Htotal Hpos Hr Hnum.
  intros Hl. assert (∀ k, (k ≤ length (p_nodes p))%nat → ∃ buf',
    foldM (unparse_one p total total) buf (take k (p_nodes p)) = Ok buf' ∧ length buf' = length buf ∧ filled k buf') as Hk.
  { induction k as [|k IH]; intros Hk.
    { exists buf. split_and!; [done..|]. split; [done|..]; intros; lia. }
    destruct IH as (b1 & Hrun & Hl1 & Hf); [lia|].
    destruct (lookup_lt_is_Some_2 (p_nodes p) k) as [n Hn]; [lia|].
    destruct (filled_step k b1 n Hf Hn) as (b2 & Hstep & Hl2 & Hf2).
    exists b2. rewrite (take_S_r _ _ _ Hn), foldM_app, Hrun. cbn [mbind res_bind foldM]. rewrite Hstep.
    split_and!; [done|congruence|done]. }
  destruct (Hk (length (p_nodes p)) (le_n _)) as (b & Hrun & ? & ?). rewrite firstn_all in Hrun. eauto.
Qed.
End unparse.

Lemma slots_of_split p n : (length (p_edges n) ≤ CLICK_XIA_XID_EDGE_NUM)%nat →
  slots_of p n = map (λ e, mkEdge (ord p e - 1) 0) (p_edges n) ++
    replicate (CLICK_XIA_XID_EDGE_NUM - length (p_edges n)) (mkEdge CLICK_XIA_XID_EDGE_UNUSED 0).
Proof.
  unfold slots_of, CLICK_XIA_XID_EDGE_NUM. intros Hl.
  destruct (p_edges n) as [|? [|? [|? [|? [|? ?]]]]]; [reflexivity..|simpl in Hl; lia].
Qed.

Lemma read_slots p n w : (length (p_edges n) ≤ CLICK_XIA_XID_EDGE_NUM)%nat → wn_edge w = slots_of p n →
  Forall (λ e, 1 ≤ ord p e ≤ 127) (p_edges n) →
  read_edges w = map (λ e, Z.to_nat (ord p e - 1)) (p_edges n).
Proof.
  intros Hl Hw Hf. unfold read_edges. rewrite Hw.
  rewrite take_ge by (unfold slots_of; rewrite length_map, length_seq; done).
  rewrite slots_of_split, omap_app by done.
  assert (∀ k, omap (λ e, if decide (e_idx e = CLICK_XIA_XID_EDGE_UNUSED) then None else Some (Z.to_nat (e_idx e)))
    (replicate k (mkEdge CLICK_XIA_XID_EDGE_UNUSED 0)) = []) as -> by (induction k; [done|by simpl]).
  rewrite app_nil_r. clear Hl Hw. induction Hf as [|e es He Hf IH]; [done|].
  cbn -[decide Z.sub]. rewrite decide_False by (unfold CLICK_XIA_XID_EDGE_UNUSED; lia).
  by rewrite IH.
Qed.

Lemma parse_node_lookup ws k w : ws !! k = Some w → (S k < length ws)%nat →
  p_nodes (parse_node ws) !! k = Some (mkPNode (wn_xid w) (read_edges w) npos).
Proof.
  intros Hk Hlt. unfold parse_node. destruct (last (map _ ws)) as [d|] eqn:Hd.
  - cbn [p_nodes]. rewrite removelast_firstn_len, length_map, lookup_app_l, lookup_take_lt, list_lookup_fmap, Hk;
      [done|lia|rewrite length_take, length_map; lia].
  - apply last_None in Hd. destruct ws; [done|]. done.
Qed.

Lemma parse_node_ends ws k w : ws !! k = Some w → S k = length ws →
  p_nodes (parse_node ws) !! k = Some (mkPNode (wn_xid w) [] npos) ∧
  p_nodes (parse_node ws) !! S k = Some (mkPNode Xid_undef (read_edges w) npos) ∧
  p_src (parse_node ws) = Z.of_nat (S k) ∧ p_dst (parse_node ws) = Z.of_nat k.
Proof.
  intros Hk Hlen. unfold parse_node.
  assert (last (map (λ w, mkPNode (wn_xid w) (read_edges w) npos) ws) = Some (mkPNode (wn_xid w) (read_edges w) npos)) as ->.
  { rewrite last_lookup, length_map, <-Hlen. simpl. by rewrite list_lookup_fmap, Hk. }
  cbn [p_nodes p_src p_dst p_xid p_edges p_order].
  assert (length (removelast (map (λ w, mkPNode (wn_xid w) (read_edges w) npos) ws)) = k) as Hl.
  { rewrite removelast_firstn_len, length_take, length_map. lia. }
  rewrite !lookup_app_r, Hl, Nat.sub_diag by lia. replace (S k - k)%nat with 1%nat by lia.
  rewrite <-Hlen. split_and!; try done. lia.
Qed.

(** Where node [i] of a written path is found when it is read back. *)
Definition read_index (p : XIAPath) (i : nat) : nat :=
  if decide (ord p i = 0) then (length (p_nodes p) - 1)%nat else Z.to_nat (ord p i - 1).

Lemma same_graph_pedge ns ns' i j : same_graph ns ns' → pedge ns' i j ↔ pedge ns i j.
Proof. intros H. rewrite !pedge_edges_of. by rewrite (same_graph_edges ns ns' i H). Qed.

Lemma numbered_same ns ns' : same_graph ns ns' → numbered ns ns' → numbered ns' ns'.
Proof.
  intros Hs (Hr & Hi & He). pose proof Hs as [Hl _]. unfold numbered. rewrite Hl.
  split_and!; try done. intros i j Hij. apply He. by apply (same_graph_pedge ns ns' i j Hs).
Qed.

(** What reading the filled buffer gives, for each node. *)
Section read_back.
Context (p : XIAPath) (total : Z) (buf : list xid_node).
Context (Htotal : total = Z.of_nat (length (p_nodes p)) - 1) (Hpos : 0 < total ≤ 127).
Context (Hr : in_range (p_nodes p)).
Context (Hnum : numbered (p_nodes p) (p_nodes p)).
Context (Hout : ∀ i n, p_nodes p !! i = Some n → (length (p_edges n) ≤ CLICK_XIA_XID_EDGE_NUM)%nat).
Context (Hf : filled p total (length (p_nodes p)) buf).

Let q := parse_node (take (Z.to_nat total) buf).

Lemma ord_bounds i n : p_nodes p !! i = Some n → 0 ≤ ord p i ≤ total.
Proof using Htotal Hnum.
  intros Hn. destruct Hnum as (Hrange & _). pose proof (Hrange i (lookup_lt_Some _ _ _ Hn)).
  unfold ord. lia.
Qed.

Lemma read_cell_edges i n w : p_nodes p !! i = Some n → ord p i < total →
  buf !! cell p total i = Some w → read_edges w = map (read_index p) (p_edges n).
Proof using Htotal Hpos Hr Hnum Hout Hf.
  intros Hn Ho Hw. pose proof (fi_edge _ _ _ _ Hf i n (lookup_lt_Some _ _ _ Hn) Hn Ho) as He.
  rewrite Hw in He. injection He as He.
  assert (Forall (λ e, 1 ≤ ord p e ≤ 127) (p_edges n)) as Hes.
  { apply Forall_forall. intros e He'.
    destruct (successor_order p total Htotal Hr Hnum i n e Hn He') as (_ & _ & _ & Hb). lia. }
  rewrite (read_slots p n w) by eauto. apply map_ext_in. intros e He'%list_elem_of_In.
  rewrite Forall_forall in Hes. specialize (Hes e He'). unfold read_index. by rewrite decide_False by lia.
Qed.

Lemma cell_taken i n : p_nodes p !! i = Some n →
  ∃ w, buf !! cell p total i = Some w ∧ take (Z.to_nat total) buf !! cell p total i = Some w ∧
    (cell p total i < Z.to_nat total)%nat ∧ (0 < ord p i → wn_xid w = p_xid n).
Proof using Htotal Hpos Hnum Hf.
  intros Hn. pose proof (ord_bounds i n Hn). pose proof (fi_len _ _ _ _ Hf).
  assert (cell p total i < Z.to_nat total)%nat as Hc by (unfold cell; case_decide; lia).
  destruct (lookup_lt_is_Some_2 buf (cell p total i)) as [w Hw]; [lia|]. exists w.
  split_and!; [done|by rewrite lookup_take_lt|done|]. intros Ho.
  pose proof (fi_xid _ _ _ _ Hf i n (lookup_lt_Some _ _ _ Hn) Hn Ho) as Hx. rewrite Hw in Hx.
  by injection Hx.
Qed.

Lemma length_taken : length (take (Z.to_nat total) buf) = Z.to_nat total.
Proof using Hf Hpos. pose proof (fi_len _ _ _ _ Hf). rewrite length_take. lia. Qed.

Lemma read_back_node i n : p_nodes p !! i = Some n → (ord p i = total → p_edges n = []) →
  p_nodes q !! read_index p i =
    Some (mkPNode (if decide (ord p i = 0) then Xid_undef else p_xid n) (map (read_index p) (p_edges n)) npos).
Proof using Htotal Hpos Hr Hnum Hout Hf.
  intros Hn Hlast. destruct (cell_taken i n Hn) as (w & Hw & Ht & Hc & Hx). pose proof (ord_bounds i n Hn).
  pose proof length_taken as Hl. unfold q, read_index at 1. destruct (decide (ord p i = 0)) as [H0|H0].
  - replace (length (p_nodes p) - 1)%nat with (S (cell p total i)) by (unfold cell; rewrite decide_True by done; lia).
    destruct (parse_node_ends _ _ _ Ht) as (_ & -> & _); [unfold cell in *; rewrite decide_True in * by done; lia|].
    by rewrite (read_cell_edges i n w) by (done || lia).
  - assert (cell p total i = Z.to_nat (ord p i - 1)) as Hce by (unfold cell; by rewrite decide_False by done).
    rewrite <-Hce, <-Hx by lia. destruct (decide (ord p i = total)) as [Heq|Hne].
    + destruct (parse_node_ends _ _ _ Ht) as (-> & _); [lia|]. by rewrite Hlast.
    + rewrite (parse_node_lookup _ _ _ Ht) by lia. by rewrite (read_cell_edges i n w) by (done || lia).
Qed.

Lemma read_back_ends : p_src q = total ∧ p_dst q = total - 1.
Proof using Hpos Hf.
  pose proof length_taken as Hl. unfold q.
  destruct (lookup_lt_is_Some_2 (take (Z.to_nat total) buf) (Z.to_nat total - 1)) as [w Hw]; [lia|].
  destruct (parse_node_ends _ _ _ Hw) as (_ & _ & -> & ->); lia.
Qed.
End read_back.

(** What each cell of the filled buffer holds: the XID of the node numbered
    after it, and the slots of some node. *)
Section cells.
Context (p : XIAPath) (total : Z) (buf : list xid_node).
Context (Htotal : total = Z.of_nat (length (p_nodes p)) - 1) (Hpos : 0 < total ≤ 127).
Context (Hnum : numbered (p_nodes p) (p_nodes p)).
Context (Hf : filled p total (length (p_nodes p)) buf).

Lemma order_owner o : 0 ≤ o ≤ total → ∃ i n, p_nodes p !! i = Some n ∧ ord p i = o.
Proof using Htotal Hnum.
  intros Ho. destruct (numbered_surj _ _ o Hnum) as (i & Hi & Hio); [lia|].
  destruct (lookup_lt_is_Some_2 _ i Hi) as [n Hn]. eauto.
Qed.

Lemma cell_shape k w : (k < Z.to_nat total)%nat → buf !! k = Some w →
  ∃ i n j m, p_nodes p !! i = Some n ∧ ord p i = Z.of_nat k + 1 ∧ p_nodes p !! j = Some m ∧
    wn_xid w = p_xid n ∧ wn_edge w = slots_of p m.
Proof using All.
  intros Hk Hw. destruct (order_owner (Z.of_nat k + 1)) as (i & n & Hn & Ho); [lia|].
  assert (∀ j m, p_nodes p !! j = Some m → ord p j < total → cell p total j = k → wn_edge w = slots_of p m) as Hedge.
  { intros j m Hm Hj Hc. pose proof (fi_edge _ _ _ _ Hf j m (lookup_lt_Some _ _ _ Hm) Hm Hj) as He.
    rewrite Hc, Hw in He. by injection He. }
  assert (cell p total i = k) as Hc by (unfold cell; rewrite Ho, decide_False by lia; lia).
  pose proof (fi_xid _ _ _ _ Hf i n (lookup_lt_Some _ _ _ Hn) Hn ltac:(lia)) as Hx. rewrite Hc, Hw in Hx.
  injection Hx as Hx. destruct (decide (Z.of_nat k + 1 = total)) as [Heq|Hne].
  - destruct (order_owner 0) as (j & m & Hm & Hj); [lia|]. exists i, n, j, m. split_and!; try done.
    apply (Hedge j m Hm); [lia|]. unfold cell. rewrite Hj, decide_True by done. lia.
  - exists i, n, i, n. split_and!; try done. apply (Hedge i n Hn); [lia|done].
Qed.
End cells.

(** Ordering a valid path. *)
Lemma valid_ordered p : in_range (p_nodes p) → 0 ≤ p_src p → 0 ≤ p_dst p → path_valid p →
  ∃ p', topological_ordering p = Ok (p', true) ∧ same_graph (p_nodes p) (p_nodes p') ∧
    in_range (p_nodes p') ∧ numbered (p_nodes p') (p_nodes p') ∧
    (∀ i nd, p_nodes p' !! i = Some nd → (length (p_edges nd) ≤ CLICK_XIA_XID_EDGE_NUM)%nat) ∧
    ord p' (Z.to_nat (p_src p)) = 0 ∧ ord p' (Z.to_nat (p_dst p)) = Z.of_nat (length (p_nodes p)) - 1.
Proof.
  intros Hr Hs Hd Hv.
  destruct (topological_ok p Hr) as (p' & b & Htop & Hsame & Hsrc & Hdst & Hb & Hnum).
  assert (b = true) as -> by (apply Hb, (pv_acyclic p Hv)). specialize (Hnum eq_refl).
  pose proof Hsame as [Hlen Hnodes]. exists p'. split_and!; try done.
  - intros i j Hij. rewrite Hlen. by apply (Hr i), (same_graph_pedge _ _ _ _ Hsame).
  - by apply (numbered_same (p_nodes p)).
  - intros i nd Hnd. destruct (lookup_lt_is_Some_2 (p_nodes p) i) as [m Hm];
      [rewrite <-Hlen; by eapply lookup_lt_Some|].
    destruct (Hnodes i m Hm) as (nd' & Hnd' & _ & He). assert (nd = nd') as -> by congruence.
    rewrite He. apply (pv_out p Hv i m Hm).
  - apply (valid_ends p (p_nodes p') Hr Hv Hnum Hs Hd).
  - apply (valid_ends p (p_nodes p') Hr Hv Hnum Hs Hd).
Qed.

Lemma last_no_edges p i n : in_range (p_nodes p) → numbered (p_nodes p) (p_nodes p) →
  p_nodes p !! i = Some n → ord p i = Z.of_nat (length (p_nodes p)) - 1 → p_edges n = [].
Proof.
  intros Hr (Hrange & _ & Hinc) Hn Ho. apply elem_of_nil_inv. intros j Hj.
  assert (pedge (p_nodes p) i j) as Hij by (by exists n).
  specialize (Hinc i j Hij). specialize (Hrange j (Hr i j Hij)). unfold ord in Ho. lia.
Qed.

(** [q] is the path [p] with its nodes renumbered by the orders [p'] has, and
    a blank source. *)
Record same_path (p p' q : XIAPath) : Prop := {
  sp_len : length (p_nodes q) = length (p_nodes p);
  sp_inj i j : (i < length (p_nodes p))%nat → (j < length (p_nodes p))%nat →
    read_index p' i = read_index p' j → i = j;
  sp_src : p_src q = Z.of_nat (read_index p' (Z.to_nat (p_src p)));
  sp_dst : p_dst q = Z.of_nat (read_index p' (Z.to_nat (p_dst p)));
  sp_node i nd : p_nodes p !! i = Some nd →
    p_nodes q !! read_index p' i = Some (mkPNode (if decide (Z.of_nat i = p_src p) then Xid_undef else p_xid nd)
      (map (read_index p') (p_edges nd)) npos) }.

Lemma length_parse_node ws : ws ≠ [] → length (p_nodes (parse_node ws)) = S (length ws).
Proof.
  intros Hne. unfold parse_node. destruct (last (map _ ws)) as [d|] eqn:Hd.
  - cbn [p_nodes]. rewrite length_app, removelast_firstn_len, length_take, length_map. simpl.
    destruct ws; [done|simpl; lia].
  - apply last_None in Hd. by destruct ws.
Qed.

Lemma read_index_inj p i j : numbered (p_nodes p) (p_nodes p) →
  (i < length (p_nodes p))%nat → (j < length (p_nodes p))%nat → read_index p i = read_index p j → i = j.
Proof.
  intros (Hr & Hinj & _) Hi Hj H. apply Hinj; [done..|]. pose proof (Hr i Hi). pose proof (Hr j Hj).
  unfold read_index, ord in H. repeat case_decide; lia.
Qed.

Lemma roundtrip_ok p buf : in_range (p_nodes p) → 0 ≤ p_src p → 0 ≤ p_dst p → path_valid p →
  let n := length (p_nodes p) in
  (n ≤ 128)%nat → (n - 1 ≤ length buf)%nat →
  ∃ p' buf', unparse_node p buf (Z.of_nat (n - 1)) = Ok (p', buf', Z.of_nat (n - 1)) ∧
    same_graph (p_nodes p) (p_nodes p') ∧ in_range (p_nodes p') ∧ numbered (p_nodes p') (p_nodes p') ∧
    ord p' (Z.to_nat (p_src p)) = 0 ∧
    length buf' = length buf ∧ filled p' (Z.of_nat (n - 1)) n buf' ∧
    same_path p p' (parse_node (take (n - 1) buf')).
Proof.
  intros Hr Hs Hd Hv n Hn Hbuf.
  destruct (valid_ordered p Hr Hs Hd Hv) as (p' & Htop & [Hlen Hnodes] & Hr' & Hnum & Hout & Hos & Hod).
  pose proof (pv_src p Hv). pose proof (pv_dst p Hv). pose proof (pv_ne p Hv).
  destruct (filled_all p' (Z.of_nat (n - 1)) ltac:(lia) ltac:(lia) Hr' Hnum buf ltac:(lia)) as (buf' & Hrun & Hlb & Hf).
  rewrite Hlen in Hf. exists p', buf'. split; [|do 6 (split; [done|])].
  { assert (unparse_node_size p' = Z.of_nat (n - 1)) as Hsize by (unfold unparse_node_size; case_decide; lia).
    unfold unparse_node. rewrite Htop. cbn [mbind res_bind fst snd].
    rewrite Hsize, Z.min_id, decide_False by lia. by rewrite Hrun. }
  rewrite <-Hlen in Hf.
  destruct (read_back_ends p' (Z.of_nat (n - 1)) buf' ltac:(lia) Hf) as [Hqs Hqd]. rewrite Nat2Z.id in Hqs, Hqd.
  split.
  - rewrite length_parse_node; [rewrite length_take; lia|]. destruct buf'; [simpl in Hlb; lia|].
    replace (n - 1)%nat with (S (n - 2)) by lia. done.
  - intros i j. rewrite <-Hlen. by apply read_index_inj.
  - rewrite Hqs. unfold read_index. rewrite Hos, decide_True by lia. lia.
  - rewrite Hqd. unfold read_index. rewrite Hod, decide_False by lia. lia.
  - intros i nd Hi. destruct (Hnodes i nd Hi) as (nd' & Hi' & Hx & He).
    pose proof (read_back_node p' (Z.of_nat (n - 1)) buf' ltac:(lia) ltac:(lia) Hr' Hnum Hout Hf i nd' Hi') as Hq.
    rewrite Nat2Z.id in Hq. rewrite Hq, Hx, He.
    + f_equal. f_equal. apply decide_ext. split; [|intros His; by rewrite <-His, Nat2Z.id in Hos].
      intros Hz. destruct Hnum as (_ & Hinj & _). apply lookup_lt_Some in Hi'.
      rewrite (Hinj i (Z.to_nat (p_src p))); [lia|done|lia|]. unfold ord in *. congruence.
    + intros Ho. apply (last_no_edges p' i nd' Hr' Hnum Hi'). lia.
Qed.

(** C37: a valid path of at most 128 nodes, written in the header format and
    read back, is the same path up to renumbering: every node is found again
    with its XID (the source's is blank) and its edges in order, no two nodes
    are confused, and the source and destination are where they belong. *)
Theorem path_roundtrip p buf : in_range (p_nodes p) → 0 ≤ p_src p → 0 ≤ p_dst p → path_valid p →
  let n := length (p_nodes p) in
  (n ≤ 128)%nat → (n - 1 ≤ length buf)%nat →
  ∃ p' buf', unparse_node p buf (Z.of_nat (n - 1)) = Ok (p', buf', Z.of_nat (n - 1)) ∧
    same_graph (p_nodes p) (p_nodes p') ∧ same_path p p' (parse_node (take (n - 1) buf')).
Proof.
  intros Hr Hs Hd Hv n Hn Hbuf.
  destruct (roundtrip_ok p buf Hr Hs Hd Hv Hn Hbuf) as (p' & buf' & ? & ? & _ & _ & _ & _ & _ & ?). eauto 6.
Qed.

Lemma path_roundtrip_witness : ∃ p' buf',
  unparse_node demo_path (replicate 2 (mkXidNode Xid_undef [])) 2 = Ok (p', buf', 2) ∧
  same_path demo_path p' (parse_node (take 2 buf')).
Proof.
  destruct (path_roundtrip demo_path (replicate 2 (mkXidNode Xid_undef [])) demo_in_range)
    as (p' & buf' & Hrun & _ & Hq); [try apply demo_valid; simpl; lia..|].
  exists p', buf'. split; [exact Hrun|exact Hq].
Defined.
