(* ===== verification/XidText.v ===== *)
(** * XidText: XIDs as text (lib/xid.cc and cp_xid of lib/confparse.cc)

    The type word of an XID is kept as it lies in memory, in network byte
    order, on a little-endian machine.  The router's name tables, which
    [cp_xid] and [IPAddressArg::parse] consult, are arguments. *)

From Stdlib Require Import ZArith Lia Ascii String.
From stdpp Require Import base gmap sets list.
From S2P Require Import Prelude Text ConfParse XiaPath.

Local Open Scope Z_scope.

Definition htonl (z : Z) : Z := of_le_bytes (rev (le_bytes 4 z)).

Definition CLICK_XIA_XID_TYPE_UNDEF : Z := 0.
Definition CLICK_XIA_XID_TYPE_AD : Z := 16.
Definition CLICK_XIA_XID_TYPE_HID : Z := 17.
Definition CLICK_XIA_XID_TYPE_CID : Z := 18.
Definition CLICK_XIA_XID_TYPE_SID : Z := 19.
Definition CLICK_XIA_XID_TYPE_IP : Z := 20.

(** ** Printing *)

(** ["%x"] of an unsigned int: eight digits are enough. *)
Fixpoint print_hex_digits (fuel : nat) (n : Z) (acc : str) : str :=
  match fuel with
  | O => acc
  | S fuel =>
      let acc := digit (n mod 16) :: acc in
      if decide (n / 16 = 0) then acc else print_hex_digits fuel (n / 16) acc
  end.

Definition print_x (n : Z) : str := print_hex_digits 8 n [].

Definition xid_type_string (t : Z) : str :=
  let h := htonl t in
  if decide (h = CLICK_XIA_XID_TYPE_UNDEF) then lit "UNDEF"
  else if decide (h = CLICK_XIA_XID_TYPE_AD) then lit "AD"
  else if decide (h = CLICK_XIA_XID_TYPE_HID) then lit "HID"
  else if decide (h = CLICK_XIA_XID_TYPE_CID) then lit "CID"
  else if decide (h = CLICK_XIA_XID_TYPE_SID) then lit "SID"
  else if decide (h = CLICK_XIA_XID_TYPE_IP) then lit "IP"
  else print_x t.

(** The text is written into [char buf[48]], with a final zero byte. *)
Definition xid_unparse (x : Xid) : res str :=
  let s := xid_type_string (xid_type x) ++ ":"%char :: (xid_id x ≫= print_02x) in
  if decide (length s < 48)%nat then Ok s else Ub OutOfBounds.

Definition xid_valid (x : Xid) : bool := bool_decide (htonl (xid_type x) ≠ CLICK_XIA_XID_TYPE_UNDEF).

(** ** Parsing *)

Definition cp_xid_type (s : str) : option Z :=
  if decide (s = lit "UNDEF") then Some (htonl CLICK_XIA_XID_TYPE_UNDEF)
  else if decide (s = lit "AD") then Some (htonl CLICK_XIA_XID_TYPE_AD)
  else if decide (s = lit "CID") then Some (htonl CLICK_XIA_XID_TYPE_CID)
  else if decide (s = lit "HID") then Some (htonl CLICK_XIA_XID_TYPE_HID)
  else if decide (s = lit "SID") then Some (htonl CLICK_XIA_XID_TYPE_SID)
  else if decide (s = lit "IP") then Some (htonl CLICK_XIA_XID_TYPE_IP)
  else cp_integer s false.

Definition xvalue (c : ascii) : option Z :=
  if decide (48 ≤ code c ≤ 57) then Some (code c - 48)
  else if decide (65 ≤ code c ≤ 70) then Some (code c - 55)
  else if decide (97 ≤ code c ≤ 102) then Some (code c - 87)
  else None.

(** The hexadecimal loop: a pair that is not two digits gives a zero and is
    not skipped. *)
Fixpoint read_id (n : nat) (s : str) : list Z :=
  match n with
  | O => []
  | S n =>
      match s with
      | a :: b :: s' =>
          match xvalue a, xvalue b with
          | Some x, Some y => (x * 16 + y) :: read_id n s'
          | _, _ => 0 :: read_id n s
          end
      | _ => 0 :: read_id n s
      end
  end.

(** The digits of one part of a dotted address: [part] so far. *)
Fixpoint ip_part (part : Z) (s : str) : Z * str :=
  match s with
  | c :: s' =>
      if decide (48 ≤ code c ≤ 57 ∧ part ≤ 255) then ip_part (part * 10 + (code c - 48)) s' else (part, s)
  | [] => (part, s)
  end.

(** [IPAddressArg::basic_parse]: the parts read and the rest. *)
Fixpoint ip_basic_parse (n : nat) (first : bool) (s : str) : list Z * str :=
  match n with
  | O => ([], s)
  | S n =>
      let t := if first then Some s
               else match s with c :: t => if decide (c = "."%char) then Some t else None | [] => None end in
      match t with
      | Some (c :: t) =>
          if decide (48 ≤ code c ≤ 57) then
            let '(part, t) := ip_part (code c - 48) t in
            if decide (255 < part) then ([], s)
            else let '(ps, r) := ip_basic_parse n false t in (part :: ps, r)
          else ([], s)
      | _ => ([], s)
      end
  end.

Section names.
(** [XIAXIDInfo::query_xid] and [AddressInfo::query_ip] of the router. *)
Variable query_xid : str → option Xid.
Variable query_ip : str → option (list Z).

Definition IPAddressArg_parse (s : str) : option (list Z) :=
  let '(ps, r) := ip_basic_parse 4 true s in
  if decide (length ps = 4%nat ∧ r = []) then Some ps else query_ip s.

Definition fourid_bytes (ip : list Z) : list Z :=
  [69; 0; 0; 0; 0; 1; 0; 0; 250; 250; 0; 0; 0; 0; 0; 0] ++ ip.

Definition cp_xid (s : str) : option Xid :=
  match query_xid s with
  | Some x => Some x
  | None =>
      match list_find (λ c, c = ":"%char) s with
      | None => None
      | Some (delim, _) =>
          let xid_str := drop (S delim) s in
          match cp_xid_type (take delim s) with
          | None => None
          | Some t =>
              let ip := if decide (t = htonl CLICK_XIA_XID_TYPE_IP) then IPAddressArg_parse xid_str else None in
              match ip with
              | Some ip => Some (mkXid t (fourid_bytes ip))
              | None => Some (mkXid t (read_id 20 xid_str))
              end
          end
      end
  end.
End names.

(** ** Lemmas *)

Lemma htonl_known : Forall (λ t, htonl (htonl t) = t) [0; 16; 17; 18; 19; 20].
Proof. repeat constructor. Qed.

Lemma htonl_involutive t : 0 ≤ t < 2 ^ 32 → htonl (htonl t) = t.
Proof.
  intros Ht. unfold htonl. assert (length (rev (le_bytes 4 t)) = 4%nat) as Hl
    by (by rewrite length_rev, length_le_bytes).
  rewrite <-Hl at 1. rewrite le_bytes_of_le_bytes by apply Forall_rev, le_bytes_are_bytes.
  rewrite rev_involutive. apply of_le_bytes_le_bytes. simpl. lia.
Qed.

(** The type words with a name. *)
Definition known_word (t : Z) : Prop := t ∈ map htonl [0; 16; 17; 18; 19; 20].

#[global] Instance known_word_dec t : Decision (known_word t).
Proof. unfold known_word. apply _. Defined.

Lemma known_word_parse t : known_word t →
  cp_xid_type (xid_type_string t) = Some t ∧ (length (xid_type_string t) ≤ 5)%nat ∧
  ":"%char ∉ xid_type_string t.
Proof.
  assert (Forall (λ t, cp_xid_type (xid_type_string t) = Some t ∧ (length (xid_type_string t) ≤ 5)%nat ∧
    ":"%char ∉ xid_type_string t) (map htonl [0; 16; 17; 18; 19; 20])) as H.
  { assert (bool_decide (Forall (λ t, cp_xid_type (xid_type_string t) = Some t ∧
      (length (xid_type_string t) ≤ 5)%nat ∧ ":"%char ∉ xid_type_string t)
      (map htonl [0; 16; 17; 18; 19; 20])) = true) as Hb by (vm_compute; reflexivity).
    by apply bool_decide_eq_true in Hb. }
  rewrite Forall_forall in H. apply H.
Qed.

Lemma xvalue_digit d : 0 ≤ d < 16 → xvalue (digit d) = Some d.
Proof.
  intros Hd. unfold xvalue. assert (code (digit d) = if decide (d < 10) then 48 + d else 87 + d) as ->.
  { unfold digit. apply code_chr. case_decide; lia. }
  repeat (case_decide; try lia); f_equal; lia.
Qed.

Lemma read_id_print id : Forall is_byte id → read_id (length id) (id ≫= print_02x) = id.
Proof.
  induction 1 as [|b id Hb Hf IH]; [done|]. rewrite bind_cons. cbn [length read_id print_02x app]. unfold is_byte in Hb. pose proof (Z.mod_pos_bound b 16 ltac:(lia)).
  pose proof (Z.div_mod b 16 ltac:(lia)). rewrite !xvalue_digit by lia.
  f_equal; [lia|exact IH].
Qed.

Lemma length_hex id : length (id ≫= print_02x) = (2 * length id)%nat.
Proof. induction id as [|b id IH]; [done|]. rewrite bind_cons, length_app, IH. cbn [length print_02x]. lia. Qed.

Lemma hex_chars id : Forall is_byte id → Forall (λ c, 48 ≤ code c ≤ 57 ∨ 97 ≤ code c ≤ 102) (id ≫= print_02x).
Proof.
  induction 1 as [|b id Hb Hf IH]; [constructor|]. rewrite bind_cons. apply Forall_app_2; [|done].
  by apply print_02x_plain.
Qed.

(** Text without a dot is not a dotted address. *)
Lemma ip_part_suffix part s : ∃ p, s = p ++ (ip_part part s).2.
Proof.
  revert part. induction s as [|c s IH]; intros part; [by exists []|]. cbn [ip_part].
  case_decide; [|by exists []]. destruct (IH (part * 10 + (code c - 48))) as [p Hp]. exists (c :: p).
  by rewrite Hp at 1.
Qed.

Lemma ip_no_dot n s : "."%char ∉ s → (length (ip_basic_parse n true s).1 ≤ 1)%nat.
Proof.
  intros Hs. destruct n as [|n]; [simpl; lia|]. cbn [ip_basic_parse]. destruct s as [|c s]; [simpl; lia|].
  case_decide; [|simpl; lia]. destruct (ip_part_suffix (code c - 48) s) as [p Hp].
  destruct (ip_part _ s) as [part t]. simpl in Hp. case_decide; [simpl; lia|].
  destruct n as [|n]; [simpl; lia|]. cbn [ip_basic_parse]. destruct t as [|d t]; [simpl; lia|].
  rewrite decide_False; [simpl; lia|]. intros ->. apply Hs. rewrite Hp. set_solver.
Qed.

Lemma code_not_in c (s : str) (P : Z → Prop) : Forall (λ c, P (code c)) s → ¬ P (code c) → c ∉ s.
Proof. intros Hs Hc Hin. rewrite Forall_forall in Hs. by apply Hc, Hs. Qed.

Lemma xid_unparse_known x : known_word (xid_type x) → length (xid_id x) = 20%nat →
  xid_unparse x = Ok (xid_type_string (xid_type x) ++ ":"%char :: (xid_id x ≫= print_02x)).
Proof.
  intros Hk Hl. destruct (known_word_parse _ Hk) as (_ & Hlen & _). unfold xid_unparse.
  rewrite decide_True; [done|]. rewrite length_app. cbn [length]. rewrite length_hex. lia.
Qed.

Lemma find_colon a s : ":"%char ∉ a → list_find (λ c, c = ":"%char) (a ++ ":"%char :: s) = Some (length a, ":"%char).
Proof.
  intros Ha. apply list_find_Some. split_and!; [by rewrite list_lookup_middle|done|].
  intros j y Hy Hj ->. rewrite lookup_app_l in Hy by done. by apply Ha, (list_elem_of_lookup_2 _ j).
Qed.

Lemma cp_xid_print qx qi x : known_word (xid_type x) → length (xid_id x) = 20%nat → Forall is_byte (xid_id x) →
  let s := xid_type_string (xid_type x) ++ ":"%char :: (xid_id x ≫= print_02x) in
  qx s = None → (xid_type x = htonl CLICK_XIA_XID_TYPE_IP → qi (xid_id x ≫= print_02x) = None) →
  cp_xid qx qi s = Some x.
Proof.
  intros Hk Hl Hb s Hq Hi. destruct (known_word_parse _ Hk) as (Hp & _ & Hc). unfold cp_xid. rewrite Hq.
  unfold s. rewrite find_colon by done. rewrite take_app_length, Hp.
  replace (drop (S (length (xid_type_string (xid_type x)))) _) with (xid_id x ≫= print_02x)
    by (rewrite <-Nat.add_1_r, drop_app_add; done).
  destruct x as [t id]. cbn [xid_type xid_id] in *. rewrite <-Hl, read_id_print by done.
  case_decide as Ht; [|done]. unfold IPAddressArg_parse.
  pose proof (ip_no_dot 4 (id ≫= print_02x)) as Hd. destruct (ip_basic_parse 4 true _) as [ps r].
  rewrite decide_False, Hi; [done|done|]. intros [Hps _]. simpl in Hd. rewrite Hps in Hd.
  assert (4 ≤ 1)%nat; [|lia]. apply Hd. apply (code_not_in _ _ (λ z, 48 ≤ z ≤ 57 ∨ 97 ≤ z ≤ 102)); [by apply hex_chars|].
  change (code "."%char) with 46. lia.
Qed.

Lemma print_hex_longer fuel n acc : (length acc + Nat.min 1 fuel ≤ length (print_hex_digits fuel n acc))%nat.
Proof.
  revert n acc. induction fuel as [|fuel IH]; intros n acc; simpl; [lia|].
  case_decide; [simpl; lia|]. specialize (IH (n / 16) (digit (n mod 16) :: acc)). simpl in IH. lia.
Qed.

Lemma length_print_hex fuel k n acc : (k < fuel)%nat → 0 ≤ n < 16 ^ Z.of_nat fuel →
  (length (print_hex_digits fuel n acc) ≤ k + S (length acc))%nat ↔ n < 16 ^ (Z.of_nat k + 1).
Proof.
  revert k n acc. induction fuel as [|fuel IH]; intros k n acc Hk Hn; [lia|]. cbn [print_hex_digits].
  rewrite Nat2Z.inj_succ, Z.pow_succ_r in Hn by lia. pose proof (Z.div_mod n 16 ltac:(lia)) as Hdm.
  pose proof (Z.mod_pos_bound n 16 ltac:(lia)). rewrite Z.pow_add_r, Z.pow_1_r by lia. case_decide as Hd.
  - cbn [length]. split; [intros _|intros; lia]. pose proof (Z.pow_pos_nonneg 16 (Z.of_nat k)). lia.
  - pose proof (Z.div_pos n 16). assert (n / 16 < 16 ^ Z.of_nat fuel) by (apply Z.div_lt_upper_bound; lia).
    destruct fuel as [|fuel]; [simpl in *; lia|]. destruct k as [|k].
    + pose proof (print_hex_longer (S fuel) (n / 16) (digit (n mod 16) :: acc)) as Hl.
      set (s := print_hex_digits _ _ _) in *. cbn [length] in Hl. split; intros; exfalso; [lia|].
      change (16 ^ Z.of_nat 0) with 1 in *. lia.
    + pose proof (IH k (n / 16) (digit (n mod 16) :: acc) ltac:(lia) ltac:(lia)) as Hk'. cbn [length] in Hk'.
      replace (S k + S (length acc))%nat with (k + S (S (length acc)))%nat by lia. rewrite Hk'.
      rewrite Nat2Z.inj_succ, <-Z.add_1_r, !Z.pow_add_r, !Z.pow_1_r by lia. lia.
Qed.

(** a printed XID is read back as the same XID if no name is defined for the
    text. *)
Theorem xid_roundtrip qx qi x : known_word (xid_type x) → length (xid_id x) = 20%nat → Forall is_byte (xid_id x) →
  (∀ s, qx s = None) → (∀ s, qi s = None) → ∃ s, xid_unparse x = Ok s ∧ cp_xid qx qi s = Some x.
Proof.
  intros Hk Hl Hb Hx Hi. eexists. split; [by apply xid_unparse_known|]. by apply cp_xid_print.
Qed.

Lemma xid_roundtrip_witness : ∃ s, xid_unparse (mkXid (htonl 16) (replicate 20 171)) = Ok s ∧
  cp_xid (λ _, None) (λ _, None) s = Some (mkXid (htonl 16) (replicate 20 171)).
Proof.
  apply xid_roundtrip; [by (apply (bool_decide_unpack _); vm_compute)|done| |done|done].
  apply Forall_replicate. unfold is_byte. lia.
Defined.

Lemma unknown_word_print t : ¬ known_word t → 0 ≤ t < 2 ^ 32 → xid_type_string t = print_x t.
Proof.
  intros Hk Ht. unfold xid_type_string, CLICK_XIA_XID_TYPE_UNDEF, CLICK_XIA_XID_TYPE_AD,
    CLICK_XIA_XID_TYPE_HID, CLICK_XIA_XID_TYPE_CID, CLICK_XIA_XID_TYPE_SID, CLICK_XIA_XID_TYPE_IP.
  repeat (rewrite decide_False; [|intros Heq; apply Hk; rewrite <-(htonl_involutive t Ht), Heq; set_solver]).
  done.
Qed.

(** an XID of a type without a name fits the print buffer of 48 bytes only when
    its type word is below [2^24].  The word is in network byte order, so
    that every small type number that has no name overflows the buffer. *)
Theorem xid_unparse_unknown x : ¬ known_word (xid_type x) → length (xid_id x) = 20%nat → 0 ≤ xid_type x < 2 ^ 32 →
  (xid_type x < 2 ^ 24 → is_ok (xid_unparse x)) ∧
  (2 ^ 24 ≤ xid_type x → xid_unparse x = Ub OutOfBounds).
Proof.
  intros Hk Hl Ht. unfold xid_unparse. rewrite unknown_word_print, length_app by done. cbn [length].
  rewrite length_hex. pose proof (length_print_hex 8 5 (xid_type x) [] ltac:(lia) ltac:(simpl; lia)) as H6.
  fold (print_x (xid_type x)) in H6. change (16 ^ (Z.of_nat 5 + 1)) with (2 ^ 24) in H6. cbn [length] in H6.
  split; intros H.
  - rewrite decide_True; [eexists; done|]. apply H6 in H. lia.
  - rewrite decide_False; [done|]. intros Hlt. assert (xid_type x < 2 ^ 24); [apply H6; lia|lia].
Qed.

Lemma xid_unparse_unknown_witness : xid_unparse (mkXid (htonl 21) (replicate 20 0)) = Ub OutOfBounds.
Proof.
  apply (xid_unparse_unknown (mkXid (htonl 21) (replicate 20 0))).
  - cbn [xid_type]. intros H. apply (bool_decide_pack _) in H. by vm_compute in H.
  - done.
  - vm_compute. split; congruence.
  - vm_compute. congruence.
Defined.
