(* ===== verification/XiaPathText.v ===== *)
(** * XiaPathText: the text formats of paths (lib/xiapath.cc)

    [parse] and [unparse] of the class XIAPath, for the DAG and the RE format.
    Scanning an item shortens the string and a valid path has no cycle, so the
    length of the string and the number of nodes bound the loops. *)

From Stdlib Require Import ZArith Lia Ascii String.
From stdpp Require Import base gmap sets list relations.
From S2P Require Import Prelude Text ConfParse XiaPath XiaPathOrder XiaPathCodec XidText.

Local Open Scope Z_scope.

(** ** Parsing *)

(** How the scan of one row of edges ended. *)
Inductive row_end : Set := RowDone | RowEmpty | RowError.

(** Up to [n] indices: an [int] stored as [size_t]. *)
Fixpoint parse_row (n : nat) (stop_at_empty : bool) (s : str) : list nat * row_end * str :=
  match n with
  | O => ([], RowDone, s)
  | S n =>
      let '(index_str, s) := cp_shift_spacevec s in
      if decide (stop_at_empty = true ∧ index_str = []) then ([], RowEmpty, s)
      else if decide (index_str = ["-"%char]) then ([], RowDone, s)
      else match cp_integer index_str true with
           | None => ([], RowError, s)
           | Some index =>
               let '(es, e, s) := parse_row n stop_at_empty s in (Z.to_nat (u64 index) :: es, e, s)
           end
  end.

Section parse.
Variable query_xid : str → option Xid.
Variable query_ip : str → option (list Z).

(** The nodes after the source row, and whether they were accepted. *)
Fixpoint parse_dag_loop (fuel : nat) (nodes : list PNode) (s : str) : list PNode * bool :=
  match fuel with
  | O => (nodes, true)
  | S fuel =>
      let '(xid_str, s) := cp_shift_spacevec s in
      if decide (xid_str = []) then (nodes, true)
      else match cp_xid query_xid query_ip xid_str with
           | None => (nodes, false)
           | Some x =>
               let '(es, e, s) := parse_row CLICK_XIA_XID_EDGE_NUM true s in
               let nodes' := nodes ++ [mkPNode x es npos] in
               match e with
               | RowError => (nodes, false)
               | RowEmpty => (nodes', true)
               | RowDone => parse_dag_loop fuel nodes' s
               end
           end
  end.

(** The path left behind, and whether the text was accepted. *)
Definition parse_dag (s : str) : XIAPath * bool :=
  let '(es, e, s) := parse_row CLICK_XIA_XID_EDGE_NUM false s in
  match e with
  | RowError => (XIAPath_reset, false)
  | _ =>
      let '(nodes, ok) := parse_dag_loop (S (length s)) [] s in
      if ok then
        let nodes := nodes ++ [mkPNode Xid_undef es npos] in
        let n := Z.of_nat (length nodes) in
        (mkPath nodes (n - 1) (u64 (n - 2)), true)
      else (mkPath nodes npos npos, false)
  end.

(** The fallback nodes up to the closing parenthesis. *)
Fixpoint parse_fallback (fuel : nat) (s : str) : option (list Xid) * str :=
  match fuel with
  | O => (None, s)
  | S fuel =>
      let '(tl, s) := cp_shift_spacevec s in
      if decide (tl = [")"%char]) then (Some [], s)
      else match cp_xid query_xid query_ip tl with
           | None => (None, s)
           | Some x => let '(xs, s) := parse_fallback fuel s in (cons x <$> xs, s)
           end
  end.

(** The nodes of one fallback path: the [i]th one gets index [next_idx + i],
    links to the next main node and, but for the last, to the next fallback
    node. *)
Fixpoint fallback_nodes (next_main_idx next_idx : Z) (fallback : list Xid) : list PNode :=
  match fallback with
  | [] => []
  | x :: fallback =>
      mkPNode x
        (Z.to_nat next_main_idx :: (match fallback with [] => [] | _ => [Z.to_nat (next_idx + 1)] end)) npos
      :: fallback_nodes next_main_idx (next_idx + 1) fallback
  end.

(** One iteration per main node: [prev_xid] is the main node not yet added, and
    [src_node] the source once it is known. *)
Fixpoint parse_re_loop (fuel : nat) (nodes : list PNode) (src_node : PNode) (prev_xid : Xid) (next_idx : Z)
    (s : str) : list PNode * PNode * Xid * Z * bool :=
  match fuel with
  | O => (nodes, src_node, prev_xid, next_idx, true)
  | S fuel =>
      let '(head, s) := cp_shift_spacevec s in
      if decide (head = []) then (nodes, src_node, prev_xid, next_idx, true)
      else
        let '(fallback, head, s) :=
          if decide (head = ["("%char]) then
            let '(fb, s) := parse_fallback (S (length s)) s in
            let '(head, s) := cp_shift_spacevec s in (fb, head, s)
          else (Some [], head, s) in
        match fallback with
        | None => (nodes, src_node, prev_xid, next_idx, false)
        | Some fallback =>
            match cp_xid query_xid query_ip head with
            | None => (nodes, src_node, prev_xid, next_idx, false)
            | Some next_xid =>
                let next_main_idx := next_idx + 1 + Z.of_nat (length fallback) in
                let node := mkPNode prev_xid
                  (Z.to_nat next_main_idx ::
                    (match fallback with [] => [] | _ => [Z.to_nat (next_idx + 1)] end)) npos in
                let src_node := if decide (next_idx = -1) then node else src_node in
                let nodes := if decide (next_idx = -1) then nodes else nodes ++ [node] in
                parse_re_loop fuel (nodes ++ fallback_nodes next_main_idx (next_idx + 1) fallback)
                  src_node next_xid (next_idx + 1 + Z.of_nat (length fallback)) s
            end
        end
  end.

Definition parse_re (s : str) : XIAPath * bool :=
  let '(nodes, src_node, prev_xid, next_idx, ok) :=
    parse_re_loop (S (length s)) [] (mkPNode Xid_undef [] npos) Xid_undef (-1) s in
  if ok then
    if decide (next_idx = -1) then (mkPath nodes npos npos, false)
    else
      let nodes := nodes ++ [mkPNode prev_xid [] npos; src_node] in
      let n := Z.of_nat (length nodes) in (mkPath nodes (n - 1) (n - 2), true)
  else (mkPath nodes npos npos, false).

(** [parse]: another type leaves the path as it was. *)
Definition path_parse (p : XIAPath) (s : str) : XIAPath * bool :=
  let '(type, s) := cp_shift_spacevec s in
  if decide (type = lit "DAG") then parse_dag s
  else if decide (type = lit "RE") then parse_re s
  else (p, false).
End parse.

(** ** Printing *)

Section unparse_text.
(** [XIAXIDInfo::revquery_xid]; without a context it finds no name. *)
Variable revquery_xid : Xid → str.

Definition unparse_pretty (x : Xid) : res str :=
  match revquery_xid x with [] => xid_unparse x | s => Ok s end.

(** The edges of one row: each index, or a dash after the last one. *)
Fixpoint print_row (es : list xid_edge) : str :=
  match es with
  | [] => []
  | e :: es =>
      if decide (e_idx e = CLICK_XIA_XID_EDGE_UNUSED) then lit "- "
      else print_d (e_idx e) ++ " "%char :: print_row es
  end.

(** One round of the loop of [unparse_dag], from [i = -1]. *)
Definition unparse_dag_row (n : Z) (ws : list xid_node) (sa : str) (i : Z) : res str :=
  w ← vgetz ws (if decide (i < 0) then i + n else i);
  sa ← (if decide (0 ≤ i) then x ← unparse_pretty (wn_xid w); Ok (sa ++ x ++ [" "%char]) else Ok sa);
  Ok (if decide (i < n - 1) then sa ++ print_row (take CLICK_XIA_XID_EDGE_NUM (wn_edge w)) else sa).

Definition drop_last (s : str) : str := take (length s - 1) s.

(** The array of nodes is not initialised; [unparse_node] writes all of it. *)
Definition unparse_dag (p : XIAPath) : res (XIAPath * str) :=
  pv ← is_valid p;
  if (pv.2 : bool) then
    let n := unparse_node_size pv.1 in
    r ← unparse_node pv.1 (replicate (Z.to_nat n) (mkXidNode Xid_undef [])) n;
    if decide (r.2 = n) then
      sa ← foldM (unparse_dag_row n r.1.2) [] (seqZ (-1) (n + 1));
      Ok (r.1.1, drop_last sa)
    else Ub AssertFail
  else Ok (pv.1, lit "(invalid)").

(** The fallback path of a main node: [None] when the graph is not an RE. *)
Fixpoint unparse_fallback (fuel : nat) (p : XIAPath) (next_primary_node next_fallback_node : nat) (sa : str)
    : res (option str) :=
  match fuel with
  | O => Ub OutOfFuel
  | S fuel =>
      nd ← cget (p_nodes p) next_fallback_node;
      x ← unparse_pretty (p_xid nd);
      let sa := sa ++ x ++ [" "%char] in
      match p_edges nd with
      | [e] => Ok (if decide (e = next_primary_node) then Some sa else None)
      | [e; f] =>
          if decide (e = next_primary_node) then unparse_fallback fuel p next_primary_node f sa else Ok None
      | _ => Ok None
      end
  end.

Fixpoint unparse_re_loop (fuel : nat) (p : XIAPath) (prev_node : nat) (sa : str) : res (option str) :=
  match fuel with
  | O => Ub OutOfFuel
  | S fuel' =>
      nd ← cget (p_nodes p) prev_node;
      let primary next_primary_node fallback :=
        fb ← match fallback with
             | None => Ok (Some sa)
             | Some f =>
                 o ← unparse_fallback (S (length (p_nodes p))) p next_primary_node f (sa ++ lit "( ");
                 Ok (option_map (λ s, s ++ lit ") ") o)
             end;
        match fb with
        | None => Ok None
        | Some sa =>
            m ← cget (p_nodes p) next_primary_node;
            x ← unparse_pretty (p_xid m);
            unparse_re_loop fuel' p next_primary_node (sa ++ x ++ [" "%char])
        end in
      match p_edges nd with
      | [] => Ok (Some sa)
      | [e] => primary e None
      | [e; f] => primary e (Some f)
      | _ => Ok None
      end
  end.

Definition unparse_re (p : XIAPath) : res (XIAPath * str) :=
  pv ← is_valid p;
  if (pv.2 : bool) then
    o ← unparse_re_loop (S (length (p_nodes p))) pv.1 (Z.to_nat (p_src p)) [];
    Ok (pv.1, match o with Some sa => drop_last sa | None => [] end)
  else Ok (pv.1, lit "(invalid)").

Definition path_unparse (p : XIAPath) : res (XIAPath * str) :=
  r ← unparse_re p;
  if decide (r.2 ≠ []) then Ok (r.1, lit "RE " ++ r.2)
  else r ← unparse_dag r.1; Ok (r.1, lit "DAG " ++ r.2).
End unparse_text.

(** ** Lemmas: words *)

(** Words as the printers leave them: nonempty and plain. *)
Definition word (w : str) : Prop := w ≠ [] ∧ Forall plain w.

(** Each word followed by a space. *)
Definition spaced (ws : list str) : str := ws ≫= λ w, w ++ [" "%char].

Lemma spaced_app a b : spaced (a ++ b) = spaced a ++ spaced b.
Proof. apply bind_app. Qed.

Lemma spaced_cons w ws : spaced (w :: ws) = w ++ " "%char :: spaced ws.
Proof. unfold spaced. by rewrite bind_cons, <-app_assoc. Qed.

Lemma drop_last_spaced ws : drop_last (spaced ws) = join " "%char ws.
Proof.
  unfold drop_last. induction ws as [|w ws IH]; [done|]. rewrite spaced_cons, length_app.
  destruct ws as [|w' ws].
  - cbn [spaced length join]. rewrite Nat.add_sub. apply take_app_length.
  - change (join " "%char (w :: w' :: ws)) with (w ++ " "%char :: join " "%char (w' :: ws)). rewrite <-IH.
    assert (1 ≤ length (spaced (w' :: ws)))%nat as Hl by (rewrite spaced_cons, length_app; simpl; lia).
    set (X := spaced (w' :: ws)) in *. cbn [length]. rewrite take_app_ge by lia. f_equal.
    by replace (length w + S (length X) - 1 - length w)%nat with (S (length X - 1)) by lia.
Qed.

Lemma shift_join w ws : Forall word (w :: ws) →
  cp_shift_spacevec (join " "%char (w :: ws)) = (w, join " "%char ws).
Proof.
  intros Hf. inversion Hf as [|?? [Hne Hw] Hf']; subst. destruct ws as [|w' ws].
  - cbn [join]. rewrite <-(app_nil_r w). rewrite shift_word by done. by rewrite app_nil_r.
  - change (join " "%char (w :: w' :: ws)) with (w ++ " "%char :: join " "%char (w' :: ws)).
    rewrite shift_word by done. f_equal. rewrite skip_space_blank.
    inversion Hf' as [|?? [Hne' Hw'] _]; subst. destruct Hw' as [|c w' Hc Hw']; [done|].
    destruct ws; apply (skip_space_plain c); done.
Qed.

Lemma length_join ws : Forall word ws → (length ws ≤ length (join " "%char ws))%nat.
Proof.
  induction 1 as [|w ws [Hne _] Hf IH]; [simpl; lia|]. assert (1 ≤ length w)%nat by (destruct w; [done|simpl; lia]).
  destruct ws as [|w' ws]; [cbn [join length]; lia|].
  change (join " "%char (w :: w' :: ws)) with (w ++ " "%char :: join " "%char (w' :: ws)).
  rewrite length_app. cbn [length] in *. lia.
Qed.

Lemma plain_digit c : 48 ≤ code c ≤ 57 → plain c.
Proof. intros Hc. split; [lia|]. set_unfold. intros H. naive_solver (by repeat destruct Hc). Qed.

Lemma word_number n : 0 ≤ n → word (print_d n).
Proof.
  intros Hn. split; [destruct (print_d_cons n Hn) as (c & s & ->); done|].
  eapply Forall_impl; [by apply print_d_plain|]. apply plain_digit.
Qed.

(** ** Lemmas: rows of edges *)

Definition row_words (n : nat) (es : list Z) : list str :=
  map print_d es ++ (if decide (length es < n)%nat then [["-"%char]] else []).

(** The slots of a row with the edges [es]. *)
Definition row_slots (n : nat) (es : list Z) : list xid_edge :=
  map (λ e, mkEdge e 0) es ++ replicate (n - length es) (mkEdge CLICK_XIA_XID_EDGE_UNUSED 0).

Definition edge_index (e : Z) : Prop := 0 ≤ e < CLICK_XIA_XID_EDGE_UNUSED.

Lemma row_words_cons n e es : row_words (S n) (e :: es) = print_d e :: row_words n es.
Proof. unfold row_words. cbn [map app length]. do 2 f_equal. apply decide_ext. lia. Qed.

Lemma print_row_slots n es : (length es ≤ n)%nat → Forall edge_index es →
  print_row (row_slots n es) = spaced (row_words n es).
Proof.
  intros Hn Hf. revert n Hn. induction Hf as [|e es He Hf IH]; intros n Hn.
  - by destruct n.
  - destruct n as [|n]; [simpl in Hn; lia|]. rewrite row_words_cons, spaced_cons.
    unfold row_slots. cbn [map app length print_row e_idx Nat.sub]. unfold edge_index in He.
    rewrite decide_False by lia. do 2 f_equal. apply IH. simpl in Hn. lia.
Qed.

Lemma word_dash : word ["-"%char].
Proof. split; [done|]. apply Forall_singleton. split; [vm_compute; split; congruence|set_solver]. Qed.

Lemma row_words_ok n es : Forall edge_index es → Forall word (row_words n es).
Proof.
  intros Hf. apply Forall_app_2.
  - apply Forall_fmap. eapply Forall_impl; [done|]. intros e He. apply word_number, He.
  - case_decide; [|constructor]. apply Forall_singleton, word_dash.
Qed.

Lemma parse_row_words n es stop rest : (length es ≤ n)%nat → Forall edge_index es → Forall word rest →
  parse_row n stop (join " "%char (row_words n es ++ rest)) = (map Z.to_nat es, RowDone, join " "%char rest).
Proof.
  intros Hn Hf Hr. revert n Hn. induction Hf as [|e es He Hf IH]; intros n Hn.
  - destruct n as [|n]; [done|]. unfold row_words. cbn [map app length]. rewrite decide_True by lia.
    cbn [app parse_row]. rewrite shift_join by (constructor; [apply word_dash|done]).
    rewrite decide_False by naive_solver. by rewrite decide_True.
  - destruct n as [|n]; [simpl in Hn; lia|]. rewrite row_words_cons. cbn [app parse_row]. unfold edge_index in He.
    assert (word (print_d e)) as [Hne Hp] by (apply word_number; lia).
    rewrite shift_join by (constructor; [by apply word_number, He|];
      apply Forall_app_2; [by apply row_words_ok|done]).
    rewrite decide_False by naive_solver. unfold CLICK_XIA_XID_EDGE_UNUSED in He.
    assert (cp_integer (print_d e) true = Some e) as Hint by (apply cp_integer_print; lia).
    rewrite decide_False by (intros Heq; by rewrite Heq in Hint). rewrite Hint, IH by (simpl in Hn; lia).
    unfold u64. by rewrite wrapU_small by lia.
Qed.

(** ** Lemmas: the whole text *)

(** XIDs that print as a word. *)
Definition printable (x : Xid) : Prop :=
  known_word (xid_type x) ∧ length (xid_id x) = 20%nat ∧ Forall is_byte (xid_id x).

Definition xid_word (x : Xid) : str := xid_type_string (xid_type x) ++ ":"%char :: (xid_id x ≫= print_02x).

Lemma xid_word_ok x : printable x → word (xid_word x).
Proof.
  intros (Hk & Hl & Hb). unfold xid_word. split; [by destruct (xid_type_string (xid_type x))|].
  apply Forall_app_2; [|constructor].
  - clear -Hk. assert (Forall (λ t, Forall plain (xid_type_string t)) (map htonl [0; 16; 17; 18; 19; 20])) as H.
    { assert (bool_decide (Forall (λ t, Forall (λ c, 33 ≤ code c ≤ 126 ∧ c ∉ ["/"; DQUOTE; "'"; "\"; ","]%char)
        (xid_type_string t)) (map htonl [0; 16; 17; 18; 19; 20])) = true) as Hb by (vm_compute; reflexivity).
      by apply bool_decide_eq_true in Hb. }
    rewrite Forall_forall in H. by apply H.
  - split; [vm_compute; split; congruence|set_solver].
  - eapply Forall_impl; [by apply hex_chars|]. intros c Hc. cbv beta in Hc. split; [lia|]. set_unfold. intros H.
    destruct_or! H; subst c; vm_compute in Hc; naive_solver.
Qed.

Lemma unparse_printable x : printable x → unparse_pretty (λ _, []) x = Ok (xid_word x).
Proof. intros (Hk & Hl & _). by apply xid_unparse_known. Qed.

Section dag_text.
Context (qx : str → option Xid) (qi : str → option (list Z)).
Context (Hqx : ∀ s, qx s = None) (Hqi : ∀ s, qi s = None).

Lemma parse_printable x : printable x → cp_xid qx qi (xid_word x) = Some x.
Proof using Hqx Hqi. intros (Hk & Hl & Hb). by apply cp_xid_print. Qed.

(** Rows of a node list: an XID and the edges. *)
Definition row_good (r : Xid * list Z) : Prop :=
  printable r.1 ∧ (length r.2 ≤ CLICK_XIA_XID_EDGE_NUM)%nat ∧ Forall edge_index r.2.

Definition node_words (r : Xid * list Z) : list str := xid_word r.1 :: row_words CLICK_XIA_XID_EDGE_NUM r.2.

Definition row_node (r : Xid * list Z) : PNode := mkPNode r.1 (map Z.to_nat r.2) npos.

Lemma node_words_ok r : row_good r → Forall word (node_words r).
Proof using. intros (Hp & _ & He). constructor; [by apply xid_word_ok|by apply row_words_ok]. Qed.

Lemma all_words_ok rows xl : Forall row_good rows → printable xl →
  Forall word ((rows ≫= node_words) ++ [xid_word xl]).
Proof using.
  intros Hf Hx. apply Forall_app_2; [|by apply Forall_singleton, xid_word_ok].
  apply Forall_bind. eapply Forall_impl; [exact Hf|]. apply node_words_ok.
Qed.

Lemma parse_dag_loop_words rows xl : Forall row_good rows → printable xl → ∀ fuel nodes,
  (length rows < fuel)%nat →
  parse_dag_loop qx qi fuel nodes (join " "%char ((rows ≫= node_words) ++ [xid_word xl])) =
    (nodes ++ map row_node rows ++ [mkPNode xl [] npos], true).
Proof using Hqx Hqi.
  intros Hf Hx. induction Hf as [|r rows Hr Hf IH]; intros fuel nodes Hfuel; (destruct fuel as [|fuel]; [lia|]).
  - cbn [mbind list_bind app parse_dag_loop].
    rewrite shift_join by (apply Forall_singleton, xid_word_ok; done).
    rewrite decide_False by (by apply xid_word_ok). rewrite parse_printable by done. done.
  - rewrite bind_cons, <-app_assoc. destruct Hr as (Hp & Hl & He). unfold node_words at 1. cbn [app parse_dag_loop].
    rewrite shift_join.
    2:{ constructor; [by apply xid_word_ok|]. apply Forall_app_2; [by apply row_words_ok|by apply all_words_ok]. }
    rewrite decide_False by (by apply xid_word_ok). rewrite parse_printable by done.
    rewrite parse_row_words by (try done; by apply all_words_ok).
    rewrite IH by (simpl in Hfuel; lia). by rewrite <-!app_assoc.
Qed.

(** The printed words of a node list whose last row holds the edges of the
    source. *)
Definition dag_words (rows : list (Xid * list Z)) (xl : Xid) (src : list Z) : list str :=
  row_words CLICK_XIA_XID_EDGE_NUM src ++ (rows ≫= node_words) ++ [xid_word xl].

Definition dag_list (rows : list (Xid * list Z)) (xl : Xid) (src : list Z) : list xid_node :=
  map (λ r, mkXidNode r.1 (row_slots CLICK_XIA_XID_EDGE_NUM r.2)) (rows ++ [(xl, src)]).

Lemma read_row_slots x es : (length es ≤ CLICK_XIA_XID_EDGE_NUM)%nat → Forall edge_index es →
  read_edges (mkXidNode x (row_slots CLICK_XIA_XID_EDGE_NUM es)) = map Z.to_nat es.
Proof using.
  intros Hl Hf. unfold read_edges. cbn [wn_edge]. rewrite take_ge
    by (unfold row_slots; rewrite length_app, length_map, length_replicate; lia).
  unfold row_slots. rewrite omap_app. assert (∀ k, omap (λ e, if decide (e_idx e = CLICK_XIA_XID_EDGE_UNUSED)
    then None else Some (Z.to_nat (e_idx e))) (replicate k (mkEdge CLICK_XIA_XID_EDGE_UNUSED 0)) = []) as ->
    by (induction k; [done|by simpl]).
  rewrite app_nil_r. clear Hl. induction Hf as [|e es He Hf IH]; [done|]. unfold edge_index in He.
  cbn -[decide]. rewrite decide_False by lia. by rewrite IH.
Qed.

Lemma rows_shorter rows xl : Forall row_good rows → printable xl →
  (length rows < S (length (join " "%char ((rows ≫= node_words) ++ [xid_word xl]))))%nat.
Proof using.
  intros Hf Hx. pose proof (length_join _ (all_words_ok rows xl Hf Hx)) as Hl. rewrite length_app in Hl.
  assert (length rows ≤ length (rows ≫= node_words))%nat; [|lia]. clear.
  induction rows as [|r rows IH]; [done|]. rewrite bind_cons, length_app. cbn [node_words length]. lia.
Qed.

(** Reading the text and reading the header give the same path. *)
Lemma parse_dag_words rows xl src : Forall row_good rows → row_good (xl, src) →
  Z.of_nat (length rows) < 2 ^ 32 →
  parse_dag qx qi (join " "%char (dag_words rows xl src)) = (parse_node (dag_list rows xl src), true).
Proof using Hqx Hqi.
  intros Hf (Hp & Hl & He) Hn. cbn [fst snd] in *. unfold parse_dag, dag_words.
  rewrite parse_row_words by (try done; by apply all_words_ok).
  rewrite (parse_dag_loop_words rows xl) by (try done; by apply rows_shorter).
  f_equal. unfold parse_node, dag_list. rewrite map_map.
  rewrite (map_app _ rows). cbn [map]. rewrite last_snoc, removelast_last. cbn [fst snd p_xid p_edges p_order wn_xid].
  rewrite read_row_slots by done. cbn [app]. rewrite !length_app, !length_map, !length_app. cbn [length].
  f_equal; [|lia|unfold u64; rewrite wrapU_small; lia].
  rewrite <-!app_assoc. cbn [app]. f_equal. apply map_ext_in. intros r Hr%list_elem_of_In.
  rewrite Forall_forall in Hf. destruct (Hf r Hr) as (_ & Hl' & He'). cbn [wn_xid].
  by rewrite read_row_slots.
Qed.
End dag_text.

Lemma take_slots es : (length es ≤ CLICK_XIA_XID_EDGE_NUM)%nat → Forall edge_index es →
  print_row (take CLICK_XIA_XID_EDGE_NUM (row_slots CLICK_XIA_XID_EDGE_NUM es)) =
    spaced (row_words CLICK_XIA_XID_EDGE_NUM es).
Proof.
  intros. rewrite take_ge; [by apply print_row_slots|].
  unfold row_slots. rewrite length_app, length_map, length_replicate. lia.
Qed.

(** The text a list of nodes prints. *)
Section unparse_rows.
Context (rows : list (Xid * list Z)) (xl : Xid) (src : list Z).
Context (Hrows : Forall row_good rows) (Hlast : row_good (xl, src)).

Let n := Z.of_nat (S (length rows)).
Let step := unparse_dag_row (λ _, []) n (dag_list rows xl src).

Lemma dag_list_at k r : (rows ++ [(xl, src)]) !! k = Some r →
  vgetz (dag_list rows xl src) (Z.of_nat k) = Ok (mkXidNode r.1 (row_slots CLICK_XIA_XID_EDGE_NUM r.2)).
Proof using. intros Hr. rewrite vgetz_nat. apply vget_Ok. unfold dag_list. by rewrite list_lookup_fmap, Hr. Qed.

Lemma step_at sa k r : (rows ++ [(xl, src)]) !! k = Some r → row_good r →
  step sa (Z.of_nat k) = Ok (sa ++ spaced (if decide (k < length rows)%nat then node_words r else [xid_word r.1])).
Proof using.
  intros Hk (Hp & Hl & He). unfold step, unparse_dag_row. rewrite decide_False, (dag_list_at k r Hk) by lia.
  cbn [mbind res_bind wn_xid wn_edge]. rewrite decide_True, unparse_printable by (lia || done).
  cbn [mbind res_bind]. rewrite take_slots by done. unfold n.
  destruct (decide (k < length rows)%nat); [rewrite decide_True by lia|rewrite decide_False by lia].
  - unfold node_words. by rewrite spaced_cons, <-!app_assoc.
  - by rewrite spaced_cons.
Qed.

Lemma unparse_rest todo : ∀ fin sa, rows = fin ++ todo →
  foldM step sa (seqZ (Z.of_nat (length fin)) (Z.of_nat (S (length todo)))) =
    Ok (sa ++ spaced ((todo ≫= node_words) ++ [xid_word xl])).
Proof using Hrows Hlast.
  induction todo as [|r todo IH]; intros fin sa Hsplit; rewrite seqZ_cons by lia; cbn [foldM].
  - rewrite app_nil_r in Hsplit. rewrite (step_at sa (length fin) (xl, src)); [|subst fin; by rewrite list_lookup_middle|done].
    rewrite decide_False by (subst fin; lia). cbn [mbind res_bind length list_bind app].
    by replace (Z.pred (Z.of_nat 1)) with 0 by done.
  - assert (row_good r) as Hr by (rewrite Hsplit, Forall_app, Forall_cons in Hrows; tauto).
    rewrite (step_at sa (length fin) r); [|rewrite Hsplit, <-app_assoc; by apply list_lookup_middle|done].
    rewrite decide_True by (rewrite Hsplit, length_app; simpl; lia). cbn [mbind res_bind].
    specialize (IH (fin ++ [r]) (sa ++ spaced (node_words r))).
    rewrite length_app, <-app_assoc in IH. simpl length in IH. specialize (IH Hsplit).
    replace (Z.succ (Z.of_nat (length fin))) with (Z.of_nat (length fin + 1)) by lia.
    replace (Z.pred (Z.of_nat (S (length (r :: todo))))) with (Z.of_nat (S (length todo))) by (simpl; lia).
    rewrite IH. f_equal. rewrite bind_cons, <-!app_assoc. by rewrite (spaced_app (node_words r)).
Qed.

Lemma step_source : step [] (-1) = Ok (spaced (row_words CLICK_XIA_XID_EDGE_NUM src)).
Proof using Hlast.
  unfold step, unparse_dag_row. rewrite decide_True by lia.
  replace (-1 + n) with (Z.of_nat (length rows)) by lia.
  rewrite (dag_list_at (length rows) (xl, src)) by (by rewrite list_lookup_middle).
  destruct Hlast as (Hp & Hl & He).
  cbn [mbind res_bind wn_edge fst snd]. rewrite take_slots by done.
  rewrite decide_False by lia. cbn [mbind res_bind]. by rewrite decide_True by (unfold n; lia).
Qed.

Lemma unparse_rows_ok : foldM step [] (seqZ (-1) (n + 1)) = Ok (spaced (dag_words rows xl src)).
Proof using Hrows Hlast.
  rewrite seqZ_cons by lia. cbn [foldM]. rewrite step_source. cbn [mbind res_bind].
  pose proof (unparse_rest rows [] (spaced (row_words CLICK_XIA_XID_EDGE_NUM src)) eq_refl) as Hrest.
  cbn [length] in Hrest. replace (Z.succ (-1)) with (Z.of_nat 0) by done.
  replace (Z.pred (n + 1)) with (Z.of_nat (S (length rows))) by lia. rewrite Hrest.
  unfold dag_words. by rewrite (spaced_app (row_words _ _)).
Qed.
End unparse_rows.

(** ** The header buffer as rows *)

Lemma choose_rows {A B} (P : A → Prop) (f : A → B) (l : list B) :
  (∀ k b, l !! k = Some b → ∃ a, P a ∧ b = f a) → ∃ la, Forall P la ∧ l = map f la.
Proof.
  induction l as [|b l IH]; intros H; [by exists []|].
  destruct (H 0%nat b eq_refl) as (a & Ha & ->). destruct IH as (la & Hla & ->); [intros k; apply (H (S k))|].
  exists (a :: la). split; [by constructor|done].
Qed.

Section buffer.
Context (p : XIAPath) (buf : list xid_node) (total : Z).
Context (Htotal : total = Z.of_nat (length (p_nodes p)) - 1) (Hpos : 0 < total ≤ 127).
Context (Hr : in_range (p_nodes p)) (Hnum : numbered (p_nodes p) (p_nodes p)).
Context (Hout : ∀ i n, p_nodes p !! i = Some n → (length (p_edges n) ≤ CLICK_XIA_XID_EDGE_NUM)%nat).
Context (Hprint : ∀ i n, p_nodes p !! i = Some n → 0 < ord p i → printable (p_xid n)).
Context (Hf : filled p total (length (p_nodes p)) buf).

Lemma cell_row k w : (k < Z.to_nat total)%nat → buf !! k = Some w →
  ∃ r, row_good r ∧ w = mkXidNode r.1 (row_slots CLICK_XIA_XID_EDGE_NUM r.2).
Proof using All.
  intros Hk Hw. destruct (cell_shape p total buf Htotal Hpos Hnum Hf k w Hk Hw)
    as (i & n & j & m & Hn & Ho & Hm & Hx & He).
  exists (p_xid n, map (λ e, ord p e - 1) (p_edges m)). destruct w as [x es]. cbn [wn_xid wn_edge fst snd] in *.
  subst x es. split.
  - split; [apply (Hprint i n Hn); lia|]. cbn [snd]. split; [rewrite length_map; by eapply Hout|].
    apply Forall_fmap, Forall_forall. intros e Hin. unfold edge_index, CLICK_XIA_XID_EDGE_UNUSED. cbn.
    destruct (successor_order p total Htotal Hr Hnum j m e Hm Hin) as (_ & _ & _ & Hb). lia.
  - f_equal. rewrite slots_of_split by eauto. unfold row_slots. by rewrite map_map, length_map.
Qed.

Lemma buffer_rows : length buf = Z.to_nat total →
  ∃ rows xl src, Forall row_good rows ∧ row_good (xl, src) ∧ buf = dag_list rows xl src ∧ total = Z.of_nat (S (length rows)).
Proof using All.
  intros Hlen. destruct (choose_rows row_good (λ r, mkXidNode r.1 (row_slots CLICK_XIA_XID_EDGE_NUM r.2)) buf)
    as (all & Hall & Hbuf).
  { intros k w Hw. apply (cell_row k w); [|done]. rewrite <-Hlen. by eapply lookup_lt_Some. }
  destruct all as [|[xl src] rows _] using rev_ind; [rewrite Hbuf in Hlen; simpl in Hlen; lia|].
  rewrite Forall_app, Forall_singleton in Hall. destruct Hall as [Hrows Hl]. exists rows, xl, src. do 3 (split; [done|]).
  rewrite Hbuf, length_map, length_app in Hlen. simpl in Hlen. lia.
Qed.
End buffer.

(** ** The theorem *)

Lemma path_valid_same p p' : same_graph (p_nodes p) (p_nodes p') → p_src p' = p_src p → p_dst p' = p_dst p →
  path_valid p → path_valid p'.
Proof.
  intros Hsame Hs Hd [H1 H2 H3 H4 H5 H6]. pose proof Hsame as [Hl Hn]. split; rewrite ?Hs, ?Hd, ?Hl; try done.
  - intros i n Hi. destruct (lookup_lt_is_Some_2 (p_nodes p) i) as [m Hm];
      [rewrite <-Hl; by eapply lookup_lt_Some|].
    destruct (Hn i m Hm) as (n' & Hi' & _ & He). assert (n = n') as -> by congruence.
    unfold out_ok. rewrite He. by apply H4.
  - intros i Hi Hno. apply H5; [done|]. intros u Hu. by apply (Hno u), (same_graph_pedge _ _ _ _ Hsame).
  - intros i Hi. apply (H6 i). clear -Hi Hsame.
    assert (∀ i j, tc (pedge (p_nodes p')) i j → tc (pedge (p_nodes p)) i j) as Htc; [|by apply Htc].
    induction 1 as [x y Hxy|x y z Hxy _ IH]; [apply tc_once|eapply tc_l; [|exact IH]];
      by apply (same_graph_pedge _ _ _ _ Hsame).
Qed.

Lemma same_path_transfer p p1 p' q : same_graph (p_nodes p) (p_nodes p1) → p_src p1 = p_src p → p_dst p1 = p_dst p →
  same_path p1 p' q → same_path p p' q.
Proof.
  intros [Hl Hn] Hs Hd [H1 H2 H3 H4 H5]. rewrite Hl in *. rewrite Hs in *. rewrite Hd in *. split; try done.
  intros i nd Hi. destruct (Hn i nd Hi) as (nd' & Hi' & Hx & He). rewrite (H5 i nd' Hi'). by rewrite Hx, He.
Qed.

Lemma same_graph_trans a b c : same_graph a b → same_graph b c → same_graph a c.
Proof.
  intros [Hl1 H1] [Hl2 H2]. split; [congruence|]. intros i n Hi. destruct (H1 i n Hi) as (n1 & Hi1 & Hx1 & He1).
  destruct (H2 i n1 Hi1) as (n2 & ? & ? & ?). exists n2. split_and!; congruence.
Qed.

Lemma same_graph_back a b i n' : same_graph a b → b !! i = Some n' →
  ∃ n, a !! i = Some n ∧ p_xid n' = p_xid n ∧ p_edges n' = p_edges n.
Proof.
  intros [Hl H] Hi. destruct (lookup_lt_is_Some_2 a i) as [n Hn]; [rewrite <-Hl; by eapply lookup_lt_Some|].
  destruct (H i n Hn) as (n1 & Hi1 & Hx & He). assert (n' = n1) as -> by congruence. eauto.
Qed.

Definition path_printable (p : XIAPath) : Prop :=
  ∀ i nd, p_nodes p !! i = Some nd → Z.of_nat i ≠ p_src p → printable (p_xid nd).

(** What [unparse_node] writes for a printable path, as rows. *)
Lemma unparse_node_rows p : in_range (p_nodes p) → 0 ≤ p_src p → 0 ≤ p_dst p → path_valid p →
  let n := (length (p_nodes p) - 1)%nat in
  (length (p_nodes p) ≤ 128)%nat → path_printable p →
  ∃ p' rows xl src,
    unparse_node p (replicate n (mkXidNode Xid_undef [])) (Z.of_nat n) = Ok (p', dag_list rows xl src, Z.of_nat n) ∧
    Forall row_good rows ∧ row_good (xl, src) ∧ n = S (length rows) ∧
    same_graph (p_nodes p) (p_nodes p') ∧ same_path p p' (parse_node (dag_list rows xl src)).
Proof.
  intros Hr Hs Hd Hv n Hn Hprint. pose proof (pv_src p Hv). pose proof (pv_dst p Hv). pose proof (pv_ne p Hv).
  destruct (roundtrip_ok p (replicate n (mkXidNode Xid_undef [])) Hr Hs Hd Hv Hn)
    as (p' & buf & Hun & Hsame & Hr' & Hnum & Hord & Hlen & Hf & Hpath); [by rewrite length_replicate|].
  rewrite length_replicate in Hlen. rewrite take_ge in Hpath by (unfold n in *; lia). fold n in Hun, Hf.
  pose proof Hsame as [Hl _]. rewrite <-Hl in Hf. assert (Z.of_nat n = Z.of_nat (length (p_nodes p')) - 1) as Htot by lia.
  destruct (buffer_rows p' buf (Z.of_nat n) Htot ltac:(lia) Hr' Hnum) as (rows & xl & src & Hrows & Hlast & -> & Hrl);
    [| |done|by rewrite Nat2Z.id|].
  - intros i nd (m & Hm & _ & ->)%(same_graph_back _ _ _ _ Hsame). apply (pv_out p Hv i m Hm).
  - intros i nd Hi Ho. destruct (same_graph_back _ _ _ _ Hsame Hi) as (m & Hm & -> & _).
    apply (Hprint i m Hm). intros Heq. rewrite <-Heq, Nat2Z.id in Hord. lia.
  - exists p', rows, xl, src. do 3 (split; [done|]). split; [lia|done].
Qed.

Section dag_text_theorem.
Context (qx : str → option Xid) (qi : str → option (list Z)).

Lemma unparse_dag_text p : (∀ s, qx s = None) → (∀ s, qi s = None) →
  in_range (p_nodes p) → 0 ≤ p_src p → 0 ≤ p_dst p → path_valid p →
  (length (p_nodes p) ≤ 128)%nat → path_printable p →
  ∃ p' s q, unparse_dag (λ _, []) p = Ok (p', s) ∧ same_graph (p_nodes p) (p_nodes p') ∧
    parse_dag qx qi s = (q, true) ∧ same_path p p' q.
Proof.
  intros Hqx Hqi Hr Hs Hd Hv Hn Hprint.
  destruct (is_valid_ok p Hr Hs Hd) as (p1 & b & Hrun & Hsame & Hsrc & Hdst & Hb & _).
  assert (b = true) as -> by (by apply Hb). pose proof Hsame as [Hl1 _].
  assert (in_range (p_nodes p1)) as Hr1.
  { intros i j Hij. rewrite Hl1. by apply (Hr i), (same_graph_pedge _ _ _ _ Hsame). }
  assert (path_printable p1) as Hp1.
  { intros i nd Hi. rewrite Hsrc. destruct (same_graph_back _ _ _ _ Hsame Hi) as (m & Hm & -> & _). by apply Hprint. }
  destruct (unparse_node_rows p1 Hr1 ltac:(lia) ltac:(lia) (path_valid_same p p1 Hsame Hsrc Hdst Hv) ltac:(lia) Hp1)
    as (p' & rows & xl & src & Hun & Hrows & Hlast & Hlen & Hsame' & Hpath).
  set (n := (length (p_nodes p1) - 1)%nat) in *.
  exists p', (join " "%char (dag_words rows xl src)), (parse_node (dag_list rows xl src)).
  split; [|split; [by eapply same_graph_trans|split; [apply parse_dag_words; (done || lia)|by eapply same_path_transfer]]].
  assert (unparse_node_size p1 = Z.of_nat n) as Hsize by (unfold unparse_node_size; case_decide; lia).
  unfold unparse_dag. rewrite Hrun. cbn [mbind res_bind fst snd]. rewrite Hsize, Nat2Z.id, Hun.
  cbn [mbind res_bind fst snd]. rewrite decide_True by done. rewrite Hlen, unparse_rows_ok by done.
  cbn [mbind res_bind]. by rewrite drop_last_spaced.
Qed.

(** a valid path of at most 128 nodes whose XIDs have named types, printed in
    the DAG text format and parsed again, is the same path up to renumbering
    (when the router's name tables define no name for the texts).  Printing
    neither fails nor overruns its buffers. *)
Theorem dag_text_roundtrip p : (∀ s, qx s = None) → (∀ s, qi s = None) →
  in_range (p_nodes p) → 0 ≤ p_src p → 0 ≤ p_dst p → path_valid p →
  (length (p_nodes p) ≤ 128)%nat → path_printable p →
  ∃ p' s q, unparse_dag (λ _, []) p = Ok (p', s) ∧ same_graph (p_nodes p) (p_nodes p') ∧
    parse_dag qx qi s = (q, true) ∧ same_path p p' q.
Proof. apply unparse_dag_text. Qed.
End dag_text_theorem.

Lemma demo_printable : path_printable demo_path.
Proof.
  intros i nd Hi Hne. destruct i as [|[|[|i]]]; [done| | |done]; injection Hi as <-.
  all: split; [by (apply (bool_decide_unpack _); vm_compute)|split; [done|]].
  all: apply Forall_replicate; unfold is_byte; lia.
Qed.

Lemma dag_text_roundtrip_witness : ∃ p' s q, unparse_dag (λ _, []) demo_path = Ok (p', s) ∧
  parse_dag (λ _, None) (λ _, None) s = (q, true) ∧ same_path demo_path p' q.
Proof.
  destruct (dag_text_roundtrip (λ _, None) (λ _, None) demo_path (λ _, eq_refl) (λ _, eq_refl) demo_in_range)
    as (p' & s & q & ? & _ & ? & ?); [try apply demo_valid; try apply demo_printable; simpl; lia..|].
  exists p', s, q. auto.
Defined.
