(* ===== verification/XiaHeader.v ===== *)
(** * XiaHeader: the network header (lib/xiaheader.cc, include/click/xiaheader.hh)

    A packet is the bytes from its network header on, with the annotations the
    routing elements use.  Reads and writes outside the bytes are
    [Ub OutOfBounds]; array indices may be negative. *)

From Stdlib Require Import ZArith Lia.
From stdpp Require Import base gmap sets list.
From S2P Require Import Prelude Text XiaPath XiaPathOrder XiaPathCodec XiaPathText.

Local Open Scope Z_scope.

(** ** Packets *)

Record Packet := mkPacket {
  p_data : list Z;         (* from the network header on *)
  XIA_PAINT_ANNO : Z;      (* a signed 16-bit annotation *)
  XIA_NEXT_PATH_ANNO : Z;  (* an unsigned 8-bit annotation *)
  nexthop_neighbor_xid_anno : Xid }.

Definition with_data (p : Packet) (b : list Z) : Packet :=
  mkPacket b (XIA_PAINT_ANNO p) (XIA_NEXT_PATH_ANNO p) (nexthop_neighbor_xid_anno p).
Definition SET_XIA_PAINT_ANNO (p : Packet) (v : Z) : Packet :=
  mkPacket (p_data p) (i16 v) (XIA_NEXT_PATH_ANNO p) (nexthop_neighbor_xid_anno p).
Definition SET_XIA_NEXT_PATH_ANNO (p : Packet) (v : Z) : Packet :=
  mkPacket (p_data p) (XIA_PAINT_ANNO p) (u8 v) (nexthop_neighbor_xid_anno p).
Definition set_nexthop_neighbor_xid_anno (p : Packet) (x : Xid) : Packet :=
  mkPacket (p_data p) (XIA_PAINT_ANNO p) (XIA_NEXT_PATH_ANNO p) x.

(** ** The header *)

(** [sizeof(struct click_xia)] and [sizeof(struct click_xia_xid_node)]. *)
Definition HDR_LEN : Z := 8.
Definition NODE_LEN : Z := 28.
Definition CLICK_XIA_NXT_NO : Z := 59.

Definition hdr_nxt (b : list Z) : res Z := vgetz b 1.
Definition hdr_plen (b : list Z) : res Z := h ← vgetz b 2; l ← vgetz b 3; Ok (256 * h + l).
Definition hdr_hlim (b : list Z) : res Z := vgetz b 4.
Definition hdr_dnode (b : list Z) : res Z := vgetz b 5.
Definition hdr_snode (b : list Z) : res Z := vgetz b 6.
Definition hdr_last (b : list Z) : res Z := x ← vgetz b 7; Ok (i8 x).

Definition set_byte (b : list Z) (o v : Z) : res (list Z) :=
  _ ← vgetz b o; Ok (<[Z.to_nat o := u8 v]> b).

Definition set_last (b : list Z) (v : Z) : res (list Z) := set_byte b 7 v.
Definition set_hlim (b : list Z) (v : Z) : res (list Z) := set_byte b 4 v.

(** The XID at a byte offset. *)
Definition xid_at (b : list Z) (o : Z) : res Xid :=
  if decide (0 ≤ o ∧ o + 24 ≤ Z.of_nat (length b)) then
    let s := drop (Z.to_nat o) b in Ok (mkXid (of_le_bytes (take 4 s)) (take 20 (drop 4 s)))
  else Ub OutOfBounds.

Definition node_off (i : Z) : Z := HDR_LEN + NODE_LEN * i.

(** [hdr->node[i].xid] and the byte of [hdr->node[i].edge[k]]. *)
Definition node_xid (b : list Z) (i : Z) : res Xid := xid_at b (node_off i).
Definition edge_byte (b : list Z) (i k : Z) : res Z := vgetz b (node_off i + 24 + k).

(** The index and the visited bit of an edge slot. *)
Definition slot_of_byte (x : Z) : xid_edge := mkEdge (x mod 128) (x / 128).
Definition byte_of_slot (e : xid_edge) : Z := e_idx e + 128 * e_visited e.

Definition edge_idx (b : list Z) (i k : Z) : res Z := x ← edge_byte b i k; Ok (e_idx (slot_of_byte x)).

Definition node_at (b : list Z) (i : Z) : res xid_node :=
  x ← node_xid b i;
  es ← foldM (λ acc k, e ← edge_byte b i (Z.of_nat k); Ok (acc ++ [slot_of_byte e])) []
         (seq 0 CLICK_XIA_XID_EDGE_NUM);
  Ok (mkXidNode x es).

Definition nodes_at (b : list Z) (first count : Z) : res (list xid_node) :=
  foldM (λ acc i, w ← node_at b i; Ok (acc ++ [w])) [] (seqZ first count).

(** ** Class XIAHeader *)

(** The argument is a [uint8_t]. *)
Definition hdr_size_of (dsnode : Z) : Z := HDR_LEN + NODE_LEN * u8 dsnode.

Definition hdr_size (b : list Z) : res Z :=
  d ← hdr_dnode b; s ← hdr_snode b; Ok (hdr_size_of (d + s)).

Definition dst_path (b : list Z) : res XIAPath :=
  d ← hdr_dnode b; ws ← nodes_at b 0 d; Ok (parse_node ws).

Definition src_path (b : list Z) : res XIAPath :=
  d ← hdr_dnode b; s ← hdr_snode b; ws ← nodes_at b d s; Ok (parse_node ws).

(** The walk over the extension headers: each round moves on by at least one
    byte or reads outside the packet. *)
Fixpoint payload_loop (fuel : nat) (b : list Z) (nxt p : Z) : res Z :=
  match fuel with
  | O => Ub OutOfFuel
  | S fuel =>
      if decide (nxt < CLICK_XIA_NXT_NO) then
        nxt ← vgetz b p;
        hlen ← vgetz b (p + 1);
        if decide (hlen = 0) then Ok p else payload_loop fuel b nxt (p + hlen)
      else Ok p
  end.

(** The offset of the payload. *)
Definition payload (b : list Z) : res Z :=
  nxt ← hdr_nxt b;
  p ← hdr_size b;
  payload_loop (S (length b)) b nxt p.

(** ** Class XIAHeaderEncap *)

Definition xid_bytes (x : Xid) : list Z := le_bytes 4 (xid_type x) ++ xid_id x.
Definition node_bytes (w : xid_node) : list Z := xid_bytes (wn_xid w) ++ map byte_of_slot (wn_edge w).

Record XIAHeaderEncap := mkEncap { en_hdr : list Z; en_dst : XIAPath; en_src : XIAPath }.

(** Version 1, next header [NO], hop limit 250, last visited node -1. *)
Definition XIAHeaderEncap_new : XIAHeaderEncap :=
  mkEncap [1; CLICK_XIA_NXT_NO; 0; 0; 250; 0; 0; 255] XIAPath_reset XIAPath_reset.

(** [update]: [garbage] is the memory [new] returns for the node array, whose
    length is that of the wrapped-around header size. *)
Definition encap_update (garbage : list xid_node) (e : XIAHeaderEncap) : res XIAHeaderEncap :=
  let dnode := unparse_node_size (en_dst e) in
  let snode := unparse_node_size (en_src e) in
  let hdr := take 5 (en_hdr e) ++ [u8 dnode; u8 snode] ++ take 1 (drop 7 (en_hdr e)) in
  d ← unparse_node (en_dst e) garbage dnode;
  if decide (d.2 = dnode) then
    s ← unparse_node (en_src e) (drop (Z.to_nat dnode) d.1.2) snode;
    if decide (s.2 = snode) then
      Ok (mkEncap (hdr ++ ((take (Z.to_nat dnode) d.1.2 ++ s.1.2) ≫= node_bytes)) d.1.1 s.1.1)
    else Ub AssertFail
  else Ub AssertFail.

(** The memory is as long as the allocated header. *)
Definition allocated (garbage : list xid_node) (e : XIAHeaderEncap) : Prop :=
  Z.of_nat (length garbage) = u8 (unparse_node_size (en_dst e) + unparse_node_size (en_src e)).

Definition encap_set_nxt (e : XIAHeaderEncap) (nxt : Z) : XIAHeaderEncap :=
  mkEncap (<[1%nat := u8 nxt]> (en_hdr e)) (en_dst e) (en_src e).
Definition encap_set_plen (e : XIAHeaderEncap) (plen : Z) : XIAHeaderEncap :=
  mkEncap (<[3%nat := u8 plen]> (<[2%nat := u8 (plen / 256)]> (en_hdr e))) (en_dst e) (en_src e).
Definition encap_set_last (e : XIAHeaderEncap) (last : Z) : XIAHeaderEncap :=
  mkEncap (<[7%nat := u8 last]> (en_hdr e)) (en_dst e) (en_src e).
Definition encap_set_hlim (e : XIAHeaderEncap) (hlim : Z) : XIAHeaderEncap :=
  mkEncap (<[4%nat := u8 hlim]> (en_hdr e)) (en_dst e) (en_src e).
Definition encap_set_dst_path (garbage : list xid_node) (e : XIAHeaderEncap) (p : XIAPath) : res XIAHeaderEncap :=
  encap_update garbage (mkEncap (en_hdr e) p (en_src e)).
Definition encap_set_src_path (garbage : list xid_node) (e : XIAHeaderEncap) (p : XIAPath) : res XIAHeaderEncap :=
  encap_update garbage (mkEncap (en_hdr e) (en_dst e) p).

(** [encap]: the packet with the header in front, and its length filled in. *)
Definition encap (e : XIAHeaderEncap) (data : list Z) (adjust_plen : bool) : list Z :=
  let plen := u16 (Z.of_nat (length data)) in
  (if adjust_plen then <[3%nat := u8 plen]> (<[2%nat := u8 (plen / 256)]> (en_hdr e)) else en_hdr e) ++ data.

(** ** Lemmas: reading what was written *)

Definition xid_ok (x : Xid) : Prop := 0 ≤ xid_type x < 2 ^ 32 ∧ length (xid_id x) = 20%nat.
Definition slot_ok (e : xid_edge) : Prop := 0 ≤ e_idx e < 128 ∧ 0 ≤ e_visited e < 2.
Definition node_ok (w : xid_node) : Prop :=
  xid_ok (wn_xid w) ∧ length (wn_edge w) = CLICK_XIA_XID_EDGE_NUM ∧ Forall slot_ok (wn_edge w).

Lemma slot_of_byte_of_slot e : slot_ok e → slot_of_byte (byte_of_slot e) = e.
Proof.
  intros [Hi Hv]. destruct e as [i v]. unfold slot_of_byte, byte_of_slot. cbn [e_idx e_visited] in *.
  rewrite (Z.mul_comm 128), Z.mod_add, Z.mod_small, Z.div_add, Z.div_small by lia. done.
Qed.

Lemma length_xid_bytes x : xid_ok x → length (xid_bytes x) = 24%nat.
Proof. intros [_ Hl]. unfold xid_bytes. by rewrite length_app, length_le_bytes, Hl. Qed.

Lemma length_node_bytes w : node_ok w → length (node_bytes w) = 28%nat.
Proof.
  intros (Hx & Hl & _). unfold node_bytes. by rewrite length_app, length_xid_bytes, length_map, Hl.
Qed.

Lemma xid_at_bytes pre x post : xid_ok x →
  xid_at (pre ++ xid_bytes x ++ post) (Z.of_nat (length pre)) = Ok x.
Proof.
  intros Hx. pose proof (length_xid_bytes x Hx) as Hl. destruct Hx as [Ht Hid]. unfold xid_at.
  rewrite decide_True by (rewrite !length_app; lia). rewrite Nat2Z.id, drop_app_length. unfold xid_bytes.
  rewrite <-app_assoc. rewrite take_app_length' by (by rewrite length_le_bytes).
  rewrite drop_app_length' by (by rewrite length_le_bytes). rewrite take_app_length' by done.
  rewrite of_le_bytes_le_bytes by (simpl; lia). by destruct x.
Qed.

Lemma length_nodes ws : Forall node_ok ws → length (ws ≫= node_bytes) = (28 * length ws)%nat.
Proof.
  induction 1 as [|w ws Hw Hf IH]; [done|]. rewrite bind_cons, length_app, length_node_bytes, IH by done.
  cbn [length]. lia.
Qed.

Section decode.
Context (hd : list Z) (ws : list xid_node) (rest : list Z).
Context (Hhd : length hd = 8%nat) (Hws : Forall node_ok ws).

Let b := hd ++ (ws ≫= node_bytes) ++ rest.

Lemma split_node i w : ws !! i = Some w → ∃ pre post, b = pre ++ node_bytes w ++ post ∧
  Z.of_nat (length pre) = node_off (Z.of_nat i).
Proof using Hhd Hws.
  intros Hi. exists (hd ++ (take i ws ≫= node_bytes)), ((drop (S i) ws ≫= node_bytes) ++ rest). split.
  - unfold b. rewrite <-(take_drop_middle ws i w Hi) at 1. rewrite bind_app, bind_cons. by rewrite <-!app_assoc.
  - rewrite length_app, length_nodes by (by apply Forall_take). rewrite length_take, Hhd.
    apply lookup_lt_Some in Hi. unfold node_off, HDR_LEN, NODE_LEN. lia.
Qed.

Lemma node_xid_decode i w : ws !! i = Some w → node_xid b (Z.of_nat i) = Ok (wn_xid w).
Proof using Hhd Hws.
  intros Hi. destruct (split_node i w Hi) as (pre & post & -> & Hpre). unfold node_xid. rewrite <-Hpre.
  unfold node_bytes. rewrite <-app_assoc. apply xid_at_bytes. rewrite Forall_lookup in Hws. apply (Hws i w Hi).
Qed.

Lemma edge_byte_decode i w k e : ws !! i = Some w → wn_edge w !! k = Some e →
  edge_byte b (Z.of_nat i) (Z.of_nat k) = Ok (byte_of_slot e).
Proof using Hhd Hws.
  intros Hi Hk. destruct (split_node i w Hi) as (pre & post & -> & Hpre). unfold edge_byte. rewrite <-Hpre.
  rewrite Forall_lookup in Hws. destruct (Hws i w Hi) as (Hx & _). apply length_xid_bytes in Hx.
  replace (Z.of_nat (length pre) + 24 + Z.of_nat k) with (Z.of_nat (length pre + (24 + k))) by lia.
  rewrite vgetz_nat. apply vget_Ok. rewrite lookup_app_r by lia.
  replace (length pre + (24 + k) - length pre)%nat with (24 + k)%nat by lia.
  unfold node_bytes. rewrite <-app_assoc, lookup_app_r, Hx by lia.
  replace (24 + k - 24)%nat with k by lia. rewrite lookup_app_l by (rewrite length_map; by eapply lookup_lt_Some).
  by rewrite list_lookup_fmap, Hk.
Qed.

Lemma node_at_decode i w : ws !! i = Some w → node_at b (Z.of_nat i) = Ok w.
Proof using Hhd Hws.
  intros Hi. unfold node_at. rewrite (node_xid_decode i w Hi). cbn [mbind res_bind].
  assert (node_ok w) as (_ & Hl & Hs) by (rewrite Forall_lookup in Hws; by apply (Hws i)).
  destruct w as [x es]. cbn [wn_xid wn_edge] in *. unfold CLICK_XIA_XID_EDGE_NUM in *.
  destruct es as [|e0 [|e1 [|e2 [|e3 [|]]]]]; try done. cbn [seq foldM].
  rewrite !Forall_cons in Hs. destruct Hs as (H0 & H1 & H2 & H3 & _).
  rewrite (edge_byte_decode i _ 0 e0 Hi), (edge_byte_decode i _ 1 e1 Hi),
    (edge_byte_decode i _ 2 e2 Hi), (edge_byte_decode i _ 3 e3 Hi) by done.
  cbn [mbind res_bind app]. by rewrite !slot_of_byte_of_slot.
Qed.

Lemma nodes_at_decode first count : (first + count ≤ length ws)%nat →
  nodes_at b (Z.of_nat first) (Z.of_nat count) = Ok (take count (drop first ws)).
Proof using Hhd Hws.
  intros Hlen. unfold nodes_at. induction count as [|count IH]; [done|].
  rewrite seqZ_S, foldM_app, IH by lia. cbn [mbind res_bind foldM].
  destruct (lookup_lt_is_Some_2 ws (first + count)) as [w Hw]; [lia|].
  replace (Z.of_nat first + Z.of_nat count) with (Z.of_nat (first + count)) by lia.
  rewrite (node_at_decode _ w Hw). cbn [mbind res_bind].
  by rewrite (take_S_r _ _ w) by (by rewrite lookup_drop).
Qed.
End decode.

(** ** Encapsulation *)

(** Paths that fit the header format. *)
Record path_fits (p : XIAPath) : Prop := {
  pf_range : in_range (p_nodes p);
  pf_src : 0 ≤ p_src p;
  pf_dst : 0 ≤ p_dst p;
  pf_valid : path_valid p;
  pf_len : (length (p_nodes p) ≤ 128)%nat;
  pf_xids i n : p_nodes p !! i = Some n → xid_ok (p_xid n) }.

Lemma slots_ok p total i n : total = Z.of_nat (length (p_nodes p)) - 1 → 0 < total ≤ 127 → in_range (p_nodes p) →
  numbered (p_nodes p) (p_nodes p) → p_nodes p !! i = Some n →
  length (slots_of p n) = CLICK_XIA_XID_EDGE_NUM ∧ Forall slot_ok (slots_of p n).
Proof.
  intros Htot Hpos Hr Hnum Hn. unfold slots_of. split; [by rewrite length_map, length_seq|].
  apply Forall_fmap, Forall_forall. intros j _. unfold slot_ok, compose. destruct (p_edges n !! j) as [e|] eqn:He.
  - destruct (successor_order p total Htot Hr Hnum i n e Hn) as (_ & _ & _ & Hb);
      [by eapply list_elem_of_lookup_2|]. cbn [e_idx e_visited]. lia.
  - cbn [e_idx e_visited]. unfold CLICK_XIA_XID_EDGE_UNUSED. lia.
Qed.

(** A path with the same graph fits as well. *)
Lemma path_fits_same p p' : same_graph (p_nodes p) (p_nodes p') → p_src p' = p_src p → p_dst p' = p_dst p →
  path_fits p → path_fits p'.
Proof.
  intros Hsame Hs Hd [H1 H2 H3 H4 H5 H6]. pose proof Hsame as [Hl _]. split; [|lia..|by eapply path_valid_same|lia|].
  - intros i j Hij. rewrite Hl. by apply (H1 i), (same_graph_pedge _ _ _ _ Hsame).
  - intros i n (m & Hm & -> & _)%(same_graph_back _ _ _ _ Hsame). by apply (H6 i).
Qed.

Lemma unparse_node_ends p buf n p' buf' k : unparse_node p buf n = Ok (p', buf', k) →
  p_src p' = p_src p ∧ p_dst p' = p_dst p.
Proof.
  unfold unparse_node, topological_ordering. intros H. apply bind_Ok in H as (pt & Ht & H).
  apply bind_Ok in Ht as (indeg & _ & Ht). apply bind_Ok in Ht as (r & _ & Ht). injection Ht as <-. cbn [fst snd] in H.
  repeat case_match; [by simplify_eq| |by simplify_eq]. apply bind_Ok in H as (b & _ & H). by simplify_eq.
Qed.

(** Writing a path that fits into a buffer that is long enough. *)
Lemma unparse_fits p buf : path_fits p → unparse_node_size p ≤ Z.of_nat (length buf) →
  let n := Z.to_nat (unparse_node_size p) in
  ∃ p' buf', unparse_node p buf (unparse_node_size p) = Ok (p', buf', unparse_node_size p) ∧
    length buf' = length buf ∧ Forall node_ok (take n buf') ∧ (0 < n)%nat ∧ Z.of_nat n ≤ 127 ∧
    unparse_node_size p = Z.of_nat n ∧ same_path p p' (parse_node (take n buf')) ∧
    same_graph (p_nodes p) (p_nodes p') ∧ p_src p' = p_src p ∧ p_dst p' = p_dst p.
Proof.
  intros [Hr Hs Hd Hv Hl Hx] Hbuf n. pose proof (pv_src p Hv). pose proof (pv_dst p Hv). pose proof (pv_ne p Hv).
  assert (unparse_node_size p = Z.of_nat (length (p_nodes p) - 1)) as Hsize
    by (unfold unparse_node_size; case_decide; lia).
  destruct (roundtrip_ok p buf Hr Hs Hd Hv Hl ltac:(lia))
    as (p' & buf' & Hun & Hsame & Hr' & Hnum & _ & Hlen & Hf & Hpath).
  assert (n = (length (p_nodes p) - 1)%nat) as Hn by lia. rewrite <-Hn in *. exists p', buf'. rewrite Hsize.
  destruct (unparse_node_ends _ _ _ _ _ _ Hun) as [Hends Hende].
  split; [done|]. split; [done|]. split; [|split_and!; (done || lia)].
  pose proof Hsame as [Hl' Hback]. apply Forall_lookup. intros k w [Hw Hk]%lookup_take_Some.
  rewrite <-Hl' in Hf. assert (Z.of_nat n = Z.of_nat (length (p_nodes p')) - 1) as Htot by lia.
  destruct (cell_shape p' (Z.of_nat n) buf' Htot ltac:(lia) Hnum Hf k w ltac:(lia) Hw)
    as (i & nd & j & m & Hnd & _ & Hm & Hxw & Hew).
  destruct (slots_ok p' (Z.of_nat n) j m Htot ltac:(lia) Hr' Hnum Hm) as [Hsl Hso].
  split; [rewrite Hxw|by rewrite Hew].
  destruct (lookup_lt_is_Some_2 (p_nodes p) i) as [nd0 Hnd0]; [rewrite <-Hl'; by eapply lookup_lt_Some|].
  destruct (Hback i nd0 Hnd0) as (nd1 & Hnd1 & Hxx & _). assert (nd = nd1) as -> by congruence.
  rewrite Hxx. by apply (Hx i).
Qed.

(** The header bytes before the nodes, with the payload length filled in. *)
Definition fixed_part (e : XIAHeaderEncap) (d s plen : Z) : list Z :=
  <[3%nat := u8 plen]> (<[2%nat := u8 (plen / 256)]>
    (take 5 (en_hdr e) ++ [u8 d; u8 s] ++ take 1 (drop 7 (en_hdr e)))).

Lemma header_fields x0 x1 x2 x3 x4 x5 x6 x7 rest :
  let b := x0 :: x1 :: x2 :: x3 :: x4 :: x5 :: x6 :: x7 :: rest in
  hdr_nxt b = Ok x1 ∧ hdr_plen b = Ok (256 * x2 + x3) ∧ hdr_hlim b = Ok x4 ∧ hdr_dnode b = Ok x5 ∧
  hdr_snode b = Ok x6 ∧ hdr_last b = Ok (i8 x7).
Proof.
  intros b. assert (∀ k x, 0 ≤ k → b !! Z.to_nat k = Some x → vgetz b k = Ok x) as Hk
    by (intros k x H0 H; by apply vgetz_Ok).
  unfold hdr_nxt, hdr_plen, hdr_hlim, hdr_dnode, hdr_snode, hdr_last.
  by rewrite (Hk 1 x1), (Hk 2 x2), (Hk 3 x3), (Hk 4 x4), (Hk 5 x5), (Hk 6 x6), (Hk 7 x7).
Qed.

Lemma fixed_part_ok e d s plen rest : (8 ≤ length (en_hdr e))%nat → 0 ≤ d < 256 → 0 ≤ s < 256 →
  0 ≤ plen < 65536 →
  let b := fixed_part e d s plen ++ rest in
  length (fixed_part e d s plen) = 8%nat ∧ hdr_dnode b = Ok d ∧ hdr_snode b = Ok s ∧ hdr_plen b = Ok plen ∧
  hdr_nxt b = hdr_nxt (en_hdr e) ∧ hdr_hlim b = hdr_hlim (en_hdr e) ∧ hdr_last b = hdr_last (en_hdr e).
Proof.
  intros Hl Hd Hs Hp b. unfold b, fixed_part.
  destruct (en_hdr e) as [|x0 [|x1 [|x2 [|x3 [|x4 [|x5 [|x6 [|x7 hd]]]]]]]]; simpl in Hl; try lia.
  destruct (header_fields x0 x1 x2 x3 x4 x5 x6 x7 hd) as (-> & _ & -> & _ & _ & ->).
  destruct (header_fields x0 x1 (u8 (plen / 256)) (u8 plen) x4 (u8 d) (u8 s) x7 rest) as (H1 & H2 & H3 & H4 & H5 & H6).
  assert (0 ≤ plen / 256 < 256) by (split; [apply Z.div_pos; lia|apply Z.div_lt_upper_bound; lia]).
  pose proof (Z.div_mod plen 256 ltac:(lia)). split; [done|]. simpl. split_and!; [..|exact H1|exact H3|exact H6].
  - etrans; [exact H4|]. unfold u8. by rewrite wrapU_small by lia.
  - etrans; [exact H5|]. unfold u8. by rewrite wrapU_small by lia.
  - etrans; [exact H2|]. unfold u8. rewrite (wrapU_small 8 (plen / 256)) by lia. unfold wrapU.
    change (2 ^ 8) with 256. f_equal. lia.
Qed.

(** A packet with the nodes [dws] of the destination and [sws] of the source. *)
Lemma header_read e dws sws data : (8 ≤ length (en_hdr e))%nat → Forall node_ok dws → Forall node_ok sws →
  (length dws ≤ 127)%nat → (length sws ≤ 127)%nat → Z.of_nat (length data) < 65536 →
  let d := Z.of_nat (length dws) in let s := Z.of_nat (length sws) in
  let h := take 5 (en_hdr e) ++ [u8 d; u8 s] ++ take 1 (drop 7 (en_hdr e)) ++ ((dws ++ sws) ≫= node_bytes) in
  let b := encap (mkEncap h (en_dst e) (en_src e)) data true in
  hdr_size b = Ok (Z.of_nat (length h)) ∧ hdr_plen b = Ok (Z.of_nat (length data)) ∧
  dst_path b = Ok (parse_node dws) ∧ src_path b = Ok (parse_node sws) ∧
  hdr_nxt b = hdr_nxt (en_hdr e) ∧ hdr_hlim b = hdr_hlim (en_hdr e) ∧ hdr_last b = hdr_last (en_hdr e).
Proof.
  intros Hl Hd Hs Hdl Hsl Hdata d s h b. set (ws := dws ++ sws) in *.
  assert (Forall node_ok ws) as Hws by (by apply Forall_app_2).
  assert (u16 (Z.of_nat (length data)) = Z.of_nat (length data)) as Hplen by (apply wrapU_small; lia).
  set (h8 := take 5 (en_hdr e) ++ [u8 d; u8 s] ++ take 1 (drop 7 (en_hdr e))).
  assert (length h8 = 8%nat) as H8 by (unfold h8; rewrite !length_app, !length_take, length_drop; cbn [length]; lia).
  assert (h = h8 ++ (ws ≫= node_bytes)) as Hh by (unfold h, h8; by rewrite <-!app_assoc).
  assert (b = fixed_part e d s (Z.of_nat (length data)) ++ (ws ≫= node_bytes) ++ data) as Hb.
  { unfold b, encap. cbn [en_hdr]. rewrite Hplen, Hh. unfold fixed_part. fold h8.
    rewrite (insert_app_l h8), (insert_app_l (<[2%nat := _]> h8)) by (rewrite ?length_insert; lia).
    by rewrite <-app_assoc. }
  destruct (fixed_part_ok e d s (Z.of_nat (length data)) ((ws ≫= node_bytes) ++ data) Hl ltac:(lia) ltac:(lia) ltac:(lia))
    as (Hf8 & Hdn & Hsn & Hpl & Hnx & Hhl & Hla).
  rewrite Hb. unfold hdr_size, dst_path, src_path. rewrite Hdn, Hsn. cbn [mbind res_bind].
  assert (length ws = length dws + length sws)%nat as Hwl by apply length_app.
  pose proof (nodes_at_decode _ ws data Hf8 Hws 0 (length dws) ltac:(lia)) as Hdec.
  pose proof (nodes_at_decode _ ws data Hf8 Hws (length dws) (length sws) ltac:(lia)) as Hsec.
  change (Z.of_nat 0) with 0 in Hdec. fold d in Hdec, Hsec. fold s in Hsec. rewrite Hdec, Hsec.
  cbn [mbind res_bind]. split.
  { f_equal. unfold hdr_size_of, u8. rewrite wrapU_small by lia. rewrite Hh, length_app, H8, length_nodes by done. unfold ws, HDR_LEN, NODE_LEN. rewrite length_app. lia. }
  unfold ws. rewrite drop_0, take_app_length, drop_app_length, (take_ge sws) by done. split_and!; done.
Qed.

(** The header [e'] after [e]'s paths were written as the nodes [dws] and [sws]. *)
Record written (e e' : XIAHeaderEncap) (dws sws : list xid_node) : Prop := {
  wr_hdr : en_hdr e' = take 5 (en_hdr e) ++ [u8 (Z.of_nat (length dws)); u8 (Z.of_nat (length sws))] ++
    take 1 (drop 7 (en_hdr e)) ++ ((dws ++ sws) ≫= node_bytes);
  wr_dst : Forall node_ok dws;
  wr_src : Forall node_ok sws;
  wr_dlen : (length dws ≤ 127)%nat;
  wr_slen : (length sws ≤ 127)%nat }.

Lemma size_range p : path_fits p → 0 < unparse_node_size p ≤ 127.
Proof.
  intros [_ ? ? Hv Hlen _]. pose proof (pv_src _ Hv). pose proof (pv_dst _ Hv). pose proof (pv_ne _ Hv).
  unfold unparse_node_size. case_decide; lia.
Qed.

Lemma header_written e garbage : path_fits (en_dst e) → path_fits (en_src e) → allocated garbage e →
  ∃ e' dws sws, encap_update garbage e = Ok e' ∧ written e e' dws sws ∧
    same_path (en_dst e) (en_dst e') (parse_node dws) ∧ same_path (en_src e) (en_src e') (parse_node sws).
Proof.
  intros Hd Hs Hg. pose proof (size_range _ Hd). pose proof (size_range _ Hs). unfold encap_update, allocated in *.
  set (d := unparse_node_size (en_dst e)) in *. set (s := unparse_node_size (en_src e)) in *.
  unfold u8 in Hg. rewrite wrapU_small in Hg by lia.
  destruct (unparse_fits (en_dst e) garbage Hd) as (d' & buf & Hdrun & Hdlen & Hdok & _ & _ & _ & Hdpath & _); [fold d; lia|].
  fold d in Hdrun, Hdok, Hdpath. rewrite Hdrun. cbn [mbind res_bind fst snd]. rewrite decide_True by done.
  destruct (unparse_fits (en_src e) (drop (Z.to_nat d) buf) Hs) as (s' & sbuf & Hsrun & Hslen & Hsok & _ & _ & _ & Hspath & _);
    [fold s; rewrite length_drop; lia|].
  fold s in Hsrun, Hsok, Hspath. rewrite Hsrun. cbn [mbind res_bind fst snd]. rewrite decide_True by done.
  rewrite length_drop in Hslen. rewrite take_ge in Hsok, Hspath by lia.
  eexists _, (take (Z.to_nat d) buf), sbuf. split; [reflexivity|]. split; [|done].
  split; [|done|done|rewrite length_take; lia|lia]. cbn [en_hdr]. rewrite length_take.
  replace (Z.of_nat (Z.to_nat d `min` length buf)) with d by lia.
  replace (Z.of_nat (length sbuf)) with s by lia. by rewrite <-!app_assoc.
Qed.

(** The destination is written while the source is still empty. *)
Lemma header_dst_written e garbage p : en_src e = XIAPath_reset → path_fits p →
  Z.of_nat (length garbage) = u8 (unparse_node_size p) →
  ∃ e' dws, encap_set_dst_path garbage e p = Ok e' ∧ written e e' dws [] ∧ en_src e' = XIAPath_reset ∧
    same_graph (p_nodes p) (p_nodes (en_dst e')) ∧ p_src (en_dst e') = p_src p ∧ p_dst (en_dst e') = p_dst p.
Proof.
  intros Hsrc Hp Hg. pose proof (size_range _ Hp). unfold u8 in Hg. rewrite wrapU_small in Hg by lia.
  unfold encap_set_dst_path, encap_update. cbn [en_dst en_src en_hdr]. rewrite Hsrc.
  set (d := unparse_node_size p) in *. change (unparse_node_size XIAPath_reset) with 0.
  destruct (unparse_fits p garbage Hp) as (d' & buf & Hdrun & Hdlen & Hdok & _ & _ & _ & _ & Hgr & Hps & Hpd); [fold d; lia|].
  fold d in Hdrun, Hdok. rewrite Hdrun. cbn [mbind res_bind fst snd]. rewrite decide_True by done.
  rewrite (drop_ge buf) by lia. change (unparse_node XIAPath_reset [] 0) with (Ok (XIAPath_reset, @nil xid_node, 0)).
  cbn [mbind res_bind fst snd]. rewrite decide_True by done. rewrite app_nil_r.
  eexists _, (take (Z.to_nat d) buf). split; [reflexivity|]. split; [|done].
  split; [|done|constructor|rewrite length_take; lia|simpl; lia]. cbn [en_hdr length]. rewrite length_take, app_nil_r.
  replace (Z.of_nat (Z.to_nat d `min` length buf)) with d by lia. by rewrite <-!app_assoc.
Qed.

(** The bytes [d] are the extension headers that the next-header field [nxt]
    and their own name, and the payload [r] behind them. *)
Inductive extended : Z → list Z → list Z → Prop :=
  | Ext_none nxt r : CLICK_XIA_NXT_NO ≤ nxt → extended nxt r r
  | Ext_header nxt nxt' body d r : nxt < CLICK_XIA_NXT_NO → extended nxt' d r →
      extended nxt (nxt' :: (2 + Z.of_nat (length body)) :: body ++ d) r.

Lemma payload_loop_finds nxt d r : extended nxt d r → ∀ fuel h, (length d < fuel)%nat →
  ∃ o, payload_loop fuel (h ++ d) nxt (Z.of_nat (length h)) = Ok o ∧ drop (Z.to_nat o) (h ++ d) = r.
Proof.
  induction 1 as [nxt r Hn|nxt nxt' body d r Hn _ IH]; intros [|fuel] h Hf; try (cbn [length] in Hf; lia); cbn [payload_loop].
  - rewrite decide_False by lia. eexists. split; [done|]. by rewrite Nat2Z.id, drop_app_length.
  - rewrite decide_True by done. cbn [length] in Hf. rewrite length_app in Hf.
    assert (∀ b, vgetz (h ++ nxt' :: b) (Z.of_nat (length h)) = Ok nxt') as ->
      by (intros b; apply vgetz_Ok; split; [lia|]; by rewrite Nat2Z.id, lookup_app_r, Nat.sub_diag by lia).
    assert (∀ x b, vgetz (h ++ nxt' :: x :: b) (Z.of_nat (length h) + 1) = Ok x) as ->.
    { intros x b. apply vgetz_Ok. split; [lia|]. rewrite lookup_app_r by lia. by replace (Z.to_nat _ - _)%nat with 1%nat by lia. }
    cbn [mbind res_bind]. rewrite decide_False by lia.
    destruct (IH fuel (h ++ nxt' :: (2 + Z.of_nat (length body)) :: body)) as (o & Ho & Hr); [lia|].
    rewrite <-!app_assoc in Ho, Hr. cbn [app] in Ho, Hr. exists o. split; [|done]. rewrite <-Ho. f_equal.
    rewrite length_app. cbn [length]. lia.
Qed.

(** C34: a header built for two paths that fit carries them: read from the
    packet, the destination and source paths are the paths that were set, up to
    renumbering; the header is as long as it says, the other fields keep their
    values, and the payload is found: it is what follows the header and the
    extension headers that the next-header fields name. *)
Theorem header_roundtrip e garbage data : (8 ≤ length (en_hdr e))%nat → path_fits (en_dst e) → path_fits (en_src e) →
  allocated garbage e → Z.of_nat (length data) < 65536 →
  ∃ e', encap_update garbage e = Ok e' ∧
    let b := encap e' data true in
    hdr_size b = Ok (Z.of_nat (length (en_hdr e'))) ∧ hdr_plen b = Ok (Z.of_nat (length data)) ∧
    (∃ q, dst_path b = Ok q ∧ same_path (en_dst e) (en_dst e') q) ∧
    (∃ q, src_path b = Ok q ∧ same_path (en_src e) (en_src e') q) ∧
    hdr_nxt b = hdr_nxt (en_hdr e) ∧ hdr_hlim b = hdr_hlim (en_hdr e) ∧ hdr_last b = hdr_last (en_hdr e) ∧
    (∀ nxt r, hdr_nxt (en_hdr e) = Ok nxt → extended nxt data r → ∃ o, payload b = Ok o ∧ drop (Z.to_nat o) b = r).
Proof.
  intros Hl Hd Hs Hg Hdata.
  destruct (header_written e garbage Hd Hs Hg) as (e' & dws & sws & Hrun & [Hhdr Hdok Hsok Hdl Hsl] & Hdp & Hsp).
  exists e'. split; [exact Hrun|]. cbv zeta.
  destruct (header_read e dws sws data Hl Hdok Hsok Hdl Hsl Hdata) as (H1 & H2 & H3 & H4 & H5 & H6 & H7).
  rewrite <-Hhdr in *. change (encap (mkEncap (en_hdr e') (en_dst e) (en_src e)) data true) with (encap e' data true) in *.
  split; [exact H1|]. split; [exact H2|]. split; [eexists; split; [exact H3|exact Hdp]|].
  split; [eexists; split; [exact H4|exact Hsp]|]. split; [exact H5|]. split; [exact H6|]. split; [exact H7|].
  intros nxt r Hn He. unfold payload. rewrite H5, Hn, H1. cbn [mbind res_bind].
  assert (∃ h, encap e' data true = h ++ data ∧ length h = length (en_hdr e')) as (h & -> & <-)
    by (eexists; split; [reflexivity|by rewrite !length_insert]).
  apply payload_loop_finds; [done|]. rewrite length_app. lia.
Qed.

Definition demo_encap : XIAHeaderEncap := mkEncap (en_hdr XIAHeaderEncap_new) demo_path demo_path.

Lemma demo_fits : path_fits demo_path.
Proof.
  split; [apply demo_in_range|simpl; lia..|apply demo_valid|simpl; lia|].
  intros i n Hn. destruct i as [|[|[|i]]]; [..|done]; injection Hn as <-; (split; [cbn; lia|done]).
Qed.

Lemma header_roundtrip_witness : ∃ e', encap_update (replicate 4 (mkXidNode Xid_undef [])) demo_encap = Ok e' ∧
  hdr_size (encap e' [7; 7] true) = Ok (8 + 4 * 28) ∧
  ∃ q, src_path (encap e' [7; 7] true) = Ok q ∧ same_path demo_path (en_src e') q.
Proof.
  destruct (header_roundtrip demo_encap (replicate 4 (mkXidNode Xid_undef [])) [7; 7])
    as (e' & Hrun & Hsize & _ & _ & Hsrc & _); [simpl; lia|apply demo_fits..|reflexivity|simpl; lia|].
  exists e'. split; [exact Hrun|]. split; [|exact Hsrc]. etrans; [exact Hsize|].
  vm_compute in Hrun. injection Hrun as <-. reflexivity.
Defined.

(** ** The extension-header walk *)

Lemma vgetz_cases {A} (v : list A) o : (∃ x, vgetz v o = Ok x) ∨ vgetz v o = Ub OutOfBounds.
Proof. unfold vgetz, vget. case_decide; [destruct (v !! _); [left; by eexists|by right]|by right]. Qed.

Lemma payload_loop_ends b : Forall is_byte b → ∀ fuel nxt p, 0 ≤ p → Z.of_nat (length b) < p + Z.of_nat fuel →
  (0 < fuel)%nat → is_ok (payload_loop fuel b nxt p) ∨ payload_loop fuel b nxt p = Ub OutOfBounds.
Proof.
  intros Hb. induction fuel as [|fuel IH]; intros nxt p Hp Hlt Hfuel; [lia|]. cbn [payload_loop].
  case_decide; [|left; eexists; done]. destruct (vgetz_cases b p) as [[nxt' ->]| ->]; [|by right].
  cbn [mbind res_bind]. destruct (vgetz_cases b (p + 1)) as [[hlen E2]| ->]; [|by right].
  rewrite E2. cbn [mbind res_bind]. case_decide; [left; eexists; done|]. apply vgetz_Ok in E2 as [_ E2].
  rewrite Forall_lookup in Hb. pose proof (Hb _ _ E2) as Hh. unfold is_byte in Hh.
  apply lookup_lt_Some in E2. apply IH; lia.
Qed.

(** the walk over the extension headers ends on every packet: it finds the
    payload or reads outside the packet, whatever the header lengths say. *)
Theorem payload_terminates b : Forall is_byte b → is_ok (payload b) ∨ payload b = Ub OutOfBounds.
Proof.
  intros Hb. unfold payload, hdr_nxt, hdr_size, hdr_dnode, hdr_snode.
  pose proof (vgetz_cases b) as Hv. destruct (Hv 1) as [[nxt ->]| ->]; [|by right]. destruct (Hv 5) as [[d ->]| ->]; [|by right].
  destruct (Hv 6) as [[s ->]| ->]; [|by right]. cbn [mbind res_bind]. apply payload_loop_ends; [done|..|lia].
  - unfold hdr_size_of, HDR_LEN, NODE_LEN, u8. pose proof (wrapU_range 8 (d + s) ltac:(lia)). lia.
  - unfold hdr_size_of, HDR_LEN, NODE_LEN, u8. pose proof (wrapU_range 8 (d + s) ltac:(lia)). lia.
Qed.

Lemma payload_terminates_witness :
  is_ok (payload [1; 12; 0; 0; 250; 0; 0; 255; 59; 0]) ∨ payload [1; 12; 0; 0; 250; 0; 0; 255; 59; 0] = Ub OutOfBounds.
Proof. apply payload_terminates. repeat constructor; unfold is_byte; lia. Defined.
