(* ===== verification/PathCopies.v ===== *)
(** * PathCopies: paths as they are read from packets

    A path that was written into a header and read back is renumbered.  It still
    fits a header, ends in the same XID, and can be printed. *)

From Stdlib Require Import ZArith Lia Ascii String.
From stdpp Require Import base gmap sets list relations.
From S2P Require Import Prelude Text ConfParse XiaPath XiaPathOrder XiaPathCodec XidText XiaPathText XiaHeader.

Local Open Scope Z_scope.

Lemma path_xid_lookup p i nd : (length (p_nodes p) ≤ 128)%nat → p_nodes p !! i = Some nd →
  path_xid p (Z.of_nat i) = Ok (p_xid nd).
Proof.
  intros Hl Hi. pose proof (lookup_lt_Some _ _ _ Hi). unfold path_xid, cgetz. unfold u32.
  rewrite wrapU_small by lia. rewrite decide_True by lia. rewrite Nat2Z.id. unfold cget. by rewrite Hi.
Qed.

(** ** Renumbered paths *)

Section copy.
Context (p p' q : XIAPath) (Hfit : path_fits p) (Hsame : same_path p p' q).

Let n := length (p_nodes p).
Let f := read_index p'.

Lemma copy_lt i : (i < n)%nat → (f i < n)%nat.
Proof using Hsame.
  intros Hi. destruct (lookup_lt_is_Some_2 (p_nodes p) i Hi) as [nd Hnd].
  pose proof (sp_node _ _ _ Hsame i nd Hnd) as Hq. apply lookup_lt_Some in Hq. by rewrite (sp_len _ _ _ Hsame) in Hq.
Qed.

Lemma copy_surj u : (u < n)%nat → ∃ i, (i < n)%nat ∧ f i = u.
Proof using Hsame.
  intros Hu. assert (map f (seq 0 n) ⊆+ seq 0 n) as Hsub.
  { apply NoDup_submseteq.
    - apply NoDup_fmap_2_strong; [|apply NoDup_seq]. intros i j Hi%elem_of_seq Hj%elem_of_seq.
      apply (sp_inj _ _ _ Hsame); fold n; lia.
    - intros v (i & -> & Hi%elem_of_seq)%list_elem_of_fmap. apply elem_of_seq.
      pose proof (copy_lt i ltac:(lia)). lia. }
  apply submseteq_length_Permutation in Hsub; [|by rewrite length_map].
  assert (u ∈ map f (seq 0 n)) as (i & -> & Hi%elem_of_seq)%list_elem_of_fmap
    by (rewrite Hsub; apply elem_of_seq; lia). exists i. split; [lia|done].
Qed.

Lemma copy_node u m : p_nodes q !! u = Some m → ∃ i nd, f i = u ∧ p_nodes p !! i = Some nd ∧
  p_edges m = map f (p_edges nd) ∧ p_xid m = if decide (Z.of_nat i = p_src p) then Xid_undef else p_xid nd.
Proof using Hsame.
  intros Hm. destruct (copy_surj u) as (i & Hi & <-);
    [apply lookup_lt_Some in Hm; by rewrite (sp_len _ _ _ Hsame) in Hm|].
  destruct (lookup_lt_is_Some_2 (p_nodes p) i Hi) as [nd Hnd]. unfold f in Hm. rewrite (sp_node _ _ _ Hsame i nd Hnd) in Hm.
  injection Hm as <-. by exists i, nd.
Qed.

Lemma copy_edge u v : pedge (p_nodes q) u v ↔ ∃ i j, f i = u ∧ f j = v ∧ pedge (p_nodes p) i j.
Proof using Hsame.
  split.
  - intros (m & Hm & Hv). destruct (copy_node u m Hm) as (i & nd & Hi & Hnd & He & _).
    rewrite He in Hv. apply list_elem_of_fmap in Hv as (j & -> & Hj). exists i, j. split; [done|]. split; [done|]. by exists nd.
  - intros (i & j & <- & <- & nd & Hnd & Hj). eexists. split; [by apply (sp_node _ _ _ Hsame i nd)|].
    cbn [p_edges]. by apply list_elem_of_fmap_2.
Qed.

Lemma copy_tc u v : tc (pedge (p_nodes q)) u v → ∃ i j, f i = u ∧ f j = v ∧ (i < n)%nat ∧ (j < n)%nat ∧ tc (pedge (p_nodes p)) i j.
Proof using Hsame Hfit.
  assert (∀ i j, pedge (p_nodes p) i j → (i < n)%nat ∧ (j < n)%nat) as Hlt.
  { intros i j Hij. split; [destruct Hij as (nd & Hnd & _); by eapply lookup_lt_Some|by apply (pf_range p Hfit i)]. }
  induction 1 as [u v Huv|u v w Huv _ IH].
  - apply copy_edge in Huv as (i & j & ? & ? & Hij). exists i, j. destruct (Hlt i j Hij). split_and!; try done. by apply tc_once.
  - apply copy_edge in Huv as (i & j & ? & Hj & Hij). destruct IH as (j' & k & Hj' & Hk & Hj'n & Hkn & Hjk).
    destruct (Hlt i j Hij) as [Hi Hjn].
    assert (j = j') as -> by (apply (sp_inj _ _ _ Hsame); [done..|unfold f in *; congruence]).
    exists i, k. split_and!; try done. by eapply tc_l.
Qed.

Lemma copy_fits : path_fits q.
Proof using Hsame Hfit.
  destruct Hfit as [Hr Hs Hd Hv Hl Hx]. pose proof (pv_src p Hv). pose proof (pv_dst p Hv). pose proof (sp_len _ _ _ Hsame) as Hlen.
  split; [|rewrite (sp_src _ _ _ Hsame); lia|rewrite (sp_dst _ _ _ Hsame); lia| |lia|].
  - intros u v (i & j & <- & <- & Hij)%copy_edge. rewrite Hlen. apply copy_lt. by apply (Hr i).
  - split.
    + rewrite (sp_src _ _ _ Hsame), Hlen. pose proof (copy_lt (Z.to_nat (p_src p)) ltac:(unfold n; lia)) as Hc. unfold f, n in Hc. lia.
    + rewrite (sp_dst _ _ _ Hsame), Hlen. pose proof (copy_lt (Z.to_nat (p_dst p)) ltac:(unfold n; lia)) as Hc. unfold f, n in Hc. lia.
    + rewrite (sp_src _ _ _ Hsame), (sp_dst _ _ _ Hsame). intros Heq%Nat2Z.inj.
      apply (sp_inj _ _ _ Hsame) in Heq; [|lia..]. pose proof (pv_ne p Hv). lia.
    + intros u m Hm. destruct (copy_node u m Hm) as (i & nd & <- & Hnd & He & _). unfold out_ok. rewrite He, length_map.
      destruct (pv_out p Hv i nd Hnd) as [Ho1 Ho2]. split; [|done]. intros E%fmap_nil_inv. rewrite (sp_dst _ _ _ Hsame).
      specialize (Ho1 E). by rewrite <-Ho1, Nat2Z.id.
    + intros u Hu Hno. rewrite Hlen in Hu. destruct (copy_surj u Hu) as (i & Hi & <-). rewrite (sp_src _ _ _ Hsame).
      assert (Z.of_nat i = p_src p) as Hip; [|by rewrite <-Hip, Nat2Z.id]. apply (pv_in p Hv i Hi).
      intros j Hj. apply (Hno (f j)), copy_edge. by exists j, i.
    + intros u (i & j & Hi & Hj & Hin & Hjn & Hij)%copy_tc.
      assert (i = j) as -> by (apply (sp_inj _ _ _ Hsame); [done..|unfold f in *; congruence]). by apply (pv_acyclic p Hv j).
  - intros u m Hm. destruct (copy_node u m Hm) as (i & nd & <- & Hnd & _ & ->). case_decide; [|by apply (Hx i nd)].
    split; [cbn; lia|done].
Qed.

Lemma copy_destination : path_xid q (p_dst q) = path_xid p (p_dst p).
Proof using Hsame Hfit.
  destruct Hfit as [Hr Hs Hd Hv Hl Hx]. pose proof (pv_dst p Hv). pose proof (pv_ne p Hv).
  destruct (lookup_lt_is_Some_2 (p_nodes p) (Z.to_nat (p_dst p))) as [nd Hnd]; [lia|].
  pose proof (sp_node _ _ _ Hsame _ nd Hnd) as Hq. rewrite decide_False in Hq by lia.
  rewrite (sp_dst _ _ _ Hsame). rewrite (path_xid_lookup _ _ _ ltac:(rewrite (sp_len _ _ _ Hsame); lia) Hq).
  rewrite <-(Z2Nat.id (p_dst p)) by lia. by rewrite (path_xid_lookup _ _ _ Hl Hnd).
Qed.

Lemma copy_printable : path_printable p → path_printable q.
Proof using Hsame Hfit.
  intros Hp u m Hm Hsrc. destruct (copy_node u m Hm) as (i & nd & <- & Hnd & _ & ->).
  destruct Hfit as [_ Hs _ _ _ _]. assert (Z.of_nat i ≠ p_src p) as Hne.
  { intros Heq. apply Hsrc. rewrite (sp_src _ _ _ Hsame), <-Heq, Nat2Z.id. done. }
  rewrite decide_False by done. by apply (Hp i).
Qed.
End copy.

(** ** Printing *)

Section print.
Context (p : XIAPath) (Hr : in_range (p_nodes p)) (Hnum : numbered (p_nodes p) (p_nodes p)).
Context (Hprint : ∀ i nd, p_nodes p !! i = Some nd → 0 < ord p i → printable (p_xid nd)).

Let n := Z.of_nat (length (p_nodes p)).

Lemma next_order i nd e : p_nodes p !! i = Some nd → e ∈ p_edges nd →
  ord p i < ord p e < n ∧ ∃ m, p_nodes p !! e = Some m ∧ (0 < ord p e → unparse_pretty (λ _, []) (p_xid m) = Ok (xid_word (p_xid m))).
Proof using Hr Hnum Hprint.
  intros Hi He. assert (pedge (p_nodes p) i e) as Hie by (by exists nd). pose proof (Hr i e Hie) as Hlt.
  destruct Hnum as (Hrange & _ & Hinc). split; [split; [by apply Hinc|by apply Hrange]|].
  destruct (lookup_lt_is_Some_2 (p_nodes p) e Hlt) as [m Hm]. exists m. split; [done|]. intros Ho.
  apply unparse_printable. by apply (Hprint e).
Qed.

Lemma order_nonneg i nd : p_nodes p !! i = Some nd → 0 ≤ ord p i.
Proof using Hnum. intros Hi%lookup_lt_Some. destruct Hnum as (Hrange & _). by apply Hrange. Qed.

Lemma unparse_fallback_total : ∀ fuel main i nd sa, p_nodes p !! i = Some nd → 0 < ord p i → n - ord p i < Z.of_nat fuel →
  is_ok (unparse_fallback (λ _, []) fuel p main i sa).
Proof using Hr Hnum Hprint.
  induction fuel as [|fuel IH]; intros main i nd sa Hi Ho Hf.
  { pose proof (lookup_lt_Some _ _ _ Hi). destruct Hnum as (Hrange & _). pose proof (Hrange i ltac:(done)). unfold ord, n in *. lia. }
  cbn [unparse_fallback]. rewrite (proj2 (cget_Ok _ _ nd) Hi). cbn [mbind res_bind].
  rewrite unparse_printable by (by apply (Hprint i)). cbn [mbind res_bind].
  destruct (p_edges nd) as [|e [|e' [|]]] eqn:E; try (by eexists). case_decide; [|by eexists].
  destruct (next_order i nd e' Hi) as (Ho' & m & Hm & _); [rewrite E; set_solver|]. apply (IH _ _ m); [done|lia|lia].
Qed.

Lemma unparse_re_loop_total : ∀ fuel i nd sa, p_nodes p !! i = Some nd → n - ord p i < Z.of_nat fuel →
  is_ok (unparse_re_loop (λ _, []) fuel p i sa).
Proof using Hr Hnum Hprint.
  induction fuel as [|fuel IH]; intros i nd sa Hi Hf.
  { pose proof (lookup_lt_Some _ _ _ Hi). destruct Hnum as (Hrange & _). pose proof (Hrange i ltac:(done)). unfold ord, n in *. lia. }
  pose proof (order_nonneg i nd Hi) as Hpos. cbn [unparse_re_loop].
  rewrite (proj2 (cget_Ok _ _ nd) Hi). cbn [mbind res_bind].
  assert (∀ e sa, e ∈ p_edges nd → is_ok (m ← cget (p_nodes p) e; x ← unparse_pretty (λ _, []) (p_xid m);
    unparse_re_loop (λ _, []) fuel p e (sa ++ x ++ [" "%char]))) as Hmain.
  { intros e sa' He. destruct (next_order i nd e Hi He) as (Ho & m & Hm & Hx). unfold cget. rewrite Hm. cbn [mbind res_bind].
    rewrite Hx by lia. cbn [mbind res_bind]. apply (IH _ m); [done|lia]. }
  destruct (p_edges nd) as [|e [|e' [|]]] eqn:E; [by eexists| | |by eexists].
  - cbn [mbind res_bind]. apply Hmain. set_solver.
  - destruct (next_order i nd e' Hi) as (Ho' & m & Hm & _); [rewrite E; set_solver|].
    destruct (unparse_fallback_total (S (length (p_nodes p))) e e' m (sa ++ lit "( ") Hm) as [o ->]; [lia|unfold n in *; lia|].
    cbn [mbind res_bind]. destruct o as [sa'|]; cbn; [|by eexists]. apply Hmain. set_solver.
Qed.
End print.

(** Printing a path that fits and whose XIDs have named types ends. *)
Lemma unparse_re_total p : path_fits p → path_printable p → ∃ p' s, unparse_re (λ _, []) p = Ok (p', s) ∧
  same_graph (p_nodes p) (p_nodes p') ∧ p_src p' = p_src p ∧ p_dst p' = p_dst p.
Proof.
  intros [Hr Hs Hd Hv Hl Hx] Hp. unfold unparse_re.
  destruct (is_valid_ok p Hr Hs Hd) as (p1 & b & Hrun & Hsame & Hsrc & Hdst & Hb & Hnum).
  assert (b = true) as -> by (by apply Hb). specialize (Hnum eq_refl). rewrite Hrun. cbn [mbind res_bind fst snd].
  pose proof Hsame as [Hl1 _]. pose proof (numbered_same _ _ Hsame Hnum) as Hnum1.
  assert (in_range (p_nodes p1)) as Hr1.
  { intros i j Hij. rewrite Hl1. by apply (Hr i), (same_graph_pedge _ _ _ _ Hsame). }
  assert (∀ i nd, p_nodes p1 !! i = Some nd → 0 < ord p1 i → printable (p_xid nd)) as Hp1.
  { intros i nd Hi Ho. destruct (same_graph_back _ _ _ _ Hsame Hi) as (m & Hm & -> & _). apply (Hp i m Hm).
    intros Heq. destruct (valid_ends p (p_nodes p1) Hr Hv Hnum Hs Hd) as [H0 _]. rewrite <-Heq, Nat2Z.id in H0.
    unfold ord in Ho. lia. }
  pose proof (pv_src p Hv). destruct (lookup_lt_is_Some_2 (p_nodes p1) (Z.to_nat (p_src p))) as [nd Hnd]; [lia|].
  destruct (unparse_re_loop_total p1 Hr1 Hnum1 Hp1 (S (length (p_nodes p))) (Z.to_nat (p_src p)) nd [] Hnd) as [o ->];
    [pose proof (order_nonneg p1 Hnum1 _ nd Hnd); lia|]. cbn [mbind res_bind]. eauto 6.
Qed.

Lemma unparse_dag_total p : path_fits p → path_printable p → is_ok (unparse_dag (λ _, []) p).
Proof.
  intros [Hr Hs Hd Hv Hl Hx] Hprint.
  destruct (unparse_dag_text (λ _, None) (λ _, None) p) as (p' & s & q & Hrun & _); [done..|]. by eexists.
Qed.

Lemma path_unparse_total p : path_fits p → path_printable p → is_ok (path_unparse (λ _, []) p).
Proof.
  intros Hf Hp. destruct (unparse_re_total p Hf Hp) as (p' & s & Hrun & Hsame & Hsrc & Hdst). unfold path_unparse.
  rewrite Hrun. cbn [mbind res_bind fst snd]. case_decide; [by eexists|].
  assert (path_printable p') as Hp'.
  { intros i nd Hi. rewrite Hsrc. destruct (same_graph_back _ _ _ _ Hsame Hi) as (m & Hm & -> & _). by apply Hp. }
  destruct (unparse_dag_total p' (path_fits_same p p' Hsame Hsrc Hdst Hf) Hp') as [r ->]. by eexists.
Qed.
