(* ===== verification/ExtHeader.v ===== *)
(** * ExtHeader: extension headers (lib/xiaextheader.cc, lib/xiatransportheader.cc, lib/xiacontentheader.cc)

    A header of keys and values in front of a payload, with the transport and
    the content header as instances.  Bytes that memory from [new] holds before
    they are written, and the order in which a hash table is iterated, are
    parameters. *)

From Stdlib Require Import ZArith Lia.
From stdpp Require Import base gmap sets list.
From S2P Require Import Prelude XiaPath XiaHeader.

Local Open Scope Z_scope.

Abbreviation kvmap := (gmap Z (list Z)).

(** [n] bytes from an offset on. *)
Definition bytes_at (b : list Z) (o n : Z) : res (list Z) :=
  if decide (0 ≤ o ∧ 0 ≤ n ∧ o + n ≤ Z.of_nat (length b))
  then Ok (take (Z.to_nat n) (drop (Z.to_nat o) b)) else Ub OutOfBounds.

(** [sizeof(struct click_xia_ext)]: the next header and the header length. *)
Definition EXT_LEN : Z := 2.
Definition ext_hdr_nxt (b : list Z) (o : Z) : res Z := vgetz b o.
Definition ext_hdr_hlen (b : list Z) (o : Z) : res Z := vgetz b (o + 1).

(** ** Class XIAGenericExtHeader *)

(** The loop of [populate_map]: [d] moves on by two bytes at least. *)
Fixpoint populate_loop (fuel : nat) (b : list Z) (d fin : Z) (m : kvmap) : res kvmap :=
  match fuel with
  | O => Ub OutOfFuel
  | S fuel =>
      if decide (d < fin) then
        kv_len ← vgetz b d;
        let d := d + 1 in
        if decide (kv_len = 0) then Ok m
        else if decide (fin < d + kv_len) then Ok m
        else
          key ← vgetz b d;
          value ← bytes_at b (d + 1) (kv_len - 1);
          populate_loop fuel b (d + kv_len) fin (<[key := value]> m)
      else Ok m
  end.

(** The header length is a byte, so 256 rounds are enough. *)
Definition populate_map (b : list Z) (o : Z) : res kvmap :=
  hlen ← ext_hdr_hlen b o; populate_loop 256 b (o + EXT_LEN) (o + hlen) ∅.

(** The header that follows the network header of a packet. *)
Definition next_header (b : list Z) : res Z := hdr_size b.

Record XIAGenericExtHeader := mkExt { ext_at : Z; ext_hlen : Z; ext_map : kvmap }.

Definition XIAGenericExtHeader_of (b : list Z) : res XIAGenericExtHeader :=
  o ← next_header b;
  hlen ← ext_hdr_hlen b o;
  m ← populate_map b o;
  Ok (mkExt o hlen m).

(** The offset of what follows the header. *)
Definition ext_payload (h : XIAGenericExtHeader) : Z := ext_at h + ext_hlen h.

(** ** Class XIAGenericExtHeaderEncap *)

Record XIAGenericExtHeaderEncap := mkExtEncap { ee_hdr : list Z; ee_map : kvmap }.

Definition ext_encap_new : XIAGenericExtHeaderEncap := mkExtEncap [CLICK_XIA_NXT_NO; EXT_LEN] ∅.

Definition ext_set_nxt (e : XIAGenericExtHeaderEncap) (nxt : Z) : XIAGenericExtHeaderEncap :=
  mkExtEncap (<[0%nat := u8 nxt]> (ee_hdr e)) (ee_map e).

(** The first loop of [update]: the size of the header and the number of
    entries that fit. *)
Fixpoint count_entries (l : list (Z * list Z)) (size count : Z) : Z * Z :=
  match l with
  | [] => (size, count)
  | (_, v) :: l =>
      if decide (255 - 1 ≤ Z.of_nat (length v)) then count_entries l size count
      else
        let new_size := size + EXT_LEN + Z.of_nat (length v) in
        if decide (255 ≤ new_size) then (size, count) else count_entries l new_size (count + 1)
  end.

(** The second loop: an entry that is too long is skipped, and counted. *)
Fixpoint write_entries (l : list (Z * list Z)) (count : Z) : list Z :=
  match l with
  | [] => []
  | (k, v) :: l =>
      if decide (0 < count) then
        if decide (255 - 1 ≤ Z.of_nat (length v)) then write_entries l (count - 1)
        else u8 (1 + Z.of_nat (length v)) :: k :: v ++ write_entries l (count - 1)
      else []
  end.

Definition padding_of (size : Z) : Z := if decide (Z.land size 3 ≠ 0) then 4 - Z.land size 3 else 0.

Section ext.
(** The order in which the table is iterated, and the memory [new] returns. *)
Variable entries : kvmap → list (Z * list Z).
Variable fresh : nat → list Z.

Definition ext_update (e : XIAGenericExtHeaderEncap) : XIAGenericExtHeaderEncap :=
  let '(size, count) := count_entries (entries (ee_map e)) EXT_LEN 0 in
  let padding := padding_of size in
  let size := size + padding in
  let written := [default 0 (ee_hdr e !! 0%nat); u8 size] ++ write_entries (entries (ee_map e)) count
    ++ replicate (Z.to_nat padding) 0 in
  mkExtEncap (written ++ drop (length written) (fresh (Z.to_nat size))) (ee_map e).

(** [hlen], the byte of the header. *)
Definition ee_hlen (e : XIAGenericExtHeaderEncap) : Z := default 0 (ee_hdr e !! 1%nat).

Definition ext_encap (e : XIAGenericExtHeaderEncap) (p : list Z) : list Z := take (Z.to_nat (ee_hlen e)) (ee_hdr e) ++ p.

(** ** Class TransportHeader *)

Definition TH_TYPE : Z := 0.
Definition TH_PKT_INFO : Z := 1.
Definition TH_SEQ_NUM : Z := 4.
Definition TH_ACK_NUM : Z := 5.
Definition TH_LENGTH : Z := 6.
Definition XSOCK_STREAM : Z := 1.
Definition XSOCK_DGRAM : Z := 2.
Definition SYN : Z := 1.
Definition SYNACK : Z := 2.
Definition DATA : Z := 3.
Definition ACK : Z := 4.
Definition FIN : Z := 5.

(** A value read as an integer of [n] bytes, 0 without the key. *)
Definition field (n : nat) (m : kvmap) (key : Z) : res Z :=
  match m !! key with
  | None => Ok 0
  | Some v => if decide (n ≤ length v)%nat then Ok (of_le_bytes (take n v)) else Ub OutOfBounds
  end.

Definition th_type (h : XIAGenericExtHeader) : res Z := field 1 (ext_map h) TH_TYPE.
Definition th_pkt_info (h : XIAGenericExtHeader) : res Z := field 1 (ext_map h) TH_PKT_INFO.
Definition th_seq_num (h : XIAGenericExtHeader) : res Z := field 4 (ext_map h) TH_SEQ_NUM.
Definition th_ack_num (h : XIAGenericExtHeader) : res Z := field 4 (ext_map h) TH_ACK_NUM.
Definition th_length (h : XIAGenericExtHeader) : res Z := field 2 (ext_map h) TH_LENGTH.

Definition transport_map (type pkt_info seq_num ack_num len : Z) : kvmap :=
  <[TH_LENGTH := le_bytes 2 (u16 len)]> (<[TH_ACK_NUM := le_bytes 4 (u32 ack_num)]>
    (<[TH_SEQ_NUM := le_bytes 4 (u32 seq_num)]> (<[TH_PKT_INFO := [u8 pkt_info]]> (<[TH_TYPE := [u8 type]]> ∅)))).

Definition TransportHeaderEncap (type pkt_info seq_num ack_num len : Z) : XIAGenericExtHeaderEncap :=
  ext_update (mkExtEncap (ee_hdr ext_encap_new) (transport_map type pkt_info seq_num ack_num len)).

Definition MakeSYNHeader := TransportHeaderEncap XSOCK_STREAM SYN.
Definition MakeSYNACKHeader := TransportHeaderEncap XSOCK_STREAM SYNACK.
Definition MakeDATAHeader := TransportHeaderEncap XSOCK_STREAM DATA.
Definition MakeACKHeader := TransportHeaderEncap XSOCK_STREAM ACK.
Definition MakeFINHeader := TransportHeaderEncap XSOCK_STREAM FIN.
Definition MakeDGRAMHeader := TransportHeaderEncap XSOCK_DGRAM DATA (-1) (-1).

(** ** Class ContentHeader *)

Definition CH_OPCODE : Z := 0.
Definition CH_OFFSET : Z := 1.
Definition CH_CHUNK_OFFSET : Z := 2.
Definition CH_LENGTH : Z := 3.
Definition CH_CHUNK_LENGTH : Z := 4.
Definition CH_CONTEXT_ID : Z := 5.
Definition CH_TTL : Z := 6.
Definition CH_CACHE_SIZE : Z := 7.
Definition CH_CACHE_POLICY : Z := 8.
Definition OP_REQUEST : Z := 1.
Definition OP_RESPONSE : Z := 2.
Definition OP_LOCAL_PUTCID : Z := 3.
Definition OP_REDUNDANT_REQUEST : Z := 4.
Definition OP_LOCAL_REMOVECID : Z := 5.
Definition OP_PUSH : Z := 6.

Definition ch_opcode (h : XIAGenericExtHeader) : res Z := field 1 (ext_map h) CH_OPCODE.
Definition ch_offset (h : XIAGenericExtHeader) : res Z := field 2 (ext_map h) CH_OFFSET.
Definition ch_chunk_length (h : XIAGenericExtHeader) : res Z := field 4 (ext_map h) CH_CHUNK_LENGTH.
Definition ch_chunk_offset (h : XIAGenericExtHeader) : res Z := field 4 (ext_map h) CH_CHUNK_OFFSET.
Definition ch_length (h : XIAGenericExtHeader) : res Z := field 2 (ext_map h) CH_LENGTH.
Definition ch_contextID (h : XIAGenericExtHeader) : res Z := field 4 (ext_map h) CH_CONTEXT_ID.
Definition ch_ttl (h : XIAGenericExtHeader) : res Z := field 4 (ext_map h) CH_TTL.
Definition ch_cacheSize (h : XIAGenericExtHeader) : res Z := field 4 (ext_map h) CH_CACHE_SIZE.
Definition ch_cachePolicy (h : XIAGenericExtHeader) : res Z := field 4 (ext_map h) CH_CACHE_POLICY.

Definition content_map (offset chunk_offset len chunk_length opcode contextID ttl cacheSize cachePolicy : Z) : kvmap :=
  <[CH_CACHE_POLICY := le_bytes 4 (u32 cachePolicy)]> (<[CH_CACHE_SIZE := le_bytes 4 (u32 cacheSize)]>
    (<[CH_TTL := le_bytes 4 (u32 ttl)]> (<[CH_CONTEXT_ID := le_bytes 4 (u32 contextID)]>
      (<[CH_OPCODE := [u8 opcode]]> (<[CH_CHUNK_LENGTH := le_bytes 4 (u32 chunk_length)]>
        (<[CH_LENGTH := le_bytes 2 (u16 len)]> (<[CH_CHUNK_OFFSET := le_bytes 4 (u32 chunk_offset)]>
          (<[CH_OFFSET := le_bytes 2 (u16 offset)]> ∅)))))))).

Definition ContentHeaderEncap_full (offset chunk_offset len chunk_length opcode contextID ttl cacheSize cachePolicy : Z)
    : XIAGenericExtHeaderEncap :=
  ext_update (mkExtEncap (ee_hdr ext_encap_new)
    (content_map offset chunk_offset len chunk_length opcode contextID ttl cacheSize cachePolicy)).

Definition request_map (opcode chunk_offset len : Z) : kvmap :=
  <[CH_OPCODE := [u8 opcode]]> (<[CH_LENGTH := le_bytes 2 (u16 len)]>
    (<[CH_CHUNK_OFFSET := le_bytes 4 (u32 chunk_offset)]> ∅)).

Definition ContentHeaderEncap (opcode chunk_offset len : Z) : XIAGenericExtHeaderEncap :=
  ext_update (mkExtEncap (ee_hdr ext_encap_new) (request_map opcode chunk_offset len)).

Definition MakeRequestHeader : XIAGenericExtHeaderEncap := ContentHeaderEncap OP_REQUEST 0 0.
Definition MakeRPTRequestHeader : XIAGenericExtHeaderEncap := ContentHeaderEncap OP_REDUNDANT_REQUEST 0 0.
Definition MakePushHeader : XIAGenericExtHeaderEncap := ContentHeaderEncap OP_PUSH 0 0.
End ext.

(** ** Lemmas *)

Lemma bytes_at_app pre v post : bytes_at (pre ++ v ++ post) (Z.of_nat (length pre)) (Z.of_nat (length v)) = Ok v.
Proof.
  unfold bytes_at. rewrite decide_True by (rewrite !length_app; lia).
  by rewrite !Nat2Z.id, drop_app_length, take_app_length.
Qed.

Lemma vgetz_middle {A} pre (x : A) post : vgetz (pre ++ x :: post) (Z.of_nat (length pre)) = Ok x.
Proof. rewrite vgetz_nat. apply vget_Ok. by rewrite list_lookup_middle. Qed.

(** An entry as it is written. *)
Definition entry_bytes (e : Z * list Z) : list Z := u8 (1 + Z.of_nat (length e.2)) :: e.1 :: e.2.

Lemma length_entry e : length (entry_bytes e) = S (S (length e.2)).
Proof. done. Qed.

Definition short (e : Z * list Z) : Prop := Z.of_nat (length e.2) < 254.

(** The size of a header with the entries, without padding. *)
Definition entries_size (l : list (Z * list Z)) : Z := EXT_LEN + Z.of_nat (length (l ≫= entry_bytes)).
Definition ext_size (m : kvmap) : Z := entries_size (map_to_list m).

Lemma entries_size_cons e l : entries_size (e :: l) = entries_size l + EXT_LEN + Z.of_nat (length e.2).
Proof. unfold entries_size, EXT_LEN. rewrite bind_cons, length_app. unfold entry_bytes. cbn [length]. lia. Qed.

Lemma entries_size_perm l l' : l ≡ₚ l' → entries_size l = entries_size l'.
Proof. induction 1; rewrite ?entries_size_cons; lia. Qed.

Lemma entries_size_pos l : EXT_LEN ≤ entries_size l.
Proof. unfold entries_size. lia. Qed.

Lemma entries_short l : entries_size l < 255 → Forall short l.
Proof.
  induction l as [|e l IH]; intros H; [done|]. rewrite entries_size_cons in H.
  pose proof (entries_size_pos l). unfold EXT_LEN in *. constructor; [unfold short; lia|apply IH; lia].
Qed.

Lemma count_entries_all l : ∀ size count, 0 ≤ size → size + entries_size l - EXT_LEN < 255 →
  count_entries l size count = (size + entries_size l - EXT_LEN, count + Z.of_nat (length l)).
Proof.
  induction l as [|[k v] l IH]; intros size count H0 H; cbn [count_entries length].
  { unfold entries_size. cbn. f_equal; lia. }
  rewrite entries_size_cons in *. pose proof (entries_size_pos l). unfold EXT_LEN in *. cbn [snd] in *.
  destruct (decide (255 - 1 ≤ Z.of_nat (length v))); [lia|]. case_decide; [lia|]. rewrite IH by lia. f_equal; lia.
Qed.

Lemma write_entries_all l : Forall short l → write_entries l (Z.of_nat (length l)) = l ≫= entry_bytes.
Proof.
  induction 1 as [|[k v] l Hs Hf IH]; [done|]. unfold short in Hs. cbn [write_entries length snd] in *.
  rewrite decide_True, decide_False by lia. rewrite bind_cons.
  replace (Z.of_nat (S (length l)) - 1) with (Z.of_nat (length l)) by lia. by rewrite IH.
Qed.

Lemma padding_of_spec size : 0 ≤ size → 0 ≤ padding_of size < 4 ∧ (size + padding_of size) mod 4 = 0.
Proof.
  intros H. unfold padding_of. change 3 with (Z.ones 2). rewrite Z.land_ones by lia. change (2 ^ 2) with 4.
  pose proof (Z.mod_pos_bound size 4 ltac:(lia)). pose proof (Z.div_mod size 4 ltac:(lia)). case_decide as E.
  - split; [lia|]. replace (size + (4 - size mod 4)) with (0 + (size / 4 + 1) * 4) by lia. by rewrite Z.mod_add.
  - split; [lia|]. rewrite Z.add_0_r. lia.
Qed.

(** Reading the entries back. *)
Lemma populate_entries l pad post : Forall short l → Forall (λ x, x = 0) pad → ∀ fuel pre m, (length l < fuel)%nat →
  populate_loop fuel (pre ++ (l ≫= entry_bytes) ++ pad ++ post) (Z.of_nat (length pre))
    (Z.of_nat (length pre + length (l ≫= entry_bytes) + length pad)) m
  = Ok (foldl (λ m e, <[e.1 := e.2]> m) m l).
Proof.
  intros Hl Hpad. induction Hl as [|[k v] l Hs Hf IH]; intros [|fuel] pre m Hfuel; [by apply Nat.nlt_0_r in Hfuel| |by apply Nat.nlt_0_r in Hfuel|];
    cbn [populate_loop].
  - destruct pad as [|x pad]; [rewrite decide_False by (simpl; lia); done|]. inversion Hpad; subst.
    rewrite decide_True by (simpl; lia). change ([] ≫= entry_bytes) with (@nil Z). cbn [app].
    rewrite vgetz_middle. done.
  - unfold short in Hs. cbn [snd] in Hs. rewrite bind_cons.
    set (n := Z.of_nat (length v)) in *. set (ents := l ≫= entry_bytes) in *.
    assert (entry_bytes (k, v) = (1 + n) :: k :: v) as Hent
      by (unfold entry_bytes; cbn [fst snd]; f_equal; apply wrapU_small; lia). rewrite Hent.
    set (b := pre ++ _) in *. rewrite decide_True by (rewrite length_app; simpl; lia).
    assert (b = pre ++ (1 + n) :: (k :: v ++ ents ++ pad ++ post)) as Hb1 by (unfold b; by rewrite <-app_assoc).
    assert (b = (pre ++ [1 + n]) ++ k :: (v ++ ents ++ pad ++ post)) as Hb2 by (rewrite Hb1; by rewrite <-app_assoc).
    assert (b = (pre ++ [1 + n; k]) ++ v ++ (ents ++ pad ++ post)) as Hb3 by (rewrite Hb1; by rewrite <-app_assoc).
    rewrite Hb1 at 1. rewrite vgetz_middle. cbn [mbind res_bind].
    rewrite decide_False by lia. rewrite decide_False by (rewrite !length_app; cbn [length]; lia).
    replace (Z.of_nat (length pre) + 1) with (Z.of_nat (length (pre ++ [1 + n]))) by (rewrite length_app; simpl; lia).
    rewrite Hb2 at 1. rewrite vgetz_middle. cbn [mbind res_bind].
    replace (Z.of_nat (length (pre ++ [1 + n])) + 1) with (Z.of_nat (length (pre ++ [1 + n; k])))
      by (rewrite !length_app; simpl; lia).
    replace (1 + n - 1) with (Z.of_nat (length v)) by lia. rewrite Hb3 at 1. rewrite bytes_at_app. cbn [mbind res_bind].
    specialize (IH fuel (pre ++ [1 + n; k] ++ v) (<[k := v]> m) ltac:(simpl in Hfuel; lia)). cbn [foldl fst snd].
    rewrite <-IH. f_equal; [rewrite Hb3; by rewrite <-!app_assoc|rewrite !length_app; cbn [length]; lia..].
Qed.

Lemma foldl_insert_map (l : list (Z * list Z)) : ∀ m, foldl (λ m e, <[e.1 := e.2]> m) m l = list_to_map (reverse l) ∪ (m : kvmap).
Proof.
  induction l as [|[k v] l IH]; intros m; cbn [foldl fst snd]; [symmetry; apply map_empty_union|].
  rewrite IH, reverse_cons, list_to_map_app, <-(assoc_L (∪)). f_equal. cbn. by rewrite <-insert_union_l, map_empty_union.
Qed.

Section roundtrip.
Context (entries : kvmap → list (Z * list Z)) (fresh : nat → list Z).
Context (Hentries : ∀ m, entries m ≡ₚ map_to_list m) (Hfresh : ∀ n, length (fresh n) = n).

Lemma foldl_entries m : foldl (λ m e, <[e.1 := e.2]> m) ∅ (entries m) = m.
Proof using Hentries.
  rewrite foldl_insert_map, map_union_empty. rewrite <-(list_to_map_to_list m) at 2.
  pose proof (reverse_Permutation (entries m)) as Hp. rewrite (Hentries m) in Hp at 2.
  apply list_to_map_proper; [|exact Hp]. rewrite Hp. apply NoDup_fst_map_to_list.
Qed.

(** The bytes of an updated header: next header, length, entries, padding. *)
Lemma ext_update_bytes nxt x m : ext_size m < 255 →
  let size := ext_size m + padding_of (ext_size m) in
  ee_hdr (ext_update entries fresh (mkExtEncap [nxt; x] m)) =
    [nxt; u8 size] ++ (entries m ≫= entry_bytes) ++ replicate (Z.to_nat (padding_of (ext_size m))) 0.
Proof using Hentries Hfresh.
  intros Hs size. unfold ext_size in Hs. unfold ext_update. cbn [ee_map ee_hdr].
  pose proof (entries_size_perm _ _ (Hentries m)) as Hperm. rewrite <-Hperm in Hs.
  rewrite count_entries_all by (unfold EXT_LEN; lia). rewrite Z.add_0_l, write_entries_all by (by apply entries_short).
  replace (EXT_LEN + entries_size (entries m) - EXT_LEN) with (ext_size m) by (unfold ext_size; lia). fold size.
  cbn [default lookup list_lookup]. set (w := [nxt; u8 size] ++ _). rewrite (drop_ge (fresh _)); [by rewrite app_nil_r|].
  pose proof (padding_of_spec (ext_size m) ltac:(unfold ext_size, entries_size, EXT_LEN; lia)).
  rewrite Hfresh. unfold w. rewrite !length_app, length_replicate. unfold size, ext_size in *.
  rewrite <-Hperm in *. unfold entries_size, EXT_LEN in *. cbn [length]. lia.
Qed.

Lemma length_ext_hdr nxt x m : ext_size m < 255 →
  Z.of_nat (length (ee_hdr (ext_update entries fresh (mkExtEncap [nxt; x] m)))) = ext_size m + padding_of (ext_size m).
Proof using Hentries Hfresh.
  intros Hs. rewrite ext_update_bytes by done. rewrite !length_app, length_replicate.
  pose proof (padding_of_spec (ext_size m) ltac:(unfold ext_size, entries_size, EXT_LEN; lia)).
  unfold ext_size in *. rewrite <-(entries_size_perm _ _ (Hentries m)) in *. unfold entries_size, EXT_LEN in *. cbn [length]. lia.
Qed.

(** A header that fits is written whole, and its map is read back. *)
Lemma ext_read nxt x m pre data : ext_size m ≤ 252 →
  let e := ext_update entries fresh (mkExtEncap [nxt; x] m) in
  let b := pre ++ ext_encap e data in
  ext_encap e data = ee_hdr e ++ data ∧
  ee_hlen e = Z.of_nat (length (ee_hdr e)) ∧
  ext_hdr_nxt b (Z.of_nat (length pre)) = Ok nxt ∧
  ext_hdr_hlen b (Z.of_nat (length pre)) = Ok (ee_hlen e) ∧
  populate_map b (Z.of_nat (length pre)) = Ok m.
Proof using Hentries Hfresh.
  intros Hs e b. pose proof (length_ext_hdr nxt x m ltac:(lia)) as Hlen. fold e in Hlen.
  pose proof (padding_of_spec (ext_size m) ltac:(unfold ext_size, entries_size, EXT_LEN; lia)) as [Hp Hmod].
  pose proof (entries_size_pos (map_to_list m)) as Hpos. fold (ext_size m) in Hpos. unfold EXT_LEN in Hpos.
  set (size := ext_size m + padding_of (ext_size m)) in *.
  assert (size ≤ 252) as Hle by (pose proof (Z.div_mod size 4 ltac:(lia)); lia).
  pose proof (ext_update_bytes nxt x m ltac:(lia)) as Hbytes. fold e size in Hbytes. cbv zeta in Hbytes.
  assert (u8 size = size) as Hu by (apply wrapU_small; lia). rewrite Hu in Hbytes.
  assert (ee_hlen e = size) as Hh by (unfold ee_hlen; by rewrite Hbytes).
  assert (ext_encap e data = ee_hdr e ++ data) as He by (unfold ext_encap; rewrite take_ge by lia; done).
  assert (b = pre ++ nxt :: size :: (entries m ≫= entry_bytes) ++ replicate (Z.to_nat (padding_of (ext_size m))) 0 ++ data) as Hb
    by (unfold b; rewrite He, Hbytes; by rewrite <-!app_assoc).
  assert (ext_hdr_hlen b (Z.of_nat (length pre)) = Ok size) as Hb1.
  { unfold ext_hdr_hlen. rewrite Hb. replace (Z.of_nat (length pre) + 1) with (Z.of_nat (length (pre ++ [nxt])))
      by (rewrite length_app; simpl; lia).
    change (nxt :: size :: ?l) with ([nxt] ++ size :: l). rewrite app_assoc. by rewrite vgetz_middle. }
  split; [done|]. split; [by rewrite Hlen|]. split; [unfold ext_hdr_nxt; rewrite Hb; by rewrite vgetz_middle|].
  split; [by rewrite Hh|]. unfold populate_map. rewrite Hb1. cbn [mbind res_bind]. unfold EXT_LEN.
  assert (Forall short (entries m)) as Hsh.
  { apply entries_short. rewrite (entries_size_perm _ _ (Hentries m)). fold (ext_size m). lia. }
  assert (length (entries m) < 256)%nat as Hcnt.
  { assert (2 * length (entries m) ≤ length (entries m ≫= entry_bytes))%nat as H2.
    { clear. generalize (entries m). induction l as [|e l IH]; [done|]. rewrite bind_cons, length_app, length_entry.
      cbn [length]. lia. }
    pose proof (entries_size_perm _ _ (Hentries m)) as Hpm. fold (ext_size m) in Hpm. unfold entries_size, EXT_LEN in Hpm. lia. }
  pose proof (populate_entries (entries m) (replicate (Z.to_nat (padding_of (ext_size m))) 0) data Hsh
    ltac:(by apply Forall_replicate) 256 (pre ++ [nxt; size]) ∅ Hcnt) as Hpop.
  rewrite foldl_entries, <-app_assoc in Hpop. change ([nxt; size] ++ ?l) with (nxt :: size :: l) in Hpop.
  rewrite <-Hb in Hpop. rewrite <-Hpop. f_equal.
  - rewrite length_app. cbn [length]. lia.
  - rewrite length_app, length_replicate. cbn [length]. pose proof (entries_size_perm _ _ (Hentries m)) as Hpm.
    fold (ext_size m) in Hpm. unfold entries_size, EXT_LEN in Hpm. unfold size. lia.
Qed.
End roundtrip.

(** ** Sizes *)

Lemma ext_size_empty : ext_size ∅ = EXT_LEN.
Proof. unfold ext_size. by rewrite map_to_list_empty. Qed.

Lemma ext_size_insert m k v : m !! k = None → ext_size (<[k := v]> m) = ext_size m + EXT_LEN + Z.of_nat (length v).
Proof. intros H. unfold ext_size. by rewrite (entries_size_perm _ _ (map_to_list_insert m k v H)), entries_size_cons. Qed.

Lemma transport_size type info seq ack len : ext_size (transport_map type info seq ack len) = 24.
Proof.
  unfold transport_map. rewrite !ext_size_insert; [|by simplify_map_eq..].
  rewrite ext_size_empty, !length_le_bytes. done.
Qed.

Lemma padding_24 : padding_of 24 = 0.
Proof. done. Qed.

(** ** Theorems *)

Section ext_theorems.
Context (entries : kvmap → list (Z * list Z)) (fresh : nat → list Z).

(** an extension header whose entries take at most 252 bytes is written in
    front of the data, with its length in its length byte, and wherever it
    stands in a packet its map is read back, in whatever order the table is
    iterated. *)
Theorem ext_roundtrip nxt x m pre data : (∀ m, entries m ≡ₚ map_to_list m) → (∀ n, length (fresh n) = n) →
  ext_size m ≤ 252 →
  let e := ext_update entries fresh (mkExtEncap [nxt; x] m) in
  let b := pre ++ ext_encap e data in
  ext_encap e data = ee_hdr e ++ data ∧ ee_hlen e = Z.of_nat (length (ee_hdr e)) ∧
  ext_hdr_nxt b (Z.of_nat (length pre)) = Ok nxt ∧ ext_hdr_hlen b (Z.of_nat (length pre)) = Ok (ee_hlen e) ∧
  populate_map b (Z.of_nat (length pre)) = Ok m.
Proof using. intros He Hf Hs. by apply ext_read. Qed.

(** entries that take 253 or 254 bytes pass the check of [update], but the
    padding brings the size to 256, the length byte is 0 and the header is not
    written at all. *)
Theorem ext_header_lost nxt x m data : (∀ m, entries m ≡ₚ map_to_list m) → (∀ n, length (fresh n) = n) →
  252 < ext_size m < 255 →
  let e := ext_update entries fresh (mkExtEncap [nxt; x] m) in
  length (ee_hdr e) = 256%nat ∧ ee_hlen e = 0 ∧ ext_encap e data = data.
Proof using.
  intros He Hf Hs e. pose proof (length_ext_hdr entries fresh He Hf nxt x m ltac:(lia)) as Hlen. fold e in Hlen.
  pose proof (padding_of_spec (ext_size m) ltac:(lia)) as [Hp Hmod].
  assert (ext_size m + padding_of (ext_size m) = 256) as H256
    by (pose proof (Z.div_mod (ext_size m + padding_of (ext_size m)) 4 ltac:(lia)); lia).
  pose proof (ext_update_bytes entries fresh He Hf nxt x m ltac:(lia)) as Hb. fold e in Hb. cbv zeta in Hb.
  rewrite H256 in Hb, Hlen. assert (ee_hlen e = 0) as H0 by (unfold ee_hlen; by rewrite Hb).
  split; [lia|]. split; [done|]. unfold ext_encap. by rewrite H0.
Qed.
End ext_theorems.

Lemma ext_roundtrip_witness :
  let e := ext_update map_to_list (λ n, replicate n 170) (mkExtEncap [59; 2] {[7 := [1; 2; 3]]}) in
  populate_map ([9; 9] ++ ext_encap e [5]) 2 = Ok {[7 := [1; 2; 3]]}.
Proof.
  intros e. apply (ext_roundtrip map_to_list (λ n, replicate n 170) 59 2 {[7 := [1; 2; 3]]} [9; 9] [5]);
    [done|intros; apply length_replicate|vm_compute; discriminate].
Defined.

Lemma ext_header_lost_witness :
  let e := ext_update map_to_list (λ n, replicate n 170) (mkExtEncap [59; 2] {[0 := replicate 249 7]}) in
  length (ee_hdr e) = 256%nat ∧ ee_hlen e = 0 ∧ ext_encap e [5] = [5].
Proof.
  apply (ext_header_lost map_to_list (λ n, replicate n 170)); [done|intros; apply length_replicate|by vm_compute].
Defined.
