(* ===== verification/RouteTable.v ===== *)
(** * RouteTable: the XID routing table (elements/xia/xiaxidroutetable.cc)

    The table, its handlers and the forwarding decision.  The pointers of the
    table are each owned by one entry, so that values stand for them; memory
    the code leaks is not modelled. *)

From Stdlib Require Import ZArith Lia Ascii String.
From stdpp Require Import base gmap sets list.
From S2P Require Import Prelude Text ConfParse XiaPath XiaPathOrder XiaPathCodec XidText XiaPathText XiaHeader.

Local Open Scope Z_scope.

#[global] Instance Xid_countable : Countable Xid.
Proof.
  apply (inj_countable' (λ x, (xid_type x, xid_id x)) (λ t, mkXid t.1 t.2)). by intros [].
Defined.

(** ** Ports with a meaning *)

Definition TOTAL_SPECIAL_CASES : Z := 8.
Definition DESTINED_FOR_DISCARD : Z := -1.
Definition DESTINED_FOR_LOCALHOST : Z := -2.
Definition DESTINED_FOR_DHCP : Z := -3.
Definition DESTINED_FOR_BROADCAST : Z := -4.
Definition REDIRECT : Z := -5.
Definition UNREACHABLE : Z := -6.
Definition FALLBACK : Z := -7.

(** ** The table *)

Record XIARouteData := mkRoute { rt_port : Z; rt_flags : Z; rt_nexthop : option Xid }.

Record XIAXIDRouteTable := mkTable {
  _rts : gmap Xid XIARouteData;
  _rtdata : XIARouteData;              (* the default route *)
  _principal_type_enabled : Z;
  _num_ports : Z;
  _local_addr : XIAPath;
  _local_hid : Xid }.

(** The value [configure] parses from the text [BHID]. *)
Definition _bcast_xid : Xid := mkXid (htonl CLICK_XIA_XID_TYPE_HID) (replicate 20 255).

Definition route_configure (local_addr : XIAPath) (num_ports : Z) : res XIAXIDRouteTable :=
  hid ← path_xid local_addr (p_dst local_addr);
  Ok (mkTable ∅ (mkRoute (-1) 0 None) 1 num_ports local_addr hid).

Definition with_rts (t : XIAXIDRouteTable) (m : gmap Xid XIARouteData) : XIAXIDRouteTable :=
  mkTable m (_rtdata t) (_principal_type_enabled t) (_num_ports t) (_local_addr t) (_local_hid t).
Definition with_default (t : XIAXIDRouteTable) (d : XIARouteData) : XIAXIDRouteTable :=
  mkTable (_rts t) d (_principal_type_enabled t) (_num_ports t) (_local_addr t) (_local_hid t).
Definition with_local (t : XIAXIDRouteTable) (a : XIAPath) : XIAXIDRouteTable :=
  mkTable (_rts t) (_rtdata t) (_principal_type_enabled t) (_num_ports t) a (_local_hid t).

Definition set_enabled (t : XIAXIDRouteTable) (e : Z) : XIAXIDRouteTable :=
  mkTable (_rts t) (_rtdata t) e (_num_ports t) (_local_addr t) (_local_hid t).

(** ** Handlers *)

(** [ErrorHandler::error_result], -EINVAL. *)
Definition error_result : Z := -22.

Section handlers.
Variable query_xid : str → option Xid.
Variable query_ip : str → option (list Z).

(** The next hop of a route: none, or an XID that parses and is valid. *)
Definition parse_nexthop (args : list str) : option (option Xid) :=
  match args !! 2%nat with
  | Some (c :: s) =>
      let x := default Xid_undef (cp_xid query_xid query_ip (c :: s)) in
      if xid_valid x then Some (Some x) else None
  | _ => Some None
  end.

(** The route [xid,port,nexthop,flags] is added, or set. *)
Definition set_handler4 (conf : str) (add_mode : bool) (t : XIAXIDRouteTable) : XIAXIDRouteTable * Z :=
  let args := cp_argvec conf in
  let n := length args in
  if decide (n < 2 ∨ 4 < n)%nat then (t, error_result)
  else
    match cp_integer (default [] (args !! 1%nat)) true with
    | None => (t, error_result)
    | Some port =>
        match (if decide (n = 4%nat) then cp_integer (default [] (args !! 3%nat)) false else Some 0) with
        | None => (t, error_result)
        | Some flags =>
            match parse_nexthop args with
            | None => (t, error_result)
            | Some nexthop =>
                let xid_str := default [] (args !! 0%nat) in
                let d := mkRoute port flags nexthop in
                if decide (xid_str = ["-"%char]) then
                  if add_mode && bool_decide (rt_port (_rtdata t) ≠ -1) then (t, error_result)
                  else (with_default t d, 0)
                else
                  match cp_xid query_xid query_ip xid_str with
                  | None => (t, error_result)
                  | Some x =>
                      if add_mode && bool_decide (is_Some (_rts t !! x)) then (t, error_result)
                      else (with_rts t (<[x := d]> (_rts t)), 0)
                  end
            end
        end
    end.

(** The older form [xid port]. *)
Definition set_handler (conf : str) (add_mode : bool) (t : XIAXIDRouteTable) : XIAXIDRouteTable * Z :=
  let '(xid_str, rest) := cp_shift_spacevec conf in
  if decide (xid_str = []) then (t, 0)
  else
    match cp_integer rest true with
    | None => (t, error_result)
    | Some port => set_handler4 (xid_str ++ lit "," ++ print_d port ++ lit ",,0") add_mode t
    end.

Definition remove_handler (xid_str : str) (t : XIAXIDRouteTable) : XIAXIDRouteTable * Z :=
  if decide (xid_str = []) then (t, 0)
  else if decide (xid_str = ["-"%char]) then (with_default t (mkRoute (-1) 0 None), 0)
  else
    match cp_xid query_xid query_ip xid_str with
    | None => (t, error_result)
    | Some x =>
        match _rts t !! x with
        | None => (t, error_result)
        | Some _ => (with_rts t (delete x (_rts t)), 0)
        end
    end.

(** The characters of a buffer before the first NUL. *)
Fixpoint c_chars (s : str) : str :=
  match s with
  | [] => []
  | c :: s => if decide (code c = 0) then [] else c :: c_chars s
  end.

(** An input stream: the characters left, and its state bits. *)
Record ifstream := mkStream { st_rest : str; st_eof : bool; st_fail : bool }.

(** [getline(buf, 1024)].  A line of 1024 characters or more sets the fail bit,
    after which nothing is read any more. *)
Fixpoint getline_loop (room : nat) (s buf : str) {struct s} : str * ifstream :=
  match s with
  | [] => (buf, mkStream [] true (bool_decide (buf = [])))
  | c :: s' =>
      if decide (c = NL) then (buf, mkStream s' false false)
      else match room with
           | O => (buf, mkStream s false true)
           | S room => getline_loop room s' (buf ++ [c])
           end
  end.

Definition getline (i : ifstream) : str * ifstream :=
  if st_fail i || st_eof i then ([], mkStream (st_rest i) (st_eof i) true) else getline_loop 1023 (st_rest i) [].

(** [load_routes_handler] at user level, on the contents of the file. *)
Fixpoint load_loop (fuel : nat) (i : ifstream) (t : XIAXIDRouteTable) : res (XIAXIDRouteTable * Z) :=
  if st_eof i then Ok (t, 0)
  else match fuel with
       | O => Ub OutOfFuel
       | S fuel =>
           let '(buf, i) := getline i in
           if decide (c_chars buf = []) then load_loop fuel i t
           else
             let '(t, e) := set_handler (c_chars buf) true t in
             if decide (e ≠ 0) then Ok (t, -1) else load_loop fuel i t
       end.

Definition load_routes (fuel : nat) (file : str) (t : XIAXIDRouteTable) : res (XIAXIDRouteTable * Z) :=
  load_loop fuel (mkStream file false false) t.
End handlers.

(** A line of the listing, without the newline. *)
Definition route_line (name : str) (d : XIARouteData) : res str :=
  nexthop ← (match rt_nexthop d with Some x => xid_unparse x | None => Ok [] end);
  Ok (name ++ ","%char :: print_d (rt_port d) ++ ","%char :: nexthop ++ ","%char :: print_d (rt_flags d)).

(** [list_routes_handler], with the entries in the order of the hash table. *)
Definition list_routes (entries : list (Xid * XIARouteData)) (t : XIAXIDRouteTable) : res str :=
  default_line ← route_line ["-"%char] (_rtdata t);
  foldM (λ tbl e, x ← xid_unparse e.1; line ← route_line x e.2; Ok (tbl ++ line ++ [NL]))
    (default_line ++ [NL]) entries.

(** ** Forwarding *)

(** The next hop a route names goes into the packet when the route leaves the
    host. *)
Definition route_packet (d : XIARouteData) (p : Packet) : Packet :=
  match rt_nexthop d with
  | Some x =>
      if decide (rt_port d ≠ DESTINED_FOR_LOCALHOST ∧ rt_port d ≠ FALLBACK)
      then set_nexthop_neighbor_xid_anno p x else p
  | None => p
  end.

(** The HID of the sender of a broadcast: the node before the source path's
    last one. *)
Definition source_hid (b : list Z) : res Xid :=
  sp ← src_path b;
  _ ← cgetz (p_nodes sp) (p_dst sp);
  sp ← remove_node sp (Z.to_nat (p_dst sp));
  path_xid sp (p_dst sp).

(** The row of the edges to consider: that of the last visited node, or of the
    source. *)
Definition current_row (b : list Z) : res Z :=
  last ← hdr_last b;
  dnode ← hdr_dnode b;
  Ok (if decide (last < 0) then last + dnode else last).

Definition lookup_route (t : XIAXIDRouteTable) (in_ether_port : Z) (p : Packet)
    : res (XIAXIDRouteTable * Packet * Z) :=
  row ← current_row (p_data p);
  idx ← edge_idx (p_data p) row (XIA_NEXT_PATH_ANNO p);
  if decide (idx = CLICK_XIA_XID_EDGE_UNUSED) then Ok (t, p, rt_port (_rtdata t))
  else
    x ← node_xid (p_data p) idx;
    if decide (_bcast_xid = x) then
      hid ← source_hid (p_data p);
      if decide (_local_hid t = hid) then
        Ok (t, set_nexthop_neighbor_xid_anno p _bcast_xid, DESTINED_FOR_BROADCAST)
      else
        let d := match _rts t !! hid with
                 | Some d => mkRoute in_ether_port (rt_flags d) (rt_nexthop d)
                 | None => mkRoute in_ether_port 0 (Some hid)
                 end in
        Ok (with_rts t (<[hid := d]> (_rts t)), p, DESTINED_FOR_LOCALHOST)
    else
      let d := default (_rtdata t) (_rts t !! x) in
      Ok (t, route_packet d p, rt_port d).

(** An XCMP redirect names the new next hop of a destination. *)
Definition process_xcmp_redirect (t : XIAXIDRouteTable) (p : Packet) : res XIAXIDRouteTable :=
  pay ← payload (p_data p);
  dest ← xid_at (p_data p) (pay + 4);
  newroute ← xid_at (p_data p) (pay + 4 + 24);
  match _rts t !! dest with
  | Some d => Ok (with_rts t (<[dest := mkRoute (rt_port d) (rt_flags d) (Some newroute)]> (_rts t)))
  | None =>
      a ← path_unparse (λ _, []) (_local_addr t);
      s ← xid_unparse dest;
      let port := if contains s a.2 then DESTINED_FOR_LOCALHOST else rt_port (_rtdata t) in
      Ok (with_local (with_rts t (<[dest := mkRoute port 0 (Some newroute)]> (_rts t))) a.1)
  end.

(** What [push] sends, in order: the output port and the packet. *)
Definition route_push (t : XIAXIDRouteTable) (p : Packet) : res (XIAXIDRouteTable * list (Z * Packet)) :=
  let in_ether_port := XIA_PAINT_ANNO p in
  if decide (_principal_type_enabled t = 0) then Ok (t, [(2, p)])
  else if decide (in_ether_port = REDIRECT) then t ← process_xcmp_redirect t p; Ok (t, [])
  else
    r ← lookup_route t in_ether_port p;
    let '(t, p, port) := r in
    let redirect :=
      if decide (port = in_ether_port ∧ in_ether_port ≠ DESTINED_FOR_LOCALHOST ∧ in_ether_port ≠ DESTINED_FOR_DISCARD)
      then [(4, SET_XIA_PAINT_ANNO p ((XIA_PAINT_ANNO p + TOTAL_SPECIAL_CASES) * -1))] else [] in
    let sent :=
      if decide (0 ≤ port) then [(0, SET_XIA_PAINT_ANNO p port)]
      else if decide (port = DESTINED_FOR_LOCALHOST) then [(1, p)]
      else if decide (port = DESTINED_FOR_DHCP) then [(3, SET_XIA_PAINT_ANNO p port)]
      else if decide (port = DESTINED_FOR_BROADCAST) then
        map (λ i, (0, SET_XIA_PAINT_ANNO p i)) (seqZ 0 (_num_ports t + 1))
      else [(2, p)] in
    Ok (t, redirect ++ sent).
