(* ===== verification/RouteTableSpec.v ===== *)
(** * RouteTableSpec: properties of the routing table's handlers

    A listing fed back line by line restores the table; a route that was set is
    the one a lookup finds; loading a file with an overlong line never ends. *)

From Stdlib Require Import ZArith Lia Ascii String.
From stdpp Require Import base gmap sets list.
From S2P Require Import Prelude Text ConfParse XiaPath XiaPathOrder XiaPathCodec XidText XiaPathText XiaHeader RouteTable.

Local Open Scope Z_scope.

(** ** One route as text *)

Definition printable_route (d : XIARouteData) : Prop :=
  - 2 ^ 31 < rt_port d < 2 ^ 31 ∧ 0 ≤ rt_flags d < 2 ^ 31 ∧
  ∀ x, rt_nexthop d = Some x → printable x ∧ xid_valid x = true.

Lemma print_d_neg n : 0 < n → print_d (- n) = "-"%char :: print_d n.
Proof. intros Hn. unfold print_d. rewrite decide_True, decide_False, Z.opp_involutive by lia. done. Qed.

Lemma cp_integer_signed n : - 2 ^ 31 < n < 2 ^ 31 → cp_integer (print_d n) true = Some n.
Proof.
  intros Hn. destruct (decide (0 ≤ n)); [apply cp_integer_print; lia|].
  replace n with (- (- n)) by lia. rewrite print_d_neg by lia. apply cp_integer_print_neg. lia.
Qed.

Lemma plain_minus : plain "-"%char.
Proof. split; [by vm_compute|set_solver]. Qed.

Lemma word_signed n : word (print_d n).
Proof.
  destruct (decide (0 ≤ n)); [by apply word_number|]. replace n with (- (- n)) by lia. rewrite print_d_neg by lia.
  split; [done|]. constructor; [apply plain_minus|]. by apply word_number; lia.
Qed.

(** The printed next hop. *)
Definition nexthop_text (d : XIARouteData) : str :=
  match rt_nexthop d with Some x => xid_word x | None => [] end.

Definition route_text (name : str) (d : XIARouteData) : str :=
  join ","%char [name; print_d (rt_port d); nexthop_text d; print_d (rt_flags d)].

Lemma route_line_text name d : printable_route d → route_line name d = Ok (route_text name d).
Proof.
  intros (_ & _ & Hn). unfold route_line, route_text, nexthop_text.
  destruct (rt_nexthop d) as [x|]; [|done]. destruct (Hn x eq_refl) as [(Hk & Hl & _) _].
  by rewrite (xid_unparse_known x Hk Hl).
Qed.

Lemma nexthop_plain d : printable_route d → Forall plain (nexthop_text d).
Proof.
  intros (_ & _ & Hn). unfold nexthop_text. destruct (rt_nexthop d) as [x|]; [|done].
  by apply xid_word_ok, (Hn x).
Qed.

Lemma route_text_args name d : Forall plain name → printable_route d →
  cp_argvec (route_text name d) = [name; print_d (rt_port d); nexthop_text d; print_d (rt_flags d)].
Proof.
  intros Hname Hd. apply argvec_join.
  - repeat constructor; [done|apply word_signed|by apply nexthop_plain|apply word_signed].
  - simpl. intros [= Hl]. by destruct (word_signed (rt_flags d)).
Qed.

Lemma xid_word_not_dash x : xid_word x ≠ ["-"%char].
Proof.
  unfold xid_word. intros Heq. assert (":"%char ∈ ["-"%char]) as H by (rewrite <-Heq; set_solver). set_solver.
Qed.

Section restore.
Context (qx : str → option Xid) (qi : str → option (list Z)).
Context (Hqx : ∀ s, qx s = None) (Hqi : ∀ s, qi s = None).

Lemma parse_nexthop_text name port flags d : printable_route d →
  parse_nexthop qx qi [name; port; nexthop_text d; flags] = Some (rt_nexthop d).
Proof using Hqx Hqi.
  intros (_ & _ & Hn). unfold parse_nexthop, nexthop_text. cbn [lookup list_lookup].
  destruct (rt_nexthop d) as [x|]; [|done]. destruct (Hn x eq_refl) as [Hp Hv].
  pose proof (parse_printable qx qi Hqx Hqi x Hp) as Hc. destruct (xid_word_ok x Hp) as [Hne _].
  destruct (xid_word x) as [|c w]; [done|]. by rewrite Hc; simpl; rewrite Hv.
Qed.

(** The handler on the text of a route. *)
Lemma set_route_text x d add t : printable x → printable_route d →
  set_handler4 qx qi (route_text (xid_word x) d) add t =
    if add && bool_decide (is_Some (_rts t !! x)) then (t, error_result)
    else (with_rts t (<[x := d]> (_rts t)), 0).
Proof using Hqx Hqi.
  intros Hx Hd. unfold set_handler4. rewrite route_text_args by (done || by apply xid_word_ok).
  cbn [length lookup list_lookup from_option id]. rewrite (decide_False (P := (4 < 2 ∨ 4 < 4)%nat)) by lia.
  pose proof Hd as (Hp & Hf & _). rewrite cp_integer_signed by done. rewrite (decide_True (P := 4%nat = 4%nat)) by done.
  rewrite cp_integer_print by done. rewrite parse_nexthop_text by done. rewrite decide_False by apply xid_word_not_dash.
  rewrite (parse_printable qx qi Hqx Hqi x Hx). by destruct d.
Qed.

Lemma set_default_text d add t : printable_route d →
  set_handler4 qx qi (route_text ["-"%char] d) add t =
    if add && bool_decide (rt_port (_rtdata t) ≠ -1) then (t, error_result) else (with_default t d, 0).
Proof using Hqx Hqi.
  intros Hd. unfold set_handler4. rewrite route_text_args by (done || (constructor; [apply plain_minus|constructor])).
  cbn [length lookup list_lookup from_option id]. rewrite (decide_False (P := (4 < 2 ∨ 4 < 4)%nat)) by lia.
  pose proof Hd as (Hp & Hf & _). rewrite cp_integer_signed by done. rewrite (decide_True (P := 4%nat = 4%nat)) by done.
  rewrite cp_integer_print by done. rewrite parse_nexthop_text by done. rewrite decide_True by done. by destruct d.
Qed.

(** ** The whole listing *)

(** The [set4] handler on one line after the other, until one is refused. *)
Definition set_lines (lines : list str) (t : XIAXIDRouteTable) : XIAXIDRouteTable * Z :=
  foldl (λ acc line, if decide (acc.2 = 0) then set_handler4 qx qi line false acc.1 else acc) (t, 0) lines.

Lemma set_lines_entries entries t : Forall (λ e, printable e.1 ∧ printable_route e.2) entries →
  set_lines (map (λ e, route_text (xid_word e.1) e.2) entries) t =
    (with_rts t (foldl (λ m e, <[e.1 := e.2]> m) (_rts t) entries), 0).
Proof using Hqx Hqi.
  intros He. revert t. induction He as [|[x d] entries [Hx Hd] He IH]; intros t; [by destruct t|].
  unfold set_lines in *. cbn [map foldl fst snd] in *. rewrite decide_True by done.
  rewrite set_route_text by done. cbn [andb]. by rewrite IH.
Qed.

Lemma list_routes_lines entries t : Forall (λ e, printable e.1 ∧ printable_route e.2) entries →
  printable_route (_rtdata t) → list_routes entries t =
    Ok ((route_text ["-"%char] (_rtdata t) :: map (λ e, route_text (xid_word e.1) e.2) entries) ≫= (λ l, l ++ [NL])).
Proof using.
  intros He Hd. unfold list_routes. rewrite route_line_text by done. cbn [mbind res_bind].
  assert (∀ tbl, foldM (λ tbl e, x ← xid_unparse e.1; line ← route_line x e.2; Ok (tbl ++ line ++ [NL])) tbl entries =
    Ok (tbl ++ (map (λ e, route_text (xid_word e.1) e.2) entries ≫= (λ l, l ++ [NL])))) as ->; [|done].
  induction He as [|[x d] entries [(Hk & Hl & Hb) Hdx] He IH]; intros tbl; [by rewrite app_nil_r|].
  cbn [foldM fst snd map]. rewrite xid_unparse_known by done. cbn [mbind res_bind].
  rewrite route_line_text by done. cbn [mbind res_bind]. rewrite IH, bind_cons. unfold xid_word. by rewrite <-!app_assoc.
Qed.
End restore.

Lemma split_lines lines : Forall (λ l, NL ∉ l) lines → split (lines ≫= (λ l, l ++ [NL])) NL = lines.
Proof.
  induction 1 as [|l lines Hl Hf IH]; [done|]. rewrite bind_cons, <-app_assoc. cbn [app].
  rewrite split_cons by done. by rewrite IH.
Qed.

Lemma plain_no_NL w : Forall plain w → NL ∉ w.
Proof. intros Hw Hin. rewrite Forall_forall in Hw. destruct (Hw NL Hin) as [[H _] _]. by vm_compute in H. Qed.

Lemma route_text_no_NL name d : Forall plain name → printable_route d → NL ∉ route_text name d.
Proof.
  intros Hname Hd. unfold route_text. cbn [join].
  pose proof (plain_no_NL _ Hname). pose proof (plain_no_NL _ (nexthop_plain d Hd)).
  pose proof (plain_no_NL _ (proj2 (word_signed (rt_port d)))). pose proof (plain_no_NL _ (proj2 (word_signed (rt_flags d)))).
  rewrite !elem_of_app, !elem_of_cons, !elem_of_app, !elem_of_cons, elem_of_app, elem_of_cons.
  assert (NL ≠ ","%char) by done. tauto.
Qed.

Lemma foldl_insert {K A} `{Countable K} (entries : list (K * A)) (m : gmap K A) :
  foldl (λ m e, <[e.1 := e.2]> m) m entries = list_to_map (reverse entries) ∪ m.
Proof.
  revert m. induction entries as [|[k a] entries IH]; intros m; simpl; [by rewrite (left_id_L ∅ (∪))|].
  rewrite IH, reverse_cons, list_to_map_app, insert_union_singleton_l, (assoc_L (∪)). done.
Qed.

(** the listing of a table, fed back line by line to the [set4] handler of an
    empty table, restores every route and the default route, in whatever order
    the hash table is walked. *)
Theorem route_listing_restores qx qi t t0 entries : (∀ s, qx s = None) → (∀ s, qi s = None) →
  entries ≡ₚ map_to_list (_rts t) → Forall (λ e, printable e.1 ∧ printable_route e.2) entries →
  printable_route (_rtdata t) → _rts t0 = ∅ →
  ∃ text, list_routes entries t = Ok text ∧
    set_lines qx qi (split text NL) t0 = (with_default (with_rts t0 (_rts t)) (_rtdata t), 0).
Proof.
  intros Hqx Hqi Hperm He Hd H0. eexists. split; [by apply list_routes_lines|]. rewrite split_lines.
  2:{ constructor; [apply route_text_no_NL; [constructor; [apply plain_minus|done]|done]|].
    apply Forall_map. eapply Forall_impl; [done|]. intros [x d] [Hx Hdx]. apply route_text_no_NL; [|done].
    by apply xid_word_ok. }
  pose proof (set_lines_entries qx qi Hqx Hqi entries (with_default t0 (_rtdata t)) He) as Hs. unfold set_lines in *.
  cbn [foldl fst snd]. rewrite decide_True by done. rewrite set_default_text by done. cbn [andb].
  rewrite Hs. cbn [_rts with_default]. rewrite foldl_insert, H0, (right_id_L ∅ (∪)).
  replace (list_to_map (reverse entries)) with (_rts t); [done|].
  apply list_to_map_flip. by rewrite reverse_Permutation.
Qed.

Definition empty_table : XIAXIDRouteTable := mkTable ∅ (mkRoute (-1) 0 None) 1 4 XIAPath_reset Xid_undef.
Definition listed_table : XIAXIDRouteTable :=
  mkTable {[xid_a := mkRoute 3 0 (Some xid_d)]} (mkRoute 1 7 None) 1 4 XIAPath_reset Xid_undef.

Lemma printable_demo : printable xid_a ∧ printable xid_d.
Proof.
  split; (split; [by (apply (bool_decide_unpack _); vm_compute)|split; [done|]]);
    apply Forall_replicate; unfold is_byte; lia.
Qed.

Lemma route_listing_restores_witness : ∃ text, list_routes [(xid_a, mkRoute 3 0 (Some xid_d))] listed_table = Ok text ∧
  set_lines (λ _, None) (λ _, None) (split text NL) empty_table = (listed_table, 0).
Proof.
  apply (route_listing_restores (λ _, None) (λ _, None) listed_table empty_table);
    [done|done|by vm_compute| |by split_and!|done].
  - constructor; [|constructor]. split; [apply printable_demo|]. split_and!; [simpl; lia..|].
    intros x [= <-]. split; [apply printable_demo|done].
Defined.

(** *** Loading *)

(** A stream that has failed is read for ever. *)
Lemma load_failed qx qi i t fuel : st_fail i = true → st_eof i = false → load_loop qx qi fuel i t = Ub OutOfFuel.
Proof.
  revert i. induction fuel as [|fuel IH]; intros i Hf He; cbn [load_loop]; rewrite He; [done|].
  unfold getline. rewrite Hf. by apply IH.
Qed.

Lemma getline_long s rest room buf : NL ∉ s → (room < length s)%nat →
  getline_loop room (s ++ rest) buf = (buf ++ take room s, mkStream (drop room s ++ rest) false true).
Proof.
  revert room buf. induction s as [|c s IH]; intros room buf Hs Hr; [simpl in Hr; lia|]. cbn [app getline_loop].
  apply not_elem_of_cons in Hs as [Hc Hs]. rewrite decide_False by done. destruct room as [|room]; [by rewrite app_nil_r|].
  simpl in Hr. rewrite IH by (done || lia). cbn [take drop]. by rewrite <-app_assoc.
Qed.

Lemma getline_short s rest room buf : NL ∉ s → (length s ≤ room)%nat →
  getline_loop room (s ++ NL :: rest) buf = (buf ++ s, mkStream rest false false).
Proof.
  revert room buf. induction s as [|c s IH]; intros room buf Hs Hr.
  { cbn [app]. destruct room; cbn [getline_loop]; rewrite decide_True by done; by rewrite app_nil_r. }
  cbn [app getline_loop]. apply not_elem_of_cons in Hs as [Hc Hs]. rewrite decide_False by done. simpl in Hr.
  destruct room as [|room]; [lia|]. rewrite IH by (done || lia). by rewrite <-app_assoc.
Qed.

(** a line of 1024 characters or more makes [load] loop for ever, unless
    what the buffer holds of it is refused as a route. *)
Theorem load_overlong qx qi line rest t t' : NL ∉ line → (1024 ≤ length line)%nat →
  set_handler qx qi (c_chars (take 1023 line)) true t = (t', 0) →
  ∀ fuel, load_routes qx qi fuel (line ++ rest) t = Ub OutOfFuel.
Proof.
  intros Hnl Hlen Hset fuel. unfold load_routes. destruct fuel as [|fuel]; [done|].
  cbn [load_loop st_eof]. unfold getline. cbn [st_fail st_eof st_rest orb].
  rewrite (getline_long line rest 1023 [] Hnl) by lia. cbn [app].
  case_decide; [by apply load_failed|]. rewrite Hset. rewrite decide_False by (intros H'; by apply H').
  by apply load_failed.
Qed.

Lemma load_overlong_witness :
  load_routes (λ _, None) (λ _, None) 1000 (replicate 1024 " "%char ++ [NL]) empty_table = Ub OutOfFuel.
Proof.
  apply (load_overlong _ _ _ _ empty_table empty_table); [|by rewrite length_replicate|by vm_compute].
  intros [Hn _]%elem_of_replicate. done.
Defined.

(** A line of a route file: an XID and a port. *)
Definition file_line (e : Xid * Z) : str := xid_word e.1 ++ " "%char :: print_d e.2.

Lemma word_c_chars w s : Forall plain w → c_chars (w ++ s) = w ++ c_chars s.
Proof.
  induction 1 as [|c w [Hc _] Hw IH]; [done|]. cbn [app c_chars]. rewrite decide_False by lia. by rewrite IH.
Qed.

Lemma file_line_c_chars e : printable e.1 → c_chars (file_line e) = file_line e.
Proof.
  intros Hx. unfold file_line. rewrite word_c_chars by (by apply xid_word_ok). f_equal. cbn [c_chars].
  rewrite decide_False by done. f_equal. rewrite <-(app_nil_r (print_d e.2)) at 1.
  rewrite word_c_chars by apply word_signed. apply app_nil_r.
Qed.

Lemma set_file_line qx qi e t : (∀ s, qx s = None) → (∀ s, qi s = None) → printable e.1 →
  - 2 ^ 31 < e.2 < 2 ^ 31 → _rts t !! e.1 = None →
  set_handler qx qi (file_line e) true t = (with_rts t (<[e.1 := mkRoute e.2 0 None]> (_rts t)), 0).
Proof.
  intros Hqx Hqi Hx Hp Hnew. unfold set_handler, file_line. destruct (xid_word_ok e.1 Hx) as [Hne Hw].
  rewrite shift_word by done. rewrite decide_False by done. rewrite skip_space_blank.
  destruct (word_signed e.2) as [Hpn Hpw]. assert (cp_skip_comment_space (print_d e.2) = print_d e.2) as ->.
  { destruct (print_d e.2) as [|c s]; [done|]. inversion Hpw. by apply skip_space_plain. }
  rewrite cp_integer_signed by done.
  pose proof (set_route_text qx qi Hqx Hqi e.1 (mkRoute e.2 0 None) true t Hx) as Hs.
  rewrite bool_decide_false in Hs by (rewrite Hnew; by intros []). apply Hs. split_and!; cbn; [lia..|done].
Qed.

Lemma load_lines qx qi entries : (∀ s, qx s = None) → (∀ s, qi s = None) →
  Forall (λ e, printable e.1 ∧ - 2 ^ 31 < e.2 < 2 ^ 31 ∧ (length (file_line e) < 1024)%nat) entries →
  NoDup entries.*1 → ∀ t, (∀ e, e ∈ entries → _rts t !! e.1 = None) →
  load_routes qx qi (S (length entries)) (entries ≫= (λ e, file_line e ++ [NL])) t =
    Ok (with_rts t (foldl (λ m e, <[e.1 := mkRoute e.2 0 None]> m) (_rts t) entries), 0).
Proof.
  intros Hqx Hqi He. unfold load_routes. induction He as [|e entries (Hx & Hp & Hl) He IH]; intros Hnd t Hnew;
    [by destruct t|].
  rewrite bind_cons, <-app_assoc. cbn [app length]. remember (S (length entries)) as fuel eqn:Hfuel.
  cbn [load_loop st_eof]. unfold getline. cbn [st_fail st_eof st_rest orb].
  assert (NL ∉ file_line e) as Hnl.
  { unfold file_line. rewrite elem_of_app, elem_of_cons. pose proof (plain_no_NL _ (proj2 (xid_word_ok _ Hx))).
    pose proof (plain_no_NL _ (proj2 (word_signed e.2))). assert (NL ≠ " "%char) by done. tauto. }
  rewrite getline_short by (done || lia). cbn [app]. rewrite file_line_c_chars by done.
  rewrite decide_False by (unfold file_line; by destruct (xid_word e.1)).
  rewrite set_file_line; [|done..|apply Hnew; set_solver]. rewrite decide_False by lia.
  apply NoDup_cons in Hnd as [Hnot Hnd]. rewrite IH; [done|done|].
  intros e' He'. cbn [_rts with_rts]. rewrite lookup_insert_ne; [apply Hnew; set_solver|].
  intros Heq. apply Hnot. rewrite Heq. by apply list_elem_of_fmap_2.
Qed.

(** a file of routes with distinct XIDs that are not in the table is loaded
    completely: every route is in the table afterwards, no other route has
    changed, and the loop ends after one round more than the file has lines. *)
Theorem load_routes_complete qx qi entries t : (∀ s, qx s = None) → (∀ s, qi s = None) →
  Forall (λ e, printable e.1 ∧ - 2 ^ 31 < e.2 < 2 ^ 31 ∧ (length (file_line e) < 1024)%nat) entries →
  NoDup entries.*1 → (∀ e, e ∈ entries → _rts t !! e.1 = None) →
  ∃ t', load_routes qx qi (S (length entries)) (entries ≫= (λ e, file_line e ++ [NL])) t = Ok (t', 0) ∧
    _rtdata t' = _rtdata t ∧ (∀ x port, (x, port) ∈ entries → _rts t' !! x = Some (mkRoute port 0 None)) ∧
    (∀ x, x ∉ entries.*1 → _rts t' !! x = _rts t !! x).
Proof.
  intros Hqx Hqi He Hnd Hnew. eexists. split; [by apply load_lines|]. split; [done|]. cbn [_rts with_rts].
  replace (foldl (λ m e, <[e.1 := mkRoute e.2 0 None]> m) (_rts t) entries)
    with (foldl (λ m e, <[e.1 := e.2]> m) (_rts t) (map (λ e, (e.1, mkRoute e.2 0 None)) entries))
    by (generalize (_rts t); clear; induction entries as [|e entries IH]; intros m; [done|apply IH]).
  rewrite foldl_insert. assert ((map (λ e, (e.1, mkRoute e.2 0 None)) entries).*1 = entries.*1) as Hk
    by (clear; induction entries as [|e entries IH]; [done|]; simpl; by f_equal).
  split.
  - intros x port Hin. apply lookup_union_Some_l, elem_of_list_to_map.
    + by rewrite fmap_reverse, Hk, reverse_Permutation.
    + rewrite elem_of_reverse. by apply (list_elem_of_fmap_2 (λ e : Xid * Z, (e.1, mkRoute e.2 0 None)) _ (x, port)).
  - intros x Hx. apply lookup_union_r, not_elem_of_list_to_map. by rewrite fmap_reverse, elem_of_reverse, Hk.
Qed.

Lemma load_routes_complete_witness : ∃ t', load_routes (λ _, None) (λ _, None) 3
    ([(xid_a, 3); (xid_d, -2)] ≫= (λ e, file_line e ++ [NL])) empty_table = Ok (t', 0) ∧
  _rts t' !! xid_d = Some (mkRoute (-2) 0 None).
Proof.
  destruct (load_routes_complete (λ _, None) (λ _, None) [(xid_a, 3); (xid_d, -2)] empty_table)
    as (t' & Hrun & _ & Hin & _); [done|done| | |intros e _; apply lookup_empty|].
  - destruct printable_demo as [Ha Hd]. constructor; [|constructor; [|constructor]]; cbn [fst snd]; (split; [done|]); (split; [lia|]);
      by apply Nat.ltb_lt; vm_compute.
  - by (apply (bool_decide_unpack _); vm_compute).
  - exists t'. split; [exact Hrun|]. apply Hin. right. left.
Defined.
