(* ===== verification/Elements.v ===== *)
(** * Elements: the small routing elements (elements/xia/*.cc)

    Each element is a function from a packet to what it pushes: the output port
    and the packet. *)

From Stdlib Require Import ZArith Lia Ascii String.
From stdpp Require Import base gmap sets list.
From S2P Require Import Prelude Text ConfParse XiaPath XidText XiaHeader RouteTable.

Local Open Scope Z_scope.

(** ** XIADecHLIM *)

Record XIADecHLIM := mkDecHLIM { dec_active : bool; dec_drops : Z }.

Definition DecHLIM_simple_action (e : XIADecHLIM) (p : Packet) : res (XIADecHLIM * (Z * Packet)) :=
  if dec_active e then
    hlim ← hdr_hlim (p_data p);
    if decide (hlim ≤ 1) then Ok (mkDecHLIM true (u32 (dec_drops e + 1)), (1, p))
    else b ← set_hlim (p_data p) (hlim - 1); Ok (e, (0, with_data p b))
  else Ok (e, (0, p)).

(** ** XIASelectPath *)

Definition SelectPath_push (first : bool) (p : Packet) : Z * Packet :=
  if first then (0, SET_XIA_NEXT_PATH_ANNO p 0)
  else
    let next := XIA_NEXT_PATH_ANNO p + 1 in
    let p := SET_XIA_NEXT_PATH_ANNO p next in
    if decide (next < Z.of_nat CLICK_XIA_XID_EDGE_NUM) then (0, p) else (1, p).

(** ** XIANextHop *)

(** The last-visited pointer moves along the current edge, which is marked as
    visited. *)
Definition NextHop_push (p : Packet) : res Packet :=
  row ← current_row (p_data p);
  let k := XIA_NEXT_PATH_ANNO p in
  x ← edge_byte (p_data p) row k;
  let e := slot_of_byte x in
  b ← set_last (p_data p) (e_idx e);
  b ← set_byte b (node_off row + 24 + k) (byte_of_slot (mkEdge (e_idx e) 1));
  Ok (with_data p b).

(** ** XIAPaint and XIAPaintSwitch *)

Definition Paint_simple_action (color : Z) (p : Packet) : Packet := SET_XIA_PAINT_ANNO p color.

(** The switch reads the low byte of the 16-bit annotation. *)
Definition PaintSwitch_push (noutputs : Z) (p : Packet) : list (Z * Packet) :=
  let output_port := u8 (XIA_PAINT_ANNO p) in
  if decide (output_port ≠ 255) then
    if decide (output_port < noutputs) then [(output_port, p)] else []
  else map (λ i, (i, p)) (seqZ 0 noutputs).

(** ** XIACheckDest *)

Definition CheckDest_push (p : Packet) : res (Z * Packet) :=
  last ← hdr_last (p_data p);
  dnode ← hdr_dnode (p_data p);
  Ok (if decide (last = dnode - 1) then 0 else 1, p).

(** ** XIAXIDTypeClassifier *)

Inductive pattern : Set :=
  | ANY
  | SRC (src_xid_type : Z)
  | DST (dst_xid_type : Z)
  | SRC_AND_DST (src_xid_type dst_xid_type : Z)
  | SRC_OR_DST (src_xid_type dst_xid_type : Z)
  | NEXT (next_xid_type : Z).

(** One argument of the configuration. *)
Definition parse_pattern (s : str) : option pattern :=
  let '(type_str, s) := cp_shift_spacevec s in
  if decide (type_str = lit "-") then Some ANY
  else if decide (type_str = lit "src" ∨ type_str = lit "dst" ∨ type_str = lit "next") then
    let '(xid_type_str, _) := cp_shift_spacevec s in
    match cp_xid_type xid_type_str with
    | None => None
    | Some t =>
        Some (if decide (type_str = lit "src") then SRC t
              else if decide (type_str = lit "dst") then DST t else NEXT t)
    end
  else if decide (type_str = lit "src_and_dst" ∨ type_str = lit "src_or_dst") then
    let '(s0, s) := cp_shift_spacevec s in
    let '(s1, _) := cp_shift_spacevec s in
    match cp_xid_type s0, cp_xid_type s1 with
    | Some t0, Some t1 =>
        Some (if decide (type_str = lit "src_and_dst") then SRC_AND_DST t0 t1 else SRC_OR_DST t0 t1)
    | _, _ => None
    end
  else None.

Definition Classifier_configure (noutputs : nat) (conf : list str) : option (list pattern) :=
  if decide (length conf = noutputs) then mapM parse_pattern conf else None.

Definition pattern_matches (src_t dst_t next_t : Z) (pat : pattern) : bool :=
  match pat with
  | ANY => true
  | SRC s => bool_decide (src_t = s)
  | DST d => bool_decide (dst_t = d)
  | SRC_AND_DST s d => bool_decide (src_t = s ∧ dst_t = d)
  | SRC_OR_DST s d => bool_decide (src_t = s ∨ dst_t = d)
  | NEXT n => bool_decide (next_t = n)
  end.

(** The type of the XID the current edge leads to, or -1. *)
Definition next_xid_type (p : Packet) : res Z :=
  let b := p_data p in
  dnode ← hdr_dnode b;
  row ← current_row b;
  if decide (XIA_NEXT_PATH_ANNO p < Z.of_nat CLICK_XIA_XID_EDGE_NUM) then
    idx ← edge_idx b row (XIA_NEXT_PATH_ANNO p);
    if decide (idx ≠ CLICK_XIA_XID_EDGE_UNUSED ∧ idx < dnode)
    then x ← node_xid b idx; Ok (xid_type x) else Ok (2 ^ 32 - 1)
  else Ok (2 ^ 32 - 1).

(** The first pattern that matches, or -1. *)
Definition Classifier_match (pats : list pattern) (p : Packet) : res Z :=
  let b := p_data p in
  dnode ← hdr_dnode b;
  snode ← hdr_snode b;
  dst ← node_xid b (dnode - 1);
  src ← node_xid b (dnode + snode - 1);
  next ← next_xid_type p;
  Ok (match list_find (λ pat, pattern_matches (xid_type src) (xid_type dst) next pat = true) pats with
      | Some (i, _) => Z.of_nat i
      | None => -1
      end).
