(* ===== verification/HeaderView.v ===== *)
(** * HeaderView: headers that are complete, and what the elements do to them

    The reads of the routing elements succeed on a header whose nodes all lie in
    the packet; XIANextHop changes the last-visited pointer and nothing else of
    the addresses. *)

From Stdlib Require Import ZArith Lia.
From stdpp Require Import base gmap sets list.
From S2P Require Import Prelude XiaPath XiaPathOrder XiaPathCodec XiaHeader RouteTable Elements.

Local Open Scope Z_scope.

(** A header with [d] destination and [s] source nodes. *)
Record header_ok (b : list Z) (d s : Z) : Prop := {
  ho_bytes : Forall is_byte b;
  ho_dnode : hdr_dnode b = Ok d;
  ho_snode : hdr_snode b = Ok s;
  ho_dpos : 1 ≤ d;
  ho_spos : 0 ≤ s;
  ho_len : node_off (d + s) ≤ Z.of_nat (length b) }.

Lemma vgetz_in {A} (v : list A) o : 0 ≤ o < Z.of_nat (length v) → ∃ x, v !! Z.to_nat o = Some x ∧ vgetz v o = Ok x.
Proof.
  intros Ho. destruct (lookup_lt_is_Some_2 v (Z.to_nat o)) as [x Hx]; [lia|]. exists x.
  split; [done|]. apply vgetz_Ok. split; [lia|done].
Qed.

Section header.
Context (b : list Z) (d s : Z) (Hok : header_ok b d s).

Lemma edge_byte_ok i k : 0 ≤ i < d + s → 0 ≤ k < 4 → ∃ x, edge_byte b i k = Ok x ∧ is_byte x.
Proof using Hok.
  intros Hi Hk. destruct Hok as [Hb _ _ Hd0 Hs0 Hl]. unfold edge_byte, node_off, HDR_LEN, NODE_LEN in *.
  destruct (vgetz_in b (8 + 28 * i + 24 + k)) as (x & Hx & ->); [lia|]. exists x. split; [done|].
  rewrite Forall_lookup in Hb. by apply (Hb _ x Hx).
Qed.

Lemma edge_idx_ok i k : 0 ≤ i < d + s → 0 ≤ k < 4 → ∃ j, edge_idx b i k = Ok j ∧ 0 ≤ j < 128.
Proof using Hok.
  intros Hi Hk. destruct (edge_byte_ok i k Hi Hk) as (x & Hx & Hb). unfold edge_idx. rewrite Hx.
  eexists. split; [done|]. cbn. apply Z.mod_pos_bound. lia.
Qed.

Lemma node_xid_ok i : 0 ≤ i < d + s → ∃ x, node_xid b i = Ok x.
Proof using Hok.
  intros Hi. destruct Hok as [_ _ _ _ _ Hl]. unfold node_xid, xid_at, node_off, HDR_LEN, NODE_LEN in *.
  rewrite decide_True by lia. by eexists.
Qed.

Lemma node_at_ok i : 0 ≤ i < d + s → ∃ w, node_at b i = Ok w.
Proof using Hok.
  intros Hi. unfold node_at. destruct (node_xid_ok i Hi) as [x ->]. cbn [mbind res_bind].
  destruct (foldM_ok (λ _ : list xid_edge, True)
    (λ acc k, e ← edge_byte b i (Z.of_nat k); Ok (acc ++ [slot_of_byte e])) [] (seq 0 CLICK_XIA_XID_EDGE_NUM))
    as (es & -> & _); [|done|by eexists].
  intros acc k Hk%elem_of_seq _. unfold CLICK_XIA_XID_EDGE_NUM in Hk.
  destruct (edge_byte_ok i (Z.of_nat k) Hi) as (x' & -> & _); [lia|]. by eexists.
Qed.

Lemma nodes_at_ok first count : 0 ≤ first → first + Z.of_nat count ≤ d + s →
  ∃ ws, nodes_at b first (Z.of_nat count) = Ok ws ∧ length ws = count.
Proof using Hok.
  intros Hf. unfold nodes_at. induction count as [|count IH]; intros Hc; [by exists []|].
  destruct IH as (ws & Hws & Hl); [lia|]. rewrite seqZ_S, foldM_app, Hws by lia. cbn [mbind res_bind foldM].
  destruct (node_at_ok (first + Z.of_nat count)) as [w ->]; [lia|]. eexists. split; [done|].
  rewrite length_app. simpl. lia.
Qed.

Lemma hlim_ok : ∃ h, hdr_hlim b = Ok h ∧ is_byte h.
Proof using Hok.
  destruct Hok as [Hb _ _ Hd0 Hs0 Hl]. unfold hdr_hlim, node_off, HDR_LEN, NODE_LEN in *.
  destruct (vgetz_in b 4) as (x & Hx & ->); [lia|]. exists x. split; [done|].
  rewrite Forall_lookup in Hb. by apply (Hb _ x Hx).
Qed.

Lemma last_ok : ∃ x, b !! 7%nat = Some x ∧ is_byte x ∧ hdr_last b = Ok (i8 x).
Proof using Hok.
  destruct Hok as [Hb _ _ Hd0 Hs0 Hl]. unfold hdr_last, node_off, HDR_LEN, NODE_LEN in *.
  destruct (vgetz_in b 7) as (x & Hx & ->); [lia|]. exists x. split; [done|].
  rewrite Forall_lookup in Hb. split; [by apply (Hb _ x Hx)|done].
Qed.

(** The sender of a broadcast is found when its path has two nodes. *)
Lemma source_hid_ok : 2 ≤ s ≤ 255 → ∃ x, source_hid b = Ok x.
Proof using Hok.
  intros Hs. unfold source_hid, src_path. rewrite (ho_dnode _ _ _ Hok), (ho_snode _ _ _ Hok). cbn [mbind res_bind].
  destruct (nodes_at_ok d (Z.to_nat s)) as (ws & Hws & Hl); [pose proof (ho_dpos _ _ _ Hok); lia|lia|].
  rewrite Z2Nat.id in Hws by lia. rewrite Hws. cbn [mbind res_bind].
  destruct (lookup_lt_is_Some_2 ws (length ws - 1)) as [w Hw]; [lia|].
  destruct (parse_node_ends ws (length ws - 1) w Hw) as (Hn & _ & Hps & Hpd); [lia|].
  assert (length (p_nodes (parse_node ws)) = S (length ws)) as Hpl by (apply length_parse_node; by destruct ws).
  rewrite Hpd. unfold cgetz at 1. unfold u32. rewrite wrapU_small by lia. rewrite decide_True by lia.
  rewrite Nat2Z.id. unfold cget at 1. rewrite Hn. cbn [mbind res_bind].
  unfold remove_node, cget. rewrite Hn. cbn [mbind res_bind]. unfold path_xid. cbn [p_nodes p_dst].
  rewrite Hpd. unfold drop_end, npos. rewrite decide_True by lia. unfold u64. rewrite wrapU_small by lia.
  unfold cgetz, u32. rewrite wrapU_small by lia.
  assert (length (delete (length ws - 1)%nat (p_nodes (parse_node ws))) = length ws) as Hdl
    by (rewrite length_delete; [lia|eexists; exact Hn]).
  rewrite length_map, Hdl, decide_True by lia. unfold cget.
  destruct (lookup_lt_is_Some_2 (map (λ n, with_edges n (drop_handle (length ws - 1) (p_edges n)))
    (delete (length ws - 1)%nat (p_nodes (parse_node ws)))) (Z.to_nat (Z.of_nat (length ws - 1) - 1))) as [y ->];
    [rewrite length_map, Hdl; lia|]. by eexists.
Qed.
End header.

(** ** Writes *)

Lemma vgetz_insert_ne {A} (b : list A) (o : nat) v off : Z.to_nat off ≠ o ∨ off < 0 →
  vgetz (<[o := v]> b) off = vgetz b off.
Proof.
  intros Ho. unfold vgetz. rewrite length_insert. case_decide; [|done]. unfold vget.
  rewrite list_lookup_insert_ne by lia. done.
Qed.

Lemma take_drop_insert {A} (b : list A) (o m n : nat) v : (o < m ∨ m + n ≤ o)%nat →
  take n (drop m (<[o := v]> b)) = take n (drop m b).
Proof.
  intros Ho. apply list_eq. intros i. destruct (decide (i < n)%nat).
  - rewrite !lookup_take_lt, !lookup_drop, list_lookup_insert_ne by lia. done.
  - rewrite !lookup_take_ge by lia. done.
Qed.

Lemma xid_at_insert (b : list Z) (o : nat) v off : Z.of_nat o < off ∨ off + 24 ≤ Z.of_nat o →
  xid_at (<[o := v]> b) off = xid_at b off.
Proof.
  intros Ho. unfold xid_at. rewrite length_insert. case_decide; [|done]. do 2 f_equal.
  - f_equal. apply (take_drop_insert b o (Z.to_nat off) 4). lia.
  - rewrite !drop_drop. apply (take_drop_insert b o (Z.to_nat off + 4) 20). lia.
Qed.

(** The parts of a header that routing leaves alone. *)
Record same_dag (b b' : list Z) (d s : Z) : Prop := {
  sd_ok : header_ok b' d s;
  sd_len : length b' = length b;
  sd_idx i k : 0 ≤ i < d + s → 0 ≤ k < 4 → edge_idx b' i k = edge_idx b i k;
  sd_xid i : 0 ≤ i < d + s → node_xid b' i = node_xid b i;
  sd_keep k : (k < 4)%nat ∨ node_off (d + s) ≤ Z.of_nat k → b' !! k = b !! k }.

Lemma same_dag_refl b d s : header_ok b d s → same_dag b b d s.
Proof. by split. Qed.

Lemma same_dag_trans b1 b2 b3 d s : same_dag b1 b2 d s → same_dag b2 b3 d s → same_dag b1 b3 d s.
Proof.
  intros [H1 H2 H3 H4 H5] [H6 H7 H8 H9 H10]. split; [done|congruence|..].
  - intros. by rewrite H8, H3.
  - intros. by rewrite H9, H4.
  - intros. by rewrite H10, H5.
Qed.

(** A byte that is not a count may change, and an edge byte if its index stays. *)
Lemma header_insert b d s (o : nat) v : header_ok b d s → is_byte v → o ∉ [5; 6]%nat →
  header_ok (<[o := v]> b) d s.
Proof.
  intros [Hb Hd Hs Hdp Hsp Hl] Hv Ho. split; try done.
  - by apply Forall_insert.
  - unfold hdr_dnode. rewrite vgetz_insert_ne; [done|]. set_solver by lia.
  - unfold hdr_snode. rewrite vgetz_insert_ne; [done|]. set_solver by lia.
  - by rewrite length_insert.
Qed.

Lemma field_insert b d s (o : nat) v : header_ok b d s → is_byte v → (4 ≤ o < 8)%nat → o ∉ [5; 6]%nat →
  same_dag b (<[o := v]> b) d s.
Proof.
  intros Hok Hv Ho Hne. split; [by apply header_insert|by rewrite length_insert|..].
  - intros i k Hi Hk. unfold edge_idx, edge_byte, node_off, HDR_LEN, NODE_LEN.
    by rewrite vgetz_insert_ne by lia.
  - intros i Hi. apply xid_at_insert. unfold node_off, HDR_LEN, NODE_LEN. lia.
  - intros k Hk. apply list_lookup_insert_ne. destruct Hok. unfold node_off, HDR_LEN, NODE_LEN in *. lia.
Qed.

Lemma edge_insert b d s i k x : header_ok b d s → 0 ≤ i < d + s → 0 ≤ k < 4 → edge_byte b i k = Ok x →
  let o := Z.to_nat (node_off i + 24 + k) in
  same_dag b (<[o := u8 (byte_of_slot (mkEdge (e_idx (slot_of_byte x)) 1))]> b) d s.
Proof.
  intros Hok Hi Hk Hx o. set (y := u8 _). assert (0 ≤ e_idx (slot_of_byte x) < 128) as Hr
    by (cbn; apply Z.mod_pos_bound; lia).
  assert (y = byte_of_slot (mkEdge (e_idx (slot_of_byte x)) 1)) as Hy
    by (apply wrapU_small; unfold byte_of_slot; cbn [e_idx e_visited]; lia).
  assert (slot_of_byte y = mkEdge (e_idx (slot_of_byte x)) 1) as Hs
    by (rewrite Hy; apply slot_of_byte_of_slot; split; cbn [e_idx e_visited]; lia).
  unfold node_off, HDR_LEN, NODE_LEN in *.
  split; [apply header_insert; [done|unfold y; apply wrapU_range; lia|set_solver by lia]|by rewrite length_insert|..].
  - intros i' k' Hi' Hk'. unfold edge_idx. destruct (decide (i' = i ∧ k' = k)) as [[-> ->]|Hne].
    + rewrite Hx. unfold edge_byte, node_off, HDR_LEN, NODE_LEN in *.
      apply vgetz_Ok in Hx as [_ Hx]. assert (vgetz (<[o := y]> b) (8 + 28 * i + 24 + k) = Ok y) as ->.
      { apply vgetz_Ok. split; [lia|]. apply list_lookup_insert_eq. by apply lookup_lt_Some in Hx. }
      cbn [mbind res_bind]. by rewrite Hs.
    + unfold edge_byte, node_off, HDR_LEN, NODE_LEN. by rewrite vgetz_insert_ne by lia.
  - intros i' Hi'. apply xid_at_insert. unfold node_off, HDR_LEN, NODE_LEN. lia.
  - intros k' Hk'. apply list_lookup_insert_ne. unfold o. unfold node_off, HDR_LEN, NODE_LEN in *. lia.
Qed.
