(* ===== verification/PacketRoute.v ===== *)
(** * PacketRoute: the routing core (XIAPacketRoute of conf/xia_router_lib.click)

    The elements of [Elements] and five routing tables, connected as in the
    configuration.  What leaves the compound element is an event.  Packets for
    the XCMP element, which answers with new packets that enter at the top, are
    events as well. *)

From Stdlib Require Import ZArith Lia Ascii String.
From stdpp Require Import base gmap sets list.
From S2P Require Import Prelude Text ConfParse XiaPath XidText XiaHeader RouteTable Elements.

Local Open Scope Z_scope.

(** ** The compound element *)

(** The tables of AD, HID, SID, CID and IP, in this order. *)
Record XIAPacketRoute := mkPacketRoute {
  tables : list XIAXIDRouteTable;
  GPRP : XIADecHLIM }.

Inductive event :=
  | Forwarded (p : Packet)     (* output 0: forward, painted with the port *)
  | Arrived (p : Packet)       (* output 1: arrived at the destination node *)
  | Unroutable (p : Packet)    (* output 2 *)
  | Dhcp (p : Packet)          (* output 3 *)
  | Expired (p : Packet)       (* GPRP[1], to the XCMP element *)
  | Redirected (p : Packet)    (* port 4 of a table, to the XCMP element *)
  | Discarded (p : Packet).

(** The arguments of the classifier [c]. *)
Definition route_conf : list str :=
  [lit "next AD"; lit "next HID"; lit "next SID"; lit "next CID"; lit "next IP"; lit "-"].

Definition route_patterns : list pattern :=
  [NEXT (htonl CLICK_XIA_XID_TYPE_AD); NEXT (htonl CLICK_XIA_XID_TYPE_HID); NEXT (htonl CLICK_XIA_XID_TYPE_SID);
   NEXT (htonl CLICK_XIA_XID_TYPE_CID); NEXT (htonl CLICK_XIA_XID_TYPE_IP); ANY].

Definition SID_PORT : Z := 2.

(** What happens to a packet at an output of the table behind classifier port
    [port]; [go] takes a packet back to the classifier. *)
Definition after_route (go : XIAPacketRoute → Packet → res (XIAPacketRoute * list event)) (port : Z)
    (r : XIAPacketRoute) (o : Z * Packet) : res (XIAPacketRoute * list event) :=
  let '(out, p) := o in
  if decide (out = 0) then
    d ← DecHLIM_simple_action (GPRP r) p;
    Ok (mkPacketRoute (tables r) d.1, [if decide (d.2.1 = 0) then Forwarded d.2.2 else Expired d.2.2])
  else if decide (out = 1) then
    p ← NextHop_push p;
    if decide (port = SID_PORT) then Ok (r, [Arrived (Paint_simple_action DESTINED_FOR_LOCALHOST p)])
    else
      c ← CheckDest_push p;
      if decide (c.1 = 0) then Ok (r, [Arrived (Paint_simple_action DESTINED_FOR_LOCALHOST c.2)])
      else go r (SelectPath_push true c.2).2
  else if decide (out = 2) then
    let s := SelectPath_push false p in
    if decide (s.1 = 0) then go r s.2 else Ok (r, [Unroutable s.2])
  else if decide (out = 3) then Ok (r, [if decide (port = SID_PORT) then Dhcp p else Discarded p])
  else Ok (r, [Redirected p]).

(** A packet at the classifier. *)
Definition classify_step (go : XIAPacketRoute → Packet → res (XIAPacketRoute * list event))
    (r : XIAPacketRoute) (p : Packet) : res (XIAPacketRoute * list event) :=
  port ← Classifier_match route_patterns p;
  if decide (port = -1) then Ok (r, [Discarded p])
  else if decide (port = 5) then Ok (r, [Unroutable p])
  else
    t ← vgetz (tables r) port;
    ts ← route_push t p;
    foldM (λ acc o, re ← after_route go port acc.1 o; Ok (re.1, acc.2 ++ re.2))
      (mkPacketRoute (<[Z.to_nat port := ts.1]> (tables r)) (GPRP r), []) ts.2.

(** A packet comes back to the classifier for the next path of a node, or for
    the first path of the next node. *)
Fixpoint classify (fuel : nat) (r : XIAPacketRoute) (p : Packet) : res (XIAPacketRoute * list event) :=
  match fuel with
  | O => Ub OutOfFuel
  | S fuel => classify_step (classify fuel) r p
  end.

(** A packet at the input. *)
Definition packet_route (fuel : nat) (r : XIAPacketRoute) (p : Packet) : res (XIAPacketRoute * list event) :=
  classify fuel r (SelectPath_push true p).2.

Lemma route_conf_ok : Classifier_configure 6 route_conf = Some route_patterns.
Proof. reflexivity. Qed.
