(* ===== verification/PacketRouteSpec.v ===== *)
(** * PacketRouteSpec: properties of the routing core

    Routing a packet with a complete header over an acyclic destination DAG
    ends and never reads outside the packet. *)

From Stdlib Require Import ZArith Lia Ascii String.
From stdpp Require Import base gmap sets list.
From S2P Require Import Prelude Text ConfParse XiaPath XiaPathOrder XiaPathCodec XidText XiaHeader RouteTable Elements HeaderView PacketRoute.

Local Open Scope Z_scope.

(** ** The elements on a complete header *)

(** The classifier port of a type word: the five tables, and 5 for the rest. *)
Definition type_port (t : Z) : Z :=
  if decide (t = htonl CLICK_XIA_XID_TYPE_AD) then 0
  else if decide (t = htonl CLICK_XIA_XID_TYPE_HID) then 1
  else if decide (t = htonl CLICK_XIA_XID_TYPE_SID) then 2
  else if decide (t = htonl CLICK_XIA_XID_TYPE_CID) then 3
  else if decide (t = htonl CLICK_XIA_XID_TYPE_IP) then 4
  else 5.

Lemma type_port_range t : 0 ≤ type_port t ≤ 5.
Proof. unfold type_port. repeat case_decide; lia. Qed.

Lemma find_type src dst t :
  match list_find (λ pat, pattern_matches src dst t pat = true) route_patterns with
  | Some (i, _) => Z.of_nat i
  | None => -1
  end = type_port t.
Proof.
  unfold route_patterns, type_port, list_find.
  repeat (cbn [pattern_matches]; destruct (decide (t = _)) as [->|];
    [by rewrite decide_True by (by apply bool_decide_eq_true)
    |rewrite decide_False by (by rewrite bool_decide_eq_true)]).
  done.
Qed.

(** Where a packet is: the row of its edges and the edge to try. *)
Record at_row (p : Packet) (d s row k : Z) : Prop := {
  ar_ok : header_ok (p_data p) d s;
  ar_row : current_row (p_data p) = Ok row;
  ar_range : 0 ≤ row < d;
  ar_path : XIA_NEXT_PATH_ANNO p = k;
  ar_k : 0 ≤ k < 4 }.

(** An edge that leads to a destination node, to the XID [x]. *)
Definition leads_to (p : Packet) (d row k idx : Z) (x : Xid) : Prop :=
  edge_idx (p_data p) row k = Ok idx ∧ 0 ≤ idx < d ∧ idx ≠ CLICK_XIA_XID_EDGE_UNUSED ∧ node_xid (p_data p) idx = Ok x.

Lemma edge_cases p d s row k : at_row p d s row k →
  (∃ idx x, leads_to p d row k idx x) ∨
  ∃ idx, edge_idx (p_data p) row k = Ok idx ∧ (idx = CLICK_XIA_XID_EDGE_UNUSED ∨ d ≤ idx).
Proof.
  intros [Hok Hrow Hr Hp Hk]. pose proof (ho_spos _ _ _ Hok).
  destruct (edge_idx_ok _ _ _ Hok row k ltac:(lia) Hk) as (idx & Hidx & Hj).
  destruct (decide (idx ≠ CLICK_XIA_XID_EDGE_UNUSED ∧ idx < d)) as [[Hne Hlt]|Hno].
  - left. destruct (node_xid_ok _ _ _ Hok idx ltac:(lia)) as [x Hx]. exists idx, x. repeat split; (done || lia).
  - right. exists idx. split; [done|]. destruct (decide (idx = CLICK_XIA_XID_EDGE_UNUSED)); [by left|right; lia].
Qed.

Lemma match_port p d s row k next : at_row p d s row k → next_xid_type p = Ok next →
  Classifier_match route_patterns p = Ok (type_port next).
Proof.
  intros [Hok Hrow Hr Hp Hk] Hnext. unfold Classifier_match.
  rewrite (ho_dnode _ _ _ Hok), (ho_snode _ _ _ Hok). cbn [mbind res_bind]. pose proof (ho_spos _ _ _ Hok).
  destruct (node_xid_ok _ _ _ Hok (d - 1) ltac:(lia)) as [y ->].
  destruct (node_xid_ok _ _ _ Hok (d + s - 1) ltac:(lia)) as [z ->].
  cbn [mbind res_bind]. rewrite Hnext. cbn [mbind res_bind]. by rewrite find_type.
Qed.

Lemma match_leads p d s row k idx x : at_row p d s row k → leads_to p d row k idx x →
  Classifier_match route_patterns p = Ok (type_port (xid_type x)).
Proof.
  intros Har (Hidx & Hj & Hne & Hx). apply (match_port p d s row k); [done|]. destruct Har as [Hok Hrow Hr Hp Hk].
  unfold next_xid_type. rewrite (ho_dnode _ _ _ Hok), Hrow. cbn [mbind res_bind]. rewrite Hp.
  rewrite decide_True by (unfold CLICK_XIA_XID_EDGE_NUM; lia). rewrite Hidx. cbn [mbind res_bind].
  rewrite decide_True by lia. by rewrite Hx.
Qed.

Lemma match_none p d s row k idx : at_row p d s row k → edge_idx (p_data p) row k = Ok idx →
  idx = CLICK_XIA_XID_EDGE_UNUSED ∨ d ≤ idx → Classifier_match route_patterns p = Ok 5.
Proof.
  intros Har Hidx Hno. change 5 with (type_port (2 ^ 32 - 1)). apply (match_port p d s row k); [done|].
  destruct Har as [Hok Hrow Hr Hp Hk].
  unfold next_xid_type. rewrite (ho_dnode _ _ _ Hok), Hrow. cbn [mbind res_bind]. rewrite Hp.
  rewrite decide_True by (unfold CLICK_XIA_XID_EDGE_NUM; lia). rewrite Hidx. cbn [mbind res_bind].
  by rewrite decide_False by lia.
Qed.

(** The packet moved along its current edge. *)
Lemma NextHop_ok p d s row k idx : at_row p d s row k → edge_idx (p_data p) row k = Ok idx →
  ∃ b, NextHop_push p = Ok (with_data p b) ∧ same_dag (p_data p) b d s ∧ hdr_last b = Ok idx ∧
    hdr_hlim b = hdr_hlim (p_data p).
Proof.
  intros [Hok Hrow Hr Hp Hk] Hidx. pose proof (ho_spos _ _ _ Hok).
  unfold NextHop_push. rewrite Hrow. cbn [mbind res_bind]. rewrite Hp. unfold edge_idx in Hidx.
  destruct (edge_byte (p_data p) row k) as [x|u] eqn:Hx; [|done]. cbn [mbind res_bind] in *. injection Hidx as Hidx.
  assert (0 ≤ idx < 128) as Hi by (subst idx; apply Z.mod_pos_bound; lia).
  assert (e_idx (slot_of_byte x) = idx) as Hs by done. rewrite Hs. cbn [e_idx].
  set (b1 := <[7%nat := u8 idx]> (p_data p)).
  assert (same_dag (p_data p) b1 d s) as Hd1.
  { apply field_insert; [done|apply wrapU_range; lia|lia|set_solver by lia]. }
  destruct (last_ok _ _ _ Hok) as (y & Hy & _ & _).
  assert (set_last (p_data p) idx = Ok b1) as ->.
  { unfold set_last, set_byte. assert (vgetz (p_data p) 7 = Ok y) as -> by (by apply vgetz_Ok). done. }
  cbn [mbind res_bind]. pose proof (edge_insert b1 d s row k x (sd_ok _ _ _ _ Hd1) ltac:(lia) Hk) as He.
  assert (edge_byte b1 row k = Ok x) as Hx1.
  { unfold b1, edge_byte, node_off, HDR_LEN, NODE_LEN. rewrite vgetz_insert_ne by lia. exact Hx. }
  specialize (He Hx1). cbv zeta in He. rewrite Hs in He. unfold set_byte. unfold edge_byte in Hx1. rewrite Hx1.
  cbn [mbind res_bind]. eexists. split; [done|]. split; [by eapply same_dag_trans|].
  unfold hdr_last, hdr_hlim, node_off, HDR_LEN, NODE_LEN in *. rewrite !vgetz_insert_ne by lia. split.
  - assert (vgetz b1 7 = Ok (u8 idx)) as ->.
    { apply vgetz_Ok. split; [lia|]. apply list_lookup_insert_eq. by apply lookup_lt_Some in Hy. }
    cbn [mbind res_bind]. f_equal. unfold u8. rewrite wrapU_small by lia. apply wrapS_small; lia.
  - unfold b1. by rewrite vgetz_insert_ne by lia.
Qed.

(** The first path of the node the packet moved to. *)
Lemma at_next p d s row k idx x b : at_row p d s row k → leads_to p d row k idx x → same_dag (p_data p) b d s →
  hdr_last b = Ok idx → at_row (SelectPath_push true (with_data p b)).2 d s idx 0.
Proof.
  intros Har (_ & Hi & _) Hsd Hl. split; cbn; try done; [apply Hsd|].
  unfold current_row. rewrite Hl, (ho_dnode _ _ _ (sd_ok _ _ _ _ Hsd)). cbn [mbind res_bind].
  by rewrite decide_False by lia.
Qed.

(** The next path of the same node. *)
Lemma SelectPath_next p d s row k : at_row p d s row k →
  if decide (k < 3) then ∃ q, SelectPath_push false p = (0, q) ∧ at_row q d s row (k + 1) ∧ p_data q = p_data p ∧
    XIA_PAINT_ANNO q = XIA_PAINT_ANNO p ∧ nexthop_neighbor_xid_anno q = nexthop_neighbor_xid_anno p
  else ∃ q, SelectPath_push false p = (1, q) ∧ p_data q = p_data p.
Proof.
  intros [Hok Hrow Hr Hp Hk]. unfold SelectPath_push, CLICK_XIA_XID_EDGE_NUM. rewrite Hp.
  case_decide; [rewrite decide_True by lia|rewrite decide_False by lia]; eexists; (split; [done|]); [|done].
  split_and!; try done. split; cbn; try done; [|lia]. apply wrapU_small. lia.
Qed.

(** What DecHLIM does: forward with a lower hop limit, or give up. *)
Lemma DecHLIM_ok e p d s h : header_ok (p_data p) d s → hdr_hlim (p_data p) = Ok h → dec_active e = true →
  if decide (h ≤ 1) then DecHLIM_simple_action e p = Ok (mkDecHLIM true (u32 (dec_drops e + 1)), (1, p))
  else ∃ b, DecHLIM_simple_action e p = Ok (e, (0, with_data p b)) ∧ same_dag (p_data p) b d s ∧
    hdr_hlim b = Ok (h - 1) ∧ hdr_last b = hdr_last (p_data p).
Proof.
  intros Hok Hh Ha. unfold DecHLIM_simple_action. rewrite Ha, Hh. cbn [mbind res_bind].
  destruct (hlim_ok _ _ _ Hok) as (h' & Hh' & Hb). assert (h' = h) as -> by congruence. unfold is_byte in Hb.
  case_decide; [done|]. unfold set_hlim, set_byte. unfold hdr_hlim in *. rewrite Hh. cbn [mbind res_bind].
  eexists. split; [done|]. split; [apply field_insert; [done|apply wrapU_range; lia|lia|set_solver by lia]|].
  apply vgetz_Ok in Hh as [_ Hl]. split.
  - apply vgetz_Ok. split; [lia|]. rewrite list_lookup_insert_eq by (by apply lookup_lt_Some in Hl).
    f_equal. apply wrapU_small. lia.
  - unfold hdr_last. by rewrite vgetz_insert_ne by lia.
Qed.

(** ** Termination and safety *)

(** The packet a lookup hands on differs in the next-hop annotation only. *)
Definition same_but_nexthop (p q : Packet) : Prop :=
  p_data q = p_data p ∧ XIA_PAINT_ANNO q = XIA_PAINT_ANNO p ∧ XIA_NEXT_PATH_ANNO q = XIA_NEXT_PATH_ANNO p.

Lemma route_packet_same r p : same_but_nexthop p (route_packet r p).
Proof. unfold route_packet. destruct (rt_nexthop r); [case_decide|]; by split_and!. Qed.

Lemma lookup_unicast t in_port p d s row k idx x : at_row p d s row k → leads_to p d row k idx x → x ≠ _bcast_xid →
  let r := default (_rtdata t) (_rts t !! x) in
  lookup_route t in_port p = Ok (t, route_packet r p, rt_port r).
Proof.
  intros [Hok Hrow Hr Hp Hk] (Hidx & _ & Hne & Hx) Hb r. unfold lookup_route. rewrite Hrow. cbn [mbind res_bind].
  rewrite Hp, Hidx. cbn [mbind res_bind]. rewrite decide_False by done. rewrite Hx. cbn [mbind res_bind].
  by rewrite decide_False by done.
Qed.

Lemma lookup_total t in_port p d s row k idx x : at_row p d s row k → leads_to p d row k idx x → 2 ≤ s ≤ 255 →
  ∃ t' q port, lookup_route t in_port p = Ok (t', q, port) ∧ same_but_nexthop p q.
Proof.
  intros Har Hl Hs. destruct (decide (x = _bcast_xid)) as [->|Hb].
  2:{ rewrite (lookup_unicast t in_port p d s row k idx x) by done. do 3 eexists. split; [done|]. apply route_packet_same. }
  destruct Har as [Hok Hrow Hr Hp Hk], Hl as (Hidx & _ & Hne & Hx). unfold lookup_route. rewrite Hrow.
  cbn [mbind res_bind]. rewrite Hp, Hidx. cbn [mbind res_bind]. rewrite decide_False by done. rewrite Hx.
  cbn [mbind res_bind]. rewrite decide_True by done. destruct (source_hid_ok _ _ _ Hok Hs) as [hid ->].
  cbn [mbind res_bind]. case_decide; do 3 eexists; (split; [done|by split_and!]).
Qed.

(** What [push] hands on: the data and the path never change, and the paint
    stays on the packets that are routed further. *)
Definition handed_on (p : Packet) (o : Z * Packet) : Prop :=
  p_data o.2 = p_data p ∧ XIA_NEXT_PATH_ANNO o.2 = XIA_NEXT_PATH_ANNO p ∧
  (o.1 = 1 ∨ o.1 = 2 → XIA_PAINT_ANNO o.2 = XIA_PAINT_ANNO p).

Lemma push_total t p d s row k idx x : at_row p d s row k → leads_to p d row k idx x → 2 ≤ s ≤ 255 →
  XIA_PAINT_ANNO p ≠ REDIRECT → ∃ t' outs, route_push t p = Ok (t', outs) ∧ Forall (handed_on p) outs.
Proof.
  intros Har Hl Hs Hpaint. unfold route_push. case_decide.
  { do 2 eexists. split; [done|]. apply Forall_singleton. by split_and!. }
  rewrite decide_False by done.
  destruct (lookup_total t (XIA_PAINT_ANNO p) p d s row k idx x Har Hl Hs) as (t' & q & port & -> & Hd & Hc & Hn).
  cbn [mbind res_bind]. do 2 eexists. split; [done|]. apply Forall_app_2.
  - case_decide; [|constructor]. apply Forall_singleton. split_and!; [done..|]. cbn. lia.
  - repeat case_decide; [apply Forall_singleton..|apply Forall_fmap, Forall_forall; intros i _|apply Forall_singleton];
      (split_and!; [done..|]); cbn; (done || lia).
Qed.

(** Every edge to a node other than the destination goes down in rank. *)
Definition ranked (b : list Z) (d : Z) (rank : Z → nat) : Prop :=
  ∀ i k j, 0 ≤ i < d → 0 ≤ k < 4 → edge_idx b i k = Ok j → 0 ≤ j < d - 1 → j ≠ CLICK_XIA_XID_EDGE_UNUSED →
    (rank j < rank i)%nat.

Lemma ranked_same b b' d s rank : same_dag b b' d s → 0 ≤ s → ranked b d rank → ranked b' d rank.
Proof. intros Hsd Hs Hr i k j Hi Hk Hj. rewrite (sd_idx _ _ _ _ Hsd) in Hj by lia. by apply (Hr i k j). Qed.

(** One output of a table, if going back to the classifier works. *)
Lemma after_total go port r p o d s row k idx x rank : at_row p d s row k → leads_to p d row k idx x →
  XIA_PAINT_ANNO p ≠ REDIRECT → ranked (p_data p) d rank → length (tables r) = 5%nat → handed_on p o →
  (∀ r q row' k', length (tables r) = 5%nat → at_row q d s row' k' → XIA_PAINT_ANNO q ≠ REDIRECT →
    ranked (p_data q) d rank → ((rank row' < rank row)%nat ∨ row' = row ∧ k < k') →
    ∃ r' evs, go r q = Ok (r', evs) ∧ length (tables r') = 5%nat) →
  ∃ r' evs, after_route go port r o = Ok (r', evs) ∧ length (tables r') = 5%nat.
Proof.
  intros Har Hl Hpaint Hrank Ht (Hd & Hn & Hc) Hgo. destruct o as [out q]. cbn [fst snd] in *.
  assert (at_row q d s row k) as Haq by (destruct Har; split; by rewrite ?Hd, ?Hn).
  assert (leads_to q d row k idx x) as Hlq by (destruct Hl; unfold leads_to; by rewrite Hd).
  pose proof (ar_ok _ _ _ _ _ Haq) as Hok. unfold after_route. case_decide.
  { unfold DecHLIM_simple_action. destruct (dec_active (GPRP r)); [|by do 2 eexists].
    destruct (hlim_ok _ _ _ Hok) as (h & Hh & _). rewrite Hh. cbn [mbind res_bind].
    case_decide; [by do 2 eexists|]. unfold set_hlim, set_byte. unfold hdr_hlim in Hh. rewrite Hh. by do 2 eexists. }
  case_decide.
  { destruct (NextHop_ok q d s row k idx Haq (proj1 Hlq)) as (b & -> & Hsd & Hlast & _). cbn [mbind res_bind].
    case_decide; [by do 2 eexists|]. unfold CheckDest_push. cbn [p_data with_data].
    rewrite Hlast, (ho_dnode _ _ _ (sd_ok _ _ _ _ Hsd)). cbn [mbind res_bind fst snd].
    destruct (decide (idx = d - 1)); [by do 2 eexists|]. cbn [decide]. rewrite decide_False by done.
    apply (Hgo r _ idx 0); [done|by eapply at_next|by cbn; rewrite Hc by auto|..].
    - cbn. rewrite <-Hd in Hrank. eapply ranked_same; [done|apply Hok|done].
    - left. destruct Hl as (Hidx & Hi & Hne & _). apply (Hrank row k idx); [apply Har|apply Har|done|lia|done]. }
  case_decide; [|case_decide; by do 2 eexists]. pose proof (SelectPath_next q d s row k Haq) as Hsel. case_decide.
  - destruct Hsel as (q' & -> & Haq' & Hd' & Hp' & _). cbn [fst snd]. rewrite decide_True by done.
    apply (Hgo r q' row (k + 1)); [done|done|by rewrite Hp', Hc by auto|by rewrite Hd', Hd|right; lia].
  - destruct Hsel as (q' & -> & _). cbn [fst snd]. rewrite decide_False by done. by do 2 eexists.
Qed.

Lemma classify_total d s rank : 2 ≤ s ≤ 255 → ∀ fuel r p row k, length (tables r) = 5%nat → at_row p d s row k →
  XIA_PAINT_ANNO p ≠ REDIRECT → ranked (p_data p) d rank → 4 * Z.of_nat (rank row) + (4 - k) ≤ Z.of_nat fuel →
  ∃ r' evs, classify fuel r p = Ok (r', evs) ∧ length (tables r') = 5%nat.
Proof.
  intros Hs. induction fuel as [|fuel IH]; intros r p row k Ht Har Hp Hrank Hfuel.
  { pose proof (ar_k _ _ _ _ _ Har). lia. }
  cbn [classify]. unfold classify_step. destruct (edge_cases p d s row k Har) as [(idx & x & Hl)|(idx & Hidx & Hno)].
  2:{ rewrite (match_none p d s row k idx) by done. by do 2 eexists. }
  rewrite (match_leads p d s row k idx x) by done. cbn [mbind res_bind].
  pose proof (type_port_range (xid_type x)) as Hport. rewrite decide_False by lia.
  case_decide; [by do 2 eexists|].
  destruct (vgetz_in (tables r) (type_port (xid_type x))) as (t & Ht' & ->); [lia|]. cbn [mbind res_bind].
  destruct (push_total t p d s row k idx x Har Hl Hs Hp) as (t' & outs & -> & Houts). cbn [mbind res_bind fst snd].
  match goal with |- context [foldM ?f ?a outs] =>
    destruct (foldM_ok (λ acc : XIAPacketRoute * list event, length (tables acc.1) = 5%nat) f a outs)
      as ([r' evs] & Hrun & Hlen) end; [| |by exists r', evs].
  - intros [r1 evs1] o Ho Hr1. cbn [fst snd] in Hr1 |- *. rewrite Forall_forall in Houts.
    destruct (after_total (classify fuel) (type_port (xid_type x)) r1 p o d s row k idx x rank)
      as (r2 & evs2 & -> & Hr2); try done; [by apply Houts| |by eexists].
    intros r3 q row' k' Hr3 Haq Hpq Hrq Hlt. apply (IH r3 q row' k'); try done.
    pose proof (ar_k _ _ _ _ _ Har). pose proof (ar_k _ _ _ _ _ Haq). destruct Hlt as [?|[-> ?]]; lia.
  - cbn. by rewrite length_insert.
Qed.

(** ** Ranks from the router's own ordering *)

(** The node of the destination path whose edges a row holds. *)
Definition node_of_row (d row : Z) : nat := if decide (row = d - 1) then Z.to_nat d else Z.to_nat row.

Lemma slots_read b i w k j : node_at b i = Ok w → 0 ≤ k < 4 → edge_idx b i k = Ok j →
  j ≠ CLICK_XIA_XID_EDGE_UNUSED → Z.to_nat j ∈ read_edges w.
Proof.
  intros Hw Hk Hj Hne. unfold edge_idx in Hj. destruct (edge_byte b i k) as [y|] eqn:Hy; [|done].
  cbn [mbind res_bind] in Hj. injection Hj as Hj.
  assert (slot_of_byte y ∈ take CLICK_XIA_XID_EDGE_NUM (wn_edge w)) as Hin.
  { unfold node_at in Hw. destruct (node_xid b i) as [x|]; [|done]. cbn [mbind res_bind] in Hw.
    unfold CLICK_XIA_XID_EDGE_NUM in *. cbn [seq foldM] in Hw.
    destruct (edge_byte b i (Z.of_nat 0)) as [y0|] eqn:E0; [|done].
    destruct (edge_byte b i (Z.of_nat 1)) as [y1|] eqn:E1; [|done].
    destruct (edge_byte b i (Z.of_nat 2)) as [y2|] eqn:E2; [|done].
    destruct (edge_byte b i (Z.of_nat 3)) as [y3|] eqn:E3; [|done].
    cbn in Hw. injection Hw as <-. cbn [wn_edge take].
    assert (k = 0 ∨ k = 1 ∨ k = 2 ∨ k = 3) as Hc by lia. change (Z.of_nat 0) with 0 in E0. change (Z.of_nat 1) with 1 in E1. change (Z.of_nat 2) with 2 in E2.
    change (Z.of_nat 3) with 3 in E3. unfold slot_of_byte. destruct_or! Hc; subst k;
      [rewrite E0 in Hy|rewrite E1 in Hy|rewrite E2 in Hy|rewrite E3 in Hy]; injection Hy as ->; set_solver. }
  unfold read_edges. apply list_elem_of_omap. exists (slot_of_byte y). split; [done|].
  change (e_idx (slot_of_byte y)) with (y mod 128). by rewrite Hj, decide_False.
Qed.

Lemma nodes_at_lookup b count : ∀ first ws i, nodes_at b first (Z.of_nat count) = Ok ws → (i < count)%nat →
  ∃ w, ws !! i = Some w ∧ node_at b (first + Z.of_nat i) = Ok w.
Proof.
  induction count as [|count IH]; intros first ws i Hws Hi; [lia|]. unfold nodes_at in *.
  rewrite seqZ_S, foldM_app in Hws. destruct (foldM _ [] (seqZ first (Z.of_nat count))) as [ws'|] eqn:E; [|done].
  cbn [mbind res_bind foldM] in Hws. destruct (node_at b (first + Z.of_nat count)) as [w|] eqn:Ew; [|done].
  cbn [mbind res_bind] in Hws. injection Hws as <-.
  assert (length ws' = count) as Hl.
  { clear -E. revert ws' E. induction count as [|c IH]; intros ws' E; [by injection E as <-|].
    rewrite seqZ_S, foldM_app in E. destruct (foldM _ [] (seqZ first (Z.of_nat c))) as [w0|]; [|done].
    cbn [mbind res_bind foldM] in E. destruct (node_at b (first + Z.of_nat c)); [|done]. injection E as <-.
    rewrite length_app, (IH w0 eq_refl). simpl. lia. }
  destruct (decide (i = count)) as [->|Hne].
  - exists w. rewrite <-Hl at 1. by rewrite list_lookup_middle.
  - destruct (IH first ws' i E) as (w' & Hw' & Hn); [lia|]. exists w'. split; [|done].
    rewrite lookup_app_l; [done|lia].
Qed.

(** A destination path the router can order has ranks. *)
Lemma acyclic_ranked b d s q : header_ok b d s → dst_path b = Ok q → in_range (p_nodes q) → path_acyclic (p_nodes q) →
  ∃ rank, ranked b d rank ∧ ∀ row, (rank row ≤ Z.to_nat d + 1)%nat.
Proof.
  intros Hok Hq Hr Hac. destruct (topological_ok q Hr) as (q' & c & _ & _ & _ & _ & Hc & Hnum).
  specialize (Hnum (proj2 Hc Hac)) as (Hrange & _ & Hinc).
  unfold dst_path in Hq. rewrite (ho_dnode _ _ _ Hok) in Hq. cbn [mbind res_bind] in Hq.
  destruct (nodes_at b 0 d) as [ws|] eqn:Hws; [|done]. cbn [mbind res_bind] in Hq. injection Hq as <-.
  pose proof (ho_dpos _ _ _ Hok) as Hd. pose proof (ho_spos _ _ _ Hok) as Hs.
  destruct (nodes_at_ok _ _ _ Hok 0 (Z.to_nat d)) as (ws' & Hws' & Hl); [lia|lia|].
  rewrite Z2Nat.id in Hws' by lia. assert (ws' = ws) as -> by congruence.
  assert (length (p_nodes (parse_node ws)) = S (Z.to_nat d)) as Hn
    by (rewrite length_parse_node; [lia|by destruct ws; [simpl in Hl; lia|]]).
  exists (λ row, (Z.to_nat d + 1 - Z.to_nat (order_of (p_nodes q') (node_of_row d row)))%nat).
  split; [|intros; lia]. intros i k j Hi Hk Hj Hjd Hne.
  assert (pedge (p_nodes (parse_node ws)) (node_of_row d i) (node_of_row d j)) as Hedge.
  { destruct (nodes_at_lookup b (Z.to_nat d) 0 ws (Z.to_nat i)) as (w & Hw & Hnd); [by rewrite Z2Nat.id by lia|lia|].
    rewrite Z.add_0_l, Z2Nat.id in Hnd by lia. pose proof (slots_read b i w k j Hnd Hk Hj Hne) as Hin.
    unfold node_of_row. rewrite (decide_False (P := j = d - 1)) by lia. case_decide.
    - destruct (parse_node_ends ws (Z.to_nat i) w Hw) as (_ & Hsrc & _); [lia|]. replace (Z.to_nat d) with (S (Z.to_nat i)) by lia.
      eexists. split; [exact Hsrc|exact Hin].
    - eexists. split; [apply (parse_node_lookup ws (Z.to_nat i) w Hw); lia|exact Hin]. }
  specialize (Hinc _ _ Hedge). assert (node_of_row d j < length (p_nodes (parse_node ws)))%nat as Hjl by (by eapply Hr).
  pose proof (Hrange _ Hjl) as Hrj. rewrite Hn in Hrj.
  assert (node_of_row d i < length (p_nodes (parse_node ws)))%nat as Hil
    by (rewrite Hn; unfold node_of_row; case_decide; lia).
  pose proof (Hrange _ Hil). lia.
Qed.

(** routing ends.  A packet whose header is complete, whose destination DAG
    has no cycle and whose source path has at least two nodes is routed to an
    end by any five tables, within four rounds for each node of the DAG and
    without a read or write outside the packet. *)
Theorem route_terminates r p d s q row : length (tables r) = 5%nat → header_ok (p_data p) d s → 2 ≤ s ≤ 255 →
  XIA_PAINT_ANNO p ≠ REDIRECT → current_row (p_data p) = Ok row → 0 ≤ row < d →
  dst_path (p_data p) = Ok q → in_range (p_nodes q) → path_acyclic (p_nodes q) →
  is_ok (packet_route (4 * Z.to_nat d + 8) r p).
Proof.
  intros Ht Hok Hs Hp Hrow Hr Hq Hin Hac. destruct (acyclic_ranked _ _ _ _ Hok Hq Hin Hac) as (rank & Hrank & Hmax).
  destruct (classify_total d s rank Hs (4 * Z.to_nat d + 8) r (SelectPath_push true p).2 row 0)
    as (r' & evs & Hrun & _); [done|by split|done|done| |by exists (r', evs)].
  specialize (Hmax row). lia.
Qed.

(** *** A packet to the SID [xid_d], by the AD [xid_a] if need be *)

Definition demo_row (first second : Z) : list xid_edge :=
  [mkEdge first 0; mkEdge second 0; mkEdge CLICK_XIA_XID_EDGE_UNUSED 0; mkEdge CLICK_XIA_XID_EDGE_UNUSED 0].
Definition demo_nodes : list xid_node :=
  [mkXidNode xid_a (demo_row 1 CLICK_XIA_XID_EDGE_UNUSED); mkXidNode xid_d (demo_row 1 0)].
Definition demo_bytes : list Z :=
  Eval vm_compute in [1; 59; 0; 0; 250; 2; 2; 255] ++ ((demo_nodes ++ demo_nodes) ≫= node_bytes).
Definition demo_packet : Packet := mkPacket demo_bytes 0 0 Xid_undef.

(** The AD is routed to port 3, by the next hop [xid_a]. *)
Definition demo_table : XIAXIDRouteTable :=
  mkTable {[xid_a := mkRoute 3 0 (Some xid_a)]} (mkRoute (-1) 0 None) 1 4 XIAPath_reset xid_a.
Definition demo_router : XIAPacketRoute := mkPacketRoute (replicate 5 demo_table) (mkDecHLIM true 0).
Definition demo_dst : XIAPath := Eval vm_compute in parse_node demo_nodes.

Lemma demo_header_ok : header_ok demo_bytes 2 2.
Proof.
  split; try done. by apply all_bytes.
Qed.

Lemma demo_dst_in_range : in_range (p_nodes demo_dst).
Proof.
  intros i j (n & Hn & Hj). do 3 (destruct i as [|i]; [injection Hn as <-; vm_compute in Hj; set_unfold in Hj; simpl; lia|]).
  done.
Qed.

Lemma demo_dst_acyclic : path_acyclic (p_nodes demo_dst).
Proof.
  destruct (topological_ok demo_dst demo_dst_in_range) as (p' & b & Hrun & _ & _ & _ & Hb & _).
  apply Hb. vm_compute in Hrun. by injection Hrun.
Qed.

Lemma route_terminates_witness : is_ok (packet_route 16 demo_router demo_packet).
Proof.
  apply (route_terminates demo_router demo_packet 2 2 demo_dst 1);
    first [exact demo_header_ok|exact demo_dst_in_range|exact demo_dst_acyclic|lia|by vm_compute].
Defined.
