(* ===== verification/PacketRouteWalk.v ===== *)
(** * PacketRouteWalk: what the routing core computes

    The fate of a unicast packet as a walk over its destination DAG, and the
    proof that the elements of the routing core compute it. *)

From Stdlib Require Import ZArith Lia Ascii String.
From stdpp Require Import base gmap sets list.
From S2P Require Import Prelude Text ConfParse XiaPath XiaPathOrder XiaPathCodec XidText XiaHeader RouteTable Elements HeaderView PacketRoute PacketRouteSpec.

Local Open Scope Z_scope.

(** ** The walk over the DAG *)

(** What a table says about an XID: its route, the default route, or to fall
    back if the table is switched off. *)
Definition table_route (t : XIAXIDRouteTable) (x : Xid) : XIARouteData :=
  if decide (_principal_type_enabled t = 0) then mkRoute FALLBACK 0 None else default (_rtdata t) (_rts t !! x).

(** What the tables say: nothing for a type without a table. *)
Definition decision (ts : list XIAXIDRouteTable) (x : Xid) : option XIARouteData :=
  let port := type_port (xid_type x) in
  if decide (port = 5) then None else t ← ts !! Z.to_nat port; Some (table_route t x).

(** The node and XID an edge of the DAG leads to. *)
Definition dag_edge (b : list Z) (d row k : Z) : option (Z * Xid) :=
  if decide (0 ≤ row < d ∧ 0 ≤ k < 4) then
    match edge_idx b row k with
    | Ok idx =>
        if decide (idx ≠ CLICK_XIA_XID_EDGE_UNUSED ∧ idx < d)
        then match node_xid b idx with Ok x => Some (idx, x) | Ub _ => None end else None
    | Ub _ => None
    end
  else None.

Inductive outcome :=
  | OForward (rt : XIARouteData)
  | OArrive
  | ODhcp
  | ODiscard
  | OUnroutable.

Definition is_sid (x : Xid) : Prop := xid_type x = htonl CLICK_XIA_XID_TYPE_SID.
#[global] Instance is_sid_dec x : Decision (is_sid x).
Proof. unfold is_sid. apply _. Defined.

(** An edge that is of no use: its route says neither out, nor here, nor DHCP. *)
Definition no_use (rt : XIARouteData) : Prop :=
  rt_port rt < 0 ∧ rt_port rt ≠ DESTINED_FOR_LOCALHOST ∧ rt_port rt ≠ DESTINED_FOR_DHCP.

(** From the edge [k] of [row], the edge [k'] of [row'] decides the outcome: a
    node that is this host is entered, and if an edge cannot be used the next
    one of the same node is tried. *)
Inductive walk (edge : Z → Z → option (Z * Xid)) (dec : Xid → option XIARouteData) (d : Z)
    : Z → Z → Z → Z → outcome → Prop :=
  | walk_no_edge row k : edge row k = None → walk edge dec d row k row k OUnroutable
  | walk_no_table row k idx x : edge row k = Some (idx, x) → dec x = None →
      walk edge dec d row k row k OUnroutable
  | walk_forward row k idx x rt : edge row k = Some (idx, x) → dec x = Some rt → 0 ≤ rt_port rt →
      walk edge dec d row k row k (OForward rt)
  | walk_arrive row k idx x rt : edge row k = Some (idx, x) → dec x = Some rt →
      rt_port rt = DESTINED_FOR_LOCALHOST → idx = d - 1 ∨ is_sid x → walk edge dec d row k row k OArrive
  | walk_enter row k idx x rt row' k' o : edge row k = Some (idx, x) → dec x = Some rt →
      rt_port rt = DESTINED_FOR_LOCALHOST → idx ≠ d - 1 → ¬ is_sid x →
      walk edge dec d idx 0 row' k' o → walk edge dec d row k row' k' o
  | walk_dhcp row k idx x rt : edge row k = Some (idx, x) → dec x = Some rt → rt_port rt = DESTINED_FOR_DHCP →
      walk edge dec d row k row k (if decide (is_sid x) then ODhcp else ODiscard)
  | walk_next row k idx x rt row' k' o : edge row k = Some (idx, x) → dec x = Some rt → no_use rt → k < 3 →
      walk edge dec d row (k + 1) row' k' o → walk edge dec d row k row' k' o
  | walk_exhausted row k idx x rt : edge row k = Some (idx, x) → dec x = Some rt → no_use rt → 3 ≤ k →
      walk edge dec d row k row k OUnroutable.

Lemma walk_functional edge dec d row k r1 k1 o1 : walk edge dec d row k r1 k1 o1 → ∀ r2 k2 o2,
  walk edge dec d row k r2 k2 o2 → r1 = r2 ∧ k1 = k2 ∧ o1 = o2.
Proof.
  induction 1; intros r2 k2 o2 Hother; inversion Hother; simplify_eq;
    unfold DESTINED_FOR_LOCALHOST, DESTINED_FOR_DHCP, no_use in *; destruct_and?; try done; try lia;
    try (by destruct_or?); by auto.
Qed.

Lemma walk_ext e1 e2 dec d row k r' k' o : (∀ i j, e1 i j = e2 i j) → walk e1 dec d row k r' k' o →
  walk e2 dec d row k r' k' o.
Proof.
  intros He. induction 1 as [| | | |row k idx x rt row' k' o H1 H2 H3 H4 H5 Hw IH| |row k idx x rt row' k' o H1 H2 H3 H4 Hw IH|];
    rewrite He in *.
  - by apply walk_no_edge.
  - by eapply walk_no_table.
  - by eapply walk_forward.
  - by eapply walk_arrive.
  - by eapply walk_enter.
  - by eapply walk_dhcp.
  - by eapply walk_next.
  - by eapply walk_exhausted.
Qed.

Lemma dag_edge_same b b' d s row k : 0 ≤ s → same_dag b b' d s → dag_edge b' d row k = dag_edge b d row k.
Proof.
  intros Hs Hsd. unfold dag_edge. case_decide; [|done]. rewrite (sd_idx _ _ _ _ Hsd) by lia.
  destruct (edge_idx b row k) as [idx|] eqn:He; [|done]. case_decide; [|done].
  assert (0 ≤ idx). { unfold edge_idx in He. destruct (edge_byte b row k); [|done]. injection He as <-.
    apply Z.mod_pos_bound. lia. }
  by rewrite (sd_xid _ _ _ _ Hsd) by lia.
Qed.

(** ** The fate of a packet *)

(** The events for a packet [p] with hop limit [h] whose walk ends at the edge
    [k] of [row]. *)
Definition fate (p : Packet) (d s h row k : Z) (o : outcome) (evs : list event) : Prop :=
  match o with
  | OForward rt => ∃ q redirect,
      evs = redirect ++ [if decide (h ≤ 1) then Expired q else Forwarded q] ∧
      same_dag (p_data p) (p_data q) d s ∧ current_row (p_data q) = Ok row ∧
      hdr_hlim (p_data q) = Ok (if decide (h ≤ 1) then h else h - 1) ∧
      XIA_PAINT_ANNO q = i16 (rt_port rt) ∧
      (∀ x, rt_nexthop rt = Some x → nexthop_neighbor_xid_anno q = x) ∧
      (if decide (rt_port rt = XIA_PAINT_ANNO p) then ∃ q', redirect = [Redirected q'] else redirect = [])
  | OArrive => ∃ q idx, evs = [Arrived q] ∧ same_dag (p_data p) (p_data q) d s ∧
      edge_idx (p_data p) row k = Ok idx ∧ hdr_last (p_data q) = Ok idx ∧ hdr_hlim (p_data q) = Ok h ∧
      XIA_PAINT_ANNO q = DESTINED_FOR_LOCALHOST
  | ODhcp => ∃ q, evs = [Dhcp q] ∧ same_dag (p_data p) (p_data q) d s ∧ current_row (p_data q) = Ok row
  | ODiscard => ∃ q, evs = [Discarded q]
  | OUnroutable => ∃ q, evs = [Unroutable q] ∧ same_dag (p_data p) (p_data q) d s ∧ current_row (p_data q) = Ok row
  end.

(** No node of the DAG is broadcast to. *)
Definition unicast (ts : list XIAXIDRouteTable) (b : list Z) (d : Z) : Prop :=
  ∀ row k idx x, dag_edge b d row k = Some (idx, x) → x ≠ _bcast_xid ∧
    ∀ rt, decision ts x = Some rt → rt_port rt ≠ DESTINED_FOR_BROADCAST.

Lemma leads_dag_edge p d s row k idx x : at_row p d s row k → dag_edge (p_data p) d row k = Some (idx, x) ↔
  leads_to p d row k idx x.
Proof.
  intros [Hok Hrow Hr Hp Hk]. unfold dag_edge, leads_to. rewrite decide_True by done. pose proof (ho_spos _ _ _ Hok).
  destruct (edge_idx_ok _ _ _ Hok row k ltac:(lia) Hk) as (j & -> & Hj). case_decide as Hc.
  - destruct (node_xid_ok _ _ _ Hok j ltac:(lia)) as [y Hy]. rewrite Hy. split; [intros; simplify_eq|].
    + repeat split; (done || lia).
    + intros (? & ? & ? & ?). simplify_eq. congruence.
  - split; [done|]. intros (? & ? & ? & ?). simplify_eq. lia.
Qed.

(** What a table sends for a unicast packet. *)
Lemma push_unicast t p d s row k idx x : at_row p d s row k → leads_to p d row k idx x → x ≠ _bcast_xid →
  0 ≤ XIA_PAINT_ANNO p ∨ XIA_PAINT_ANNO p = DESTINED_FOR_LOCALHOST →
  rt_port (table_route t x) ≠ DESTINED_FOR_BROADCAST →
  let rt := table_route t x in let q := route_packet rt p in
  route_push t p = Ok (t,
    if decide (0 ≤ rt_port rt) then
      (if decide (rt_port rt = XIA_PAINT_ANNO p)
       then [(4, SET_XIA_PAINT_ANNO q ((XIA_PAINT_ANNO q + TOTAL_SPECIAL_CASES) * -1))] else []) ++
      [(0, SET_XIA_PAINT_ANNO q (rt_port rt))]
    else if decide (rt_port rt = DESTINED_FOR_LOCALHOST) then [(1, q)]
    else if decide (rt_port rt = DESTINED_FOR_DHCP) then [(3, SET_XIA_PAINT_ANNO q (rt_port rt))]
    else [(2, q)]).
Proof.
  intros Har Hl Hb Hp Hnb rt q. subst q rt. unfold route_push, table_route in *.
  unfold DESTINED_FOR_LOCALHOST, DESTINED_FOR_BROADCAST, DESTINED_FOR_DHCP, DESTINED_FOR_DISCARD, REDIRECT in *.
  case_decide; [done|]. rewrite decide_False by lia.
  rewrite (lookup_unicast t _ p d s row k idx x) by done. cbn [mbind res_bind]. do 2 f_equal.
  set (rt := default (_rtdata t) (_rts t !! x)) in *. destruct (decide (0 ≤ rt_port rt)) as [Hpos|Hneg].
  - f_equal. destruct (decide (rt_port rt = XIA_PAINT_ANNO p)); [rewrite decide_True by lia|rewrite decide_False by lia]; done.
  - rewrite decide_False by lia. cbn [app]. repeat case_decide; (done || lia).
Qed.

(** ** The elements compute the walk *)

(** A packet on its way: where it is, and what it still shares with the packet
    [p0] that came in. *)
Record on_way (p0 p : Packet) (d s h row k : Z) : Prop := {
  ow_at : at_row p d s row k;
  ow_dag : same_dag (p_data p0) (p_data p) d s;
  ow_hlim : hdr_hlim (p_data p) = Ok h;
  ow_paint : XIA_PAINT_ANNO p = XIA_PAINT_ANNO p0 }.

Lemma on_way_nexthop p0 p q d s h row k : on_way p0 p d s h row k → same_but_nexthop p q → on_way p0 q d s h row k.
Proof.
  intros [[H1 H2 H3 H4 H5] Hd Hh Hp] (Ed & Ep & En). split; [split; by rewrite ?Ed, ?Ep, ?En|by rewrite Ed..|congruence].
Qed.

Lemma sid_port x : type_port (xid_type x) = SID_PORT ↔ is_sid x.
Proof.
  unfold type_port, is_sid, SID_PORT.
  assert (htonl CLICK_XIA_XID_TYPE_AD ≠ htonl CLICK_XIA_XID_TYPE_SID) by done.
  assert (htonl CLICK_XIA_XID_TYPE_HID ≠ htonl CLICK_XIA_XID_TYPE_SID) by done.
  repeat case_decide; split; intros; (done || lia || congruence).
Qed.

Section elements_walk.
Context (p0 : Packet) (d s h : Z) (ts : list XIAXIDRouteTable).
Context (Hs : 0 ≤ s).

Lemma on_way_edge p row k : on_way p0 p d s h row k → dag_edge (p_data p0) d row k = dag_edge (p_data p) d row k.
Proof using Hs. intros Hw. symmetry. apply dag_edge_same with s; [done|apply Hw]. Qed.

(** The packet leaves the router, or its hop limit ends here. *)
Lemma after_forward go port r p row k rt : on_way p0 p d s h row k → dec_active (GPRP r) = true →
  ∃ r' ev q, after_route go port r (0, SET_XIA_PAINT_ANNO p (rt_port rt)) = Ok (r', [ev]) ∧ tables r' = tables r ∧
    ev = (if decide (h ≤ 1) then Expired q else Forwarded q) ∧ same_dag (p_data p0) (p_data q) d s ∧
    current_row (p_data q) = Ok row ∧ hdr_hlim (p_data q) = Ok (if decide (h ≤ 1) then h else h - 1) ∧
    XIA_PAINT_ANNO q = i16 (rt_port rt) ∧ nexthop_neighbor_xid_anno q = nexthop_neighbor_xid_anno p.
Proof.
  intros [[Hok Hrow Hr Hp Hk] Hd Hh Hpt] Ha. unfold after_route. rewrite decide_True by done.
  pose proof (DecHLIM_ok (GPRP r) (SET_XIA_PAINT_ANNO p (rt_port rt)) d s h Hok Hh Ha) as Hdec. case_decide.
  - rewrite Hdec. cbn [mbind res_bind fst snd]. rewrite decide_False by done.
    do 3 eexists. split; [done|]. by split_and!.
  - destruct Hdec as (b & -> & Hb & Hbh & Hbl). cbn [mbind res_bind fst snd]. rewrite decide_True by done.
    do 3 eexists. split; [done|]. split_and!; try done; cbn.
    + by eapply same_dag_trans.
    + unfold current_row in *. cbn in Hbl. rewrite Hbl, (ho_dnode _ _ _ (sd_ok _ _ _ _ Hb)).
      by rewrite (ho_dnode _ _ _ Hok) in Hrow.
Qed.

(** The packet is for this host: it has arrived, or goes on from the node. *)
Lemma after_local go r p row k idx x : on_way p0 p d s h row k → leads_to p d row k idx x →
  (idx = d - 1 ∨ is_sid x → ∃ q, after_route go (type_port (xid_type x)) r (1, p) = Ok (r, [Arrived q]) ∧
     fate p0 d s h row k OArrive [Arrived q]) ∧
  (idx ≠ d - 1 → ¬ is_sid x → ∃ q, after_route go (type_port (xid_type x)) r (1, p) = go r q ∧
     on_way p0 q d s h idx 0).
Proof using Hs.
  intros [Hat Hd Hh Hpt] Hl. destruct (NextHop_ok p d s row k idx Hat (proj1 Hl)) as (b & Hb & Hsd & Hlast & Hbh).
  pose proof (sid_port x) as Hsid.
  unfold after_route. rewrite (decide_False (P := 1 = 0)), (decide_True (P := 1 = 1)), Hb by done. cbn [mbind res_bind]. unfold CheckDest_push.
  cbn [p_data with_data]. rewrite Hlast, (ho_dnode _ _ _ (sd_ok _ _ _ _ Hsd)). cbn [mbind res_bind fst snd].
  assert (∀ q, p_data q = b → XIA_PAINT_ANNO q = DESTINED_FOR_LOCALHOST → fate p0 d s h row k OArrive [Arrived q]) as Hf.
  { intros q <- Hq. exists q, idx. split_and!; try done; [by eapply same_dag_trans| |by rewrite Hbh].
    rewrite <-(sd_idx _ _ _ _ Hd); [apply Hl| |apply Hat]. pose proof (ar_range _ _ _ _ _ Hat). lia. }
  split.
  - intros Hc. destruct (decide (type_port (xid_type x) = SID_PORT)) as [|Hns].
    + eexists. split; [done|]. by apply Hf.
    + destruct Hc as [->|Hc]; [|by apply Hsid in Hc]. rewrite (decide_True (P := d - 1 = d - 1)) by done.
      rewrite decide_True by done. eexists. split; [done|]. by apply Hf.
  - intros Hne Hns. rewrite decide_False by (by rewrite Hsid). rewrite (decide_False (P := idx = d - 1)) by done.
    rewrite decide_False by done. eexists. split; [done|]. split; [by eapply at_next| |by rewrite <-Hh, <-Hbh|done].
    by eapply same_dag_trans.
Qed.

(** The packet cannot use this edge: the next one, or none. *)
Lemma after_unused go port r p row k : on_way p0 p d s h row k →
  if decide (k < 3) then ∃ q, after_route go port r (2, p) = go r q ∧ on_way p0 q d s h row (k + 1)
  else ∃ q, after_route go port r (2, p) = Ok (r, [Unroutable q]) ∧ fate p0 d s h row k OUnroutable [Unroutable q].
Proof.
  intros [Hat Hd Hh Hpt]. pose proof (SelectPath_next p d s row k Hat) as Hsel. unfold after_route.
  rewrite (decide_False (P := 2 = 0)), (decide_False (P := 2 = 1)), (decide_True (P := 2 = 2)) by done. case_decide.
  - destruct Hsel as (q & -> & Haq & Hdq & Hpq & _). cbn [fst snd]. rewrite decide_True by done.
    exists q. split; [done|]. split; [done|by rewrite Hdq..|congruence].
  - destruct Hsel as (q & -> & Hdq). cbn [fst snd]. rewrite decide_False by done. exists q. split; [done|].
    exists q. rewrite Hdq. split_and!; [done..|]. apply Hat.
Qed.

(** One round of the classifier, whose result is [run]: the walk stops here, or
    goes on with [go]. *)
Definition round_ends (run : res (XIAPacketRoute * list event)) (row k : Z) : Prop :=
  ∃ r' evs o, run = Ok (r', evs) ∧ tables r' = ts ∧ fate p0 d s h row k o evs ∧
    walk (dag_edge (p_data p0) d) (decision ts) d row k row k o.

Definition round_goes_on (run : res (XIAPacketRoute * list event))
    (go : XIAPacketRoute → Packet → res (XIAPacketRoute * list event)) (r : XIAPacketRoute) (row k : Z) : Prop :=
  ∃ r1 q row1 k1,
    run = (re ← go r1 q; Ok (re.1, re.2)) ∧ tables r1 = ts ∧ GPRP r1 = GPRP r ∧ on_way p0 q d s h row1 k1 ∧
    (row1 = row ∧ k1 = k + 1 ∨ k1 = 0 ∧ row1 ≠ d - 1 ∧ edge_idx (p_data p0) row k = Ok row1 ∧
       row1 ≠ CLICK_XIA_XID_EDGE_UNUSED) ∧
    ∀ row' k' o, walk (dag_edge (p_data p0) d) (decision ts) d row1 k1 row' k' o →
      walk (dag_edge (p_data p0) d) (decision ts) d row k row' k' o.

(** The outputs of a table, one after the other. *)
Definition outputs (go : XIAPacketRoute → Packet → res (XIAPacketRoute * list event)) (port : Z) (r : XIAPacketRoute)
    (outs : list (Z * Packet)) : res (XIAPacketRoute * list event) :=
  foldM (λ acc o, re ← after_route go port acc.1 o; Ok (re.1, acc.2 ++ re.2)) (r, []) outs.

Lemma outputs_one go port r o : outputs go port r [o] = (re ← after_route go port r o; Ok (re.1, re.2)).
Proof. unfold outputs. cbn. by destruct (after_route go port r o). Qed.

Section outputs.
Context (go : XIAPacketRoute → Packet → res (XIAPacketRoute * list event)) (r : XIAPacketRoute) (q : Packet).
Context (row k idx : Z) (x : Xid) (rt : XIARouteData).
Context (Hr : tables r = ts) (Hq : on_way p0 q d s h row k) (Hl : leads_to q d row k idx x).
Context (Hedge : dag_edge (p_data p0) d row k = Some (idx, x)) (Hdec : decision ts x = Some rt).

Lemma outputs_forward : dec_active (GPRP r) = true → 0 ≤ rt_port rt →
  (∀ y, rt_nexthop rt = Some y → nexthop_neighbor_xid_anno q = y) →
  round_ends (outputs go (type_port (xid_type x)) r
    ((if decide (rt_port rt = XIA_PAINT_ANNO p0)
      then [(4, SET_XIA_PAINT_ANNO q ((XIA_PAINT_ANNO q + TOTAL_SPECIAL_CASES) * -1))] else []) ++
     [(0, SET_XIA_PAINT_ANNO q (rt_port rt))])) row k.
Proof using Hr Hq Hedge Hdec.
  intros Ha Hpos Hnh. destruct (after_forward go (type_port (xid_type x)) r q row k rt Hq Ha)
    as (r' & ev & q' & Haf & Hr' & -> & Hd' & Hrow' & Hh' & Hpt' & Hnh').
  eexists r', _, (OForward rt). split_and!; [|congruence| |by eapply walk_forward].
  - unfold outputs. rewrite foldM_app. instantiate (1 := (if decide (rt_port rt = XIA_PAINT_ANNO p0) then
      [Redirected (SET_XIA_PAINT_ANNO q ((XIA_PAINT_ANNO q + TOTAL_SPECIAL_CASES) * -1))] else []) ++ [_]).
    destruct (decide (rt_port rt = XIA_PAINT_ANNO p0)); cbn [foldM mbind res_bind fst snd app].
    + change (after_route go (type_port (xid_type x)) r (4, ?p)) with (Ok (r, [Redirected p])).
      cbn [mbind res_bind fst snd app]. by rewrite Haf.
    + by rewrite Haf.
  - eexists q', _. split; [done|]. split_and!; try done; [|destruct (decide (rt_port rt = XIA_PAINT_ANNO p0)); [by eexists|done]].
    intros y Hy. rewrite Hnh'. by apply Hnh.
Qed.

Lemma outputs_local : rt_port rt = DESTINED_FOR_LOCALHOST →
  let run := outputs go (type_port (xid_type x)) r [(1, q)] in round_ends run row k ∨ round_goes_on run go r row k.
Proof using Hs Hr Hq Hl Hedge Hdec.
  intros Hloc run. unfold run. rewrite outputs_one. destruct (after_local go r q row k idx x Hq Hl) as [Harr Hgo].
  destruct (decide (idx = d - 1 ∨ is_sid x)) as [Hc|Hc].
  - left. destruct (Harr Hc) as (q' & -> & Hf). exists r, [Arrived q'], OArrive.
    split_and!; [done..|by eapply walk_arrive].
  - right. apply Decidable.not_or in Hc as [Hc1 Hc2]. destruct (Hgo Hc1 Hc2) as (q' & -> & Hq').
    exists r, q', idx, 0. split_and!; try done; [|intros; by eapply walk_enter]. destruct Hl as (Hi & _ & Hne & _).
    right. split_and!; try done. pose proof (ar_range _ _ _ _ _ (ow_at _ _ _ _ _ _ _ Hq)).
    rewrite <-(sd_idx _ _ _ _ (ow_dag _ _ _ _ _ _ _ Hq)); [done|lia|apply Hq].
Qed.

Lemma outputs_unused : no_use rt →
  let run := outputs go (type_port (xid_type x)) r [(2, q)] in round_ends run row k ∨ round_goes_on run go r row k.
Proof using Hr Hq Hedge Hdec.
  intros Hno run. unfold run. rewrite outputs_one. pose proof (after_unused go (type_port (xid_type x)) r q row k Hq) as Ha.
  case_decide.
  - right. destruct Ha as (q' & -> & Hq'). exists r, q', row, (k + 1). split_and!; try done; [by left|].
    intros. by eapply walk_next.
  - left. destruct Ha as (q' & -> & Hf). exists r, [Unroutable q'], OUnroutable. split_and!; try done.
    eapply walk_exhausted; [done..|lia].
Qed.

Lemma outputs_dhcp : rt_port rt = DESTINED_FOR_DHCP →
  round_ends (outputs go (type_port (xid_type x)) r [(3, SET_XIA_PAINT_ANNO q (rt_port rt))]) row k.
Proof using Hr Hq Hedge Hdec.
  intros Hdh. rewrite outputs_one. unfold after_route. repeat rewrite decide_False by done.
  rewrite (decide_True (P := 3 = 3)) by done. cbn [mbind res_bind fst snd].
  eexists r, _, (if decide (is_sid x) then ODhcp else ODiscard). split; [done|]. split; [done|].
  split; [|by eapply walk_dhcp]. pose proof (sid_port x). case_decide as Hsid.
  - rewrite decide_True by tauto. eexists. split; [done|]. split; [apply Hq|]. apply Hq.
  - rewrite decide_False by tauto. by eexists.
Qed.
End outputs.

Context (Hts : length ts = 5%nat) (Huni : unicast ts (p_data p0) d).
Context (Hin : 0 ≤ XIA_PAINT_ANNO p0 ∨ XIA_PAINT_ANNO p0 = DESTINED_FOR_LOCALHOST).

(** A round in which the tables are consulted. *)
Lemma table_round go r p row k idx x t : tables r = ts → dec_active (GPRP r) = true → on_way p0 p d s h row k →
  leads_to p d row k idx x → dag_edge (p_data p0) d row k = Some (idx, x) → type_port (xid_type x) ≠ 5 →
  tables r !! Z.to_nat (type_port (xid_type x)) = Some t →
  let run := ts' ← route_push t p; outputs go (type_port (xid_type x))
    (mkPacketRoute (<[Z.to_nat (type_port (xid_type x)) := ts'.1]> (tables r)) (GPRP r)) ts'.2 in
  round_ends run row k ∨ round_goes_on run go r row k.
Proof using All.
  intros Hr Ha Hw Hl Hedge H5 Ht run.
  assert (decision ts x = Some (table_route t x)) as Hdec
    by (unfold decision; rewrite decide_False by done; by rewrite <-Hr, Ht).
  destruct (Huni _ _ _ _ Hedge) as [Hnb Hnbr]. specialize (Hnbr _ Hdec). pose proof (ow_paint _ _ _ _ _ _ _ Hw) as Hpt.
  unfold run. rewrite (push_unicast t p d s row k idx x) by (done || by apply Hw || by rewrite Hpt).
  cbn [mbind res_bind fst snd]. rewrite list_insert_id by done. rewrite Hpt.
  replace (mkPacketRoute (tables r) (GPRP r)) with r by (by destruct r).
  set (rt := table_route t x) in *. set (q := route_packet rt p).
  pose proof (route_packet_same rt p) as Hsame. fold q in Hsame.
  assert (on_way p0 q d s h row k) as Hq by (by eapply on_way_nexthop).
  assert (leads_to q d row k idx x) as Hlq by (unfold leads_to; by rewrite (proj1 Hsame)).
  unfold DESTINED_FOR_LOCALHOST, DESTINED_FOR_DHCP, FALLBACK in *.
  case_decide; [left; eapply outputs_forward; try done|case_decide; [eapply outputs_local; try done; by exact idx|case_decide]].
  - intros y Hy. unfold q, route_packet. rewrite Hy, decide_True; [done|].
    unfold DESTINED_FOR_LOCALHOST, FALLBACK. lia.
  - left. by eapply outputs_dhcp.
  - eapply outputs_unused; [done..|]. unfold no_use, DESTINED_FOR_LOCALHOST, DESTINED_FOR_DHCP. lia.
Qed.

Lemma classify_round fuel r p row k : tables r = ts → dec_active (GPRP r) = true → on_way p0 p d s h row k →
  round_ends (classify (S fuel) r p) row k ∨ round_goes_on (classify (S fuel) r p) (classify fuel) r row k.
Proof using All.
  intros Hr Ha Hw. pose proof (ow_at _ _ _ _ _ _ _ Hw) as Hat. pose proof (on_way_edge p row k Hw) as He.
  assert (fate p0 d s h row k OUnroutable [Unroutable p]) as Hfate
    by (exists p; split_and!; [done|apply Hw|apply Hat]).
  cbn [classify]. unfold classify_step. destruct (edge_cases p d s row k Hat) as [(idx & x & Hl)|(idx & Hidx & Hno)].
  2:{ left. rewrite (match_none p d s row k idx) by done. exists r, [Unroutable p], OUnroutable.
    split_and!; try done. apply walk_no_edge. rewrite He. unfold dag_edge.
    rewrite decide_True by (split; apply Hat). by rewrite Hidx, decide_False by lia. }
  pose proof (proj2 (leads_dag_edge p d s row k idx x Hat) Hl) as Hedge. rewrite <-He in Hedge.
  rewrite (match_leads p d s row k idx x) by done. cbn [mbind res_bind].
  pose proof (type_port_range (xid_type x)) as Hport. rewrite decide_False by lia.
  destruct (decide (type_port (xid_type x) = 5)) as [H5|H5].
  { left. exists r, [Unroutable p], OUnroutable. split_and!; try done.
    eapply walk_no_table; [done|]. unfold decision. by rewrite decide_True. }
  destruct (vgetz_in (tables r) (type_port (xid_type x))) as (t & Ht & ->); [rewrite Hr; lia|].
  by apply (table_round (classify fuel) r p row k idx x t).
Qed.

Lemma classify_walk rank : ranked (p_data p0) d rank → ∀ fuel r p row k, tables r = ts →
  dec_active (GPRP r) = true → on_way p0 p d s h row k → 4 * Z.of_nat (rank row) + (4 - k) ≤ Z.of_nat fuel →
  ∃ r' evs row' k' o, classify fuel r p = Ok (r', evs) ∧ tables r' = ts ∧
    walk (dag_edge (p_data p0) d) (decision ts) d row k row' k' o ∧ fate p0 d s h row' k' o evs.
Proof using All.
  intros Hrank. induction fuel as [|fuel IH]; intros r p row k Hr Ha Hw Hfuel.
  { pose proof (ar_k _ _ _ _ _ (ow_at _ _ _ _ _ _ _ Hw)). lia. }
  destruct (classify_round fuel r p row k Hr Ha Hw)
    as [(r' & evs & o & Hrun & Hr' & Hf & Hwalk)|(r1 & q & row1 & k1 & Hrun & Hr1 & Hg1 & Hw1 & Hlt & Hwalk)].
  { by exists r', evs, row, k, o. }
  destruct (IH r1 q row1 k1) as (r' & evs & row' & k' & o & Hq & Hr' & Hwq & Hf); [done|by rewrite Hg1|done|..].
  - pose proof (ar_k _ _ _ _ _ (ow_at _ _ _ _ _ _ _ Hw)). pose proof (ar_range _ _ _ _ _ (ow_at _ _ _ _ _ _ _ Hw)).
    pose proof (ar_range _ _ _ _ _ (ow_at _ _ _ _ _ _ _ Hw1)).
    destruct Hlt as [[-> ->]|(-> & Hne & He & Hnu)]; [lia|].
    pose proof (Hrank row k row1 ltac:(lia) ltac:(lia) He ltac:(lia) Hnu). lia.
  - exists r', evs, row', k', o. rewrite Hrun, Hq. split_and!; try done. by apply Hwalk.
Qed.
End elements_walk.

(** The routing core computes the walk. *)
Lemma packet_route_walk r p d s h q row : length (tables r) = 5%nat → dec_active (GPRP r) = true →
  header_ok (p_data p) d s → hdr_hlim (p_data p) = Ok h → current_row (p_data p) = Ok row → 0 ≤ row < d →
  0 ≤ XIA_PAINT_ANNO p ∨ XIA_PAINT_ANNO p = DESTINED_FOR_LOCALHOST → unicast (tables r) (p_data p) d →
  dst_path (p_data p) = Ok q → in_range (p_nodes q) → path_acyclic (p_nodes q) →
  ∃ r' evs row' k' o, packet_route (4 * Z.to_nat d + 8) r p = Ok (r', evs) ∧ tables r' = tables r ∧
    walk (dag_edge (p_data p) d) (decision (tables r)) d row 0 row' k' o ∧ fate p d s h row' k' o evs.
Proof.
  intros Ht Ha Hok Hh Hrow Hr Hp Huni Hq Hin Hac.
  destruct (acyclic_ranked _ _ _ _ Hok Hq Hin Hac) as (rank & Hrank & Hmax). specialize (Hmax row).
  apply (classify_walk p d s h (tables r) (ho_spos _ _ _ Hok) Ht Huni Hp rank Hrank (4 * Z.to_nat d + 8) r
    (SelectPath_push true p).2 row 0); [done..| |lia]. split; try done.
Qed.

(** C15: the fate of a unicast packet is decided by its destination DAG and the
    routing tables alone, as [walk] says: the edges of the current node are
    tried in order, a node that is this host is entered, and what decides is the
    first edge whose route leaves the host, ends here, or has no table.  A
    forwarded packet carries the port and the next hop of that route and a
    lower hop limit (at the limit it expires instead), an arrived one points to
    its destination; the walk is unique, and the tables are not changed. *)
Theorem route_follows_dag r p d s h q row : length (tables r) = 5%nat → dec_active (GPRP r) = true →
  header_ok (p_data p) d s → hdr_hlim (p_data p) = Ok h → current_row (p_data p) = Ok row → 0 ≤ row < d →
  0 ≤ XIA_PAINT_ANNO p ∨ XIA_PAINT_ANNO p = DESTINED_FOR_LOCALHOST → unicast (tables r) (p_data p) d →
  dst_path (p_data p) = Ok q → in_range (p_nodes q) → path_acyclic (p_nodes q) →
  let W := walk (dag_edge (p_data p) d) (decision (tables r)) d row 0 in
  ∃ r' evs row' k' o, packet_route (4 * Z.to_nat d + 8) r p = Ok (r', evs) ∧ tables r' = tables r ∧
    W row' k' o ∧ fate p d s h row' k' o evs ∧ ∀ row2 k2 o2, W row2 k2 o2 → row2 = row' ∧ k2 = k' ∧ o2 = o.
Proof.
  intros Ht Ha Hok Hh Hrow Hr Hp Huni Hq Hin Hac W.
  destruct (packet_route_walk r p d s h q row) as (r' & evs & row' & k' & o & Hrun & Hr' & Hwalk & Hf); [done..|].
  exists r', evs, row', k', o. split_and!; try done. intros row2 k2 o2 Hw2. by eapply walk_functional.
Qed.

Lemma demo_edges row k idx x : dag_edge demo_bytes 2 row k = Some (idx, x) → x = xid_a ∨ x = xid_d.
Proof.
  unfold dag_edge. case_decide as Hr; [|done].
  assert (row = 0 ∨ row = 1) as Hrow by lia. assert (k = 0 ∨ k = 1 ∨ k = 2 ∨ k = 3) as Hk by lia.
  intros He. destruct_or! Hrow; destruct_or! Hk; subst; vm_compute in He; try done; injection He as _ <-; auto.
Qed.

Lemma route_follows_dag_witness : ∃ r' evs row k, packet_route 16 demo_router demo_packet = Ok (r', evs) ∧
  fate demo_packet 2 2 250 row k (OForward (mkRoute 3 0 (Some xid_a))) evs.
Proof.
  destruct (route_follows_dag demo_router demo_packet 2 2 250 demo_dst 1)
    as (r' & evs & row & k & o & Hrun & _ & _ & Hf & Hw); [done|done|exact demo_header_ok|done|done|lia|left; done|
    |done|exact demo_dst_in_range|exact demo_dst_acyclic|].
  - intros i j idx x [-> | ->]%demo_edges; (split; [done|]); intros rt Hrt; vm_compute in Hrt; injection Hrt as <-; done.
  - exists r', evs, row, k. split; [exact Hrun|]. destruct (Hw 1 1 (OForward (mkRoute 3 0 (Some xid_a)))) as (_ & _ & ->).
    + apply (walk_next _ _ _ 1 0 1 xid_d (mkRoute (-1) 0 None)); [by vm_compute..|].
      apply (walk_forward _ _ _ 1 1 0 xid_a); by vm_compute.
    + exact Hf.
Defined.
