(* ===== verification/PacketRouteFaults.v ===== *)
(** * PacketRouteFaults: where routing goes wrong, and how routes take effect

    A route that is set decides about the packets to its XID.  A cycle among
    local nodes is walked for ever, a type without a table ends routing although
    other paths are left, and a broadcast with a short source address fails an
    assertion. *)

From Stdlib Require Import ZArith Lia Ascii String.
From stdpp Require Import base gmap sets list.
From S2P Require Import Prelude Text ConfParse XiaPath XiaPathOrder XiaPathCodec XidText XiaPathText XiaHeader RouteTable RouteTableSpec Elements HeaderView PacketRoute PacketRouteSpec PacketRouteWalk.

Local Open Scope Z_scope.

(** ** Routes take effect *)

(** after the [set4] handler of the table of its type has taken the text of a
    route, the route decides about every packet to that XID, and the decision
    about every other XID is what it was. *)
Theorem route_set_decides qx qi ts t x d : (∀ s, qx s = None) → (∀ s, qi s = None) → printable x → printable_route d →
  let i := Z.to_nat (type_port (xid_type x)) in
  ts !! i = Some t → type_port (xid_type x) ≠ 5 → _principal_type_enabled t ≠ 0 →
  let ts' := <[i := (set_handler4 qx qi (route_text (xid_word x) d) false t).1]> ts in
  decision ts' x = Some d ∧ ∀ y, y ≠ x → decision ts' y = decision ts y.
Proof.
  intros Hqx Hqi Hx Hd i Ht H5 He ts'. unfold ts'. rewrite set_route_text by done. cbn [andb fst]. split.
  - unfold decision. rewrite decide_False by done. fold i.
    rewrite list_lookup_insert_eq by (by eapply lookup_lt_Some). cbn. unfold table_route. cbn [_principal_type_enabled with_rts _rts].
    by rewrite decide_False, lookup_insert_eq.
  - intros y Hy. unfold decision. case_decide; [done|]. destruct (decide (Z.to_nat (type_port (xid_type y)) = i)) as [->|Hne].
    + rewrite list_lookup_insert_eq, Ht by (by eapply lookup_lt_Some). cbn. unfold table_route.
      cbn [_principal_type_enabled with_rts _rts _rtdata]. by rewrite lookup_insert_ne.
    + by rewrite list_lookup_insert_ne.
Qed.

Lemma route_set_decides_witness :
  decision (<[0%nat := (set_handler4 (λ _, None) (λ _, None) (route_text (xid_word xid_a) (mkRoute 2 0 (Some xid_d)))
    false empty_table).1]> (replicate 5 empty_table)) xid_a = Some (mkRoute 2 0 (Some xid_d)).
Proof.
  apply (route_set_decides (λ _, None) (λ _, None) (replicate 5 empty_table) empty_table xid_a (mkRoute 2 0 (Some xid_d)));
    [done|done|apply printable_demo| |done..].
  split_and!; [simpl; lia..|]. intros x [= <-]. split; [apply printable_demo|done].
Defined.

(** ** A type without a table *)

(** an edge to an XID of a type without a table ends routing at once, although
    the node may have other edges that can be used. *)
Theorem unknown_type_ends r p d s row k idx x fuel : at_row p d s row k → leads_to p d row k idx x →
  type_port (xid_type x) = 5 → classify (S fuel) r p = Ok (r, [Unroutable p]).
Proof.
  intros Hat Hl H5. cbn [classify]. unfold classify_step. rewrite (match_leads p d s row k idx x) by done. cbn [mbind res_bind].
  rewrite H5. rewrite decide_False, decide_True by done. done.
Qed.

(** A packet whose first edge leads to an XID of type 0x77; the second edge
    leads to the AD, for which there is a route. *)
Definition odd_xid : Xid := mkXid (htonl 119) (replicate 20 2).
Definition odd_bytes : list Z :=
  Eval vm_compute in [1; 59; 0; 0; 250; 2; 2; 255] ++
    (([mkXidNode xid_a (demo_row 1 CLICK_XIA_XID_EDGE_UNUSED); mkXidNode odd_xid (demo_row 1 0)] ++ demo_nodes) ≫= node_bytes).
Definition odd_packet : Packet := mkPacket odd_bytes 0 0 Xid_undef.

Lemma unknown_type_ends_witness : classify 16 demo_router odd_packet = Ok (demo_router, [Unroutable odd_packet]) ∧
  dag_edge odd_bytes 2 1 1 = Some (0, xid_a) ∧ decision (tables demo_router) xid_a = Some (mkRoute 3 0 (Some xid_a)).
Proof.
  split; [|by vm_compute]. apply (unknown_type_ends demo_router odd_packet 2 2 1 0 1 odd_xid 15).
  - split; [|by vm_compute|lia|done|lia]. split; try by vm_compute. by apply all_bytes.
  - split; [by vm_compute|]. split; [lia|]. by vm_compute.
  - by vm_compute.
Defined.

(** ** Broadcasts *)

(** The sender's HID is not found in a source path of fewer than two nodes. *)
Lemma source_hid_short b d s : header_ok b d s → s < 2 → source_hid b = Ub AssertFail.
Proof.
  intros Hok Hs. pose proof (ho_spos _ _ _ Hok). pose proof (ho_dpos _ _ _ Hok). unfold source_hid, src_path.
  rewrite (ho_dnode _ _ _ Hok), (ho_snode _ _ _ Hok). cbn [mbind res_bind].
  assert (s = 0 ∨ s = 1) as [-> | ->] by lia; [by vm_compute|].
  destruct (nodes_at_ok _ _ _ Hok d 1) as (ws & Hws & Hl); [lia|lia|]. change (Z.of_nat 1) with 1 in Hws.
  rewrite Hws. destruct ws as [|w [|]]; [done| |done]. reflexivity.
Qed.

(** a packet to the broadcast XID fails an assertion in the routing table if
    its source path has fewer than two nodes. *)
Theorem broadcast_short_source t p d s row k idx : at_row p d s row k → leads_to p d row k idx _bcast_xid → s < 2 →
  _principal_type_enabled t ≠ 0 → XIA_PAINT_ANNO p ≠ REDIRECT → route_push t p = Ub AssertFail.
Proof.
  intros [Hok Hrow Hr Hp Hk] (Hidx & _ & Hne & Hx) Hs He Hpaint. unfold route_push.
  rewrite !decide_False by done. unfold lookup_route. rewrite Hrow. cbn [mbind res_bind]. rewrite Hp, Hidx.
  cbn [mbind res_bind]. rewrite decide_False by done. rewrite Hx. cbn [mbind res_bind]. rewrite decide_True by done.
  by rewrite (source_hid_short _ d s).
Qed.

Definition bcast_bytes : list Z :=
  Eval vm_compute in [1; 59; 0; 0; 250; 1; 1; 255] ++
    ([mkXidNode _bcast_xid (demo_row 0 CLICK_XIA_XID_EDGE_UNUSED); mkXidNode xid_d (demo_row 0 CLICK_XIA_XID_EDGE_UNUSED)] ≫= node_bytes).

Lemma broadcast_short_source_witness : route_push demo_table (mkPacket bcast_bytes 0 0 Xid_undef) = Ub AssertFail.
Proof.
  apply (broadcast_short_source demo_table _ 1 1 0 0 0); [| |lia|done|done].
  - split; [|by vm_compute|lia|done|lia]. split; try by vm_compute. by apply all_bytes.
  - split; [by vm_compute|]. split; [lia|]. by vm_compute.
Defined.

(** ** Cycles *)

(** Two local nodes that lead to each other, and a destination that neither
    leads to. *)
Definition local_table : XIAXIDRouteTable :=
  mkTable ∅ (mkRoute DESTINED_FOR_LOCALHOST 0 None) 1 4 XIAPath_reset xid_a.
Definition local_router : XIAPacketRoute := mkPacketRoute (replicate 5 local_table) (mkDecHLIM true 0).
Definition cycle_bytes : list Z :=
  Eval vm_compute in [1; 59; 0; 0; 250; 3; 2; 255] ++
    (([mkXidNode xid_a (demo_row 1 CLICK_XIA_XID_EDGE_UNUSED); mkXidNode xid_a (demo_row 0 CLICK_XIA_XID_EDGE_UNUSED);
       mkXidNode xid_d (demo_row 0 CLICK_XIA_XID_EDGE_UNUSED)] ++ demo_nodes) ≫= node_bytes).
Definition cycle_packet : Packet := mkPacket cycle_bytes 0 0 Xid_undef.

(** The packet after one round. *)
Definition next_round (p : Packet) : Packet :=
  match NextHop_push p with Ok q => (SelectPath_push true q).2 | Ub _ => p end.
Definition cycle_at (n : nat) : Packet := Nat.iter n next_round (SelectPath_push true cycle_packet).2.

Lemma cycle_step go n : (n < 5)%nat →
  classify_step go local_router (cycle_at n) =
    (re ← go local_router (cycle_at (if decide (n = 4%nat) then 3 else S n)%nat); Ok (re.1, re.2)).
Proof. intros Hn. destruct n as [|[|[|[|[|n]]]]]; [..|lia]; vm_compute; by destruct (go _ _). Qed.

(** routing need not end: a packet whose destination DAG has a cycle of nodes
    that are this host is passed round the elements for ever. *)
Theorem local_cycle_loops : header_ok cycle_bytes 3 2 ∧ current_row cycle_bytes = Ok 2 ∧
  ∀ fuel, packet_route fuel local_router cycle_packet = Ub OutOfFuel.
Proof.
  split; [split; [by apply all_bytes|by vm_compute..]|]. split; [by vm_compute|]. intros fuel. unfold packet_route.
  change (SelectPath_push true cycle_packet).2 with (cycle_at 0).
  assert (∀ n, (n < 5)%nat → classify fuel local_router (cycle_at n) = Ub OutOfFuel) as H; [|apply H; lia].
  induction fuel as [|fuel IH]; intros n Hn; [done|]. cbn [classify]. rewrite cycle_step by done.
  rewrite IH; [done|]. case_decide; lia.
Qed.
