(* ===== verification/XRouted.v ===== *)
(** * XRouted: the routing daemon (daemons/xrouted/xrouted.cc)

    The daemon's state, the messages it sends and receives, the shortest-path
    computation and the updates of the router's tables.  What the daemon sends
    is an output; the routes of the router that it reads are an argument. *)

From Stdlib Require Import ZArith Lia Ascii String.
From stdpp Require Import base gmap sets list strings sorting.
From S2P Require Import Prelude Text StdMap.

Local Open Scope Z_scope.

(** ** State *)

Definition CALC_DIJKSTRA_INTERVAL : Z := 4.
Definition MAX_HOP_COUNT : nat := 50.
Definition MAX_SEQNUM : Z := 100000.
Definition EXPIRE_TIME : Z := 10.
Definition MAX_COST : Z := 10000000.

Record RouteEntry := mkRouteEntry { re_dest : str; re_nextHop : str; re_port : Z; re_flags : Z }.
Record NeighborEntry := mkNeighbor { nb_AD : str; nb_HID : str; nb_cost : Z; nb_port : Z }.
Record NodeStateEntry := mkNodeState {
  ns_dest : str;
  ns_seq : Z;
  ns_num_neighbors : Z;
  ns_neighbor_list : list str;
  ns_checked : bool;
  ns_cost : Z;
  ns_prevNode : str }.

(** What [operator[]] of the maps inserts. *)
Definition RouteEntry_zero : RouteEntry := mkRouteEntry [] [] 0 0.
Definition Neighbor_zero : NeighborEntry := mkNeighbor [] [] 0 0.
Definition NodeState_zero : NodeStateEntry := mkNodeState [] 0 0 [] false 0 [].

Record RouteState := mkState {
  myAD : str;
  myHID : str;
  dual_router : Z;
  dual_router_AD : str;
  num_neighbors : Z;
  lsa_seq : Z;
  hello_seq : Z;
  hello_lsa_ratio : Z;
  calc_dijstra_ticks : Z;
  ADrouteTable : gmap str RouteEntry;
  neighborTable : gmap str NeighborEntry;
  networkTable : gmap str NodeStateEntry }.

(** [initRouteState], with the addresses and the kind of the local host. *)
Definition initRouteState (ad hid : str) (dual : Z) : RouteState :=
  mkState ad hid dual (lit "NULL") 0 0 0 3 0 ∅ ∅ ∅.

(** A route of the router, as [XIARouter::getRoutes] returns it. *)
Record XIARouteEntry := mkXIARoute { xr_xid : str; xr_port : Z; xr_nextHop : str; xr_flags : Z }.

(** [interfaceNumber]: the port of the first route to the XID, or -1. *)
Definition interfaceNumber (routes : list XIARouteEntry) (xid : str) : Z :=
  match list_find (λ r, xr_xid r = xid) routes with Some (_, r) => xr_port r | None => -1 end.

(** What the daemon does to the outside. *)
Inductive output :=
  | Broadcast (msg : str)
  | SetRoute (xid : str) (port : Z) (next : str) (flags : Z)
  | DelRoute (xid : str).

(** ** Messages *)

Definition CARET : ascii := "^"%char.

(** The next field up to a caret; without one the variable keeps its value. *)
Fixpoint find_caret (s : str) : option (str * str) :=
  match s with
  | [] => None
  | c :: s =>
      if decide (c = CARET) then Some ([], s)
      else match find_caret s with Some (a, b) => Some (c :: a, b) | None => None end
  end.

Definition read_field (rest old : str) : str * str :=
  match find_caret rest with Some (a, b) => (a, b) | None => (old, rest) end.

Definition atoi (s : str) : Z := default 0 (sscanf_d s).

(** [strcpy] into a buffer of 1024 bytes. *)
Definition copy1024 (s : str) : res str := if decide (length s < 1024)%nat then Ok s else Ub OutOfBounds.

Definition fields (l : list str) : str := l ≫= (λ f, f ++ [CARET]).

Definition sendHello (s : RouteState) : res (list output) :=
  b ← copy1024 (fields [lit "0"; myAD s; myHID s]); Ok [Broadcast b].

Definition lsa_text (s : RouteState) : str :=
  fields [lit "1"; print_d (dual_router s); myAD s; myHID s; print_d (lsa_seq s); print_d (num_neighbors s)] ++
  fields (entries (neighborTable s) ≫= (λ e, [nb_AD e.2; nb_HID e.2])).

Definition with_lsa_seq (s : RouteState) (n : Z) : RouteState :=
  mkState (myAD s) (myHID s) (dual_router s) (dual_router_AD s) (num_neighbors s) n (hello_seq s)
    (hello_lsa_ratio s) (calc_dijstra_ticks s) (ADrouteTable s) (neighborTable s) (networkTable s).

Definition sendLSA (s : RouteState) : res (RouteState * list output) :=
  b ← copy1024 (lsa_text s);
  Ok (with_lsa_seq s (Z.rem (lsa_seq s + 1) MAX_SEQNUM), [Broadcast b]).

Definition with_hello_seq (s : RouteState) (n : Z) : RouteState :=
  mkState (myAD s) (myHID s) (dual_router s) (dual_router_AD s) (num_neighbors s) (lsa_seq s) n
    (hello_lsa_ratio s) (calc_dijstra_ticks s) (ADrouteTable s) (neighborTable s) (networkTable s).

Definition timeout_handler (s : RouteState) : res (RouteState * list output) :=
  if decide (hello_seq s < hello_lsa_ratio s) then
    out ← sendHello s; Ok (with_hello_seq s (hello_seq s + 1), out)
  else if decide (hello_seq s = hello_lsa_ratio s) then
    so ← sendLSA s; Ok (with_hello_seq so.1 0, so.2)
  else Ok (s, []).

(** ** Shortest paths *)

Abbreviation network := (gmap str NodeStateEntry).
Abbreviation net_at := (at_key NodeState_zero).
Abbreviation net_touch := (touch NodeState_zero).
Abbreviation net_update := (update_key NodeState_zero).

Definition set_checked (e : NodeStateEntry) : NodeStateEntry :=
  mkNodeState (ns_dest e) (ns_seq e) (ns_num_neighbors e) (ns_neighbor_list e) true (ns_cost e) (ns_prevNode e).
Definition set_cost (c : Z) (e : NodeStateEntry) : NodeStateEntry :=
  mkNodeState (ns_dest e) (ns_seq e) (ns_num_neighbors e) (ns_neighbor_list e) (ns_checked e) c (ns_prevNode e).
Definition set_path (c : Z) (prev : str) (e : NodeStateEntry) : NodeStateEntry :=
  mkNodeState (ns_dest e) (ns_seq e) (ns_num_neighbors e) (ns_neighbor_list e) (ns_checked e) c prev.
Definition unvisited (e : NodeStateEntry) : NodeStateEntry :=
  mkNodeState (ns_dest e) (ns_seq e) (ns_num_neighbors e) (ns_neighbor_list e) false MAX_COST (ns_prevNode e).

(** The entries the first loop erases. *)
Definition abnormal (e : NodeStateEntry) : Prop := ns_num_neighbors e = 0 ∨ ns_dest e = [].
#[global] Instance abnormal_dec e : Decision (abnormal e).
Proof. unfold abnormal. apply _. Defined.

(** The unchecked node with the smallest cost, the first one in key order; an
    empty name if no cost is below [MAX_COST]. *)
Definition select (table m : network) : str * Z * network :=
  foldl (λ acc e,
    let '(selectedAD, minCost, m) := acc in
    let tmpAD := ns_dest e.2 in
    let m := net_touch tmpAD m in
    if decide (ns_cost (net_at tmpAD m) < minCost) then (tmpAD, ns_cost (net_at tmpAD m), m)
    else (selectedAD, minCost, m)) ([], MAX_COST, m) (entries table).

(** One neighbour of the selected node. *)
Definition relax_neighbor (selectedAD : str) (m : network) (tempAD : str) : network :=
  let m := net_touch tempAD m in
  if ns_checked (net_at tempAD m) then m
  else if decide (ns_cost (net_at selectedAD m) + 1 < ns_cost (net_at tempAD m))
       then net_update tempAD (set_path (ns_cost (net_at selectedAD m) + 1) selectedAD) m
       else m.

Definition visit (selectedAD : str) (m : network) : network :=
  let m := net_update selectedAD set_checked m in
  foldl (relax_neighbor selectedAD) m (ns_neighbor_list (net_at selectedAD m)).

(** The main loop; [false] is the early return. *)
Fixpoint dijkstra (fuel : nat) (table m : network) : res (network * bool) :=
  if decide (table = ∅) then Ok (m, true)
  else match fuel with
       | O => Ub OutOfFuel
       | S fuel =>
           let '(selectedAD, _, m) := select table m in
           if decide (selectedAD = []) then Ok (m, false)
           else dijkstra fuel (delete selectedAD table) (visit selectedAD m)
       end.

(** The neighbour a path starts with: back along the path, at most
    [MAX_HOP_COUNT] steps. *)
Fixpoint walk_back (hops : nat) (me tempAD2 : str) (m : network) : network * option str :=
  let m := net_touch tempAD2 m in
  match hops with
  | O => (m, None)
  | S hops =>
      if decide (ns_prevNode (net_at tempAD2 m) = me) then (m, Some tempAD2)
      else walk_back hops me (ns_prevNode (net_at tempAD2 m)) m
  end.

(** The tables while the next hops are set up. *)
Record hop_state := mkHop {
  hp_net : network; hp_nbrs : gmap str NeighborEntry; hp_routes : gmap str RouteEntry }.

Definition set_next_hop (me : str) (h : hop_state) (k : str) : hop_state :=
  let tempAD1 := ns_dest (net_at k (hp_net h)) in
  if decide (me = tempAD1) then h
  else
    let '(m, first) := walk_back MAX_HOP_COUNT me tempAD1 (hp_net h) in
    match first with
    | None => mkHop m (hp_nbrs h) (hp_routes h)
    | Some tempAD2 =>
        let nbrs := touch Neighbor_zero tempAD2 (hp_nbrs h) in
        let n := at_key Neighbor_zero tempAD2 nbrs in
        mkHop m nbrs (update_key RouteEntry_zero tempAD1
          (λ r, mkRouteEntry tempAD1 (nb_HID n) (nb_port n) (re_flags r)) (hp_routes h))
    end.

Definition with_tables (s : RouteState) (routes : gmap str RouteEntry) (nbrs : gmap str NeighborEntry) (m : network)
    : RouteState :=
  mkState (myAD s) (myHID s) (dual_router s) (dual_router_AD s) (num_neighbors s) (lsa_seq s) (hello_seq s)
    (hello_lsa_ratio s) (calc_dijstra_ticks s) routes nbrs m.

(** The network table when the main loop starts. *)
Definition start_network (me : str) (m : network) : network :=
  let m := net_update me (λ e, set_cost 0 (set_checked e)) (unvisited <$> m) in
  foldl (λ m tempAD, net_update tempAD (set_path 1 me) m) m (ns_neighbor_list (net_at me m)).

(** Erasing an element leaves its iterator invalid, and the loop goes on with
    it.  The last loop can add no key but the empty one, which is before the
    keys it has still to visit. *)
Definition calcShortestPath (s : RouteState) : res RouteState :=
  let me := myAD s in
  if decide (Exists (λ e, abnormal e.2) (entries (networkTable s))) then Ub IterInvalid
  else
    let table := delete me (networkTable s) in
    r ← dijkstra (size table) table (start_network me (networkTable s));
    let '(m, finished) := r in
    if (finished : bool) then
      let h := foldl (set_next_hop me) (mkHop m (neighborTable s) ∅) (entries m).*1 in
      Ok (with_tables s (hp_routes h) (hp_nbrs h) (hp_net h))
    else Ok (with_tables s ∅ (neighborTable s) m).

Definition updateClickRoutingTable (s : RouteState) : list output :=
  entries (ADrouteTable s) ≫= (λ e,
    let r := e.2 in
    SetRoute (re_dest r) (re_port r) (re_nextHop r) 65535 ::
    (if decide (dual_router s = 0 ∧ re_dest r = dual_router_AD s)
     then [SetRoute (lit "IP:-") (re_port r) (re_nextHop r) 65535] else [])).

(** ** Incoming messages *)

Section incoming.
(** What a local variable of type [NodeStateEntry] holds before it is set. *)
Variable junk : bool * Z.
(** The routes of the router's HID table. *)
Variable hid_routes : list XIARouteEntry.

Definition new_node_state (dest : str) (seq n : Z) (nbrs : list str) : NodeStateEntry :=
  mkNodeState dest seq n nbrs junk.1 junk.2 [].

Definition processHello (msg : str) (s : RouteState) : RouteState :=
  let '(_, r) := read_field msg [] in
  let '(neighborAD, r) := read_field r [] in
  let '(neighborHID, _) := read_field r [] in
  let '(nbrs, n) :=
    match neighborTable s !! neighborAD with
    | Some _ => (neighborTable s, num_neighbors s)
    | None => (<[neighborAD := mkNeighbor neighborAD neighborHID 1 (interfaceNumber hid_routes neighborHID)]>
                 (neighborTable s), num_neighbors s + 1)
    end in
  let entry := new_node_state (myAD s) (lsa_seq s) n (map (λ e, nb_AD e.2) (entries nbrs)) in
  mkState (myAD s) (myHID s) (dual_router s) (dual_router_AD s) n (lsa_seq s) (hello_seq s) (hello_lsa_ratio s)
    (calc_dijstra_ticks s) (ADrouteTable s) nbrs (<[myAD s := entry]> (networkTable s)).

(** The neighbours of an LSA: the variables keep their values when the text
    ends early. *)
Fixpoint read_neighbors (n : nat) (rest ad hid : str) : list str :=
  match n with
  | O => []
  | S n =>
      let '(ad, rest) := read_field rest ad in
      let '(hid, rest) := read_field rest hid in
      ad :: read_neighbors n rest ad hid
  end.

Definition with_dual_AD (s : RouteState) (a : str) : RouteState :=
  mkState (myAD s) (myHID s) (dual_router s) a (num_neighbors s) (lsa_seq s) (hello_seq s)
    (hello_lsa_ratio s) (calc_dijstra_ticks s) (ADrouteTable s) (neighborTable s) (networkTable s).
Definition with_network (s : RouteState) (m : network) (ticks : Z) : RouteState :=
  mkState (myAD s) (myHID s) (dual_router s) (dual_router_AD s) (num_neighbors s) (lsa_seq s) (hello_seq s)
    (hello_lsa_ratio s) ticks (ADrouteTable s) (neighborTable s) m.

(** An LSA that has been seen: its number is not ahead of the known one, unless
    the numbers have wrapped around. *)
Definition seen (m : network) (destAD : str) (lsaSeq : Z) : Prop :=
  match m !! destAD with
  | Some e => lsaSeq ≤ ns_seq e ∧ ns_seq e - lsaSeq < 10000
  | None => False
  end.
#[global] Instance seen_dec m d n : Decision (seen m d n).
Proof. unfold seen. destruct (m !! d); apply _. Defined.

(** The difference of the numbers is computed as an [int]. *)
Definition gap_overflows (m : network) (destAD : str) (lsaSeq : Z) : Prop :=
  match m !! destAD with
  | Some e => lsaSeq ≤ ns_seq e ∧ 2 ^ 31 ≤ ns_seq e - lsaSeq
  | None => False
  end.
#[global] Instance gap_overflows_dec m d n : Decision (gap_overflows m d n).
Proof. unfold gap_overflows. destruct (m !! d); apply _. Defined.

Definition processLSA (msg : str) (s : RouteState) : res (RouteState * list output) :=
  let '(_, r) := read_field msg [] in
  let '(routerType, r) := read_field r [] in
  let '(destAD, r) := read_field r [] in
  let '(destHID, r) := read_field r [] in
  let '(lsa_seq, r) := read_field r [] in
  let lsaSeq := atoi lsa_seq in
  let '(nums, r) := read_field r [] in
  let numNeighbors := atoi nums in
  let s := if decide (atoi routerType = 1) then with_dual_AD s destAD else s in
  if decide (myAD s = destAD) then Ok (s, [])
  else if decide (gap_overflows (networkTable s) destAD lsaSeq) then Ub SignedOverflow
  else if decide (seen (networkTable s) destAD lsaSeq) then Ok (s, [])
  else
    let entry := new_node_state destAD lsaSeq numNeighbors (read_neighbors (Z.to_nat numNeighbors) r [] []) in
    let s := with_network s (<[destAD := entry]> (networkTable s)) (calc_dijstra_ticks s + 1) in
    so ← (if decide (calc_dijstra_ticks s = CALC_DIJKSTRA_INTERVAL) then
            s ← calcShortestPath s;
            let s := with_network s (networkTable s) 0 in
            Ok (s, updateClickRoutingTable s)
          else Ok (s, []));
    b ← copy1024 msg;
    Ok (so.1, so.2 ++ [Broadcast b]).

Definition processHostRegister (msg : str) : str * list output :=
  let '(_, r) := read_field msg [] in
  let '(hostHID, _) := read_field r [] in
  (hostHID, [SetRoute hostHID (interfaceNumber hid_routes hostHID) hostHID 65535]).

(** The daemon: its routing state and the times of the registered hosts. *)
Record daemon := mkDaemon { d_state : RouteState; timeStamp : gmap str Z; last_purge : Z }.

(** One message, as [main] dispatches it. *)
Definition receive (now : Z) (msg : str) (d : daemon) : res (daemon * list output) :=
  match find_caret msg with
  | None => Ok (d, [])
  | Some (msg_type, _) =>
      let type := atoi msg_type in
      if decide (type = 0) then Ok (mkDaemon (processHello msg (d_state d)) (timeStamp d) (last_purge d), [])
      else if decide (type = 1) then
        so ← processLSA msg (d_state d); Ok (mkDaemon so.1 (timeStamp d) (last_purge d), so.2)
      else if decide (type = 2) then
        let '(hostHID, out) := processHostRegister msg in
        Ok (mkDaemon (d_state d) (<[hostHID := now]> (timeStamp d)) (last_purge d), out)
      else Ok (d, [])
  end.

(** The purge at the end of a round: an expired host is erased and the loop goes
    on with its iterator. *)
Definition purge (now : Z) (d : daemon) : res (daemon * list output) :=
  if decide (10 ≤ now - last_purge d) then
    if decide (Exists (λ e, EXPIRE_TIME ≤ now - e.2) (entries (timeStamp d))) then Ub IterInvalid
    else Ok (mkDaemon (d_state d) (timeStamp d) now, [])
  else Ok (d, []).
End incoming.
