(* ===== verification/XRoutedPath.v ===== *)
(** * XRoutedPath: the daemon computes shortest paths

    On a network table that is closed under neighbours the main loop of
    [calcShortestPath] leaves with every node its distance from this router and
    the node before it on a shortest path; the route of a node leads to the
    first neighbour on such a path. *)

From Stdlib Require Import ZArith Lia Ascii String.
From stdpp Require Import base gmap sets list strings sorting relations.
From S2P Require Import Prelude Text StdMap XRouted.

Local Open Scope Z_scope.

(** ** The graph of a network table *)

Definition edge (m : network) (u v : str) : Prop := ∃ e, m !! u = Some e ∧ v ∈ ns_neighbor_list e.

(** The distance of a node: the length of a shortest path. *)
Definition distance (m : network) (me : str) (n : nat) (v : str) : Prop :=
  nsteps (edge m) n me v ∧ ∀ j, nsteps (edge m) j me v → (n ≤ j)%nat.

(** A network table whose entries name themselves and know their neighbours. *)
Record network_ok (me : str) (m : network) : Prop := {
  no_dest k e : m !! k = Some e → ns_dest e = k;
  no_name : m !! [] = None;
  no_num k e : m !! k = Some e → ns_num_neighbors e ≠ 0;
  no_closed k e w : m !! k = Some e → w ∈ ns_neighbor_list e → is_Some (m !! w);
  no_me : is_Some (m !! me);
  no_self : ¬ edge m me me;
  no_size : Z.of_nat (size m) < MAX_COST }.

(** The parts of a table the computation leaves alone. *)
Record same_nodes (m m' : network) : Prop := {
  sn_dom : dom m' = dom m;
  sn_dest k : ns_dest (net_at k m') = ns_dest (net_at k m);
  sn_list k : ns_neighbor_list (net_at k m') = ns_neighbor_list (net_at k m);
  sn_num k : ns_num_neighbors (net_at k m') = ns_num_neighbors (net_at k m) }.

Lemma same_nodes_refl m : same_nodes m m.
Proof. by split. Qed.

Lemma same_nodes_trans m1 m2 m3 : same_nodes m1 m2 → same_nodes m2 m3 → same_nodes m1 m3.
Proof. intros [H1 H2 H3 H4] [H5 H6 H7 H8]. split; intros; congruence. Qed.

(** The updates of the computation change the cost, the mark and the previous
    node of one entry. *)
Lemma same_nodes_update m k f : is_Some (m !! k) →
  (∀ e, ns_dest (f e) = ns_dest e ∧ ns_neighbor_list (f e) = ns_neighbor_list e ∧
    ns_num_neighbors (f e) = ns_num_neighbors e) → same_nodes m (net_update k f m).
Proof.
  intros Hk Hf. split; [by apply dom_update|..]; intros j; destruct (decide (j = k)) as [->|Hne];
    rewrite ?at_update, ?at_update_ne by done; try done; by apply Hf.
Qed.

Lemma same_nodes_in m m' k : same_nodes m m' → is_Some (m !! k) → is_Some (m' !! k).
Proof. intros Hs. rewrite <-!elem_of_dom, (sn_dom _ _ Hs). done. Qed.

Lemma net_at_Some (m : network) k e : m !! k = Some e → net_at k m = e.
Proof. intros Hk. unfold at_key. by rewrite Hk. Qed.

Lemma edge_list m u v : is_Some (m !! u) → edge m u v ↔ v ∈ ns_neighbor_list (net_at u m).
Proof.
  intros [e He]. rewrite (net_at_Some _ _ _ He). split; [intros (e' & He' & Hv); by simplify_eq|by exists e].
Qed.

(** ** Relaxing the neighbours of a node *)

Lemma relax_spec sel m w : is_Some (m !! w) → ns_checked (net_at sel m) = true →
  let m' := relax_neighbor sel m w in
  same_nodes m m' ∧ (∀ k, ns_checked (net_at k m') = ns_checked (net_at k m)) ∧
  ∀ k, (ns_cost (net_at k m'), ns_prevNode (net_at k m')) =
    if decide (k = w ∧ ns_checked (net_at w m) = false ∧ ns_cost (net_at sel m) + 1 < ns_cost (net_at w m))
    then (ns_cost (net_at sel m) + 1, sel) else (ns_cost (net_at k m), ns_prevNode (net_at k m)).
Proof.
  intros Hw Hsel. unfold relax_neighbor. rewrite touch_present by done.
  destruct (ns_checked (net_at w m)) eqn:Hc; cbv zeta.
  { split; [apply same_nodes_refl|]. split; [done|]. intros k. by rewrite decide_False by naive_solver. }
  case_decide as Hlt.
  2:{ split; [apply same_nodes_refl|]. split; [done|]. intros k. by rewrite decide_False by naive_solver. }
  split; [by apply same_nodes_update|]. split; intros k; destruct (decide (k = w)) as [->|Hne];
    rewrite ?at_update, ?at_update_ne by done; try done.
  - by rewrite decide_True by done.
  - by rewrite decide_False by naive_solver.
Qed.

Lemma relax_all sel l : ∀ m, Forall (λ w, is_Some (m !! w)) l → ns_checked (net_at sel m) = true →
  let m' := foldl (relax_neighbor sel) m l in
  same_nodes m m' ∧ (∀ k, ns_checked (net_at k m') = ns_checked (net_at k m)) ∧
  ∀ k, (ns_cost (net_at k m'), ns_prevNode (net_at k m')) =
    if decide (k ∈ l ∧ ns_checked (net_at k m) = false ∧ ns_cost (net_at sel m) + 1 < ns_cost (net_at k m))
    then (ns_cost (net_at sel m) + 1, sel) else (ns_cost (net_at k m), ns_prevNode (net_at k m)).
Proof.
  induction l as [|w l IH]; intros m Hl Hsel.
  { split; [apply same_nodes_refl|]. split; [done|]. intros k. rewrite decide_False by set_solver. done. }
  apply Forall_cons in Hl as [Hw Hl]. destruct (relax_spec sel m w Hw Hsel) as (Hs & Hc & Hcost).
  cbn [foldl]. set (m1 := relax_neighbor sel m w) in *.
  destruct (IH m1) as (Hs' & Hc' & Hcost').
  { eapply Forall_impl; [done|]. intros k. by apply same_nodes_in. }
  { by rewrite Hc. }
  cbv zeta. set (m2 := foldl (relax_neighbor sel) m1 l) in *. split; [by eapply same_nodes_trans|].
  split; [intros k; by rewrite Hc', Hc|]. intros k. rewrite Hcost', Hc.
  assert (ns_cost (net_at sel m1) = ns_cost (net_at sel m)) as Hsc.
  { pose proof (Hcost sel) as H. rewrite decide_False in H by (intros (-> & ? & _); congruence). congruence. }
  rewrite Hsc. pose proof (Hcost k) as Hk. destruct (decide (k = w)) as [->|Hne].
  - destruct (decide (ns_checked (net_at w m) = false ∧ ns_cost (net_at sel m) + 1 < ns_cost (net_at w m))) as [[Hu Hlt]|Hno].
    + rewrite decide_True in Hk by done. injection Hk as Hk1 Hk2. rewrite Hk1, Hk2.
      rewrite (decide_False (P := w ∈ l ∧ _ ∧ _)) by lia. by rewrite decide_True by set_solver.
    + rewrite decide_False in Hk by naive_solver. injection Hk as Hk1 Hk2. rewrite Hk1, Hk2.
      rewrite !decide_False by naive_solver. done.
  - rewrite decide_False in Hk by naive_solver. injection Hk as Hk1 Hk2. rewrite Hk1, Hk2.
    destruct (decide (k ∈ l ∧ _)) as [(H1 & H2)|H1]; [rewrite decide_True|rewrite decide_False]; try done.
    + split; [by right|done].
    + intros (H2 & H3). apply H1. split; [|done]. by apply elem_of_cons in H2 as [?|?].
Qed.

(** ** The node with the smallest cost *)

Lemma select_fold (m : network) (l : list (str * NodeStateEntry)) :
  Forall (λ e, ns_dest e.2 = e.1 ∧ is_Some (m !! e.1)) l → ∀ s0 c0,
  ∃ sel c, foldl (λ acc e,
    let '(selectedAD, minCost, m) := acc in
    let tmpAD := ns_dest e.2 in
    let m := net_touch tmpAD m in
    if decide (ns_cost (net_at tmpAD m) < minCost) then (tmpAD, ns_cost (net_at tmpAD m), m)
    else (selectedAD, minCost, m)) (s0, c0, m) l = (sel, c, m) ∧
  c ≤ c0 ∧ (∀ k, k ∈ l.*1 → c ≤ ns_cost (net_at k m)) ∧
  (sel = s0 ∧ c = c0 ∨ sel ∈ l.*1 ∧ c = ns_cost (net_at sel m) ∧ c < c0).
Proof.
  induction 1 as [|[k e] l [Hd Hk] Hl IH]; intros s0 c0; [exists s0, c0; split_and!; [done|lia|set_solver|by left]|].
  cbn [foldl fst snd] in *. rewrite Hd, touch_present by done. case_decide as Hlt.
  - destruct (IH k (ns_cost (net_at k m))) as (sel & c & -> & Hle & Hmin & Hor). exists sel, c. split; [done|].
    split; [lia|]. split; [intros k' [->|Hk']%elem_of_cons; [done|by apply Hmin]|]. right.
    destruct Hor as [[-> ->]|(H1 & H2 & H3)]; [split; [left|done]|split; [by right|split; [done|lia]]].
  - destruct (IH s0 c0) as (sel & c & -> & Hle & Hmin & Hor). exists sel, c. split; [done|]. split; [done|].
    split; [intros k' [->|Hk']%elem_of_cons; [cbn; lia|by apply Hmin]|].
    destruct Hor as [?|(H1 & H2 & H3)]; [by left|right; split; [by right|done]].
Qed.

(** ** The invariant of the main loop *)

Section loop.
Context (me : str) (m0 : network) (Hok : network_ok me m0).

(** A node of the network that has been taken out of the table. *)
Definition settled (table : network) (k : str) : Prop := is_Some (m0 !! k) ∧ table !! k = None.

Record path_inv (table m : network) : Prop := {
  pi_same : same_nodes m0 m;
  pi_sub k e : table !! k = Some e → m0 !! k = Some e;
  pi_me : table !! me = None;
  pi_checked k : is_Some (m0 !! k) → (ns_checked (net_at k m) = true ↔ table !! k = None);
  pi_zero : ns_cost (net_at me m) = 0;
  pi_pos k : is_Some (m0 !! k) → 0 ≤ ns_cost (net_at k m);
  pi_done k : settled table k → distance m0 me (Z.to_nat (ns_cost (net_at k m))) k;
  pi_small k : settled table k → ns_cost (net_at k m) < Z.of_nat (size m0) - Z.of_nat (size table);
  pi_prev k : is_Some (m0 !! k) → k ≠ me → ns_cost (net_at k m) < MAX_COST →
    settled table (ns_prevNode (net_at k m)) ∧ edge m0 (ns_prevNode (net_at k m)) k ∧
    ns_cost (net_at k m) = ns_cost (net_at (ns_prevNode (net_at k m)) m) + 1;
  pi_edge u v : settled table u → edge m0 u v → ns_cost (net_at v m) ≤ ns_cost (net_at u m) + 1 }.

Lemma edge_in u v : edge m0 u v → is_Some (m0 !! u) ∧ is_Some (m0 !! v).
Proof using Hok. intros (e & He & Hv). split; [by eexists|]. by eapply (no_closed _ _ Hok). Qed.

Lemma path_in n v : nsteps (edge m0) n me v → is_Some (m0 !! v).
Proof using Hok.
  destruct n as [|n]; intros Hn; [inversion Hn; subst; apply Hok|].
  apply nsteps_inv_r in Hn as (u & _ & Hu). apply (edge_in u v Hu).
Qed.

(** A path to a node still in the table leaves the settled nodes somewhere, and
    from there on costs at least the smallest cost in the table. *)
Lemma leave_settled table m c : path_inv table m → (∀ k, is_Some (table !! k) → c ≤ ns_cost (net_at k m)) →
  ∀ n v, nsteps (edge m0) n me v → is_Some (table !! v) → c ≤ Z.of_nat n.
Proof using Hok.
  intros Hi Hmin. induction n as [|n IH]; intros v Hn Hv.
  { inversion Hn; subst. rewrite (pi_me _ _ Hi) in Hv. by destruct Hv. }
  apply nsteps_inv_r in Hn as (u & Hu & Huv). destruct (table !! u) eqn:Htu.
  - specialize (IH u Hu ltac:(by eexists)). lia.
  - assert (settled table u) as Hs by (split; [by apply (path_in n)|done]).
    pose proof (pi_edge _ _ Hi u v Hs Huv). specialize (Hmin v Hv).
    destruct (pi_done _ _ Hi u Hs) as [_ Hd]. specialize (Hd n Hu). lia.
Qed.

(** The node with the smallest cost has its distance. *)
Lemma selected_distance table m sel : path_inv table m → is_Some (table !! sel) → ns_cost (net_at sel m) < MAX_COST →
  (∀ k, is_Some (table !! k) → ns_cost (net_at sel m) ≤ ns_cost (net_at k m)) →
  distance m0 me (Z.to_nat (ns_cost (net_at sel m))) sel ∧
  ns_cost (net_at sel m) < Z.of_nat (size m0) - Z.of_nat (size table) + 1.
Proof using Hok.
  intros Hi [e Hsel] Hlt Hmin. pose proof (pi_sub _ _ Hi _ _ Hsel) as H0.
  assert (sel ≠ me) as Hne by (intros ->; rewrite (pi_me _ _ Hi) in Hsel; done).
  destruct (pi_prev _ _ Hi sel) as (Hp & He & Hc); [by eexists|done|done|].
  destruct (pi_done _ _ Hi _ Hp) as [Hpath _]. pose proof (pi_small _ _ Hi _ Hp) as Hsm.
  pose proof (pi_pos _ _ Hi _ (proj1 Hp)) as Hpos. split; [split|lia].
  - rewrite Hc, Z2Nat.inj_add, Nat.add_comm by lia. by eapply nsteps_r.
  - intros j Hj. pose proof (leave_settled table m _ Hi Hmin j sel Hj ltac:(by eexists)). lia.
Qed.

(** What visiting a node does. *)
Definition improves (m : network) (sel k : str) : Prop :=
  k ∈ ns_neighbor_list (net_at sel m0) ∧ k ≠ sel ∧ ns_checked (net_at k m) = false ∧
  ns_cost (net_at sel m) + 1 < ns_cost (net_at k m).
#[local] Instance improves_dec m sel k : Decision (improves m sel k).
Proof using. unfold improves. apply _. Defined.

Lemma visit_spec table m sel : path_inv table m → is_Some (table !! sel) →
  let m' := visit sel m in
  same_nodes m m' ∧ (∀ k, ns_checked (net_at k m') = if decide (k = sel) then true else ns_checked (net_at k m)) ∧
  ∀ k, (ns_cost (net_at k m'), ns_prevNode (net_at k m')) =
    if decide (improves m sel k) then (ns_cost (net_at sel m) + 1, sel)
    else (ns_cost (net_at k m), ns_prevNode (net_at k m)).
Proof using Hok.
  intros Hi [e Hsel]. pose proof (pi_sub _ _ Hi _ _ Hsel) as H0. unfold visit. cbv zeta.
  assert (is_Some (m !! sel)) as Hm by (apply (same_nodes_in m0); [apply Hi|by eexists]).
  set (m1 := net_update sel set_checked m). assert (same_nodes m m1) as H1 by (by apply same_nodes_update).
  assert (∀ k, ns_checked (net_at k m1) = (if decide (k = sel) then true else ns_checked (net_at k m)) ∧
    ns_cost (net_at k m1) = ns_cost (net_at k m) ∧ ns_prevNode (net_at k m1) = ns_prevNode (net_at k m)) as Hm1.
  { intros k. unfold m1. case_decide; [subst k; by rewrite at_update|by rewrite at_update_ne]. }
  assert (ns_neighbor_list (net_at sel m1) = ns_neighbor_list (net_at sel m0)) as ->
    by (rewrite (sn_list _ _ H1); apply (sn_list _ _ (pi_same _ _ Hi))).
  destruct (relax_all sel (ns_neighbor_list (net_at sel m0)) m1) as (Hs & Hc & Hcost).
  { apply Forall_forall. intros w Hw. apply (same_nodes_in m); [done|]. apply (same_nodes_in m0); [apply Hi|].
    rewrite (net_at_Some _ _ _ H0) in Hw. by eapply (no_closed _ _ Hok). }
  { by rewrite (proj1 (Hm1 sel)), decide_True. }
  split; [by eapply same_nodes_trans|]. split; [intros k; by rewrite Hc, (proj1 (Hm1 k))|].
  intros k. rewrite Hcost. destruct (Hm1 k) as (-> & -> & ->). destruct (Hm1 sel) as (_ & -> & _).
  unfold improves. destruct (decide (k = sel)) as [->|Hne].
  - rewrite !decide_False by naive_solver. done.
  - destruct (decide (k ∈ ns_neighbor_list (net_at sel m0) ∧ k ≠ sel ∧ _ ∧ _)) as [(H2 & _ & H3 & H4)|H2];
      [by rewrite decide_True|rewrite decide_False; [done|]].
    intros (H3 & H4 & H5). by apply H2.
Qed.

Lemma settled_delete table sel k : settled (delete sel table) k ↔ settled table k ∨ is_Some (m0 !! k) ∧ k = sel.
Proof using.
  unfold settled. rewrite lookup_delete_None. destruct (decide (sel = k)) as [->|]; naive_solver.
Qed.

(** A visit in terms of costs: they only fall, and not at settled nodes. *)
Lemma visit_costs table m sel : path_inv table m → is_Some (table !! sel) →
  (∀ k, ns_cost (net_at k (visit sel m)) ≤ ns_cost (net_at k m)) ∧
  (∀ k, settled table k ∨ k = sel → ns_cost (net_at k (visit sel m)) = ns_cost (net_at k m)).
Proof using Hok.
  intros Hi Hsel. destruct (visit_spec table m sel Hi Hsel) as (_ & _ & Hcost). split; intros k.
  - specialize (Hcost k). case_decide as Him; [destruct Him as (_ & _ & _ & Hlt)|]; injection Hcost as -> _; lia.
  - intros Hk. specialize (Hcost k). rewrite decide_False in Hcost; [by injection Hcost|].
    intros (_ & Hne & Hc & _). destruct Hk as [[Hk Ht]|Hk]; [|done]. apply (pi_checked _ _ Hi k Hk) in Ht. congruence.
Qed.

(** An edge from the visited node. *)
Lemma visit_edge table m sel v : path_inv table m → is_Some (table !! sel) →
  distance m0 me (Z.to_nat (ns_cost (net_at sel m))) sel → edge m0 sel v →
  ns_cost (net_at v (visit sel m)) ≤ ns_cost (net_at sel m) + 1.
Proof using Hok.
  intros Hi Hsel [Hpath _] He. destruct (edge_in _ _ He) as [Hs Hv]. pose proof (pi_pos _ _ Hi sel Hs) as Hpos.
  destruct (visit_spec table m sel Hi Hsel) as (_ & _ & Hcost). specialize (Hcost v).
  case_decide as Him; injection Hcost as Hc _; [lia|]. rewrite Hc. destruct (decide (v = sel)) as [->|Hne]; [lia|].
  destruct (ns_checked (net_at v m)) eqn:Hch.
  - assert (settled table v) as Hsv by (split; [done|by apply (pi_checked _ _ Hi v Hv)]).
    destruct (pi_done _ _ Hi v Hsv) as [_ Hmin]. pose proof (pi_pos _ _ Hi v Hv).
    specialize (Hmin _ (nsteps_r _ _ _ _ Hpath He)). lia.
  - apply Z.nlt_ge. intros Hlt. apply Him. split; [|done]. by apply edge_list.
Qed.

Lemma visit_inv table m sel : path_inv table m → is_Some (table !! sel) → ns_cost (net_at sel m) < MAX_COST →
  (∀ k, is_Some (table !! k) → ns_cost (net_at sel m) ≤ ns_cost (net_at k m)) →
  path_inv (delete sel table) (visit sel m).
Proof using Hok.
  intros Hi Hsel Hlt Hmin. destruct (selected_distance table m sel Hi Hsel Hlt Hmin) as [Hdist Hsmall].
  destruct (visit_spec table m sel Hi Hsel) as (Hs & Hc & Hcost).
  destruct (visit_costs table m sel Hi Hsel) as [Hle Hsame].
  assert (is_Some (m0 !! sel)) as H0 by (destruct Hsel as [e He]; eexists; by apply (pi_sub _ _ Hi)).
  pose proof (pi_pos _ _ Hi sel H0) as Hpos.
  assert (Z.of_nat (size (delete sel table)) = Z.of_nat (size table) - 1) as Hsz.
  { pose proof (map_size_delete sel table) as Hd. destruct Hsel as [e He]. rewrite He in Hd. rewrite Hd.
    assert (size table ≠ 0%nat) by (intros Hz; apply map_size_empty_iff in Hz as ->; by rewrite lookup_empty in He). lia. }
  assert (settled table me) as Hme by (split; [apply Hok|apply Hi]).
  split.
  - eapply same_nodes_trans; [apply Hi|done].
  - intros k e [_ Hk]%lookup_delete_Some. by apply Hi.
  - apply lookup_delete_None. right. apply Hi.
  - intros k Hk. rewrite Hc, lookup_delete_None. case_decide; [naive_solver|]. rewrite (pi_checked _ _ Hi k Hk). naive_solver.
  - rewrite Hsame by auto. apply Hi.
  - intros k Hk. specialize (Hcost k). case_decide; injection Hcost as -> _; [lia|by apply Hi].
  - intros k [Hk|[_ ->]]%settled_delete; rewrite Hsame by auto; [by apply Hi|done].
  - intros k [Hk|[_ ->]]%settled_delete; rewrite Hsame, Hsz by auto; [pose proof (pi_small _ _ Hi k Hk)|]; lia.
  - intros k Hk Hne Hkc. pose proof (Hcost k) as Hck. case_decide as Him; injection Hck as Hc1 Hp1; rewrite Hc1, Hp1.
    + rewrite Hsame by auto. split; [rewrite settled_delete; by right|]. split; [|done].
      apply edge_list; [done|]. apply Him.
    + rewrite Hc1 in Hkc. destruct (pi_prev _ _ Hi k Hk Hne Hkc) as (Hp & He & Hpc).
      split; [rewrite settled_delete; by left|]. split; [done|]. by rewrite (Hsame (ns_prevNode (net_at k m))) by auto.
  - intros u v [Hu|[_ ->]]%settled_delete He; [rewrite (Hsame u) by auto|rewrite (Hsame sel) by auto; by apply (visit_edge table)].
    pose proof (pi_edge _ _ Hi u v Hu He). specialize (Hle v). lia.
Qed.

(** ** The start of the loop *)

Lemma set_paths l : ∀ m : network, Forall (λ w, is_Some (m !! w)) l →
  let m' := foldl (λ m tempAD, net_update tempAD (set_path 1 me) m) m l in
  same_nodes m m' ∧ (∀ k, ns_checked (net_at k m') = ns_checked (net_at k m)) ∧
  ∀ k, (ns_cost (net_at k m'), ns_prevNode (net_at k m')) =
    if decide (k ∈ l) then (1, me) else (ns_cost (net_at k m), ns_prevNode (net_at k m)).
Proof using.
  induction l as [|w l IH]; intros m Hl; [split; [apply same_nodes_refl|done]|].
  apply Forall_cons in Hl as [Hw Hl]. cbn [foldl]. set (m1 := net_update w (set_path 1 me) m).
  assert (same_nodes m m1) as H1 by (by apply same_nodes_update).
  assert (∀ k, ns_checked (net_at k m1) = ns_checked (net_at k m) ∧
    (ns_cost (net_at k m1), ns_prevNode (net_at k m1)) =
      if decide (k = w) then (1, me) else (ns_cost (net_at k m), ns_prevNode (net_at k m))) as Hm1.
  { intros k. unfold m1. case_decide; [subst k; by rewrite at_update|by rewrite at_update_ne]. }
  destruct (IH m1) as (Hs & Hc & Hcost).
  { eapply Forall_impl; [done|]. intros k. by apply same_nodes_in. }
  split; [by eapply same_nodes_trans|]. split; [intros k; by rewrite Hc, (proj1 (Hm1 k))|].
  intros k. rewrite Hcost, (proj2 (Hm1 k)). destruct (decide (k ∈ l)); [by rewrite decide_True by (by right)|].
  destruct (decide (k = w)) as [->|]; [by rewrite decide_True by left|].
  rewrite decide_False; [done|]. intros [?|?]%elem_of_cons; done.
Qed.

Lemma at_unvisited k : is_Some (m0 !! k) → net_at k (unvisited <$> m0) = unvisited (net_at k m0).
Proof using. intros [e He]. unfold at_key. by rewrite lookup_fmap, He. Qed.

Lemma same_unvisited : same_nodes m0 (unvisited <$> m0).
Proof using.
  split; [apply dom_fmap_L|..]; intros k; unfold at_key; rewrite lookup_fmap; by destruct (m0 !! k).
Qed.

Lemma start_spec : let m := start_network me m0 in
  same_nodes m0 m ∧ (∀ k, is_Some (m0 !! k) → ns_checked (net_at k m) = bool_decide (k = me)) ∧
  ns_cost (net_at me m) = 0 ∧
  (∀ k, edge m0 me k → ns_cost (net_at k m) = 1 ∧ ns_prevNode (net_at k m) = me) ∧
  (∀ k, is_Some (m0 !! k) → k ≠ me → ¬ edge m0 me k → ns_cost (net_at k m) = MAX_COST).
Proof using Hok.
  pose proof (no_me _ _ Hok) as Hme. unfold start_network. cbv zeta.
  set (m1 := net_update me (λ e, set_cost 0 (set_checked e)) (unvisited <$> m0)).
  assert (same_nodes m0 m1) as H1 by (eapply same_nodes_trans; [apply same_unvisited|apply same_nodes_update; [|done]];
    apply (same_nodes_in m0); [apply same_unvisited|done]).
  assert (∀ k, is_Some (m0 !! k) → ns_checked (net_at k m1) = bool_decide (k = me) ∧
    ns_cost (net_at k m1) = if decide (k = me) then 0 else MAX_COST) as Hm1.
  { intros k Hk. unfold m1. case_decide; [subst k; rewrite at_update; by rewrite bool_decide_true|].
    rewrite at_update_ne, at_unvisited, bool_decide_false by done. done. }
  rewrite (sn_list _ _ H1). destruct (set_paths (ns_neighbor_list (net_at me m0)) m1) as (Hs & Hc & Hcost).
  { apply Forall_forall. intros w Hw. apply (same_nodes_in m0); [done|].
    apply edge_list in Hw; [by apply edge_in in Hw as [_ ?]|done]. }
  split; [by eapply same_nodes_trans|]. split; [intros k Hk; by rewrite Hc, (proj1 (Hm1 k Hk))|].
  split_and!.
  - pose proof (Hcost me) as Hk. rewrite decide_False in Hk by (rewrite <-edge_list by done; apply Hok).
    injection Hk as -> _. rewrite (proj2 (Hm1 me Hme)). by rewrite decide_True.
  - intros k He. pose proof (Hcost k) as Hk. rewrite decide_True in Hk by (by apply edge_list). by injection Hk.
  - intros k Hk Hne He. pose proof (Hcost k) as Hck. rewrite decide_False in Hck by (by rewrite <-edge_list).
    injection Hck as -> _. rewrite (proj2 (Hm1 k Hk)). by rewrite decide_False.
Qed.

Lemma settled_start k : settled (delete me m0) k ↔ k = me.
Proof using Hok.
  rewrite settled_delete. unfold settled. split; [intros [[[e He] Hn]|[_ ?]]; [congruence|done]|].
  intros ->. right. split; [apply Hok|done].
Qed.

Lemma start_inv : path_inv (delete me m0) (start_network me m0).
Proof using Hok.
  destruct start_spec as (Hs & Hc & Hz & He & Hmax). pose proof (no_me _ _ Hok) as Hme.
  assert (∀ k, is_Some (m0 !! k) → k ≠ me → ns_cost (net_at k (start_network me m0)) < MAX_COST → edge m0 me k) as Hfin.
  { intros k Hk Hne Hlt. rewrite edge_list by done. destruct (decide (k ∈ ns_neighbor_list (net_at me m0))) as [|Hn]; [done|].
    rewrite Hmax in Hlt; [lia|done..|]. by rewrite edge_list. }
  split.
  - done.
  - intros k e [_ Hk]%lookup_delete_Some. done.
  - apply lookup_delete_eq.
  - intros k Hk. rewrite (Hc k Hk), lookup_delete_None, bool_decide_eq_true. split; [naive_solver|].
    intros [?|Hn]; [done|]. destruct Hk. congruence.
  - done.
  - intros k Hk. destruct (decide (k = me)) as [->|Hne]; [lia|].
    destruct (decide (ns_cost (net_at k (start_network me m0)) < MAX_COST)) as [Hlt|]; [|unfold MAX_COST in *; lia].
    destruct (He k (Hfin k Hk Hne Hlt)) as [-> _]. lia.
  - intros k ->%settled_start. rewrite Hz. split; [constructor|lia].
  - intros k ->%settled_start. rewrite Hz, map_size_delete. destruct Hme as [e Hm]. rewrite Hm.
    assert (size m0 ≠ 0%nat) by (intros Hz'; apply map_size_empty_iff in Hz'; by rewrite Hz', lookup_empty in Hm). lia.
  - intros k Hk Hne Hlt. pose proof (Hfin k Hk Hne Hlt) as Hek. destruct (He k Hek) as [-> ->].
    rewrite settled_start, Hz. done.
  - intros u v ->%settled_start Huv. destruct (He v Huv) as [-> _]. lia.
Qed.

(** ** Selection *)

Lemma select_spec table m : path_inv table m → ∃ sel c, select table m = (sel, c, m) ∧
  (∀ k, is_Some (table !! k) → c ≤ ns_cost (net_at k m)) ∧
  (sel = [] ∧ c = MAX_COST ∨ sel ≠ [] ∧ is_Some (table !! sel) ∧ c = ns_cost (net_at sel m) ∧ c < MAX_COST).
Proof using Hok.
  intros Hi. destruct (select_fold m (entries table)) with (s0 := []:str) (c0 := MAX_COST)
    as (sel & c & Hrun & _ & Hmin & Hor).
  { apply Forall_forall. intros [k e] Hin%elem_of_entries. cbn. apply (pi_sub _ _ Hi) in Hin.
    split; [by apply (no_dest _ _ Hok)|]. apply (same_nodes_in m0); [apply Hi|by eexists]. }
  exists sel, c. split; [exact Hrun|]. split; [intros k Hk; by apply Hmin, elem_of_keys|].
  destruct Hor as [?|(H1 & H2 & H3)]; [by left|right]. apply elem_of_keys in H1. split_and!; try done.
  intros ->. destruct H1 as [e He%(pi_sub _ _ Hi)]. by rewrite (no_name _ _ Hok) in He.
Qed.

(** ** The loop *)

Lemma dijkstra_inv fuel : ∀ table m, path_inv table m → (size table ≤ fuel)%nat →
  ∃ table' m' b, dijkstra fuel table m = Ok (m', b) ∧ path_inv table' m' ∧
    if (b : bool) then table' = ∅ else table' ≠ ∅ ∧ ∀ k, is_Some (table' !! k) → MAX_COST ≤ ns_cost (net_at k m').
Proof using Hok.
  induction fuel as [|fuel IH]; intros table m Hi Hsz; cbn [dijkstra]; case_decide as He; try (by exists table, m, true).
  { exfalso. apply He, map_size_empty_iff. lia. }
  destruct (select_spec table m Hi) as (sel & c & -> & Hmin & Hor).
  destruct Hor as [[-> ->]|(Hne & Hsel & -> & Hlt)]; [rewrite decide_True by done; by exists table, m, false|].
  rewrite decide_False by done. apply IH; [by apply visit_inv|].
  rewrite map_size_delete. destruct Hsel as [e ->]. lia.
Qed.

(** A node of the network is reached, or has no path. *)
Lemma cost_reached table m k n : path_inv table m → (∀ k, is_Some (table !! k) → MAX_COST ≤ ns_cost (net_at k m)) →
  nsteps (edge m0) n me k → table !! k = None.
Proof using Hok.
  intros Hi Hmax. revert k. induction n as [|n IH]; intros k Hn; [inversion Hn; subst; apply Hi|].
  apply nsteps_inv_r in Hn as (u & Hu & Huv). destruct (table !! k) eqn:Hk; [exfalso|done].
  assert (settled table u) as Hs by (split; [by apply (edge_in u k)|by apply IH]).
  pose proof (pi_edge _ _ Hi u k Hs Huv). pose proof (pi_small _ _ Hi u Hs). pose proof (no_size _ _ Hok).
  specialize (Hmax k ltac:(by eexists)).
  assert (0 < Z.of_nat (size table)); [|lia].
  assert (size table ≠ 0%nat); [|lia]. intros Hz%map_size_empty_iff. by rewrite Hz, lookup_empty in Hk.
Qed.

(** ** Next hops *)

Lemma walk_back_spec m : path_inv ∅ m → (∀ k, is_Some (m0 !! k) → ns_cost (net_at k m) < MAX_COST) →
  ∀ hops v n, is_Some (m0 !! v) → v ≠ me → ns_cost (net_at v m) = Z.of_nat n →
  if decide (n ≤ hops)%nat
  then ∃ u, walk_back hops me v m = (m, Some u) ∧ edge m0 me u ∧ nsteps (edge m0) (n - 1) u v
  else walk_back hops me v m = (m, None).
Proof using Hok.
  intros Hi Hfin. induction hops as [|hops IH]; intros v n Hv Hne Hn;
    destruct (pi_prev _ _ Hi v Hv Hne (Hfin v Hv)) as (Hp & He & Hc);
    pose proof (pi_pos _ _ Hi _ (proj1 Hp)) as Hpos; cbn [walk_back];
    rewrite touch_present by (by apply (same_nodes_in m0); [apply Hi|]).
  { by rewrite decide_False by lia. }
  destruct (decide (ns_prevNode (net_at v m) = me)) as [Hm|Hm].
  - rewrite Hm, (pi_zero _ _ Hi) in Hc. rewrite decide_True by lia. exists v. split; [done|]. rewrite Hm in He.
    split; [done|]. replace (n - 1)%nat with 0%nat by lia. constructor.
  - specialize (IH (ns_prevNode (net_at v m)) (n - 1)%nat (proj1 Hp) Hm ltac:(lia)).
    destruct (decide (n - 1 ≤ hops)%nat) as [Hle|Hle].
    + rewrite decide_True by lia. destruct IH as (u & -> & Hu & Hpath). exists u. split; [done|]. split; [done|].
      destruct (pi_prev _ _ Hi _ (proj1 Hp) Hm (Hfin _ (proj1 Hp))) as (Hpp & _ & Hcc).
      pose proof (pi_pos _ _ Hi _ (proj1 Hpp)).
      replace (n - 1)%nat with (S (n - 1 - 1)) by lia. by eapply nsteps_r.
    + by rewrite decide_False by lia.
Qed.

(** The route a node has to have: by the first neighbour of a shortest path, up
    to [MAX_HOP_COUNT] hops. *)
Definition routed (nbrs : gmap str NeighborEntry) (routes : gmap str RouteEntry) (v : str) (n : nat) : Prop :=
  if decide (v ≠ me ∧ n ≤ MAX_HOP_COUNT)%nat
  then ∃ u nb, edge m0 me u ∧ nsteps (edge m0) (n - 1) u v ∧ nbrs !! u = Some nb ∧
    routes !! v = Some (mkRouteEntry v (nb_HID nb) (nb_port nb) 0)
  else routes !! v = None.

Section next_hops.
Context (m : network) (nbrs : gmap str NeighborEntry) (Hi : path_inv ∅ m).
Context (Hfin : ∀ k, is_Some (m0 !! k) → ns_cost (net_at k m) < MAX_COST).
Context (Hnb : ∀ u, edge m0 me u → is_Some (nbrs !! u)).

Lemma set_next_hop_spec routes k : is_Some (m0 !! k) → routes !! k = None →
  ∃ routes', set_next_hop me (mkHop m nbrs routes) k = mkHop m nbrs routes' ∧
    (∀ j, j ≠ k → routes' !! j = routes !! j) ∧ routed nbrs routes' k (Z.to_nat (ns_cost (net_at k m))).
Proof using Hok Hi Hfin Hnb.
  intros Hk Hnew. assert (ns_dest (net_at k m) = k) as Hd.
  { rewrite (sn_dest _ _ (pi_same _ _ Hi)). destruct Hk as [e He]. rewrite (net_at_Some _ _ _ He). by apply (no_dest _ _ Hok). }
  unfold set_next_hop, routed. cbn [hp_net hp_nbrs hp_routes]. rewrite Hd.
  destruct (decide (me = k)) as [<-|Hne]; [exists routes; by rewrite decide_False by naive_solver|].
  pose proof (pi_pos _ _ Hi k Hk) as Hpos.
  pose proof (walk_back_spec m Hi Hfin MAX_HOP_COUNT k (Z.to_nat (ns_cost (net_at k m))) Hk ltac:(done) ltac:(lia)) as Hw.
  case_decide.
  - destruct Hw as (u & -> & Hu & Hpath). destruct (Hnb u Hu) as [nb Hn]. rewrite touch_present by (by eexists).
    eexists. split; [done|]. split; [intros j Hj; by apply lookup_insert_ne|].
    rewrite decide_True by done. exists u, nb. split_and!; try done. unfold update_key, at_key. rewrite Hn, Hnew, lookup_insert_eq.
    done.
  - rewrite Hw. exists routes. by rewrite decide_False by naive_solver.
Qed.

Lemma next_hops_fold l : ∀ routes, Forall (λ k, is_Some (m0 !! k)) l → NoDup l → (∀ k, k ∈ l → routes !! k = None) →
  ∃ routes', foldl (set_next_hop me) (mkHop m nbrs routes) l = mkHop m nbrs routes' ∧
    (∀ k, k ∉ l → routes' !! k = routes !! k) ∧
    ∀ k, k ∈ l → routed nbrs routes' k (Z.to_nat (ns_cost (net_at k m))).
Proof using Hok Hi Hfin Hnb.
  induction l as [|k l IH]; intros routes Hl Hnd Hnew; [exists routes; split; [done|]; split; [done|]; set_solver|].
  apply Forall_cons in Hl as [Hk Hl]. apply NoDup_cons in Hnd as [Hkl Hnd]. cbn [foldl].
  destruct (set_next_hop_spec routes k Hk) as (r1 & -> & Hother & Hr1); [apply Hnew; by left|].
  destruct (IH r1) as (r2 & Hrun & Hsame & Hr2); [done|done|..].
  { intros j Hj. rewrite Hother by (by intros ->). apply Hnew. by right. }
  exists r2. split; [done|]. split.
  - intros j [Hj1 Hj2]%not_elem_of_cons. by rewrite Hsame, Hother.
  - intros j [->|Hj]%elem_of_cons; [|by apply Hr2]. unfold routed in *. by rewrite (Hsame k Hkl).
Qed.
End next_hops.
End loop.

(** ** The theorems *)

Lemma normal_entries me m : network_ok me m → ¬ Exists (λ e, abnormal e.2) (entries m).
Proof.
  intros Hok ([k e] & Hin & Hab)%Exists_exists. apply elem_of_entries in Hin. destruct Hab as [Hab|Hab]; cbn in Hab.
  - by apply (no_num _ _ Hok k e Hin).
  - rewrite (no_dest _ _ Hok k e Hin) in Hab. subst k. by rewrite (no_name _ _ Hok) in Hin.
Qed.

Lemma distance_unique m me n1 n2 v : distance m me n1 v → distance m me n2 v → n1 = n2.
Proof. intros [H1 H2] [H3 H4]. specialize (H2 _ H3). specialize (H4 _ H1). lia. Qed.

Lemma calcShortestPath_routes s : network_ok (myAD s) (networkTable s) →
  (∀ u, edge (networkTable s) (myAD s) u → is_Some (neighborTable s !! u)) →
  (∀ k, is_Some (networkTable s !! k) → ∃ n, nsteps (edge (networkTable s)) n (myAD s) k) →
  ∃ s', calcShortestPath s = Ok s' ∧ same_nodes (networkTable s) (networkTable s') ∧
    neighborTable s' = neighborTable s ∧ (∀ v, networkTable s !! v = None → ADrouteTable s' !! v = None) ∧
    (∀ v, is_Some (networkTable s !! v) → ∃ n, distance (networkTable s) (myAD s) n v) ∧
    ∀ v n, distance (networkTable s) (myAD s) n v →
      ns_cost (net_at v (networkTable s')) = Z.of_nat n ∧
      routed (myAD s) (networkTable s) (neighborTable s) (ADrouteTable s') v n.
Proof.
  intros Hok Hnb Hreach. set (me := myAD s) in *. set (m0 := networkTable s) in *.
  unfold calcShortestPath. fold me m0. rewrite decide_False by (by apply (normal_entries me)).
  destruct (dijkstra_inv me m0 Hok (size (delete me m0)) _ _ (start_inv me m0 Hok) ltac:(done))
    as (table & m & b & -> & Hi & Hb). cbn [mbind res_bind].
  assert (b = true) as ->.
  { destruct b; [done|]. destruct Hb as [Hne Hmax]. exfalso. apply Hne, map_eq. intros k. rewrite lookup_empty.
    destruct (table !! k) as [e|] eqn:Hk; [|done]. destruct (Hreach k) as [n Hn]; [eexists; by apply (pi_sub _ _ _ _ Hi)|].
    by rewrite (cost_reached me m0 Hok table m k n Hi Hmax Hn) in Hk. }
  subst table. assert (∀ k, is_Some (m0 !! k) → ns_cost (net_at k m) < MAX_COST) as Hfin.
  { intros k Hk. pose proof (pi_small _ _ _ _ Hi k ltac:(by split)). pose proof (no_size _ _ Hok). lia. }
  destruct (next_hops_fold me m0 Hok m (neighborTable s) Hi Hfin Hnb (entries m).*1 ∅) as (routes & -> & Hout & Hr).
  { apply Forall_forall. intros k Hk%elem_of_keys. rewrite <-elem_of_dom, <-(sn_dom _ _ (pi_same _ _ _ _ Hi)). by apply elem_of_dom. }
  { apply entries_NoDup. }
  { intros k _. apply lookup_empty. }
  eexists. split; [done|]. split; [apply Hi|]. split; [done|]. split.
  { intros v Hv. cbn [ADrouteTable with_tables hp_routes]. rewrite Hout; [apply lookup_empty|]. rewrite elem_of_keys.
    rewrite <-elem_of_dom, (sn_dom _ _ (pi_same _ _ _ _ Hi)), elem_of_dom. fold m0 in Hv. rewrite Hv. by intros []. }
  split; [intros v Hv; eexists; apply (pi_done _ _ _ _ Hi v); by split|].
  intros v n Hd. cbn [networkTable ADrouteTable with_tables].
  assert (is_Some (m0 !! v)) as Hv by (eapply (path_in me m0 Hok), Hd).
  pose proof (pi_pos _ _ _ _ Hi v Hv). pose proof (pi_done _ _ _ _ Hi v ltac:(by split)) as Hd'.
  pose proof (distance_unique _ _ _ _ _ Hd Hd') as ->. split; [cbn [hp_net]; lia|]. apply Hr, elem_of_keys.
  by apply (same_nodes_in m0); [apply Hi|].
Qed.

(** C11: the daemon computes shortest paths.  On a network table whose entries
    are complete, and in which every node can be reached, [calcShortestPath]
    succeeds, the cost of every node is its distance, and every node within
    [MAX_HOP_COUNT] hops has a route by the first neighbour of a shortest path,
    with that neighbour's HID and port; nodes further away, and names that are
    not in the table, have none. *)
Theorem shortest_paths s : network_ok (myAD s) (networkTable s) →
  (∀ u, edge (networkTable s) (myAD s) u → is_Some (neighborTable s !! u)) →
  (∀ k, is_Some (networkTable s !! k) → ∃ n, nsteps (edge (networkTable s)) n (myAD s) k) →
  ∃ s', calcShortestPath s = Ok s' ∧ same_nodes (networkTable s) (networkTable s') ∧
    neighborTable s' = neighborTable s ∧ (∀ v, networkTable s !! v = None → ADrouteTable s' !! v = None) ∧
    ∀ v n, distance (networkTable s) (myAD s) n v →
      ns_cost (net_at v (networkTable s')) = Z.of_nat n ∧
      routed (myAD s) (networkTable s) (neighborTable s) (ADrouteTable s') v n.
Proof.
  intros Hok Hnb Hreach. destruct (calcShortestPath_routes s Hok Hnb Hreach) as (s' & ? & ? & ? & ? & _ & ?). by exists s'.
Qed.

(** *** Three routers in a row *)

Definition demo_entry (dest : string) (nbrs : list string) : NodeStateEntry :=
  mkNodeState (lit dest) 7 (Z.of_nat (length nbrs)) (map lit nbrs) false 0 [].
Definition demo_network : network :=
  list_to_map [(lit "AD:a", demo_entry "AD:a" ["AD:b"]); (lit "AD:b", demo_entry "AD:b" ["AD:a"; "AD:c"]);
    (lit "AD:c", demo_entry "AD:c" ["AD:b"])]%string.
Definition demo_router_state : RouteState :=
  mkState (lit "AD:a") (lit "HID:a") 0 (lit "NULL") 1 0 0 3 0 ∅
    {[lit "AD:b" := mkNeighbor (lit "AD:b") (lit "HID:b") 1 2]} demo_network.

Lemma demo_network_ok : network_ok (lit "AD:a") demo_network.
Proof.
  split.
  - apply (bool_decide_unpack (map_Forall (λ k e, ns_dest e = k) demo_network)). by vm_compute.
  - by vm_compute.
  - apply (bool_decide_unpack (map_Forall (λ k e, ns_num_neighbors e ≠ 0) demo_network)). by vm_compute.
  - intros k e w He Hw. apply elem_of_list_to_map_2 in He. cbn in He. rewrite !elem_of_cons in He.
    destruct He as [[= _ ->]|[[= _ ->]|[[= _ ->]|[]%elem_of_nil]]]; cbn in Hw; rewrite !elem_of_cons in Hw;
      destruct_or! Hw; try (by apply elem_of_nil in Hw); subst w; by eexists.
  - by eexists.
  - intros (e & He & Hin). vm_compute in He. injection He as <-. vm_compute in Hin. by apply list_elem_of_singleton in Hin.
  - by vm_compute.
Qed.

Lemma shortest_paths_witness : ∃ s', calcShortestPath demo_router_state = Ok s' ∧
  ns_cost (net_at (lit "AD:c") (networkTable s')) = 2.
Proof.
  assert (∀ u v, edge demo_network u v → nsteps (edge demo_network) 1 u v) as Hone by (intros; by apply nsteps_once).
  assert (edge demo_network (lit "AD:a") (lit "AD:b")) as Hab by (eexists; split; [by vm_compute|by left]).
  assert (edge demo_network (lit "AD:b") (lit "AD:c")) as Hbc by (eexists; split; [by vm_compute|right; by left]).
  destruct (shortest_paths demo_router_state) as (s' & Hrun & _ & _ & _ & Hd).
  - exact demo_network_ok.
  - intros u (e & He & Hin). vm_compute in He. injection He as <-. apply list_elem_of_singleton in Hin. subst u. by eexists.
  - intros k [e He]. apply elem_of_list_to_map_2 in He. cbn in He.
    rewrite !elem_of_cons in He. destruct He as [[= -> _]|[[= -> _]|[[= -> _]|[]%elem_of_nil]]].
    + exists 0%nat. constructor.
    + exists 1%nat. by apply Hone.
    + exists 2%nat. by eapply nsteps_l, Hone.
  - exists s'. split; [exact Hrun|]. apply (Hd (lit "AD:c") 2%nat). split; [by eapply nsteps_l, Hone|].
    intros [|[|j]] Hj; [by inversion Hj| |lia]. apply nsteps_once_inv in Hj as (e & He & Hin).
    vm_compute in He. injection He as <-. by apply list_elem_of_singleton in Hin.
Defined.
