(* ===== verification/XRoutedInv.v ===== *)
(** * XRoutedInv: the invariant of the routing daemon

    In every state the daemon can reach, the number of neighbours it advertises
    is the number of neighbours it has, and what it knows of its own links
    agrees in its tables; reading a table with [operator[]] adds no neighbour. *)

From Stdlib Require Import ZArith Lia Ascii String.
From stdpp Require Import base gmap sets list strings sorting relations.
From S2P Require Import Prelude Text StdMap XRouted XRoutedPath XRoutedFaults.

Local Open Scope Z_scope.

(** ** The invariant *)

(** Entries name themselves, or were inserted by an access; this router's own
    entry lists neighbours; a node whose path starts here is a neighbour. *)
Record net_wf (me : str) (nbrs : gmap str NeighborEntry) (m : network) : Prop := {
  nw_dest k e : m !! k = Some e → ns_dest e = k ∨ ns_dest e = [];
  nw_me e u : m !! me = Some e → u ∈ ns_neighbor_list e → is_Some (nbrs !! u);
  nw_prev k e : m !! k = Some e → ns_prevNode e = me → is_Some (nbrs !! k) }.

Record state_wf (s : RouteState) : Prop := {
  sw_name : myAD s ≠ [];
  sw_num : num_neighbors s = Z.of_nat (size (neighborTable s));
  sw_nb k nb : neighborTable s !! k = Some nb → nb_AD nb = k;
  sw_net : net_wf (myAD s) (neighborTable s) (networkTable s);
  sw_seq : 0 ≤ lsa_seq s < MAX_SEQNUM;
  sw_hello : 0 ≤ hello_seq s ≤ hello_lsa_ratio s }.

Lemma init_wf ad hid dual : ad ≠ [] → state_wf (initRouteState ad hid dual).
Proof. intros Hne. by split; cbn. Qed.

(** ** The shortest-path computation *)

Section preserve.
Context (me : str) (nbrs : gmap str NeighborEntry) (Hme : me ≠ []).

Definition entry_wf (k : str) (e : NodeStateEntry) : Prop :=
  (ns_dest e = k ∨ ns_dest e = []) ∧ (k = me → ∀ u, u ∈ ns_neighbor_list e → is_Some (nbrs !! u)) ∧
  (ns_prevNode e = me → is_Some (nbrs !! k)).

Lemma wf_entry m k e : net_wf me nbrs m → m !! k = Some e → entry_wf k e.
Proof using.
  intros [Hd Hl Hp] He. split; [by apply Hd|]. split; [intros -> u; by apply Hl|by apply Hp].
Qed.

Lemma wf_insert k e m : net_wf me nbrs m → entry_wf k e → net_wf me nbrs (<[k := e]> m).
Proof using.
  intros [Hd Hl Hp] (H1 & H2 & H3). split.
  - intros j e' [[<- <-]|[Hne Hj]]%lookup_insert_Some; [done|by apply Hd].
  - intros e' u [[-> <-]|[Hne Hj]]%lookup_insert_Some; [by apply H2|by apply Hl].
  - intros j e' [[<- <-]|[Hne Hj]]%lookup_insert_Some; [done|by apply Hp].
Qed.

Lemma wf_at k m : net_wf me nbrs m → entry_wf k (net_at k m).
Proof using Hme.
  intros Hm. unfold at_key. destruct (m !! k) as [e|] eqn:He; cbn; [by eapply wf_entry|].
  split; [by right|]. split; [|intros Heq; by destruct Hme]. intros _ u Hu. cbn in Hu. set_solver.
Qed.

Lemma wf_touch k m : net_wf me nbrs m → net_wf me nbrs (net_touch k m).
Proof using Hme. intros Hm. apply wf_insert; [done|by apply wf_at]. Qed.

Lemma wf_update k f m : net_wf me nbrs m →
  (∀ e, ns_dest (f e) = ns_dest e ∧ ns_neighbor_list (f e) = ns_neighbor_list e) →
  (∀ e, ns_prevNode (f e) = me → ns_prevNode e = me ∨ is_Some (nbrs !! k)) → net_wf me nbrs (net_update k f m).
Proof using Hme.
  intros Hm Hf Hp. destruct (wf_at k m Hm) as (H1 & H2 & H3). destruct (Hf (net_at k m)) as [Hf1 Hf2].
  apply wf_insert; [done|]. split; [by rewrite Hf1|]. split; [by rewrite Hf2|]. intros [?|?]%Hp; auto.
Qed.

Lemma wf_relax sel m k : sel ≠ me → net_wf me nbrs m → net_wf me nbrs (relax_neighbor sel m k).
Proof using Hme.
  intros Hs Hm. unfold relax_neighbor. cbv zeta. destruct (ns_checked _); [by apply wf_touch|].
  case_decide; [|by apply wf_touch]. apply wf_update; [by apply wf_touch|done|]. intros e He. by destruct Hs.
Qed.

(** Only keys of the table are selected. *)
Lemma wf_select table m : net_wf me nbrs table → net_wf me nbrs m →
  net_wf me nbrs (select table m).2 ∧
  ((select table m).1.1 = [] ∨ is_Some (table !! (select table m).1.1)).
Proof using Hme.
  intros Ht Hm. unfold select.
  assert (Forall (λ e, table !! e.1 = Some e.2) (entries table)) as Hl.
  { apply Forall_forall. intros [k e] Hin. by apply elem_of_entries in Hin. }
  set (acc := ([], MAX_COST, m)).
  assert (net_wf me nbrs acc.2 ∧ (acc.1.1 = [] ∨ is_Some (table !! acc.1.1))) as Hacc by (split; [done|by left]).
  clearbody acc. revert acc Hacc.
  induction Hl as [|e l He Hl IH]; intros [[sel c] m'] [Hm' Hs]; [done|].
  cbn [foldl fst snd] in *. apply IH. case_decide; (split; cbn; [by apply wf_touch|]); [|done].
  destruct (nw_dest _ _ _ Ht _ _ He) as [Hd|Hd]; rewrite Hd; [right; by eexists|by left].
Qed.

Lemma wf_delete k table : net_wf me nbrs table → net_wf me nbrs (delete k table).
Proof using.
  intros [Hd Hl Hp]. split.
  - intros j e [_ Hj]%lookup_delete_Some. by apply Hd.
  - intros e u [_ Hj]%lookup_delete_Some. by apply Hl.
  - intros j e [_ Hj]%lookup_delete_Some. by apply Hp.
Qed.

Lemma wf_dijkstra fuel : ∀ table m m' b, net_wf me nbrs table → table !! me = None → net_wf me nbrs m →
  dijkstra fuel table m = Ok (m', b) → net_wf me nbrs m'.
Proof using Hme.
  induction fuel as [|fuel IH]; intros table m m' b Ht Hno Hm Hrun; cbn [dijkstra] in Hrun;
    (case_decide; [by injection Hrun as <- _|]); [done|].
  pose proof (wf_select table m Ht Hm) as [Hs Hsel]. destruct (select table m) as [[sel c] m1]. cbn in Hs, Hsel.
  case_decide; [by injection Hrun as <- _|]. destruct Hsel as [?|Hsel]; [done|].
  assert (sel ≠ me) by (intros ->; rewrite Hno in Hsel; by destruct Hsel).
  eapply (IH (delete sel table)); [by apply wf_delete|rewrite lookup_delete_None; by right| |done].
  unfold visit. cbv zeta. apply foldl_keeps; [intros; by apply wf_relax|]. apply wf_update; [done|done|by left].
Qed.

Lemma wf_paths l m : net_wf me nbrs m → Forall (λ u, is_Some (nbrs !! u)) l →
  net_wf me nbrs (foldl (λ m tempAD, net_update tempAD (set_path 1 me) m) m l).
Proof using Hme.
  intros Hm Hl. revert m Hm. induction Hl as [|u l Hu Hl IH]; intros m Hm; [done|]. cbn [foldl]. apply IH.
  apply wf_update; [done|done|by right].
Qed.

Lemma wf_start m : net_wf me nbrs m → net_wf me nbrs (start_network me m).
Proof using Hme.
  intros Hm. unfold start_network. cbv zeta.
  assert (net_wf me nbrs (net_update me (λ e, set_cost 0 (set_checked e)) (unvisited <$> m))) as H1.
  { apply wf_update; [|done|by left]. split; intros *; rewrite lookup_fmap; intros (e' & Hk & ->)%fmap_Some.
    - exact (nw_dest _ _ _ Hm _ _ Hk).
    - exact (nw_me _ _ _ Hm _ _ Hk).
    - exact (nw_prev _ _ _ Hm _ _ Hk). }
  apply wf_paths; [done|]. apply Forall_forall. by apply (wf_at _ _ H1).
Qed.

(** The neighbour a path starts with is in the table of neighbours. *)
Lemma wf_walk hops : ∀ k m, net_wf me nbrs m → net_wf me nbrs (walk_back hops me k m).1 ∧
  ∀ u, (walk_back hops me k m).2 = Some u → is_Some (nbrs !! u).
Proof using Hme.
  induction hops as [|hops IH]; intros k m Hm; cbn; [split; [by apply wf_touch|done]|].
  pose proof (wf_touch k m Hm) as Ht. case_decide as Hp; [|by apply IH]. split; [done|]. cbn. intros u [= <-].
  by apply (wf_at k _ Ht).
Qed.

Definition hops_wf (h : hop_state) : Prop := net_wf me nbrs (hp_net h) ∧ hp_nbrs h = nbrs.

Lemma wf_hop h k : hops_wf h → hops_wf (set_next_hop me h k).
Proof using Hme.
  intros [Hn Hb]. unfold set_next_hop. cbv zeta. case_decide; [done|].
  destruct (wf_walk MAX_HOP_COUNT (ns_dest (net_at k (hp_net h))) _ Hn) as [Hw Hu].
  destruct (walk_back _ _ _ _) as [m [u|]]; [|done]. split; [done|]. cbn. rewrite Hb. by apply touch_present, Hu.
Qed.
End preserve.

(** The computation changes the costs and the routes only. *)
Lemma calcShortestPath_wf s s' : state_wf s → calcShortestPath s = Ok s' →
  state_wf s' ∧ neighborTable s' = neighborTable s.
Proof.
  intros [Hname Hnum Hnb Hnet Hseq Hhello]. unfold calcShortestPath. cbv zeta. case_decide; [done|].
  intros ([m b] & Hrun & Hend)%bind_Ok. revert Hend.
  eapply (wf_dijkstra _ _ Hname) in Hrun; [|by apply wf_delete|apply lookup_delete_eq|by apply wf_start].
  destruct b; intros [= <-]; [|by split].
  destruct (foldl_keeps (hops_wf (myAD s) (neighborTable s)) (set_next_hop (myAD s)) (entries m).*1
    (wf_hop _ _ Hname) (mkHop m (neighborTable s) ∅)) as [Hw Hb]; [done|].
  split; [|done]. split; cbn; rewrite ?Hb; done.
Qed.

(** ** The handlers *)

Section handlers.
Variable junk : bool * Z.
Variable hid_routes : list XIARouteEntry.

(** More neighbours keep the network table well-formed. *)
Lemma net_wf_mono me nbrs nbrs' m : (∀ k, is_Some (nbrs !! k) → is_Some (nbrs' !! k)) →
  net_wf me nbrs m → net_wf me nbrs' m.
Proof using.
  intros Hsub [Hd Hl Hp]. split; [done|intros e u He Hu; by eapply Hsub, Hl|intros k e He Hk; by eapply Hsub, Hp].
Qed.

Lemma nb_names (nbrs : gmap str NeighborEntry) : (∀ k nb, nbrs !! k = Some nb → nb_AD nb = k) →
  map (λ e, nb_AD e.2) (entries nbrs) = (entries nbrs).*1.
Proof using.
  intros Hnb. apply map_ext_in. intros [k nb] Hin%list_elem_of_In%elem_of_entries. by apply Hnb.
Qed.

Lemma processHello_wf msg s : state_wf s → state_wf (processHello junk hid_routes msg s).
Proof using.
  intros [Hname Hnum Hnb Hnet Hseq Hhello]. unfold processHello.
  destruct (read_field msg []) as [_ r]. destruct (read_field r []) as [ad r']. destruct (read_field r' []) as [hid r''].
  set (nb := mkNeighbor ad hid 1 (interfaceNumber hid_routes hid)).
  assert (∃ nbrs n, match neighborTable s !! ad with
    | Some _ => (neighborTable s, num_neighbors s) | None => (<[ad := nb]> (neighborTable s), num_neighbors s + 1) end = (nbrs, n) ∧
    n = Z.of_nat (size nbrs) ∧ (∀ k nb, nbrs !! k = Some nb → nb_AD nb = k) ∧
    (∀ k, is_Some (neighborTable s !! k) → is_Some (nbrs !! k))) as (nbrs & n & -> & H1 & H2 & H3).
  { destruct (neighborTable s !! ad) eqn:Hk; [by eexists _, _|]. eexists _, _. split; [done|].
    split; [rewrite map_size_insert_None by done; lia|].
    split; [intros k nb' [[<- <-]|[_ ?]]%lookup_insert_Some; [done|by apply Hnb]|].
    intros k Hs. destruct (decide (k = ad)) as [->|?]; [rewrite lookup_insert_eq|rewrite lookup_insert_ne by done]; done. }
  split; cbn; try done. apply wf_insert; [by eapply net_wf_mono|]. split; [by left|].
  split; [|cbn; intros Heq; by destruct Hname]. intros _ u. cbn. rewrite nb_names by done. apply elem_of_keys.
Qed.

Lemma processLSA_wf msg s s' out : state_wf s → processLSA junk msg s = Ok (s', out) → state_wf s'.
Proof using.
  intros Hs. unfold processLSA.
  destruct (read_field msg []) as [_ r1]. destruct (read_field r1 []) as [ty r2]. destruct (read_field r2 []) as [ad r3].
  destruct (read_field r3 []) as [hid r4]. destruct (read_field r4 []) as [seq r5].
  destruct (read_field r5 []) as [num r6]. cbv zeta.
  set (s1 := if decide (atoi ty = 1) then with_dual_AD s ad else s).
  assert (state_wf s1) as Hs1 by (unfold s1; destruct Hs; case_decide; by split). clearbody s1. clear Hs.
  destruct (decide (myAD s1 = ad)) as [|Hne]; [by intros [= <- _]|]. case_decide; [done|]. case_decide; [by intros [= <- _]|].
  intros ([s2 o] & Hcalc & (b & _ & [= <- _])%bind_Ok)%bind_Ok. cbn. revert Hcalc.
  set (e := new_node_state _ _ _ _ _).
  assert (state_wf (with_network s1 (<[ad := e]> (networkTable s1)) (calc_dijstra_ticks s1 + 1))) as Hw.
  { destruct Hs1 as [Hname Hnum Hnb Hnet Hseq Hhello]. split; cbn; try done. apply wf_insert; [done|].
    split; [by left|]. split; [intros ->; done|]. intros Heq. by destruct Hname. }
  case_decide; [|by intros [= <- _]]. intros (s3 & Hc & [= <- _])%bind_Ok.
  destruct (calcShortestPath_wf _ _ Hw Hc) as [[] _]. by split.
Qed.

Lemma timeout_handler_wf s s' out : state_wf s → timeout_handler s = Ok (s', out) → state_wf s'.
Proof using.
  intros [Hname Hnum Hnb Hnet Hseq Hhello]. unfold timeout_handler. case_decide.
  - intros (o & _ & [= <- _])%bind_Ok. split; cbn; try done. lia.
  - case_decide; [|by intros [= <- _]]. unfold sendLSA.
    intros (so & (b & _ & [= <-])%bind_Ok & [= <- _])%bind_Ok. split; cbn; try done; [|lia].
    unfold MAX_SEQNUM in *. rewrite Z.rem_mod_nonneg by lia. by apply Z.mod_pos_bound.
Qed.

End handlers.

(** What the daemon does: a message, with what the router's table
    and an unset variable hold then, the timer, or the purge of the hosts. *)
Inductive daemon_step : daemon → daemon → Prop :=
  | step_receive junk hid_routes d now msg d' out : receive junk hid_routes now msg d = Ok (d', out) → daemon_step d d'
  | step_timeout d s' out : timeout_handler (d_state d) = Ok (s', out) →
      daemon_step d (mkDaemon s' (timeStamp d) (last_purge d))
  | step_purge d now d' out : purge now d = Ok (d', out) → daemon_step d d'.

Lemma daemon_step_wf d d' : daemon_step d d' → state_wf (d_state d) → state_wf (d_state d').
Proof.
  intros [junk hid_routes d0 now msg d1 out Hr|d0 s' out Ht|d0 now d1 out Hp] Hs.
  - unfold receive in Hr. destruct (find_caret msg) as [[ty r]|]; [|by injection Hr as <- _]. cbv zeta in Hr.
    case_decide; [injection Hr as <- _; by apply processHello_wf|].
    case_decide; [apply bind_Ok in Hr as ([s o] & Hl & [= <- _]); by eapply processLSA_wf|].
    case_decide; [|by injection Hr as <- _]. destruct (processHostRegister _ msg). by injection Hr as <- _.
  - by eapply timeout_handler_wf.
  - unfold purge in Hp. repeat case_decide; by simplify_eq.
Qed.
(** C31: Whatever messages, timeouts and purges the daemon goes through from its
    start, the number of neighbours it advertises is the number of entries of its
    neighbour table, each under the AD it names; its own entry in the network
    table lists neighbours only; and its sequence number stays in range. *)
Theorem daemon_invariant ad hid dual t0 d : ad ≠ [] →
  rtc daemon_step (mkDaemon (initRouteState ad hid dual) ∅ t0) d →
  state_wf (d_state d).
Proof.
  intros Hne Hrun. apply (rtc_ind_r (R := daemon_step) (λ d, state_wf (d_state d)) (mkDaemon (initRouteState ad hid dual) ∅ t0));
    [by apply init_wf| |done].
  intros d1 d2 _ Hstep. by eapply daemon_step_wf.
Qed.

Lemma daemon_invariant_witness : ∃ d,
  receive (false, 0) [mkXIARoute (lit "HID:b") 2 (lit "HID:b") 0] 5 (lit "0^AD:b^HID:b^")
    (mkDaemon (initRouteState (lit "AD:a") (lit "HID:a") 0) ∅ 0) = Ok (d, []) ∧
  num_neighbors (d_state d) = 1 ∧ num_neighbors (d_state d) = Z.of_nat (size (neighborTable (d_state d))).
Proof.
  eexists. split; [reflexivity|]. split; [reflexivity|].
  apply (sw_num _ (daemon_invariant (lit "AD:a") (lit "HID:a") 0 0 _ ltac:(done)
    (rtc_once _ _ (step_receive (false, 0) [mkXIARoute (lit "HID:b") 2 (lit "HID:b") 0] _ 5 (lit "0^AD:b^HID:b^") _ [] eq_refl)))).
Defined.
