(* ===== verification/XRoutedWire.v ===== *)
(** * XRoutedWire: link-state advertisements between two daemons

    What a router advertises is what another one records: its AD, its sequence
    number and the ADs of its neighbours. *)

From Stdlib Require Import ZArith Lia Ascii String.
From stdpp Require Import base gmap sets list strings sorting relations.
From S2P Require Import Prelude Text StdMap XRouted XRoutedPath XRoutedFaults XRoutedInv.

Local Open Scope Z_scope.

(** ** Fields *)

Lemma find_caret_field f s : CARET ∉ f → find_caret (f ++ CARET :: s) = Some (f, s).
Proof.
  induction f as [|c f IH]; intros Hf; cbn [app find_caret]; [by rewrite decide_True|].
  apply not_elem_of_cons in Hf as [Hc Hf]. rewrite decide_False by done. by rewrite IH.
Qed.

Lemma read_field_cons f l s old : CARET ∉ f → read_field (fields (f :: l) ++ s) old = (f, fields l ++ s).
Proof.
  intros Hf. unfold read_field, fields. rewrite bind_cons, <-!app_assoc. cbn [app]. by rewrite find_caret_field.
Qed.

Lemma fields_app l1 l2 : fields (l1 ++ l2) = fields l1 ++ fields l2.
Proof. unfold fields. by rewrite bind_app. Qed.

Lemma fields_length l : (length l ≤ length (fields l))%nat.
Proof.
  induction l as [|f l IH]; [done|]. unfold fields in *. rewrite bind_cons, !length_app. cbn [length]. lia.
Qed.

Lemma print_d_no_caret n : 0 ≤ n → CARET ∉ print_d n.
Proof.
  intros Hn Hin. pose proof (print_d_plain n Hn) as Hp. rewrite Forall_forall in Hp. specialize (Hp _ Hin).
  by vm_compute in Hp; destruct Hp as [_ []].
Qed.

Lemma atoi_print n : 0 ≤ n < 2 ^ 31 → atoi (print_d n) = n.
Proof. intros Hn. unfold atoi. by rewrite sscanf_d_print. Qed.

(** The neighbours of an advertisement are read back. *)
Lemma read_neighbors_fields (nbs : list NeighborEntry) : Forall (λ nb, CARET ∉ nb_AD nb ∧ CARET ∉ nb_HID nb) nbs → ∀ ad hid,
  read_neighbors (length nbs) (fields (nbs ≫= λ nb, [nb_AD nb; nb_HID nb])) ad hid = map nb_AD nbs.
Proof.
  induction 1 as [|nb nbs [Ha Hh] Hn IH]; intros ad hid; [done|]. rewrite bind_cons. cbn [app length read_neighbors map].
  rewrite <-(app_nil_r (fields _)), read_field_cons by done. rewrite read_field_cons by done.
  rewrite app_nil_r. by rewrite IH.
Qed.

(** ** Advertisements *)

(** A state whose names can be sent. *)
Record sendable (s : RouteState) : Prop := {
  se_wf : state_wf s;
  se_dual : 0 ≤ dual_router s < 2 ^ 31;
  se_AD : CARET ∉ myAD s;
  se_HID : CARET ∉ myHID s;
  se_nb k nb : neighborTable s !! k = Some nb → CARET ∉ nb_AD nb ∧ CARET ∉ nb_HID nb }.

(** What another router records. *)
Definition advertised (junk : bool * Z) (s : RouteState) : NodeStateEntry :=
  new_node_state junk (myAD s) (lsa_seq s) (num_neighbors s) (entries (neighborTable s)).*1.

Definition lsa_fields (s : RouteState) : list str :=
  [lit "1"; print_d (dual_router s); myAD s; myHID s; print_d (lsa_seq s); print_d (num_neighbors s)].

Lemma lsa_text_fields s : lsa_text s =
  fields (lsa_fields s) ++ fields ((entries (neighborTable s)).*2 ≫= λ nb, [nb_AD nb; nb_HID nb]).
Proof. unfold lsa_text. f_equal. f_equal. induction (entries (neighborTable s)) as [|e l IH]; [done|]. cbn. by rewrite IH. Qed.

Lemma advertised_names s : state_wf s → map nb_AD (entries (neighborTable s)).*2 = (entries (neighborTable s)).*1.
Proof.
  intros Hs. rewrite <-(nb_names _ (sw_nb s Hs)). clear. induction (entries (neighborTable s)) as [|e l IH]; cbn; [done|by f_equal].
Qed.

(** The number of neighbours fits into the message. *)
Lemma sent_num s : state_wf s → (length (lsa_text s) < 1024)%nat → 0 ≤ num_neighbors s < 2 ^ 31.
Proof.
  intros Hs Hlen. rewrite (sw_num s Hs), lsa_text_fields, length_app in *.
  pose proof (fields_length ((entries (neighborTable s)).*2 ≫= λ nb, [nb_AD nb; nb_HID nb])) as Hl.
  assert (length (entries (neighborTable s)) ≤ length ((entries (neighborTable s)).*2 ≫= λ nb, [nb_AD nb; nb_HID nb]))%nat as H.
  { clear. induction (entries (neighborTable s)) as [|e l IH]; [done|]. cbn in *. lia. }
  rewrite length_entries in H. lia.
Qed.

(** The fields of an advertisement as another router reads them. *)
Lemma processLSA_text junk s r : sendable s → (length (lsa_text s) < 1024)%nat →
  processLSA junk (lsa_text s) r =
    let r := if decide (dual_router s = 1) then with_dual_AD r (myAD s) else r in
    if decide (myAD r = myAD s) then Ok (r, [])
    else if decide (gap_overflows (networkTable r) (myAD s) (lsa_seq s)) then Ub SignedOverflow
    else if decide (seen (networkTable r) (myAD s) (lsa_seq s)) then Ok (r, [])
    else
      let r := with_network r (<[myAD s := advertised junk s]> (networkTable r)) (calc_dijstra_ticks r + 1) in
      so ← (if decide (calc_dijstra_ticks r = CALC_DIJKSTRA_INTERVAL) then
              r ← calcShortestPath r;
              let r := with_network r (networkTable r) 0 in
              Ok (r, updateClickRoutingTable r)
            else Ok (r, []));
      Ok (so.1, so.2 ++ [Broadcast (lsa_text s)]).
Proof.
  intros [Hwf Hdual Had Hhid Hnb] Hlen. pose proof (sent_num s Hwf Hlen) as Hnum. pose proof (sw_seq s Hwf) as Hseq.
  unfold MAX_SEQNUM in Hseq. unfold processLSA. rewrite lsa_text_fields at 1. unfold lsa_fields.
  rewrite read_field_cons by (by apply (bool_decide_unpack _); vm_compute). do 3 rewrite read_field_cons by (done || apply print_d_no_caret; lia).
  do 2 rewrite read_field_cons by (apply print_d_no_caret; lia). rewrite !atoi_print by lia. change (fields []) with ([] : str). cbn [app].
  cbv zeta. assert (new_node_state junk (myAD s) (lsa_seq s) (num_neighbors s)
    (read_neighbors (Z.to_nat (num_neighbors s)) (fields ((entries (neighborTable s)).*2 ≫= λ nb, [nb_AD nb; nb_HID nb])) [] []) =
    advertised junk s) as ->.
  { unfold advertised. f_equal. rewrite (sw_num s Hwf), Nat2Z.id, <-length_entries, <-(length_fmap snd).
    rewrite read_neighbors_fields; [by apply advertised_names|].
    apply Forall_fmap, Forall_forall. intros [k nb] Hin%elem_of_entries. by eapply Hnb. }
  unfold copy1024. rewrite (decide_True (P := (length (lsa_text s) < 1024)%nat)) by done. done.
Qed.

(** ** What the computation leaves of the entries *)

(** What an entry says of its router. *)
Definition announced (e : NodeStateEntry) : str * Z * Z * list str :=
  (ns_dest e, ns_seq e, ns_num_neighbors e, ns_neighbor_list e).

Definition retains (m m' : network) : Prop :=
  ∀ k e, m !! k = Some e → ∃ e', m' !! k = Some e' ∧ announced e' = announced e.

#[global] Instance retains_refl : Reflexive retains.
Proof. intros m k e He. by exists e. Qed.
#[global] Instance retains_trans : Transitive retains.
Proof.
  intros m1 m2 m3 H1 H2 k e He. destruct (H1 k e He) as (e' & He' & Ha). destruct (H2 k e' He') as (e2 & He2 & Ha2).
  exists e2. split; [done|congruence].
Qed.

Lemma retains_update m k f : (∀ e, announced (f e) = announced e) → retains m (net_update k f m).
Proof.
  intros Hf j e He. unfold update_key. destruct (decide (j = k)) as [->|Hne].
  - exists (f e). by rewrite lookup_insert_eq, (net_at_Some _ _ _ He).
  - exists e. by rewrite lookup_insert_ne.
Qed.
Lemma retains_touch m k : retains m (net_touch k m).
Proof. by apply (retains_update m k id). Qed.

Lemma retains_foldl {A} (f : network → A → network) l m : (∀ m a, retains m (f m a)) → retains m (foldl f m l).
Proof. intros Hf. revert m. induction l as [|a l IH]; intros m; [done|]. cbn [foldl]. etransitivity; [apply Hf|apply IH]. Qed.

Lemma retains_select table m : retains m (select table m).2.
Proof.
  unfold select. generalize (@nil ascii), MAX_COST. revert m. induction (entries table) as [|e l IH]; intros m sel c; [done|].
  cbn [foldl]. case_decide; (etransitivity; [apply retains_touch|apply IH]).
Qed.

Lemma retains_visit sel m : retains m (visit sel m).
Proof.
  unfold visit. etransitivity; [by apply (retains_update m sel set_checked)|]. apply retains_foldl. clear m. intros m a.
  unfold relax_neighbor. case_match; [apply retains_touch|]. case_decide; [|apply retains_touch].
  etransitivity; [apply retains_touch|by apply retains_update].
Qed.

Lemma retains_dijkstra fuel : ∀ table m m' b, dijkstra fuel table m = Ok (m', b) → retains m m'.
Proof.
  induction fuel as [|fuel IH]; intros table m m' b H; cbn [dijkstra] in H; (case_decide; [by injection H as <- _|]); [done|].
  pose proof (retains_select table m) as Hs. destruct (select table m) as [[sel c] m1]. cbn [snd] in Hs.
  case_decide; [by injection H as <- _|]. etransitivity; [exact Hs|]. etransitivity; [apply (retains_visit sel)|by eapply IH].
Qed.

Lemma retains_walk hops me : ∀ k m, retains m (walk_back hops me k m).1.
Proof.
  induction hops as [|hops IH]; intros k m; cbn [walk_back]; [apply retains_touch|]. case_decide; [apply retains_touch|].
  etransitivity; [apply retains_touch|apply IH].
Qed.

Lemma retains_hops me l : ∀ h, retains (hp_net h) (hp_net (foldl (set_next_hop me) h l)).
Proof.
  induction l as [|k l IH]; intros h; [done|]. cbn [foldl]. etransitivity; [|apply IH]. unfold set_next_hop. cbv zeta. case_decide; [done|].
  pose proof (retains_walk MAX_HOP_COUNT me (ns_dest (net_at k (hp_net h))) (hp_net h)) as Hw.
  by destruct (walk_back _ _ _ _) as [m [u|]].
Qed.

Lemma retains_start me m : retains m (start_network me m).
Proof.
  unfold start_network. cbv zeta. etransitivity; [|apply retains_foldl; intros; by apply retains_update].
  etransitivity; [|by apply retains_update]. intros k e He. exists (unvisited e). by rewrite lookup_fmap, He.
Qed.

Lemma calc_retains s s' : calcShortestPath s = Ok s' → retains (networkTable s) (networkTable s') ∧ myAD s' = myAD s ∧
  dual_router_AD s' = dual_router_AD s.
Proof.
  unfold calcShortestPath. cbv zeta. case_decide; [done|]. intros ([m b] & Hrun & Hend)%bind_Ok.
  apply retains_dijkstra in Hrun. pose proof (retains_start (myAD s) (networkTable s)) as Hst.
  destruct b; injection Hend as <-; (split; [|done]); cbn [with_tables networkTable].
  - etransitivity; [exact Hst|]. etransitivity; [exact Hrun|]. apply (retains_hops (myAD s) _ (mkHop m _ _)).
  - by etransitivity.
Qed.

(** ** The flood of an advertisement *)

(** The state of a router that has recorded the advertisement of [s]. *)
Definition recorded (junk : bool * Z) (s r : RouteState) : RouteState :=
  let r := if decide (dual_router s = 1) then with_dual_AD r (myAD s) else r in
  with_network r (<[myAD s := advertised junk s]> (networkTable r)) (calc_dijstra_ticks r + 1).

Lemma recorded_fields junk s r : myAD (recorded junk s r) = myAD r ∧
  networkTable (recorded junk s r) = <[myAD s := advertised junk s]> (networkTable r) ∧
  calc_dijstra_ticks (recorded junk s r) = calc_dijstra_ticks r + 1 ∧
  (dual_router s = 1 → dual_router_AD (recorded junk s r) = myAD s).
Proof. unfold recorded. by case_decide. Qed.

(** The message of a state that is recorded already is ignored. *)
Lemma lsa_ignored junk s r e : sendable s → (length (lsa_text s) < 1024)%nat → myAD r ≠ myAD s →
  networkTable r !! myAD s = Some e → ns_seq e = lsa_seq s → (dual_router s = 1 → dual_router_AD r = myAD s) →
  processLSA junk (lsa_text s) r = Ok (r, []).
Proof.
  intros Hs Hlen Hne He Hseq Hdual. rewrite processLSA_text by done. cbv zeta.
  assert ((if decide (dual_router s = 1) then with_dual_AD r (myAD s) else r) = r) as ->.
  { case_decide as Hd; [|done]. unfold with_dual_AD. rewrite <-(Hdual Hd). by destruct r. }
  rewrite decide_False by done. rewrite decide_False by (unfold gap_overflows; rewrite He; lia).
  rewrite decide_True; [done|]. unfold seen. rewrite He. lia.
Qed.

(** C32: a router that gets the advertisement of another one for the first time
    records the sender's AD, its sequence number and exactly its neighbours, and
    passes the message on unchanged; when the same message comes back it changes
    nothing and is not passed on again, so that the flood ends.  Every fourth
    time the router first computes its routes and sends them to Click, and is
    undefined when that computation is; the computation leaves what was recorded
    as it is. *)
Theorem lsa_recorded_once junk s s1 b r : sendable s → sendLSA s = Ok (s1, [Broadcast b]) → myAD r ≠ myAD s →
  (∀ e, networkTable r !! myAD s = Some e → ns_seq e < 2 ^ 31) →
  ¬ seen (networkTable r) (myAD s) (lsa_seq s) →
  processLSA junk b r =
    (if decide (calc_dijstra_ticks r + 1 = CALC_DIJKSTRA_INTERVAL) then
       r' ← calcShortestPath (recorded junk s r);
       let r' := with_network r' (networkTable r') 0 in Ok (r', updateClickRoutingTable r' ++ [Broadcast b])
     else Ok (recorded junk s r, [Broadcast b])) ∧
  ∀ r' out, processLSA junk b r = Ok (r', out) →
    (∃ e, networkTable r' !! myAD s = Some e ∧ announced e = announced (advertised junk s)) ∧
    (∀ u, edge (networkTable r') (myAD s) u ↔ is_Some (neighborTable s !! u)) ∧
    processLSA junk b r' = Ok (r', []).
Proof.
  intros Hs Hsend Hne Hint Hnew. unfold sendLSA in Hsend. apply bind_Ok in Hsend as (b' & Hb & [= _ <-]).
  unfold copy1024 in Hb. case_decide as Hlen; [|done]. injection Hb as <-.
  destruct (recorded_fields junk s r) as (H1 & H2 & H3 & H4).
  assert (processLSA junk (lsa_text s) r =
    (if decide (calc_dijstra_ticks r + 1 = CALC_DIJKSTRA_INTERVAL) then
       r' ← calcShortestPath (recorded junk s r);
       let r' := with_network r' (networkTable r') 0 in Ok (r', updateClickRoutingTable r' ++ [Broadcast (lsa_text s)])
     else Ok (recorded junk s r, [Broadcast (lsa_text s)]))) as Hrun.
  { rewrite processLSA_text by done. unfold recorded in *. cbv zeta in *.
    set (r1 := if decide (dual_router s = 1) then with_dual_AD r (myAD s) else r) in *.
    assert (myAD r1 = myAD r ∧ networkTable r1 = networkTable r) as [H5 H6] by (unfold r1; by case_decide).
    rewrite (decide_False (P := myAD r1 = _)) by congruence. pose proof (sw_seq s (se_wf s Hs)) as Hseq.
    rewrite (decide_False (P := gap_overflows (networkTable r1) _ _)).
    2:{ rewrite H6. unfold gap_overflows. destruct (networkTable r !! myAD s) as [e0|]; [|by intros []]. specialize (Hint e0 eq_refl). lia. }
    rewrite (decide_False (P := seen (networkTable r1) _ _)) by (by rewrite H6). rewrite H3. case_decide; [|done].
    by destruct (calcShortestPath _). }
  split; [exact Hrun|]. intros r' out Hr'.
  assert (retains (networkTable (recorded junk s r)) (networkTable r') ∧ myAD r' = myAD r ∧
    (dual_router s = 1 → dual_router_AD r' = myAD s)) as (Hret & Had & Hdual).
  { rewrite Hrun in Hr'. case_decide; [|injection Hr' as <- _; by rewrite H1]. apply bind_Ok in Hr' as (rc & Hc & Hr').
    injection Hr' as <- _. apply calc_retains in Hc as (Hret & Ha & Hd). cbn [with_network networkTable myAD dual_router_AD].
    split; [done|]. split; [congruence|]. intros Hdr. rewrite Hd. by apply H4. }
  destruct (Hret (myAD s) (advertised junk s)) as (e & He & Hann); [by rewrite H2, lookup_insert_eq|].
  split; [by exists e|]. injection Hann as Hdest Hseq Hnum Hlist. split.
  - intros u. unfold edge. rewrite He. split.
    + intros (e' & [= <-] & Hu). rewrite Hlist in Hu. by apply elem_of_keys.
    + intros Hu. exists e. split; [done|]. rewrite Hlist. by apply elem_of_keys.
  - apply (lsa_ignored junk s r' e); try done. congruence.
Qed.

Definition sender : RouteState :=
  mkState (lit "AD:a") (lit "HID:a") 1 (lit "NULL") 1 7 0 3 0 ∅
    {[lit "AD:b" := mkNeighbor (lit "AD:b") (lit "HID:b") 1 2]} ∅.
Definition receiver : RouteState := initRouteState (lit "AD:c") (lit "HID:c") 0.

Lemma sender_sendable : sendable sender.
Proof.
  assert (∀ k nb, neighborTable sender !! k = Some nb → k = lit "AD:b" ∧ nb = mkNeighbor (lit "AD:b") (lit "HID:b") 1 2) as Hnb.
  { intros k nb Hk. unfold sender, neighborTable in Hk. by apply lookup_singleton_Some in Hk as [<- <-]. }
  split.
  - split; [done|done|by intros k nb [-> ->]%Hnb| |cbn; unfold MAX_SEQNUM; lia|cbn; lia].
    by split.
  - cbn. lia.
  - by (apply (bool_decide_unpack _); vm_compute).
  - by (apply (bool_decide_unpack _); vm_compute).
  - intros k nb [-> ->]%Hnb. split; by (apply (bool_decide_unpack _); vm_compute).
Qed.

Lemma lsa_recorded_once_witness : ∃ r', processLSA (false, 0) (lit "1^1^AD:a^HID:a^7^1^AD:b^HID:b^") receiver =
    Ok (r', [Broadcast (lit "1^1^AD:a^HID:a^7^1^AD:b^HID:b^")]) ∧
  edge (networkTable r') (lit "AD:a") (lit "AD:b") ∧ dual_router_AD r' = lit "AD:a".
Proof.
  destruct (lsa_recorded_once (false, 0) sender (with_lsa_seq sender 8) (lit "1^1^AD:a^HID:a^7^1^AD:b^HID:b^") receiver)
    as (Hrun & Hrec).
  - exact sender_sendable.
  - by vm_compute.
  - done.
  - by intros e He.
  - by intros Hs.
  - rewrite decide_False in Hrun by done. destruct (Hrec _ _ Hrun) as (_ & Hedge & _).
    eexists. split; [exact Hrun|]. split; [apply Hedge; by eexists|]. vm_compute. reflexivity.
Defined.

(** ** The buffer *)

Lemma fields_cons_length f l : length (fields (f :: l)) = (length f + 1 + length (fields l))%nat.
Proof. unfold fields. rewrite bind_cons, !length_app. done. Qed.

Lemma neighbor_fields_length (nbs : list NeighborEntry) a h :
  Forall (λ nb, (a ≤ length (nb_AD nb))%nat ∧ (h ≤ length (nb_HID nb))%nat) nbs →
  ((a + h + 2) * length nbs ≤ length (fields (nbs ≫= λ nb, [nb_AD nb; nb_HID nb])))%nat.
Proof.
  induction 1 as [|nb nbs [Ha Hh] Hn IH]; [cbn; lia|]. rewrite bind_cons, fields_app, length_app.
  rewrite !fields_cons_length. cbn [length]. lia.
Qed.

(** a router with eleven or more neighbours overruns the buffer in which it
    builds its advertisement, when its names have the length of printed XIDs. *)
Theorem lsa_overflow s : (43 ≤ length (myAD s))%nat → (44 ≤ length (myHID s))%nat →
  (∀ k nb, neighborTable s !! k = Some nb → (43 ≤ length (nb_AD nb))%nat ∧ (44 ≤ length (nb_HID nb))%nat) →
  (11 ≤ size (neighborTable s))%nat → sendLSA s = Ub OutOfBounds.
Proof.
  intros Had Hhid Hnb Hsize. unfold sendLSA, copy1024. rewrite decide_False; [done|].
  rewrite lsa_text_fields, length_app. unfold lsa_fields. rewrite !fields_cons_length.
  pose proof (neighbor_fields_length (entries (neighborTable s)).*2 43 44) as Hl. rewrite length_fmap, length_entries in Hl.
  assert (43 + 44 + 2 = 89)%nat as E by lia. rewrite E in Hl.
  assert (89 * 11 ≤ 89 * size (neighborTable s))%nat by lia.
  specialize (Hl ltac:(apply Forall_fmap, Forall_forall; intros [k nb] Hin%elem_of_entries; by eapply Hnb)). lia.
Qed.

Definition crowd (n : nat) : gmap str NeighborEntry :=
  list_to_map (map (λ i, (print_d (Z.of_nat i), mkNeighbor (replicate 43 "a"%char) (replicate 44 "b"%char) 1 0)) (seq 0 n)).
Definition crowded : RouteState :=
  mkState (replicate 43 "c"%char) (replicate 44 "d"%char) 0 (lit "NULL") 11 0 0 3 0 ∅ (crowd 11) ∅.

Lemma lsa_overflow_witness : sendLSA crowded = Ub OutOfBounds.
Proof.
  apply lsa_overflow.
  - vm_compute. lia.
  - vm_compute. lia.
  - intros k nb Hk. cbn [neighborTable crowded] in Hk. unfold crowd in Hk. apply elem_of_list_to_map_2 in Hk.
    apply list_elem_of_In, in_map_iff in Hk as (i & [= <- <-] & _). split; vm_compute; lia.
  - vm_compute. lia.
Defined.
