(* ===== verification/ControlSocket.v ===== *)
(** * ControlSocket: the router's control connection (elements/userlevel/controlsocket.cc)

    The commands of one connection and the round of the select loop that reads
    them.  The router behind the element is a type class: elements are numbers,
    the root element is -1.  There is no proxy. *)

From Stdlib Require Import ZArith Lia Ascii String.
From stdpp Require Import base gmap sets list.
From S2P Require Import Prelude Text ConfParse.

Local Open Scope Z_scope.

(** ** The router *)

Record Handler := mkHandler {
  h_read : bool; h_read_private : bool; h_write : bool; h_write_private : bool }.

Definition read_visible (h : Handler) : bool := h_read h && negb (h_read_private h).
Definition write_visible (h : Handler) : bool := h_write h && negb (h_write_private h).
Definition visible (h : Handler) : bool := read_visible h || write_visible h.

(** What a [ControlSocketErrorHandler] has collected. *)
Record errors := mkErrors { er_messages : list str; er_code : Z; er_nerrors : Z; er_nwarnings : Z }.

Class Router (R : Type) := {
  nelements : R → Z;
  router_find : R → str → option Z;
  router_handler : R → Z → str → option Handler;
  call_read : R → Z → str → str → R * (str * errors);
  call_write : R → Z → str → str → R * (Z * errors) }.

Definition CSERR_OK : Z := 200.
Definition CSERR_OK_HANDLER_WARNING : Z := 220.
Definition CSERR_SYNTAX : Z := 500.
Definition CSERR_UNIMPLEMENTED : Z := 501.
Definition CSERR_NO_SUCH_ELEMENT : Z := 510.
Definition CSERR_NO_SUCH_HANDLER : Z := 511.
Definition CSERR_HANDLER_ERROR : Z := 520.
Definition CSERR_PERMISSION : Z := 530.
Definition CSERR_UNSPECIFIED : Z := 590.
Definition ANY_ERR : Z := -1.

(** ** Strings *)

Definition upper_char (c : ascii) : ascii := if decide (97 ≤ code c ≤ 122) then chr (code c - 32) else c.
Definition upper (s : str) : str := map upper_char s.

(** Three octal digits. *)
Definition print_03o (n : Z) : str := [digit (n / 64); digit (n / 8 mod 8); digit (n mod 8)].

Definition printable_char (c : ascii) : str :=
  if decide (32 ≤ code c < 127) then [c]
  else if decide (code c < 32) then ["^"%char; chr (code c + 64)]
  else chr 92 :: print_03o (code c).
Definition String_printable (s : str) : str := s ≫= printable_char.

(** [IntArg().parse] into an [int]: a number that does not fit is an error. *)
Definition IntArg_int (s : str) : option Z :=
  match IntArg_parse s true with
  | Some (n, v) =>
      let x := IntArg_value (IntArg_span s true 0).2 s in
      let x := if decide (head s = Some "-"%char) then - x else x in
      if decide (n = Z.of_nat (length s) ∧ v = x) then Some v else None
  | None => None
  end.

Definition parse_length (s : str) : option Z :=
  match IntArg_int s with Some v => if decide (0 ≤ v) then Some v else None | None => None end.

Definition CRLF : str := [CR; NL].

(** The words of a line, each with the position where it starts. *)
Fixpoint words_loop (line : str) (pos first : nat) (w : str) : list (nat * str) :=
  match line with
  | [] => if decide (w = []) then [] else [(first, w)]
  | c :: line =>
      if is_space c then (if decide (w = []) then [] else [(first, w)]) ++ words_loop line (S pos) (S pos) []
      else words_loop line (S pos) first (w ++ [c])
  end.
Definition words_of (line : str) : list (nat * str) := words_loop line 0 0 [].

(** The line from the third word to the end of the last one. *)
Definition tail_words (line : str) (words : list (nat * str)) : str :=
  match words !! 2%nat, last words with
  | Some (first, _), Some (start, w) => take (start + length w - first) (drop first line)
  | _, _ => []
  end.

(** ** Connections *)

Record connection := mkConn {
  in_text : str; inpos : nat; out_text : str; outpos : nat; in_closed : bool; out_closed : bool }.

(** [initialize_connection]: the banner is to be sent. *)
Definition new_connection : connection :=
  mkConn [] 0 (lit "Click::ControlSocket/1.3" ++ CRLF) 0 false false.

Definition with_in (c : connection) (t : str) (pos : nat) (closed : bool) : connection :=
  mkConn t pos (out_text c) (outpos c) closed (out_closed c).
Definition with_out (c : connection) (t : str) (pos : nat) (closed : bool) : connection :=
  mkConn (in_text c) (inpos c) t pos (in_closed c) closed.
Definition put (c : connection) (s : str) : connection := with_out c (out_text c ++ s) (outpos c) (out_closed c).

Definition message_line (n : Z) (msg : str) (continuation : bool) : str :=
  print_d n ++ (if continuation then "-"%char else " "%char) :: String_printable msg ++ CRLF.

(** The code is asserted to have three digits. *)
Definition message (c : connection) (n : Z) (msg : str) (continuation : bool) : res connection :=
  if decide (100 ≤ n ≤ 999) then Ok (if out_closed c then c else put c (message_line n msg continuation))
  else Ub AssertFail.

Definition error_message (c : connection) (n : Z) (msg : str) : res (connection * Z) :=
  c ← message c n msg false; Ok (c, ANY_ERR).

Fixpoint put_messages (c : connection) (n : Z) (msgs : list str) : res connection :=
  match msgs with
  | [] => Ok c
  | m :: msgs => c ← message c n m (bool_decide (msgs ≠ [])); put_messages c n msgs
  end.

(** The code of the answer is that of the handler's errors, which a handler can
    set to any number. *)
Definition transfer_messages (c : connection) (default_code : Z) (msg : str) (e : errors) : res connection :=
  let n := if decide (er_code e = CSERR_OK) then default_code else er_code e in
  c ← (if decide (msg = []) then Ok c
       else if decide (er_messages e ≠ []) then message c n (msg ++ lit ":") true else message c n msg false);
  put_messages c n (er_messages e).

(** The text and position are cut when everything is consumed, or too much. *)
Definition contract (t : str) (pos : nat) : str * nat :=
  if decide (pos = length t) then ([], 0%nat)
  else if decide (8192 < pos)%nat then (drop pos t, 0%nat) else (t, pos).

Definition read_insufficient (c : connection) : res (connection * Z) :=
  if in_closed c then error_message c CSERR_SYNTAX (lit "Not enough data") else Ok (c, 1).

(** [len] bytes of the input, or a return code; the sum is an [int]. *)
Definition conn_read (c : connection) (len : Z) : res (str * connection + connection * Z) :=
  if decide (2 ^ 31 ≤ Z.of_nat (inpos c) + len) then Ub SignedOverflow
  else if decide (Z.of_nat (length (in_text c)) < Z.of_nat (inpos c) + len) then x ← read_insufficient c; Ok (inr x)
  else
    let n := Z.to_nat len in
    Ok (inl (take n (drop (inpos c) (in_text c)), with_in c (in_text c) (inpos c + n) (in_closed c))).

(** ** Handlers and commands *)

Definition canonical_handler_name (n : str) : str :=
  match list_find (λ c, c = "."%char) n with
  | Some (dot, _) => if decide (dot = 0%nat ∨ dot = 1%nat ∧ head n = Some "0"%char) then drop (S dot) n else n
  | None => if decide (n = [] ∨ n = ["0"%char]) then [] else n
  end.

Definition quoted (pre name post : str) : str := pre ++ "'"%char :: name ++ "'"%char :: post.

(** A line of the input up to its end, and what follows from there. *)
Fixpoint span_line (s : str) : str * str :=
  match s with
  | [] => ([], [])
  | c :: s' => if decide (c = CR ∨ c = NL) then ([], s) else let '(a, b) := span_line s' in (c :: a, b)
  end.

(** The length of the end of a line. *)
Definition line_end_length (s : str) : nat :=
  match s with
  | [] => 0
  | c :: s => if decide (c = CR ∧ head s = Some NL) then 2 else 1
  end.

Definition drop_trailing_space (s : str) : str := rev (skip_space (rev s)).

(** Where the line that equals [until] begins, and where the next one does. *)
Fixpoint until_loop (fuel : nat) (s : str) (off : nat) (until : str) : option (nat * nat) :=
  match fuel with
  | O => None
  | S fuel =>
      let '(line, rest) := span_line s in
      if decide (rest = []) then None
      else
        let next := (off + length line + line_end_length rest)%nat in
        if decide (drop_trailing_space line = until) then Some (off, next)
        else until_loop fuel (drop (line_end_length rest) rest) next until
  end.

Section commands.
Context {R : Type} {router : Router R}.
Context (_read_only : bool).
(** [llrpc_command]. *)
Context (llrpc_command : connection → R → str → str → connection * R * Z).

(** The end of a command with an error message. *)
Definition refuse (c : connection) (r : R) (n : Z) (msg : str) : res (connection * R * Z) :=
  x ← error_message c n msg; Ok (x.1, r, x.2).

(** The element and the handler a name stands for, or the answer. *)
Definition parse_handler (c : connection) (r : R) (full_name : str) : res (Z * str * Handler + connection) :=
  let canonical_name := canonical_handler_name full_name in
  let no_handler := c ← message c CSERR_NO_SUCH_HANDLER (quoted (lit "No handler named ") full_name []) false; Ok (inr c) in
  found ← (match list_find (λ ch, ch = "."%char) canonical_name with
           | Some (dot, _) =>
               let ename := take dot canonical_name in
               let hname := drop (S dot) canonical_name in
               match router_find r ename with
               | Some e => Ok (inl (e, hname))
               | None =>
                   let num := default 0 (IntArg_int ename) in
                   if decide (0 < num ≤ nelements r) then Ok (inl (num - 1, hname))
                   else c ← message c CSERR_NO_SUCH_ELEMENT (quoted (lit "No element named ") ename []) false; Ok (inr c)
               end
           | None => Ok (inl (-1, canonical_name))
           end);
  match found with
  | inr c => Ok (inr c)
  | inl (e, hname) =>
      match router_handler r e hname with
      | Some h => if visible h then Ok (inl (e, hname, h)) else no_handler
      | None => no_handler
      end
  end.

Definition read_command (c : connection) (r : R) (name param : str) : res (connection * R * Z) :=
  found ← parse_handler c r name;
  match found with
  | inr c => Ok (c, r, ANY_ERR)
  | inl (e, hname, h) =>
      if negb (read_visible h) then refuse c r CSERR_PERMISSION (quoted (lit "Handler ") name (lit " write-only"))
      else
        let '(r, (data, errh)) := call_read r e hname param in
        if decide (0 < er_nerrors errh) then
          c ← transfer_messages c CSERR_UNSPECIFIED (quoted (lit "Read handler ") name (lit " error")) errh;
          Ok (c, r, ANY_ERR)
        else
          c ← message c CSERR_OK (quoted (lit "Read handler ") name (lit " OK")) false;
          Ok (put c (lit "DATA " ++ print_d (Z.of_nat (length data)) ++ CRLF ++ data), r, 0)
  end.

Definition write_code (result : Z) (errh : errors) : Z :=
  if decide (er_code errh = CSERR_OK) then
    if decide (0 < er_nerrors errh ∨ result < 0) then CSERR_HANDLER_ERROR
    else if decide (0 < er_nwarnings errh) then CSERR_OK_HANDLER_WARNING else CSERR_OK
  else er_code errh.

Definition write_msg (n : Z) (name : str) : str :=
  if decide (n = CSERR_OK) then quoted (lit "Write handler ") name (lit " OK")
  else if decide (n = CSERR_OK_HANDLER_WARNING) then quoted (lit "Write handler ") name (lit " OK with warnings")
  else if decide (n = CSERR_HANDLER_ERROR) then quoted (lit "Write handler ") name (lit " error") else [].

Definition write_command (c : connection) (r : R) (name data : str) : res (connection * R * Z) :=
  found ← parse_handler c r name;
  match found with
  | inr c => Ok (c, r, ANY_ERR)
  | inl (e, hname, h) =>
      if negb (h_write h) then refuse c r CSERR_PERMISSION (quoted (lit "Handler ") name (lit " read-only"))
      else if _read_only then refuse c r CSERR_PERMISSION (quoted (lit "Permission denied for ") name [])
      else
        let '(r, (result, errh)) := call_write r e hname data in
        let n := write_code result errh in
        c ← transfer_messages c n (write_msg n name) errh;
        Ok (c, r, 0)
  end.

Definition check_command (c : connection) (r : R) (name : str) (write : bool) : res (connection * R * Z) :=
  found ← parse_handler c r name;
  match found with
  | inr c => Ok (c, r, 0)
  | inl (_, _, h) =>
      let ok := visible h && (if write then write_visible h else read_visible h) in
      let what := if write then lit "Write" else lit "Read" in
      if write && _read_only && ok then refuse c r CSERR_PERMISSION (quoted (lit "Permission denied for ") name [])
      else
        c ← (if (ok : bool) then message c CSERR_OK (quoted (what ++ lit " handler ") name (lit " OK")) false
             else if visible h then
               message c CSERR_NO_SUCH_HANDLER
                 (quoted (lit "Handler ") name (if write then lit " not writable" else lit " not readable")) false
             else message c CSERR_NO_SUCH_HANDLER
                    (quoted (lit "No " ++ (if write then lit "write" else lit "read") ++ lit " handler named ") name []) false);
        Ok (c, r, 0)
  end.

Definition help_lines : list str :=
  map lit ["Commands supported:";
    "READ handler [arg...]   call read handler, return DATA";
    "READDATA handler len    call read handler with len data bytes, return DATA";
    "READUNTIL handler term  call read handler, take data until term, return DATA";
    "WRITE handler [arg...]  call write handler";
    "WRITEDATA handler len   call write handler, pass len data bytes";
    "WRITEUNTIL handler term call write handler, take data until term";
    "CHECKREAD handler       check if read handler is valid";
    "CHECKWRITE handler      check if write handler is valid";
    "LLRPC elt#number [len]  call LLRPC, pass len data bytes, return DATA";
    "QUIT                    close connection"]%string.

(** A command that reads or writes a handler. *)
Definition handler_command (reading : bool) (c : connection) (r : R) (name data : str) : res (connection * R * Z) :=
  if reading then read_command c r name data else write_command c r name data.

(** The command's name, meant for the format, is taken for the flag of a
    continued message. *)
Definition data_command (command : str) (words : list str) (c : connection) (r : R) : res (connection * R * Z) :=
  match words with
  | [_; name; len] =>
      match parse_length len with
      | None => c ← message c CSERR_SYNTAX (lit "Syntax error in '%s'") true; Ok (c, r, ANY_ERR)
      | Some datalen =>
          d ← conn_read c datalen;
          match d with
          | inr (c, n) => Ok (c, r, n)
          | inl (data, c) => handler_command (bool_decide (head command = Some "R"%char)) c r name data
          end
      end
  | _ => refuse c r CSERR_SYNTAX (lit "Wrong number of arguments")
  end.

Definition until_command (command until : str) (words : list str) (c : connection) (r : R) : res (connection * R * Z) :=
  match words !! 1%nat with
  | None => refuse c r CSERR_SYNTAX (lit "Wrong number of arguments")
  | Some name =>
      let rest := drop (inpos c) (in_text c) in
      match until_loop (S (length rest)) rest 0 until with
      | None => x ← read_insufficient c; Ok (x.1, r, x.2)
      | Some (linebegin, next) =>
          let data := take linebegin rest in
          let c := with_in c (in_text c) (inpos c + next) (in_closed c) in
          handler_command (bool_decide (head command = Some "R"%char)) c r name data
      end
  end.

(** The branch for LLRPCs. *)
Definition llrpc_branch (words : list str) (c : connection) (r : R) : res (connection * R * Z) :=
  if decide (length words ≠ 2%nat ∧ length words ≠ 3%nat) then
    refuse c r CSERR_SYNTAX (lit "Wrong number of arguments")
  else
    match (match words !! 2%nat with Some len => parse_length len | None => Some 0 end) with
    | None => refuse c r CSERR_SYNTAX (lit "Syntax error in 'llrpc'")
    | Some datalen =>
        d ← conn_read c datalen;
        match d with
        | inr (c, n) => Ok (c, r, n)
        | inl (data, c) => Ok (llrpc_command c r (default [] (words !! 1%nat)) data)
        end
    end.

Definition is_one_of (s : str) (names : list string) : Prop := s ∈ map lit names.
#[global] Instance is_one_of_dec s names : Decision (is_one_of s names).
Proof. unfold is_one_of. apply _. Defined.

Definition parse_command (c : connection) (r : R) (line : str) : res (connection * R * Z) :=
  let ws := words_of line in
  let words := ws.*2 in
  match words with
  | [] => Ok (c, r, 0)
  | word :: args =>
      let command := upper word in
      if decide (is_one_of command ["READ"; "GET"; "WRITE"; "SET"]%string) then
        match args with
        | [] => refuse c r CSERR_SYNTAX (lit "Wrong number of arguments")
        | name :: _ =>
            handler_command (bool_decide (head command = Some "R"%char ∨ head command = Some "G"%char))
              c r name (tail_words line ws)
        end
      else if decide (is_one_of command ["READDATA"; "WRITEDATA"; "SETDATA"]%string) then data_command command words c r
      else if decide (is_one_of command ["READUNTIL"; "WRITEUNTIL"]%string) then
        until_command command (tail_words line ws) words c r
      else if decide (is_one_of command ["CHECKREAD"; "CHECKWRITE"]%string) then
        match args with
        | [name] => check_command c r name (bool_decide (command !! 5%nat = Some "W"%char))
        | _ => refuse c r CSERR_SYNTAX (lit "Wrong number of arguments")
        end
      else if decide (is_one_of command ["LLRPC"]%string) then llrpc_branch words c r
      else if decide (is_one_of command ["CLOSE"; "QUIT"]%string) then
        c ← (if decide (args ≠ []) then message c CSERR_SYNTAX (lit "Bad command syntax") false else Ok c);
        c ← message c CSERR_OK (lit "Goodbye!") false;
        Ok (with_in c [] 0 true, r, 0)
      else if decide (is_one_of command ["HELP"]%string) then
        c ← put_messages c CSERR_OK help_lines; Ok (c, r, 0)
      else refuse c r CSERR_UNIMPLEMENTED (quoted (lit "Command ") command (lit " unimplemented"))
  end.

(** ** A round of the select loop *)

(** What [read] gives: some bytes, nothing for now, or the end. *)
Inductive arrival := Bytes (b : str) | Nothing | Closed.

Definition read_socket (a : arrival) (c : connection) : connection :=
  if in_closed c then c
  else match a with
       | Bytes b => with_in c (in_text c ++ b) (inpos c) false
       | Nothing => c
       | Closed => with_in c (in_text c) (inpos c) true
       end.

(** One command, if there is a complete one. *)
Definition run_command (c : connection) (r : R) : res (connection * R) :=
  if decide (in_text c = []) then Ok (c, r)
  else
    let '(line, rest) := span_line (drop (inpos c) (in_text c)) in
    if decide (rest ≠ [] ∨ in_closed c = true) then
      let stop := (inpos c + length line + line_end_length rest)%nat in
      let whole := line ++ take (line_end_length rest) rest in
      x ← parse_command (with_in c (in_text c) stop (in_closed c)) r whole;
      let '(c', r', n) := x in
      if decide (0 < n) then Ok (with_in c' (in_text c') (inpos c) (in_closed c'), r')
      else let '(t, pos) := contract (in_text c') (inpos c') in Ok (with_in c' t pos (in_closed c'), r')
    else Ok (c, r).

(** [flush_write], when the kernel takes [room] bytes before it blocks, or has
    found the connection broken. *)
Definition flush_write (room : nat) (broken : bool) (c : connection) : connection * str :=
  if out_closed c then (c, [])
  else
    let sent := take room (drop (outpos c) (out_text c)) in
    let stuck := bool_decide (outpos c + length sent < length (out_text c))%nat in
    let '(t, pos) := contract (out_text c) (outpos c + length sent) in
    (with_out c t pos (broken && stuck), sent).

(** The connection after the round, unless it is closed, and what was sent. *)
Definition selected (a : arrival) (room : nat) (broken : bool) (c : connection) (r : R)
    : res (option connection * R * str) :=
  x ← run_command (read_socket a c) r;
  let '(c, r) := x in
  let '(c, sent) := flush_write room broken c in
  let done := in_closed c && bool_decide (in_text c = []) && bool_decide (out_text c = []) || out_closed c in
  Ok (if (done : bool) then None else Some c, r, sent).
End commands.
