(* ===== verification/ControlClient.v ===== *)
(** * ControlClient: the client of control connections (daemons/common/csclient.cc)

    The client's side of the protocol over a byte stream.  The peer is an
    argument: it answers what is sent to it, and its stream ends after the
    answers. *)

From Stdlib Require Import ZArith Lia Ascii String.
From stdpp Require Import base gmap sets list.
From S2P Require Import Prelude Text ConfParse XRouted.

Local Open Scope Z_scope.

Inductive err_t : Set :=
  | no_err | sys_err | init_err | reinit_err | no_element | no_handler | handler_no_perm | handler_err
  | handler_bad_format | click_err | too_short.
#[global] Instance err_t_eq_dec : EqDecision err_t.
Proof. solve_decision. Defined.

Definition CODE_OK : Z := 200.
Definition CODE_OK_WARN : Z := 220.
Definition CODE_UNIMPLEMENTED : Z := 501.
Definition CODE_NO_ELEMENT : Z := 510.
Definition CODE_NO_HANDLER : Z := 511.
Definition CODE_HANDLER_ERR : Z := 520.
Definition CODE_PERMISSION : Z := 530.
Definition MAX_LINE_SZ : nat := 1024.

(** ** [std::string] *)

(** [find] from a position: an index, or [npos]. *)
Definition find_from (c : ascii) (s : str) (from : Z) : Z :=
  match list_find (λ x, x = c) (drop (Z.to_nat from) s) with Some (i, _) => from + Z.of_nat i | None => npos end.

(** [substr], for a position inside the string. *)
Definition substr (s : str) (pos n : Z) : str := take (Z.to_nat (Z.min n (Z.of_nat (length s)))) (drop (Z.to_nat pos) s).

(** ** Lines and codes *)

(** [readline]: the error, the line, and what is left of the stream. *)
Fixpoint readline_loop (s buf : str) : err_t * str * str :=
  match s with
  | [] => (sys_err, buf, [])
  | c :: s =>
      let buf := buf ++ [c] in
      if decide (MAX_LINE_SZ < length buf)%nat then (click_err, buf, s)
      else if decide (c = NL) then (no_err, buf, s) else readline_loop s buf
  end.
Definition readline (s : str) : err_t * str * str := readline_loop s [].

Definition get_resp_code (line : str) : Z := if decide (length line < 3)%nat then -1 else atoi (take 3 line).

Fixpoint skip_to_digit (s : str) : str :=
  match s with
  | [] => []
  | c :: s' => if decide (48 ≤ code c ≤ 57) then s else skip_to_digit s'
  end.
Definition get_data_len (line : str) : Z :=
  if decide (skip_to_digit line = []) then -1 else atoi (skip_to_digit line).

Definition handle_err_code (n : Z) : err_t :=
  if decide (n = CODE_NO_ELEMENT) then no_element
  else if decide (n = CODE_NO_HANDLER) then no_handler
  else if decide (n = CODE_HANDLER_ERR) then handler_err
  else if decide (n = CODE_PERMISSION) then handler_no_perm
  else click_err.

(** The lines of an answer up to the last one, whose fourth character is not a
    hyphen. *)
Fixpoint read_answer (fuel : nat) (s : str) : err_t * str * str :=
  match fuel with
  | O => (sys_err, [], s)
  | S fuel =>
      let '(e, line, s) := readline s in
      if decide (e ≠ no_err) then (e, line, s)
      else if decide (length line < 4)%nat then (click_err, line, s)
      else if decide (line !! 3%nat = Some "-"%char) then read_answer fuel s
      else (no_err, line, s)
  end.

(** The lines from an offset on. *)
Fixpoint cs_split_loop (fuel : nat) (s : str) (terminator : ascii) : list str :=
  match fuel, s with
  | S fuel, _ :: _ =>
      let line := match list_find (λ c, c = terminator) s with Some (i, _) => take i s | None => s end in
      line :: cs_split_loop fuel (drop (S (length line)) s) terminator
  | _, _ => []
  end.
Definition cs_split (s : str) (offset : nat) (terminator : ascii) : list str :=
  cs_split_loop (length s) (drop offset s) terminator.

Definition cs_trim (s : str) : str := rev (skip_space (rev (skip_space s))).

(** ** The client *)

Section client.
Context {S : Type} (exchange : S → str → S * str).
(** How many bytes a [read] returns at most. *)
Context (chunk : nat → nat).

(** The peer, the stream that has not been read yet, and whether the client is
    configured. *)
Record ControlSocketClient := mkClient { cl_peer : S; cl_in : str; _init : bool }.

Definition send (k : ControlSocketClient) (s : str) : ControlSocketClient :=
  let '(p, answer) := exchange (cl_peer k) s in mkClient p (cl_in k ++ answer) (_init k).
Definition rest_of (k : ControlSocketClient) (s : str) : ControlSocketClient := mkClient (cl_peer k) s (_init k).

(** A new connection: the banner has to name version 1.0 or later.  The
    positions are 32 bits wide, so that neither equals [npos]. *)
Definition cs_configure (k : ControlSocketClient) : ControlSocketClient * err_t :=
  if _init k then (k, reinit_err)
  else
    let '(e, buf, s) := readline (cl_in k) in
    let k := rest_of k s in
    if decide (e ≠ no_err) then (k, e)
    else
      let slash := u32 (find_from "/"%char buf 0) in
      let dot := u32 (if decide (slash ≠ npos) then find_from "."%char buf (u32 (slash + 1)) else npos) in
      if decide (slash = npos ∨ dot = npos) then (k, click_err)
      else
        let major := atoi (substr buf (u32 (slash + 1)) (u32 (dot - slash - 1))) in
        let minor := atoi (substr buf (u32 (dot + 1)) (u64 (Z.of_nat (length buf) - dot - 1))) in
        if decide (major ≠ 1 ∨ minor < 0) then (k, click_err) else (mkClient (cl_peer k) s true, no_err).

(** [close] of the descriptor returns 0, which is taken for an error. *)
Definition cs_close (k : ControlSocketClient) : ControlSocketClient * err_t :=
  if _init k then (mkClient (cl_peer k) (cl_in k) false, sys_err) else (k, init_err).

Definition full_name (el handler : str) : str := if decide (el = []) then handler else el ++ "."%char :: handler.

(** The data of an answer: at the end of the stream [read] returns 0 for ever. *)
Fixpoint read_data (fuel num : nat) (s buf : str) : res (str * str) :=
  if decide (num ≤ length buf)%nat then Ok (buf, s)
  else match fuel with
       | O => Ub OutOfFuel
       | Datatypes.S fuel =>
           let got := take (Nat.min (num - length buf) (Datatypes.S (chunk fuel))) s in
           read_data fuel num (drop (length got) s) (buf ++ got)
       end.

(** An error of the second [readline] is not noticed: the codes are not
    negative. *)
Definition cs_read (fuel : nat) (k : ControlSocketClient) (el handler : str)
    : res (ControlSocketClient * err_t * str) :=
  if negb (_init k) then Ok (k, init_err, [])
  else
    let k := send k (lit "READ " ++ full_name el handler ++ [NL]) in
    let '(e, line, s) := read_answer (Datatypes.S (length (cl_in k))) (cl_in k) in
    if decide (e ≠ no_err) then Ok (rest_of k s, e, [])
    else
      let n := get_resp_code line in
      if decide (n ≠ CODE_OK ∧ n ≠ CODE_OK_WARN) then Ok (rest_of k s, handle_err_code n, [])
      else
        let '(_, line, s) := readline s in
        let num := get_data_len line in
        if decide (num < 0) then Ok (rest_of k s, click_err, [])
        else if decide (num = 0) then Ok (rest_of k s, no_err, [])
        else r ← read_data fuel (Z.to_nat num) s []; Ok (rest_of k r.2, no_err, r.1).

(** The size is printed into ten bytes. *)
Definition write_request (el handler data : str) : str :=
  lit "WRITEDATA " ++ full_name el handler ++ " "%char :: take 9 (print_d (Z.of_nat (length data))) ++ NL :: data.

Definition cs_write (k : ControlSocketClient) (el handler data : str) : ControlSocketClient * err_t :=
  if negb (_init k) then (k, init_err)
  else
    let k := send k (write_request el handler data) in
    let '(e, line, s) := read_answer (Datatypes.S (length (cl_in k))) (cl_in k) in
    let k := rest_of k s in
    if decide (e ≠ no_err) then (k, e)
    else
      let n := get_resp_code line in
      if decide (n ≠ CODE_OK ∧ n ≠ CODE_OK_WARN) then (k, handle_err_code n) else (k, no_err).

(** ** What the router has *)

Definition get_config_el_names (fuel : nat) (k : ControlSocketClient) : res (ControlSocketClient * err_t * list str) :=
  x ← cs_read fuel k [] (lit "list");
  let '(k, e, resp) := x in
  if decide (e ≠ no_err) then Ok (k, e, [])
  else
    let i := match list_find (λ c, c = NL) resp with Some (i, _) => Z.of_nat i | None => -1 end in
    let num := atoi (if decide (i < 0) then resp else take (Z.to_nat i) resp) in
    let els := cs_split resp (Z.to_nat (i + 1)) NL in
    if decide (Z.of_nat (length els) ≠ u64 num) then Ok (k, handler_bad_format, els) else Ok (k, no_err, els).

Definition get_string_vec (fuel : nat) (k : ControlSocketClient) (el h : str) : res (ControlSocketClient * err_t * list str) :=
  x ← cs_read fuel k el h;
  let '(k, e, resp) := x in
  if decide (e ≠ no_err) then Ok (k, e, []) else Ok (k, no_err, cs_split resp 0 NL).

Record handler_info_t := mkInfo { element_name : str; handler_name : str; can_read : bool; can_write : bool }.

(** The flags after the name of a handler, up to a space. *)
Fixpoint handler_flags (s : str) (rd wr : bool) : bool * bool :=
  match s with
  | [] => (rd, wr)
  | c :: s =>
      if decide (c = "r"%char ∨ c = "R"%char) then handler_flags s true wr
      else if decide (c = "w"%char ∨ c = "W"%char) then handler_flags s rd true
      else if is_space c then (rd, wr) else handler_flags s rd wr
  end.

Definition handler_info (el s : str) : option handler_info_t :=
  match list_find (λ c, is_space c = true) s with
  | None => None
  | Some (j, _) =>
      let '(rd, wr) := handler_flags (skip_space (drop j s)) false false in
      Some (mkInfo el (cs_trim (take j s)) rd wr)
  end.

Definition get_el_handlers (fuel : nat) (k : ControlSocketClient) (el : str)
    : res (ControlSocketClient * err_t * list handler_info_t) :=
  x ← cs_read fuel k el (lit "handlers");
  let '(k, e, resp) := x in
  if decide (e ≠ no_err) then Ok (k, e, [])
  else match mapM (handler_info el) (cs_split resp 0 NL) with
       | None => Ok (k, click_err, [])
       | Some v => Ok (k, no_err, v)
       end.

(** [h] is the full name, which no entry of the list has. *)
Definition check_handler_workaround (fuel : nat) (k : ControlSocketClient) (el h : str) (is_write : bool)
    : res (ControlSocketClient * err_t * option bool) :=
  x ← get_el_handlers fuel k el;
  let '(k, e, v) := x in
  if decide (e ≠ no_err) then Ok (k, e, None)
  else match list_find (λ i, handler_name i = h) v with
       | Some (_, i) => Ok (k, no_err, Some (if is_write then can_write i else can_read i))
       | None => Ok (k, no_err, Some false)
       end.

Definition check_handler (fuel : nat) (k : ControlSocketClient) (el h : str) (is_write : bool)
    : res (ControlSocketClient * err_t * option bool) :=
  if negb (_init k) then Ok (k, init_err, None)
  else
    let h := full_name el h in
    let k := send k ((if is_write then lit "CHECKWRITE " else lit "CHECKREAD ") ++ h ++ [NL]) in
    let '(e, line, s) := read_answer (Datatypes.S (length (cl_in k))) (cl_in k) in
    let k := rest_of k s in
    if decide (e ≠ no_err) then Ok (k, e, None)
    else
      let n := get_resp_code line in
      if decide (n = CODE_OK ∨ n = CODE_OK_WARN) then Ok (k, no_err, Some true)
      else if decide (n = CODE_NO_ELEMENT ∨ n = CODE_NO_HANDLER ∨ n = CODE_HANDLER_ERR ∨ n = CODE_PERMISSION)
      then Ok (k, no_err, Some false)
      else if decide (n = CODE_UNIMPLEMENTED ∧ el ≠ []) then check_handler_workaround fuel k el h is_write
      else Ok (k, handle_err_code n, None).
End client.
