(* ===== verification/ControlServe.v ===== *)
(** * ControlServe: what a control connection answers

    However the bytes of a request arrive and however much of the answer can be
    sent at a time, the command is run once, when the request is complete, and
    the answer goes out unchanged. *)

From Stdlib Require Import ZArith Lia Ascii String.
From stdpp Require Import base gmap sets list.
From S2P Require Import Prelude Text ConfParse ControlSocket.

Local Open Scope Z_scope.

(** ** Words and numbers *)

Definition is_word (w : str) : Prop := w ≠ [] ∧ Forall (λ c, is_space c = false) w.

Lemma words_run w s pos first acc : Forall (λ c, is_space c = false) w →
  words_loop (w ++ s) pos first acc = words_loop s (pos + length w) first (acc ++ w).
Proof.
  intros Hw. revert pos acc. induction Hw as [|c w Hc Hw IH]; intros pos acc; cbn [app words_loop length].
  - by rewrite Nat.add_0_r, app_nil_r.
  - rewrite Hc, IH, <-app_assoc. cbn [app]. by rewrite Nat.add_succ_r.
Qed.

Lemma words_cons w c s pos : is_word w → is_space c = true →
  words_loop (w ++ c :: s) pos pos [] = (pos, w) :: words_loop s (S (pos + length w)) (S (pos + length w)) [].
Proof.
  intros [Hne Hw] Hc. rewrite words_run by done. cbn [words_loop app]. rewrite Hc, decide_False by done. done.
Qed.

Lemma IntArg_int_print n : 0 ≤ n < 2 ^ 31 → IntArg_int (print_d n) = Some n.
Proof.
  intros Hn. destruct (decide (n = 0)) as [->|Hne]; [done|].
  pose proof (cp_integer_print n true Hn) as Hc. unfold cp_integer in Hc. unfold IntArg_int.
  destruct (IntArg_parse (print_d n) true) as [[k v]|]; [|done]. case_decide; [|done]. injection Hc as ->.
  pose proof (IntArg_span_digits [] true n ltac:(lia) (or_introl eq_refl)) as Hs. cbn [app] in Hs. rewrite Hs. cbn [snd].
  destruct (print_d_head n ltac:(lia)) as (c & s & Hcs & Hd).
  rewrite (decide_False (P := head (print_d n) = _)) by (rewrite Hcs; intros [= ->]; by destruct Hd as [[] _]).
  unfold IntArg_value. rewrite IntArg_value_scan by (apply print_d_plain; lia). rewrite decide_True; [done|].
  split; [done|]. unfold print_d. rewrite decide_False by lia. by rewrite print_digits_scan by (simpl; lia).
Qed.

Lemma parse_length_print n : 0 ≤ n < 2 ^ 31 → parse_length (print_d n) = Some n.
Proof. intros Hn. unfold parse_length. rewrite IntArg_int_print by done. by rewrite decide_True by lia. Qed.

Definition one_line (line : str) : Prop := Forall (λ c, c ≠ CR ∧ c ≠ NL) line.

Lemma span_whole line s : one_line line → span_line (line ++ NL :: s) = (line, NL :: s).
Proof.
  induction 1 as [|c l [Hc1 Hc2] Hl IH]; cbn [app span_line]; [by rewrite decide_True by auto|].
  rewrite decide_False by naive_solver. by rewrite IH.
Qed.

Lemma span_part line k : one_line line → span_line (take k line) = (take k line, []).
Proof.
  intros Hl. revert k. induction Hl as [|c l [Hc1 Hc2] Hl IH]; intros [|k]; [done..|]. cbn [take span_line].
  rewrite decide_False by naive_solver. by rewrite IH.
Qed.

(** ** Rounds *)

Section rounds.
Context {R : Type} {router : Router R} (ro : bool) (ll : connection → R → str → str → connection * R * Z).

(** Rounds on an open connection: what arrives, and the room for what is sent. *)
Fixpoint serve_rounds (l : list (arrival * nat)) (c : connection) (r : R) : res (option connection * R * str) :=
  match l with
  | [] => Ok (Some c, r, [])
  | (a, room) :: l =>
      x ← selected ro ll a room false c r;
      match x with
      | (Some c, r, sent) => y ← serve_rounds l c r; Ok (y.1, sent ++ y.2)
      | (None, r, sent) => Ok (None, r, sent)
      end
  end.

Definition bytes_of (a : arrival) : str := match a with Bytes b => b | _ => [] end.

(** An open connection with the input [t] and the output [o] to be sent. *)
Definition open_conn (t o : str) (c : connection) : Prop :=
  in_text c = t ∧ inpos c = 0%nat ∧ drop (outpos c) (out_text c) = o ∧ in_closed c = false ∧ out_closed c = false ∧
  (outpos c ≤ length (out_text c))%nat.

Lemma contract_drop t pos : (pos ≤ length t)%nat → drop (contract t pos).2 (contract t pos).1 = drop pos t.
Proof using.
  intros Hp. unfold contract. repeat case_decide; simpl; [|by rewrite drop_0|done]. subst. by rewrite drop_all.
Qed.

Lemma contract_le t pos : (pos ≤ length t)%nat → ((contract t pos).2 ≤ length (contract t pos).1)%nat.
Proof using. intros Hp. unfold contract. repeat case_decide; simpl; lia. Qed.

Lemma flush_open room t o c : open_conn t o c → ∃ c' sent o', flush_write room false c = (c', sent) ∧
  open_conn t o' c' ∧ sent ++ o' = o ∧ sent = take room o.
Proof using.
  intros (Ht & Hp & Ho & Hi & Hc & Hle). unfold flush_write. rewrite Hc, Ho.
  assert (outpos c + length (take room o) ≤ length (out_text c))%nat as Hle'.
  { rewrite length_take, <-Ho, length_drop. lia. }
  pose proof (contract_drop _ _ Hle') as Hd. pose proof (contract_le _ _ Hle') as Hl.
  destruct (contract (out_text c) _) as [t' pos']. cbn [fst snd] in *. eexists _, _, (drop pos' t'). split; [done|].
  split; [by split_and!|]. split; [|done]. rewrite Hd, <-drop_drop, Ho, length_take. destruct (decide (room ≤ length o)%nat).
  - rewrite Nat.min_l by lia. apply take_drop.
  - rewrite Nat.min_r, drop_all, app_nil_r by lia. apply take_ge. lia.
Qed.

(** ** One request *)

Section request.
Context (line data reply : str) (r r' : R) (code : Z).
Context (Hline : one_line line).
Context (Hcode : code ≤ 0).
Abbreviation req := (line ++ NL :: data).

(** The command waits until its data is complete, and then answers. *)
Definition command_waits : Prop := ∀ k c, (k < length data)%nat → in_text c = line ++ NL :: take k data →
  inpos c = S (length line) → in_closed c = false → out_closed c = false →
  parse_command ro ll c r (line ++ [NL]) = Ok (c, r, 1).
Definition command_answers : Prop := ∀ c, in_text c = req → inpos c = S (length line) → in_closed c = false →
  out_closed c = false →
  parse_command ro ll c r (line ++ [NL]) = Ok (put (with_in c req (length req) false) reply, r', code).
Context (Hwait : command_waits) (Hanswer : command_answers).

Lemma run_partial k o c : (k < length req)%nat → open_conn (take k req) o c → run_command ro ll c r = Ok (c, r).
Proof using Hline Hwait.
  intros Hk (Ht & Hp & Ho & Hi & Hc & _). unfold run_command. case_decide; [done|]. rewrite Hp, Ht, drop_0, Hi.
  rewrite length_app in Hk. cbn [length] in Hk. destruct (decide (k ≤ length line)%nat) as [Hle|Hgt].
  - rewrite take_app_le, span_part by done. rewrite decide_False; [done|]. by intros [[]|].
  - rewrite take_app_ge in * by lia. destruct (k - length line)%nat as [|j] eqn:Hj; [lia|]. cbn [take] in *.
    rewrite span_whole by done. rewrite decide_True by (by left). cbn [line_end_length]. rewrite decide_False by (by intros []).
    cbn [take]. rewrite (Hwait j); [|lia|done|cbn; lia|done|done]. cbn [mbind res_bind].
    rewrite decide_True by lia. cbn. destruct c; cbn in *. by subst.
Qed.

Lemma run_full c o : open_conn req o c → ∃ c', run_command ro ll c r = Ok (c', r') ∧ open_conn [] (o ++ reply) c'.
Proof using Hline Hcode Hanswer.
  intros (Ht & Hp & Ho & Hi & Hc & Hle). unfold run_command. rewrite decide_False by (rewrite Ht; by destruct line).
  rewrite Hp, Ht, drop_0. rewrite span_whole by done. rewrite decide_True by (by left). cbn [line_end_length].
  rewrite decide_False by (by intros []). cbn [take].
  rewrite Hanswer; [|done|cbn; lia|done|done]. cbn [mbind res_bind]. rewrite decide_False by lia.
  cbn [in_text inpos put with_in with_out]. unfold contract. rewrite decide_True by done. eexists. split; [done|].
  split_and!; [done|done|cbn|done|done|cbn; rewrite length_app; lia]. by rewrite drop_app_le, Ho.
Qed.

Lemma read_open a t o c : a ≠ Closed → open_conn t o c → open_conn (t ++ bytes_of a) o (read_socket a c).
Proof using.
  intros Ha (Ht & Hp & Ho & Hi & Hc & Hle). unfold read_socket. rewrite Hi. destruct a; [|by rewrite app_nil_r|done].
  split_and!; cbn; try done. by rewrite Ht.
Qed.

(** A round in which the command is still incomplete, or has been run. *)
Lemma selected_open a room c1 c2 r1 r2 t o : run_command ro ll (read_socket a c1) r1 = Ok (c2, r2) → open_conn t o c2 →
  ∃ c3 sent o', selected ro ll a room false c1 r1 = Ok (Some c3, r2, sent) ∧ open_conn t o' c3 ∧ sent ++ o' = o.
Proof using.
  intros Hrun Hopen. unfold selected. rewrite Hrun. cbn [mbind res_bind].
  destruct (flush_open room t o c2 Hopen) as (c3 & sent & o' & -> & Ho & Happ & _). exists c3, sent, o'. split; [|done].
  destruct Ho as (_ & _ & _ & -> & -> & _). done.
Qed.

(** Rounds without a command. *)
Lemma serve_idle l : ∀ o c r0, Forall (λ a, a.1 ≠ Closed) l → concat (map (λ a, bytes_of a.1) l) = [] →
  open_conn [] o c → ∃ c' sent o', serve_rounds l c r0 = Ok (Some c', r0, sent) ∧ open_conn [] o' c' ∧ sent ++ o' = o.
Proof using.
  induction l as [|[a room] l IH]; intros o c r0 Hl Hb Hc; [by eexists _, _, _|].
  apply Forall_cons in Hl as [Ha Hl]. cbn [map concat] in Hb. apply app_nil in Hb as [Hb1 Hb2].
  pose proof (read_open a [] o c Ha Hc) as Hr. cbn [fst] in Hb1. rewrite Hb1 in Hr. cbn [app] in Hr.
  destruct (selected_open a room c (read_socket a c) r0 r0 [] o) as (c3 & sent & o1 & Hsel & Hc3 & Happ); [|done|].
  { unfold run_command. rewrite decide_True; [done|]. apply Hr. }
  destruct (IH o1 c3 r0 Hl Hb2 Hc3) as (c4 & sent2 & o2 & Hs & Hc4 & Happ2).
  exists c4, (sent ++ sent2), o2. cbn [serve_rounds]. rewrite Hsel. cbn [mbind res_bind]. rewrite Hs. cbn.
  split; [done|]. split; [done|]. by rewrite <-app_assoc, Happ2.
Qed.

Lemma serve_request l : ∀ k o c, (k < length req)%nat → Forall (λ a, a.1 ≠ Closed) l →
  concat (map (λ a, bytes_of a.1) l) = drop k req → open_conn (take k req) o c →
  ∃ c' sent o', serve_rounds l c r = Ok (Some c', r', sent) ∧ open_conn [] o' c' ∧ sent ++ o' = o ++ reply.
Proof using Hline Hcode Hwait Hanswer.
  induction l as [|[a room] l IH]; intros k o c Hk Hl Hb Hc.
  { exfalso. assert (length (drop k req) = 0)%nat as H by (by rewrite <-Hb). rewrite length_drop in H. lia. }
  apply Forall_cons in Hl as [Ha Hl]. cbn [map concat fst] in Hb.
  pose proof (read_open a _ o c Ha Hc) as Hr. set (n := length (bytes_of a)).
  assert (take k req ++ bytes_of a = take (k + n) req) as Heq.
  { rewrite <-take_take_drop, <-Hb. unfold n. by rewrite take_app_length. }
  assert (concat (map (λ a0, bytes_of a0.1) l) = drop (k + n) req) as Hb'.
  { rewrite <-drop_drop, <-Hb. unfold n. by rewrite drop_app_length. }
  rewrite Heq in Hr. cbn [serve_rounds]. destruct (decide (k + n < length req)%nat) as [Hlt|Hge].
  - destruct (selected_open a room c (read_socket a c) r r (take (k + n) req) o)
      as (c3 & sent & o1 & -> & Hc3 & Happ); [by eapply run_partial|done|].
    destruct (IH (k + n)%nat o1 c3 Hlt Hl Hb' Hc3) as (c4 & sent2 & o2 & Hs & Hc4 & Happ2).
    exists c4, (sent ++ sent2), o2. cbn [mbind res_bind]. rewrite Hs. split; [done|]. split; [done|].
    by rewrite <-app_assoc, Happ2, app_assoc, Happ.
  - rewrite take_ge in Hr by lia. rewrite drop_ge in Hb' by lia.
    destruct (run_full _ o Hr) as (c2 & Hrun & Hc2).
    destruct (selected_open a room c c2 r r' [] (o ++ reply) Hrun Hc2) as (c3 & sent & o1 & -> & Hc3 & Happ).
    destruct (serve_idle l o1 c3 r' Hl Hb' Hc3) as (c4 & sent2 & o2 & Hs & Hc4 & Happ2).
    exists c4, (sent ++ sent2), o2. cbn [mbind res_bind]. rewrite Hs. split; [done|]. split; [done|].
    by rewrite <-app_assoc, Happ2.
Qed.
End request.
End rounds.
