(* ===== verification/ControlSpec.v ===== *)
(** * ControlSpec: the client and the router agree

    A handler that a daemon reads or writes with the client of
    daemons/common/csclient.cc, over a connection served by the element of
    elements/userlevel/controlsocket.cc, is called once with the data the client
    was given, and the client returns what the handler says. *)

From Stdlib Require Import ZArith Lia Ascii String.
From stdpp Require Import base gmap sets list.
From S2P Require Import Prelude Text ConfParse XRouted ControlSocket ControlClient ControlServe.

Local Open Scope Z_scope.

(** ** Answers *)

(** A response code has three digits. *)
Definition is_code (n : Z) : Prop := 100 ≤ n ≤ 999.

Lemma message_put c n msg cont : is_code n → out_closed c = false → message c n msg cont = Ok (put c (message_line n msg cont)).
Proof. intros Hn Hc. unfold message. by rewrite decide_True, Hc. Qed.

(** The lines of an answer. *)
Fixpoint answer (n : Z) (msgs : list str) : str :=
  match msgs with
  | [] => []
  | m :: msgs => message_line n m (bool_decide (msgs ≠ [])) ++ answer n msgs
  end.

Lemma put_nil c : put c [] = c.
Proof. destruct c. unfold put, with_out. cbn. by rewrite app_nil_r. Qed.

Lemma put_put c s t : put (put c s) t = put c (s ++ t).
Proof. unfold put, with_out. cbn. by rewrite app_assoc. Qed.

Lemma put_messages_answer n msgs : is_code n → ∀ c, out_closed c = false → put_messages c n msgs = Ok (put c (answer n msgs)).
Proof.
  intros Hn. induction msgs as [|m msgs IH]; intros c Hc; [by rewrite put_nil|]. cbn [put_messages answer].
  rewrite message_put by done. cbn [mbind res_bind]. rewrite IH by done. by rewrite put_put.
Qed.

Definition transfer_lines (msg : str) (e : errors) : list str :=
  (if decide (msg = []) then [] else if decide (er_messages e ≠ []) then [msg ++ lit ":"] else [msg]) ++ er_messages e.

Lemma transfer_answer c n msg e : out_closed c = false → is_code (if decide (er_code e = CSERR_OK) then n else er_code e) →
  transfer_messages c n msg e =
    Ok (put c (answer (if decide (er_code e = CSERR_OK) then n else er_code e) (transfer_lines msg e))).
Proof.
  intros Hc Hn. unfold transfer_messages, transfer_lines. cbv zeta. destruct (decide (msg = [])); cbn [app mbind res_bind].
  { by apply put_messages_answer. }
  rewrite !message_put by done. destruct (decide (er_messages e ≠ [])) as [Hm|Hm]; cbn [app answer mbind res_bind].
  - rewrite put_messages_answer by done. rewrite put_put. by rewrite bool_decide_true.
  - destruct (er_messages e) as [|m l]; [|by destruct Hm]. cbn. by rewrite app_nil_r.
Qed.

Section router.
Context {R : Type} {router : Router R} (ro : bool) (ll : connection → R → str → str → connection * R * Z).

(** The handler a name stands for, or the code and text of the answer. *)
Definition lookup_handler (r : R) (name : str) : Z * str * Handler + Z * str :=
  match parse_handler (mkConn [] 0 [] 0 false true) r name with
  | Ok (inl x) => inl x
  | _ =>
      let canonical := canonical_handler_name name in
      match list_find (λ ch, ch = "."%char) canonical with
      | Some (dot, _) =>
          let num := default 0 (IntArg_int (take dot canonical)) in
          if decide (router_find r (take dot canonical) = None ∧ ¬ 0 < num ≤ nelements r)
          then inr (CSERR_NO_SUCH_ELEMENT, quoted (lit "No element named ") (take dot canonical) [])
          else inr (CSERR_NO_SUCH_HANDLER, quoted (lit "No handler named ") name [])
      | None => inr (CSERR_NO_SUCH_HANDLER, quoted (lit "No handler named ") name [])
      end
  end.

Lemma parse_handler_lookup c r name :
  parse_handler c r name =
    match lookup_handler r name with inl x => Ok (inl x) | inr (n, msg) => c ← message c n msg false; Ok (inr c) end.
Proof using.
  unfold lookup_handler, parse_handler. cbv zeta.
  destruct (list_find _ (canonical_handler_name name)) as [[dot ch]|].
  - destruct (router_find r _) as [e|] eqn:Hf.
    + cbn [mbind res_bind]. destruct (router_handler r e _) as [h|]; [destruct (visible h); [done|]|]; cbn; by rewrite decide_False by (by intros []).
    + destruct (decide (0 < default 0 _ ≤ nelements r)) as [Hin|Hin].
      * cbn [mbind res_bind]. destruct (router_handler r _ _) as [h|]; [destruct (visible h); [done|]|]; cbn; by rewrite decide_False by (by intros [_ []]).
      * cbn. by rewrite decide_True.
  - cbn [mbind res_bind]. destruct (router_handler r _ _) as [h|]; [by destruct (visible h)|done].
Qed.

(** The codes of these answers are constants. *)
Lemma lookup_code r name n msg : lookup_handler r name = inr (n, msg) → is_code n.
Proof using.
  unfold lookup_handler. intros H. repeat case_match; simplify_eq; unfold is_code, CSERR_NO_SUCH_ELEMENT, CSERR_NO_SUCH_HANDLER; lia.
Qed.

Lemma refuse_ok c (r : R) n msg : out_closed c = false → is_code n → refuse c r n msg = Ok (put c (answer n [msg]), r, ANY_ERR).
Proof using. intros Hc Hn. unfold refuse, error_message. rewrite message_put by done. cbn. by rewrite app_nil_r. Qed.

(** What a write does to the router, and the code and text of the answer. *)
Definition write_answer (r : R) (name data : str) : R * Z * list str :=
  match lookup_handler r name with
  | inr (n, msg) => (r, n, [msg])
  | inl (e, hname, h) =>
      if negb (h_write h) then (r, CSERR_PERMISSION, [quoted (lit "Handler ") name (lit " read-only")])
      else if ro then (r, CSERR_PERMISSION, [quoted (lit "Permission denied for ") name []])
      else
        let '(r, (result, errh)) := call_write r e hname data in
        let n := write_code result errh in
        (r, n, transfer_lines (write_msg n name) errh)
  end.

Lemma write_command_answer r name data : is_code (write_answer r name data).1.2 → ∃ z, z ≤ 0 ∧ ∀ c, out_closed c = false →
  write_command ro c r name data =
    Ok (put c (answer (write_answer r name data).1.2 (write_answer r name data).2), (write_answer r name data).1.1, z).
Proof using.
  unfold write_command, write_answer. destruct (lookup_handler r name) as [[[e hname] h]|[n msg]] eqn:Hl.
  - destruct (negb (h_write h)) eqn:Hw; [|destruct ro; [|destruct (call_write r e hname data) as [r' [result errh]] eqn:Hcall]];
      cbn [fst snd]; intros Hn; [exists ANY_ERR..|exists 0]; (split; [done|]); intros c Hc; rewrite parse_handler_lookup, Hl;
      cbn [mbind res_bind]; rewrite Hw, ?Hcall; [by apply refuse_ok..|].
    assert ((if decide (er_code errh = CSERR_OK) then write_code result errh else er_code errh) = write_code result errh) as Hcode
      by (unfold write_code; repeat case_decide; done).
    rewrite transfer_answer by (done || by rewrite Hcode). by rewrite Hcode.
  - cbn [fst snd]. intros Hn. exists ANY_ERR. split; [done|]. intros c Hc. rewrite parse_handler_lookup, Hl.
    rewrite message_put by done. cbn. by rewrite app_nil_r.
Qed.

(** What a read does, with the data it gives. *)
Definition read_answer_of (r : R) (name param : str) : R * Z * list str * option str :=
  match lookup_handler r name with
  | inr (n, msg) => (r, n, [msg], None)
  | inl (e, hname, h) =>
      if negb (read_visible h) then (r, CSERR_PERMISSION, [quoted (lit "Handler ") name (lit " write-only")], None)
      else
        let '(r, (data, errh)) := call_read r e hname param in
        if decide (0 < er_nerrors errh) then
          (r, if decide (er_code errh = CSERR_OK) then CSERR_UNSPECIFIED else er_code errh,
           transfer_lines (quoted (lit "Read handler ") name (lit " error")) errh, None)
        else (r, CSERR_OK, [quoted (lit "Read handler ") name (lit " OK")], Some data)
  end.

Definition data_text (d : option str) : str :=
  match d with Some data => lit "DATA " ++ print_d (Z.of_nat (length data)) ++ CRLF ++ data | None => [] end.

Lemma read_command_answer r name param : is_code (read_answer_of r name param).1.1.2 → ∃ z, z ≤ 0 ∧ ∀ c, out_closed c = false →
  read_command c r name param =
    let '(r', n, msgs, d) := read_answer_of r name param in Ok (put c (answer n msgs ++ data_text d), r', z).
Proof using.
  unfold read_command, read_answer_of. destruct (lookup_handler r name) as [[[e hname] h]|[n msg]] eqn:Hl.
  - destruct (negb (read_visible h)) eqn:Hv; [|destruct (call_read r e hname param) as [r' [data errh]] eqn:Hcall; case_decide];
      cbn [fst snd]; intros Hn; [exists ANY_ERR|exists ANY_ERR|exists 0]; (split; [done|]); intros c Hc;
      rewrite parse_handler_lookup, Hl; cbn [mbind res_bind]; rewrite Hv, ?Hcall; cbn [data_text]; rewrite ?app_nil_r.
    + by apply refuse_ok.
    + rewrite decide_True by done. rewrite transfer_answer by done. done.
    + rewrite decide_False by done. rewrite message_put by done. cbn [mbind res_bind answer]. by rewrite put_put, app_nil_r.
  - cbn [fst snd]. intros Hn. exists ANY_ERR. split; [done|]. intros c Hc. rewrite parse_handler_lookup, Hl.
    rewrite (message_put c n msg) by done. cbn [mbind res_bind answer data_text]. by rewrite !app_nil_r.
Qed.

(** ** The two requests *)

Definition write_line (name : str) (len : Z) : str := lit "WRITEDATA " ++ name ++ " "%char :: print_d len.
Definition read_line (name : str) : str := lit "READ " ++ name.

Lemma word_one_line w : Forall (λ c, is_space c = false) w → one_line w.
Proof using. intros Hw. eapply Forall_impl; [done|]. intros c Hc. split; intros ->; by vm_compute in Hc. Qed.

Lemma print_d_is_word n : 0 ≤ n → is_word (print_d n).
Proof using.
  intros Hn. split; [by destruct (print_d_cons n Hn) as (c & s & ->)|].
  eapply Forall_impl; [by apply print_d_plain|]. intros c Hc. apply bool_decide_false. cbn in Hc. lia.
Qed.

Lemma write_words name len : is_word name → 0 ≤ len →
  (words_of (write_line name len ++ [NL])).*2 = [lit "WRITEDATA"; name; print_d len].
Proof using.
  intros Hn Hl. unfold words_of, write_line. rewrite <-!app_assoc. cbn [app].
  change (lit "WRITEDATA " ++ ?x) with (lit "WRITEDATA" ++ " "%char :: x).
  rewrite words_cons; [|by (split; [done|]; apply (bool_decide_unpack _); vm_compute)|done].
  rewrite words_cons by done. by rewrite words_cons by (done || by apply print_d_is_word).
Qed.

Lemma read_words name : is_word name → (words_of (read_line name ++ [NL])).*2 = [lit "READ"; name].
Proof using.
  intros Hn. unfold words_of, read_line. rewrite <-!app_assoc. cbn [app].
  change (lit "READ " ++ ?x) with (lit "READ" ++ " "%char :: x).
  rewrite words_cons; [|by (split; [done|]; apply (bool_decide_unpack _); vm_compute)|done].
  by rewrite words_cons.
Qed.

Lemma one_of_eval s names : bool_decide (is_one_of s names) = true → is_one_of s names.
Proof using. by intros ?%bool_decide_eq_true. Qed.
Lemma not_one_of_eval s names : bool_decide (is_one_of s names) = false → ¬ is_one_of s names.
Proof using. by intros ?%bool_decide_eq_false. Qed.

Lemma parse_write c r name len : is_word name → 0 ≤ len < 2 ^ 31 →
  parse_command ro ll c r (write_line name len ++ [NL]) =
    d ← conn_read c len;
    match d with inr (c, n) => Ok (c, r, n) | inl (data, c) => write_command ro c r name data end.
Proof using.
  intros Hn Hl. unfold parse_command. rewrite write_words by (done || lia). 
  rewrite (decide_False (P := is_one_of _ ["READ"; "GET"; "WRITE"; "SET"]%string)) by by apply not_one_of_eval.
  rewrite (decide_True (P := is_one_of _ ["READDATA"; "WRITEDATA"; "SETDATA"]%string)) by by apply one_of_eval.
  unfold data_command. rewrite parse_length_print by done. done.
Qed.

Lemma write_waits r name data : is_word name →
  Z.of_nat (length (write_line name (Z.of_nat (length data)) ++ NL :: data)) < 2 ^ 31 →
  command_waits ro ll (write_line name (Z.of_nat (length data))) data r.
Proof using.
  intros Hn Hlen k c Hk Ht Hp Hi Ho. rewrite length_app in Hlen. cbn [length] in Hlen.
  rewrite parse_write by (done || lia). unfold conn_read. rewrite Hp, decide_False by lia.
  rewrite decide_True by (rewrite Ht, length_app; cbn [length]; rewrite length_take; lia).
  cbn. unfold read_insufficient. by rewrite Hi.
Qed.

Lemma write_answers r name data : is_word name → is_code (write_answer r name data).1.2 →
  Z.of_nat (length (write_line name (Z.of_nat (length data)) ++ NL :: data)) < 2 ^ 31 →
  ∃ z, z ≤ 0 ∧ command_answers ro ll (write_line name (Z.of_nat (length data))) data
    (answer (write_answer r name data).1.2 (write_answer r name data).2) r (write_answer r name data).1.1 z.
Proof using.
  intros Hn Hcode Hlen. destruct (write_command_answer r name data Hcode) as (z & Hz & Hw). exists z. split; [done|].
  intros c Ht Hp Hi Ho. pose proof Hlen as Hlen'. rewrite length_app in Hlen'. cbn [length] in Hlen'.
  rewrite parse_write by (done || lia). unfold conn_read. rewrite Hp, decide_False by lia.
  rewrite decide_False by (rewrite Ht, length_app; cbn [length]; lia). cbn [mbind res_bind].
  rewrite Nat2Z.id, Ht, Hi. set (line := write_line name _) in *.
  assert (drop (S (length line)) (line ++ NL :: data) = data) as ->.
  { rewrite drop_app_ge by lia. by replace (S (length line) - length line)%nat with 1%nat by lia. }
  rewrite take_ge by done. rewrite Hw by done. do 5 f_equal. rewrite length_app. cbn [length]. lia.
Qed.

Lemma read_answers r name : is_word name → is_code (read_answer_of r name []).1.1.2 →
  ∃ z, z ≤ 0 ∧ command_answers ro ll (read_line name) []
    (let '(_, n, msgs, d) := read_answer_of r name [] in answer n msgs ++ data_text d)
    r (read_answer_of r name []).1.1.1 z.
Proof using.
  intros Hn Hcode. destruct (read_command_answer r name [] Hcode) as (z & Hz & Hw). exists z. split; [done|].
  intros c Ht Hp Hi Ho. unfold parse_command. rewrite read_words by done. 
  rewrite (decide_True (P := is_one_of _ ["READ"; "GET"; "WRITE"; "SET"]%string)) by by apply one_of_eval.
  assert (tail_words (read_line name ++ [NL]) (words_of (read_line name ++ [NL])) = []) as ->.
  { unfold tail_words. assert (length (words_of (read_line name ++ [NL])) = 2%nat) as Hl
      by (rewrite <-(length_fmap snd), read_words by done; done).
    rewrite (lookup_ge_None_2 _ 2) by lia. done. }
  rewrite bool_decide_true by (left; done). cbn [handler_command].
  assert (with_in c (read_line name ++ [NL]) (length (read_line name ++ [NL])) false = c) as ->.
  { destruct c. cbn in *. subst. unfold with_in. cbn. f_equal. rewrite length_app. cbn. lia. }
  unfold handler_command. rewrite Hw by done. by destruct (read_answer_of r name []) as [[[r' n] msgs] d].
Qed.
End router.

(** ** What the client makes of an answer *)

Lemma readline_whole l s buf : NL ∉ l → (length buf + length l < MAX_LINE_SZ)%nat →
  readline_loop (l ++ NL :: s) buf = (no_err, buf ++ l ++ [NL], s).
Proof.
  revert buf. induction l as [|c l IH]; intros buf Hl Hlen; cbn [app readline_loop length] in *.
  - rewrite decide_False by (rewrite length_app; cbn [length]; lia). by rewrite decide_True.
  - apply not_elem_of_cons in Hl as [Hc Hl]. rewrite decide_False by (rewrite length_app; cbn [length]; lia).
    rewrite decide_False by done. rewrite IH; [by rewrite <-app_assoc|done|]. rewrite length_app. cbn [length]. lia.
Qed.

Lemma print_d_length n : (length (print_d n) ≤ 11)%nat.
Proof.
  assert (∀ fuel n acc, (length (print_digits fuel n acc) ≤ fuel + length acc)%nat) as Hl.
  { clear. induction fuel as [|fuel IH]; intros n acc; cbn [print_digits]; [lia|]. case_decide; [cbn; lia|].
    etrans; [apply IH|]. cbn. lia. }
  unfold print_d. case_decide; cbn [length]; [pose proof (Hl 10%nat (- n) [])|pose proof (Hl 10%nat n [])]; cbn [length] in *; lia.
Qed.

Lemma code_digits n : is_code n → length (print_d n) = 3%nat ∧ atoi (print_d n) = n.
Proof.
  intros Hn. split; [|unfold atoi; by rewrite sscanf_d_print by (unfold is_code in *; lia)].
  assert (Forall (λ n, length (print_d n) = 3%nat) (seqZ 100 900)) as H.
  { apply (bool_decide_unpack _). by vm_compute. }
  rewrite Forall_forall in H. apply H, elem_of_seqZ. unfold is_code in Hn. lia.
Qed.

Lemma digits_no_NL s : Forall (λ c, 48 ≤ code c ≤ 57) s → NL ∉ s.
Proof. intros Hs Hin. rewrite Forall_forall in Hs. specialize (Hs _ Hin). vm_compute in Hs. by destruct Hs as [[] _]. Qed.

Lemma printable_no_NL s : NL ∉ String_printable s.
Proof.
  unfold String_printable. intros (c & Hin & _)%list_elem_of_bind. revert Hin. unfold printable_char, print_03o.
  assert (∀ z, 32 ≤ z < 256 → NL ≠ chr z) as Hchr.
  { intros z Hz Heq. apply (f_equal code) in Heq. rewrite code_chr in Heq by lia. change (code NL) with 10 in Heq. lia. }
  destruct (decide (32 ≤ code c < 127)) as [Hp|Hp]; [|destruct (decide (code c < 32)) as [Hs|Hs]];
    rewrite !elem_of_cons, ?elem_of_nil.
  - intros [<-|[]]. change (code NL) with 10 in Hp. lia.
  - pose proof (Hchr (code c + 64)). assert (0 ≤ code c) by (unfold code; lia). naive_solver lia.
  - assert (0 ≤ code c < 256) as Hc by (unfold code; pose proof (nat_ascii_bounded c); lia).
    assert (∀ d, 0 ≤ d < 8 → NL ≠ digit d) as Hd.
    { intros d Hd. unfold digit. rewrite decide_True by lia. apply Hchr. lia. }
    intros [H|[H|[H|[H|[]]]]]; revert H; [apply Hchr; lia|apply Hd..].
    + split; [apply Z.div_pos; lia|apply Z.div_lt_upper_bound; lia].
    + apply Z.mod_pos_bound. lia.
    + apply Z.mod_pos_bound. lia.
Qed.

(** The text of a line, without its end. *)
Definition line_text (n : Z) (m : str) (cont : bool) : str :=
  print_d n ++ (if cont then "-"%char else " "%char) :: String_printable m ++ [CR].

Lemma message_line_text n m cont : message_line n m cont = line_text n m cont ++ [NL].
Proof. unfold message_line, line_text. cbn. rewrite <-!app_assoc. cbn. by rewrite <-app_assoc. Qed.

Lemma line_text_facts n m cont : is_code n →
  NL ∉ line_text n m cont ∧ (4 ≤ length (line_text n m cont))%nat ∧
  take 3 (line_text n m cont) = print_d n ∧
  line_text n m cont !! 3%nat = Some (if cont then "-"%char else " "%char).
Proof.
  intros Hn. destruct (code_digits n Hn) as [Hl _]. unfold line_text.
  split; [|split; [|split]].
  - rewrite elem_of_app, elem_of_cons, elem_of_app, list_elem_of_singleton. intros [H|[H|[H|H]]].
    + revert H. apply digits_no_NL, print_d_plain. unfold is_code in Hn. lia.
    + by destruct cont.
    + by apply printable_no_NL in H.
    + done.
  - rewrite length_app. cbn [length]. lia.
  - rewrite take_app_le by lia. by rewrite take_ge by lia.
  - rewrite lookup_app_r by lia. by rewrite Hl.
Qed.

(** The lines are short enough for the client. *)
Definition short_lines (msgs : list str) : Prop := Forall (λ m, (length (String_printable m) < 1000)%nat) msgs.

Lemma read_answer_lines n msgs s : is_code n → msgs ≠ [] → short_lines msgs → ∀ fuel, (length msgs ≤ fuel)%nat →
  ∃ line, read_answer fuel (answer n msgs ++ s) = (no_err, line, s) ∧ get_resp_code line = n.
Proof.
  intros Hn Hne Hs. induction Hs as [|m msgs Hm Hs IH]; [done|]. intros [|fuel] Hf; [cbn in Hf; lia|].
  destruct (code_digits n Hn) as [Hl Ha]. cbn [answer read_answer]. rewrite message_line_text, <-!app_assoc. cbn [app].
  set (cont := bool_decide (msgs ≠ [])). destruct (line_text_facts n m cont Hn) as (Hnl & Hlen & Htake & Hlook).
  unfold readline. rewrite readline_whole; [|done|].
  2:{ unfold line_text. rewrite length_app. cbn [length]. rewrite length_app. cbn [length]. cbn beta in Hm. unfold MAX_LINE_SZ. lia. }
  cbn [app]. rewrite (decide_False (P := no_err ≠ no_err)) by (by intros []).
  rewrite decide_False by (rewrite length_app; cbn; lia). rewrite lookup_app_l, Hlook by lia.
  destruct msgs as [|m' msgs].
  - assert (cont = false) as Hcont by (by apply bool_decide_false; intros []). clearbody cont. subst cont.
    rewrite decide_False by done. eexists. split; [done|].
    unfold get_resp_code. rewrite decide_False by (rewrite length_app; cbn [length]; lia). by rewrite take_app_le, Htake by lia.
  - assert (cont = true) as Hcont by (by apply bool_decide_true). clearbody cont. subst cont.
    rewrite decide_True by done. apply IH; [done|]. cbn in *. lia.
Qed.

Lemma answer_length n msgs : is_code n → (length msgs ≤ length (answer n msgs))%nat.
Proof.
  intros Hn. induction msgs as [|m msgs IH]; [done|]. cbn [answer length]. rewrite length_app, message_line_text, length_app.
  cbn [length]. lia.
Qed.

Lemma answer_code n msgs s : is_code n → msgs ≠ [] → short_lines msgs →
  ∃ line, read_answer (S (length (answer n msgs ++ s))) (answer n msgs ++ s) = (no_err, line, s) ∧ get_resp_code line = n.
Proof.
  intros Hn Hne Hs. apply read_answer_lines; try done. rewrite length_app. pose proof (answer_length n msgs Hn). lia.
Qed.

Lemma skip_to_first pre c s : Forall (λ c, ¬ 48 ≤ code c ≤ 57) pre → 48 ≤ code c ≤ 57 →
  skip_to_digit (pre ++ c :: s) = c :: s.
Proof.
  intros Hp Hc. induction Hp as [|x pre Hx Hp IH]; cbn [app skip_to_digit]; [by rewrite decide_True|by rewrite decide_False].
Qed.

(** The line that announces data. *)
Lemma data_len n : 0 ≤ n < 2 ^ 31 → get_data_len (lit "DATA " ++ print_d n ++ CRLF) = n.
Proof.
  intros Hn. unfold get_data_len. destruct (print_d_cons n ltac:(lia)) as (c & s & Hcs).
  pose proof (print_d_digits n ltac:(lia)) as Hd. pose proof (print_d_plain n ltac:(lia)) as Hp. rewrite Hcs in *.
  apply Forall_cons in Hp as [Hc _].
  assert (skip_to_digit (lit "DATA " ++ (c :: s) ++ CRLF) = (c :: s) ++ CRLF) as ->.
  { apply skip_to_first; [|done]. apply (bool_decide_unpack _). by vm_compute. }
  rewrite decide_False by done. unfold atoi, sscanf_d. cbn [app skip_space]. unfold is_space.
  rewrite bool_decide_false by lia. cbn [scan_sign]. rewrite !bool_decide_false by (intros ->; by destruct Hc as [[] _]).
  assert (scan_digits 10 0 (c :: s ++ CRLF) = (n, true)) as ->.
  { rewrite (surjective_pairing (scan_digits _ _ _)). f_equal.
    - change (c :: s ++ CRLF) with ((c :: s) ++ CRLF). rewrite scan_digits_app by done. rewrite scan_digits_end by done.
      rewrite <-Hcs. unfold print_d. rewrite decide_False by lia. by rewrite print_digits_scan by (simpl; lia).
    - cbn. by destruct (digit_val 10 c) eqn:He; [|apply Forall_cons in Hd as [[? Hd] _]; rewrite He in Hd]. }
  cbn. unfold i32. rewrite Z.min_r, Z.max_r by lia. apply wrapS_small; simpl; lia.
Qed.
