(* ===== verification/ControlCall.v ===== *)
(** * ControlCall: handler calls over a control connection

    The client and the element composed: for every way the network splits the
    bytes, a write calls the handler once and a read returns the handler's
    value. *)

From Stdlib Require Import ZArith Lia Ascii String.
From stdpp Require Import base gmap sets list.
From S2P Require Import Prelude Text ConfParse XRouted ControlSocket ControlClient ControlServe ControlSpec.

Local Open Scope Z_scope.

Section call.
Context {R : Type} {router : Router R} (ro : bool) (ll : connection → R → str → str → connection * R * Z).
(** How the network delivers the bytes, round by round. *)
Context (tcp : str → list (arrival * nat)).

Definition delivers : Prop := ∀ s, Forall (λ a, a.1 ≠ Closed) (tcp s) ∧ concat (map (λ a, bytes_of a.1) (tcp s)) = s.

(** What is left to be sent goes out in the end. *)
Definition control_peer (p : connection * R) (s : str) : connection * R * str :=
  match serve_rounds ro ll (tcp s) p.1 p.2 with
  | Ok (Some c, r, sent) => let '(c, more) := flush_write (length (out_text c)) false c in (c, r, sent ++ more)
  | Ok (None, r, sent) => (p.1, r, sent)
  | Ub _ => (p, [])
  end.

Definition idle (c : connection) : Prop := open_conn [] [] c.

Lemma peer_request line data reply r r' z c : delivers → one_line line → z ≤ 0 →
  command_waits ro ll line data r → command_answers ro ll line data reply r r' z → idle c →
  ∃ c', control_peer (c, r) (line ++ NL :: data) = (c', r', reply) ∧ idle c'.
Proof using.
  intros Htcp Hline Hz Hw Ha Hc. destruct (Htcp (line ++ NL :: data)) as [Hl Hb].
  destruct (serve_request ro ll line data reply r r' z Hline Hz Hw Ha (tcp (line ++ NL :: data)) 0 [] c)
    as (c1 & sent & o & Hs & Hc1 & Happ); [rewrite length_app; cbn; lia|done|by rewrite drop_0|done|].
  unfold control_peer. cbn [fst snd]. rewrite Hs.
  destruct (flush_open (length (out_text c1)) [] o c1 Hc1) as (c2 & more & o2 & -> & Hc2 & Happ2 & Hmore).
  assert (more = o) as ->.
  { rewrite Hmore. apply take_ge. destruct Hc1 as (_ & _ & <- & _). rewrite length_drop. lia. }
  assert (o2 = []) as -> by (apply (app_inv_head o); by rewrite app_nil_r). exists c2. by rewrite Happ.
Qed.

(** ** Writing *)

Definition write_result (r : R) (name data : str) : R * err_t :=
  let '(r', n, _) := write_answer ro r name data in
  (r', if decide (n = CODE_OK ∨ n = CODE_OK_WARN) then no_err else handle_err_code n).

(** The answer has a code and lines a client can read. *)
Definition readable (n : Z) (msgs : list str) : Prop := is_code n ∧ msgs ≠ [] ∧ short_lines msgs.

Lemma one_line_app a b : one_line a → one_line b → one_line (a ++ b).
Proof using. unfold one_line. by rewrite Forall_app. Qed.

Lemma write_one_line name len : is_word name → 0 ≤ len → one_line (write_line name len).
Proof using.
  intros [_ Hn] Hl. unfold write_line. apply one_line_app; [apply (bool_decide_unpack _); by vm_compute|].
  apply one_line_app; [by apply word_one_line|]. constructor; [done|]. by apply word_one_line, print_d_is_word.
Qed.

Lemma take_print_d n : 0 ≤ n < 10 ^ 9 → take 9 (print_d n) = print_d n.
Proof using.
  intros Hn. apply take_ge. unfold print_d. rewrite decide_False by lia.
  assert (∀ fuel k n acc, 0 ≤ n < 10 ^ Z.of_nat k → (0 < k)%nat →
    (length (print_digits fuel n acc) ≤ k + length acc)%nat) as H.
  { clear. induction fuel as [|fuel IH]; intros k n acc Hn Hk; cbn [print_digits]; [lia|].
    case_decide; [cbn [length]; lia|]. destruct k as [|k]; [lia|].
    rewrite Nat2Z.inj_succ, Z.pow_succ_r in Hn by lia. destruct k as [|k]; [exfalso; cbn in Hn; rewrite Z.div_small in *; lia|].
    etrans; [apply (IH (S k)); [split; [apply Z.div_pos; lia|apply Z.div_lt_upper_bound; lia]|lia]|]. cbn [length]. lia. }
  specialize (H 10%nat 9%nat n []). cbn [length] in H. rewrite Nat.add_0_r in H. apply H; [simpl; lia|lia].
Qed.

(** A write with the client calls the handler of the router once, with the data
    given to the client, and the client's error code is the one of the answer. *)
Lemma write_call el h data r c : delivers → idle c → is_word (full_name el h) →
  Z.of_nat (length (full_name el h)) < 10 ^ 9 → Z.of_nat (length data) < 10 ^ 9 →
  readable (write_answer ro r (full_name el h) data).1.2 (write_answer ro r (full_name el h) data).2 →
  ∃ c', cs_write control_peer (mkClient (c, r) [] true) el h data =
    (mkClient (c', (write_result r (full_name el h) data).1) [] true, (write_result r (full_name el h) data).2) ∧ idle c'.
Proof using.
  intros Htcp Hc Hw Hname Hdata Hread. set (name := full_name el h) in *.
  set (line := write_line name (Z.of_nat (length data))).
  assert (write_request el h data = line ++ NL :: data) as Hreq.
  { unfold write_request, line, write_line. fold name. rewrite take_print_d; [|split; [apply Nat2Z.is_nonneg|exact Hdata]].
    rewrite <-!app_assoc. done. }
  assert (Z.of_nat (length (line ++ NL :: data)) < 2 ^ 31) as Hlen.
  { rewrite <-Hreq. unfold write_request. fold name. rewrite !length_app. cbn [length]. rewrite length_app, length_take. cbn [length].
    change (length (lit "WRITEDATA ")) with 10%nat. change (10 ^ 9) with 1000000000 in *. change (2 ^ 31) with 2147483648. lia. }
  assert (is_code (write_answer ro r name data).1.2) as Hcode0 by apply Hread.
  destruct (write_answers ro ll r name data Hw Hcode0 Hlen) as (z & Hz & Ha). fold line in Ha.
  destruct (peer_request line data _ r _ z c Htcp (write_one_line _ _ Hw (Nat2Z.is_nonneg _)) Hz (write_waits ro ll r name data Hw Hlen) Ha Hc)
    as (c' & Hpeer & Hidle).
  exists c'. split; [|done]. unfold cs_write, write_result, send. cbn [_init negb cl_peer cl_in]. rewrite Hreq, Hpeer.
  destruct (write_answer ro r name data) as [[r' n] msgs]. cbn [fst snd] in Hread. destruct Hread as (Hn & Hne & Hs). cbn [fst snd cl_in app].
  destruct (answer_code n msgs [] Hn Hne Hs) as (l & Hans & Hcode). rewrite !app_nil_r in Hans. rewrite Hans.
  rewrite decide_False by (by intros []). rewrite Hcode. cbn [rest_of cl_peer _init].
  destruct (decide (n = CODE_OK ∨ n = CODE_OK_WARN)) as [Hor|Hor]; [rewrite decide_False by tauto|rewrite decide_True by tauto]; done.
Qed.

(** ** Reading *)

Definition read_result (r : R) (name : str) : R * err_t * str :=
  let '(r', n, _, d) := read_answer_of r name [] in
  match d with Some data => (r', no_err, data) | None => (r', handle_err_code n, []) end.

Context (chunk : nat → nat).

Lemma read_data_all fuel : ∀ num s buf, (num ≤ length buf + length s)%nat → (num - length buf ≤ fuel)%nat →
  (length buf ≤ num)%nat →
  read_data chunk fuel num s buf = Ok (buf ++ take (num - length buf) s, drop (num - length buf) s).
Proof using.
  induction fuel as [|fuel IH]; intros num s buf Hs Hf Hb; cbn [read_data].
  - rewrite decide_True by lia. replace (num - length buf)%nat with 0%nat by lia. by rewrite take_0, drop_0, app_nil_r.
  - case_decide; [replace (num - length buf)%nat with 0%nat by lia; by rewrite take_0, drop_0, app_nil_r|].
    set (got := take _ s). assert (0 < length got ≤ num - length buf)%nat as Hg by (unfold got; rewrite length_take; lia).
    assert (length got ≤ length s)%nat as Hgs by (unfold got; rewrite length_take; lia).
    rewrite IH by (rewrite ?length_app, ?length_drop; lia). rewrite length_app, drop_drop, <-app_assoc.
    assert (got = take (length got) s) as Hgot by (unfold got at 1 2; rewrite length_take; f_equal; lia).
    replace (num - (length buf + length got))%nat with (num - length buf - length got)%nat by lia.
    rewrite Hgot at 1. rewrite take_take_drop. f_equal. f_equal; f_equal; f_equal; lia.
Qed.

Lemma readline_data n s : 0 ≤ n → readline (lit "DATA " ++ print_d n ++ CRLF ++ s) = (no_err, lit "DATA " ++ print_d n ++ CRLF, s).
Proof using.
  intros Hn. unfold readline. pose proof (print_d_plain n Hn) as Hp.
  replace (lit "DATA " ++ print_d n ++ CRLF ++ s) with ((lit "DATA " ++ print_d n ++ [CR]) ++ NL :: s)
    by (by rewrite <-!app_assoc).
  rewrite readline_whole; [by rewrite <-!app_assoc| |].
  - rewrite !elem_of_app, list_elem_of_singleton. intros [H|[H|H]]; [by apply (bool_decide_eq_true_2 _) in H| |done].
    by apply digits_no_NL in H.
  - rewrite !length_app. cbn [length]. change (length (lit "DATA ")) with 5%nat. unfold MAX_LINE_SZ.
    pose proof (print_d_length n). lia.
Qed.

Lemma read_answer_data r name r' n msgs data : read_answer_of r name [] = (r', n, msgs, Some data) → n = CODE_OK.
Proof using.
  unfold read_answer_of. destruct (lookup_handler r name) as [[[e hname] h]|[n0 msg]]; [|done].
  destruct (negb _); [done|]. destruct (call_read r e hname []) as [r0 [d errh]]. by case_decide; intros [= _ <- _ _].
Qed.

(** A read with the client returns the value the handler gives, or the error of
    the answer. *)
Lemma read_call fuel el h r c : delivers → idle c → is_word (full_name el h) →
  (let '(_, n, msgs, d) := read_answer_of r (full_name el h) [] in
   readable n msgs ∧ (d = None → n ≠ CODE_OK ∧ n ≠ CODE_OK_WARN) ∧ Z.of_nat (length (default [] d)) < 2 ^ 31 ∧
   (length (default [] d) ≤ fuel)%nat) →
  ∃ c', cs_read control_peer chunk fuel (mkClient (c, r) [] true) el h =
    Ok (mkClient (c', (read_result r (full_name el h)).1.1) [] true, (read_result r (full_name el h)).1.2,
        (read_result r (full_name el h)).2) ∧ idle c'.
Proof using.
  intros Htcp Hc Hw. set (name := full_name el h) in *. set (line := read_line name).
  assert (one_line line) as Hline.
  { unfold line, read_line. apply one_line_app; [apply (bool_decide_unpack _); by vm_compute|]. by apply word_one_line, Hw. }
  intros Hread. destruct (read_answers ro ll r name Hw) as (z & Hz & Ha).
  { by destruct (read_answer_of r name []) as [[[? ?] ?] ?], Hread as [[]]. }
  revert Hread. unfold read_result.
  destruct (read_answer_of r name []) as [[[r' n] msgs] d] eqn:Hans. intros ((Hn & Hne & Hs) & Hd & Hlen & Hfuel).
  destruct (peer_request line [] _ r _ z c Htcp Hline Hz ltac:(intros k c0 Hk; cbn in Hk; lia) Ha Hc) as (c' & Hpeer & Hidle).
  exists c'. split; [|done]. unfold cs_read, send. cbn [_init negb cl_peer cl_in].
  replace (lit "READ " ++ full_name el h ++ [NL]) with (line ++ [NL]) by (unfold line, read_line; by rewrite <-app_assoc).
  rewrite Hpeer. cbn [fst snd cl_in app].
  destruct (answer_code n msgs (data_text d) Hn Hne Hs) as (l & Hread & Hcode). rewrite Hread.
  rewrite (decide_False (P := no_err ≠ no_err)) by (by intros []). rewrite Hcode.
  destruct d as [data|]; [|destruct (Hd eq_refl); by rewrite decide_True].
  apply read_answer_data in Hans as ->. rewrite decide_False by (by intros [[] _]). cbn [data_text from_option id] in *.
  rewrite readline_data by lia. rewrite data_len by lia. rewrite decide_False by lia.
  destruct data as [|ch data]; [done|]. rewrite decide_False by (cbn [length]; lia).
  rewrite Nat2Z.id, read_data_all by (done || cbn [length] in *; lia). cbn [length mbind res_bind fst snd app].
  by rewrite Nat.sub_0_r, take_ge, drop_ge.
Qed.

(** ** Sessions *)

Inductive request := Read (el h : str) | Write (el h data : str).

(** The requests of a session, over the connection and on the router itself. *)
Fixpoint session (fuel : nat) (k : ControlSocketClient) (l : list request) : res (ControlSocketClient * list (err_t * str)) :=
  match l with
  | [] => Ok (k, [])
  | Read el h :: l =>
      x ← cs_read control_peer chunk fuel k el h;
      y ← session fuel x.1.1 l; Ok (y.1, (x.1.2, x.2) :: y.2)
  | Write el h data :: l =>
      let x := cs_write control_peer k el h data in
      y ← session fuel x.1 l; Ok (y.1, (x.2, []) :: y.2)
  end.

Fixpoint direct (r : R) (l : list request) : R * list (err_t * str) :=
  match l with
  | [] => (r, [])
  | Read el h :: l =>
      let '(r, e, d) := read_result r (full_name el h) in
      let '(r, results) := direct r l in (r, (e, d) :: results)
  | Write el h data :: l =>
      let '(r, e) := write_result r (full_name el h) data in
      let '(r, results) := direct r l in (r, (e, []) :: results)
  end.

(** A request whose name and data can be sent, and whose answer can be read. *)
Definition request_ok (fuel : nat) (r : R) (q : request) : Prop :=
  match q with
  | Read el h => is_word (full_name el h) ∧
      let '(_, n, msgs, d) := read_answer_of r (full_name el h) [] in
      readable n msgs ∧ (d = None → n ≠ CODE_OK ∧ n ≠ CODE_OK_WARN) ∧ Z.of_nat (length (default [] d)) < 2 ^ 31 ∧
      (length (default [] d) ≤ fuel)%nat
  | Write el h data => is_word (full_name el h) ∧ Z.of_nat (length (full_name el h)) < 10 ^ 9 ∧
      Z.of_nat (length data) < 10 ^ 9 ∧
      readable (write_answer ro r (full_name el h) data).1.2 (write_answer ro r (full_name el h) data).2
  end.

Definition after (r : R) (q : request) : R :=
  match q with
  | Read el h => (read_result r (full_name el h)).1.1
  | Write el h data => (write_result r (full_name el h) data).1
  end.

Fixpoint session_ok (fuel : nat) (r : R) (l : list request) : Prop :=
  match l with
  | [] => True
  | q :: l => request_ok fuel r q ∧ session_ok fuel (after r q) l
  end.

(** C4: a session of reads and writes with the client of csclient.cc, on a
    connection that controlsocket.cc serves, does what the same calls of the
    handlers do on the router itself, in the same order and each of them once,
    and returns their values and errors - however the network splits the bytes
    of the requests and of the answers. *)
Theorem control_session fuel r c l : delivers → idle c → session_ok fuel r l →
  ∃ c', session fuel (mkClient (c, r) [] true) l =
    Ok (mkClient (c', (direct r l).1) [] true, (direct r l).2) ∧ idle c'.
Proof using.
  intros Htcp. revert r c. induction l as [|[el h|el h data] l IH]; intros r c Hc Hok; [by exists c| |].
  - destruct Hok as [[Hw Hq] Hok]. destruct (read_call fuel el h r c Htcp Hc Hw Hq) as (c1 & Hrun & Hc1).
    cbn [session direct after] in *. rewrite Hrun. destruct (read_result r (full_name el h)) as [[r1 e] d].
    destruct (IH r1 c1 Hc1 Hok) as (c2 & Hrun2 & Hc2). exists c2. split; [|done]. cbn [mbind res_bind fst snd].
    rewrite Hrun2. by destruct (direct r1 l).
  - destruct Hok as [(Hw & Hn & Hd & Hq) Hok]. destruct (write_call el h data r c Htcp Hc Hw Hn Hd Hq) as (c1 & Hrun & Hc1).
    cbn [session direct after] in *. rewrite Hrun. destruct (write_result r (full_name el h) data) as [r1 e].
    destruct (IH r1 c1 Hc1 Hok) as (c2 & Hrun2 & Hc2). exists c2. split; [|done]. cbn [mbind res_bind fst snd].
    rewrite Hrun2. by destruct (direct r1 l).
Qed.
End call.

(** *** A router with one register *)

Lemma readable_eval n msgs :
  bool_decide (100 ≤ n ≤ 999 ∧ msgs ≠ [] ∧ Forall (λ m, length (String_printable m) < 1000)%nat msgs) = true → readable n msgs.
Proof. by intros ?%bool_decide_eq_true. Qed.

#[local] Instance register_router : Router str := {
  nelements _ := 1;
  router_find _ name := if decide (name = lit "reg") then Some 0 else None;
  router_handler _ i h := if decide (i = 0 ∧ h = lit "value") then Some (mkHandler true false true false) else None;
  call_read r _ _ _ := (r, (r, mkErrors [] CSERR_OK 0 0));
  call_write _ _ _ data := (data, (0, mkErrors [] CSERR_OK 0 0)) }.

Definition slow_net (s : str) : list (arrival * nat) :=
  [(Bytes (take 3 s), 1%nat); (Nothing, 2%nat); (Bytes (drop 3 s), 7%nat)].

Lemma control_session_witness : ∃ k, session (R := str) false (λ c r _ _, (c, r, 0)) slow_net (λ _, 1%nat) 5
    (mkClient (mkConn [] 0 [] 0 false false, lit "old") [] true)
    [Write (lit "reg") (lit "value") (lit "hello"); Read (lit "reg") (lit "value"); Read (lit "reg") (lit "none")] =
  Ok (k, [(no_err, []); (no_err, lit "hello"); (no_handler, [])]).
Proof.
  destruct (control_session (R := str) false (λ c r _ _, (c, r, 0)) slow_net (λ _, 1%nat) 5 (lit "old") (mkConn [] 0 [] 0 false false)
    [Write (lit "reg") (lit "value") (lit "hello"); Read (lit "reg") (lit "value"); Read (lit "reg") (lit "none")]) as (c' & Hrun & _).
  - intros s. split; [by repeat constructor|]. cbn. by rewrite app_nil_r, take_drop.
  - by split_and!.
  - assert (∀ s, bool_decide (s ≠ [] ∧ Forall (λ c, is_space c = false) s) = true → is_word s) as Hword
      by (by intros s ?%bool_decide_eq_true).
    split; [split_and!; [by apply Hword|by vm_compute|by vm_compute|by apply readable_eval]|].
    split; [split; [by apply Hword|]|split; [split; [by apply Hword|]|done]].
    + split; [by apply readable_eval|]. split; [done|]. split; [by vm_compute|]. vm_compute. lia.
    + split; [by apply readable_eval|]. split; [done|]. split; [by vm_compute|]. vm_compute. lia.
  - eexists. exact Hrun.
Defined.
