(* ===== verification/XIARouter.v ===== *)
(** * XIARouter: the daemons' view of the router (daemons/common/XIARouter.cc)

    The routes of the router, read and changed over the control connection; and
    the routing tables of elements/xia/xiaxidroutetable.cc as the elements that
    connection reaches. *)

From Stdlib Require Import ZArith Lia Ascii String.
From stdpp Require Import base gmap sets list.
From S2P Require Import Prelude Text ConfParse XiaPath XidText XiaPathText RouteTable XRouted ControlSocket ControlClient.

Local Open Scope Z_scope.

Definition XR_OK : Z := 0.
Definition XR_NOT_CONNECTED : Z := -1.
Definition XR_ALREADY_CONNECTED : Z := -2.
Definition XR_CLICK_ERROR : Z := -3.
Definition XR_ROUTER_NOT_SET : Z := -7.
Definition XR_BAD_HOSTNAME : Z := -8.
Definition XR_INVALID_XID : Z := -9.

(** ** The class *)

Section router.
Context {S : Type} (exchange : S → str → S * str) (chunk : nat → nat).
(** [sizeof(std::string)]. *)
Context (sizeof_string : Z).

Record XIARouter := mkXIARouter { _connected : bool; _router : str; _cs : ControlSocketClient (S := S); _cserr : err_t }.

Definition with_cs (x : XIARouter) (k : ControlSocketClient) (e : err_t) : XIARouter :=
  mkXIARouter (_connected x) (_router x) k e.

(** [host_known]: the host name has an address. *)
Definition xr_connect (host_known : bool) (x : XIARouter) : XIARouter * Z :=
  if _connected x then (x, XR_ALREADY_CONNECTED)
  else if negb host_known then (x, XR_BAD_HOSTNAME)
  else
    let '(k, e) := cs_configure (_cs x) in
    if decide (e ≠ no_err) then (with_cs x k e, XR_NOT_CONNECTED)
    else (mkXIARouter true (_router x) k e, XR_OK).

Definition xr_close (x : XIARouter) : XIARouter :=
  if _connected x then let '(k, e) := cs_close (_cs x) in mkXIARouter false (_router x) k e
  else mkXIARouter false (_router x) (_cs x) (_cserr x).

Definition setRouter (x : XIARouter) (r : str) : XIARouter := mkXIARouter (_connected x) r (_cs x) (_cserr x).

Definition version (fuel : nat) (x : XIARouter) : res (XIARouter * Z * str) :=
  if negb (_connected x) then Ok (x, XR_NOT_CONNECTED, [])
  else
    y ← cs_read exchange chunk fuel (_cs x) [] (lit "version");
    let '(k, e, ver) := y in
    Ok (with_cs x k e, if decide (e = no_err) then XR_OK else XR_CLICK_ERROR, ver).

(** The part of a name before [/xrc], if it has it. *)
Fixpoint before_xrc (s : str) : option str :=
  if decide (take 4 s = lit "/xrc") then Some []
  else match s with
       | [] => None
       | c :: s => match before_xrc s with Some a => Some (c :: a) | None => None end
       end.

Definition listRouters (fuel : nat) (x : XIARouter) : res (XIARouter * Z * list str) :=
  if negb (_connected x) then Ok (x, XR_NOT_CONNECTED, [])
  else
    y ← get_config_el_names exchange chunk fuel (_cs x);
    let '(k, e, elements) := y in
    if decide (e ≠ no_err) then Ok (with_cs x k e, XR_CLICK_ERROR, [])
    else Ok (with_cs x k e, 0, omap (M := list) before_xrc elements).

Definition table_name (router xidtype : str) : str := router ++ lit "/xrc/n/proc/rt_" ++ xidtype.

(** One line of a listing.  The positions are 32 bits wide: after a comma that is
    missing the line is read from its start again. *)
Definition parse_route (line : str) : XIARouteEntry :=
  let next := u32 (find_from ","%char line 0) in
  let xid := substr line 0 (u32 (next - 0)) in
  let start := u32 (next + 1) in
  let next := u32 (find_from ","%char line start) in
  let port := u16 (atoi (substr line start (u32 (next - start)))) in
  let start := u32 (next + 1) in
  let next := u32 (find_from ","%char line start) in
  let nextHop := substr line start (u32 (next - start)) in
  let start := u32 (next + 1) in
  let flags := u64 (atoi (substr line start (u64 (Z.of_nat (length line) - start)))) in
  mkXIARoute xid port nextHop flags.

Definition getRoutes (fuel : nat) (x : XIARouter) (xidtype : str) : res (XIARouter * Z * list XIARouteEntry) :=
  if negb (_connected x) then Ok (x, XR_NOT_CONNECTED, [])
  else if decide (xidtype = []) then Ok (x, XR_INVALID_XID, [])
  else if decide (_router x = []) then Ok (x, XR_ROUTER_NOT_SET, [])
  else
    y ← cs_read exchange chunk fuel (_cs x) (table_name (_router x) xidtype) (lit "list");
    let '(k, e, result) := y in
    if decide (e ≠ no_err) then Ok (with_cs x k e, XR_CLICK_ERROR, [])
    else
      let xrt := map parse_route (cs_split result 0 NL) in
      Ok (with_cs x k e, Z.of_nat (length xrt), xrt).

Definition updateRoute (cmd : string) (x : XIARouter) (xid : str) (port : Z) (next : str) (flags : Z) : XIARouter * Z :=
  let n := u32 (find_from ":"%char xid 0) in
  if negb (_connected x) then (x, XR_NOT_CONNECTED)
  else if decide (xid = []) then (x, XR_INVALID_XID)
  else if decide (next ≠ [] ∧ find_from ":"%char next 0 = npos) then (x, XR_INVALID_XID)
  else if decide (n = npos ∨ sizeof_string ≤ n) then (x, XR_INVALID_XID)
  else if decide (_router x = []) then (x, XR_ROUTER_NOT_SET)
  else
    let xidtype := substr xid 0 n in
    let name := if decide (substr xid (n + 1) 1 = ["-"%char]) then ["-"%char] else xid in
    let entry :=
      if decide (cmd = "remove"%string) then name
      else name ++ ","%char :: print_d (i32 port) ++ ","%char :: next ++ ","%char :: print_d (i32 flags) in
    let '(k, e) := cs_write exchange (_cs x) (table_name (_router x) xidtype) (lit cmd) entry in
    (with_cs x k e, if decide (e ≠ no_err) then XR_CLICK_ERROR else XR_OK).

Definition addRoute := updateRoute "add4".
Definition setRoute := updateRoute "set4".
Definition delRoute (x : XIARouter) (xid : str) : XIARouter * Z := updateRoute "remove" x xid 0 [] 0.

(** What the routing daemon does to the router. *)
Definition do_output (x : XIARouter) (o : output) : XIARouter :=
  match o with
  | Broadcast _ => x
  | SetRoute xid port next flags => (setRoute x xid port next flags).1
  | DelRoute xid => (delRoute x xid).1
  end.
End router.
Arguments XIARouter S : clear implicits.

(** ** The routing tables as elements of the router *)

(** The tables, in the order of the configuration. *)
Abbreviation tables := (list (str * XIAXIDRouteTable)).

Section tables.
Context (query_xid : str → option Xid) (query_ip : str → option (list Z)).
(** The order of the hash table. *)
Context (order : gmap Xid XIARouteData → list (Xid * XIARouteData)).
(** The text of an error, and the handlers that read a file or make up routes. *)
Context (complaint : str → str → str).
Context (other_write : XIAXIDRouteTable → str → str → XIAXIDRouteTable * Z).
Context (drops : XIAXIDRouteTable → Z).

(** [add_handlers]. *)
Definition route_handler (h : str) : option Handler :=
  if decide (is_one_of h ["add"; "set"; "add4"; "set4"; "remove"; "load"; "generate"]%string)
  then Some (mkHandler false false true false)
  else if decide (is_one_of h ["drops"; "list"]%string) then Some (mkHandler true false false false)
  else if decide (h = lit "enabled") then Some (mkHandler true false true false)
  else None.

Definition write_table (t : XIAXIDRouteTable) (h data : str) : XIAXIDRouteTable * Z :=
  if decide (h = lit "add") then set_handler query_xid query_ip data true t
  else if decide (h = lit "set") then set_handler query_xid query_ip data false t
  else if decide (h = lit "add4") then set_handler4 query_xid query_ip data true t
  else if decide (h = lit "set4") then set_handler4 query_xid query_ip data false t
  else if decide (h = lit "remove") then remove_handler query_xid query_ip data t
  else if decide (h = lit "enabled") then (set_enabled t (atoi data), 0)
  else other_write t h data.

Definition read_table (t : XIAXIDRouteTable) (h : str) : str :=
  if decide (h = lit "list") then match list_routes (order (_rts t)) t with Ok s => s | Ub _ => [] end
  else if decide (h = lit "enabled") then print_d (_principal_type_enabled t)
  else print_d (drops t).

Definition table_errors (h data : str) (result : Z) : errors :=
  if decide (result < 0) then mkErrors [complaint h data] CSERR_OK 1 0 else mkErrors [] CSERR_OK 0 0.

#[global] Instance tables_router : Router tables := {
  nelements r := Z.of_nat (length r);
  router_find r name := match list_find (λ e, e.1 = name) r with Some (i, _) => Some (Z.of_nat i) | None => None end;
  router_handler r i h := if decide (0 ≤ i < Z.of_nat (length r)) then route_handler h else None;
  call_read r i h _ :=
    match r !! Z.to_nat i with
    | Some (_, t) => (r, (read_table t h, mkErrors [] CSERR_OK 0 0))
    | None => (r, ([], mkErrors [] CSERR_OK 0 0))
    end;
  call_write r i h data :=
    match r !! Z.to_nat i with
    | Some (name, t) =>
        let '(t', result) := write_table t h data in
        (<[Z.to_nat i := (name, t')]> r, (result, table_errors h data result))
    | None => (r, (0, mkErrors [] CSERR_OK 0 0))
    end }.
End tables.
