(* ===== verification/XIARouterSpec.v ===== *)
(** * XIARouterSpec: routes set by a daemon reach the router's tables

    [setRoute] through the control connection changes one entry of one table of
    the router; [getRoutes] returns the entries of a table. *)

From Stdlib Require Import ZArith Lia Ascii String.
From stdpp Require Import base gmap sets list.
From S2P Require Import Prelude Text ConfParse XiaPath XiaPathOrder XiaPathCodec XidText XiaPathText XiaHeader RouteTable RouteTableSpec XRouted ControlSocket ControlClient ControlServe ControlSpec ControlCall XIARouter.

Local Open Scope Z_scope.

(** ** Names *)

(** Characters that are printed as they are and separate nothing. *)
Definition name_char (c : ascii) : Prop := 32 < code c < 127 ∧ c ≠ "."%char.

Lemma name_is_word w : w ≠ [] → Forall (λ c, 32 < code c < 127) w → is_word w.
Proof.
  intros Hne Hw. split; [done|]. eapply Forall_impl; [done|]. intros c Hc. apply bool_decide_false. cbn in Hc. lia.
Qed.

Lemma printable_id w : Forall (λ c, 32 ≤ code c < 127) w → String_printable w = w.
Proof.
  induction 1 as [|c w Hc Hw IH]; [done|]. unfold String_printable. cbn [mbind list_bind]. unfold printable_char at 1.
  rewrite decide_True by done. cbn [app]. f_equal. exact IH.
Qed.

Lemma find_char (c : ascii) (a s : str) : c ∉ a → list_find (λ x, x = c) (a ++ c :: s) = Some (length a, c).
Proof.
  induction a as [|x a IH]; intros Ha; cbn [app list_find]; [by rewrite decide_True|].
  apply not_elem_of_cons in Ha as [Hx Ha]. rewrite decide_False by done. by rewrite IH.
Qed.

Lemma find_from_char (c : ascii) (a s : str) : c ∉ a → find_from c (a ++ c :: s) 0 = Z.of_nat (length a).
Proof. intros Ha. unfold find_from. rewrite drop_0. by rewrite find_char. Qed.

(** The types that have a name. *)
Lemma type_string_facts t : known_word t →
  (length (xid_type_string t) ≤ 5)%nat ∧ Forall name_char (xid_type_string t) ∧ ":"%char ∉ xid_type_string t.
Proof.
  intros Hk. assert (Forall (λ t, (length (xid_type_string t) ≤ 5)%nat ∧ Forall name_char (xid_type_string t) ∧
    ":"%char ∉ xid_type_string t) (map htonl [0; 16; 17; 18; 19; 20])) as H; [|rewrite Forall_forall in H; by apply H].
  clear. repeat (constructor; [split_and!; [vm_compute; lia| |by apply (bool_decide_unpack _); vm_compute]|]); [..|constructor];
    apply (bool_decide_unpack (Forall (λ c, 32 < code c < 127 ∧ c ≠ "."%char) _)); by vm_compute.
Qed.

(** A router's name, as [setRouter] gets it. *)
Definition router_name (rn : str) : Prop := rn ≠ [] ∧ Forall name_char rn ∧ (length rn < 500)%nat.

Lemma table_name_facts rn ty : router_name rn → Forall name_char ty → (length ty ≤ 5)%nat →
  Forall name_char (table_name rn ty) ∧ (1 < length (table_name rn ty) < 600)%nat.
Proof.
  intros (Hne & Hr & Hlen) Ht Hl. unfold table_name. split.
  - apply Forall_app; split; [done|]. apply Forall_app; split; [|done].
    apply (bool_decide_unpack (Forall (λ c, 32 < code c < 127 ∧ c ≠ "."%char) _)). by vm_compute.
  - rewrite !length_app. change (length (lit "/xrc/n/proc/rt_")) with 15%nat. lia.
Qed.

(** ** Listings *)

Lemma cs_split_lines lines : Forall (λ l, NL ∉ l) lines → ∀ fuel, (length lines ≤ fuel)%nat →
  cs_split_loop fuel (lines ≫= λ l, l ++ [NL]) NL = lines.
Proof.
  induction 1 as [|l lines Hl Hls IH]; intros [|fuel] Hf; try done; [cbn in Hf; lia|].
  rewrite bind_cons, <-app_assoc. cbn [app].
  assert (∀ x, cs_split_loop (S fuel) (l ++ NL :: x) NL = l :: cs_split_loop fuel x NL) as ->.
  { intros x. assert (l ++ NL :: x ≠ []) as Hne by (by destruct l).
    unfold cs_split_loop at 1. fold cs_split_loop. rewrite find_char by done. rewrite take_app_length.
    replace (drop (S (length l)) (l ++ NL :: x)) with x by (rewrite drop_app_ge by lia; by replace (S (length l) - length l)%nat with 1%nat by lia).
    by destruct (l ++ NL :: x). }
  rewrite IH; [done|]. cbn in Hf. lia.
Qed.

(** A field of a line after [pre], up to the next comma. *)
Lemma field_at pre a s : ","%char ∉ a → Z.of_nat (length (pre ++ a ++ ","%char :: s)) < 2 ^ 32 - 1 →
  let line := pre ++ a ++ ","%char :: s in
  let start := Z.of_nat (length pre) in
  let next := u32 (find_from ","%char line start) in
  next = Z.of_nat (length pre + length a) ∧ substr line start (u32 (next - start)) = a ∧
  u32 (next + 1) = Z.of_nat (length (pre ++ a ++ [","%char])).
Proof.
  intros Ha Hlen. cbv zeta. unfold find_from. rewrite Nat2Z.id, drop_app_length, find_char by done.
  rewrite !length_app in *. cbn [length] in *. rewrite <-Nat2Z.inj_add.
  assert (∀ z, 0 ≤ z < 2 ^ 32 → u32 z = z) as Hu by (intros; by apply Z.mod_small).
  rewrite (Hu (Z.of_nat (length pre + length a))) by lia. split; [done|]. rewrite !Hu by lia. split; [|lia].
  unfold substr. rewrite Nat2Z.id, drop_app_length. rewrite Z.min_l by (rewrite !length_app; cbn [length]; lia).
  replace (Z.to_nat (Z.of_nat (length pre + length a) - Z.of_nat (length pre))) with (length a) by lia. apply take_app_length.
Qed.

(** A route as [getRoutes] returns it: the port becomes an unsigned short. *)
Definition listed_route (name : str) (d : XIARouteData) : XIARouteEntry :=
  mkXIARoute name (u16 (rt_port d)) (nexthop_text d) (rt_flags d).

Lemma plain_no_comma w : Forall plain w → ","%char ∉ w.
Proof. intros Hw Hin. rewrite Forall_forall in Hw. destruct (Hw _ Hin) as [_ H]. set_solver. Qed.

Lemma atoi_signed n : - 2 ^ 31 < n < 2 ^ 31 → atoi (print_d n) = n.
Proof.
  intros Hn. unfold atoi. destruct (decide (0 ≤ n)); [by rewrite sscanf_d_print by lia|].
  replace n with (- (- n)) at 1 by lia. rewrite print_d_neg by lia.
  pose proof (sscanf_d_print (- n) ltac:(lia)) as Hs. unfold sscanf_d in *. cbn [skip_space].
  change (is_space "-"%char) with false. cbn iota. cbn [scan_sign]. rewrite bool_decide_true by done.
  destruct (print_d_head (- n) ltac:(lia)) as (c & w & Hcs & Hc). rewrite Hcs in *. cbn [skip_space] in Hs.
  assert (is_space c = false) as Hsp by (apply bool_decide_false; lia). rewrite Hsp in Hs. cbn [scan_sign] in Hs.
  rewrite !bool_decide_false in Hs by (intros ->; by destruct Hc as [[] _]).
  destruct (scan_digits 10 0 (c :: w)) as [v b] eqn:Hv. destruct b; [|done]. injection Hs as Hs. cbn [default from_option id].
  assert (v = - n) as ->.
  { change v with (v, true).1. rewrite <-Hv, <-Hcs. unfold print_d. rewrite decide_False by lia. by rewrite print_digits_scan by (simpl; lia). }
  unfold i32. rewrite Z.min_r, Z.max_r by lia. rewrite wrapS_small; simpl; lia.
Qed.

Lemma parse_route_text name d : ","%char ∉ name → (length name ≤ 46)%nat → printable_route d →
  Z.of_nat (length (route_text name d)) < 2 ^ 32 - 1 → parse_route (route_text name d) = listed_route name d.
Proof.
  intros Hname Hnl Hd Hlen. pose proof Hd as (Hp & Hf & _).
  pose proof (plain_no_comma _ (proj2 (word_signed (rt_port d)))) as Hcp. pose proof (plain_no_comma _ (nexthop_plain d Hd)) as Hcn.
  unfold route_text in *. cbn [join] in *.
  set (P := print_d (rt_port d)) in *. set (N := nexthop_text d) in *. set (F := print_d (rt_flags d)) in *.
  destruct (field_at [] name (P ++ ","%char :: N ++ ","%char :: F) Hname Hlen) as (E1 & F1 & S1). cbn [app length] in E1, F1, S1.
  assert (name ++ ","%char :: P ++ ","%char :: N ++ ","%char :: F = (name ++ [","%char]) ++ P ++ ","%char :: N ++ ","%char :: F) as L2
    by (by rewrite <-app_assoc).
  pose proof Hlen as Hlen2. rewrite L2 in Hlen2. destruct (field_at _ P _ Hcp Hlen2) as (E2 & F2 & S2). rewrite <-L2 in E2, F2, S2.
  assert (name ++ ","%char :: P ++ ","%char :: N ++ ","%char :: F = (((name ++ [","%char]) ++ P ++ [","%char])) ++ N ++ ","%char :: F) as L3
    by (by rewrite <-!app_assoc).
  pose proof Hlen as Hlen3. rewrite L3 in Hlen3. destruct (field_at _ N _ Hcn Hlen3) as (E3 & F3 & S3). rewrite <-L3 in E3, F3, S3.
  unfold parse_route. set (line := name ++ _) in *. cbv zeta. change (Z.of_nat 0) with 0 in *.
  rewrite F1, S1, F2, S2, F3, S3. unfold listed_route. unfold P. rewrite atoi_signed by done. f_equal.
  assert (substr line (Z.of_nat (length (((name ++ [","%char]) ++ P ++ [","%char]) ++ N ++ [","%char])))
    (u64 (Z.of_nat (length line) - Z.of_nat (length (((name ++ [","%char]) ++ P ++ [","%char]) ++ N ++ [","%char])))) = F) as Hsub.
  { assert (line = (((name ++ [","%char]) ++ P ++ [","%char]) ++ N ++ [","%char]) ++ F) as L4 by (unfold line; by rewrite <-!app_assoc).
    set (pre := ((name ++ _) ++ _) ++ _) in *. unfold substr. rewrite Nat2Z.id, L4, drop_app_length, length_app.
    apply take_ge. rewrite L4, length_app in Hlen. unfold u64, wrapU. rewrite Z.mod_small by lia. lia. }
  fold P. rewrite Hsub. unfold F. rewrite atoi_signed by lia. apply Z.mod_small. lia.
Qed.

(** ** Calls *)

Section calls.
Context (qx : str → option Xid) (qi : str → option (list Z)).
Context (Hqx : ∀ s, qx s = None) (Hqi : ∀ s, qi s = None).
Context (order : gmap Xid XIARouteData → list (Xid * XIARouteData)).
Context (complaint : str → str → str).
Context (other_write : XIAXIDRouteTable → str → str → XIAXIDRouteTable * Z).
Context (drops : XIAXIDRouteTable → Z).
Context (ll : connection → tables → str → str → connection * tables * Z).
Context (tcp : str → list (arrival * nat)) (Hdel : delivers tcp).
Context (sizeof_string : Z) (Hsize : 8 ≤ sizeof_string) (chunk : nat → nat).

#[local] Instance the_router : Router tables := tables_router qx qi order complaint other_write drops.
Abbreviation peer := (control_peer (router := the_router) false ll tcp).

(** A router object that is connected, with nothing under way. *)
Definition connected_to (rn : str) (ts : tables) (x : XIARouter (connection * tables)) : Prop :=
  ∃ c e, x = mkXIARouter true rn (mkClient (c, ts) [] true) e ∧ idle c.

Lemma find_table (ts : tables) i name t : NoDup ts.*1 → ts !! i = Some (name, t) →
  list_find (λ e, e.1 = name) ts = Some (i, (name, t)).
Proof using.
  intros Hnd Hi. apply list_find_Some. split; [done|]. split; [done|]. intros j [n' t'] Hj Hlt Heq. cbn in Heq. subst n'.
  assert (i = j); [|lia]. apply (NoDup_lookup ts.*1 i j name Hnd); rewrite list_lookup_fmap; [by rewrite Hi|by rewrite Hj].
Qed.

(** The handler of a table that a name stands for. *)
Lemma lookup_table ts i name t h hd : NoDup ts.*1 → ts !! i = Some (name, t) → "."%char ∉ name → (1 < length name)%nat →
  route_handler h = Some hd → visible hd = true →
  lookup_handler (router := the_router) ts (full_name name h) = inl (Z.of_nat i, h, hd).
Proof using.
  intros Hnd Hi Hdot Hlen Hh Hv. unfold lookup_handler, parse_handler, full_name.
  rewrite (decide_False (P := name = [])) by (by intros ->; cbn in Hlen; lia).
  assert (canonical_handler_name (name ++ "."%char :: h) = name ++ "."%char :: h) as ->.
  { unfold canonical_handler_name. rewrite find_char by done. rewrite decide_False; [done|]. lia. }
  rewrite find_char by done. rewrite take_app_length. cbn [router_find the_router tables_router].
  rewrite (find_table ts i name t Hnd Hi). cbn [mbind res_bind router_handler the_router tables_router].
  replace (S (length name)) with (length name + 1)%nat by lia. rewrite <-drop_drop, drop_app_length. cbn [drop].
  rewrite (decide_True (P := 0 ≤ Z.of_nat i < Z.of_nat (length ts))) by (apply lookup_lt_Some in Hi; lia). by rewrite drop_0, Hh, Hv.
Qed.

(** A write that the table accepts. *)
Lemma write_accepted ts i name t t' h data : NoDup ts.*1 → ts !! i = Some (name, t) → "."%char ∉ name → (1 < length name)%nat →
  route_handler h = Some (mkHandler false false true false) →
  write_table qx qi other_write t h data = (t', 0) →
  write_answer (router := the_router) false ts (full_name name h) data =
    (<[i := (name, t')]> ts, CSERR_OK, [quoted (lit "Write handler ") (full_name name h) (lit " OK")]).
Proof using.
  intros Hnd Hi Hdot Hlen Hh Hw. unfold write_answer. erewrite lookup_table by done. cbn [h_write negb].
  cbn [call_write the_router tables_router]. by rewrite Nat2Z.id, Hi, Hw.
Qed.

Lemma quoted_short pre name post : Forall (λ c, 32 ≤ code c < 127) pre → Forall (λ c, 32 ≤ code c < 127) post →
  Forall (λ c, 32 < code c < 127) name → (length pre + length name + length post < 900)%nat →
  (length (String_printable (quoted pre name post)) < 1000)%nat.
Proof using.
  intros Hp Hq Hn Hl. unfold quoted. rewrite printable_id.
  - rewrite length_app. cbn [length]. rewrite length_app. cbn [length]. lia.
  - rewrite Forall_app, Forall_cons, Forall_app, Forall_cons. split_and!; try done.
    eapply Forall_impl; [done|]. cbn. lia.
Qed.

(** Writing to a table over the connection. *)
Lemma table_write rn ts i t t' ty h data c : router_name rn → Forall name_char ty → (length ty ≤ 5)%nat →
  NoDup ts.*1 → ts !! i = Some (table_name rn ty, t) → h = lit "set4" ∨ h = lit "add4" ∨ h = lit "remove" →
  write_table qx qi other_write t h data = (t', 0) → Z.of_nat (length data) < 10 ^ 9 → idle c →
  ∃ c', cs_write peer (mkClient (c, ts) [] true) (table_name rn ty) h data =
    (mkClient (c', <[i := (table_name rn ty, t')]> ts) [] true, no_err) ∧ idle c'.
Proof using Hdel.
  intros Hrn Hty Htl Hnd Hi Hh Hw Hd Hc. destruct (table_name_facts rn ty Hrn Hty Htl) as [Hf Hl]. set (name := table_name rn ty) in *.
  assert ("."%char ∉ name) as Hdot by (intros Hin; rewrite Forall_forall in Hf; by apply (Hf _ Hin)).
  assert (Forall (λ c, 32 < code c < 127) name) as Hf' by (eapply Forall_impl; [exact Hf|by intros ? []]).
  assert (route_handler h = Some (mkHandler false false true false) ∧ Forall (λ c, 32 < code c < 127) h ∧ (length h ≤ 6)%nat)
    as (Hhd & Hhc & Hhl).
  { destruct Hh as [->|[->| ->]]; (split; [done|]); (split; [apply (bool_decide_unpack _); by vm_compute|vm_compute; lia]). }
  assert (Forall (λ c, 32 < code c < 127) (full_name name h)) as Hfull.
  { unfold full_name. case_decide; [done|]. rewrite Forall_app, Forall_cons. by split_and!. }
  assert (length (full_name name h) < 650)%nat as Hfl.
  { unfold full_name. case_decide; [lia|]. rewrite length_app. cbn [length]. lia. }
  pose proof (write_accepted ts i name t t' h data Hnd Hi Hdot ltac:(lia) Hhd Hw) as Ha.
  destruct (write_call false ll tcp name h data ts c Hdel Hc) as (c' & Hrun & Hidle).
  - apply name_is_word; [|done]. unfold full_name. case_decide as Hnil; [rewrite Hnil in Hl; cbn in Hl; lia|by intros [_ ?]%app_nil].
  - lia.
  - done.
  - rewrite Ha. split; [done|]. split; [done|]. constructor; [|constructor].
    apply quoted_short; [apply (bool_decide_unpack _); by vm_compute..|done|].
    change (length (lit "Write handler ")) with 14%nat. change (length (lit " OK")) with 3%nat. lia.
  - exists c'. split; [|done]. rewrite Hrun. unfold write_result. by rewrite Ha.
Qed.

(** Reading the listing of a table over the connection. *)
Lemma table_read rn ts i ty t text c fuel : router_name rn → Forall name_char ty → (length ty ≤ 5)%nat →
  NoDup ts.*1 → ts !! i = Some (table_name rn ty, t) → read_table order drops t (lit "list") = text →
  Z.of_nat (length text) < 2 ^ 31 → (length text ≤ fuel)%nat → idle c →
  ∃ c', cs_read peer chunk fuel (mkClient (c, ts) [] true) (table_name rn ty) (lit "list") =
    Ok (mkClient (c', ts) [] true, no_err, text) ∧ idle c'.
Proof using Hdel.
  intros Hrn Hty Htl Hnd Hi Hread Htext Hfuel Hc. destruct (table_name_facts rn ty Hrn Hty Htl) as [Hf Hl]. set (name := table_name rn ty) in *.
  assert ("."%char ∉ name) as Hdot by (intros Hin; rewrite Forall_forall in Hf; by apply (Hf _ Hin)).
  assert (Forall (λ c, 32 < code c < 127) name) as Hf' by (eapply Forall_impl; [exact Hf|by intros ? []]).
  assert (full_name name (lit "list") = name ++ lit ".list") as Hfull.
  { unfold full_name. case_decide as Hnil; [|done]. rewrite Hnil in Hl. cbn in Hl. lia. }
  assert (Forall (λ c, 32 < code c < 127) (name ++ lit ".list")) as Hchars.
  { apply Forall_app; split; [done|]. apply (bool_decide_unpack _). by vm_compute. }
  assert (read_answer_of (router := the_router) ts (full_name name (lit "list")) [] =
    (ts, CSERR_OK, [quoted (lit "Read handler ") (name ++ lit ".list") (lit " OK")], Some text)) as Ha.
  { unfold read_answer_of. erewrite lookup_table; [|done|done|done|lia|done|done]. cbn [read_visible h_read h_read_private negb andb].
    cbn [call_read the_router tables_router]. rewrite Nat2Z.id, Hi, Hread, Hfull. done. }
  destruct (read_call false ll tcp chunk fuel name (lit "list") ts c Hdel Hc) as (c' & Hrun & Hidle).
  - rewrite Hfull. apply name_is_word; [by destruct name|done].
  - rewrite Ha. split; [|done]. split; [done|]. split; [done|]. constructor; [|constructor].
    apply quoted_short; [apply (bool_decide_unpack _); by vm_compute..|done|]. rewrite length_app.
    change (length (lit "Read handler ")) with 13%nat. change (length (lit " OK")) with 3%nat. change (length (lit ".list")) with 5%nat. lia.
  - exists c'. split; [|done]. rewrite Hrun. unfold read_result. by rewrite Ha.
Qed.

(** ** [updateRoute] *)

(** The XID of a route as [updateRoute] takes it apart. *)
Lemma xid_word_parts x : printable x → ∃ d s, xid_word x = xid_type_string (xid_type x) ++ ":"%char :: d :: s ∧ d ≠ "-"%char.
Proof using.
  intros (Hk & Hl & Hb). unfold xid_word. destruct (xid_id x) as [|b id]; [done|]. apply Forall_cons in Hb as [Hb _].
  eexists _, _. split; [cbn; reflexivity|]. intros Heq.
  pose proof (print_02x_plain b Hb) as Hp. unfold print_02x in Hp. apply Forall_cons in Hp as [Hp _]. rewrite Heq in Hp.
  by vm_compute in Hp; destruct_or?; destruct_and?.
Qed.

Lemma split_xid x : printable x → let n := u32 (find_from ":"%char (xid_word x) 0) in
  n = Z.of_nat (length (xid_type_string (xid_type x))) ∧ substr (xid_word x) 0 n = xid_type_string (xid_type x) ∧
  substr (xid_word x) (n + 1) 1 ≠ ["-"%char].
Proof using.
  intros Hx. destruct (xid_word_parts x Hx) as (d & s & Hw & Hd). destruct (type_string_facts (xid_type x)) as (Hl & _ & Hc); [apply Hx|].
  rewrite Hw, find_from_char by done. cbv zeta. set (ty := xid_type_string _) in *.
  assert (u32 (Z.of_nat (length ty)) = Z.of_nat (length ty)) as Hu by (apply Z.mod_small; lia). rewrite Hu.
  split; [done|]. unfold substr. split.
  - rewrite Z.min_l by (rewrite length_app; lia). by rewrite drop_0, Nat2Z.id, take_app_length.
  - replace (Z.to_nat (Z.of_nat (length ty) + 1)) with (length ty + 1)%nat by lia.
    rewrite <-drop_drop, drop_app_length. cbn [drop]. rewrite Z.min_l by (rewrite length_app; cbn [length]; lia).
    change (Z.to_nat 1) with 1%nat. cbn [take]. congruence.
Qed.

Lemma next_has_colon d : printable_route d → ¬ (nexthop_text d ≠ [] ∧ find_from ":"%char (nexthop_text d) 0 = npos).
Proof using.
  intros (_ & _ & Hn) [Hne Hnp]. unfold nexthop_text in *. destruct (rt_nexthop d) as [y|]; [|done].
  destruct (Hn y eq_refl) as [Hy _]. destruct (type_string_facts (xid_type y)) as (Hl & _ & Hc); [apply Hy|].
  unfold xid_word in Hnp. rewrite find_from_char in Hnp by done. unfold npos in Hnp. lia.
Qed.

Lemma entry_text name d : printable_route d →
  name ++ ","%char :: print_d (i32 (rt_port d)) ++ ","%char :: nexthop_text d ++ ","%char :: print_d (i32 (rt_flags d)) =
  route_text name d.
Proof using.
  intros (Hp & Hf & _). unfold route_text, i32. rewrite !wrapS_small by (simpl; lia). by cbn [join].
Qed.

Lemma xid_word_length x : printable x → (length (xid_word x) ≤ 46)%nat.
Proof using.
  intros (Hk & Hl & _). destruct (type_string_facts (xid_type x) Hk) as (Ht & _ & _). unfold xid_word.
  rewrite length_app. cbn [length]. rewrite length_hex, Hl. lia.
Qed.

Lemma route_text_length name d : (length name ≤ 46)%nat → printable_route d → (length (route_text name d) ≤ 120)%nat.
Proof using.
  intros Hx (_ & _ & Hn). unfold route_text. cbn [join]. rewrite !length_app. cbn [length]. rewrite !length_app. cbn [length].
  rewrite !length_app. cbn [length]. pose proof (print_d_length (rt_port d)). pose proof (print_d_length (rt_flags d)).
  assert (length (nexthop_text d) ≤ 46)%nat; [|lia]. unfold nexthop_text. destruct (rt_nexthop d) as [y|]; [|cbn; lia].
  apply xid_word_length, Hn. done.
Qed.

Lemma route_text_short name d : (length name ≤ 46)%nat → printable_route d → Z.of_nat (length (route_text name d)) < 10 ^ 9.
Proof using. intros Hn Hd. pose proof (route_text_length name d Hn Hd). lia. Qed.

(** How [updateRoute] takes an XID apart: the type and the name of the entry. *)
Definition xid_splits (xid ty name : str) : Prop :=
  let n := u32 (find_from ":"%char xid 0) in
  n = Z.of_nat (length ty) ∧ substr xid 0 n = ty ∧ (if decide (substr xid (n + 1) 1 = ["-"%char]) then ["-"%char] else xid) = name.

Lemma set_step rn ts i t t' xid ty name d o : router_name rn → NoDup ts.*1 →
  xid ≠ [] → xid_splits xid ty name → Forall name_char ty → (length ty ≤ 5)%nat → (length name ≤ 46)%nat → printable_route d →
  ts !! i = Some (table_name rn ty, t) → set_handler4 qx qi (route_text name d) false t = (t', 0) → connected_to rn ts o →
  ∃ o', setRoute peer sizeof_string o xid (rt_port d) (nexthop_text d) (rt_flags d) = (o', XR_OK) ∧
    connected_to rn (<[i := (table_name rn ty, t')]> ts) o'.
Proof using Hdel Hsize.
  intros Hrn Hnd Hne (Hn & Hty & Hname) Hch Hl Hnl Hd Hi Hset (c & e & -> & Hc).
  destruct (table_write rn ts i t t' ty (lit "set4") (route_text name d) c Hrn Hch Hl Hnd Hi)
    as (c' & Hrun & Hidle); [by left| |by apply route_text_short|done|].
  { unfold write_table. rewrite !(decide_False (P := lit "set4" = _)) by done. by rewrite decide_True. }
  unfold setRoute, updateRoute. cbn [_connected negb _router _cs]. rewrite Hn in *.
  rewrite decide_False by done. rewrite decide_False by (by apply next_has_colon).
  rewrite (decide_False (P := _ ∨ _)) by (unfold npos; lia). rewrite decide_False by apply Hrn.
  rewrite Hty, Hname. rewrite (decide_False (P := "set4"%string = _)) by done.
  rewrite entry_text by done. rewrite Hrun. eexists. split; [done|]. by exists c', no_err.
Qed.

(** A route that is set is in the table of its type, and nothing else changes. *)
Lemma set_route_step rn ts i t x d o : router_name rn → NoDup ts.*1 → printable x → printable_route d →
  ts !! i = Some (table_name rn (xid_type_string (xid_type x)), t) → connected_to rn ts o →
  ∃ o', setRoute peer sizeof_string o (xid_word x) (rt_port d) (nexthop_text d) (rt_flags d) = (o', XR_OK) ∧
    connected_to rn (<[i := (table_name rn (xid_type_string (xid_type x)), with_rts t (<[x := d]> (_rts t)))]> ts) o'.
Proof using Hqx Hqi Hdel Hsize.
  intros Hrn Hnd Hx Hd Hi Ho. destruct (split_xid x Hx) as (Hn & Hty & Hdash). cbv zeta in *.
  destruct (type_string_facts (xid_type x)) as (Hl & Hch & _); [apply Hx|].
  apply (set_step rn ts i t _ (xid_word x) _ (xid_word x) d o Hrn Hnd); try done;
    [by apply (xid_word_ok x)| |by apply xid_word_length|by rewrite set_route_text].
  split; [done|]. split; [done|]. by rewrite decide_False.
Qed.

(** The default routes. *)
Lemma set_default_step rn ts i t d o ty : ty ∈ [lit "AD"; lit "HID"; lit "IP"] → router_name rn → NoDup ts.*1 → printable_route d →
  ts !! i = Some (table_name rn ty, t) → connected_to rn ts o →
  ∃ o', setRoute peer sizeof_string o (ty ++ lit ":-") (rt_port d) (nexthop_text d) (rt_flags d) = (o', XR_OK) ∧
    connected_to rn (<[i := (table_name rn ty, with_default t d)]> ts) o'.
Proof using Hqx Hqi Hdel Hsize.
  intros Hty Hrn Hnd Hd Hi Ho. eapply (set_step rn ts i t _ _ ty (lit "-")); try done.
  - by destruct ty.
  - repeat (apply elem_of_cons in Hty as [->|Hty]; [by vm_compute|]). by apply elem_of_nil in Hty.
  - repeat (apply elem_of_cons in Hty as [->|Hty];
      [by apply (bool_decide_unpack (Forall (λ c, 32 < code c < 127 ∧ c ≠ "."%char) _)); vm_compute|]). by apply elem_of_nil in Hty.
  - repeat (apply elem_of_cons in Hty as [->|Hty]; [vm_compute; lia|]). by apply elem_of_nil in Hty.
  - vm_compute. lia.
  - by apply set_default_text.
Qed.

(** A route that is removed. *)
Lemma remove_route_step rn ts i t x o : router_name rn → NoDup ts.*1 → printable x → is_Some (_rts t !! x) →
  ts !! i = Some (table_name rn (xid_type_string (xid_type x)), t) → connected_to rn ts o →
  ∃ o', delRoute peer sizeof_string o (xid_word x) = (o', XR_OK) ∧
    connected_to rn (<[i := (table_name rn (xid_type_string (xid_type x)), with_rts t (delete x (_rts t)))]> ts) o'.
Proof using Hqx Hqi Hdel Hsize.
  intros Hrn Hnd Hx [d Hd] Hi (c & e & -> & Hc). destruct (split_xid x Hx) as (Hn & Hty & Hdash). cbv zeta in *.
  destruct (type_string_facts (xid_type x)) as (Hl & Hch & _); [apply Hx|]. destruct (xid_word_ok x Hx) as [Hne _].
  destruct (table_write rn ts i t (with_rts t (delete x (_rts t))) (xid_type_string (xid_type x)) (lit "remove") (xid_word x) c
    Hrn Hch Hl Hnd Hi) as (c' & Hrun & Hidle); [by right; right| |pose proof (xid_word_length x Hx); lia|done|].
  { unfold write_table. rewrite !(decide_False (P := lit "remove" = _)) by done. rewrite decide_True by done.
    unfold remove_handler. rewrite decide_False by done. rewrite decide_False by apply xid_word_not_dash.
    rewrite (parse_printable qx qi Hqx Hqi x Hx). by rewrite Hd. }
  unfold delRoute, updateRoute. cbn [_connected negb _router _cs]. rewrite Hn in *.
  rewrite decide_False by done. rewrite decide_False by (by intros [? _]).
  rewrite (decide_False (P := _ ∨ _)) by (unfold npos; lia). rewrite decide_False by apply Hrn.
  rewrite Hty. rewrite (decide_False (P := substr _ _ _ = _)) by done. rewrite (decide_True (P := "remove"%string = _)) by done.
  rewrite Hrun. eexists. split; [done|]. by exists c', no_err.
Qed.

(** ** [getRoutes] *)

Context (Horder : ∀ m, order m ≡ₚ map_to_list m).

(** The routes of a table that can be listed. *)
Definition listable (t : XIAXIDRouteTable) : Prop :=
  printable_route (_rtdata t) ∧ ∀ x d, _rts t !! x = Some d → printable x ∧ printable_route d.

Definition listing_lines (t : XIAXIDRouteTable) : list str :=
  route_text ["-"%char] (_rtdata t) :: map (λ e, route_text (xid_word e.1) e.2) (order (_rts t)).

Lemma listable_order t : listable t → Forall (λ e, printable e.1 ∧ printable_route e.2) (order (_rts t)).
Proof using Horder.
  intros [_ Hl]. apply Forall_forall. intros [x d] Hin. rewrite Horder, elem_of_map_to_list in Hin. by apply Hl.
Qed.

Lemma dash_plain : Forall plain ["-"%char].
Proof using. constructor; [apply plain_minus|constructor]. Qed.

Lemma listing_facts t : listable t →
  Forall (λ l, NL ∉ l ∧ (length l ≤ 120)%nat) (listing_lines t) ∧
  map parse_route (listing_lines t) =
    listed_route ["-"%char] (_rtdata t) :: map (λ e, listed_route (xid_word e.1) e.2) (order (_rts t)).
Proof using Horder.
  intros Hl. pose proof (listable_order t Hl) as Ho. destruct Hl as [Hd _].
  assert (∀ name d, Forall plain name → (length name ≤ 46)%nat → printable_route d →
    (NL ∉ route_text name d ∧ (length (route_text name d) ≤ 120)%nat) ∧ parse_route (route_text name d) = listed_route name d) as Hone.
  { intros name d Hp Hn Hr. pose proof (route_text_short name d Hn Hr) as Hs.
    split; [split; [by apply route_text_no_NL|by apply route_text_length]|].
    apply parse_route_text; [by apply plain_no_comma|done|done|lia]. }
  destruct (Hone ["-"%char] (_rtdata t) dash_plain ltac:(cbn; lia) Hd) as [H1 H2]. unfold listing_lines. split.
  - constructor; [done|]. apply Forall_map. eapply Forall_impl; [done|]. intros [x d] [Hx Hr].
    apply (Hone (xid_word x) d); [by apply xid_word_ok|by apply xid_word_length|done].
  - cbn [map]. rewrite H2. f_equal. rewrite map_map. apply map_ext_in. intros [x d] Hin%list_elem_of_In.
    rewrite Forall_forall in Ho. destruct (Ho _ Hin) as [Hx Hr].
    apply (Hone (xid_word x) d); [by apply xid_word_ok|by apply xid_word_length|done].
Qed.

Lemma lines_length (lines : list str) : Forall (λ l, NL ∉ l ∧ (length l ≤ 120)%nat) lines →
  (length lines ≤ length (lines ≫= λ l, l ++ [NL]) ≤ 121 * length lines)%nat.
Proof using.
  induction 1 as [|l lines [_ Hl] Hls IH]; [cbn; lia|]. rewrite bind_cons, !length_app. cbn [length]. lia.
Qed.

(** The listing, read over the connection. *)
Lemma get_routes_step rn ts i ty t o fuel : router_name rn → ty ≠ [] → Forall name_char ty → (length ty ≤ 5)%nat →
  NoDup ts.*1 → ts !! i = Some (table_name rn ty, t) → listable t → Z.of_nat (size (_rts t)) < 10 ^ 6 →
  (121 * S (size (_rts t)) ≤ fuel)%nat → connected_to rn ts o →
  ∃ o', getRoutes peer chunk fuel o ty =
    Ok (o', Z.of_nat (S (size (_rts t))),
        listed_route ["-"%char] (_rtdata t) :: map (λ e, listed_route (xid_word e.1) e.2) (order (_rts t))) ∧
    connected_to rn ts o'.
Proof using Hdel Horder.
  intros Hrn Htne Hty Htl Hnd Hi Hl Hbound Hfuel (c & e & -> & Hc).
  destruct (listing_facts t Hl) as [Hlines Hparse].
  assert (length (order (_rts t)) = size (_rts t)) as Hlen by (by rewrite Horder, length_map_to_list).
  assert (length (listing_lines t) = S (size (_rts t))) as Hcount by (unfold listing_lines; cbn; by rewrite length_map, Hlen).
  pose proof (lines_length _ Hlines) as Htext. rewrite Hcount in Htext. set (text := listing_lines t ≫= _) in *.
  destruct (table_read rn ts i ty t text c fuel Hrn Hty Htl Hnd Hi) as (c' & Hrun & Hidle); [|lia|lia|done|].
  { unfold read_table. rewrite decide_True by done. rewrite list_routes_lines; [done|by apply listable_order|apply Hl]. }
  unfold getRoutes. cbn [_connected negb _router _cs]. rewrite decide_False by done. rewrite decide_False by apply Hrn.
  rewrite Hrun. cbn [mbind res_bind]. rewrite decide_False by (by intros []). unfold cs_split. rewrite drop_0.
  assert (cs_split_loop (length text) text NL = listing_lines t) as ->
    by (apply cs_split_lines; [eapply Forall_impl; [exact Hlines|by intros ? []]|lia]).
  rewrite length_map, Hcount, Hparse. eexists. split; [done|]. by exists c', no_err.
Qed.

(** C36: [getRoutes] returns the routes of a table: the default route first, then
    every route of the table once, each with its XID, its next hop and its
    flags, and with its port as an unsigned short. *)
Theorem routes_read_back rn ts i ty t o fuel : router_name rn → ty ≠ [] → Forall name_char ty → (length ty ≤ 5)%nat →
  NoDup ts.*1 → ts !! i = Some (table_name rn ty, t) → listable t → Z.of_nat (size (_rts t)) < 10 ^ 6 →
  (121 * S (size (_rts t)) ≤ fuel)%nat → connected_to rn ts o →
  ∃ o', getRoutes peer chunk fuel o ty =
    Ok (o', Z.of_nat (S (size (_rts t))),
        listed_route ["-"%char] (_rtdata t) :: map (λ e, listed_route (xid_word e.1) e.2) (order (_rts t))) ∧
    connected_to rn ts o'.
Proof using Hdel Horder. apply get_routes_step. Qed.
End calls.

(** A host that is this one has port -2; the daemons see 65534. *)
Definition local_table : XIAXIDRouteTable := with_rts empty_table {[xid_a := mkRoute DESTINED_FOR_LOCALHOST 0 None]}.

Lemma routes_read_back_witness : ∃ o', getRoutes (control_peer (router := tables_router (λ _, None) (λ _, None) map_to_list
      (λ _ _, []) (λ t _ _, (t, 0)) (λ _, 0)) false (λ c r _ _, (c, r, 0)) (λ s, [(Bytes s, 7%nat)])) (λ _, 3%nat) 300
    (mkXIARouter true (lit "router0") (mkClient (mkConn [] 0 [] 0 false false,
      [(table_name (lit "router0") (lit "AD"), local_table)]) [] true) no_err) (lit "AD") =
  Ok (o', 2, [mkXIARoute (lit "-") 65535 [] 0; mkXIARoute (xid_word xid_a) 65534 [] 0]).
Proof.
  destruct (routes_read_back (λ _, None) (λ _, None) map_to_list (λ _ _, []) (λ t _ _, (t, 0)) (λ _, 0)
    (λ c r _ _, (c, r, 0)) (λ s, [(Bytes s, 7%nat)]) ltac:(intros s; split; [by repeat constructor|cbn; apply app_nil_r])
    (λ _, 3%nat) ltac:(done) (lit "router0") [(table_name (lit "router0") (lit "AD"), local_table)] 0 (lit "AD") local_table
    (mkXIARouter true (lit "router0") (mkClient (mkConn [] 0 [] 0 false false,
      [(table_name (lit "router0") (lit "AD"), local_table)]) [] true) no_err) 300) as (o' & Hrun & _).
  - split; [done|]. split; [|vm_compute; lia].
    apply (bool_decide_unpack (Forall (λ c, 32 < code c < 127 ∧ c ≠ "."%char) _)). by vm_compute.
  - done.
  - apply (bool_decide_unpack (Forall (λ c, 32 < code c < 127 ∧ c ≠ "."%char) _)). by vm_compute.
  - vm_compute. lia.
  - by apply (bool_decide_unpack _); vm_compute.
  - done.
  - split; [by split_and!|]. intros x d Hx. unfold local_table, with_rts, _rts in Hx.
    apply lookup_singleton_Some in Hx as [<- <-]. split; [apply printable_demo|]. by split_and!.
  - by vm_compute.
  - vm_compute. lia.
  - eexists _, _. split; [done|]. by split_and!.
  - exists o'. exact Hrun.
Defined.
