(* ===== verification/RoutesInstalled.v ===== *)
(** * RoutesInstalled: from link-state messages to the forwarding tables

    The routing daemon, the router object, the control connection, and the
    routing tables of the router composed: the shortest paths the daemon
    computes are the routes the router forwards by. *)

From Stdlib Require Import ZArith Lia Ascii String.
From stdpp Require Import base gmap sets list strings sorting relations.
From S2P Require Import Prelude Text ConfParse XiaPath XiaPathOrder XiaPathCodec XidText XiaPathText XiaHeader RouteTable RouteTableSpec StdMap XRouted XRoutedPath ControlSocket ControlClient ControlServe ControlSpec ControlCall XIARouter XIARouterSpec.

Local Open Scope Z_scope.

(** ** Names that are XIDs *)

Definition ad_name (k : str) (x : Xid) : Prop :=
  printable x ∧ xid_type x = htonl CLICK_XIA_XID_TYPE_AD ∧ k = xid_word x.
Definition hop_name (k : str) (y : Xid) : Prop := printable y ∧ xid_valid y = true ∧ k = xid_word y.

(** The nodes of the network are ADs, and the neighbours have HIDs. *)
Record names_ok (s : RouteState) : Prop := {
  nk_node k : is_Some (networkTable s !! k) → ∃ x, ad_name k x;
  nk_hop u nb : neighborTable s !! u = Some nb → - 2 ^ 31 < nb_port nb < 2 ^ 31 ∧ ∃ y, hop_name (nb_HID nb) y }.

(** What the router is to have for an entry of the daemon's table. *)
Definition entry_for (e : str * RouteEntry) (x y : Xid) : Prop :=
  ad_name e.1 x ∧ re_dest e.2 = e.1 ∧ hop_name (re_nextHop e.2) y ∧ - 2 ^ 31 < re_port e.2 < 2 ^ 31.
Definition route_for (e : str * RouteEntry) (y : Xid) : XIARouteData := mkRoute (re_port e.2) 65535 (Some y).

Section install.
Context (qx : str → option Xid) (qi : str → option (list Z)).
Context (Hqx : ∀ s, qx s = None) (Hqi : ∀ s, qi s = None).
Context (order : gmap Xid XIARouteData → list (Xid * XIARouteData)).
Context (complaint : str → str → str).
Context (other_write : XIAXIDRouteTable → str → str → XIAXIDRouteTable * Z).
Context (drops : XIAXIDRouteTable → Z).
Context (ll : connection → tables → str → str → connection * tables * Z).
Context (tcp : str → list (arrival * nat)) (Hdel : delivers tcp).
Context (sizeof_string : Z) (Hsize : 8 ≤ sizeof_string).
Abbreviation peer := (control_peer (router := tables_router qx qi order complaint other_write drops) false ll tcp).
Context (rn : str) (Hrn : router_name rn).

Lemma xid_word_inj x x' : printable x → printable x' → xid_word x = xid_word x' → x = x'.
Proof using Hqx Hqi.
  intros Hx Hx' Heq. pose proof (parse_printable qx qi Hqx Hqi x Hx) as H1. rewrite Heq in H1.
  rewrite (parse_printable qx qi Hqx Hqi x' Hx') in H1. congruence.
Qed.

Lemma route_for_printable e x y : entry_for e x y → printable_route (route_for e y).
Proof using.
  intros (_ & _ & (Hy & Hv & _) & Hp). split; [done|]. split; [cbn; lia|]. by intros z [= <-].
Qed.

(** The tables for ADs and for IP addresses, at their places. *)
Definition has_tables (ts : tables) (i j : nat) (t : XIAXIDRouteTable) : Prop :=
  NoDup ts.*1 ∧ ts !! i = Some (table_name rn (lit "AD"), t) ∧ ∃ t', ts !! j = Some (table_name rn (lit "IP"), t').

Lemma names_insert (ts : tables) i name t t' : ts !! i = Some (name, t) → (<[i := (name, t')]> ts).*1 = ts.*1.
Proof using. intros Hi. rewrite list_fmap_insert. apply list_insert_id. by rewrite list_lookup_fmap, Hi. Qed.

Lemma has_tables_ne ts i j t : has_tables ts i j t → i ≠ j.
Proof using.
  intros (_ & Hi & t' & Hj) ->. rewrite Hi in Hj. injection Hj as Hn _. unfold table_name in Hn.
  by apply app_inv_head, app_inv_head in Hn.
Qed.

(** One entry of the daemon's table. *)
Lemma install_route ts i j t e x y o : has_tables ts i j t → entry_for e x y → connected_to rn ts o →
  ∃ ts', connected_to rn ts' (setRoute peer sizeof_string o (re_dest e.2) (re_port e.2) (re_nextHop e.2) 65535).1 ∧
    has_tables ts' i j (with_rts t (<[x := route_for e y]> (_rts t))).
Proof using Hqx Hqi Hdel Hsize Hrn.
  intros Ht He Ho. pose proof (has_tables_ne _ _ _ _ Ht) as Hij. destruct Ht as (Hnd & Hi & t' & Hj).
  pose proof (route_for_printable e x y He) as Hd. destruct He as ((Hx & Hty & Hk) & Hdest & (Hy & _ & Hnext) & _).
  assert (xid_type_string (xid_type x) = lit "AD") as Hs by (rewrite Hty; by vm_compute).
  destruct (set_route_step qx qi Hqx Hqi order complaint other_write drops ll tcp Hdel sizeof_string Hsize rn ts i t x (route_for e y) o
    Hrn Hnd Hx Hd ltac:(by rewrite Hs) Ho) as (o' & Hrun & Ho').
  change (setRoute peer sizeof_string o (xid_word x) (re_port e.2) (xid_word y) 65535 = (o', XR_OK)) in Hrun.
  rewrite Hdest, Hk, Hnext, Hrun. eexists. split; [exact Ho'|]. rewrite Hs. split; [by erewrite names_insert|].
  split; [apply list_lookup_insert_eq; by eapply lookup_lt_Some|]. exists t'. by rewrite list_lookup_insert_ne.
Qed.

(** The default route for IP addresses leaves the table for ADs alone. *)
Lemma install_default ts i j t e x y o : has_tables ts i j t → entry_for e x y → connected_to rn ts o →
  ∃ ts', connected_to rn ts' (setRoute peer sizeof_string o (lit "IP:-") (re_port e.2) (re_nextHop e.2) 65535).1 ∧
    has_tables ts' i j t.
Proof using Hqx Hqi Hdel Hsize Hrn.
  intros Ht He Ho. pose proof (has_tables_ne _ _ _ _ Ht) as Hij. destruct Ht as (Hnd & Hi & t' & Hj).
  pose proof (route_for_printable e x y He) as Hd. destruct He as (_ & _ & (Hy & _ & Hnext) & _).
  destruct (set_default_step qx qi Hqx Hqi order complaint other_write drops ll tcp Hdel sizeof_string Hsize rn ts j t' (route_for e y) o
    (lit "IP") ltac:(set_solver) Hrn Hnd Hd Hj Ho) as (o' & Hrun & Ho').
  change (setRoute peer sizeof_string o (lit "IP:-") (re_port e.2) (xid_word y) 65535 = (o', XR_OK)) in Hrun.
  rewrite Hnext, Hrun. eexists. split; [exact Ho'|]. split; [by erewrite names_insert|].
  split; [by rewrite list_lookup_insert_ne|]. eexists. apply list_lookup_insert_eq. by eapply lookup_lt_Some.
Qed.

Definition outputs_for (s : RouteState) (e : str * RouteEntry) : list output :=
  let r := e.2 in
  SetRoute (re_dest r) (re_port r) (re_nextHop r) 65535 ::
  (if decide (dual_router s = 0 ∧ re_dest r = dual_router_AD s)
   then [SetRoute (lit "IP:-") (re_port r) (re_nextHop r) 65535] else []).

Lemma install_entry s ts i j t e x y o : has_tables ts i j t → entry_for e x y → connected_to rn ts o →
  ∃ ts', connected_to rn ts' (foldl (do_output peer sizeof_string) o (outputs_for s e)) ∧
    has_tables ts' i j (with_rts t (<[x := route_for e y]> (_rts t))).
Proof using Hqx Hqi Hdel Hsize Hrn.
  intros Ht He Ho. destruct (install_route ts i j t e x y o Ht He Ho) as (ts1 & Ho1 & Ht1).
  unfold outputs_for. cbv zeta. cbn [foldl do_output]. case_decide; cbn [foldl do_output]; [|by exists ts1].
  by eapply install_default.
Qed.

Lemma install_all s l : Forall (λ e, ∃ x y, entry_for e x y) l → NoDup l.*1 → ∀ ts i j t o,
  has_tables ts i j t → connected_to rn ts o →
  ∃ ts' t', connected_to rn ts' (foldl (do_output peer sizeof_string) o (l ≫= outputs_for s)) ∧ has_tables ts' i j t' ∧
    (∀ e x y, e ∈ l → entry_for e x y → _rts t' !! x = Some (route_for e y)) ∧
    (∀ x, printable x → xid_word x ∉ l.*1 → _rts t' !! x = _rts t !! x).
Proof using Hqx Hqi Hdel Hsize Hrn.
  induction 1 as [|e l (x & y & He) Hl IH]; intros Hnd ts i j t o Ht Ho.
  { exists ts, t. split; [done|]. split; [done|]. split; [set_solver|done]. }
  apply NoDup_cons in Hnd as [Hnot Hnd]. rewrite bind_cons, foldl_app.
  destruct (install_entry s ts i j t e x y o Ht He Ho) as (ts1 & Ho1 & Ht1).
  destruct (IH Hnd ts1 i j _ _ Ht1 Ho1) as (ts2 & t2 & Ho2 & Ht2 & Hin & Hout).
  assert (printable x ∧ e.1 = xid_word x) as [Hx Hk] by (destruct He as ((? & _ & ?) & _); done).
  exists ts2, t2. split; [done|]. split; [done|]. split.
  - intros e' x' y' [->|He']%elem_of_cons Hfor; [|by apply Hin].
    assert (x' = x ∧ y' = y) as [-> ->].
    { destruct He as (_ & _ & (Hy & _ & Hn) & _), Hfor as ((Hx' & _ & Hk') & _ & (Hy' & _ & Hn') & _).
      split; apply xid_word_inj; congruence. }
    rewrite Hout; [apply lookup_insert_eq|done|]. by rewrite <-Hk.
  - intros x' Hx' [Hne Hx'l]%not_elem_of_cons. rewrite Hout by done. cbn. apply lookup_insert_ne. congruence.
Qed.

(** The entries of the daemon's table after the computation. *)
Lemma computed_entries s s' : names_ok s →
  (∀ k, is_Some (networkTable s !! k) → ∃ n, distance (networkTable s) (myAD s) n k) →
  (∀ v, networkTable s !! v = None → ADrouteTable s' !! v = None) →
  (∀ v n, distance (networkTable s) (myAD s) n v → routed (myAD s) (networkTable s) (neighborTable s) (ADrouteTable s') v n) →
  Forall (λ e, ∃ x y, entry_for e x y) (entries (ADrouteTable s')).
Proof using.
  intros Hnames Hreach Hnone Hrouted. apply Forall_forall. intros [k e] Hin%elem_of_entries.
  destruct (networkTable s !! k) as [node|] eqn:Hk; [|by rewrite Hnone in Hin].
  destruct (nk_node s Hnames k ltac:(by eexists)) as [x Hx]. destruct (Hreach k ltac:(by eexists)) as [d Hd].
  specialize (Hrouted k d Hd). unfold routed in Hrouted.
  case_decide; [|by rewrite Hrouted in Hin]. destruct Hrouted as (u & nb & _ & _ & Hnb & He). rewrite He in Hin. injection Hin as <-.
  destruct (nk_hop s Hnames u nb Hnb) as [Hp [y Hy]]. exists x, y. split; [done|]. split; [done|]. by split.
Qed.

(** C3: the routes the router forwards by are shortest paths.  When the daemon
    has a complete view of a network of ADs, it computes its routes and sets
    them through the control connection; afterwards the router's table for ADs
    has, for every AD within [MAX_HOP_COUNT] hops, the port and the HID of a
    neighbour on a shortest path - whatever the table held before, and however
    the network splits the bytes of the control connection. *)
Theorem shortest_routes_installed s ts i j t o : names_ok s → network_ok (myAD s) (networkTable s) →
  (∀ u, edge (networkTable s) (myAD s) u → is_Some (neighborTable s !! u)) →
  (∀ k, is_Some (networkTable s !! k) → ∃ n, nsteps (edge (networkTable s)) n (myAD s) k) →
  has_tables ts i j t → connected_to rn ts o →
  ∃ s' ts' t', calcShortestPath s = Ok s' ∧
    connected_to rn ts' (foldl (do_output peer sizeof_string) o (updateClickRoutingTable s')) ∧ has_tables ts' i j t' ∧
    ∀ x n, printable x → distance (networkTable s) (myAD s) n (xid_word x) → xid_word x ≠ myAD s → (n ≤ MAX_HOP_COUNT)%nat →
      ∃ u nb y, edge (networkTable s) (myAD s) u ∧ nsteps (edge (networkTable s)) (n - 1) u (xid_word x) ∧
        neighborTable s !! u = Some nb ∧ hop_name (nb_HID nb) y ∧
        _rts t' !! x = Some (mkRoute (nb_port nb) 65535 (Some y)).
Proof using Hqx Hqi Hdel Hsize Hrn.
  intros Hnames Hok Hnb Hreach Ht Ho. destruct (calcShortestPath_routes s Hok Hnb Hreach) as (s' & Hrun & _ & _ & Hnone & Hdist & Hd).
  pose proof (computed_entries s s' Hnames Hdist Hnone (λ v n H, proj2 (Hd v n H))) as He.
  destruct (install_all s' (entries (ADrouteTable s')) He (entries_NoDup _) ts i j t o Ht Ho) as (ts' & t' & Ho' & Ht' & Hin & _).
  exists s', ts', t'. split; [done|]. split; [exact Ho'|]. split; [done|]. intros x n Hx Hxn Hne Hhops.
  destruct (Hd _ _ Hxn) as [_ Hr]. unfold routed in Hr. rewrite decide_True in Hr by done.
  destruct Hr as (u & nb & Hu & Hpath & Hn & Hroute). destruct (nk_hop s Hnames u nb Hn) as [Hp [y Hy]].
  exists u, nb, y. split_and!; try done. apply elem_of_entries in Hroute.
  rewrite Forall_forall in He. destruct (He _ Hroute) as (x' & y' & Hfor).
  assert (x' = x) as -> by (destruct Hfor as ((Hx' & _ & Hk) & _); symmetry; by apply xid_word_inj).
  assert (y' = y) as ->.
  { destruct Hfor as (_ & _ & (Hy' & _ & Hk) & _), Hy as (Hy & _ & Hk'). cbn in Hk. apply xid_word_inj; congruence. }
  by rewrite (Hin _ _ _ Hroute Hfor).
Qed.
End install.

(** *** Two routers *)

Definition xid_of (type b : Z) : Xid := mkXid (htonl type) (replicate 20 b).
Definition ad_a : Xid := xid_of CLICK_XIA_XID_TYPE_AD 1.
Definition ad_b : Xid := xid_of CLICK_XIA_XID_TYPE_AD 2.
Definition hid_b : Xid := xid_of CLICK_XIA_XID_TYPE_HID 3.

Lemma xid_of_printable type b : type ∈ [16; 17] → is_byte b → printable (xid_of type b).
Proof.
  intros Ht Hb. split; [|split; [done|by apply Forall_replicate]]. unfold known_word.
  rewrite !elem_of_cons in Ht. destruct Ht as [->|[->|[]%elem_of_nil]]; by (apply (bool_decide_unpack _); vm_compute).
Qed.

Lemma pair_printable : printable ad_a ∧ printable ad_b ∧ printable hid_b.
Proof. split_and!; apply xid_of_printable; (left || (right; left) || (unfold is_byte; lia)). Qed.

Definition pair_network : network :=
  {[xid_word ad_a := mkNodeState (xid_word ad_a) 1 1 [xid_word ad_b] false 0 [];
    xid_word ad_b := mkNodeState (xid_word ad_b) 1 1 [xid_word ad_a] false 0 [] ]}.
Definition pair_state : RouteState :=
  mkState (xid_word ad_a) (lit "HID:a") 0 (xid_word ad_b) 1 0 0 3 0 ∅
    {[xid_word ad_b := mkNeighbor (xid_word ad_b) (xid_word hid_b) 1 2]} pair_network.
Definition pair_tables : tables :=
  [(table_name (lit "router0") (lit "AD"), empty_table); (table_name (lit "router0") (lit "IP"), empty_table)].

Lemma pair_cases k e : pair_network !! k = Some e →
  k = xid_word ad_a ∧ ns_neighbor_list e = [xid_word ad_b] ∧ ns_dest e = k ∧ ns_num_neighbors e = 1 ∨
  k = xid_word ad_b ∧ ns_neighbor_list e = [xid_word ad_a] ∧ ns_dest e = k ∧ ns_num_neighbors e = 1.
Proof.
  unfold pair_network. intros [[<- <-]|[_ [<- <-]%lookup_singleton_Some]]%lookup_insert_Some; [by left|by right].
Qed.

Lemma pair_network_ok : network_ok (xid_word ad_a) pair_network.
Proof.
  split.
  - intros k e He. destruct (pair_cases k e He); by destruct_and?.
  - by vm_compute.
  - intros k e He. destruct (pair_cases k e He); destruct_and?; lia.
  - intros k e w He Hw. destruct (pair_cases k e He) as [(_ & Hl & _)|(_ & Hl & _)]; rewrite Hl in Hw;
      apply list_elem_of_singleton in Hw; subst w; by eexists.
  - by eexists.
  - intros (e & He & Hin). destruct (pair_cases _ _ He) as [(_ & Hl & _)|(Hk & _)]; [|by vm_compute in Hk].
    rewrite Hl in Hin. apply list_elem_of_singleton in Hin. by vm_compute in Hin.
  - by vm_compute.
Qed.

Lemma pair_edge : edge pair_network (xid_word ad_a) (xid_word ad_b).
Proof. eexists. split; [by vm_compute|]. by left. Qed.

Lemma pair_neighbor u nb : neighborTable pair_state !! u = Some nb → nb = mkNeighbor (xid_word ad_b) (xid_word hid_b) 1 2.
Proof. intros Hn. unfold pair_state, neighborTable in Hn. by apply lookup_singleton_Some in Hn as [_ <-]. Qed.

Lemma pair_names : names_ok pair_state.
Proof.
  split.
  - intros k [e He]. destruct (pair_cases k e He) as [(-> & _)|(-> & _)]; [exists ad_a|exists ad_b];
      (split; [apply pair_printable|split; reflexivity]).
  - intros u nb ->%pair_neighbor. split; [cbn; lia|]. exists hid_b.
    split; [apply pair_printable|split; reflexivity].
Qed.

Abbreviation pair_peer := (control_peer (router := tables_router (λ _, None) (λ _, None) map_to_list (λ _ _, [])
  (λ t _ _, (t, 0)) (λ _, 0)) false (λ c r _ _, (c, r, 0)) (λ s, [(Bytes s, 100%nat)])).

Lemma shortest_routes_installed_witness : ∃ s' ts' t' y, calcShortestPath pair_state = Ok s' ∧
  connected_to (lit "router0") ts' (foldl (do_output pair_peer 32)
    (mkXIARouter true (lit "router0") (mkClient (mkConn [] 0 [] 0 false false, pair_tables) [] true) no_err)
    (updateClickRoutingTable s')) ∧
  ts' !! 0%nat = Some (table_name (lit "router0") (lit "AD"), t') ∧
  _rts t' !! ad_b = Some (mkRoute 2 65535 (Some y)) ∧ xid_word y = xid_word hid_b.
Proof.
  destruct (shortest_routes_installed (λ _, None) (λ _, None) ltac:(done) ltac:(done) map_to_list (λ _ _, [])
    (λ t _ _, (t, 0)) (λ _, 0) (λ c r _ _, (c, r, 0)) (λ s, [(Bytes s, 100%nat)])
    ltac:(intros s; split; [by repeat constructor|cbn; apply app_nil_r]) 32 ltac:(lia) (lit "router0")
    ltac:(split; [done|split; [apply (bool_decide_unpack (Forall (λ c, 32 < code c < 127 ∧ c ≠ "."%char) _)); by vm_compute|vm_compute; lia]])
    pair_state pair_tables 0 1 empty_table
    (mkXIARouter true (lit "router0") (mkClient (mkConn [] 0 [] 0 false false, pair_tables) [] true) no_err))
    as (s' & ts' & t' & Hrun & Hconn & (_ & Ht & _) & Hroutes).
  - exact pair_names.
  - exact pair_network_ok.
  - intros u (e & He & Hin). destruct (pair_cases _ _ He) as [(_ & Hl & _)|(Hk & _)]; [|by vm_compute in Hk].
    rewrite Hl in Hin. apply list_elem_of_singleton in Hin. subst u. by eexists.
  - intros k [e He]. destruct (pair_cases k e He) as [(-> & _)|(-> & _)]; [exists 0%nat; constructor|].
    exists 1%nat. apply nsteps_once, pair_edge.
  - split; [by apply (bool_decide_unpack _); vm_compute|]. split; [done|]. by eexists.
  - eexists _, _. split; [done|]. by split_and!.
  - destruct (Hroutes ad_b 1%nat) as (u & nb & y & _ & _ & Hnb & (_ & _ & Hy) & Hlook).
    + apply pair_printable.
    + split; [apply nsteps_once, pair_edge|]. intros [|j] Hj; [|lia]. by inversion Hj.
    + done.
    + unfold MAX_HOP_COUNT. lia.
    + apply pair_neighbor in Hnb as ->. exists s', ts', t', y. split_and!; [done|exact Hconn|done|done|by rewrite <-Hy].
Defined.
