(* ===== verification/Xcache.v ===== *)
(** * The Xcache content cache (src/xcache)

    [XcacheMeta], [XcacheSlice], the eviction policies, the content stores, the
    store manager and [XcacheController], with heap-allocated metas and slices
    that the controller, the slices and the stores share by pointer. *)

From stdpp Require Import base gmap sets list strings.
From Stdlib Require Import ZArith Lia.
From S2P Require Import Prelude.

Local Open Scope Z_scope.

(** ** The command message (proto/xcache_cmd.proto) *)

Inductive requestType : Set :=
  | XCACHE_STORE | XCACHE_NEWSLICE | XCACHE_GETCHUNK | XCACHE_TIMEOUT
  | XCACHE_CLEAR | XCACHE_RESPONSE | XCACHE_ERROR | XCACHE_STATUS.

#[global] Instance requestType_eq_dec : EqDecision requestType.
Proof. solve_decision. Defined.

Record XcacheCommand := mkCmd {
  f_cmd : option requestType;
  f_contextId : option Z;
  f_cid : option string;
  f_dag : option string;
  f_data : option string;
  f_ttl : option Z;
  f_cacheSize : option Z;
  f_cachePolicy : option Z }.

(** An unset optional field reads as its type's default value. *)
Definition contextid (c : XcacheCommand) : Z := default 0 (f_contextId c).
Definition cid (c : XcacheCommand) : string := default EmptyString (f_cid c).
Definition data (c : XcacheCommand) : string := default EmptyString (f_data c).
Definition ttl (c : XcacheCommand) : Z := default 0 (f_ttl c).
Definition cachesize (c : XcacheCommand) : Z := default 0 (f_cacheSize c).

Definition empty_command : XcacheCommand :=
  mkCmd None None None None None None None None.

(** [resp->set_cmd(t); resp->set_contextid(i)] *)
Definition set_response (t : requestType) (i : Z) (r : XcacheCommand) : XcacheCommand :=
  mkCmd (Some t) (Some i) (f_cid r) (f_dag r) (f_data r) (f_ttl r)
    (f_cacheSize r) (f_cachePolicy r).

(** ** Objects *)

(** [XcacheMeta] (include/meta.h): [len] is a [uint64_t] that no constructor sets,
    [refCount] a [uint32_t], [sliceMap] maps a context id, read as [uint32_t], to
    a slice. *)
Record XcacheMeta := mkMeta {
  refCount : Z;
  len : option Z;
  m_sliceMap : gmap Z nat;
  m_store : option nat;
  m_cid : string }.

(** The policy classes. *)
Inductive XcachePolicy : Set := BasePolicy | FifoPolicy.

(** [XcacheSlice] (include/slice.h). [policy] is a member of class type, not a
    pointer. *)
Record XcacheSlice := mkSlice {
  s_metaMap : gmap string nat;
  maxSize : Z;
  currentSize : Z;
  contextID : Z;
  s_ttl : Z;
  policy : XcachePolicy }.

(** The content stores: the base class and [MemHt]. *)
Inductive XcacheContentStore : Type :=
  | BaseStore
  | MemHt (memht : gmap nat string).

(** Calls out of the process, in order. *)
Inductive io_event : Set :=
  | EvXsocket
  | EvXconnect (sock : Z).

(** What a command finds around it: the memory that [new] returns for the field
    [len] of a meta, and the result of [Xsocket].  [new_len] is [None] by the
    rules of the language, which leave the use of an indeterminate value
    undefined, and [Some n] on a machine on which the field then reads as [n]. *)
Record surroundings := mkEnv {
  new_len : option Z;
  xsocket : Z }.

(** The process: the heaps, the controller's maps and its store manager's
    vector, and the file-scope counter [context_id]. *)
Record Xcache := mkXcache {
  metaHeap : gmap nat XcacheMeta;
  sliceHeap : gmap nat XcacheSlice;
  storeHeap : gmap nat XcacheContentStore;
  nextPtr : nat;
  metaMap : gmap string nat;
  sliceMap : gmap Z nat;
  storeVector : list nat;
  context_id : Z;
  io : list io_event }.

Definition with_metaHeap (h : gmap nat XcacheMeta) (x : Xcache) : Xcache :=
  mkXcache h (sliceHeap x) (storeHeap x) (nextPtr x) (metaMap x) (sliceMap x)
    (storeVector x) (context_id x) (io x).
Definition with_sliceHeap (h : gmap nat XcacheSlice) (x : Xcache) : Xcache :=
  mkXcache (metaHeap x) h (storeHeap x) (nextPtr x) (metaMap x) (sliceMap x)
    (storeVector x) (context_id x) (io x).
Definition with_storeHeap (h : gmap nat XcacheContentStore) (x : Xcache) : Xcache :=
  mkXcache (metaHeap x) (sliceHeap x) h (nextPtr x) (metaMap x) (sliceMap x)
    (storeVector x) (context_id x) (io x).
Definition with_io (l : list io_event) (x : Xcache) : Xcache :=
  mkXcache (metaHeap x) (sliceHeap x) (storeHeap x) (nextPtr x) (metaMap x) (sliceMap x)
    (storeVector x) (context_id x) l.

(** ** Policies (include/policy.h, policies/fifo.h) *)

Definition XcachePolicy_store (p : XcachePolicy) (meta : nat) : Z :=
  match p with BasePolicy => 0 | FifoPolicy => 1 end.
Definition XcachePolicy_get (p : XcachePolicy) (meta : nat) : Z :=
  match p with BasePolicy => 0 | FifoPolicy => 1 end.
Definition XcachePolicy_remove (p : XcachePolicy) (meta : nat) : Z :=
  match p with BasePolicy => 0 | FifoPolicy => 1 end.
Definition XcachePolicy_evict (p : XcachePolicy) : option nat :=
  match p with BasePolicy => None | FifoPolicy => None end.

(** [policy = fifo] on a member of type [XcachePolicy]: the derived object is
    sliced, the member keeps its own class. *)
Definition XcachePolicy_assign (dst src : XcachePolicy) : XcachePolicy := dst.

(** ** Content stores (include/store.h, stores/memht.h) *)

Definition XcacheContentStore_store (s : XcacheContentStore) (meta : nat) (d : string)
    : XcacheContentStore * Z :=
  match s with
  | BaseStore => (BaseStore, 0)
  | MemHt ht => (MemHt (<[meta := d]> ht), 0)
  end.

(** [memht[meta]] inserts an empty string for an absent key.  The base class
    builds a [std::string] from [NULL]. *)
Definition XcacheContentStore_get (s : XcacheContentStore) (meta : nat) : res (XcacheContentStore * string) :=
  match s with
  | BaseStore => Ub NullDeref
  | MemHt ht =>
      match ht !! meta with
      | Some d => Ok (s, d)
      | None => Ok (MemHt (<[meta := EmptyString]> ht), EmptyString)
      end
  end.

(** ** Metadata (src/meta.cc, include/meta.h) *)

(** The constructor leaves [len] as it is in the memory. *)
Definition XcacheMeta_new (e : surroundings) (c : XcacheCommand) : XcacheMeta := mkMeta 0 (new_len e) ∅ None (cid c).

Definition XcacheMeta_ref (m : XcacheMeta) : XcacheMeta :=
  mkMeta (u32 (refCount m + 1)) (len m) (m_sliceMap m) (m_store m) (m_cid m).
Definition XcacheMeta_deref (m : XcacheMeta) : XcacheMeta :=
  mkMeta (u32 (refCount m - 1)) (len m) (m_sliceMap m) (m_store m) (m_cid m).
Definition XcacheMeta_setStore (s : nat) (m : XcacheMeta) : XcacheMeta :=
  mkMeta (refCount m) (len m) (m_sliceMap m) (Some s) (m_cid m).
Definition XcacheMeta_setLength (l : Z) (m : XcacheMeta) : XcacheMeta :=
  mkMeta (refCount m) (Some (u64 l)) (m_sliceMap m) (m_store m) (m_cid m).
Definition XcacheMeta_getLength (m : XcacheMeta) : res Z := init (len m).

Definition XcacheMeta_addedToSlice (slice : nat) (ctx : Z) (m : XcacheMeta) : XcacheMeta :=
  let m := XcacheMeta_ref m in
  mkMeta (refCount m) (len m) (<[u32 ctx := slice]> (m_sliceMap m)) (m_store m) (m_cid m).

Definition XcacheMeta_removedFromSlice (m : XcacheMeta) : XcacheMeta := XcacheMeta_deref m.

(** [store->get(this)], also the body of [status]. *)
Definition XcacheMeta_get (x : Xcache) (p : nat) : res (Xcache * string) :=
  m ← deref (metaHeap x) (Some p);
  s ← deref (storeHeap x) (m_store m);
  sd ← XcacheContentStore_get s p;
  match m_store m with
  | Some q => Ok (with_storeHeap (<[q := sd.1]> (storeHeap x)) x, sd.2)
  | None => Ub NullDeref
  end.

Definition XcacheMeta_status (x : Xcache) (p : nat) : res Xcache :=
  xd ← XcacheMeta_get x p; Ok xd.1.

(** ** Slices (src/slice.cc) *)

(** The constructor: the FIFO policy is assigned to the [policy] member. *)
Definition XcacheSlice_new (ctx : Z) : XcacheSlice :=
  mkSlice ∅ 0 0 ctx 0 (XcachePolicy_assign BasePolicy FifoPolicy).

Definition XcacheSlice_setTtl (t : Z) (s : XcacheSlice) : XcacheSlice :=
  mkSlice (s_metaMap s) (maxSize s) (currentSize s) (contextID s) (u32 t) (policy s).
Definition XcacheSlice_setSize (n : Z) (s : XcacheSlice) : XcacheSlice :=
  mkSlice (s_metaMap s) (u64 n) (currentSize s) (contextID s) (s_ttl s) (policy s).
Definition XcacheSlice_setPolicy (p : XcachePolicy) (s : XcacheSlice) : XcacheSlice :=
  mkSlice (s_metaMap s) (maxSize s) (currentSize s) (contextID s) (s_ttl s)
    (XcachePolicy_assign (policy s) p).

Definition with_s_metaMap (mm : gmap string nat) (s : XcacheSlice) : XcacheSlice :=
  mkSlice mm (maxSize s) (currentSize s) (contextID s) (s_ttl s) (policy s).

Definition XcacheSlice_addMeta (x : Xcache) (this meta : nat) : res Xcache :=
  m ← deref (metaHeap x) (Some meta);
  s ← deref (sliceHeap x) (Some this);
  let x := with_sliceHeap
             (<[this := with_s_metaMap (<[m_cid m := meta]> (s_metaMap s)) s]> (sliceHeap x)) x in
  Ok (with_metaHeap
        (<[meta := XcacheMeta_addedToSlice this (contextID s) m]> (metaHeap x)) x).

(** [maxSize - currentSize] is computed in [uint64_t]. *)
Definition XcacheSlice_hasRoom (s : XcacheSlice) (m : XcacheMeta) : res bool :=
  l ← XcacheMeta_getLength m;
  Ok (bool_decide (l ≤ u64 (maxSize s - currentSize s))).

(** [metaMap.erase(iter)] needs an iterator other than [end()]. *)
Definition XcacheSlice_removeMeta (x : Xcache) (this : nat) (meta : option nat) : res Xcache :=
  m ← deref (metaHeap x) meta;
  s ← deref (sliceHeap x) (Some this);
  match meta, s_metaMap s !! m_cid m with
  | Some p, Some _ =>
      let x := with_sliceHeap
                 (<[this := with_s_metaMap (delete (m_cid m) (s_metaMap s)) s]> (sliceHeap x)) x in
      Ok (with_metaHeap (<[p := XcacheMeta_removedFromSlice m]> (metaHeap x)) x)
  | _, _ => Ub IterInvalid
  end.

(** [while(!hasRoom(meta)) { ... }], at most [fuel] rounds. *)
Fixpoint XcacheSlice_makeRoom (fuel : nat) (x : Xcache) (this meta : nat) : res Xcache :=
  match fuel with
  | O => Ub OutOfFuel
  | S fuel =>
      m ← deref (metaHeap x) (Some meta);
      s ← deref (sliceHeap x) (Some this);
      room ← XcacheSlice_hasRoom s m;
      if (room : bool) then Ok x
      else
        x ← XcacheSlice_removeMeta x this (XcachePolicy_evict (policy s));
        XcacheSlice_makeRoom fuel x this meta
  end.

Arguments XcacheSlice_makeRoom : simpl never.

Definition XcacheSlice_alreadyHasMeta (s : XcacheSlice) (m : XcacheMeta) : bool :=
  match s_metaMap s !! m_cid m with Some _ => true | None => false end.

(** The eviction loop runs at most twice around: no policy ever names a victim. *)
Definition evict_fuel : nat := 2.

Definition XcacheSlice_store (x : Xcache) (this meta : nat) : res (Xcache * Z) :=
  m ← deref (metaHeap x) (Some meta);
  s ← deref (sliceHeap x) (Some this);
  if XcacheSlice_alreadyHasMeta s m then Ok (x, -1)
  else
    x ← XcacheSlice_makeRoom evict_fuel x this meta;
    x ← XcacheSlice_addMeta x this meta;
    Ok (x, XcachePolicy_store (policy s) meta).

Definition XcacheSlice_search (x : Xcache) (this : nat) (c : XcacheCommand)
    : res (Xcache * string) :=
  s ← deref (sliceHeap x) (Some this);
  match s_metaMap s !! cid c with
  | Some p => XcacheMeta_get x p
  | None => Ok (x, EmptyString)
  end.

(** [status] walks the metas of the slice. *)
Fixpoint status_metas (x : Xcache) (ps : list nat) : res Xcache :=
  match ps with
  | [] => Ok x
  | p :: ps => x ← XcacheMeta_status x p; status_metas x ps
  end.

Definition XcacheSlice_status (x : Xcache) (this : nat) : res Xcache :=
  s ← deref (sliceHeap x) (Some this);
  status_metas x ((map_to_list (s_metaMap s)).*2).

(** ** The store manager (src/store_manager.cc) *)

Fixpoint store_loop (x : Xcache) (stores : list nat) (meta : nat) (d : string) (ret : Z)
    : res (Xcache * Z) :=
  match stores with
  | [] => Ok (x, ret)
  | q :: stores =>
      s ← deref (storeHeap x) (Some q);
      let sr := XcacheContentStore_store s meta d in
      let x := with_storeHeap (<[q := sr.1]> (storeHeap x)) x in
      if bool_decide (0 ≤ sr.2)
      then
        m ← deref (metaHeap x) (Some meta);
        Ok (with_metaHeap (<[meta := XcacheMeta_setStore q m]> (metaHeap x)) x, sr.2)
      else store_loop x stores meta d sr.2
  end.

Definition XcacheStoreManager_store (x : Xcache) (meta : nat) (d : string) : res (Xcache * Z) :=
  store_loop x (storeVector x) meta d (-1).

(** ** The controller (src/controller.cc) *)

Definition OK_SEND_RESPONSE : Z := 1.
Definition OK_NO_RESPONSE : Z := 0.

(** The state after construction: the store manager holds one [MemHt]. *)
Definition XcacheController_new : Xcache :=
  mkXcache ∅ ∅ {[ 0%nat := MemHt ∅ ]} 1 ∅ ∅ [0%nat] 0 [].

Definition XcacheController_addMeta (str : string) (meta : nat) (x : Xcache) : Xcache :=
  mkXcache (metaHeap x) (sliceHeap x) (storeHeap x) (nextPtr x) (<[str := meta]> (metaMap x))
    (sliceMap x) (storeVector x) (context_id x) (io x).

Definition XcacheController_lookupSlice (x : Xcache) (c : XcacheCommand) : option nat :=
  sliceMap x !! contextid c.

(** [++context_id] on a 32-bit [int]. *)
Definition XcacheController_newSlice (x : Xcache) (resp c : XcacheCommand)
    : res (Xcache * XcacheCommand * Z) :=
  match XcacheController_lookupSlice x c with
  | Some _ => Ok (x, resp, -1)
  | None =>
      if bool_decide (context_id x = 2 ^ 31 - 1) then Ub SignedOverflow
      else
        let ctx := context_id x + 1 in
        let slice := XcacheSlice_setSize (cachesize c)
                       (XcacheSlice_setTtl (ttl c) (XcacheSlice_new ctx)) in
        let p := nextPtr x in
        Ok (mkXcache (metaHeap x) (<[p := slice]> (sliceHeap x)) (storeHeap x) (S p)
              (metaMap x) (<[contextID slice := p]> (sliceMap x)) (storeVector x) ctx (io x),
            set_response XCACHE_RESPONSE (contextID slice) resp,
            OK_SEND_RESPONSE)
  end.

(** The meta is allocated, and entered in [metaMap], before the slice is looked
    up. *)
Definition find_or_new_meta (e : surroundings) (x : Xcache) (c : XcacheCommand) : Xcache * nat :=
  match metaMap x !! cid c with
  | Some p => (x, p)
  | None =>
      let p := nextPtr x in
      (XcacheController_addMeta (cid c) p
         (mkXcache (<[p := XcacheMeta_new e c]> (metaHeap x)) (sliceHeap x) (storeHeap x)
            (S p) (metaMap x) (sliceMap x) (storeVector x) (context_id x) (io x)), p)
  end.

Definition XcacheController_store (e : surroundings) (x : Xcache) (c : XcacheCommand)
    : res (Xcache * Z) :=
  let xm := find_or_new_meta e x c in
  match XcacheController_lookupSlice xm.1 c with
  | None => Ok (xm.1, -1)
  | Some slice =>
      xr ← XcacheSlice_store xm.1 slice xm.2;
      if bool_decide (xr.2 < 0) then Ok (xr.1, -1)
      else XcacheStoreManager_store xr.1 xm.2 (data c)
  end.

(** [search] opens a socket and connects it; the local lookup is compiled out
    ([TODOEnableLocalSearch]).  The address it gives [Xconnect] is that of the
    [std::string] with the DAG: [Xconnect] refuses a descriptor that is not a
    socket of its own before it looks at the address, and otherwise reads the
    string object as a [sockaddr_x]. *)
Definition XcacheController_search (e : surroundings) (x : Xcache) (resp c : XcacheCommand)
    : res (Xcache * XcacheCommand * Z) :=
  let x := with_io (io x ++ [EvXsocket; EvXconnect (xsocket e)]) x in
  if bool_decide (xsocket e < 0) then Ok (x, resp, OK_SEND_RESPONSE) else Ub BadType.

Fixpoint status_slices (x : Xcache) (ps : list nat) : res Xcache :=
  match ps with
  | [] => Ok x
  | p :: ps => x ← XcacheSlice_status x p; status_slices x ps
  end.

Definition XcacheController_status (x : Xcache) : res Xcache :=
  status_slices x ((map_to_list (sliceMap x)).*2).

(** [cmd->cmd()] of a message without that field reads as the first value. *)
Definition cmd (c : XcacheCommand) : requestType := default XCACHE_STORE (f_cmd c).

Definition XcacheController_handleCmd (e : surroundings) (x : Xcache) (resp c : XcacheCommand)
    : res (Xcache * XcacheCommand * Z) :=
  match cmd c with
  | XCACHE_STORE => xr ← XcacheController_store e x c; Ok (xr.1, resp, xr.2)
  | XCACHE_NEWSLICE => XcacheController_newSlice x resp c
  | XCACHE_GETCHUNK => XcacheController_search e x resp c
  | XCACHE_STATUS => x ← XcacheController_status x; Ok (x, resp, OK_NO_RESPONSE)
  | _ => Ok (x, resp, OK_NO_RESPONSE)
  end.
