(* ===== verification/XcacheInv.v ===== *)
(** * Xcache: the invariant of the controller and what its handlers do

    [wf] ties the controller's maps, the slices, the reference counts and the
    content store together; every handler preserves it.  The lemmas that say
    what each operation computes are shared by the properties below and by the
    refinement of XcacheSpec. *)

From stdpp Require Import base gmap sets list strings.
From Stdlib Require Import ZArith Lia.
From S2P Require Import Prelude Xcache.

Local Open Scope Z_scope.

(** The table of the in-memory store. *)
Definition contents (x : Xcache) : gmap nat string :=
  match storeHeap x !! 0%nat with Some (MemHt ht) => ht | _ => ∅ end.

Record wf_slice (s : XcacheSlice) : Prop := {
  ws_current : currentSize s = 0;
  ws_max : 0 ≤ maxSize s < 2 ^ 64 }.

Record wf (x : Xcache) : Prop := {
  wf_vector : storeVector x = [0%nat];
  wf_store : storeHeap x = {[ 0%nat := MemHt (contents x) ]};
  wf_ctx : Z.of_nat (size (sliceMap x)) = context_id x;
  wf_ctx_bound : context_id x < 2 ^ 31;
  wf_ids : ∀ i, is_Some (sliceMap x !! i) → 1 ≤ i ≤ context_id x;
  wf_meta : ∀ c q, metaMap x !! c = Some q → ∃ m, metaHeap x !! q = Some m ∧ m_cid m = c;
  wf_slices : ∀ i p, sliceMap x !! i = Some p →
    ∃ s, sliceHeap x !! p = Some s ∧ contextID s = i;
  wf_heap : ∀ p s, sliceHeap x !! p = Some s → sliceMap x !! contextID s = Some p ∧ wf_slice s;
  wf_member : ∀ p s c q, sliceHeap x !! p = Some s → s_metaMap s !! c = Some q →
    metaMap x !! c = Some q ∧ is_Some (contents x !! q) ∧
    ∃ m, metaHeap x !! q = Some m ∧ m_store m = Some 0%nat;
  wf_refs : ∀ c q m, metaMap x !! c = Some q → metaHeap x !! q = Some m →
    refCount m = Z.of_nat (size (m_sliceMap m)) ∧
    ∀ k p, m_sliceMap m !! k = Some p ↔
      ∃ s, sliceHeap x !! p = Some s ∧ contextID s = k ∧ s_metaMap s !! c = Some q;
  wf_fresh : ∀ p, (nextPtr x ≤ p)%nat → metaHeap x !! p = None ∧ sliceHeap x !! p = None ∧
    contents x !! p = None }.

(** ** What the slice operations compute *)

Lemma evict_none p : XcachePolicy_evict p = None.
Proof. by destruct p. Qed.

Lemma makeRoom_spec fuel x this meta m s :
  metaHeap x !! meta = Some m → sliceHeap x !! this = Some s →
  XcacheSlice_makeRoom (S fuel) x this meta =
    (room ← XcacheSlice_hasRoom s m; if (room : bool) then Ok x else Ub NullDeref).
Proof.
  intros Hm Hs. unfold XcacheSlice_makeRoom. fold XcacheSlice_makeRoom.
  rewrite (deref_Some _ _ _ Hm), (deref_Some _ _ _ Hs). simpl.
  destruct (XcacheSlice_hasRoom s m) as [[]|]; [done| |done]. simpl.
  by rewrite evict_none.
Qed.

Lemma hasRoom_spec s m : wf_slice s →
  XcacheSlice_hasRoom s m = (l ← init (len m); Ok (bool_decide (l ≤ maxSize s))).
Proof.
  intros [Hc ?]. unfold XcacheSlice_hasRoom, XcacheMeta_getLength, u64.
  by rewrite Hc, Z.sub_0_r, wrapU_small.
Qed.

(** The state after meta [q] has entered slice [p] and its data the store. *)
Definition stored (x : Xcache) (p : nat) (s : XcacheSlice) (q : nat) (m : XcacheMeta)
    (d : string) : Xcache :=
  mkXcache
    (<[q := XcacheMeta_setStore 0 (XcacheMeta_addedToSlice p (contextID s) m)]> (metaHeap x))
    (<[p := with_s_metaMap (<[m_cid m := q]> (s_metaMap s)) s]> (sliceHeap x))
    {[ 0%nat := MemHt (<[q := d]> (contents x)) ]}
    (nextPtr x) (metaMap x) (sliceMap x) (storeVector x) (context_id x) (io x).

Lemma contents_singleton x ht : storeHeap x = {[ 0%nat := MemHt ht ]} → contents x = ht.
Proof. intros H. unfold contents. by rewrite H, lookup_singleton_eq. Qed.

Lemma StoreManager_store_spec x q d m :
  storeVector x = [0%nat] → storeHeap x = {[ 0%nat := MemHt (contents x) ]} →
  metaHeap x !! q = Some m →
  XcacheStoreManager_store x q d =
    Ok (with_metaHeap (<[q := XcacheMeta_setStore 0 m]> (metaHeap x))
          (with_storeHeap {[ 0%nat := MemHt (<[q := d]> (contents x)) ]} x), 0).
Proof.
  intros Hv Hs Hm. unfold XcacheStoreManager_store. rewrite Hv. simpl.
  rewrite Hs at 1. rewrite lookup_singleton_eq. simpl. rewrite Hm. simpl.
  do 3 f_equal. rewrite Hs at 1. by rewrite insert_singleton_eq.
Qed.

(** What [XcacheController_store] does once the meta is known, on every branch. *)
Lemma store_existing x c p s q m :
  storeVector x = [0%nat] → storeHeap x = {[ 0%nat := MemHt (contents x) ]} →
  metaHeap x !! q = Some m → m_cid m = cid c →
  sliceHeap x !! p = Some s → wf_slice s →
  (xr ← XcacheSlice_store x p q;
   if bool_decide (xr.2 < 0) then Ok (xr.1, -1)
   else XcacheStoreManager_store xr.1 q (data c)) =
  match s_metaMap s !! cid c with
  | Some _ => Ok (x, -1)
  | None =>
      l ← init (len m);
      if bool_decide (l ≤ maxSize s) then Ok (stored x p s q m (data c), 0) else Ub NullDeref
  end.
Proof.
  intros Hv Hst Hm Hc Hs Hws. unfold XcacheSlice_store.
  rewrite (deref_Some _ _ _ Hm), (deref_Some _ _ _ Hs). simpl.
  unfold XcacheSlice_alreadyHasMeta. rewrite Hc.
  destruct (s_metaMap s !! cid c); [done|].
  unfold evict_fuel. rewrite (makeRoom_spec _ _ _ _ _ _ Hm Hs), hasRoom_spec by done.
  destruct (len m) as [l|]; [|done]. simpl. case_bool_decide; [|done]. simpl.
  unfold XcacheSlice_addMeta. rewrite (deref_Some _ _ _ Hm), (deref_Some _ _ _ Hs).
  simpl. rewrite Hc.
  destruct (policy s); simpl; (erewrite StoreManager_store_spec;
    [| done | exact Hst | simpl; apply lookup_insert_eq]); unfold stored, with_metaHeap; simpl;
    rewrite insert_insert_eq, Hc; done.
Qed.

(** ** Preservation *)

Lemma wf_init : wf XcacheController_new.
Proof.
  split; try done; simpl; try (intros *; rewrite ?lookup_empty; naive_solver).
Qed.

(** [size] of a meta's slice map is bounded by the number of slices. *)
Lemma refs_bounded x c q m : wf x →
  metaMap x !! c = Some q → metaHeap x !! q = Some m →
  Z.of_nat (size (m_sliceMap m)) ≤ context_id x.
Proof.
  intros Hwf Hq Hm. rewrite <-(wf_ctx x Hwf), <-!size_dom.
  apply inj_le, subseteq_size. intros k [p Hk]%elem_of_dom.
  apply (wf_refs x Hwf c q m Hq Hm) in Hk as (s & Hs & <- & _).
  apply elem_of_dom. exists p. by apply (wf_heap x Hwf).
Qed.

Lemma wf_find_or_new e x c : wf x →
  let xm := find_or_new_meta e x c in
  wf xm.1 ∧ metaMap xm.1 !! cid c = Some xm.2 ∧
  sliceMap xm.1 = sliceMap x ∧ sliceHeap xm.1 = sliceHeap x ∧
  contents xm.1 = contents x.
Proof.
  intros Hwf. unfold find_or_new_meta.
  destruct (metaMap x !! cid c) as [q|] eqn:Hq; simpl; [done|].
  split; [|by rewrite lookup_insert_eq].
  pose proof (wf_fresh x Hwf (nextPtr x) (le_n _)) as (Hfm & Hfs & _).
  destruct Hwf as [???????????]. split; simpl; try done.
  - intros c' q' [[<- <-]|[? Hc']]%lookup_insert_Some.
    + rewrite lookup_insert_eq. eauto.
    + destruct (wf_meta0 _ _ Hc') as (m & Hm & <-).
      rewrite lookup_insert_ne by (intros <-; congruence). eauto.
  - intros p s c' q' Hp Hs. destruct (wf_member0 _ _ _ _ Hp Hs) as (? & ? & m & ? & ?).
    split_and!; try done.
    + rewrite lookup_insert_ne; [done|]. intros <-. congruence.
    + exists m. rewrite lookup_insert_ne by (intros <-; congruence). done.
  - intros c' q' m [[<- <-]|[Hne Hc']]%lookup_insert_Some.
    + rewrite lookup_insert_eq. intros [= <-]. simpl. split; [done|].
      intros k p. rewrite lookup_empty. split; [done|].
      intros (s & Hs & _ & Hin). destruct (wf_member0 _ _ _ _ Hs Hin). congruence.
    + destruct (wf_meta0 _ _ Hc') as (m' & Hm' & _).
      rewrite lookup_insert_ne by (intros <-; congruence). eauto.
  - intros p Hp. rewrite lookup_insert_ne by lia. apply wf_fresh0. lia.
Qed.

(** A meta enters a slice. *)
Section stored_wf.
Context (x : Xcache) (p : nat) (s : XcacheSlice) (q : nat) (m : XcacheMeta) (d : string).
Context (Hwf : wf x) (Hs : sliceHeap x !! p = Some s) (Hm : metaHeap x !! q = Some m).
Context (Hq : metaMap x !! m_cid m = Some q) (Hnone : s_metaMap s !! m_cid m = None).

Lemma stored_slot_free : m_sliceMap m !! contextID s = None.
Proof using All.
  destruct (m_sliceMap m !! contextID s) as [p'|] eqn:E; [|done].
  apply (wf_refs x Hwf _ q m Hq Hm) in E as (s' & Hs' & Hc & Hin).
  destruct (wf_heap x Hwf p' s' Hs'), (wf_heap x Hwf p s Hs). congruence.
Qed.

Lemma stored_context : u32 (contextID s) = contextID s.
Proof using Hwf Hs.
  destruct (wf_heap x Hwf p s Hs) as [Hsp _].
  pose proof (wf_ids x Hwf (contextID s) ltac:(eauto)).
  pose proof (wf_ctx_bound x Hwf). apply wrapU_small. lia.
Qed.

Lemma stored_members p' s' c q' :
  sliceHeap (stored x p s q m d) !! p' = Some s' → s_metaMap s' !! c = Some q' →
  metaMap x !! c = Some q' ∧ is_Some (contents (stored x p s q m d) !! q') ∧
  ∃ m', metaHeap (stored x p s q m d) !! q' = Some m' ∧ m_store m' = Some 0%nat.
Proof using Hwf Hs Hq.
  intros Hs' Hc. change (contents (stored x p s q m d)) with (<[q:=d]> (contents x)).
  simpl in *.
  assert (metaMap x !! c = Some q' ∧ (q' = q ∨ is_Some (contents x !! q') ∧
    ∃ m', metaHeap x !! q' = Some m' ∧ m_store m' = Some 0%nat)) as [Hcq Hor].
  { apply lookup_insert_Some in Hs' as [[<- <-]|[? Hs']].
    - simpl in Hc. apply lookup_insert_Some in Hc as [[<- <-]|[? Hc]]; [by auto|].
      destruct (wf_member x Hwf _ _ _ _ Hs Hc) as (? & ? & ?); auto.
    - destruct (wf_member x Hwf _ _ _ _ Hs' Hc) as (? & ? & ?); auto. }
  split; [done|]. destruct (decide (q' = q)) as [->|Hne].
  - rewrite !lookup_insert_eq. eauto.
  - rewrite !lookup_insert_ne by done. naive_solver.
Qed.

(** The reference count of the stored meta grows by one, with its slice map. *)
Lemma stored_refs_new k p' :
  refCount (XcacheMeta_addedToSlice p (contextID s) m) =
    Z.of_nat (size (<[contextID s := p]> (m_sliceMap m))) ∧
  (<[contextID s := p]> (m_sliceMap m) !! k = Some p' ↔
   ∃ s', sliceHeap (stored x p s q m d) !! p' = Some s' ∧ contextID s' = k ∧
         s_metaMap s' !! m_cid m = Some q).
Proof using All.
  destruct (wf_refs x Hwf _ q m Hq Hm) as [Hrc Hrefs].
  pose proof (refs_bounded x _ q m Hwf Hq Hm). pose proof (wf_ctx_bound x Hwf).
  simpl. split.
  - rewrite map_size_insert_None, Hrc by apply stored_slot_free.
    unfold u32. rewrite wrapU_small; lia.
  - rewrite lookup_insert_Some, Hrefs. split.
    + intros [[<- <-]|(Hne & s' & Hs' & <- & Hin)].
      * eexists. rewrite lookup_insert_eq. split; [done|]. simpl. by rewrite lookup_insert_eq.
      * exists s'. rewrite lookup_insert_ne; [done|]. intros <-. congruence.
    + intros (s' & Hs' & <- & Hin).
      apply lookup_insert_Some in Hs' as [[<- <-]|[? Hs']]; [by left|].
      right. split; [|eauto]. intros Heq.
      destruct (wf_heap x Hwf _ _ Hs'), (wf_heap x Hwf _ _ Hs). congruence.
Qed.

(** Other metas are members of the same slices as before. *)
Lemma stored_refs_other c q' k p' : q' ≠ q →
  (∃ s', sliceHeap x !! p' = Some s' ∧ contextID s' = k ∧ s_metaMap s' !! c = Some q') ↔
  (∃ s', sliceHeap (stored x p s q m d) !! p' = Some s' ∧ contextID s' = k ∧
         s_metaMap s' !! c = Some q').
Proof using Hs Hnone.
  intros Hne. split.
  - intros (s' & Hs' & Hk' & Hin). simpl. destruct (decide (p' = p)) as [->|].
    + rewrite Hs in Hs'. injection Hs' as <-. eexists. rewrite lookup_insert_eq.
      split; [done|]. split; [done|]. simpl. rewrite lookup_insert_ne; [done|].
      intros <-. congruence.
    + exists s'. by rewrite lookup_insert_ne.
  - intros (s' & Hs' & Hk' & Hin). simpl in Hs'.
    apply lookup_insert_Some in Hs' as [[<- <-]|[? Hs']]; [|eauto].
    simpl in Hin. apply lookup_insert_Some in Hin as [[? ?]|[? Hin]]; [congruence|eauto].
Qed.

Lemma wf_stored : wf (stored x p s q m d).
Proof using All.
  split; [apply Hwf | done | apply Hwf | apply Hwf | apply Hwf | ..].
  - intros c q' Hc. simpl in *. destruct (wf_meta x Hwf _ _ Hc) as (m' & Hm' & <-).
    destruct (decide (q' = q)) as [->|].
    + rewrite lookup_insert_eq. eexists; split; [done|]. simpl. congruence.
    + rewrite lookup_insert_ne by done. eauto.
  - intros i p' Hi. simpl in *. destruct (wf_slices x Hwf _ _ Hi) as (s' & Hs' & <-).
    destruct (decide (p' = p)) as [->|].
    + rewrite lookup_insert_eq. eexists; split; [done|]. simpl. congruence.
    + rewrite lookup_insert_ne by done. eauto.
  - intros p' s'. simpl. intros [[<- <-]|[? Hs']]%lookup_insert_Some.
    + destruct (wf_heap x Hwf p s Hs) as [? []]. done.
    + by apply (wf_heap x Hwf).
  - apply stored_members.
  - intros c q' m' Hc Hm'. simpl in Hc, Hm'.
    destruct (wf_meta x Hwf _ _ Hc) as (m0 & Hm0 & Hcid0).
    destruct (decide (q' = q)) as [->|Hne].
    + rewrite Hm in Hm0. injection Hm0 as <-. subst c.
      rewrite lookup_insert_eq in Hm'. injection Hm' as <-.
      cbn [m_sliceMap XcacheMeta_setStore XcacheMeta_addedToSlice]. rewrite stored_context.
      split; [apply (stored_refs_new 0 0)|]. intros k p'. apply stored_refs_new.
    + rewrite lookup_insert_ne in Hm' by done.
      destruct (wf_refs x Hwf c q' m' Hc Hm') as [? Hr']. split; [done|].
      intros k p'. rewrite Hr'. by apply stored_refs_other.
  - intros p' Hp'. change (contents (stored x p s q m d)) with (<[q:=d]> (contents x)).
    simpl in *. destruct (wf_fresh x Hwf p' Hp') as (? & ? & ?).
    rewrite !lookup_insert_ne; [done|..]; intros <-; congruence.
Qed.
End stored_wf.

(** Storing, on every branch. *)
Lemma controller_store_cases e x c : wf x →
  let xm := find_or_new_meta e x c in
  wf xm.1 ∧
  match sliceMap x !! contextid c with
  | None => XcacheController_store e x c = Ok (xm.1, -1)
  | Some p => ∃ s m, sliceHeap x !! p = Some s ∧ contextID s = contextid c ∧
      metaHeap xm.1 !! xm.2 = Some m ∧ m_cid m = cid c ∧
      metaMap xm.1 !! cid c = Some xm.2 ∧
      XcacheController_store e x c =
      match s_metaMap s !! cid c with
      | Some _ => Ok (xm.1, -1)
      | None =>
          l ← init (len m);
          if bool_decide (l ≤ maxSize s) then Ok (stored xm.1 p s xm.2 m (data c), 0) else Ub NullDeref
      end
  end.
Proof.
  intros Hwf xm. destruct (wf_find_or_new e x c Hwf) as (Hwf1 & Hq & Hsm & Hsh & _).
  fold xm in Hwf1, Hq, Hsm, Hsh. split; [done|].
  unfold XcacheController_store, XcacheController_lookupSlice. fold xm. rewrite Hsm.
  destruct (sliceMap x !! contextid c) as [p|] eqn:Hp; [|done].
  destruct (wf_slices x Hwf _ _ Hp) as (s & Hs & Hctx).
  destruct (wf_meta _ Hwf1 _ _ Hq) as (m & Hm & Hc).
  exists s, m. split_and!; try done.
  apply store_existing; [apply Hwf1 | apply Hwf1 | done | done | by rewrite Hsh |].
  by apply (wf_heap x Hwf p s).
Qed.

(** [newSlice], on every branch. *)
Lemma newSlice_cases x resp c : wf x →
  match sliceMap x !! contextid c with
  | Some _ => XcacheController_newSlice x resp c = Ok (x, resp, -1)
  | None =>
      if bool_decide (context_id x = 2 ^ 31 - 1)
      then XcacheController_newSlice x resp c = Ub SignedOverflow
      else ∃ x' s, XcacheController_newSlice x resp c =
             Ok (x', set_response XCACHE_RESPONSE (context_id x + 1) resp, OK_SEND_RESPONSE) ∧
           wf x' ∧
           x' = mkXcache (metaHeap x) (<[nextPtr x := s]> (sliceHeap x)) (storeHeap x)
                  (S (nextPtr x)) (metaMap x) (<[context_id x + 1 := nextPtr x]> (sliceMap x))
                  (storeVector x) (context_id x + 1) (io x) ∧
           s = mkSlice ∅ (u64 (cachesize c)) 0 (context_id x + 1) (u32 (ttl c)) BasePolicy
  end.
Proof.
  intros Hwf. unfold XcacheController_newSlice, XcacheController_lookupSlice.
  destruct (sliceMap x !! contextid c) eqn:E; [done|].
  case_bool_decide as Hmax; [done|]. eexists _, _. split; [done|].
  split; [|done].
  assert (sliceMap x !! (context_id x + 1) = None) as Hnew.
  { destruct (sliceMap x !! (context_id x + 1)) eqn:E'; [|done].
    pose proof (wf_ids x Hwf (context_id x + 1) ltac:(eauto)). lia. }
  pose proof (wf_fresh x Hwf (nextPtr x) (le_n _)) as (Hfm & Hfs & _).
  pose proof (wf_ctx x Hwf). pose proof (wf_ctx_bound x Hwf).
  split; simpl; try apply Hwf.
  - rewrite map_size_insert_None by done. lia.
  - lia.
  - intros i. rewrite lookup_insert_is_Some. intros [<-|[? Hi%(wf_ids x Hwf)]]; lia.
  - intros i p [[<- <-]|[Hne Hi]]%lookup_insert_Some; [rewrite lookup_insert_eq; eauto|].
    destruct (wf_slices x Hwf _ _ Hi) as (s' & Hs' & <-).
    rewrite lookup_insert_ne by (intros <-; congruence). eauto.
  - intros p s [[<- <-]|[Hne Hs]]%lookup_insert_Some; simpl.
    + rewrite lookup_insert_eq. split; [done|]. split; simpl; [done|]. apply wrapU_range. lia.
    + destruct (wf_heap x Hwf _ _ Hs) as [Hsm ?]. rewrite lookup_insert_ne; [done|].
      intros Heq. congruence.
  - intros p s c' q [[<- <-]|[Hne Hs]]%lookup_insert_Some; [done|].
    by apply (wf_member x Hwf p s).
  - intros c' q m Hc Hm. destruct (wf_refs x Hwf c' q m Hc Hm) as [? Hr]. split; [done|].
    intros k p. rewrite Hr. split; intros (s & Hs & Hrest); exists s.
    + rewrite lookup_insert_ne by (intros <-; congruence). done.
    + apply lookup_insert_Some in Hs as [[<- <-]|[? ?]]; [|done]. destruct Hrest as [_ ?]. done.
  - intros p Hp. destruct (wf_fresh x Hwf p ltac:(lia)) as (? & ? & ?).
    rewrite lookup_insert_ne by lia. done.
Qed.

(** Reading a member of a slice finds its data and changes nothing. *)
Lemma meta_get_member x p s c q : wf x →
  sliceHeap x !! p = Some s → s_metaMap s !! c = Some q →
  ∃ d, contents x !! q = Some d ∧ XcacheMeta_get x q = Ok (x, d).
Proof.
  intros Hwf Hs Hc. destruct (wf_member x Hwf _ _ _ _ Hs Hc) as (_ & [d Hd] & m & Hm & Hst).
  exists d. split; [done|]. unfold XcacheMeta_get.
  rewrite (deref_Some _ _ _ Hm). simpl. rewrite Hst. simpl.
  rewrite (wf_store x Hwf), lookup_singleton_eq. simpl. rewrite Hd. simpl.
  rewrite insert_singleton_eq, <-(wf_store x Hwf). by destruct x.
Qed.

Lemma slice_status_ok x p s : wf x → sliceHeap x !! p = Some s →
  XcacheSlice_status x p = Ok x.
Proof.
  intros Hwf Hs. unfold XcacheSlice_status. rewrite (deref_Some _ _ _ Hs). simpl.
  assert (∀ q, q ∈ (map_to_list (s_metaMap s)).*2 → ∃ c, s_metaMap s !! c = Some q) as Hall.
  { intros q ((c & q') & -> & Hin)%list_elem_of_fmap.
    apply elem_of_map_to_list in Hin. eauto. }
  induction ((map_to_list (s_metaMap s)).*2) as [|q qs IH]; simpl; [done|].
  destruct (Hall q ltac:(set_solver)) as [c Hc].
  destruct (meta_get_member x p s c q Hwf Hs Hc) as (d & _ & Hget).
  unfold XcacheMeta_status. rewrite Hget. simpl. apply IH. set_solver.
Qed.

Lemma status_ok x : wf x → XcacheController_status x = Ok x.
Proof.
  intros Hwf. unfold XcacheController_status.
  assert (∀ p, p ∈ (map_to_list (sliceMap x)).*2 → is_Some (sliceHeap x !! p)) as Hall.
  { intros p ((i & p') & -> & Hin)%list_elem_of_fmap. apply elem_of_map_to_list in Hin.
    destruct (wf_slices x Hwf i p' Hin) as (s & Hs & _). eauto. }
  induction ((map_to_list (sliceMap x)).*2) as [|p ps IH]; simpl; [done|].
  destruct (Hall p ltac:(set_solver)) as [s Hs].
  rewrite (slice_status_ok x p s) by done. simpl. apply IH. set_solver.
Qed.

Lemma wf_with_io x l : wf x → wf (with_io l x).
Proof. by intros []. Qed.

Lemma handleCmd_wf e x resp c x' resp' r : wf x →
  XcacheController_handleCmd e x resp c = Ok (x', resp', r) → wf x'.
Proof.
  intros Hwf H. unfold XcacheController_handleCmd in H.
  destruct (cmd c); try (by injection H as <- <- <-).
  - destruct (controller_store_cases e x c Hwf) as [Hwf1 Hcases].
    destruct (sliceMap x !! contextid c) as [p|] eqn:Hp.
    + destruct Hcases as (s & m & Hs & Hctx & Hm & Hc & Hq & Hst). rewrite Hst in H.
      destruct (s_metaMap s !! cid c) eqn:E; [by injection H as <- <- <-|].
      destruct (len m) as [l|]; [|done]. simpl in H.
      case_bool_decide; [|done]. injection H as <- <- <-. rewrite <-Hc in *.
      destruct (wf_find_or_new e x c Hwf) as (_ & _ & _ & Hsh & _).
      apply wf_stored; try done. congruence.
    + rewrite Hcases in H. by injection H as <- <- <-.
  - pose proof (newSlice_cases x resp c Hwf) as Hn.
    destruct (sliceMap x !! contextid c); [rewrite Hn in H; by injection H as <- <- <-|].
    case_bool_decide; [rewrite Hn in H; done|].
    destruct Hn as (y & s & Hy & Hwfy & _). rewrite Hy in H. by injection H as <- <- <-.
  - unfold XcacheController_search in H. case_bool_decide; [|done]. injection H as <- <- <-. by apply wf_with_io.
  - rewrite status_ok in H by done. by injection H as <- <- <-.
Qed.

(** ** Reachable states: any sequence of commands *)

Inductive reachable : Xcache → Prop :=
  | reach_init : reachable XcacheController_new
  | reach_cmd e x resp c x' resp' r :
      reachable x → XcacheController_handleCmd e x resp c = Ok (x', resp', r) →
      reachable x'.

Lemma reachable_wf x : reachable x → wf x.
Proof. induction 1; eauto using wf_init, handleCmd_wf. Qed.

#[export] Hint Resolve wf_init wf_with_io handleCmd_wf reachable_wf : xia.
