(* ===== verification/XcacheSpec.v ===== *)
(** * Xcache: the abstract cache and the properties of the controller

    An abstract cache is a map from slice numbers to a capacity and a set of
    CIDs, and one map from CIDs to content shared by all slices.  Every command
    the controller handles is simulated by one step of it. *)

From stdpp Require Import base gmap sets list strings.
From Stdlib Require Import ZArith Lia.
From S2P Require Import Prelude Xcache XcacheInv.

Local Open Scope Z_scope.

(** ** Specification *)

Record cache := mkCache {
  slices : gmap Z (Z * gset string);
  objects : gmap string string;
  last_id : Z }.

Definition spec_store (k : cache) (c : XcacheCommand) : cache * Z :=
  match slices k !! contextid c with
  | None => (k, -1)
  | Some (cap, cids) =>
      if decide (cid c ∈ cids) then (k, -1)
      else (mkCache (<[contextid c := (cap, {[ cid c ]} ∪ cids)]> (slices k))
              (<[cid c := data c]> (objects k)) (last_id k), 0)
  end.

Definition spec_newslice (k : cache) (c : XcacheCommand) : cache * Z :=
  match slices k !! contextid c with
  | Some _ => (k, -1)
  | None => (mkCache (<[last_id k + 1 := (u64 (cachesize c), ∅)]> (slices k))
               (objects k) (last_id k + 1), OK_SEND_RESPONSE)
  end.

Definition spec_step (k : cache) (c : XcacheCommand) : cache * Z :=
  match cmd c with
  | XCACHE_STORE => spec_store k c
  | XCACHE_NEWSLICE => spec_newslice k c
  | XCACHE_GETCHUNK => (k, OK_SEND_RESPONSE)
  | _ => (k, OK_NO_RESPONSE)
  end.

(** ** Abstraction *)

Definition abs_slice (x : Xcache) (p : nat) : option (Z * gset string) :=
  s ← sliceHeap x !! p; Some (maxSize s, dom (s_metaMap s)).

Definition abs (x : Xcache) : cache :=
  mkCache (omap (abs_slice x) (sliceMap x))
    (omap (λ q, contents x !! q) (metaMap x)) (context_id x).

Lemma abs_slices_lookup x i :
  slices (abs x) !! i = p ← sliceMap x !! i; abs_slice x p.
Proof. apply lookup_omap. Qed.

Lemma abs_objects_lookup x c :
  objects (abs x) !! c = q ← metaMap x !! c; contents x !! q.
Proof. apply lookup_omap. Qed.

Lemma cache_eq k1 k2 :
  (∀ i, slices k1 !! i = slices k2 !! i) → (∀ c, objects k1 !! c = objects k2 !! c) →
  last_id k1 = last_id k2 → k1 = k2.
Proof. destruct k1, k2; simpl. intros ?%map_eq ?%map_eq ->. congruence. Qed.

Lemma abs_init : abs XcacheController_new = mkCache ∅ ∅ 0.
Proof. by apply cache_eq. Qed.

Lemma abs_find_or_new e x c : wf x → abs (find_or_new_meta e x c).1 = abs x.
Proof.
  intros Hwf. destruct (wf_find_or_new e x c Hwf) as (Hwf1 & _ & Hsm & Hsh & Hct).
  apply cache_eq.
  - intros i. rewrite !abs_slices_lookup, Hsm. unfold abs_slice. by rewrite Hsh.
  - intros c'. rewrite !abs_objects_lookup, Hct. unfold find_or_new_meta.
    destruct (metaMap x !! cid c) eqn:E; [done|]. simpl.
    destruct (decide (c' = cid c)) as [->|]; [|by rewrite lookup_insert_ne].
    rewrite lookup_insert_eq, E. simpl. by apply (wf_fresh x Hwf).
  - unfold find_or_new_meta. by destruct (metaMap x !! cid c).
Qed.

Lemma metaMap_inj x c c' q : wf x →
  metaMap x !! c = Some q → metaMap x !! c' = Some q → c = c'.
Proof.
  intros Hwf Hc Hc'. destruct (wf_meta x Hwf _ _ Hc) as (m & Hm & <-).
  destruct (wf_meta x Hwf _ _ Hc') as (m' & Hm' & <-). congruence.
Qed.

Lemma sliceMap_inj x i j p : wf x →
  sliceMap x !! i = Some p → sliceMap x !! j = Some p → i = j.
Proof.
  intros Hwf Hi Hj. destruct (wf_slices x Hwf _ _ Hi) as (s & Hs & <-).
  destruct (wf_slices x Hwf _ _ Hj) as (s' & Hs' & <-). congruence.
Qed.

Lemma abs_stored x i p s q m d : wf x →
  sliceMap x !! i = Some p → sliceHeap x !! p = Some s →
  metaMap x !! m_cid m = Some q →
  abs (stored x p s q m d) =
    mkCache (<[i := (maxSize s, {[ m_cid m ]} ∪ dom (s_metaMap s))]> (slices (abs x)))
      (<[m_cid m := d]> (objects (abs x))) (last_id (abs x)).
Proof.
  intros Hwf Hi Hs Hq. apply cache_eq; [| |done].
  - intros j. rewrite abs_slices_lookup. cbn [slices stored sliceMap].
    destruct (decide (j = i)) as [->|Hne].
    + rewrite lookup_insert_eq, Hi. simpl. unfold abs_slice. simpl.
      by rewrite lookup_insert_eq; simpl; rewrite dom_insert_L.
    + rewrite lookup_insert_ne, abs_slices_lookup by done.
      destruct (sliceMap x !! j) as [p'|] eqn:Hj; [|done]. simpl.
      unfold abs_slice. simpl. rewrite lookup_insert_ne; [done|].
      intros <-. by rewrite (sliceMap_inj x i j p) in Hne.
  - intros c. rewrite abs_objects_lookup.
    change (contents (stored x p s q m d)) with (<[q:=d]> (contents x)).
    cbn [objects stored metaMap]. destruct (decide (c = m_cid m)) as [->|Hne].
    + rewrite lookup_insert_eq, Hq. simpl. by rewrite lookup_insert_eq.
    + rewrite lookup_insert_ne, abs_objects_lookup by done.
      destruct (metaMap x !! c) as [q'|] eqn:Hc; [|done]. simpl.
      rewrite lookup_insert_ne; [done|]. intros <-. by rewrite (metaMap_inj x c (m_cid m) q) in Hne.
Qed.

Lemma abs_lookup_slice x i p s : wf x →
  sliceMap x !! i = Some p → sliceHeap x !! p = Some s →
  slices (abs x) !! i = Some (maxSize s, dom (s_metaMap s)).
Proof. intros Hwf Hi Hs. rewrite abs_slices_lookup, Hi. simpl. unfold abs_slice. by rewrite Hs. Qed.

Lemma store_refines e x c x' r : wf x →
  XcacheController_store e x c = Ok (x', r) → spec_store (abs x) c = (abs x', r).
Proof.
  intros Hwf H. destruct (controller_store_cases e x c Hwf) as [Hwf1 Hcases].
  unfold spec_store. destruct (sliceMap x !! contextid c) as [p|] eqn:Hp.
  - destruct Hcases as (s & m & Hs & Hctx & Hm & Hc & Hq & Hst).
    rewrite (abs_lookup_slice x _ p s) by done.
    rewrite Hst in H. destruct (s_metaMap s !! cid c) eqn:E.
    + injection H as <- <-. rewrite decide_True by (by apply elem_of_dom).
      by rewrite abs_find_or_new.
    + destruct (len m) as [l|]; [|done]. simpl in H. case_bool_decide; [|done]. injection H as <- <-.
      rewrite decide_False by (by apply not_elem_of_dom).
      destruct (wf_find_or_new e x c Hwf) as (_ & _ & Hsm & Hsh & _).
      rewrite (abs_stored _ (contextid c) p s) by (by rewrite ?Hsm, ?Hsh, ?Hc).
      by rewrite Hc, abs_find_or_new.
  - rewrite Hcases in H. injection H as <- <-.
    rewrite abs_slices_lookup, Hp. simpl. by rewrite abs_find_or_new.
Qed.

Lemma newSlice_refines x resp c x' resp' r : wf x →
  XcacheController_newSlice x resp c = Ok (x', resp', r) →
  spec_newslice (abs x) c = (abs x', r).
Proof.
  intros Hwf H. pose proof (newSlice_cases x resp c Hwf) as Hn. unfold spec_newslice.
  destruct (sliceMap x !! contextid c) as [p|] eqn:Hp.
  - destruct (wf_slices x Hwf _ _ Hp) as (s & Hs & _).
    rewrite (abs_lookup_slice x _ p s) by done. rewrite Hn in H. by injection H as <- <- <-.
  - rewrite abs_slices_lookup, Hp. cbn [mbind option_bind].
    case_bool_decide; [rewrite Hn in H; done|].
    destruct Hn as (y & s & Hy & Hwfy & -> & ->). rewrite Hy in H. injection H as <- <- <-.
    f_equal. apply cache_eq; [|done|done]. intros j. rewrite abs_slices_lookup. cbn [slices sliceMap].
    destruct (decide (j = context_id x + 1)) as [->|Hne].
    + rewrite !lookup_insert_eq. simpl. unfold abs_slice. simpl.
      by rewrite lookup_insert_eq; simpl; rewrite dom_empty_L.
    + rewrite !lookup_insert_ne, abs_slices_lookup by done.
      destruct (sliceMap x !! j) as [p'|] eqn:Hj; [|done]. simpl. unfold abs_slice. simpl.
      rewrite lookup_insert_ne; [done|]. intros <-.
      destruct (wf_slices x Hwf _ _ Hj) as (s' & Hs' & _).
      destruct (wf_fresh x Hwf (nextPtr x) (le_n _)) as (_ & ? & _). congruence.
Qed.

Lemma step_refines e x resp c x' resp' r : wf x →
  XcacheController_handleCmd e x resp c = Ok (x', resp', r) →
  spec_step (abs x) c = (abs x', r).
Proof.
  intros Hwf H.
  unfold XcacheController_handleCmd, spec_step in *.
  destruct (cmd c); try (by injection H as <- <- <-).
  - res_inv H. destruct a as [y r']. injection H as <- <- <-. eauto using store_refines.
  - eauto using newSlice_refines.
  - unfold XcacheController_search in H. case_bool_decide; [|done]. by injection H as <- <- <-.
  - rewrite status_ok in H by done. by injection H as <- <- <-.
Qed.

(** ** Runs of commands *)

Fixpoint run_cmds (e : surroundings) (x : Xcache) (cs : list XcacheCommand) : res Xcache :=
  match cs with
  | [] => Ok x
  | c :: cs => xr ← XcacheController_handleCmd e x empty_command c; run_cmds e xr.1.1 cs
  end.

Lemma reachable_run e x cs x' : reachable x → run_cmds e x cs = Ok x' → reachable x'.
Proof.
  revert x. induction cs as [|c cs IH]; intros x Hx H; simpl in H; [by injection H as <-|].
  res_inv H. destruct a as [[y resp] r]. eapply IH; [|done]. eapply reach_cmd; eauto.
Qed.

Definition new_cmd (size : Z) : XcacheCommand :=
  mkCmd (Some XCACHE_NEWSLICE) None None None None (Some 100) (Some size) (Some 0).
Definition store_cmd (i : Z) (c d : string) : XcacheCommand :=
  mkCmd (Some XCACHE_STORE) (Some i) (Some c) None (Some d) None None None.

(** Two slices of 10 bytes, and "A" in the first. *)
Definition demo_cmds : list XcacheCommand :=
  [new_cmd 10; new_cmd 10; store_cmd 1 "A" "aaaa"].
(** Surroundings in which the length of a new meta reads as [n]. *)
Definition reads_as (n : Z) : surroundings := mkEnv (Some n) (-1).
Definition demo : Xcache :=
  match run_cmds (reads_as 10) XcacheController_new demo_cmds with Ok x => x | Ub _ => XcacheController_new end.

Lemma demo_reachable : reachable demo.
Proof.
  apply (reachable_run (reads_as 10) XcacheController_new demo_cmds); [constructor|].
  vm_compute. reflexivity.
Qed.

(** ** Properties *)

(** C1: every command the controller completes acts on the abstract cache as the
    specification says, with the specified return code: STORE adds the CID to
    the named slice and replaces the shared content unless the slice is unknown
    or already has the CID; NEWSLICE opens the next slice; nothing else changes
    the cache. *)
Theorem handleCmd_refines e x resp c x' resp' r :
  reachable x →
  XcacheController_handleCmd e x resp c = Ok (x', resp', r) →
  spec_step (abs x) c = (abs x', r).
Proof.
  intros Hwf%reachable_wf. by apply step_refines.
Qed.

Lemma handleCmd_refines_witness :
  spec_step (abs demo) (store_cmd 2 "B" "bb") =
    (abs (match XcacheController_handleCmd (reads_as 3) demo empty_command (store_cmd 2 "B" "bb") with
          | Ok (x, _, _) => x | Ub _ => demo end), 0).
Proof.
  eapply (handleCmd_refines (reads_as 3) demo empty_command (store_cmd 2 "B" "bb")).
  - apply demo_reachable.
  - vm_compute. reflexivity.
Defined.

(** The length the room check reads: that of the meta with this CID, or the
    uninitialised field of the one STORE allocates. *)
Definition checked_len (e : surroundings) (x : Xcache) (c : XcacheCommand) : option Z :=
  match metaMap x !! cid c with
  | Some q => match metaHeap x !! q with Some m => len m | None => new_len e end
  | None => new_len e
  end.

Lemma checked_len_spec e x c m : wf x →
  metaHeap (find_or_new_meta e x c).1 !! (find_or_new_meta e x c).2 = Some m →
  checked_len e x c = len m.
Proof.
  intros Hwf. unfold checked_len, find_or_new_meta.
  destruct (metaMap x !! cid c) as [q|]; simpl.
  - by intros ->.
  - rewrite lookup_insert_eq. by intros [= <-].
Qed.

(** C6: in a reachable state a command is undefined behaviour in exactly these
    cases.  NEWSLICE, when the 32-bit slice counter is exhausted (signed
    overflow).  GETCHUNK, when a socket was opened: a string object is then read
    as a socket address.  STORE of a CID that a known slice lacks: by the rules
    of the language always, since the room check reads a length field that was
    never set; and on a machine on which the field reads as a number, when that
    number exceeds the slice size, where the eviction loop dereferences the null
    pointer that [evict] returns.  In particular STATUS is always defined. *)
Theorem handleCmd_undefined e x resp c u :
  reachable x →
  XcacheController_handleCmd e x resp c = Ub u ↔
  (cmd c = XCACHE_NEWSLICE ∧ u = SignedOverflow ∧
     sliceMap x !! contextid c = None ∧ context_id x = 2 ^ 31 - 1) ∨
  (cmd c = XCACHE_GETCHUNK ∧ u = BadType ∧ 0 ≤ xsocket e) ∨
  (cmd c = XCACHE_STORE ∧
     ∃ p s, sliceMap x !! contextid c = Some p ∧ sliceHeap x !! p = Some s ∧
       s_metaMap s !! cid c = None ∧
       match checked_len e x c with
       | None => u = Uninit
       | Some l => maxSize s < l ∧ u = NullDeref
       end).
Proof.
  intros Hwf%reachable_wf. unfold XcacheController_handleCmd.
  destruct (cmd c) eqn:Hcmd; try naive_solver.
  - destruct (controller_store_cases e x c Hwf) as [Hwf1 Hcases].
    destruct (sliceMap x !! contextid c) as [p|] eqn:Hp; [|rewrite Hcases; naive_solver].
    destruct Hcases as (s & m & Hs & Hctx & Hm & Hc & Hq & ->).
    rewrite (checked_len_spec e x c m) by done.
    destruct (s_metaMap s !! cid c) eqn:E; [naive_solver|].
    destruct (len m) as [l|]; simpl; [case_bool_decide|]; naive_solver lia.
  - pose proof (newSlice_cases x resp c Hwf) as Hn.
    destruct (sliceMap x !! contextid c); [rewrite Hn; naive_solver|].
    case_bool_decide; [rewrite Hn; naive_solver|].
    destruct Hn as (y & s & -> & _). naive_solver.
  - unfold XcacheController_search. case_bool_decide; naive_solver lia.
  - rewrite status_ok by done. naive_solver.
Qed.

Lemma handleCmd_undefined_witness :
  XcacheController_handleCmd (reads_as 11) demo empty_command (store_cmd 1 "B" "bb") = Ub NullDeref.
Proof.
  apply (handleCmd_undefined (reads_as 11) demo empty_command (store_cmd 1 "B" "bb") NullDeref).
  - apply demo_reachable.
  - right; right. split; [done|].
    eexists _, _. split; [vm_compute; reflexivity|]. split; [vm_compute; reflexivity|].
    split; [vm_compute; reflexivity|]. vm_compute. by split.
Defined.

(** Whether slice [p] holds CID [c]. *)
Definition holds (x : Xcache) (c : string) (p : nat) : bool :=
  match sliceHeap x !! p with
  | Some s => match s_metaMap s !! c with Some _ => true | None => false end
  | None => false
  end.

(** C10: the reference count of a content object is the number of slices that
    hold it. *)
Theorem refcount_exact x c q m :
  reachable x → metaMap x !! c = Some q → metaHeap x !! q = Some m →
  refCount m = Z.of_nat (size (filter (λ ip, holds x c ip.2 = true) (sliceMap x))).
Proof.
  intros Hwf%reachable_wf Hq Hm. destruct (wf_refs x Hwf c q m Hq Hm) as [-> Hr].
  do 2 f_equal. apply map_eq. intros k. apply option_eq. intros p.
  rewrite map_lookup_filter_Some, Hr. simpl. unfold holds. split.
  - intros (s & Hs & <- & Hc). rewrite Hs, Hc. by destruct (wf_heap x Hwf p s Hs).
  - intros [Hk Hh]. destruct (wf_slices x Hwf k p Hk) as (s & Hs & <-).
    rewrite Hs in Hh. exists s. split_and!; try done.
    destruct (s_metaMap s !! c) as [q'|] eqn:E; [|done].
    destruct (wf_member x Hwf _ _ _ _ Hs E) as [? _]. congruence.
Qed.

Lemma refcount_exact_witness :
  ∃ q m, metaMap demo !! "A" = Some q ∧ metaHeap demo !! q = Some m ∧
    refCount m = Z.of_nat (size (filter (λ ip, holds demo "A" ip.2 = true) (sliceMap demo))).
Proof.
  eexists _, _. split; [vm_compute; reflexivity|]. split; [vm_compute; reflexivity|].
  eapply (refcount_exact demo "A"); [apply demo_reachable | vm_compute; reflexivity ..].
Defined.

Lemma slice_search_ok x i p s q c : wf x →
  sliceMap x !! i = Some p → sliceHeap x !! p = Some s → s_metaMap s !! cid c = Some q →
  ∃ d, contents x !! q = Some d ∧ XcacheSlice_search x p c = Ok (x, d).
Proof.
  intros Hwf Hi Hs Hc. unfold XcacheSlice_search. rewrite (deref_Some _ _ _ Hs). simpl.
  rewrite Hc. by eapply meta_get_member.
Qed.

(** A CID the abstract cache has in slice [i] is found by a search there. *)
Lemma search_abs x i cap cids c d p : wf x →
  slices (abs x) !! i = Some (cap, cids) → cid c ∈ cids → objects (abs x) !! cid c = Some d →
  sliceMap x !! i = Some p → XcacheSlice_search x p c = Ok (x, d).
Proof.
  intros Hwf Hi Hin Hd Hp. destruct (wf_slices x Hwf i p Hp) as (s & Hs & _).
  rewrite (abs_lookup_slice x i p s) in Hi by done. injection Hi as <- <-.
  apply elem_of_dom in Hin as [q Hq].
  destruct (slice_search_ok x i p s q c Hwf Hp Hs Hq) as (d' & Hd' & Hrun).
  rewrite abs_objects_lookup in Hd.
  destruct (wf_member x Hwf _ _ _ _ Hs Hq) as [Hmm _]. rewrite Hmm in Hd. simpl in Hd. congruence.
Qed.

(** C14: what STORE accepted is what a search of that slice for that CID then
    returns, and the search changes nothing. *)
Theorem store_then_search e x c x' resp resp' p :
  reachable x → cmd c = XCACHE_STORE →
  XcacheController_handleCmd e x resp c = Ok (x', resp', 0) →
  sliceMap x' !! contextid c = Some p →
  XcacheSlice_search x' p c = Ok (x', data c).
Proof.
  intros Hr Hcmd H Hp. pose proof (reachable_wf x Hr) as Hwf.
  assert (wf x') as Hwf' by eauto with xia.
  unfold XcacheController_handleCmd in H. rewrite Hcmd in H. res_inv H.
  destruct a as [y r]. injection H as <- <- ->. apply store_refines in Ha; [|done].
  unfold spec_store in Ha. destruct (slices (abs x) !! contextid c) as [[cap cids]|] eqn:E; [|done].
  case_decide; [done|]. apply (f_equal fst) in Ha. cbn [fst] in Ha.
  eapply (search_abs y (contextid c) cap ({[cid c]} ∪ cids)); [done|..|done].
  - rewrite <-Ha. simpl. apply lookup_insert_eq.
  - set_solver.
  - rewrite <-Ha. simpl. apply lookup_insert_eq.
Qed.

Lemma store_then_search_witness :
  ∃ x' p, sliceMap x' !! 2 = Some p ∧
    XcacheSlice_search x' p (store_cmd 2 "A" "zz") = Ok (x', "zz").
Proof.
  eexists _, _. split; [|eapply (store_then_search (reads_as 7) demo (store_cmd 2 "A" "zz") _
     empty_command empty_command); [apply demo_reachable | done | vm_compute; reflexivity |]];
  vm_compute; reflexivity.
Defined.

(** no command ever removes content: a CID held by a slice is still held by
    it, with the slice's capacity, after any further command.  Slices therefore
    never evict. *)
Theorem content_never_removed e x resp c x' resp' r i cap cids :
  reachable x →
  XcacheController_handleCmd e x resp c = Ok (x', resp', r) →
  slices (abs x) !! i = Some (cap, cids) →
  ∃ cids', slices (abs x') !! i = Some (cap, cids') ∧ cids ⊆ cids'.
Proof.
  intros Hr H Hi. pose proof (reachable_wf x Hr) as Hwf.
  apply step_refines in H as Hs; [|done].
  apply (f_equal fst) in Hs. cbn [fst] in Hs. rewrite <-Hs. clear Hs H.
  unfold spec_step. destruct (cmd c); eauto.
  - unfold spec_store. destruct (slices (abs x) !! contextid c) as [[cap' cids']|] eqn:E; [|eauto].
    case_decide; [by eauto|]. cbn [fst slices].
    destruct (decide (i = contextid c)) as [->|].
    + rewrite lookup_insert_eq. eexists. split; [by rewrite Hi in E; simplify_eq|]. set_solver.
    + rewrite lookup_insert_ne by done. eauto.
  - unfold spec_newslice. destruct (slices (abs x) !! contextid c); [by eauto|]. cbn [fst slices].
    rewrite lookup_insert_ne; [by eauto|].
    intros <-. rewrite abs_slices_lookup in Hi.
    destruct (sliceMap x !! (last_id (abs x) + 1)) eqn:E; [|done].
    pose proof (wf_ids x Hwf (context_id x + 1) ltac:(eauto)). lia.
Qed.

Lemma content_never_removed_witness :
  ∃ cids', slices (abs (match XcacheController_handleCmd (reads_as 3) demo empty_command (store_cmd 1 "B" "b") with
                        | Ok (x, _, _) => x | Ub _ => demo end)) !! 1 = Some (10, cids') ∧
    {["A"]} ⊆ cids'.
Proof.
  eapply (content_never_removed (reads_as 3) demo empty_command (store_cmd 1 "B" "b") _ empty_command 0).
  - apply demo_reachable.
  - vm_compute. reflexivity.
  - vm_compute. reflexivity.
Defined.

(** content is shared between slices by CID alone: after a STORE into one
    slice, every other slice that already held the CID returns the new bytes. *)
Theorem store_overwrites_other_slices e x c x' resp resp' i p :
  reachable x → cmd c = XCACHE_STORE →
  XcacheController_handleCmd e x resp c = Ok (x', resp', 0) →
  sliceMap x !! i = Some p → holds x (cid c) p = true →
  XcacheSlice_search x' p c = Ok (x', data c).
Proof.
  intros Hr Hcmd H Hi Hh. pose proof (reachable_wf x Hr) as Hwf.
  assert (wf x') as Hwf' by eauto with xia.
  assert (sliceMap x' = sliceMap x) as Hsm.
  { unfold XcacheController_handleCmd in H. rewrite Hcmd in H. res_inv H.
    destruct a as [y r]. injection H as <- <- ->.
    destruct (controller_store_cases e x c Hwf) as [_ Hc].
    destruct (wf_find_or_new e x c Hwf) as (_ & _ & Heq & _).
    destruct (sliceMap x !! contextid c); [|congruence].
    destruct Hc as (s & m & ? & ? & ? & ? & ? & Hst). rewrite Hst in Ha.
    destruct (s_metaMap s !! cid c); [done|]. destruct (len m) as [l|]; [|done]. simpl in Ha.
    case_bool_decide; [|done]. by injection Ha as <-. }
  apply step_refines in H; [|done]. unfold spec_step in H. rewrite Hcmd in H.
  unfold spec_store in H. destruct (slices (abs x) !! contextid c) as [[cap cids]|] eqn:E; [|done].
  case_decide as Hnin; [done|]. apply (f_equal fst) in H. cbn [fst] in H.
  unfold holds in Hh. destruct (sliceHeap x !! p) as [s|] eqn:Hs; [|done].
  destruct (s_metaMap s !! cid c) as [q|] eqn:Hq; [|done].
  pose proof (abs_lookup_slice x i p s Hwf Hi Hs) as Habs.
  assert (i ≠ contextid c) as Hne.
  { intros ->. rewrite E in Habs. injection Habs as _ ->. apply Hnin. by apply elem_of_dom. }
  eapply (search_abs x' i _ (dom (s_metaMap s))); [done|..].
  - rewrite <-H. cbn [slices]. by rewrite lookup_insert_ne.
  - by apply elem_of_dom.
  - rewrite <-H. cbn [objects]. apply lookup_insert_eq.
  - by rewrite Hsm.
Qed.

Lemma store_overwrites_other_slices_witness :
  ∃ x' p, sliceMap demo !! 1 = Some p ∧
    XcacheSlice_search demo p (store_cmd 2 "A" "zz") = Ok (demo, "aaaa") ∧
    XcacheSlice_search x' p (store_cmd 2 "A" "zz") = Ok (x', "zz").
Proof.
  eexists _, _. split; [vm_compute; reflexivity|]. split; [vm_compute; reflexivity|].
  eapply (store_overwrites_other_slices (reads_as 7) demo (store_cmd 2 "A" "zz") _
     empty_command empty_command 1); [apply demo_reachable | done | vm_compute; reflexivity ..].
Defined.

(** The bytes a slice answers for, by the length fields of its metas. *)
Definition total_len (x : Xcache) (s : XcacheSlice) : Z :=
  foldr (λ q acc, match metaHeap x !! q with Some m => default 0 (len m) + acc | None => acc end) 0
    ((map_to_list (s_metaMap s)).*2).

(** the capacity of a slice is checked against each object alone: a
    reachable slice of 10 bytes holds objects of 10 bytes each, 20 in total. *)
Theorem capacity_not_enforced :
  ∃ x p s, reachable x ∧ sliceHeap x !! p = Some s ∧ maxSize s < total_len x s.
Proof.
  assert (∃ x, run_cmds (reads_as 10) XcacheController_new (demo_cmds ++ [store_cmd 1 "B" "bbbb"]) = Ok x ∧
    ∃ p s, sliceHeap x !! p = Some s ∧ maxSize s < total_len x s) as (x & Hx & p & s & ? & ?).
  { eexists. split; [vm_compute; reflexivity|]. exists 1%nat. eexists.
    split; vm_compute; reflexivity. }
  exists x, p, s. split_and!; try done. eapply reachable_run; [constructor | done].
Qed.

(** the eviction loop terminates: with a live slice and meta it takes one
    round whatever the loop bound, either because there is room or because it
    faults; the bound [evict_fuel] is never the reason it stops. *)
Theorem makeRoom_one_round fuel x this meta s m :
  sliceHeap x !! this = Some s → metaHeap x !! meta = Some m →
  XcacheSlice_makeRoom (S fuel) x this meta = XcacheSlice_makeRoom evict_fuel x this meta ∧
  XcacheSlice_makeRoom (S fuel) x this meta ≠ Ub OutOfFuel.
Proof.
  intros Hs Hm. unfold evict_fuel. rewrite !(makeRoom_spec _ _ _ _ _ _ Hm Hs).
  split; [done|]. unfold XcacheSlice_hasRoom, XcacheMeta_getLength. destruct (len m); simpl; [|done]. by case_bool_decide.
Qed.

Lemma makeRoom_one_round_witness :
  ∃ p q, XcacheSlice_makeRoom 1 demo p q = XcacheSlice_makeRoom evict_fuel demo p q ∧
    XcacheSlice_makeRoom 1 demo p q ≠ Ub OutOfFuel.
Proof.
  exists 1%nat, 3%nat. eapply (makeRoom_one_round 0 demo 1 3); vm_compute; reflexivity.
Defined.
