(* ===== verification/XcacheWire.v ===== *)
(** * Xcache: the socket loop of the controller and the client library

    [read_loop] is the receive loop shared by XcacheController::run and by
    get_response_blocking; [serve_connection] and [serve] are one pass of
    [run] over the active connections; the Xcache* functions are the client
    API of src/xcache/api, up to the bytes it writes to the socket. *)

From stdpp Require Import base gmap sets list strings.
From Stdlib Require Import ZArith Lia Ascii.
From S2P Require Import Prelude Xcache XcacheInv XcacheSpec.

Local Open Scope Z_scope.

(** ** Receiving *)

(** One [read(fd, buf, 512)]: the bytes delivered (between 1 and 512), end of
    file, or an error. *)
Inductive read_result : Type :=
  | RdData (bs : list Z)
  | RdEof
  | RdErr.

Definition BUFLEN : nat := 512.
Definition zero_buf : list Z := replicate BUFLEN 0.

(** The bytes of a C string before its terminator, if there is one. *)
Fixpoint cstr (buf : list Z) : option (list Z) :=
  match buf with
  | [] => None
  | b :: buf => if decide (b = 0) then Some [] else (b ::.) <$> cstr buf
  end.

(** [buffer.append(buf)] reads [buf] as a C string: without a terminator it
    runs off the array. *)
Definition append_cstr (buffer buf : list Z) : res (list Z) :=
  match cstr buf with Some s => Ok (buffer ++ s) | None => Ub OutOfBounds end.

(** [do { ret = read(...); if(ret == 0) break; buffer.append(buf); } while(ret == 512)].
    [None]: the loop waits for more input.  [buf] keeps the bytes a short read
    does not overwrite. *)
Fixpoint read_loop (rs : list read_result) (buf buffer : list Z)
    : res (option (list Z * Z * list read_result)) :=
  match rs with
  | [] => Ok None
  | RdEof :: rs => Ok (Some (buffer, 0, rs))
  | RdErr :: rs => buffer ← append_cstr buffer buf; Ok (Some (buffer, -1, rs))
  | RdData bs :: rs =>
      let buf := bs ++ drop (length bs) buf in
      buffer ← append_cstr buffer buf;
      if decide (length bs = BUFLEN) then read_loop rs buf buffer
      else Ok (Some (buffer, Z.of_nat (length bs), rs))
  end.

(** ** The event loop (XcacheController::run) *)

Section run.
(** protobuf: what a decoder leaves in the message, and whether it succeeded; the
    bytes an encoder produces. *)
Variable ParseFromString : list Z → XcacheCommand * bool.
Variable SerializeToString : XcacheCommand → list Z.

(** A readable connection: the state, whether it stays open, what is written. *)
Definition serve_connection (e : surroundings) (x : Xcache) (rs : list read_result)
    : res (option (Xcache * bool * list Z * list read_result)) :=
  o ← read_loop rs zero_buf [];
  match o with
  | None => Ok None
  | Some (buffer, ret, rs) =>
      if decide (ret = 0) then Ok (Some (x, false, [], rs))
      else
        match ParseFromString buffer with
        | (_, false) => Ok (Some (x, true, [], rs))
        | (c, true) =>
            xr ← XcacheController_handleCmd e x empty_command c;
            Ok (Some (xr.1.1, true,
                      if decide (xr.2 = OK_SEND_RESPONSE) then SerializeToString xr.1.2 else [],
                      rs))
        end
  end.

(** The pass over [activeConnections]: [isset] is the result of [select],
    [input] what each descriptor has to read.  An erased element's iterator is
    used on: it designates the element that moved into its place. *)
Fixpoint serve (e : surroundings) (x : Xcache) (conns : list nat) (isset : nat → bool)
    (input : nat → list read_result) : res (Xcache * list nat * list (nat * list Z)) :=
  match conns with
  | [] => Ok (x, [], [])
  | fd :: conns =>
      if isset fd then
        o ← serve_connection e x (input fd);
        match o with
        | None => Ok (x, fd :: conns, [])
        | Some (x, isopen, out, _) =>
            r ← serve e x conns isset input;
            Ok (r.1.1, (if (isopen : bool) then [fd] else []) ++ r.1.2,
                (match out with [] => [] | _ => [(fd, out)] end) ++ r.2)
        end
      else
        r ← serve e x conns isset input;
        Ok (r.1.1, fd :: r.1.2, r.2)
  end.
End run.

(** ** The client library (src/xcache/api) *)

Definition DEFAULT_CHUNK_SIZE : Z := 2000.
Definition XIA_MAXBUF : Z := 15600.
(** [struct xcacheChunk]: [char cid[512]; void *buf; size_t len]. *)
Definition sizeof_xcacheChunk : Z := 528.

(** The command XcacheAllocateSlice sends. *)
Definition XcacheAllocateSlice_cmd (cache_size ttl cache_policy : Z) : XcacheCommand :=
  mkCmd (Some XCACHE_NEWSLICE) None None None None (Some ttl) (Some cache_size)
    (Some cache_policy).

(** get_response_blocking: the command is overwritten by what was parsed; a
    failed parse is not reported. *)
Definition get_response_blocking (ParseFromString : list Z → XcacheCommand * bool)
    (rs : list read_result) (c : XcacheCommand) : res (option (XcacheCommand * Z)) :=
  o ← read_loop rs zero_buf [];
  match o with
  | None => Ok None
  | Some (buffer, ret, _) =>
      if decide (ret = 0)
      then Ok (Some (mkCmd (Some XCACHE_ERROR) (f_contextId c) (f_cid c) (f_dag c) (f_data c)
                       (f_ttl c) (f_cacheSize c) (f_cachePolicy c), -1))
      else Ok (Some ((ParseFromString buffer).1, 0))
  end.

(** XcacheAllocateSlice: [sent] is what [write] returned; the context id is read
    from the response, as the [uint32_t] of [struct xcacheSlice]. *)
Definition XcacheAllocateSlice (ParseFromString : list Z → XcacheCommand * bool)
    (sent : Z) (rs : list read_result) (old cache_size ttl cache_policy : Z)
    : res (option (Z * Z)) :=
  if decide (sent < 0) then Ok (Some (old, sent))
  else
    o ← get_response_blocking ParseFromString rs
          (XcacheAllocateSlice_cmd cache_size ttl cache_policy);
    match o with
    | None => Ok None
    | Some (c, ret) =>
        Ok (Some (u32 (if decide (0 ≤ ret) then contextid c else -1), ret))
    end.

Definition chunk_cid : string := "CID:TODO".

Definition XcachePutChunk_cmd (ctx : Z) (buf : list ascii) : XcacheCommand :=
  mkCmd (Some XCACHE_STORE) (Some (i32 ctx)) (Some chunk_cid) None
    (Some (String.string_of_list_ascii buf)) None None None.

Definition XcacheGetChunk_cmd (slice : option Z) (addr : string) : XcacheCommand :=
  mkCmd (Some XCACHE_GETCHUNK) (i32 <$> slice) None (Some addr) None None None None.

(** The effective chunk size. *)
Definition clamp_chunkSize (chunkSize : Z) : Z :=
  if decide (chunkSize = 0) then DEFAULT_CHUNK_SIZE
  else if decide (XIA_MAXBUF < chunkSize) then XIA_MAXBUF else chunkSize.

Definition count_chunks (size chunkSize : Z) : Z :=
  let n := size / chunkSize in
  u32 (if decide (size mod chunkSize = 0) then n else n + 1).

(** The [while (!feof(fp))] loop.  [file] is what is left to read, [write i] the
    result of writing chunk [i]; [fread] sets the end-of-file flag when it falls
    short.  [chunkList] was allocated with [calloc(numChunks, chunkSize)]. *)
Section putfile.
Variable write : nat → Z.
Variables (ctx numChunks chunkSize : Z).

Fixpoint XcachePutFile_loop (fuel : nat) (file : list ascii) (eof : bool) (i : nat)
    (sent : list XcacheCommand) : res (nat * list XcacheCommand) :=
  match fuel with
  | O => Ub OutOfFuel
  | S fuel =>
      if eof then Ok (i, sent)
      else
        let chunk := take (Z.to_nat chunkSize) file in
        let rest := drop (Z.to_nat chunkSize) file in
        let eof := bool_decide (Z.of_nat (length chunk) < chunkSize) in
        if decide (chunk = []) then XcachePutFile_loop fuel rest eof i sent
        else if decide (numChunks * chunkSize < Z.of_nat (S i) * sizeof_xcacheChunk)
        then Ub OutOfBounds
        else
          let sent := sent ++ [XcachePutChunk_cmd ctx chunk] in
          if decide (write i < 0) then Ok (i, sent)
          else XcachePutFile_loop fuel rest eof (S i) sent
  end.
End putfile.

(** The [fname] argument: a null pointer, a file [stat] or [fopen] refuses, or a
    readable file. *)
Inductive putfile_arg : Type :=
  | NullName
  | Unreadable
  | Readable (file : list ascii).

(** XcachePutFile: the return code and the commands written to the socket. *)
Definition XcachePutFile (write : nat → Z) (slice : option Z) (fname : putfile_arg)
    (chunkSize : Z) : res (Z * list XcacheCommand) :=
  match slice, fname with
  | Some ctx, Readable file =>
      let chunkSize := clamp_chunkSize chunkSize in
      let numChunks := count_chunks (Z.of_nat (length file)) chunkSize in
      r ← XcachePutFile_loop write ctx numChunks chunkSize (2 + length file) file false 0 [];
      Ok (if decide (Z.of_nat r.1 = numChunks) then i32 numChunks else -1, r.2)
  | _, _ => Ok (-1, [])
  end.

(** ** Receiving: lemmas *)

Lemma cstr_app_zero bs z : ¬ In 0 bs → cstr (bs ++ 0 :: z) = Some bs.
Proof.
  induction bs as [|b bs IH]; simpl; intros Hnin; [done|].
  rewrite decide_False by naive_solver. by rewrite IH by naive_solver.
Qed.

Lemma cstr_None bs : ¬ In 0 bs → cstr bs = None.
Proof.
  induction bs as [|b bs IH]; simpl; intros Hnin; [done|].
  rewrite decide_False by naive_solver. by rewrite IH by naive_solver.
Qed.

(** The bytes of a message up to its first zero byte. *)
Fixpoint before_nul (bs : list Z) : list Z :=
  match bs with
  | [] => []
  | b :: bs => if decide (b = 0) then [] else b :: before_nul bs
  end.

Lemma cstr_before_nul bs z : cstr (bs ++ 0 :: z) = Some (before_nul bs).
Proof. induction bs as [|b bs IH]; simpl; [done|]. case_decide; [done|]. by rewrite IH. Qed.

Lemma before_nul_id bs : ¬ In 0 bs → before_nul bs = bs.
Proof.
  induction bs as [|b bs IH]; simpl; intros H; [done|].
  rewrite decide_False by naive_solver. f_equal. naive_solver.
Qed.

Lemma zero_buf_drop n : (n < BUFLEN)%nat →
  drop n zero_buf = 0 :: replicate (BUFLEN - S n) 0.
Proof.
  intros H. unfold zero_buf. rewrite drop_replicate.
  by replace (BUFLEN - n)%nat with (S (BUFLEN - S n)) by lia.
Qed.

(** a message that arrives in one read of fewer than 512 bytes is taken up to
    its first zero byte: all of it exactly when it has none. *)
Theorem read_loop_short bs rs :
  (length bs < BUFLEN)%nat →
  read_loop (RdData bs :: rs) zero_buf [] =
    Ok (Some (before_nul bs, Z.of_nat (length bs), rs)) ∧
  (before_nul bs = bs ↔ ¬ In 0 bs).
Proof.
  intros Hlen. split.
  - simpl. rewrite zero_buf_drop by done. unfold append_cstr. rewrite cstr_before_nul. simpl.
    by rewrite decide_False by lia.
  - split; [|apply before_nul_id]. intros <-.
    clear. induction bs as [|b bs IH]; simpl; [tauto|]. case_decide; simpl; [tauto|]. naive_solver.
Qed.

Lemma read_loop_short_witness :
  read_loop [RdData [64; 0; 7]] zero_buf [] = Ok (Some ([64], 3, [])).
Proof. apply (read_loop_short [64; 0; 7] []). vm_compute. lia. Defined.

(** a full read of 512 bytes without a zero byte makes the receive loop read
    past the end of its buffer, on the server and in the client library. *)
Theorem read_loop_overrun bs rs buffer :
  length bs = BUFLEN → ¬ In 0 bs →
  read_loop (RdData bs :: rs) zero_buf buffer = Ub OutOfBounds.
Proof.
  intros Hlen Hnin. simpl. rewrite drop_ge by (unfold zero_buf; rewrite length_replicate; lia).
  unfold append_cstr. by rewrite app_nil_r, cstr_None.
Qed.

Lemma read_loop_overrun_witness :
  read_loop [RdData (replicate 512 65)] zero_buf [] = Ub OutOfBounds.
Proof.
  apply (read_loop_overrun (replicate 512 65) [] []); [by rewrite length_replicate|].
  intros H%list_elem_of_In%elem_of_replicate. naive_solver.
Defined.

(** ** Putting a file *)

(** [parts] is a division of [file] into non-empty pieces of at most [n] bytes,
    as few as possible. *)
Record divides (n : nat) (file : list ascii) (parts : list (list ascii)) : Prop := {
  div_concat : concat parts = file;
  div_sizes : Forall (λ p, p ≠ [] ∧ (length p ≤ n)%nat) parts;
  div_enough : (length file ≤ length parts * n)%nat;
  div_least : (length parts * n < length file + n)%nat }.

Lemma divides_nil n : (0 < n)%nat → divides n [] [].
Proof. split; simpl; try lia; constructor. Qed.

Lemma divides_last n file : (0 < n)%nat → file ≠ [] → (length file ≤ n)%nat → divides n file [file].
Proof.
  intros ? Hf ?. assert (length file ≠ 0)%nat by (by destruct file).
  split; simpl; rewrite ?app_nil_r; try lia; [done|]. by repeat constructor.
Qed.

Lemma divides_cons n file parts : (0 < n)%nat → (n ≤ length file)%nat →
  divides n (drop n file) parts → divides n file (take n file :: parts).
Proof.
  intros ? ? [Hc Hs He Hl]. rewrite length_drop in He, Hl. split; simpl; try lia.
  - by rewrite Hc, take_drop.
  - constructor; [|done]. rewrite length_take. split; [|lia].
    intros Heq%(f_equal length). rewrite length_take in Heq. simpl in Heq. lia.
Qed.

Lemma count_chunks_spec n file parts : (0 < n)%nat → Z.of_nat (length file) < 2 ^ 31 →
  divides n file parts →
  count_chunks (Z.of_nat (length file)) (Z.of_nat n) = Z.of_nat (length parts).
Proof.
  intros Hn Hf [_ _ He Hl]. unfold count_chunks.
  pose proof (Z.div_mod (Z.of_nat (length file)) (Z.of_nat n) ltac:(lia)).
  pose proof (Z.mod_pos_bound (Z.of_nat (length file)) (Z.of_nat n) ltac:(lia)).
  set (q := Z.of_nat (length file) / Z.of_nat n) in *.
  set (r := Z.of_nat (length file) mod Z.of_nat n) in *.
  assert ((if decide (r = 0) then q else q + 1) = Z.of_nat (length parts)) as ->
    by (case_decide; nia).
  apply wrapU_small. nia.
Qed.

Section putfile_proof.
Context (write : nat → Z) (ctx numChunks : Z) (n : nat).
Context (Hw : ∀ j, 0 ≤ write j) (Hn : (528 ≤ n)%nat).

Lemma putfile_loop_ok fuel file i sent :
  (2 + length file ≤ fuel)%nat →
  Z.of_nat (i * n + length file) ≤ numChunks * Z.of_nat n →
  ∃ parts, divides n file parts ∧
    XcachePutFile_loop write ctx numChunks (Z.of_nat n) fuel file false i sent =
      Ok ((i + length parts)%nat, sent ++ (XcachePutChunk_cmd ctx <$> parts)).
Proof using Hw Hn.
  revert file i sent. induction fuel as [|fuel IH]; intros file i sent Hfuel Hroom; [lia|].
  cbn [XcachePutFile_loop]. rewrite Nat2Z.id.
  destruct (decide (file = [])) as [->|Hne].
  { rewrite take_nil, drop_nil, decide_True by done. destruct fuel as [|fuel]; [simpl in *; lia|].
    exists []. split; [apply divides_nil; lia|]. simpl.
    rewrite bool_decide_true by lia. by rewrite Nat.add_0_r, app_nil_r. }
  assert (length file ≠ 0)%nat by (by destruct file).
  rewrite decide_False
    by (intros Heq%(f_equal length); rewrite length_take in Heq; simpl in Heq; lia).
  assert (Z.of_nat i + 1 ≤ numChunks) as Hi by nia.
  rewrite decide_False by (unfold sizeof_xcacheChunk; nia).
  rewrite decide_False by (specialize (Hw i); lia).
  rewrite length_take. destruct (decide (n ≤ length file)%nat) as [Hle|Hgt].
  - rewrite bool_decide_false by lia.
    destruct (IH (drop n file) (S i) (sent ++ [XcachePutChunk_cmd ctx (take n file)]))
      as (parts & Hdiv & ->); [rewrite length_drop; lia | rewrite length_drop; nia |].
    exists (take n file :: parts). split; [by apply divides_cons; try lia|].
    simpl. rewrite <-app_assoc. do 2 f_equal. lia.
  - rewrite bool_decide_true by lia. destruct fuel as [|fuel]; [lia|]. simpl.
    exists [file]. split; [apply divides_last; [lia|done|lia]|].
    rewrite take_ge by lia. simpl. by rewrite Nat.add_1_r.
Qed.
End putfile_proof.

Lemma divides_exists n file : (0 < n)%nat → ∃ parts, divides n file parts.
Proof.
  intros Hn. induction file as [file IH] using (induction_ltof1 _ (@length _)).
  unfold ltof in IH. destruct (decide (file = [])) as [->|Hne]; [eauto using divides_nil|].
  destruct (decide (n ≤ length file)%nat).
  - destruct (IH (drop n file)) as [parts Hp]; [rewrite length_drop; lia|].
    exists (take n file :: parts). by apply divides_cons.
  - exists [file]. apply divides_last; auto with lia.
Qed.

(** with a chunk size of at least 528 bytes (or the default) and a socket
    that accepts every write, XcachePutFile sends the file as the shortest
    sequence of STORE commands whose data concatenates to it, and returns their
    number. *)
Theorem putfile_sends_file write ctx file chunkSize :
  (∀ j, 0 ≤ write j) → Z.of_nat (length file) < 2 ^ 31 →
  chunkSize = 0 ∨ 528 ≤ chunkSize →
  ∃ parts, divides (Z.to_nat (clamp_chunkSize chunkSize)) file parts ∧
    XcachePutFile write (Some ctx) (Readable file) chunkSize =
      Ok (Z.of_nat (length parts), XcachePutChunk_cmd ctx <$> parts).
Proof.
  intros Hw Hlen Hcs.
  assert (528 ≤ clamp_chunkSize chunkSize) as Hge.
  { unfold clamp_chunkSize, DEFAULT_CHUNK_SIZE, XIA_MAXBUF. repeat case_decide; lia. }
  unfold XcachePutFile. set (cs := clamp_chunkSize chunkSize) in *.
  assert (cs = Z.of_nat (Z.to_nat cs)) as Hcsn by lia.
  destruct (divides_exists (Z.to_nat cs) file ltac:(lia)) as [parts0 Hd0].
  pose proof (count_chunks_spec (Z.to_nat cs) _ _ ltac:(lia) Hlen Hd0) as Hcount.
  rewrite <-Hcsn in Hcount. rewrite Hcount, Hcsn.
  destruct (putfile_loop_ok write ctx (Z.of_nat (length parts0)) (Z.to_nat cs) Hw ltac:(lia)
    (2 + length file) file 0 []) as (parts & Hd & ->); [done | destruct Hd0; nia |].
  rewrite Nat2Z.id. exists parts. split; [done|]. simpl.
  assert (length parts = length parts0) as ->.
  { apply Nat2Z.inj. pose proof (count_chunks_spec (Z.to_nat cs) _ _ ltac:(lia) Hlen Hd) as H.
    rewrite <-Hcsn in H. congruence. }
  rewrite decide_True by done. unfold i32. rewrite wrapS_small; [done | lia |].
  destruct Hd0. simpl. nia.
Qed.

Lemma putfile_sends_file_witness :
  ∃ parts, divides (Z.to_nat (clamp_chunkSize 0)) ["a"; "b"]%char parts ∧
    XcachePutFile (λ _, 40) (Some 1) (Readable ["a"; "b"]%char) 0 =
      Ok (Z.of_nat (length parts), XcachePutChunk_cmd 1 <$> parts).
Proof. apply (putfile_sends_file (λ _, 40) 1 ["a"; "b"]%char 0); simpl; lia. Defined.

Section putfile_overrun_proof.
Context (write : nat → Z) (ctx numChunks : Z) (n : nat).
Context (Hw : ∀ j, 0 ≤ write j) (Hn : (0 < n < 528)%nat).

Lemma putfile_loop_overrun fuel file i sent :
  (length file < fuel)%nat → file ≠ [] →
  numChunks * Z.of_nat n < Z.of_nat (i * n + length file + n) →
  XcachePutFile_loop write ctx numChunks (Z.of_nat n) fuel file false i sent = Ub OutOfBounds.
Proof using Hw Hn.
  revert file i sent. induction fuel as [|fuel IH]; intros file i sent Hfuel Hne Hroom; [lia|].
  assert (length file ≠ 0)%nat by (by destruct file).
  cbn [XcachePutFile_loop]. rewrite Nat2Z.id.
  rewrite decide_False
    by (intros Heq%(f_equal length); rewrite length_take in Heq; simpl in Heq; lia).
  case_decide as Hb; [done|]. unfold sizeof_xcacheChunk in Hb.
  rewrite decide_False by (specialize (Hw i); lia). rewrite length_take.
  assert (n < length file)%nat.
  { destruct (decide (n < length file)%nat); [done|].
    assert (numChunks < Z.of_nat i + 2) by nia. nia. }
  rewrite bool_decide_false by lia. apply IH.
  - rewrite length_drop. lia.
  - intros Heq%(f_equal length). rewrite length_drop in Heq. simpl in Heq. lia.
  - rewrite length_drop. nia.
Qed.
End putfile_overrun_proof.

(** with a chunk size below 528 bytes and a non-empty file, XcachePutFile
    writes past the end of its chunk array, which was allocated with the chunk
    size in place of the size of a chunk descriptor. *)
Theorem putfile_overrun write ctx file chunkSize :
  (∀ j, 0 ≤ write j) → Z.of_nat (length file) < 2 ^ 31 → file ≠ [] →
  0 < chunkSize < 528 →
  XcachePutFile write (Some ctx) (Readable file) chunkSize = Ub OutOfBounds.
Proof.
  intros Hw Hlen Hne Hcs. unfold XcachePutFile.
  assert (clamp_chunkSize chunkSize = chunkSize) as ->.
  { unfold clamp_chunkSize, XIA_MAXBUF. by repeat case_decide; try lia. }
  destruct (divides_exists (Z.to_nat chunkSize) file ltac:(lia)) as [parts Hd].
  pose proof (count_chunks_spec (Z.to_nat chunkSize) _ _ ltac:(lia) Hlen Hd) as Hcount.
  rewrite Z2Nat.id in Hcount by lia. rewrite Hcount.
  replace chunkSize with (Z.of_nat (Z.to_nat chunkSize)) at 1 by lia.
  rewrite putfile_loop_overrun; [done | done | lia | lia | done |]. destruct Hd. lia.
Qed.

Lemma putfile_overrun_witness :
  XcachePutFile (λ _, 40) (Some 1) (Readable ["a"; "b"]%char) 1 = Ub OutOfBounds.
Proof. apply (putfile_overrun (λ _, 40) 1 ["a"; "b"]%char 1); simpl; try lia; done. Defined.

(** ** A file put into a slice of a running controller *)

Lemma spec_step_putchunk k ctx p :
  spec_step k (XcachePutChunk_cmd ctx p) =
  match slices k !! i32 ctx with
  | None => (k, -1)
  | Some (cap, cids) =>
      if decide (chunk_cid ∈ cids) then (k, -1)
      else (mkCache (<[i32 ctx := (cap, {[ chunk_cid ]} ∪ cids)]> (slices k))
              (<[chunk_cid := String.string_of_list_ascii p]> (objects k)) (last_id k), 0)
  end.
Proof. reflexivity. Qed.

Lemma putchunk_again e x ctx ps x' cap cids : wf x →
  slices (abs x) !! i32 ctx = Some (cap, cids) → chunk_cid ∈ cids →
  run_cmds e x (XcachePutChunk_cmd ctx <$> ps) = Ok x' → abs x' = abs x.
Proof.
  revert x. induction ps as [|p ps IH]; intros x Hwf Hs Hin H; simpl in H; [by injection H as <-|].
  res_inv H. destruct a as [[y resp] r]. assert (wf y) by eauto with xia.
  apply step_refines in Ha; [|done]. rewrite spec_step_putchunk, Hs, decide_True in Ha by done.
  apply (f_equal fst) in Ha. cbn [fst] in Ha.
  rewrite Ha. apply (IH y); [done | by rewrite <-Ha | done | done].
Qed.

(** of a file put into a slice that has no chunk yet, only the first piece
    is in the cache afterwards, whatever the file's length, because every chunk
    is sent under the same CID and the slice refuses the CID it has. *)
Theorem putfile_keeps_first_chunk e x ctx p ps x' cap cids :
  reachable x → slices (abs x) !! i32 ctx = Some (cap, cids) → chunk_cid ∉ cids →
  run_cmds e x (XcachePutChunk_cmd ctx <$> p :: ps) = Ok x' →
  slices (abs x') = <[i32 ctx := (cap, {[ chunk_cid ]} ∪ cids)]> (slices (abs x)) ∧
  objects (abs x') = <[chunk_cid := String.string_of_list_ascii p]> (objects (abs x)).
Proof.
  intros Hwf%reachable_wf Hs Hnin H. simpl in H. res_inv H. destruct a as [[y resp] r].
  assert (wf y) by eauto with xia.
  apply step_refines in Ha; [|done]. rewrite spec_step_putchunk, Hs, decide_False in Ha by done.
  apply (f_equal fst) in Ha. cbn [fst] in Ha.
  rewrite (putchunk_again e y ctx ps x' cap ({[ chunk_cid ]} ∪ cids)), <-Ha.
  - done.
  - done.
  - rewrite <-Ha. cbn [slices]. apply lookup_insert_eq.
  - set_solver.
  - done.
Qed.

Lemma putfile_keeps_first_chunk_witness :
  ∃ x', objects (abs x') = <[chunk_cid := "a"]> (objects (abs demo)) ∧
    run_cmds (reads_as 3) demo (XcachePutChunk_cmd 2 <$> [["a"]; ["b"]; ["c"]]%char) = Ok x'.
Proof.
  eexists. split; [|vm_compute; reflexivity].
  eapply (putfile_keeps_first_chunk (reads_as 3) demo 2 ["a"]%char [["b"]; ["c"]]%char _ 10 ∅).
  - apply demo_reachable.
  - vm_compute. reflexivity.
  - set_solver.
  - vm_compute. reflexivity.
Defined.
