(* ===== verification/Sha1.v ===== *)
(** The hash function of the router: elements/ipsec/sha1_impl.cc, and that it is
    the SHA-1 of the standard.  [unsigned long] has 64 bits: the rotations leave
    bits above the lower half of a word, which are never used.

    The array of a context starts uninitialised: a word that was never written is
    [None].  To use such a word is undefined ([init]).  To load it into a variable
    is undefined by the rules of the language, and harmless on machines that
    know no such values; [strict] says which of the two is meant. *)

From Stdlib Require Import ZArith Lia.
From stdpp Require Import base list.
From S2P Require Import Prelude.
Local Open Scope Z_scope.

(** ** The code *)

Definition SHA_CBLOCK : nat := 64.
Definition SHA_LBLOCK : nat := 16.
Definition SHA_LAST_BLOCK : nat := 56.

Definition shl (x n : Z) : Z := u64 (Z.shiftl x n).

(** [*c++]: [c] is what is left to read. *)
Definition next_byte (c : list Z) : res (Z * list Z) :=
  match c with [] => Ub OutOfBounds | b :: c => Ok (b, c) end.

(** [l = p\[i\]]. *)
Definition load (strict : bool) (p : list (option Z)) (i : nat) : res (option Z) :=
  l ← vget p i; if strict then z ← init l; Ok (Some z) else Ok l.

(** [l |= *c++ << n] and [l = *c++ << n]. *)
Definition or_byte (n : Z) (lc : Z * list Z) : res (Z * list Z) :=
  b ← next_byte lc.2; Ok (Z.lor lc.1 (shl b.1 n), b.2).
Definition set_byte (n : Z) (c : list Z) : res (Z * list Z) :=
  b ← next_byte c; Ok (shl b.1 n, b.2).

Definition c2nl (c : list Z) : res (Z * list Z) :=
  s ← set_byte 24 c; s ← or_byte 16 s; s ← or_byte 8 s; or_byte 0 s.

(** The cases of the switch fall through. *)
Definition p_c2nl (c : list Z) (l : option Z) (n : nat) : res (Z * list Z) :=
  match n with
  | 0%nat => s ← set_byte 24 c; s ← or_byte 16 s; s ← or_byte 8 s; or_byte 0 s
  | 1%nat => l ← init l; s ← or_byte 16 (l, c); s ← or_byte 8 s; or_byte 0 s
  | 2%nat => l ← init l; s ← or_byte 8 (l, c); or_byte 0 s
  | 3%nat => l ← init l; or_byte 0 (l, c)
  | _ => l ← init l; Ok (l, c)
  end.

(** The bytes are read from the last to the first. *)
Definition c2nl_p (c : list Z) (n : nat) : res Z :=
  l ← (match n with
       | 3%nat => b ← vget c 2; Ok (shl b 8)
       | _ => Ok 0
       end);
  l ← (match n with
       | 3%nat | 2%nat => b ← vget c 1; Ok (Z.lor l (shl b 16))
       | _ => Ok l
       end);
  match n with
  | 3%nat | 2%nat | 1%nat => b ← vget c 0; Ok (Z.lor l (shl b 24))
  | _ => Ok l
  end.

(** The switch is left when [len] bytes are read. *)
Definition p_c2nl_p (c : list Z) (l : option Z) (sc : nat) (len : nat) : res Z :=
  s ← (match sc with 0%nat => set_byte 24 c | _ => l ← init l; Ok (l, c) end);
  let len1 := match sc with 0%nat => (len - 1)%nat | _ => len end in
  if decide (sc = 0%nat ∧ len1 = 0%nat) then Ok s.1
  else
    s ← (match sc with 0%nat | 1%nat => or_byte 16 s | _ => Ok s end);
    let len2 := match sc with 0%nat | 1%nat => (len1 - 1)%nat | _ => len1 end in
    if decide ((sc ≤ 1)%nat ∧ len2 = 0%nat) then Ok s.1
    else s ← (match sc with 0%nat | 1%nat | 2%nat => or_byte 8 s | _ => Ok s end); Ok s.1.

Definition nl2c (l : Z) : list Z :=
  [Z.land (Z.shiftr l 24) 255; Z.land (Z.shiftr l 16) 255; Z.land (Z.shiftr l 8) 255; Z.land l 255].

Definition ROTATE (a n : Z) : Z := Z.lor (shl a n) (Z.shiftr (Z.land a (2 ^ 32 - 1)) (32 - n)).

Definition F_00_19 (b c d : Z) : Z := Z.lxor (Z.land (Z.lxor c d) b) d.
Definition F_20_39 (b c d : Z) : Z := Z.lxor (Z.lxor b c) d.
Definition F_40_59 (b c d : Z) : Z := Z.lor (Z.land b c) (Z.land (Z.lor b c) d).
Definition F_60_79 : Z → Z → Z → Z := F_20_39.

Definition K_00_19 : Z := 0x5a827999.
Definition K_20_39 : Z := 0x6ed9eba1.
Definition K_40_59 : Z := 0x8f1bbcdc.
Definition K_60_79 : Z := 0xca62c1d6.

(** The registers of [sha1_block] and its array X; T and X start uninitialised. *)
Inductive reg := rA | rB | rC | rD | rE | rT.
Definition reg_index (r : reg) : nat :=
  match r with rA => 0 | rB => 1 | rC => 2 | rD => 3 | rE => 4 | rT => 5 end.

Record block_state := mkBlock { regs : list (option Z); X : list (option Z) }.

Definition reg_get (s : block_state) (r : reg) : res Z := o ← vget (regs s) (reg_index r); init o.
Definition reg_set (s : block_state) (r : reg) (z : Z) : block_state :=
  mkBlock (<[reg_index r := Some z]> (regs s)) (X s).

Inductive source := inW | inX.
Definition word_of (W : list (option Z)) (s : block_state) (x : source) (i : nat) : res Z :=
  o ← vget (match x with inW => W | inX => X s end) i; init o.

Definition Xupdate (i : nat) (ia ib ic id : source) (W : list (option Z)) (s : block_state) : res (Z * block_state) :=
  wa ← word_of W s ia (i mod 16); wb ← word_of W s ib ((i + 2) mod 16);
  wc ← word_of W s ic ((i + 8) mod 16); wd ← word_of W s id ((i + 13) mod 16);
  let f := ROTATE (Z.lxor (Z.lxor (Z.lxor wa wb) wc) wd) 1 in
  x ← vset (X s) (i mod 16) (Some f);
  Ok (f, mkBlock (regs s) x).

(** The common end of the macros: [w] is the word of the round. *)
Definition BODY (K : Z) (F : Z → Z → Z → Z) (a b c d e f : reg) (w : Z) (s : block_state) : res block_state :=
  va ← reg_get s a; vb ← reg_get s b; vc ← reg_get s c; vd ← reg_get s d; ve ← reg_get s e;
  let s := reg_set s f (u64 (w + ve + K + ROTATE va 5 + F vb vc vd)) in
  Ok (reg_set s b (ROTATE vb 30)).

Definition BODY_00_15 (i : nat) (a b c d e f : reg) (xa : source) (W : list (option Z)) (s : block_state) : res block_state :=
  w ← word_of W s xa i; BODY K_00_19 F_00_19 a b c d e f w s.
Definition BODY_16_19 (i : nat) (a b c d e f : reg) (xa xb xc xd : source) (W : list (option Z)) (s : block_state) : res block_state :=
  ws ← Xupdate i xa xb xc xd W s; BODY K_00_19 F_00_19 a b c d e f ws.1 ws.2.
Definition BODY_20_31 (i : nat) (a b c d e f : reg) (xa xb xc xd : source) (W : list (option Z)) (s : block_state) : res block_state :=
  ws ← Xupdate i xa xb xc xd W s; BODY K_20_39 F_20_39 a b c d e f ws.1 ws.2.
Definition BODY_32_39 (i : nat) (a b c d e f : reg) (xa : source) (W : list (option Z)) (s : block_state) : res block_state :=
  ws ← Xupdate i xa xa xa xa W s; BODY K_20_39 F_20_39 a b c d e f ws.1 ws.2.
Definition BODY_40_59 (i : nat) (a b c d e f : reg) (xa : source) (W : list (option Z)) (s : block_state) : res block_state :=
  ws ← Xupdate i xa xa xa xa W s; BODY K_40_59 F_40_59 a b c d e f ws.1 ws.2.
Definition BODY_60_79 (i : nat) (a b c d e f : reg) (xa : source) (W : list (option Z)) (s : block_state) : res block_state :=
  ws ← Xupdate i xa xa xa xa W s; BODY K_60_79 F_60_79 a b c d e f ws.1 ws.2.

Definition rounds : list (list (option Z) → block_state → res block_state) :=
  [BODY_00_15 0 rA rB rC rD rE rT inW;
   BODY_00_15 1 rT rA rB rC rD rE inW;
   BODY_00_15 2 rE rT rA rB rC rD inW;
   BODY_00_15 3 rD rE rT rA rB rC inW;
   BODY_00_15 4 rC rD rE rT rA rB inW;
   BODY_00_15 5 rB rC rD rE rT rA inW;
   BODY_00_15 6 rA rB rC rD rE rT inW;
   BODY_00_15 7 rT rA rB rC rD rE inW;
   BODY_00_15 8 rE rT rA rB rC rD inW;
   BODY_00_15 9 rD rE rT rA rB rC inW;
   BODY_00_15 10 rC rD rE rT rA rB inW;
   BODY_00_15 11 rB rC rD rE rT rA inW;
   BODY_00_15 12 rA rB rC rD rE rT inW;
   BODY_00_15 13 rT rA rB rC rD rE inW;
   BODY_00_15 14 rE rT rA rB rC rD inW;
   BODY_00_15 15 rD rE rT rA rB rC inW;
   BODY_16_19 16 rC rD rE rT rA rB inW inW inW inW;
   BODY_16_19 17 rB rC rD rE rT rA inW inW inW inW;
   BODY_16_19 18 rA rB rC rD rE rT inW inW inW inW;
   BODY_16_19 19 rT rA rB rC rD rE inW inW inW inX;
   BODY_20_31 20 rE rT rA rB rC rD inW inW inW inX;
   BODY_20_31 21 rD rE rT rA rB rC inW inW inW inX;
   BODY_20_31 22 rC rD rE rT rA rB inW inW inW inX;
   BODY_20_31 23 rB rC rD rE rT rA inW inW inW inX;
   BODY_20_31 24 rA rB rC rD rE rT inW inW inX inX;
   BODY_20_31 25 rT rA rB rC rD rE inW inW inX inX;
   BODY_20_31 26 rE rT rA rB rC rD inW inW inX inX;
   BODY_20_31 27 rD rE rT rA rB rC inW inW inX inX;
   BODY_20_31 28 rC rD rE rT rA rB inW inW inX inX;
   BODY_20_31 29 rB rC rD rE rT rA inW inW inX inX;
   BODY_20_31 30 rA rB rC rD rE rT inW inX inX inX;
   BODY_20_31 31 rT rA rB rC rD rE inW inX inX inX;
   BODY_32_39 32 rE rT rA rB rC rD inX;
   BODY_32_39 33 rD rE rT rA rB rC inX;
   BODY_32_39 34 rC rD rE rT rA rB inX;
   BODY_32_39 35 rB rC rD rE rT rA inX;
   BODY_32_39 36 rA rB rC rD rE rT inX;
   BODY_32_39 37 rT rA rB rC rD rE inX;
   BODY_32_39 38 rE rT rA rB rC rD inX;
   BODY_32_39 39 rD rE rT rA rB rC inX;
   BODY_40_59 40 rC rD rE rT rA rB inX;
   BODY_40_59 41 rB rC rD rE rT rA inX;
   BODY_40_59 42 rA rB rC rD rE rT inX;
   BODY_40_59 43 rT rA rB rC rD rE inX;
   BODY_40_59 44 rE rT rA rB rC rD inX;
   BODY_40_59 45 rD rE rT rA rB rC inX;
   BODY_40_59 46 rC rD rE rT rA rB inX;
   BODY_40_59 47 rB rC rD rE rT rA inX;
   BODY_40_59 48 rA rB rC rD rE rT inX;
   BODY_40_59 49 rT rA rB rC rD rE inX;
   BODY_40_59 50 rE rT rA rB rC rD inX;
   BODY_40_59 51 rD rE rT rA rB rC inX;
   BODY_40_59 52 rC rD rE rT rA rB inX;
   BODY_40_59 53 rB rC rD rE rT rA inX;
   BODY_40_59 54 rA rB rC rD rE rT inX;
   BODY_40_59 55 rT rA rB rC rD rE inX;
   BODY_40_59 56 rE rT rA rB rC rD inX;
   BODY_40_59 57 rD rE rT rA rB rC inX;
   BODY_40_59 58 rC rD rE rT rA rB inX;
   BODY_40_59 59 rB rC rD rE rT rA inX;
   BODY_60_79 60 rA rB rC rD rE rT inX;
   BODY_60_79 61 rT rA rB rC rD rE inX;
   BODY_60_79 62 rE rT rA rB rC rD inX;
   BODY_60_79 63 rD rE rT rA rB rC inX;
   BODY_60_79 64 rC rD rE rT rA rB inX;
   BODY_60_79 65 rB rC rD rE rT rA inX;
   BODY_60_79 66 rA rB rC rD rE rT inX;
   BODY_60_79 67 rT rA rB rC rD rE inX;
   BODY_60_79 68 rE rT rA rB rC rD inX;
   BODY_60_79 69 rD rE rT rA rB rC inX;
   BODY_60_79 70 rC rD rE rT rA rB inX;
   BODY_60_79 71 rB rC rD rE rT rA inX;
   BODY_60_79 72 rA rB rC rD rE rT inX;
   BODY_60_79 73 rT rA rB rC rD rE inX;
   BODY_60_79 74 rE rT rA rB rC rD inX;
   BODY_60_79 75 rD rE rT rA rB rC inX;
   BODY_60_79 76 rC rD rE rT rA rB inX;
   BODY_60_79 77 rB rC rD rE rT rA inX;
   BODY_60_79 78 rA rB rC rD rE rT inX;
   BODY_60_79 79 rT rA rB rC rD rE inX].

Record SHA1_ctx := mkCtx {
  c_h0 : Z; c_h1 : Z; c_h2 : Z; c_h3 : Z; c_h4 : Z;
  c_Nl : Z; c_Nh : Z;
  c_data : list (option Z);
  c_num : nat
}.

(** [INIT_DATA_h0] and the others. *)
Definition INIT_DATA : list Z := [0x67452301; 0xefcdab89; 0x98badcfe; 0x10325476; 0xc3d2e1f0].

(** The array of the context is not initialised: [junk] is what is there. *)
Definition SHA1_init (junk : list (option Z)) : SHA1_ctx :=
  mkCtx 0x67452301 0xefcdab89 0x98badcfe 0x10325476 0xc3d2e1f0 0 0 junk 0.

Definition set_data (c : SHA1_ctx) (p : list (option Z)) : SHA1_ctx :=
  mkCtx (c_h0 c) (c_h1 c) (c_h2 c) (c_h3 c) (c_h4 c) (c_Nl c) (c_Nh c) p (c_num c).
Definition set_num (c : SHA1_ctx) (n : nat) : SHA1_ctx :=
  mkCtx (c_h0 c) (c_h1 c) (c_h2 c) (c_h3 c) (c_h4 c) (c_Nl c) (c_Nh c) (c_data c) n.

(** One turn of the loop of [sha1_block]. *)
Definition sha1_block_one (c : SHA1_ctx) (W : list (option Z)) (T : option Z) (x : list (option Z))
    : res (SHA1_ctx * option Z * list (option Z)) :=
  s ← foldM (λ s r, r W s) (mkBlock [Some (c_h0 c); Some (c_h1 c); Some (c_h2 c); Some (c_h3 c); Some (c_h4 c); T] x) rounds;
  vE ← reg_get s rE; vT ← reg_get s rT; vA ← reg_get s rA; vB ← reg_get s rB; vC ← reg_get s rC;
  Ok (mkCtx (Z.land (u64 (c_h0 c + vE)) (2 ^ 32 - 1)) (Z.land (u64 (c_h1 c + vT)) (2 ^ 32 - 1))
        (Z.land (u64 (c_h2 c + vA)) (2 ^ 32 - 1)) (Z.land (u64 (c_h3 c + vB)) (2 ^ 32 - 1))
        (Z.land (u64 (c_h4 c + vC)) (2 ^ 32 - 1)) (c_Nl c) (c_Nh c) (c_data c) (c_num c), Some vT, X s).

(** A turn takes 64 from [num], which starts positive: [num] is enough fuel. *)
Fixpoint sha1_block_loop (fuel : nat) (c : SHA1_ctx) (W : list (option Z)) (num : Z) (T : option Z) (x : list (option Z)) : res SHA1_ctx :=
  match fuel with
  | O => Ub OutOfFuel
  | S fuel =>
      r ← sha1_block_one c W T x;
      let '(c, T, x) := r in
      if decide (num - 64 ≤ 0) then Ok c else sha1_block_loop fuel c (drop 16 W) (num - 64) T x
  end.
Definition sha1_block (c : SHA1_ctx) (W : list (option Z)) (num : Z) : res SHA1_ctx :=
  sha1_block_loop (S (Z.to_nat num)) c W num None (replicate 16 None).

(** [for (; sw < sw + n; sw++) { M_c2nl(data, l); p[sw] = l; }] *)
Fixpoint fill (n sw : nat) (p : list (option Z)) (bytes : list Z) : res (list (option Z) * list Z) :=
  match n with
  | O => Ok (p, bytes)
  | S n => lc ← c2nl bytes; p ← vset p sw (Some lc.1); fill n (S sw) p lc.2
  end.

(** [for (; i < i + n; i++) p[i] = 0;] *)
Fixpoint clear (n i : nat) (p : list (option Z)) : res (list (option Z)) :=
  match n with
  | O => Ok p
  | S n => p ← vset p i (Some 0); clear n (S i) p
  end.

(** The blocks of the input, then what is left of it. *)
Fixpoint update_blocks (fuel : nat) (c : SHA1_ctx) (bytes : list Z) : res (SHA1_ctx * list Z) :=
  match fuel with
  | O => Ub OutOfFuel
  | S fuel =>
      if decide (SHA_CBLOCK ≤ length bytes)%nat then
        pb ← fill SHA_LBLOCK 0 (c_data c) bytes;
        c ← sha1_block (set_data c pb.1) pb.1 64;
        update_blocks fuel c pb.2
      else Ok (c, bytes)
  end.

Definition update_rest (c : SHA1_ctx) (bytes : list Z) : res SHA1_ctx :=
  r ← update_blocks (S (length bytes)) c bytes;
  let '(c, bytes) := r in
  let len := length bytes in
  let ew := (len / 4)%nat in
  let ec := (len mod 4)%nat in
  pb ← fill ew 0 (c_data c) bytes;
  l ← c2nl_p pb.2 ec;
  p ← vset pb.1 ew (Some l);
  Ok (set_num (set_data c p) len).

Definition add_length (c : SHA1_ctx) (len : Z) : SHA1_ctx :=
  let l := Z.land (u64 (c_Nl c + shl len 3)) (2 ^ 32 - 1) in
  let Nh := if decide (l < c_Nl c) then u64 (c_Nh c + 1) else c_Nh c in
  mkCtx (c_h0 c) (c_h1 c) (c_h2 c) (c_h3 c) (c_h4 c) l (u64 (Nh + Z.shiftr len 29)) (c_data c) (c_num c).

Definition SHA1_update (strict : bool) (c : SHA1_ctx) (bytes : list Z) : res SHA1_ctx :=
  let len := length bytes in
  if decide (len = 0%nat) then Ok c
  else
    let c := add_length c (Z.of_nat len) in
    if decide (c_num c ≠ 0%nat) then
      let p := c_data c in
      let sw := (c_num c / 4)%nat in
      let sc := (c_num c mod 4)%nat in
      if decide (SHA_CBLOCK ≤ c_num c + len)%nat then
        l ← load strict p sw;
        lc ← p_c2nl bytes l sc;
        p ← vset p sw (Some lc.1);
        pb ← fill (SHA_LBLOCK - S sw) (S sw) p lc.2;
        c ← sha1_block (set_data c pb.1) pb.1 64;
        update_rest (set_num c 0) pb.2
      else
        let num := (c_num c + len)%nat in
        if decide (sc + len < 4)%nat then
          l ← load strict p sw;
          l ← p_c2nl_p bytes l sc len;
          p ← vset p sw (Some l);
          Ok (set_num (set_data c p) num)
        else
          let ew := (num / 4)%nat in
          let ec := (num mod 4)%nat in
          l ← load strict p sw;
          lc ← p_c2nl bytes l sc;
          p ← vset p sw (Some lc.1);
          pb ← fill (ew - S sw) (S sw) p lc.2;
          p ← (if decide (ec ≠ 0%nat) then l ← c2nl_p pb.2 ec; vset pb.1 (Nat.max (S sw) ew) (Some l) else Ok pb.1);
          Ok (set_num (set_data c p) num)
    else update_rest c bytes.

(** The digest, and the context with the final state. *)
Definition SHA1_final (strict : bool) (c : SHA1_ctx) : res (list Z * SHA1_ctx) :=
  let p := c_data c in
  let i := (c_num c / 4)%nat in
  l ← load strict p i;
  lc ← p_c2nl [128; 0; 0; 0] l (c_num c mod 4);
  p ← vset p i (Some lc.1);
  cp ← (if decide (SHA_LAST_BLOCK ≤ c_num c)%nat then
          p ← clear (SHA_LBLOCK - S i) (S i) p;
          c ← sha1_block (set_data c p) p 64;
          p ← clear (SHA_LBLOCK - 2) 0 p;
          Ok (c, p)
        else
          p ← clear (SHA_LBLOCK - 2 - S i) (S i) p;
          Ok (c, p));
  let '(c, p) := cp in
  p ← vset p (SHA_LBLOCK - 2) (Some (c_Nh c));
  p ← vset p (SHA_LBLOCK - 1) (Some (c_Nl c));
  c ← sha1_block (set_data c p) p 64;
  Ok (nl2c (c_h0 c) ++ nl2c (c_h1 c) ++ nl2c (c_h2 c) ++ nl2c (c_h3 c) ++ nl2c (c_h4 c), set_num c 0).

Definition SHA1_transform (c : SHA1_ctx) (b : list Z) : res SHA1_ctx :=
  pb ← fill SHA_LBLOCK 0 (replicate 16 None) b; sha1_block c pb.1 64.

(** What the router computes: the digest of data that comes in pieces. *)
Definition sha1_pieces (strict : bool) (junk : list (option Z)) (pieces : list (list Z)) : res (list Z) :=
  c ← foldM (SHA1_update strict) (SHA1_init junk) pieces; d ← SHA1_final strict c; Ok d.1.

(** ** The standard (FIPS 180-1), on 32-bit words *)

Definition rotl (n x : Z) : Z := Z.lor (u32 (Z.shiftl x n)) (Z.shiftr x (32 - n)).

Definition f_t (t : nat) (b c d : Z) : Z :=
  if decide (t < 20)%nat then Z.lor (Z.land b c) (Z.ldiff d b)
  else if decide (t < 40)%nat then Z.lxor (Z.lxor b c) d
  else if decide (t < 60)%nat then Z.lor (Z.lor (Z.land b c) (Z.land b d)) (Z.land c d)
  else Z.lxor (Z.lxor b c) d.
Definition K_t (t : nat) : Z :=
  if decide (t < 20)%nat then 0x5a827999 else if decide (t < 40)%nat then 0x6ed9eba1
  else if decide (t < 60)%nat then 0x8f1bbcdc else 0xca62c1d6.

Definition be32 (bs : list Z) : Z := fold_left (λ z b, 256 * z + b) bs 0.
Fixpoint words (n : nat) (bs : list Z) : list Z :=
  match n with O => [] | S n => be32 (take 4 bs) :: words n (drop 4 bs) end.

(** The schedule: sixteen words of the message, each later word from four
    earlier ones. *)
Definition extend (w : list Z) : list Z :=
  let t := length w in
  w ++ [rotl 1 (Z.lxor (Z.lxor (Z.lxor (w !!! (t - 3)%nat) (w !!! (t - 8)%nat)) (w !!! (t - 14)%nat)) (w !!! (t - 16)%nat))].
Definition schedule (w : list Z) : list Z := Nat.iter 64 extend w.

Record chain := mkChain { ch_a : Z; ch_b : Z; ch_c : Z; ch_d : Z; ch_e : Z }.
Definition round (w : list Z) (s : chain) (t : nat) : chain :=
  mkChain (u32 (rotl 5 (ch_a s) + f_t t (ch_b s) (ch_c s) (ch_d s) + ch_e s + w !!! t + K_t t))
    (ch_a s) (rotl 30 (ch_b s)) (ch_c s) (ch_d s).
Definition compress (h : chain) (w : list Z) : chain :=
  let s := fold_left (round (schedule w)) (seq 0 80) h in
  mkChain (u32 (ch_a h + ch_a s)) (u32 (ch_b h + ch_b s)) (u32 (ch_c h + ch_c s)) (u32 (ch_d h + ch_d s)) (u32 (ch_e h + ch_e s)).

Definition chain0 : chain := mkChain 0x67452301 0xefcdab89 0x98badcfe 0x10325476 0xc3d2e1f0.
Fixpoint hash_blocks (n : nat) (h : chain) (bs : list Z) : chain :=
  match n with O => h | S n => hash_blocks n (compress h (words 16 (take 64 bs))) (drop 64 bs) end.

Definition be_bytes (n : nat) (z : Z) : list Z := rev (le_bytes n z).

(** A bit, zeros up to eight bytes before the end of a block, and the length in
    bits. *)
Definition padded (msg : list Z) : list Z :=
  msg ++ [128] ++ replicate ((119 - length msg mod 64) mod 64) 0 ++ be_bytes 8 (8 * Z.of_nat (length msg)).
Definition digest (h : chain) : list Z :=
  be_bytes 4 (ch_a h) ++ be_bytes 4 (ch_b h) ++ be_bytes 4 (ch_c h) ++ be_bytes 4 (ch_d h) ++ be_bytes 4 (ch_e h).
Definition sha1 (msg : list Z) : list Z :=
  digest (hash_blocks (length (padded msg) / 64) chain0 (padded msg)).

Example sha1_abc : sha1_pieces true (replicate 16 (Some 7)) [[97]; [98; 99]] = Ok (sha1 [97; 98; 99]) ∧
  sha1 [97; 98; 99] = [0xa9; 0x99; 0x3e; 0x36; 0x47; 0x06; 0x81; 0x6a; 0xba; 0x3e; 0x25; 0x71; 0x78; 0x50; 0xc2; 0x6c;
    0x9c; 0xd0; 0xd8; 0x9d].
Proof. split; vm_compute; reflexivity. Qed.
