(* ===== verification/Sha1Spec.v ===== *)
(** The hash function of the router computes the SHA-1 of the standard, however
    the data is split and whatever the memory of the context held. *)

From Stdlib Require Import ZArith Lia.
From stdpp Require Import base list.
From S2P Require Import Prelude Sha1.
Local Open Scope Z_scope.

(** ** The lower half of a word *)

Lemma u32_spec x i : 0 ≤ i → Z.testbit (u32 x) i = (i <? 32) && Z.testbit x i.
Proof.
  intros Hi. unfold u32, wrapU. destruct (Z.ltb_spec i 32).
  - by rewrite Z.mod_pow2_bits_low.
  - by rewrite Z.mod_pow2_bits_high by lia.
Qed.

Ltac bits :=
  let i := fresh "i" in let Hi := fresh "Hi" in apply Z.bits_inj'; intros i Hi;
  repeat first [rewrite u32_spec by done|rewrite Z.lor_spec|rewrite Z.land_spec|rewrite Z.lxor_spec|rewrite Z.ldiff_spec];
  repeat match goal with |- context [Z.testbit ?x i] => destruct (Z.testbit x i) end; by destruct (i <? 32).

Lemma u32_lor x y : u32 (Z.lor x y) = Z.lor (u32 x) (u32 y).
Proof. bits. Qed.
Lemma u32_lxor x y : u32 (Z.lxor x y) = Z.lxor (u32 x) (u32 y).
Proof. bits. Qed.
Lemma u32_mask x : Z.land x (2 ^ 32 - 1) = u32 x.
Proof. change (2 ^ 32 - 1) with (Z.ones 32). by rewrite Z.land_ones. Qed.
Lemma u32_u64 x : u32 (u64 x) = u32 x.
Proof. unfold u32, u64, wrapU. rewrite <-Znumtheory.Zmod_div_mod; [done|lia..|]. by exists (2 ^ 32). Qed.
Lemma u32_add x y : u32 (x + y) = u32 (u32 x + u32 y).
Proof. unfold u32, wrapU. by rewrite Zplus_mod. Qed.
Lemma u32_sum5 w e k r f : u32 (w + e + k + r + f) = u32 (u32 r + u32 f + u32 e + u32 w + k).
Proof.
  unfold u32, wrapU. rewrite (Z.mod_eq r), (Z.mod_eq f), (Z.mod_eq e), (Z.mod_eq w) by done.
  symmetry. rewrite <-(Z_mod_plus_full _ (r / 2 ^ 32 + f / 2 ^ 32 + e / 2 ^ 32 + w / 2 ^ 32)). f_equal. lia.
Qed.
Lemma u32_idem x : u32 (u32 x) = u32 x.
Proof. by apply wrapU_idem. Qed.

Lemma u32_rotate n x : 0 ≤ n ≤ 32 → u32 (ROTATE x n) = rotl n (u32 x).
Proof.
  intros Hn. unfold ROTATE, rotl, shl. rewrite u32_mask, u32_lor, u32_u64. f_equal.
  - unfold u32, wrapU. rewrite !Z.shiftl_mul_pow2 by lia. by rewrite Zmult_mod_idemp_l.
  - apply wrapU_small. rewrite Z.shiftr_div_pow2 by lia. pose proof (wrapU_range 32 x ltac:(lia)) as Hr.
    fold u32 in Hr. assert (0 < 2 ^ (32 - n)) by (apply Z.pow_pos_nonneg; lia).
    split; [apply Z.div_pos; lia|]. apply Z.div_lt_upper_bound; [done|]. nia.
Qed.

Lemma u32_F_00_19 b c d : u32 (F_00_19 b c d) = Z.lor (Z.land (u32 b) (u32 c)) (Z.ldiff (u32 d) (u32 b)).
Proof. unfold F_00_19. bits. Qed.
Lemma u32_F_20_39 b c d : u32 (F_20_39 b c d) = Z.lxor (Z.lxor (u32 b) (u32 c)) (u32 d).
Proof. unfold F_20_39. bits. Qed.
Lemma u32_F_40_59 b c d : u32 (F_40_59 b c d) =
  Z.lor (Z.lor (Z.land (u32 b) (u32 c)) (Z.land (u32 b) (u32 d))) (Z.land (u32 c) (u32 d)).
Proof. unfold F_40_59. bits. Qed.

(** ** The schedule *)

Lemma length_iter_extend n w : length (Nat.iter n extend w) = (n + length w)%nat.
Proof. induction n as [|n IH]; [done|]. simpl. unfold extend at 1. rewrite length_app, IH. simpl. lia. Qed.

Lemma iter_extend_prefix n w t : (t < length w)%nat → Nat.iter n extend w !!! t = w !!! t.
Proof.
  intros Ht. induction n as [|n IH]; [done|]. simpl. unfold extend at 1.
  rewrite lookup_total_app_l; [done|]. rewrite length_iter_extend. lia.
Qed.

Lemma iter_extend_word n w t : length w = 16%nat → (16 ≤ t < n + 16)%nat →
  let s := Nat.iter n extend w in
  s !!! t = rotl 1 (Z.lxor (Z.lxor (Z.lxor (s !!! (t - 3)%nat) (s !!! (t - 8)%nat)) (s !!! (t - 14)%nat)) (s !!! (t - 16)%nat)).
Proof.
  intros Hw Ht. induction n as [|n IH]; [lia|]. simpl. pose proof (length_iter_extend n w) as Hl.
  set (s := Nat.iter n extend w) in *. unfold extend. rewrite Hw in Hl.
  destruct (decide (t = n + 16)%nat) as [->|Hne].
  - rewrite Hl. rewrite lookup_total_app_r by lia. rewrite Hl, Nat.sub_diag.
    by rewrite !lookup_total_app_l by lia.
  - rewrite !lookup_total_app_l by lia. apply IH. lia.
Qed.

Lemma schedule_prefix w t : (t < length w)%nat → schedule w !!! t = w !!! t.
Proof. apply iter_extend_prefix. Qed.
Lemma schedule_word w t : length w = 16%nat → (16 ≤ t < 80)%nat →
  schedule w !!! t = rotl 1 (Z.lxor (Z.lxor (Z.lxor (schedule w !!! (t - 3)%nat) (schedule w !!! (t - 8)%nat))
    (schedule w !!! (t - 14)%nat)) (schedule w !!! (t - 16)%nat)).
Proof. intros Hw Ht. by apply (iter_extend_word 64). Qed.
#[local] Opaque schedule.

(** ** The rounds *)

(** The registers turn by one place with every round. *)
Definition role (q k : nat) : reg := nth ((k + q) mod 6) [rA; rB; rC; rD; rE; rT] rT.
Arguments role (_ _)%_nat.
Definition turned {A} (q : nat) (l : list A) : list A := drop (6 - q) l ++ take (6 - q) l.
Definition turn (i : nat) : nat := ((5 * i) mod 6)%nat.

(** The early rounds still read words of the block. *)
Definition early (i lim : nat) : source := if decide (i < lim)%nat then inW else inX.

Definition nth_round (i : nat) : list (option Z) → block_state → res block_state :=
  let q := turn i in
  if decide (i < 16)%nat then BODY_00_15 i (role q 0) (role q 1) (role q 2) (role q 3) (role q 4) (role q 5) inW
  else if decide (i < 20)%nat then
    BODY_16_19 i (role q 0) (role q 1) (role q 2) (role q 3) (role q 4) (role q 5)
      (early i 32) (early i 30) (early i 24) (early i 19)
  else if decide (i < 32)%nat then
    BODY_20_31 i (role q 0) (role q 1) (role q 2) (role q 3) (role q 4) (role q 5)
      (early i 32) (early i 30) (early i 24) (early i 19)
  else if decide (i < 40)%nat then BODY_32_39 i (role q 0) (role q 1) (role q 2) (role q 3) (role q 4) (role q 5) inX
  else if decide (i < 60)%nat then BODY_40_59 i (role q 0) (role q 1) (role q 2) (role q 3) (role q 4) (role q 5) inX
  else BODY_60_79 i (role q 0) (role q 1) (role q 2) (role q 3) (role q 4) (role q 5) inX.

Lemma rounds_regular : rounds = map nth_round (seq 0 80).
Proof. cbv -[BODY_00_15 BODY_16_19 BODY_20_31 BODY_32_39 BODY_40_59 BODY_60_79]. reflexivity. Qed.

Lemma BODY_turn K F q va vb vc vd ve vf w x : (q < 6)%nat →
  BODY K F (role q 0) (role q 1) (role q 2) (role q 3) (role q 4) (role q 5) w
    (mkBlock (turned q [Some va; Some vb; Some vc; Some vd; Some ve; vf]) x) =
  Ok (mkBlock (turned ((q + 5) mod 6) [Some (u64 (w + ve + K + ROTATE va 5 + F vb vc vd)); Some va; Some (ROTATE vb 30);
    Some vc; Some vd; Some ve]) x).
Proof. intros Hq. do 6 (destruct q as [|q]; [reflexivity|]). lia. Qed.

(** The state before round [i], against the standard. *)
Definition chained (q : nat) (r : list (option Z)) (s : chain) : Prop := ∃ va vb vc vd ve vf,
  r = turned q [Some va; Some vb; Some vc; Some vd; Some ve; vf] ∧
  s = mkChain (u32 va) (u32 vb) (u32 vc) (u32 vd) (u32 ve).
Definition scheduled (i : nat) (x : list (option Z)) (sched : list Z) : Prop :=
  length x = 16%nat ∧ ∀ j, (16 ≤ j < i)%nat → (i ≤ j + 16)%nat →
    ∃ v, x !! (j mod 16)%nat = Some (Some v) ∧ u32 v = sched !!! j.

Lemma BODY_round K F i w r x s sched :
  chained (turn i) r s → u32 w = sched !!! i → K = K_t i →
  (∀ b c d, u32 (F b c d) = f_t i (u32 b) (u32 c) (u32 d)) →
  let q := turn i in
  ∃ r', BODY K F (role q 0) (role q 1) (role q 2) (role q 3) (role q 4) (role q 5) w (mkBlock r x) = Ok (mkBlock r' x) ∧
    chained (turn (S i)) r' (round sched s i).
Proof.
  intros (va & vb & vc & vd & ve & vf & -> & ->) Hw HK HF q.
  assert (turn (S i) = (q + 5) mod 6)%nat as ->.
  { unfold q, turn. rewrite Nat.Div0.add_mod_idemp_l. f_equal. lia. }
  rewrite BODY_turn by (apply Nat.mod_upper_bound; lia). eexists; split; [done|].
  do 6 eexists. split; [done|]. unfold round. cbn [ch_a ch_b ch_c ch_d ch_e]. f_equal.
  - by rewrite u32_u64, (u32_sum5 w ve), HF, u32_rotate, <-Hw, <-HK by lia.
  - by rewrite u32_rotate.
Qed.

Lemma word_of_block W s i v : W !! i = Some v → word_of (Some <$> W) s inW i = Ok v.
Proof.
  intros Hv. assert (vget (Some <$> W) i = Ok (Some v)) as H by (apply vget_Ok; by rewrite list_lookup_fmap, Hv).
  unfold word_of. by rewrite H.
Qed.

(** Before round [i] a word is still in the block, or already in the array. *)
Lemma early_word W s i d : length W = 16%nat → (16 ≤ i < 80)%nat → (1 ≤ d ≤ 16)%nat →
  scheduled i (X s) (schedule (map u32 W)) →
  ∃ v, word_of (Some <$> W) s (early i (16 + d)) ((i + (16 - d)) mod 16) = Ok v ∧ u32 v = schedule (map u32 W) !!! (i - d)%nat.
Proof.
  intros HW Hi Hd [_ HX]. unfold early. destruct (decide (i < 16 + d)%nat) as [Hlt|Hge].
  - replace (i + (16 - d))%nat with ((i - d) + 1 * 16)%nat by lia. rewrite Nat.Div0.mod_add, Nat.mod_small by lia.
    destruct (lookup_lt_is_Some_2 W (i - d) ltac:(lia)) as [v Hv]. exists v.
    split; [by apply word_of_block|].
    rewrite schedule_prefix by (rewrite length_map; lia).
    rewrite list_lookup_total_alt, list_lookup_fmap, Hv. done.
  - destruct (HX (i - d)%nat) as (v & Hv & Hu); [lia..|]. exists v. split; [|done].
    replace (i + (16 - d))%nat with ((i - d) + 1 * 16)%nat by lia. rewrite Nat.Div0.mod_add.
    apply vget_Ok in Hv. unfold word_of. by rewrite Hv.
Qed.

Lemma Xupdate_word W s i : length W = 16%nat → (16 ≤ i < 80)%nat → scheduled i (X s) (schedule (map u32 W)) →
  ∃ f x, Xupdate i (early i 32) (early i 30) (early i 24) (early i 19) (Some <$> W) s = Ok (f, mkBlock (regs s) x) ∧
    u32 f = schedule (map u32 W) !!! i ∧ scheduled (S i) x (schedule (map u32 W)).
Proof.
  intros HW Hi HX. pose proof (early_word W s i) as Hword.
  pose proof (schedule_word (map u32 W) i ltac:(by rewrite length_map) Hi) as Hs.
  set (sched := schedule (map u32 W)) in *. clearbody sched.
  destruct (Hword 16%nat) as (wa & Ha & Hua), (Hword 14%nat) as (wb & Hb & Hub), (Hword 8%nat) as (wc & Hc & Huc),
    (Hword 3%nat) as (wd & Hd & Hud); [done || lia..|]. cbn [Nat.add Nat.sub] in Ha, Hb, Hc, Hd. rewrite Nat.add_0_r in Ha.
  unfold Xupdate. rewrite Ha, Hb, Hc, Hd. cbn [mbind res_bind]. destruct HX as [Hl HX].
  set (f := ROTATE _ 1). unfold vset. rewrite decide_True by (rewrite Hl; apply Nat.mod_upper_bound; lia).
  cbn [mbind res_bind]. exists f, (<[(i mod 16)%nat := Some f]> (X s)).
  assert (u32 f = sched !!! i) as Hf.
  { unfold f. rewrite u32_rotate, !u32_lxor, Hua, Hub, Huc, Hud, Hs by lia. f_equal. bits. }
  split; [done|]. split; [done|]. split; [by rewrite length_insert|]. intros j Hj Hj'.
  destruct (decide (j = i)) as [->|Hne].
  - exists f. split; [|done]. apply list_lookup_insert_eq. rewrite Hl. apply Nat.mod_upper_bound. lia.
  - destruct (HX j) as (v & Hv & Hu); [lia..|]. exists v. split; [|done]. rewrite list_lookup_insert_ne; [done|].
    intros Heq. pose proof (Nat.div_mod_eq i 16). pose proof (Nat.div_mod_eq j 16). lia.
Qed.

Lemma nth_round_ok W i s c : length W = 16%nat → (i < 80)%nat → 
  chained (turn i) (regs s) c → scheduled i (X s) (schedule (map u32 W)) →
  ∃ s', nth_round i (Some <$> W) s = Ok s' ∧ chained (turn (S i)) (regs s') (round (schedule (map u32 W)) c i) ∧
    scheduled (S i) (X s') (schedule (map u32 W)).
Proof.
  intros HW Hi Hc HX. set (sched := schedule (map u32 W)) in *. destruct s as [r x]. cbn [regs X] in *.
  destruct (decide (i < 16)%nat) as [Hlt|Hge].
  - destruct (lookup_lt_is_Some_2 W i ltac:(lia)) as [w Hw].
    destruct (BODY_round K_00_19 F_00_19 i w r x c sched) as (r' & Hr & Hc'); [done|..].
    + unfold sched. rewrite schedule_prefix by (rewrite length_map; lia).
      by rewrite list_lookup_total_alt, list_lookup_fmap, Hw.
    + unfold K_t. by rewrite decide_True by lia.
    + intros. rewrite u32_F_00_19. unfold f_t. by rewrite decide_True by lia.
    + exists (mkBlock r' x). split; [|split; [done|]].
      * unfold nth_round. rewrite decide_True by done. unfold BODY_00_15. by rewrite (word_of_block _ _ _ _ Hw).
      * destruct HX as [Hl HX]. split; [done|]. intros; lia.
  - destruct (Xupdate_word W (mkBlock r x) i) as (w & x' & Hx & Hw & HX'); [done|lia|done|]. cbn [regs] in Hx.
    assert (∀ K F, K = K_t i → (∀ b c d, u32 (F b c d) = f_t i (u32 b) (u32 c) (u32 d)) →
      let q := turn i in
      ∃ s', (ws ← Xupdate i (early i 32) (early i 30) (early i 24) (early i 19) (Some <$> W) (mkBlock r x);
              BODY K F (role q 0) (role q 1) (role q 2) (role q 3) (role q 4) (role q 5) ws.1 ws.2) = Ok s' ∧
      chained (turn (S i)) (regs s') (round sched c i) ∧ scheduled (S i) (X s') sched) as Hbody.
    { intros K F HK HF q. rewrite Hx. cbn [mbind res_bind fst snd].
      destruct (BODY_round K F i w r x' c sched) as (r' & Hr & Hc'); [done..|].
      exists (mkBlock r' x'). done. }
    unfold nth_round, BODY_16_19, BODY_20_31, BODY_32_39, BODY_40_59, BODY_60_79. rewrite decide_False by done.
    clear Hx. unfold early, K_t, f_t in *.
    repeat case_decide; try lia; apply Hbody; auto using u32_F_00_19, u32_F_20_39, u32_F_40_59.
Qed.

Lemma rounds_ok W n s c : length W = 16%nat → (n ≤ 80)%nat → chained (turn 0) (regs s) c → length (X s) = 16%nat →
  ∃ s', foldM (λ s r, r (Some <$> W) s) s (map nth_round (seq 0 n)) = Ok s' ∧
    chained (turn n) (regs s') (fold_left (round (schedule (map u32 W))) (seq 0 n) c) ∧
    scheduled n (X s') (schedule (map u32 W)).
Proof.
  intros HW Hn Hc HX. induction n as [|n IH].
  - exists s. split; [done|]. split; [done|]. split; [done|]. intros; lia.
  - destruct IH as (s' & Hs & Hc' & HX'); [lia|]. rewrite seq_S, map_app, foldM_app, Hs, fold_left_app. cbn [mbind res_bind].
    destruct (nth_round_ok W n s' _ HW ltac:(lia) Hc' HX') as (s'' & Hs'' & Hc'' & HX'').
    exists s''. simpl. by rewrite Hs''.
Qed.

(** ** A block *)

Definition chain_of (c : SHA1_ctx) : chain := mkChain (c_h0 c) (c_h1 c) (c_h2 c) (c_h3 c) (c_h4 c).
Definition chain_words (h : chain) : Prop :=
  u32 (ch_a h) = ch_a h ∧ u32 (ch_b h) = ch_b h ∧ u32 (ch_c h) = ch_c h ∧ u32 (ch_d h) = ch_d h ∧ u32 (ch_e h) = ch_e h.

(** The context with another chain. *)
Definition with_chain (c : SHA1_ctx) (h : chain) : SHA1_ctx :=
  mkCtx (ch_a h) (ch_b h) (ch_c h) (ch_d h) (ch_e h) (c_Nl c) (c_Nh c) (c_data c) (c_num c).

Lemma compress_words h w : chain_words (compress h w).
Proof. unfold chain_words, compress. cbn [ch_a ch_b ch_c ch_d ch_e]. by rewrite !u32_idem. Qed.

Lemma sha1_block_one_ok c W T x : length W = 16%nat → length x = 16%nat → chain_words (chain_of c) →
  ∃ T' x', sha1_block_one c (Some <$> W) T x = Ok (with_chain c (compress (chain_of c) (map u32 W)), T', x').
Proof.
  intros HW Hx (Ha & Hb & Hc & Hd & He). cbn [chain_of ch_a ch_b ch_c ch_d ch_e] in *.
  unfold sha1_block_one. rewrite rounds_regular. set (s0 := mkBlock _ _).
  destruct (rounds_ok W 80 s0 (chain_of c)) as (s & Hs & (va & vb & vc & vd & ve & vf & Hr & Hchain) & _); [done|done| |done|].
  { exists (c_h0 c), (c_h1 c), (c_h2 c), (c_h3 c), (c_h4 c), T. unfold chain_of. by rewrite Ha, Hb, Hc, Hd, He. }
  rewrite Hs. cbn [mbind res_bind]. unfold reg_get. rewrite Hr. change (turn 80) with 4%nat. 
  cbn [mbind res_bind turned drop take app Nat.sub reg_index vget lookup list_lookup init].
  eexists _, _. f_equal. f_equal. f_equal. unfold with_chain, compress. rewrite Hchain.
  cbn [ch_a ch_b ch_c ch_d ch_e chain_of]. rewrite !u32_mask, !u32_u64.
  rewrite (u32_add _ va), (u32_add _ vb), (u32_add _ vc), (u32_add _ vd), (u32_add _ ve).
  by rewrite Ha, Hb, Hc, Hd, He.
Qed.

Lemma sha1_block_ok c W : length W = 16%nat → chain_words (chain_of c) →
  sha1_block c (Some <$> W) 64 = Ok (with_chain c (compress (chain_of c) (map u32 W))).
Proof.
  intros HW Hc. unfold sha1_block. change (S (Z.to_nat 64)) with (S 64). cbn [sha1_block_loop].
  destruct (sha1_block_one_ok c W None (replicate 16 None)) as (T' & x' & ->); [done..|].
  cbn [mbind res_bind]. by rewrite decide_True.
Qed.

(** ** Bytes and words *)

Lemma lor_sum x y n : 0 ≤ n → (2 ^ n | x) → 0 ≤ y < 2 ^ n → Z.lor x y = x + y.
Proof.
  intros Hn [h ->] Hy.
  assert (Z.land (h * 2 ^ n) y = 0) as Hz.
  { apply Z.bits_inj'. intros i Hi. rewrite Z.land_spec, Z.bits_0. destruct (decide (i < n)).
    - by rewrite Z.mul_pow2_bits_low.
    - rewrite <-(Z.mod_small y (2 ^ n)) by done. rewrite Z.mod_pow2_bits_high by lia. apply andb_false_r. }
  by rewrite <-Z.lxor_lor, <-Z.add_nocarry_lxor.
Qed.

(** A byte behind zeros. *)
Lemma lor_low x b n : 0 ≤ n → (2 ^ (n + 8) | x) → is_byte b → Z.lor x (b * 2 ^ n) = x + b * 2 ^ n.
Proof.
  intros Hn Hx Hb. apply (lor_sum _ _ (n + 8)); [lia|done|]. rewrite Z.pow_add_r by lia.
  pose proof (Z.pow_pos_nonneg 2 n). unfold is_byte in Hb. nia.
Qed.
(** A byte before a shorter number. *)
Lemma lor_high x b n : 0 ≤ n → 0 ≤ x < 2 ^ n → Z.lor x (b * 2 ^ n) = x + b * 2 ^ n.
Proof. intros Hn Hx. rewrite Z.lor_comm, Z.add_comm. apply (lor_sum _ _ n); [done| |done]. by exists b. Qed.

Lemma shl_byte b n : is_byte b → 0 ≤ n ≤ 24 → shl b n = b * 2 ^ n.
Proof.
  intros Hb Hn. unfold shl. rewrite Z.shiftl_mul_pow2 by lia. apply wrapU_small.
  pose proof (Z.pow_pos_nonneg 2 n). pose proof (Z.pow_le_mono_r 2 n 24). unfold is_byte in Hb. nia.
Qed.

Ltac multiple :=
  match goal with |- (2 ^ ?n | ?x) =>
    let m := eval vm_compute in (2 ^ n) in
    change (2 ^ n) with m; apply Z.mod_divide; [done|]; Z.to_euclidean_division_equations; lia
  end.
Ltac word_step :=
  repeat rewrite shl_byte by (done || lia);
  repeat match goal with |- context [Z.lor ?x (?b * 2 ^ ?n)] =>
    first [rewrite (lor_low x b n) by (done || multiple)|rewrite (lor_high x b n) by (unfold is_byte in *; lia)]
  end;
  repeat match goal with |- Ok _ = Ok _ => f_equal | |- (_, _) = (_, _) => f_equal end; lia.

Ltac word_cases := decompose_Forall_hyps; cbn -[Z.lor shl Z.mul Z.add Z.pow]; word_step.

Lemma c2nl_ok bs : (4 ≤ length bs)%nat → Forall is_byte bs → c2nl bs = Ok (be32 (take 4 bs), drop 4 bs).
Proof.
  intros Hl Hb. destruct bs as [|b0 [|b1 [|b2 [|b3 bs]]]]; simpl in Hl; try lia. unfold c2nl, be32. word_cases.
Qed.

(** A word of which the bytes [t] are there is completed. *)
Lemma p_c2nl_ok t bs l : (length t < 4)%nat → (4 ≤ length t + length bs)%nat → Forall is_byte t → Forall is_byte bs →
  (t ≠ [] → l = Some (be32 (t ++ replicate (4 - length t) 0))) →
  p_c2nl bs l (length t) = Ok (be32 (t ++ take (4 - length t) bs), drop (4 - length t) bs).
Proof.
  intros Ht Hl Hbt Hb Hw. unfold be32 in *.
  destruct t as [|t0 [|t1 [|t2 [|t3 t]]]]; simpl in Ht; try lia;
    try (rewrite Hw by done); destruct bs as [|b0 [|b1 [|b2 [|b3 bs]]]]; simpl in Hl; try lia; word_cases.
Qed.

Lemma c2nl_p_ok bs n : (n < 4)%nat → (n ≤ length bs)%nat → Forall is_byte bs →
  c2nl_p bs n = Ok (be32 (take n bs ++ replicate (4 - n) 0)).
Proof.
  intros Hn Hl Hb. unfold c2nl_p, be32.
  destruct n as [|[|[|[|n]]]]; try lia; destruct bs as [|b0 [|b1 [|b2 bs]]]; simpl in Hl; try lia; word_cases.
Qed.

Lemma p_c2nl_p_ok t bs l : (0 < length bs)%nat → (length t + length bs < 4)%nat → Forall is_byte t → Forall is_byte bs →
  (t ≠ [] → l = Some (be32 (t ++ replicate (4 - length t) 0))) →
  p_c2nl_p bs l (length t) (length bs) = Ok (be32 (t ++ bs ++ replicate (4 - (length t + length bs)) 0)).
Proof.
  intros H0 Hl Hbt Hb Hw. unfold p_c2nl_p, be32 in *.
  destruct t as [|t0 [|t1 [|t2 t]]]; simpl in Hl; try lia;
    try (rewrite Hw by done); destruct bs as [|b0 [|b1 [|b2 [|b3 bs]]]]; simpl in H0, Hl; try lia; word_cases.
Qed.

(** ** Filling the array *)

Lemma vset_ok {A} (p : list A) i a : (i < length p)%nat → vset p i a = Ok (take i p ++ a :: drop (S i) p).
Proof. intros Hi. unfold vset. rewrite decide_True by done. by rewrite insert_take_drop. Qed.

Lemma fill_written n sw p bs : (sw + n ≤ length p)%nat → (4 * n ≤ length bs)%nat → Forall is_byte bs →
  fill n sw p bs = Ok (take sw p ++ (Some <$> words n bs) ++ drop (sw + n) p, drop (4 * n) bs).
Proof.
  revert sw p bs. induction n as [|n IH]; intros sw p bs Hp Hl Hb; cbn [fill words].
  - by rewrite Nat.add_0_r, Nat.mul_0_r, fmap_nil, app_nil_l, take_drop, drop_0.
  - rewrite c2nl_ok by (done || lia). cbn [mbind res_bind fst snd]. rewrite vset_ok by lia. cbn [mbind res_bind].
    assert (length (take sw p) = sw) as Ht by (rewrite length_take; lia).
    rewrite IH.
    + f_equal. f_equal; [|rewrite drop_drop; f_equal; lia].
      rewrite take_app_ge by lia. replace (S sw - length (take sw p))%nat with 1%nat by lia.
      rewrite drop_app_ge by lia. replace (S sw + n - length (take sw p))%nat with (S n) by lia.
      cbn [take drop]. rewrite take_0, drop_drop, fmap_cons. rewrite <-!app_assoc. cbn [app]. do 4 f_equal. lia.
    + rewrite length_app. cbn [length]. rewrite length_drop. lia.
    + rewrite length_drop. lia.
    + by apply Forall_drop.
Qed.

Lemma clear_ok n i p : (i + n ≤ length p)%nat → clear n i p = Ok (take i p ++ replicate n (Some 0) ++ drop (i + n) p).
Proof.
  revert i p. induction n as [|n IH]; intros i p Hp; cbn [clear replicate].
  - by rewrite Nat.add_0_r, app_nil_l, take_drop.
  - rewrite vset_ok by lia. cbn [mbind res_bind].
    assert (length (take i p) = i) as Ht by (rewrite length_take; lia).
    rewrite IH by (rewrite length_app; cbn [length]; rewrite length_drop; lia).
    f_equal. rewrite take_app_ge by lia. replace (S i - length (take i p))%nat with 1%nat by lia.
    rewrite drop_app_ge by lia. replace (S i + n - length (take i p))%nat with (S n) by lia.
    cbn [take drop]. rewrite take_0, drop_drop. rewrite <-!app_assoc. cbn [app]. do 4 f_equal. lia.
Qed.

(** ** Words of a message *)

Lemma words_add n m bs : words (n + m) bs = words n bs ++ words m (drop (4 * n) bs).
Proof.
  revert bs. induction n as [|n IH]; intros bs; cbn [words Nat.add]; [by rewrite Nat.mul_0_r, drop_0|].
  rewrite IH, drop_drop. by replace (4 * S n)%nat with (4 + 4 * n)%nat by lia.
Qed.

Lemma words_app n a b : (4 * n ≤ length a)%nat → words n (a ++ b) = words n a.
Proof.
  revert a. induction n as [|n IH]; intros a Ha; [done|]. cbn [words].
  rewrite take_app_le, drop_app_le by lia. f_equal. apply IH. rewrite length_drop. lia.
Qed.

Lemma words_zeros m k : words m (replicate k 0) = replicate m 0.
Proof.
  revert k. induction m as [|m IH]; intros k; [done|]. cbn [words replicate].
  rewrite take_replicate, drop_replicate, IH. f_equal. by destruct k as [|[|[|[|k]]]].
Qed.

Lemma length_words n bs : length (words n bs) = n.
Proof. revert bs. induction n as [|n IH]; intros bs; [done|]. cbn. by rewrite IH. Qed.

Lemma be32_range bs : (length bs ≤ 4)%nat → Forall is_byte bs → 0 ≤ be32 bs < 2 ^ 32.
Proof.
  intros Hl Hb. destruct bs as [|b0 [|b1 [|b2 [|b3 [|b4 bs]]]]]; simpl in Hl; try lia;
    decompose_Forall_hyps; unfold is_byte, be32 in *; cbn [fold_left]; lia.
Qed.

Lemma words_u32 n bs : Forall is_byte bs → map u32 (words n bs) = words n bs.
Proof.
  revert bs. induction n as [|n IH]; intros bs Hb; [done|]. cbn [words map].
  rewrite IH by by apply Forall_drop. f_equal. apply wrapU_small, be32_range; [rewrite length_take; lia|by apply Forall_take].
Qed.

Lemma hash_blocks_add n m h bs : hash_blocks (n + m) h bs = hash_blocks m (hash_blocks n h bs) (drop (64 * n) bs).
Proof.
  revert h bs. induction n as [|n IH]; intros h bs; cbn [hash_blocks Nat.add]; [by rewrite Nat.mul_0_r, drop_0|].
  rewrite IH, drop_drop. by replace (64 * S n)%nat with (64 + 64 * n)%nat by lia.
Qed.

Lemma hash_blocks_app n h a b : length a = (64 * n)%nat → hash_blocks n h (a ++ b) = hash_blocks n h a.
Proof.
  revert h a. induction n as [|n IH]; intros h a Ha; [done|]. cbn [hash_blocks].
  rewrite take_app_le, drop_app_le by lia. apply IH. rewrite length_drop. lia.
Qed.

Lemma hash_blocks_words n h bs : chain_words h → chain_words (hash_blocks n h bs).
Proof. revert h bs. induction n as [|n IH]; intros h bs Hh; [done|]. apply IH, compress_words. Qed.

Lemma chain0_words : chain_words chain0.
Proof. done. Qed.

Lemma words_block bs : words 16 (take 64 bs) = words 16 bs.
Proof.
  destruct (decide (64 ≤ length bs)%nat) as [Hl|Hl].
  - rewrite <-(take_drop 64 bs) at 2. rewrite words_app; [done|]. rewrite length_take. lia.
  - by rewrite take_ge by lia.
Qed.

(** One more block. *)
Lemma hash_blocks_snoc k h a b : length a = (64 * k)%nat → length b = 64%nat →
  hash_blocks (S k) h (a ++ b) = compress (hash_blocks k h a) (words 16 b).
Proof.
  intros Ha Hb. replace (S k) with (k + 1)%nat by lia. rewrite hash_blocks_add, hash_blocks_app by done.
  rewrite drop_app_length' by done. cbn [hash_blocks]. by rewrite words_block.
Qed.

(** ** Contexts *)

(** The bytes [bs] at the start of the array, in words; the last is filled up
    with zeros. *)
Definition held (p : list (option Z)) (bs : list Z) : Prop :=
  let sw := (length bs / 4)%nat in
  length p = 16%nat ∧ take sw p = Some <$> words sw bs ∧
  ((length bs mod 4)%nat ≠ 0%nat → p !! sw = Some (Some (be32 (drop (4 * sw) bs ++ replicate (4 - length bs mod 4) 0)))).

(** The context has taken the blocks [msg] and holds [bs]. *)
Definition absorbed (c : SHA1_ctx) (msg bs : list Z) : Prop := ∃ k,
  length msg = (64 * k)%nat ∧ chain_of c = hash_blocks k chain0 msg ∧ Forall is_byte bs ∧
  (length bs < 64)%nat ∧ c_num c = length bs ∧ held (c_data c) bs.

(** The number of bits, in two words. *)
Definition counted (c : SHA1_ctx) (len : Z) : Prop :=
  c_Nl c = u32 (8 * len) ∧ u32 (c_Nh c) = u32 (8 * len / 2 ^ 32).

Lemma split_bytes (bs : list Z) : let sw := (length bs / 4)%nat in let sc := (length bs mod 4)%nat in
  (length bs = 4 * sw + sc ∧ sc < 4 ∧ length (drop (4 * sw) bs) = sc)%nat.
Proof.
  cbn zeta. pose proof (Nat.div_mod_eq (length bs) 4). pose proof (Nat.mod_upper_bound (length bs) 4).
  rewrite length_drop. lia.
Qed.

(** The word at [i] can be loaded: it was written, or that does not matter. *)
Definition loadable (strict : bool) (p : list (option Z)) (i : nat) : Prop := strict = true → ∃ z, p !! i = Some (Some z).

Lemma load_ok strict p i l : loadable strict p i → p !! i = Some l → load strict p i = Ok l.
Proof.
  intros Hld Hl. unfold load, vget. rewrite Hl. cbn [mbind res_bind]. destruct strict; [|done].
  destruct (Hld eq_refl) as [z Hz]. rewrite Hl in Hz. by injection Hz as ->.
Qed.

(** The word that is begun is completed, or the next word is written. *)
Lemma complete_word strict p bs new : loadable strict p (length bs / 4) → held p bs → Forall is_byte bs → Forall is_byte new → (length bs < 64)%nat →
  let sw := (length bs / 4)%nat in let sc := (length bs mod 4)%nat in
  (4 ≤ sc + length new)%nat →
  ∃ l w p', load strict p sw = Ok l ∧ p_c2nl new l sc = Ok (w, drop (4 * S sw) (bs ++ new)) ∧ vset p sw (Some w) = Ok p' ∧
    length p' = 16%nat ∧ take (S sw) p' = Some <$> words (S sw) (bs ++ new).
Proof.
  intros Hld (Hp & Hpre & Hlast) Hb Hn Hl sw sc Hsc. destruct (split_bytes bs) as (Hlen & Hsc4 & Ht). fold sw sc in Hlen, Hsc4, Ht, Hpre, Hlast.
  assert (sw < 16)%nat as Hsw by lia. destruct (lookup_lt_is_Some_2 p sw ltac:(lia)) as [l Hpl].
  pose proof (p_c2nl_ok (drop (4 * sw) bs) new l) as Hc. rewrite Ht in Hc.
  exists l, (be32 (drop (4 * sw) bs ++ take (4 - sc) new)), (take sw p ++ Some (be32 (drop (4 * sw) bs ++ take (4 - sc) new)) :: drop (S sw) p).
  split; [by apply load_ok|]. split; [|split; [apply vset_ok; lia|split]].
  - rewrite Hc; [|lia|lia|by apply Forall_drop|done|].
    + f_equal. f_equal. rewrite drop_app_ge by lia. f_equal. lia.
    + intros Hne. destruct (decide (sc = 0%nat)) as [H0|H0]; [|specialize (Hlast H0); by simplify_eq].
      destruct Hne. apply nil_length_inv. lia.
  - rewrite length_app. cbn [length]. rewrite length_take, length_drop. lia.
  - rewrite take_app_ge by (rewrite length_take; lia). rewrite length_take.
    replace (S sw - (sw `min` length p))%nat with 1%nat by lia. cbn [take].
    replace (S sw) with (sw + 1)%nat by lia. rewrite words_add, fmap_app, Hpre, words_app by lia. f_equal. cbn [words fmap list_fmap].
    f_equal. f_equal. f_equal. rewrite drop_app_le by lia. rewrite take_app_ge by lia. by rewrite Ht.
Qed.

(** The words that follow. *)
Lemma fill_words n sw p bs : (sw + n ≤ length p)%nat → (4 * (sw + n) ≤ length bs)%nat → Forall is_byte bs →
  take sw p = Some <$> words sw bs →
  ∃ p', fill n sw p (drop (4 * sw) bs) = Ok (p', drop (4 * (sw + n)) bs) ∧ length p' = length p ∧
    take (sw + n) p' = Some <$> words (sw + n) bs.
Proof.
  intros Hp Hl Hb Hpre. rewrite fill_written; [|done|rewrite length_drop; lia|by apply Forall_drop].
  eexists. rewrite drop_drop. split; [by replace (4 * (sw + n))%nat with (4 * sw + 4 * n)%nat by lia|].
  assert (length (take sw p) = sw) as Ht by (rewrite length_take; lia).
  split; [rewrite !length_app, length_fmap, length_words, length_drop; lia|].
  rewrite Hpre, app_assoc, <-fmap_app, <-words_add. apply take_app_length'. by rewrite length_fmap, length_words.
Qed.

Lemma held_write p ew bs l : length p = 16%nat → ew = (length bs / 4)%nat → (length bs < 64)%nat → take ew p = Some <$> words ew bs →
  l = be32 (drop (4 * ew) bs ++ replicate (4 - length bs mod 4) 0) →
  ∃ p', vset p ew (Some l) = Ok p' ∧ held p' bs.
Proof.
  intros Hp -> Hl Hpre ->. destruct (split_bytes bs) as (Hlen & Hsc4 & Ht). set (sw := (length bs / 4)%nat) in *.
  rewrite vset_ok by lia. eexists. split; [done|]. assert (length (take sw p) = sw) as Hts by (rewrite length_take; lia).
  split; [rewrite length_app; cbn [length]; rewrite length_drop; lia|]. fold sw. split.
  - by rewrite take_app_length'.
  - intros _. by rewrite list_lookup_middle.
Qed.

Lemma held_full p bs : length p = 16%nat → (length bs mod 4 = 0)%nat → take (length bs / 4) p = Some <$> words (length bs / 4) bs → held p bs.
Proof. intros Hp H0 Hpre. by repeat split. Qed.

(** ** The update *)

Lemma absorbed_words c msg bs : absorbed c msg bs → chain_words (chain_of c).
Proof. intros (k & _ & -> & _). apply hash_blocks_words, chain0_words. Qed.

(** A full array is one more block. *)
Lemma block_ok c p msg b k : length msg = (64 * k)%nat → chain_of c = hash_blocks k chain0 msg →
  length p = 16%nat → take 16 p = Some <$> words 16 b → Forall is_byte b → (64 ≤ length b)%nat →
  ∃ c', sha1_block (set_data c p) p 64 = Ok c' ∧ chain_of c' = hash_blocks (S k) chain0 (msg ++ take 64 b) ∧
    length (msg ++ take 64 b) = (64 * S k)%nat ∧
    length (c_data c') = 16%nat ∧ c_num c' = c_num c ∧ c_Nl c' = c_Nl c ∧ c_Nh c' = c_Nh c.
Proof.
  intros Hk Hc Hp Hw Hb Hl. rewrite take_ge in Hw by lia. rewrite Hw, sha1_block_ok; [|by rewrite length_words|].
  2: { change (chain_of (set_data c _)) with (chain_of c). rewrite Hc. apply hash_blocks_words, chain0_words. }
  eexists. split; [done|]. split; [|split; [rewrite length_app, length_take; lia|by rewrite <-Hw]].
  change (chain_of (set_data c _)) with (chain_of c). rewrite words_u32 by done.
  rewrite hash_blocks_snoc by (done || (rewrite length_take; lia)). rewrite words_block, <-Hc.
  by destruct (compress _ _).
Qed.

Lemma update_blocks_ok fuel c msg k bytes : (length bytes < fuel)%nat → length msg = (64 * k)%nat →
  chain_of c = hash_blocks k chain0 msg → length (c_data c) = 16%nat → Forall is_byte bytes →
  ∃ c' m r k', update_blocks fuel c bytes = Ok (c', r) ∧ bytes = m ++ r ∧ (length r < 64)%nat ∧
    length (msg ++ m) = (64 * k')%nat ∧ chain_of c' = hash_blocks k' chain0 (msg ++ m) ∧ length (c_data c') = 16%nat ∧
    c_Nl c' = c_Nl c ∧ c_Nh c' = c_Nh c.
Proof.
  revert c msg k bytes. induction fuel as [|fuel IH]; intros c msg k bytes Hf Hk Hc Hd Hb; [lia|]. cbn [update_blocks].
  case_decide as Hl; unfold SHA_CBLOCK in Hl.
  - destruct (fill_words 16 0 (c_data c) bytes) as (p & Hp & Hlp & Hwp); [simpl; lia..|done|done|].
    rewrite Nat.mul_0_r, drop_0 in Hp. change (4 * (0 + 16))%nat with 64%nat in Hp. unfold SHA_LBLOCK. rewrite Hp.
    cbn [mbind res_bind fst snd].
    destruct (block_ok c p msg bytes k) as (c' & -> & Hc' & Hl' & Hd' & _ & HNl & HNh); [done|done|lia|done|done|done|].
    cbn [mbind res_bind].
    destruct (IH c' (msg ++ take 64 bytes) (S k) (drop 64 bytes)) as (c'' & m & r & k' & -> & Hm & H);
      [rewrite length_drop; lia|done|done|done|by apply Forall_drop|].
    exists c'', (take 64 bytes ++ m), r, k'. rewrite <-app_assoc in H. rewrite <-app_assoc, <-Hm, take_drop.
    rewrite HNl, HNh in H. done.
  - exists c, [], bytes, k. rewrite app_nil_r. split; [done|]. split; [done|]. split; [lia|]. done.
Qed.

Lemma update_rest_ok c msg k bytes : length msg = (64 * k)%nat → chain_of c = hash_blocks k chain0 msg →
  length (c_data c) = 16%nat → Forall is_byte bytes →
  ∃ c' m r, update_rest c bytes = Ok c' ∧ bytes = m ++ r ∧ absorbed c' (msg ++ m) r ∧ c_Nl c' = c_Nl c ∧ c_Nh c' = c_Nh c.
Proof.
  intros Hk Hc Hd Hb. unfold update_rest.
  destruct (update_blocks_ok (S (length bytes)) c msg k bytes) as (c' & m & r & k' & -> & -> & Hr & Hk' & Hc' & Hd' & HN); [lia|done..|].
  apply Forall_app in Hb as [_ Hb]. cbn [mbind res_bind]. destruct (split_bytes r) as (Hlen & Hsc & Ht).
  destruct (fill_words (length r / 4) 0 (c_data c') r) as (p & Hp & Hlp & Hwp); [lia..|done|done|].
  rewrite Nat.mul_0_r, drop_0 in Hp. rewrite Nat.add_0_l in Hp, Hwp. rewrite Hp. cbn [mbind res_bind fst snd].
  rewrite c2nl_p_ok; [|done|lia|by apply Forall_drop]. cbn [mbind res_bind].
  destruct (held_write p (length r / 4) r (be32 (drop (4 * (length r / 4)) r ++ replicate (4 - length r mod 4) 0))) as (p' & Hp' & Hh);
    [lia|done|done|done|done|].
  rewrite take_ge by lia. rewrite Hp'. cbn [mbind res_bind]. eexists _, m, r. split; [done|]. split; [done|]. split; [|done].
  by exists k'.
Qed.

Lemma add_length_ok c len n : counted c len → 0 ≤ n → counted (add_length c n) (len + n).
Proof.
  intros [HNl HNh] Hn. unfold counted, add_length, shl. cbn [c_Nl c_Nh].
  rewrite u32_mask, u32_u64, HNl, Z.shiftl_mul_pow2, Z.shiftr_div_pow2 by lia. change (2 ^ 3) with 8.
  rewrite (u32_add _ (u64 _)), u32_u64, u32_idem, <-u32_add. split; [by replace (8 * (len + n)) with (8 * len + n * 8) by lia|].
  assert (n / 2 ^ 29 = (8 * n) / 2 ^ 32) as -> by (symmetry; by apply (Z.div_mul_cancel_l n (2 ^ 29) 8)).
  replace (8 * (len + n)) with (8 * len + 8 * n) by lia. replace (n * 8) with (8 * n) by lia.
  set (A := 8 * len) in *. set (B := 8 * n) in *. clearbody A B.
  rewrite u32_u64, (u32_add _ (B / _)).
  assert (u32 (if decide (u32 (A + B) < u32 A) then u64 (c_Nh c + 1) else c_Nh c) =
    u32 (A / 2 ^ 32 + if decide (u32 (A + B) < u32 A) then 1 else 0)) as ->.
  { case_decide.
    - by rewrite u32_u64, u32_add, HNh, <-u32_add.
    - by rewrite Z.add_0_r. }
  rewrite <-u32_add. f_equal. unfold u32, wrapU. case_decide; Z.to_euclidean_division_equations; lia.
Qed.

Section update.
  Context (strict : bool) (c : SHA1_ctx) (msg bs new : list Z) (k : nat).
  Context (Hk : length msg = (64 * k)%nat) (Hc : chain_of c = hash_blocks k chain0 msg).
  Context (Hb : Forall is_byte bs) (Hn : Forall is_byte new) (Hl : (length bs < 64)%nat) (Hheld : held (c_data c) bs).
  Context (Hld : loadable strict (c_data c) (length bs / 4)).
Let sw := (length bs / 4)%nat.
Let sc := (length bs mod 4)%nat.

(** The block that was begun is completed, and the rest follows. *)
Lemma update_completes : (64 ≤ length bs + length new)%nat → ∃ c' msg' bs',
  (l ← load strict (c_data c) sw; lc ← p_c2nl new l sc; p ← vset (c_data c) sw (Some lc.1);
   pb ← fill (16 - S sw) (S sw) p lc.2; c ← sha1_block (set_data c pb.1) pb.1 64; update_rest (set_num c 0) pb.2) = Ok c' ∧
  msg ++ bs ++ new = msg' ++ bs' ∧ absorbed c' msg' bs' ∧ c_Nl c' = c_Nl c ∧ c_Nh c' = c_Nh c.
Proof using All.
  intros Hlen. destruct (split_bytes bs) as (Hbs & Hsc & _). fold sw sc in Hbs, Hsc.
  destruct (complete_word strict (c_data c) bs new) as (l & w & p & Hl1 & Hp1 & Hv & Hp & Hw); [done..|fold sc; lia|]. fold sw sc in Hl1, Hp1, Hv, Hw.
  rewrite Hl1. cbn [mbind res_bind]. rewrite Hp1. cbn [mbind res_bind fst snd]. rewrite Hv. cbn [mbind res_bind].
  assert (Forall is_byte (bs ++ new)) as Hbn by by apply Forall_app.
  destruct (fill_words (16 - S sw) (S sw) p (bs ++ new)) as (p' & -> & Hp' & Hw'); [lia|rewrite length_app; lia|done|done|].
  cbn [mbind res_bind fst snd]. replace (S sw + (16 - S sw))%nat with 16%nat in * by lia.
  destruct (block_ok c p' msg (bs ++ new) k) as (c1 & -> & Hc1 & Hl' & Hd1 & _ & HNl & HNh);
    [done|done|lia|done|done|rewrite length_app; lia|].
  cbn [mbind res_bind]. change (4 * 16)%nat with 64%nat.
  destruct (update_rest_ok (set_num c1 0) (msg ++ take 64 (bs ++ new)) (S k) (drop 64 (bs ++ new)))
    as (c2 & m & r & -> & Hm & Hab & HN); [done|done|done|by apply Forall_drop|].
  exists c2, ((msg ++ take 64 (bs ++ new)) ++ m), r. split; [done|]. rewrite <-!app_assoc, <-Hm, take_drop.
  rewrite <-!app_assoc in Hab. split; [done|]. split; [done|]. cbn [set_num c_Nl c_Nh] in HN. by rewrite <-HNl, <-HNh.
Qed.

(** The new bytes stay in the word that was begun. *)
Lemma update_in_word : (0 < length new)%nat → (sc + length new < 4)%nat → ∃ c',
  (l ← load strict (c_data c) sw; l ← p_c2nl_p new l sc (length new); p ← vset (c_data c) sw (Some l);
   Ok (set_num (set_data c p) (length bs + length new))) = Ok c' ∧
  absorbed c' msg (bs ++ new) ∧ c_Nl c' = c_Nl c ∧ c_Nh c' = c_Nh c.
Proof using All.
  intros H0 Hlen. destruct (split_bytes bs) as (Hbs & Hsc & Ht). fold sw sc in Hbs, Hsc, Ht.
  destruct Hheld as (Hp & Hpre & Hlast). fold sw sc in Hpre, Hlast.
  destruct (lookup_lt_is_Some_2 (c_data c) sw ltac:(lia)) as [l Hpl].
  rewrite (load_ok strict (c_data c) sw l Hld Hpl). cbn [mbind res_bind].
  pose proof (p_c2nl_p_ok (drop (4 * sw) bs) new l) as Hw. rewrite Ht in Hw.
  rewrite Hw; [|lia|lia|by apply Forall_drop|done|].
  2: { intros Hne. destruct (decide (sc = 0%nat)) as [Hz|Hz]; [|specialize (Hlast Hz); by simplify_eq].
    destruct Hne. apply nil_length_inv. lia. }
  cbn [mbind res_bind].
  assert (sw = (length (bs ++ new) / 4)%nat) as Hsw.
  { apply (Nat.div_unique _ 4 _ (sc + length new)); [lia|]. rewrite length_app. lia. }
  assert ((length (bs ++ new) mod 4) = sc + length new)%nat as Hmod.
  { symmetry. apply (Nat.mod_unique _ 4 sw); [lia|]. rewrite length_app. lia. }
  destruct (held_write (c_data c) sw (bs ++ new)
    (be32 (drop (4 * sw) bs ++ new ++ replicate (4 - (sc + length new)) 0))) as (p' & -> & Hh);
    [done|done|rewrite length_app; lia|by rewrite words_app by lia| |].
  { by rewrite Hmod, drop_app_le, <-app_assoc by lia. }
  eexists. split; [done|]. split; [|done]. exists k. split; [done|]. split; [done|]. split; [by apply Forall_app|].
  rewrite length_app. split; [lia|]. done.
Qed.

(** The new bytes stay in the block that was begun. *)
Lemma update_in_block : (4 ≤ sc + length new)%nat → (length bs + length new < 64)%nat →
  let num := (length bs + length new)%nat in let ew := (num / 4)%nat in let ec := (num mod 4)%nat in ∃ c',
  (l ← load strict (c_data c) sw; lc ← p_c2nl new l sc; p ← vset (c_data c) sw (Some lc.1); pb ← fill (ew - S sw) (S sw) p lc.2;
   p ← (if decide (ec ≠ 0%nat) then l ← c2nl_p pb.2 ec; vset pb.1 (Nat.max (S sw) ew) (Some l) else Ok pb.1);
   Ok (set_num (set_data c p) num)) = Ok c' ∧
  absorbed c' msg (bs ++ new) ∧ c_Nl c' = c_Nl c ∧ c_Nh c' = c_Nh c.
Proof using All.
  intros Hlen H64 num ew ec. destruct (split_bytes bs) as (Hbs & Hsc & _). fold sw sc in Hbs, Hsc.
  destruct (complete_word strict (c_data c) bs new) as (l & w & p & Hl1 & Hp1 & Hv & Hp & Hw); [done..|]. fold sw sc in Hl1, Hp1, Hv, Hw.
  rewrite Hl1. cbn [mbind res_bind]. rewrite Hp1. cbn [mbind res_bind fst snd]. rewrite Hv. cbn [mbind res_bind].
  assert (Forall is_byte (bs ++ new)) as Hbn by by apply Forall_app.
  destruct (split_bytes (bs ++ new)) as (Hnum & Hec & Ht). rewrite length_app in Hnum, Hec, Ht. fold num ew ec in Hnum, Hec, Ht.
  destruct (fill_words (ew - S sw) (S sw) p (bs ++ new)) as (p' & -> & Hp' & Hw'); [lia|rewrite length_app; lia|done|done|].
  replace (S sw + (ew - S sw))%nat with ew in * by lia. rewrite Nat.max_r by lia. cbn [mbind res_bind fst snd].
  assert (∃ p'', (if decide (ec ≠ 0%nat) then l ← c2nl_p (drop (4 * ew) (bs ++ new)) ec; vset p' ew (Some l) else Ok p') = Ok p'' ∧
    held p'' (bs ++ new)) as (p'' & -> & Hh).
  { case_decide as Hz.
    - rewrite c2nl_p_ok by (done || lia || by apply Forall_drop). cbn [mbind res_bind]. rewrite take_ge by lia.
      apply held_write; rewrite ?length_app; done || lia.
    - exists p'. split; [done|]. apply held_full; rewrite ?length_app; done || lia. }
  eexists. split; [done|]. split; [|done]. exists k. rewrite length_app. repeat (split; [done|]). done.
Qed.
End update.

Lemma SHA1_update_ok strict c msg bs new len : (c_num c ≠ 0%nat → loadable strict (c_data c) (c_num c / 4)) → absorbed c msg bs → counted c len → Forall is_byte new →
  ∃ c' msg' bs', SHA1_update strict c new = Ok c' ∧ msg ++ bs ++ new = msg' ++ bs' ∧ absorbed c' msg' bs' ∧
    counted c' (len + Z.of_nat (length new)).
Proof.
  intros Hld Ha Hcnt Hn. unfold SHA1_update. case_decide as Hz.
  { apply nil_length_inv in Hz as ->. exists c, msg, bs. rewrite app_nil_r, Z.add_0_r. done. }
  apply (add_length_ok _ _ (Z.of_nat (length new))) in Hcnt; [|lia]. set (d := add_length c _) in *.
  assert (absorbed d msg bs) as (k & Hk & Hc & Hb & Hl & Hnum & Hheld) by done.
  assert (c_num d ≠ 0%nat → loadable strict (c_data d) (c_num d / 4)) as Hldd by done. clearbody d. rewrite Hnum in Hldd |- *.
  unfold SHA_CBLOCK, SHA_LBLOCK.
  assert (∀ c', c_Nl c' = c_Nl d ∧ c_Nh c' = c_Nh d → counted c' (len + Z.of_nat (length new))) as Hcnt'.
  { unfold counted. by intros c' [-> ->]. }
  case_decide as H0.
  - case_decide as H64; [|case_decide as H4].
    + destruct (update_completes strict d msg bs new k) as (c' & msg' & bs' & H); [by auto..|].
      exists c', msg', bs'. naive_solver.
    + destruct (update_in_word strict d msg bs new k) as (c' & H & Hab & HN); [by auto..|lia|done|].
      exists c', msg, (bs ++ new). naive_solver.
    + destruct (update_in_block strict d msg bs new k) as (c' & H & Hab & HN); [by auto..|lia|lia|].
      exists c', msg, (bs ++ new). naive_solver.
  - assert (bs = []) as -> by (apply nil_length_inv; lia).
    destruct (update_rest_ok d msg k new) as (c' & m & r & -> & -> & Hab & HN); [done|done|apply Hheld|done|].
    exists c', (msg ++ m), r. rewrite <-app_assoc. auto.
Qed.

(** ** The end *)

Lemma of_le_bytes_mod n z : of_le_bytes (le_bytes n z) = z mod 256 ^ Z.of_nat n.
Proof.
  revert z. induction n as [|n IH]; intros z; [by rewrite Z.mod_1_r|]. cbn [le_bytes of_le_bytes]. rewrite IH.
  rewrite Nat2Z.inj_succ, Z.pow_succ_r by lia. by rewrite Z.rem_mul_r by lia.
Qed.

Lemma be32_rev bs : be32 (rev bs) = of_le_bytes bs.
Proof.
  unfold be32. induction bs as [|b bs IH]; [done|]. cbn [rev of_le_bytes]. rewrite fold_left_app, IH. cbn [fold_left]. lia.
Qed.

Lemma le_bytes_add n m z : le_bytes (n + m) z = le_bytes n z ++ le_bytes m (z / 256 ^ Z.of_nat n).
Proof.
  revert z. induction n as [|n IH]; intros z; cbn [le_bytes Nat.add]; [by rewrite Z.div_1_r|].
  rewrite IH, Nat2Z.inj_succ, Z.pow_succ_r by lia. by rewrite Z.div_div by lia.
Qed.

Lemma be_bytes_word z : be32 (be_bytes 4 z) = u32 z.
Proof. unfold be_bytes. by rewrite be32_rev, of_le_bytes_mod. Qed.

Lemma words_of_length z : words 2 (be_bytes 8 z) = [u32 (z / 2 ^ 32); u32 z].
Proof.
  assert (be_bytes 8 z = be_bytes 4 (z / 2 ^ 32) ++ be_bytes 4 z) as ->.
  { unfold be_bytes. change 8%nat with (4 + 4)%nat. by rewrite le_bytes_add, rev_app_distr. }
  assert (∀ y, length (be_bytes 4 y) = 4%nat) as Hl.
  { intros y. unfold be_bytes. by rewrite length_rev, length_le_bytes. }
  cbn [words]. rewrite take_app_length', drop_app_length', (take_ge (be_bytes 4 z)) by (by rewrite ?Hl).
  by rewrite !be_bytes_word.
Qed.

Lemma nl2c_bytes h : nl2c h = be_bytes 4 h.
Proof.
  unfold nl2c, be_bytes. cbn [le_bytes rev app]. change 255 with (Z.ones 8).
  rewrite !Z.land_ones, !Z.shiftr_div_pow2, !Z.div_div by lia. done.
Qed.

(** The bit that ends the message, and the zeros behind it. *)
Lemma end_words bs j n rest : let sw := (length bs / 4)%nat in (4 * (S sw + n) = length bs + 1 + j)%nat →
  words (S sw + n) (bs ++ 128 :: replicate j 0 ++ rest) = words (S sw) (bs ++ [128; 0; 0; 0]) ++ replicate n 0.
Proof.
  intros sw Hj. destruct (split_bytes bs) as (Hlen & Hsc & Ht). fold sw in Hlen, Ht.
  set (sc := (length bs mod 4)%nat) in *. rewrite words_add.
  assert (bs ++ 128 :: replicate j 0 ++ rest = (bs ++ 128 :: replicate (3 - sc) 0) ++ replicate (4 * n) 0 ++ rest) as ->.
  { rewrite <-app_assoc. cbn [app]. rewrite (app_assoc (replicate (3 - sc) 0)), <-replicate_add. do 4 f_equal. lia. }
  assert (length (bs ++ 128 :: replicate (3 - sc) 0) = (4 * S sw)%nat) as Hl.
  { rewrite length_app. cbn [length]. rewrite length_replicate. lia. }
  rewrite words_app, drop_app_length' by lia. f_equal.
  - assert (bs ++ [128; 0; 0; 0] = (bs ++ 128 :: replicate (3 - sc) 0) ++ replicate sc 0) as ->.
    { rewrite <-app_assoc. cbn [app]. rewrite <-replicate_add. by replace (3 - sc + sc)%nat with 3%nat by lia. }
    by rewrite (words_app _ (bs ++ 128 :: replicate (3 - sc) 0)) by lia.
  - by rewrite words_app, words_zeros by (rewrite length_replicate; lia).
Qed.

(** The zeros of the padding, and the number of blocks. *)
Lemma padded_short m bs k : length m = (64 * k)%nat → (length bs < 56)%nat →
  padded (m ++ bs) = m ++ (bs ++ 128 :: replicate (55 - length bs) 0 ++ be_bytes 8 (8 * Z.of_nat (length (m ++ bs)))).
Proof.
  intros Hm Hbs. unfold padded. rewrite <-app_assoc. cbn [app]. do 5 f_equal. rewrite length_app, Hm.
  replace (64 * k + length bs)%nat with (length bs + k * 64)%nat by lia. rewrite Nat.Div0.mod_add, (Nat.mod_small (length bs)) by lia.
  replace (119 - length bs)%nat with (55 - length bs + 1 * 64)%nat by lia. rewrite Nat.Div0.mod_add. apply Nat.mod_small. lia.
Qed.

Lemma padded_long m bs k : length m = (64 * k)%nat → (56 ≤ length bs < 64)%nat →
  padded (m ++ bs) = (m ++ (bs ++ 128 :: replicate (63 - length bs) 0)) ++
    (replicate 56 0 ++ be_bytes 8 (8 * Z.of_nat (length (m ++ bs)))).
Proof.
  intros Hm Hbs. unfold padded. rewrite <-!app_assoc. cbn [app]. rewrite (app_assoc (replicate (63 - length bs) 0)), <-replicate_add.
  do 5 f_equal. rewrite length_app, Hm.
  replace (64 * k + length bs)%nat with (length bs + k * 64)%nat by lia. rewrite Nat.Div0.mod_add, (Nat.mod_small (length bs)) by lia.
  rewrite Nat.mod_small by lia. lia.
Qed.

Lemma hash_length_blocks k (m : list Z) : length m = (64 * k)%nat → (length m / 64 = k)%nat.
Proof. intros ->. rewrite Nat.mul_comm. by apply Nat.div_mul. Qed.

Lemma length_be_bytes n z : length (be_bytes n z) = n.
Proof. unfold be_bytes. by rewrite length_rev, length_le_bytes. Qed.

(** The last block ends in the length. *)
Lemma last_block c p msg k b L : length msg = (64 * k)%nat → chain_of c = hash_blocks k chain0 msg →
  length p = 16%nat → take 14 p = Some <$> words 14 b → Forall is_byte b → length b = 56%nat → counted c L →
  let w := b ++ be_bytes 8 (8 * L) in
  ∃ c', (p ← vset p 14 (Some (c_Nh c)); p ← vset p 15 (Some (c_Nl c)); sha1_block (set_data c p) p 64) = Ok c' ∧
    chain_of c' = hash_blocks (S k) chain0 (msg ++ w).
Proof.
  intros Hk Hc Hp Hw Hb Hl [HNl HNh] w. rewrite vset_ok by lia. cbn [mbind res_bind].
  rewrite Hw. set (q := (Some <$> words 14 b) ++ _). assert (length q = 16%nat) as Hq.
  { unfold q. rewrite length_app, length_fmap, length_words. cbn [length]. rewrite length_drop. lia. }
  rewrite vset_ok by lia. cbn [mbind res_bind].
  assert (take 15 q ++ Some (c_Nl c) :: drop 16 q = Some <$> words 14 b ++ [c_Nh c; c_Nl c]) as ->.
  { rewrite (drop_ge q) by lia. unfold q. rewrite take_app_ge by (rewrite length_fmap, length_words; lia). rewrite length_fmap, length_words.
    change (15 - 14)%nat with 1%nat. cbn [take]. by rewrite fmap_app, <-app_assoc. }
  rewrite sha1_block_ok.
  2: by rewrite length_app, length_words.
  2: { change (chain_of (set_data c _)) with (chain_of c). rewrite Hc. apply hash_blocks_words, chain0_words. }
  eexists. split; [done|]. rewrite hash_blocks_snoc; [|done|by unfold w; rewrite length_app, length_be_bytes, Hl].
  change (chain_of (set_data c _)) with (chain_of c). rewrite (map_app u32), words_u32 by done. cbn [map].
  rewrite HNh, HNl, u32_idem, <-words_of_length, <-Hc. unfold w. change 16%nat with (14 + 2)%nat.
  rewrite words_add, words_app, drop_app_length' by (simpl; lia). by destruct (compress _ _).
Qed.

Lemma clear_words n sw p bs : length p = 16%nat → (sw + n ≤ 16)%nat → take sw p = Some <$> words sw bs →
  ∃ p', clear n sw p = Ok p' ∧ length p' = 16%nat ∧ take (sw + n) p' = Some <$> words sw bs ++ replicate n 0.
Proof.
  intros Hp Hn Hw. rewrite clear_ok by lia. eexists. split; [done|]. rewrite Hw. split.
  - rewrite !length_app, length_fmap, length_words, length_replicate, length_drop. lia.
  - rewrite app_assoc, fmap_app, fmap_replicate. apply take_app_length'. by rewrite length_app, length_fmap, length_words, length_replicate.
Qed.

Lemma end_bytes bs j : Forall is_byte bs → Forall is_byte (bs ++ 128 :: replicate j 0).
Proof.
  intros Hb. apply Forall_app. split; [done|]. constructor; [done|]. by apply Forall_replicate.
Qed.

(** The array with the end of the message, up to word [m]. *)
Lemma clear_end m p bs : let sw := (length bs / 4)%nat in (S sw ≤ m ≤ 16)%nat → (length bs < 4 * m)%nat → length p = 16%nat →
  take (S sw) p = Some <$> words (S sw) (bs ++ [128; 0; 0; 0]) →
  ∃ p', clear (m - S sw) (S sw) p = Ok p' ∧ length p' = 16%nat ∧
    take m p' = Some <$> words m (bs ++ 128 :: replicate (4 * m - 1 - length bs) 0).
Proof.
  intros sw Hm Hl Hp Hw.
  destruct (clear_words (m - S sw) (S sw) p (bs ++ [128; 0; 0; 0])) as (p' & -> & Hp' & Hw'); [done|lia|done|].
  exists p'. split; [done|]. split; [done|].
  pose proof (end_words bs (4 * m - 1 - length bs) (m - S sw) []) as He. fold sw in He. cbn zeta in He.
  rewrite app_nil_r in He. rewrite <-He in Hw' by lia. by replace (S sw + (m - S sw))%nat with m in Hw' by lia.
Qed.

Lemma final_short c p msg bs k : length msg = (64 * k)%nat → chain_of c = hash_blocks k chain0 msg → Forall is_byte bs →
  (length bs < 56)%nat → counted c (Z.of_nat (length (msg ++ bs))) → length p = 16%nat →
  let sw := (length bs / 4)%nat in take (S sw) p = Some <$> words (S sw) (bs ++ [128; 0; 0; 0]) →
  ∃ c', (p ← clear (14 - S sw) (S sw) p; p ← vset p 14 (Some (c_Nh c)); p ← vset p 15 (Some (c_Nl c)); sha1_block (set_data c p) p 64) = Ok c' ∧
    chain_of c' = hash_blocks (length (padded (msg ++ bs)) / 64) chain0 (padded (msg ++ bs)).
Proof.
  intros Hk Hc Hb Hl Hcnt Hp sw Hw. destruct (split_bytes bs) as (Hlen & Hsc & _). fold sw in Hlen.
  destruct (clear_end 14 p bs) as (p' & Hcl & Hp' & Hw'); [fold sw; lia|lia|done|done|]. fold sw in Hcl.
  rewrite Hcl. cbn [mbind res_bind]. change (4 * 14 - 1 - length bs)%nat with (55 - length bs)%nat in Hw'.
  destruct (last_block c p' msg k (bs ++ 128 :: replicate (55 - length bs) 0) (Z.of_nat (length (msg ++ bs))) Hk Hc) as (c2 & Hc2 & Hh);
    [done|done|by apply end_bytes|rewrite length_app; cbn [length]; rewrite length_replicate; lia|done|].
  exists c2. split; [done|]. rewrite (padded_short msg bs k) by lia.
  rewrite <-app_assoc in Hh. cbn [app] in Hh. rewrite Hh, (hash_length_blocks (S k)); [done|].
  rewrite length_app. cbn [length]. rewrite length_app. cbn [length]. rewrite length_app, length_replicate, length_be_bytes. lia.
Qed.

Lemma final_long c p msg bs k : length msg = (64 * k)%nat → chain_of c = hash_blocks k chain0 msg → Forall is_byte bs →
  (56 ≤ length bs < 64)%nat → counted c (Z.of_nat (length (msg ++ bs))) → length p = 16%nat →
  let sw := (length bs / 4)%nat in take (S sw) p = Some <$> words (S sw) (bs ++ [128; 0; 0; 0]) →
  ∃ p1 c1 p2 c', clear (16 - S sw) (S sw) p = Ok p1 ∧ sha1_block (set_data c p1) p1 64 = Ok c1 ∧ clear 14 0 p1 = Ok p2 ∧
    (p ← vset p2 14 (Some (c_Nh c1)); p ← vset p 15 (Some (c_Nl c1)); sha1_block (set_data c1 p) p 64) = Ok c' ∧
    chain_of c' = hash_blocks (length (padded (msg ++ bs)) / 64) chain0 (padded (msg ++ bs)).
Proof.
  intros Hk Hc Hb Hl Hcnt Hp sw Hw. destruct (split_bytes bs) as (Hlen & Hsc & _). fold sw in Hlen.
  destruct (clear_end 16 p bs) as (p1 & Hcl & Hp1 & Hw1); [fold sw; lia|lia|done|done|]. fold sw in Hcl.
  change (4 * 16 - 1 - length bs)%nat with (63 - length bs)%nat in Hw1.
  assert (length (bs ++ 128 :: replicate (63 - length bs) 0) = 64%nat) as H64.
  { rewrite length_app. cbn [length]. rewrite length_replicate. lia. }
  destruct (block_ok c p1 msg (bs ++ 128 :: replicate (63 - length bs) 0) k) as (c1 & Hb1 & Hc1 & Hl1 & Hd1 & _ & HNl & HNh);
    [done|done|done|done|by apply end_bytes|lia|]. rewrite take_ge in Hc1, Hl1 by lia.
  destruct (clear_words 14 0 p1 []) as (p2 & Hp2 & Hlp2 & Hw2); [lia..|done|].
  destruct (last_block c1 p2 _ (S k) (replicate 56 0) (Z.of_nat (length (msg ++ bs))) Hl1 Hc1) as (c2 & Hc2 & Hh);
    [done|by rewrite words_zeros|by apply Forall_replicate|done|by unfold counted; rewrite HNl, HNh|].
  exists p1, c1, p2, c2. repeat (split; [done|]).
  rewrite (padded_long msg bs k), Hh, (hash_length_blocks (S (S k))); [done| |lia..].
  rewrite length_app, Hl1, length_app, length_replicate, length_be_bytes. lia.
Qed.

Lemma SHA1_final_ok strict c msg bs : loadable strict (c_data c) (c_num c / 4) → absorbed c msg bs → counted c (Z.of_nat (length (msg ++ bs))) →
  ∃ c', SHA1_final strict c = Ok (sha1 (msg ++ bs), c').
Proof.
  intros Hld (k & Hk & Hc & Hb & Hl & Hnum & Hheld) Hcnt. unfold SHA1_final. rewrite Hnum in *.
  change (SHA_LBLOCK - 2)%nat with 14%nat. change (SHA_LBLOCK - 1)%nat with 15%nat.
  unfold SHA_LAST_BLOCK, SHA_LBLOCK. destruct (split_bytes bs) as (Hlen & Hsc & _).
  destruct (complete_word strict (c_data c) bs [128; 0; 0; 0]) as (l & w & p & -> & Hp1 & Hv & Hp & Hw); [done|done|done|by apply all_bytes|done|simpl length; lia|].
  cbn [mbind res_bind]. rewrite Hp1. cbn [mbind res_bind fst snd]. rewrite Hv. cbn [mbind res_bind].
  assert (∀ c', chain_of c' = hash_blocks (length (padded (msg ++ bs)) / 64) chain0 (padded (msg ++ bs)) →
    nl2c (c_h0 c') ++ nl2c (c_h1 c') ++ nl2c (c_h2 c') ++ nl2c (c_h3 c') ++ nl2c (c_h4 c') = sha1 (msg ++ bs)) as Hd.
  { intros c' Hc'. unfold sha1. by rewrite <-Hc', !nl2c_bytes. }
  case_decide as H56.
  - destruct (final_long c p msg bs k) as (p1 & c1 & p2 & c' & -> & H); [done|done|done|lia|done|done|done|]. cbn [mbind res_bind].
    destruct H as (-> & H). cbn [mbind res_bind]. destruct H as (-> & H & Hh). cbn [mbind res_bind].
    apply bind_Ok in H as (p3 & -> & H). cbn [mbind res_bind]. apply bind_Ok in H as (p4 & -> & H). cbn [mbind res_bind].
    rewrite H. cbn [mbind res_bind].
    rewrite (Hd c') by done. by eexists.
  - destruct (final_short c p msg bs k) as (c' & H & Hh); [done|done|done|lia|done|done|done|].
    apply bind_Ok in H as (p1 & -> & H). cbn [mbind res_bind].
    apply bind_Ok in H as (p3 & -> & H). cbn [mbind res_bind]. apply bind_Ok in H as (p4 & -> & H). cbn [mbind res_bind].
    rewrite H. cbn [mbind res_bind].
    rewrite (Hd c') by done. by eexists.
Qed.

(** ** Words that were written *)

Definition written (p : list (option Z)) : Prop := Forall is_Some p.

Lemma written_loadable strict p i : written p → (i < length p)%nat → loadable strict p i.
Proof.
  intros Hw Hi _. destruct (lookup_lt_is_Some_2 p i Hi) as [o Ho]. pose proof (proj1 (Forall_lookup _ _) Hw i o Ho) as [z ->]. by exists z.
Qed.

Lemma written_vset p i z p' : written p → vset p i (Some z) = Ok p' → written p'.
Proof. unfold vset. case_decide; [|done]. intros Hw [= <-]. by apply Forall_insert. Qed.

Lemma written_fill n sw p bs pb : written p → fill n sw p bs = Ok pb → written pb.1.
Proof.
  revert sw p bs. induction n as [|n IH]; intros sw p bs Hw H; cbn [fill] in H; [by injection H as <-|].
  apply bind_Ok in H as (lc & _ & H). apply bind_Ok in H as (p1 & H1 & H). eapply IH, H. by eapply written_vset.
Qed.

Lemma sha1_block_data c W c' : sha1_block c W 64 = Ok c' → c_data c' = c_data c.
Proof.
  unfold sha1_block. change (S (Z.to_nat 64)) with (S 64). cbn [sha1_block_loop]. intros H. apply bind_Ok in H as ([[c1 T] x] & H1 & H).
  rewrite decide_True in H by done. injection H as <-. unfold sha1_block_one in H1. res_inv H1. by injection H1 as <-.
Qed.

Lemma written_blocks fuel c bytes c' r : written (c_data c) → update_blocks fuel c bytes = Ok (c', r) → written (c_data c').
Proof.
  revert c bytes. induction fuel as [|fuel IH]; intros c bytes Hw H; cbn [update_blocks] in H; [done|].
  case_decide; [|by injection H as <- _]. apply bind_Ok in H as (pb & Hf & H). apply bind_Ok in H as (c1 & Hb & H).
  eapply IH, H. rewrite (sha1_block_data _ _ _ Hb). by eapply written_fill.
Qed.

(** The rest of the input ends in a word that is written. *)
Lemma written_rest c bytes c' : update_rest c bytes = Ok c' →
  (∃ z, c_data c' !! (c_num c' / 4)%nat = Some (Some z)) ∧ (written (c_data c) → written (c_data c')).
Proof.
  unfold update_rest. intros H. apply bind_Ok in H as ([c1 r] & Hb & H). apply bind_Ok in H as (pb & Hf & H).
  apply bind_Ok in H as (l & _ & H). apply bind_Ok in H as (p & Hv & H). injection H as <-. cbn [set_num set_data c_data c_num]. split.
  - exists l. unfold vset in Hv. case_decide; [|done]. injection Hv as <-. by apply list_lookup_insert_eq.
  - intros Hw. eapply written_vset, Hv. eapply written_fill, Hf. by eapply written_blocks.
Qed.

Lemma written_update strict c new c' : written (c_data c) → SHA1_update strict c new = Ok c' → written (c_data c').
Proof.
  intros Hw H. unfold SHA1_update in H. case_decide; [by injection H as <-|].
  assert (written (c_data (add_length c (Z.of_nat (length new))))) as Hd by done. set (d := add_length _ _) in *. clearbody d.
  case_decide; [|by eapply written_rest]. case_decide; [|case_decide].
  - apply bind_Ok in H as (l & _ & H). apply bind_Ok in H as (lc & _ & H). apply bind_Ok in H as (p & Hv & H).
    apply bind_Ok in H as (pb & Hf & H). apply bind_Ok in H as (c1 & Hb & H). eapply written_rest; [exact H|]. cbn [set_num c_data].
    rewrite (sha1_block_data _ _ _ Hb). eapply written_fill, Hf. by eapply written_vset.
  - apply bind_Ok in H as (l & _ & H). apply bind_Ok in H as (z & _ & H). apply bind_Ok in H as (p & Hv & H). injection H as <-.
    by eapply written_vset.
  - apply bind_Ok in H as (l & _ & H). apply bind_Ok in H as (lc & _ & H). apply bind_Ok in H as (p & Hv & H).
    apply bind_Ok in H as (pb & Hf & H). apply bind_Ok in H as (p1 & Hp1 & H). injection H as <-. cbn [set_num set_data c_data].
    assert (written pb.1) as Hpb by (eapply written_fill, Hf; by eapply written_vset).
    case_decide; [|by injection Hp1 as <-]. apply bind_Ok in Hp1 as (z & _ & Hp1). by eapply written_vset.
Qed.

(** The array is written, or that does not matter. *)
Definition usable (strict : bool) (p : list (option Z)) : Prop := strict = true → written p.

Lemma usable_loadable strict c msg bs : usable strict (c_data c) → absorbed c msg bs → loadable strict (c_data c) (c_num c / 4).
Proof.
  intros Hu (k & _ & _ & _ & Hl & -> & (Hp & _)) Hs. apply (written_loadable true); [by apply Hu| |done].
  rewrite Hp. apply Nat.Div0.div_lt_upper_bound. lia.
Qed.

Lemma updates_ok strict pieces c msg bs : usable strict (c_data c) → absorbed c msg bs → counted c (Z.of_nat (length (msg ++ bs))) →
  Forall (Forall is_byte) pieces →
  ∃ c' msg' bs', foldM (SHA1_update strict) c pieces = Ok c' ∧ msg ++ bs ++ concat pieces = msg' ++ bs' ∧ absorbed c' msg' bs' ∧
    counted c' (Z.of_nat (length (msg' ++ bs'))) ∧ usable strict (c_data c').
Proof.
  revert c msg bs. induction pieces as [|d pieces IH]; intros c msg bs Hu Hab Hcnt Hb; cbn [foldM concat].
  - exists c, msg, bs. by rewrite app_nil_r.
  - apply Forall_cons in Hb as [Hd Hb].
    destruct (SHA1_update_ok strict c msg bs d _ (λ _, usable_loadable _ _ _ _ Hu Hab) Hab Hcnt Hd) as (c1 & m1 & b1 & Hc1 & Hm & Hab1 & Hcnt1).
    rewrite Hc1. cbn [mbind res_bind].
    destruct (IH c1 m1 b1) as (c' & m' & b' & -> & Hm' & H); [|done| |done|].
    + intros Hs. eapply written_update, Hc1. by apply Hu.
    + rewrite <-Hm, app_assoc, length_app, Nat2Z.inj_add. done.
    + exists c', m', b'. split; [done|]. split; [|done]. by rewrite <-Hm', (app_assoc m1), <-Hm, <-!app_assoc.
Qed.

Lemma init_absorbed junk : length junk = 16%nat → absorbed (SHA1_init junk) [] [].
Proof. intros Hj. exists 0%nat. repeat split; first [done|simpl; lia|constructor]. Qed.

Lemma pieces_hash strict junk pieces : length junk = 16%nat → usable strict junk → Forall (Forall is_byte) pieces →
  sha1_pieces strict junk pieces = Ok (sha1 (concat pieces)).
Proof.
  intros Hj Hu Hb. unfold sha1_pieces.
  destruct (updates_ok strict pieces (SHA1_init junk) [] []) as (c & m & b & -> & Hm & Hab & Hcnt & Hw);
    [done|by apply init_absorbed|done|done|].
  cbn [mbind res_bind]. destruct (SHA1_final_ok strict c m b (usable_loadable _ _ _ _ Hw Hab) Hab Hcnt) as (c' & ->).
  cbn in Hm |- *. by rewrite Hm.
Qed.

(** One piece that is not empty leaves the word written that is loaded last. *)
Lemma piece_hash strict junk d : length junk = 16%nat → Forall is_byte d → d ≠ [] → sha1_pieces strict junk [d] = Ok (sha1 d).
Proof.
  intros Hj Hb Hd. unfold sha1_pieces. cbn [foldM].
  destruct (SHA1_update_ok strict (SHA1_init junk) [] [] d 0) as (c & m & b & Hc & Hm & Hab & Hcnt);
    [intros H; by destruct H|by apply init_absorbed|done|done|].
  rewrite Hc. cbn [mbind res_bind]. cbn [app] in Hm. subst d.
  assert (∃ z, c_data c !! (c_num c / 4)%nat = Some (Some z)) as Hz.
  { unfold SHA1_update in Hc. case_decide as Hz; [apply nil_length_inv in Hz; congruence|]. cbn [add_length SHA1_init c_num] in Hc.
    rewrite decide_False in Hc by (intros H; by destruct H). by apply written_rest in Hc as [? _]. }
  destruct (SHA1_final_ok strict c m b (λ _, Hz) Hab Hcnt) as (c' & ->). done.
Qed.

(** C5: the digest of data that comes in any pieces is the SHA-1 of the standard,
    with words of 64 bits of which the upper halves carry rubbish.  No read is
    outside the data or the context, and the value of a word that was never
    written is never used.  Such a word is loaded, though, into a variable that
    is overwritten; by the rules of the language ([strict]) the result therefore
    needs a context whose memory was written before, or data that comes in one
    piece and is not empty ([empty_loads_unwritten] is the exception). *)
Theorem sha1_correct strict junk pieces : length junk = 16%nat → Forall (Forall is_byte) pieces →
  (strict = true → Forall is_Some junk ∨ ∃ d, pieces = [d] ∧ d ≠ []) →
  sha1_pieces strict junk pieces = Ok (sha1 (concat pieces)).
Proof.
  intros Hj Hb Hs. destruct strict; [|by apply pieces_hash]. destruct (Hs eq_refl) as [Hw|(d & -> & Hd)].
  { apply pieces_hash; [done|by intros _|done]. }
  apply Forall_cons in Hb as [Hb _]. cbn. rewrite app_nil_r. by apply piece_hash.
Qed.

Lemma sha1_correct_witness : sha1_pieces false (replicate 16 None) [[97]; [98; 99]; replicate 70 5] = Ok (sha1 ([97; 98; 99] ++ replicate 70 5)).
Proof.
  apply (sha1_correct false (replicate 16 None) [[97]; [98; 99]; replicate 70 5]); [done| |done].
  repeat (apply Forall_cons; split; [by apply all_bytes|]); by apply Forall_nil.
Defined.

(** The word that ends the empty message, or a message whose last piece ends with
    a word, is loaded before it was written. *)
Lemma empty_loads_unwritten : sha1_pieces true (replicate 16 None) [] = Ub Uninit ∧
  sha1_pieces true (replicate 16 None) [[1; 2; 3]; [4; 5; 6; 7; 8]] = Ub Uninit.
Proof. split; vm_compute; reflexivity. Qed.
