(* ===== verification/XTransport.v ===== *)
(** * XTransport: sockets and the reliable transport (elements/xia/xtransport.cc)

    The element between the applications and the network: the state of the
    sockets, a handler for each call of the socket library, for packets from the
    network and from the cache, and for the timer.  A handler takes the element
    and returns it with the packets and messages it pushes, in order.

    The fields of struct DAGinfo are grouped by their use; those its constructor
    leaves uninitialised are options.  A path is ordered anew by every use, so
    the numbers a use leaves in it are not kept.  Times are numbers of
    microseconds; the time and the random number a handler reads are arguments.
    Messages of the socket library stand for their protobuf encoding. *)

From Stdlib Require Import ZArith Lia Ascii String.
From stdpp Require Import base gmap sets list.
From S2P Require Import Prelude Text ConfParse XiaPath XiaPathOrder XiaPathCodec XidText XiaPathText XiaHeader ExtHeader RouteTable.

Local Open Scope Z_scope.

(** ** Constants *)

Definition ACK_DELAY : Z := 300.
Definition TEARDOWN_DELAY : Z := 240000.
Definition HLIM_DEFAULT : Z := 250.
Definition LAST_NODE_DEFAULT : Z := -1.
Definition XSOCKET_DGRAM : Z := 2.
Definition XSOCKET_RAW : Z := 3.
Definition XSOCKET_CHUNK : Z := 4.
Definition MAX_WIN_SIZE : Z := 100.
Definition MAX_CONNECT_TRIES : Z := 30.
Definition MAX_RETRANSMIT_TRIES : Z := 100.
Definition REQUEST_FAILED : Z := 1.
Definition WAITING_FOR_CHUNK : Z := 2.
Definition READY_TO_READ : Z := 4.
Definition INVALID_HASH : Z := 8.
Definition CLICK_XIA_NXT_CID : Z := 12.
Definition CLICK_XIA_NXT_TRN : Z := 60.
Definition CLICK_XIA_NXT_XCMP : Z := 61.
Definition EADDRNOTAVAIL : Z := 99.
Definition ECONNABORTED : Z := 103.

Definition make_msec (ms : Z) : Z := 1000 * ms.

(** ** State *)

(** Struct DAGinfo: the addresses of a socket. *)
Record Address := mkAddr {
  a_port : Z;
  a_src_path : XIAPath;
  a_dst_path : XIAPath;
  a_nxt : option Z;
  a_last : option Z;
  a_hlim : option Z;
  a_isConnected : bool;
  a_isAcceptSocket : option bool;
  a_initialized : bool;
  a_full_src_dag : bool;
  a_sock_type : option Z;
  a_sdag : str;
  a_ddag : str }.

(** The window of a stream: packets as bytes, in [MAX_WIN_SIZE] slots. *)
Record Window := mkWin {
  w_num_retransmit_tries : option Z;
  w_sent_pkt : option (list (option (list Z)));
  w_seq_num : option Z;
  w_ack_num : option Z;
  w_base : option Z;
  w_next_seqnum : option Z;
  w_expected_seqnum : option Z }.

(** What a socket waits for. *)
Record Waits := mkWaits {
  t_timer_on : bool;
  t_expiry : Z;
  t_synack_waiting : bool;
  t_dataack_waiting : bool;
  t_teardown_waiting : bool;
  t_teardown_expiry : Z;
  t_num_connect_tries : option Z;
  t_syn_pkt : option (list Z) }.

(** The chunks a socket has requested. *)
Record Chunks := mkChunks {
  XIDtoCIDreqPkt : gmap Xid (list Z);
  XIDtoExpiryTime : gmap Xid Z;
  XIDtoTimerOn : gmap Xid bool;
  XIDtoStatus : gmap Xid Z;
  XIDtoReadReq : gmap Xid bool;
  XIDtoCIDresponsePkt : gmap Xid (list Z) }.

Record DAGinfo := mkInfo { di_addr : Address; di_win : Window; di_wait : Waits; di_chunks : Chunks }.

Definition DAGinfo_new : DAGinfo :=
  mkInfo (mkAddr 0 XIAPath_reset XIAPath_reset None None None false None false false None [] [])
    (mkWin None None None None None None None)
    (mkWaits false 0 false false false 0 None None)
    (mkChunks ∅ ∅ ∅ ∅ ∅ ∅).

Definition with_addr (d : DAGinfo) (a : Address) : DAGinfo := mkInfo a (di_win d) (di_wait d) (di_chunks d).
Definition with_win (d : DAGinfo) (w : Window) : DAGinfo := mkInfo (di_addr d) w (di_wait d) (di_chunks d).
Definition with_wait (d : DAGinfo) (t : Waits) : DAGinfo := mkInfo (di_addr d) (di_win d) t (di_chunks d).
Definition with_chunks (d : DAGinfo) (c : Chunks) : DAGinfo := mkInfo (di_addr d) (di_win d) (di_wait d) c.

Definition set_src_path (d : DAGinfo) (p : XIAPath) : DAGinfo :=
  let a := di_addr d in
  with_addr d (mkAddr (a_port a) p (a_dst_path a) (a_nxt a) (a_last a) (a_hlim a) (a_isConnected a) (a_isAcceptSocket a)
    (a_initialized a) (a_full_src_dag a) (a_sock_type a) (a_sdag a) (a_ddag a)).
Definition set_dst_path (d : DAGinfo) (p : XIAPath) : DAGinfo :=
  let a := di_addr d in
  with_addr d (mkAddr (a_port a) (a_src_path a) p (a_nxt a) (a_last a) (a_hlim a) (a_isConnected a) (a_isAcceptSocket a)
    (a_initialized a) (a_full_src_dag a) (a_sock_type a) (a_sdag a) (a_ddag a)).
Definition set_full_src_dag (d : DAGinfo) (f : bool) : DAGinfo :=
  let a := di_addr d in
  with_addr d (mkAddr (a_port a) (a_src_path a) (a_dst_path a) (a_nxt a) (a_last a) (a_hlim a) (a_isConnected a)
    (a_isAcceptSocket a) (a_initialized a) f (a_sock_type a) (a_sdag a) (a_ddag a)).
Definition set_initialized (d : DAGinfo) (f : bool) : DAGinfo :=
  let a := di_addr d in
  with_addr d (mkAddr (a_port a) (a_src_path a) (a_dst_path a) (a_nxt a) (a_last a) (a_hlim a) (a_isConnected a)
    (a_isAcceptSocket a) f (a_full_src_dag a) (a_sock_type a) (a_sdag a) (a_ddag a)).

(** The element's own addresses. *)
Record LocalNode := mkLocal {
  n_xcache_sid : Xid;
  n_local_hid : Xid;
  n_local_addr : XIAPath;
  n_local_4id : Xid;
  n_null_4id : Xid;
  n_is_dual_stack_router : bool;
  n_nameserver_addr : XIAPath }.

Record Tables := mkTables {
  XIDtoPort : gmap Xid Z;
  XIDpairToPort : gmap (Xid * Xid) Z;
  XIDtoPushPort : gmap Xid Z;
  portToActive : gmap Z bool;
  XIDpairToConnectPending : gmap (Xid * Xid) bool;
  nxt_xport : gmap Z Z;
  hlim_of : gmap Z Z }.

Record XTRANSPORT := mkXT {
  _timer : option Z;                 (* when the timer is scheduled *)
  xt_node : LocalNode;
  xt_tables : Tables;
  portToDAGinfo : gmap Z DAGinfo;
  pending_connection_buf : list DAGinfo;
  xcmp_listeners : list Z;
  _routeTable : XIAXIDRouteTable }.

Definition with_timer (x : XTRANSPORT) (t : option Z) : XTRANSPORT :=
  mkXT t (xt_node x) (xt_tables x) (portToDAGinfo x) (pending_connection_buf x) (xcmp_listeners x) (_routeTable x).
Definition with_node (x : XTRANSPORT) (n : LocalNode) : XTRANSPORT :=
  mkXT (_timer x) n (xt_tables x) (portToDAGinfo x) (pending_connection_buf x) (xcmp_listeners x) (_routeTable x).
Definition with_tables (x : XTRANSPORT) (t : Tables) : XTRANSPORT :=
  mkXT (_timer x) (xt_node x) t (portToDAGinfo x) (pending_connection_buf x) (xcmp_listeners x) (_routeTable x).
Definition with_infos (x : XTRANSPORT) (m : gmap Z DAGinfo) : XTRANSPORT :=
  mkXT (_timer x) (xt_node x) (xt_tables x) m (pending_connection_buf x) (xcmp_listeners x) (_routeTable x).
Definition with_pending (x : XTRANSPORT) (l : list DAGinfo) : XTRANSPORT :=
  mkXT (_timer x) (xt_node x) (xt_tables x) (portToDAGinfo x) l (xcmp_listeners x) (_routeTable x).
Definition with_listeners (x : XTRANSPORT) (l : list Z) : XTRANSPORT :=
  mkXT (_timer x) (xt_node x) (xt_tables x) (portToDAGinfo x) (pending_connection_buf x) l (_routeTable x).
Definition with_routes (x : XTRANSPORT) (r : XIAXIDRouteTable) : XTRANSPORT :=
  mkXT (_timer x) (xt_node x) (xt_tables x) (portToDAGinfo x) (pending_connection_buf x) (xcmp_listeners x) r.

Definition set_info (x : XTRANSPORT) (port : Z) (d : DAGinfo) : XTRANSPORT :=
  with_infos x (<[port := d]> (portToDAGinfo x)).

Definition set_XIDtoPort (x : XTRANSPORT) (k : Xid) (port : Z) : XTRANSPORT :=
  let t := xt_tables x in
  with_tables x (mkTables (<[k := port]> (XIDtoPort t)) (XIDpairToPort t) (XIDtoPushPort t) (portToActive t)
    (XIDpairToConnectPending t) (nxt_xport t) (hlim_of t)).
Definition set_XIDpairToPort (x : XTRANSPORT) (k : Xid * Xid) (port : Z) : XTRANSPORT :=
  let t := xt_tables x in
  with_tables x (mkTables (XIDtoPort t) (<[k := port]> (XIDpairToPort t)) (XIDtoPushPort t) (portToActive t)
    (XIDpairToConnectPending t) (nxt_xport t) (hlim_of t)).
Definition set_XIDtoPushPort (x : XTRANSPORT) (k : Xid) (port : Z) : XTRANSPORT :=
  let t := xt_tables x in
  with_tables x (mkTables (XIDtoPort t) (XIDpairToPort t) (<[k := port]> (XIDtoPushPort t)) (portToActive t)
    (XIDpairToConnectPending t) (nxt_xport t) (hlim_of t)).
Definition set_portToActive (x : XTRANSPORT) (port : Z) (b : bool) : XTRANSPORT :=
  let t := xt_tables x in
  with_tables x (mkTables (XIDtoPort t) (XIDpairToPort t) (XIDtoPushPort t) (<[port := b]> (portToActive t))
    (XIDpairToConnectPending t) (nxt_xport t) (hlim_of t)).
Definition set_ConnectPending (x : XTRANSPORT) (k : Xid * Xid) (b : bool) : XTRANSPORT :=
  let t := xt_tables x in
  with_tables x (mkTables (XIDtoPort t) (XIDpairToPort t) (XIDtoPushPort t) (portToActive t)
    (<[k := b]> (XIDpairToConnectPending t)) (nxt_xport t) (hlim_of t)).
Definition set_nxt_xport (x : XTRANSPORT) (port v : Z) : XTRANSPORT :=
  let t := xt_tables x in
  with_tables x (mkTables (XIDtoPort t) (XIDpairToPort t) (XIDtoPushPort t) (portToActive t)
    (XIDpairToConnectPending t) (<[port := v]> (nxt_xport t)) (hlim_of t)).
Definition set_hlim_of (x : XTRANSPORT) (port v : Z) : XTRANSPORT :=
  let t := xt_tables x in
  with_tables x (mkTables (XIDtoPort t) (XIDpairToPort t) (XIDtoPushPort t) (portToActive t)
    (XIDpairToConnectPending t) (nxt_xport t) (<[port := v]> (hlim_of t))).

(** [get] of a hash table returns 0 without an entry. *)
Definition port_of (x : XTRANSPORT) (k : Xid) : Z := default 0 (XIDtoPort (xt_tables x) !! k).
Definition pair_port (x : XTRANSPORT) (k : Xid * Xid) : Z := default 0 (XIDpairToPort (xt_tables x) !! k).
Definition hlim_get (x : XTRANSPORT) (port : Z) : Z := default 0 (hlim_of (xt_tables x) !! port).

(** [get_pointer], followed. *)
Definition info_at (x : XTRANSPORT) (port : Z) : res DAGinfo :=
  match portToDAGinfo x !! port with Some d => Ok d | None => Ub NullDeref end.

(** ** Messages *)

Inductive XSocketCallType : Set :=
  | XSOCKET | XBIND | XCLOSE | XCONNECT | XACCEPT | XSENDTO | XSEND | XRECV | XRECVFROM | XSETSOCKOPT | XGETSOCKOPT
  | XPUTCHUNK | XREQUESTCHUNK | XGETCHUNKSTATUS | XREADCHUNK | XREMOVECHUNK | XREQUESTFAILED | XRESULT
  | XCHANGEAD | XREADLOCALHOSTADDR | XREADXCACHESID | XUPDATENAMESERVERDAG | XREADNAMESERVERDAG
  | XISDUALSTACKROUTER | XGETPEERNAME | XGETSOCKNAME | XPUSHCHUNKTO | XBINDPUSH.
#[global] Instance XSocketCallType_eq_dec : EqDecision XSocketCallType.
Proof. solve_decision. Defined.

(** A call of the socket library. *)
Inductive api_msg :=
  | M_XSOCKET (type : Z)
  | M_XSETSOCKOPT (opt_type int_opt : Z)
  | M_XGETSOCKOPT (opt_type int_opt : Z)
  | M_XBIND (sdag : str)
  | M_XCLOSE
  | M_XCONNECT (ddag : str)
  | M_XACCEPT
  | M_XCHANGEAD (ad ip4id : str)
  | M_XREADLOCALHOSTADDR
  | M_XREADXCACHESID
  | M_XUPDATENAMESERVERDAG (dag : str)
  | M_XREADNAMESERVERDAG
  | M_XISDUALSTACKROUTER
  | M_XSEND (payload : list Z)
  | M_XSENDTO (ddag : str) (payload : list Z)
  | M_XREQUESTCHUNK (dags : list str) (payload : list Z)
  | M_XGETCHUNKSTATUS (dags : list str)
  | M_XREADCHUNK (dag : str)
  | M_XREMOVECHUNK (contextid : Z) (cid : str)
  | M_XPUTCHUNK (contextid ttl cachesize cachepolicy : Z) (payload : list Z)
  | M_XGETPEERNAME
  | M_XGETSOCKNAME
  | M_XPUSHCHUNKTO (ddag : str) (contextid ttl cachesize cachepolicy : Z) (payload : list Z) (cid : str)
  | M_XBINDPUSH (sdag : str)
  | M_OTHER.

(** A message to an application. *)
Inductive reply :=
  | R_XRESULT (type : XSocketCallType) (return_code err_code : Z)
  | R_XRECV (dag : str) (payload : list Z)
  | R_XACCEPT (dag : str)
  | R_XGETSOCKOPT (opt_type int_opt : Z)
  | R_XREADLOCALHOSTADDR (ad hid ip4id : str)
  | R_XREADXCACHESID (sid : str)
  | R_XREADNAMESERVERDAG (dag : str)
  | R_XISDUALSTACKROUTER (flag : bool)
  | R_XGETPEERNAME (dag : str)
  | R_XGETSOCKNAME (dag : str)
  | R_XGETCHUNKSTATUS (dags status : list str)
  | R_XREADCHUNK (dag : str) (payload : list Z)
  | R_XREMOVECHUNK (contextid : Z) (cid : str) (status : Z)
  | R_XPUTCHUNK (contextid : Z) (cid : str) (ttl timestamp : Z) (payload : list Z)
  | R_XPUSHCHUNKTO (cid : str) (payload : list Z) (cachepolicy ttl cachesize contextid len : Z) (ddag : str).

(** What is pushed: a packet to the network or the cache, or a message to the
    socket with a port ([UDPIPPrep]). *)
Inductive output :=
  | ToNetwork (p : list Z)
  | ToCache (p : list Z)
  | ToApi (port : Z) (m : reply).

(** ** Strings *)

Definition bytes_of (s : str) : list Z := map code s.
Definition chars (b : list Z) : str := map chr b.

(** The C string at an offset of a packet. *)
Fixpoint cstring (b : list Z) : res (list Z) :=
  match b with
  | [] => Ub OutOfBounds
  | x :: b => if decide (x = 0) then Ok [] else s ← cstring b; Ok (x :: s)
  end.

(** [String(s, len)]: a negative length stands for [strlen]. *)
Definition String_at (b : list Z) (o len : Z) : res (list Z) :=
  if decide (len < 0) then cstring (drop (Z.to_nat o) b) else bytes_at b o len.

(** [find_left] and [substring] of class String. *)
Fixpoint find_from (sub s : str) (pos : Z) : Z :=
  match s with
  | [] => -1
  | c :: s' => if bool_decide (sub `prefix_of` s) then pos else find_from sub s' (pos + 1)
  end.
Definition find_left (sub s : str) (start : Z) : Z :=
  let start := Z.max 0 start in
  if decide (Z.of_nat (length s) ≤ start) then -1
  else if decide (sub = []) then 0 else find_from sub (drop (Z.to_nat start) s) start.

Definition String_substring (s : str) (pos len : Z) : str :=
  let n := Z.of_nat (length s) in
  let pos := if decide (pos < 0) then pos + n else pos in
  let pos2 := if decide (len < 0) then n + len
              else if decide (0 ≤ pos ∧ n ≤ len) then n else pos + len in
  let pos := Z.max 0 pos in
  let pos2 := Z.min n pos2 in
  if decide (pos2 ≤ pos) then [] else take (Z.to_nat (pos2 - pos)) (drop (Z.to_nat pos) s).

(** [cp_spacevec]: an item is not empty, so the length of the string is enough. *)
Fixpoint spacevec_loop (fuel : nat) (s : str) : list str :=
  match fuel with
  | O => []
  | S fuel => let '(w, s) := cp_shift_spacevec s in if decide (w = []) then [] else w :: spacevec_loop fuel s
  end.
Definition cp_spacevec (s : str) : list str := spacevec_loop (S (length s)) s.

(** [random_xid]: the text ends in the random number as eight digits. *)
Definition random_xid (type : str) (rnd : Z) : str :=
  type ++ lit ":30000ff0000000000000000000000000" ++ (rev (le_bytes 4 rnd) ≫= print_02x).

Definition space : str := [" "%char].

(** ** The element *)

Section element.
(** The tables of names, the order of hash tables, the memory [new] returns, the
    hash function (elements/ipsec/sha1_impl.cc). *)
Variable query_xid : str → option Xid.
Variable query_ip : str → option (list Z).
Variable entries : kvmap → list (Z * list Z).
Variable fresh : nat → list Z.
Variable fresh_nodes : Z → list xid_node.
Variable port_order : gmap Z DAGinfo → list Z.
Variable cid_order : gmap Xid bool → list Xid.
Variable SHA1 : list Z → list Z.

(** [XID::parse]. *)
Definition xid_parse (old : Xid) (s : str) : Xid :=
  match cp_xid query_xid query_ip s with
  | Some x => x
  | None => mkXid (htonl CLICK_XIA_XID_TYPE_UNDEF) (xid_id old)
  end.

Definition parse_path (old : XIAPath) (s : str) : XIAPath * bool := path_parse query_xid query_ip old s.
Definition parse_path_re (s : str) : XIAPath := (parse_re query_xid query_ip s).1.
Definition text_re (p : XIAPath) : res str := r ← unparse_re (λ _, []) p; Ok r.2.
Definition text_of (p : XIAPath) : res str := r ← path_unparse (λ _, []) p; Ok r.2.
Definition destination_xid (p : XIAPath) : res Xid := path_xid p (p_dst p).

Definition sid_type : Z := default 0 (cp_xid_type (lit "SID")).

Definition transport_configure (local_addr : XIAPath) (local_4id : Xid) (table : XIAXIDRouteTable)
    (is_dual_stack_router : option bool) (rnd : Z) : res XTRANSPORT :=
  hid ← destination_xid local_addr;
  dual ← init is_dual_stack_router;
  Ok (mkXT None
    (mkLocal (xid_parse Xid_undef (random_xid (lit "SID") rnd)) hid local_addr local_4id
      (xid_parse Xid_undef (lit "IP:0.0.0.0")) dual XIAPath_reset)
    (mkTables ∅ ∅ ∅ ∅ ∅ ∅ ∅) ∅ [] [] table).

(** *** Routes for local services *)

Definition addRoute (x : XTRANSPORT) (sid : Xid) : res XTRANSPORT :=
  s ← xid_unparse sid;
  Ok (with_routes x (set_handler query_xid query_ip (s ++ space ++ print_d DESTINED_FOR_LOCALHOST) true (_routeTable x)).1).

(** *** Timer *)

Definition reschedule (x : XTRANSPORT) (expiry : Z) : XTRANSPORT :=
  match _timer x with
  | None => with_timer x (Some expiry)
  | Some t => if decide (expiry ≤ t) then with_timer x (Some expiry) else x
  end.

(** *** Packets *)

(** A header with its fields set; each path is set with a new node array. *)
Definition new_header (nxt last hlim : Z) (dst src : XIAPath) (plen : Z) : res XIAHeaderEncap :=
  let e := encap_set_hlim (encap_set_last (encap_set_nxt XIAHeaderEncap_new nxt) last) hlim in
  e ← encap_set_dst_path (fresh_nodes (u8 (unparse_node_size dst + unparse_node_size (en_src e)))) e dst;
  e ← encap_set_src_path (fresh_nodes (u8 (unparse_node_size (en_dst e) + unparse_node_size src))) e src;
  Ok (encap_set_plen e plen).

(** Payload, transport header, network header. *)
Definition transport_packet (th : XIAGenericExtHeaderEncap) (hlim : Z) (dst src : XIAPath) (data : list Z) : res (list Z) :=
  let p := ext_encap th data in
  let th := ext_update entries fresh th in
  e ← new_header CLICK_XIA_NXT_TRN LAST_NODE_DEFAULT hlim dst src (Z.of_nat (length data) + ee_hlen th);
  Ok (encap e p false).

(** The source path of a socket after the host has moved: the local address
    with the XID the path ends in. *)
Definition local_path (x : XTRANSPORT) (source_xid : Xid) : res str :=
  la ← text_re (n_local_addr (xt_node x)); s ← xid_unparse source_xid; Ok (la ++ space ++ s).

Definition relocate (x : XTRANSPORT) (src : XIAPath) : res XIAPath :=
  source_xid ← destination_xid src;
  str_local_addr ← local_path x source_xid;
  dagstr ← text_re src;
  Ok (if decide (dagstr ≠ [] ∧ dagstr ≠ str_local_addr) then parse_path_re str_local_addr else src).

(** The header of a copy: the socket's paths, the other fields of the packet. *)
Definition copy_common (x : XTRANSPORT) (d : DAGinfo) (b : list Z) : res (DAGinfo * XIAHeaderEncap) :=
  src ← relocate x (a_src_path (di_addr d));
  let d := set_src_path d src in
  nxt ← hdr_nxt b; last ← hdr_last b; hlim ← hdr_hlim b; plen ← hdr_plen b;
  e ← new_header nxt last hlim (a_dst_path (di_addr d)) src plen;
  Ok (d, e).

(** A copy of a packet with a transport header. *)
Definition copy_packet (x : XTRANSPORT) (b : list Z) (d : DAGinfo) : res (DAGinfo * list Z) :=
  de ← copy_common x d b;
  th ← XIAGenericExtHeader_of b;
  type ← th_type th; info ← th_pkt_info th; seq ← th_seq_num th; ack ← th_ack_num th; len ← th_length th;
  plen ← hdr_plen b;
  data ← bytes_at b (ext_payload th) (u32 (plen - ext_hlen th));
  Ok (de.1, encap de.2 (ext_encap (TransportHeaderEncap entries fresh type info seq ack len) data) false).

(** A copy of a chunk request: the payload is taken to be as long as the packet
    says, content header included. *)
Definition copy_cid_req_packet (x : XTRANSPORT) (b : list Z) (d : DAGinfo) : res (DAGinfo * list Z) :=
  de ← copy_common x d b;
  o ← payload b; plen ← hdr_plen b;
  data ← bytes_at b o plen;
  Ok (de.1, encap de.2 (ext_encap (MakeRequestHeader entries fresh) data) false).

Definition copy_cid_response_packet (x : XTRANSPORT) (b : list Z) (d : DAGinfo) : res (DAGinfo * list Z) :=
  de ← copy_common x d b;
  o ← payload b; plen ← hdr_plen b;
  data ← bytes_at b o plen;
  ch ← XIAGenericExtHeader_of b;
  opcode ← ch_opcode ch; chunk_offset ← ch_chunk_offset ch; len ← ch_length ch;
  Ok (de.1, encap de.2 (ext_encap (ContentHeaderEncap entries fresh opcode chunk_offset len) data) false).

(** *** Xsocket, Xsetsockopt, Xgetsockopt *)

Definition ReturnResult (sport : Z) (type : XSocketCallType) (rc err : Z) : output := ToApi sport (R_XRESULT type rc err).

Definition Xsocket (x : XTRANSPORT) (_sport sock_type : Z) : XTRANSPORT * list output :=
  let d := mkInfo
    (mkAddr _sport XIAPath_reset XIAPath_reset None None None false (Some false) false false (Some sock_type) [] [])
    (mkWin (Some 0) (Some (replicate (Z.to_nat MAX_WIN_SIZE) None)) None None None None None)
    (mkWaits false 0 false false false 0 (Some 0) None)
    (di_chunks DAGinfo_new) in
  let x := set_portToActive (set_info x _sport d) _sport true in
  let x := set_nxt_xport (set_hlim_of x _sport HLIM_DEFAULT) _sport CLICK_XIA_NXT_TRN in
  (x, [ReturnResult _sport XSOCKET 0 0]).

Definition Xsetsockopt (x : XTRANSPORT) (_sport opt_type int_opt : Z) : XTRANSPORT * list output :=
  let x :=
    if decide (opt_type = 1) then set_hlim_of x _sport int_opt
    else if decide (opt_type = 2) then
      let x := set_nxt_xport x _sport int_opt in
      if decide (int_opt = CLICK_XIA_NXT_XCMP) then with_listeners x (xcmp_listeners x ++ [_sport])
      else with_listeners x (filter (λ p, p ≠ _sport) (xcmp_listeners x))
    else x in
  (x, [ReturnResult _sport XSETSOCKOPT 0 0]).

Definition Xgetsockopt (x : XTRANSPORT) (_sport opt_type int_opt : Z) : XTRANSPORT * list output :=
  let v := if decide (opt_type = 1) then hlim_get x _sport
           else if decide (opt_type = 2) then default 0 (nxt_xport (xt_tables x) !! _sport)
           else int_opt in
  (x, [ToApi _sport (R_XGETSOCKOPT opt_type v)]).

(** *** Xbind, XbindPush, Xclose *)

(** The path is parsed and the socket bound to it; [register] maps the XID to
    the port. *)
Definition bind_path (register : XTRANSPORT → Xid → Z → XTRANSPORT) (call : XSocketCallType)
    (x : XTRANSPORT) (_sport : Z) (sdag : str) : res (XTRANSPORT * list output) :=
  d ← info_at x _sport;
  let a := di_addr d in
  let '(src, ok) := parse_path (a_src_path a) sdag in
  if (ok : bool) then
    xids ← next_nodes src (p_src src);
    x0 ← cget xids 0;
    front_xid ← path_xid src (Z.of_nat x0);
    let full := bool_decide (xid_type front_xid ≠ sid_type) in
    source_xid ← destination_xid src;
    let a := mkAddr (a_port a) src (a_dst_path a) (Some LAST_NODE_DEFAULT) (Some LAST_NODE_DEFAULT)
      (Some (u8 (hlim_get x _sport))) false (a_isAcceptSocket a) true full (a_sock_type a) sdag (a_ddag a) in
    x ← addRoute (register x source_xid _sport) source_xid;
    Ok (set_info x _sport (with_addr d a), [ReturnResult _sport call 0 0])
  else Ok (set_info x _sport (set_src_path d src), [ReturnResult _sport call (-1) EADDRNOTAVAIL]).

Definition Xbind := bind_path set_XIDtoPort XBIND.
Definition XbindPush := bind_path set_XIDtoPushPort XBINDPUSH.

Definition Xclose (x : XTRANSPORT) (_sport now : Z) : res (XTRANSPORT * list output) :=
  d ← info_at x _sport;
  let t := di_wait d in
  let expiry := now + make_msec TEARDOWN_DELAY in
  let t := mkWaits true (t_expiry t) (t_synack_waiting t) (t_dataack_waiting t) true expiry
    (t_num_connect_tries t) (t_syn_pkt t) in
  let x := reschedule x expiry in
  let x := set_info x _sport (with_wait d t) in
  Ok (with_listeners x (filter (λ p, p ≠ _sport) (xcmp_listeners x)), [ReturnResult _sport XCLOSE 0 0]).

(** *** Xconnect, Xaccept *)

Definition connection_request : list Z := bytes_of (lit "Connection_request").
Definition connection_granted : list Z := bytes_of (lit "Connection_granted").
Definition cumulative_ACK : list Z := bytes_of (lit "cumulative_ACK").

(** A socket that is not known is a new one, with fields left uninitialised. *)
Definition Xconnect (x : XTRANSPORT) (_sport : Z) (ddag : str) (now rnd : Z) : res (XTRANSPORT * list output) :=
  let dest := c_chars ddag in
  let dst := (parse_path XIAPath_reset dest).1 in
  let d := default DAGinfo_new (portToDAGinfo x !! _sport) in
  tries ← init (t_num_connect_tries (di_wait d));
  let a := di_addr d in
  la ← text_re (n_local_addr (xt_node x));
  let src := if decide (a_sdag a = []) then parse_path_re (la ++ space ++ random_xid (lit "SID") rnd) else a_src_path a in
  let hl := hlim_get x _sport in
  let a := mkAddr _sport src dst (Some LAST_NODE_DEFAULT) (Some LAST_NODE_DEFAULT) (Some (u8 hl)) true
    (a_isAcceptSocket a) true (a_full_src_dag a) (a_sock_type a) (a_sdag a) dest in
  let w := di_win d in
  let w := mkWin (w_num_retransmit_tries w) (w_sent_pkt w) (Some 0) (Some 0) (Some 0) (Some 0) (Some 0) in
  source_xid ← destination_xid src;
  dest_xid ← destination_xid dst;
  let x := set_XIDtoPort (set_XIDpairToPort x (source_xid, dest_xid) _sport) source_xid _sport in
  x ← addRoute x source_xid;
  p ← transport_packet (MakeSYNHeader entries fresh 0 (-1) 0) hl dst src connection_request;
  let expiry := now + make_msec ACK_DELAY in
  let x := reschedule x expiry in
  let t := di_wait d in
  let d := mkInfo a w t (di_chunks d) in
  dp ← copy_packet x p d;
  let t := mkWaits true expiry true (t_dataack_waiting t) (t_teardown_waiting t) (t_teardown_expiry t)
    (Some (tries + 1)) (Some dp.2) in
  Ok (set_info x _sport (with_wait dp.1 t), [ToNetwork p]).

(** The first pending connection becomes the socket, whichever socket it was
    requested from. *)
Definition Xaccept (x : XTRANSPORT) (_sport : Z) : res (XTRANSPORT * list output) :=
  let x := set_nxt_xport (set_hlim_of x _sport HLIM_DEFAULT) _sport CLICK_XIA_NXT_TRN in
  match pending_connection_buf x with
  | [] => Ok (x, [ReturnResult _sport XACCEPT (-1) ECONNABORTED])
  | d :: rest =>
      let a := di_addr d in
      let a := mkAddr _sport (a_src_path a) (a_dst_path a) (a_nxt a) (a_last a) (Some (u8 (hlim_get x _sport)))
        (a_isConnected a) (Some true) (a_initialized a) (a_full_src_dag a) (a_sock_type a) (a_sdag a) (a_ddag a) in
      let w := mkWin (w_num_retransmit_tries (di_win d)) (Some (replicate (Z.to_nat MAX_WIN_SIZE) None))
        (Some 0) (Some 0) (Some 0) (Some 0) (Some 0) in
      let x := set_info x _sport (mkInfo a w (di_wait d) (di_chunks d)) in
      source_xid ← destination_xid (a_src_path a);
      dest_xid ← destination_xid (a_dst_path a);
      let x := set_XIDpairToPort x (source_xid, dest_xid) _sport in
      let x := with_pending (set_portToActive x _sport true) rest in
      dag ← text_of (a_dst_path a);
      Ok (x, [ToApi _sport (R_XACCEPT dag)])
  end.

(** *** Xchangead and the addresses of the host *)

Definition Xchangead (x : XTRANSPORT) (ad ip4id : str) : res (XTRANSPORT * list output) :=
  let n := xt_node x in
  let AD_str := c_chars ad in
  HID_str ← xid_unparse (n_local_hid n);
  let IP4ID_str := c_chars ip4id in
  let l4 := xid_parse (n_local_4id n) IP4ID_str in
  let new_local_addr :=
    if decide (l4 ≠ n_null_4id n) then lit "RE ( " ++ IP4ID_str ++ lit " ) " ++ AD_str ++ space ++ HID_str
    else lit "RE " ++ AD_str ++ space ++ HID_str in
  let addr := (parse_path (n_local_addr n) new_local_addr).1 in
  Ok (with_node x (mkLocal (n_xcache_sid n) (n_local_hid n) addr l4 (n_null_4id n) (n_is_dual_stack_router n)
        (n_nameserver_addr n)), []).

(** The text from the first AD up to the next space. *)
Definition Xreadlocalhostaddr (x : XTRANSPORT) (_sport : Z) : res (XTRANSPORT * list output) :=
  let n := xt_node x in
  la ← text_of (n_local_addr n);
  let AD_found_start := find_left (lit "AD:") la 0 in
  let AD_found_end := find_left space la AD_found_start in
  let AD_str := String_substring la AD_found_start (i32 (AD_found_end - AD_found_start)) in
  HID_str ← xid_unparse (n_local_hid n);
  IP4ID_str ← xid_unparse (n_local_4id n);
  Ok (x, [ToApi _sport (R_XREADLOCALHOSTADDR AD_str HID_str IP4ID_str)]).

Definition XreadXcacheSid (x : XTRANSPORT) (_sport : Z) : res (XTRANSPORT * list output) :=
  s ← xid_unparse (n_xcache_sid (xt_node x)); Ok (x, [ToApi _sport (R_XREADXCACHESID s)]).

Definition Xupdatenameserverdag (x : XTRANSPORT) (dag : str) : XTRANSPORT * list output :=
  let n := xt_node x in
  (with_node x (mkLocal (n_xcache_sid n) (n_local_hid n) (n_local_addr n) (n_local_4id n) (n_null_4id n)
     (n_is_dual_stack_router n) (parse_path (n_nameserver_addr n) (c_chars dag)).1), []).

Definition Xreadnameserverdag (x : XTRANSPORT) (_sport : Z) : res (XTRANSPORT * list output) :=
  s ← text_of (n_nameserver_addr (xt_node x)); Ok (x, [ToApi _sport (R_XREADNAMESERVERDAG s)]).

Definition Xisdualstackrouter (x : XTRANSPORT) (_sport : Z) : XTRANSPORT * list output :=
  (x, [ToApi _sport (R_XISDUALSTACKROUTER (n_is_dual_stack_router (xt_node x)))]).

Definition Xgetpeername (x : XTRANSPORT) (_sport : Z) : res (XTRANSPORT * list output) :=
  d ← info_at x _sport; s ← text_of (a_dst_path (di_addr d)); Ok (x, [ToApi _sport (R_XGETPEERNAME s)]).

Definition Xgetsockname (x : XTRANSPORT) (_sport : Z) : res (XTRANSPORT * list output) :=
  d ← info_at x _sport; s ← text_of (a_src_path (di_addr d)); Ok (x, [ToApi _sport (R_XGETSOCKNAME s)]).

(** [local_addr], the write handler H_MOVE. *)
Definition write_move (x : XTRANSPORT) (addr : XIAPath) : res XTRANSPORT :=
  let n := xt_node x in
  _ ← text_of addr;
  hid ← destination_xid addr;
  Ok (with_node x (mkLocal (n_xcache_sid n) hid addr (n_local_4id n) (n_null_4id n) (n_is_dual_stack_router n)
        (n_nameserver_addr n))).

(** A packet with a new route for the host: the address is replaced as long as it
    has less than three words. *)
Definition ProcessXhcpPacket (x : XTRANSPORT) (b : list Z) : res XTRANSPORT :=
  let n := xt_node x in
  temp ← text_of (n_local_addr n);
  let ids := cp_spacevec temp in
  if decide (length ids < 3)%nat then
    o ← payload b;
    s ← cstring (drop (Z.to_nat o) b);
    id1 ← cget ids 1;
    let addr := (parse_path (n_local_addr n) (chars s ++ space ++ id1)).1 in
    Ok (with_node x (mkLocal (n_xcache_sid n) (n_local_hid n) addr (n_local_4id n) (n_null_4id n)
          (n_is_dual_stack_router n) (n_nameserver_addr n)))
  else Ok x.

(** *** Xsend *)

(** A socket bound to a service only: its path starts at the local address from
    now on. *)
Definition complete_source (x : XTRANSPORT) (d : DAGinfo) : res DAGinfo :=
  if a_full_src_dag (di_addr d) then Ok d
  else
    front_xid ← destination_xid (a_src_path (di_addr d));
    s ← local_path x front_xid;
    Ok (set_src_path (set_full_src_dag d true) (parse_path_re s)).

(** The packet is stored in the slot of its number, whatever the slot holds. *)
Definition Xsend (x : XTRANSPORT) (_sport : Z) (data : list Z) (now : Z) : res (XTRANSPORT * list output) :=
  match portToDAGinfo x !! _sport with
  | None => Ok (x, [])
  | Some d =>
      if a_isConnected (di_addr d) then
        src ← relocate x (a_src_path (di_addr d));
        d ← complete_source x (set_src_path d src);
        let w := di_win d in
        next_seqnum ← init (w_next_seqnum w);
        ack_num ← init (w_ack_num w);
        p ← transport_packet (MakeDATAHeader entries fresh next_seqnum ack_num 0) (hlim_get x _sport)
              (a_dst_path (di_addr d)) (a_src_path (di_addr d)) data;
        seq_num ← init (w_seq_num w);
        sent ← init (w_sent_pkt w);
        let slot := seq_num mod MAX_WIN_SIZE in
        _ ← vgetz sent slot;
        dp ← copy_packet x p d;
        let w := mkWin (Some 0) (Some (<[Z.to_nat slot := Some dp.2]> sent)) (Some (u32 (seq_num + 1))) (w_ack_num w)
          (w_base w) (Some (u32 (next_seqnum + 1))) (w_expected_seqnum w) in
        let expiry := now + make_msec ACK_DELAY in
        let t := di_wait d in
        let t := mkWaits true expiry (t_synack_waiting t) true (t_teardown_waiting t) (t_teardown_expiry t)
          (t_num_connect_tries t) (t_syn_pkt t) in
        let x := reschedule x expiry in
        Ok (set_info x _sport (with_wait (with_win dp.1 w) t), [ToNetwork p])
      else Ok (x, [])
  end.

(** *** Xsendto *)

(** A socket that has no address yet gets one: the local address with [suffix]. *)
Definition ephemeral (x : XTRANSPORT) (_sport : Z) (d : DAGinfo) (suffix : str) : res (XTRANSPORT * DAGinfo) :=
  if a_initialized (di_addr d) then Ok (x, d)
  else
    let a := di_addr d in
    la ← text_re (n_local_addr (xt_node x));
    let src := parse_path_re (la ++ suffix) in
    let a := mkAddr _sport src (a_dst_path a) (a_nxt a) (Some LAST_NODE_DEFAULT) (Some (u8 (hlim_get x _sport)))
      (a_isConnected a) (a_isAcceptSocket a) true true (a_sock_type a) (a_sdag a) (a_ddag a) in
    source_xid ← destination_xid src;
    x ← addRoute (set_XIDtoPort x source_xid _sport) source_xid;
    Ok (x, with_addr d a).

(** The source path is parsed again, as a text without its type, which [parse]
    refuses: the path stays as it is. *)
Definition renew_source (x : XTRANSPORT) (d : DAGinfo) : res DAGinfo :=
  let src := a_src_path (di_addr d) in
  s ← text_re src;
  if decide (s ≠ []) then
    source_xid ← destination_xid src;
    l ← local_path x source_xid;
    Ok (set_src_path d (parse_path src l).1)
  else Ok d.

(** The steps that the calls without a connection have in common. *)
Definition source_for (x : XTRANSPORT) (_sport : Z) (suffix : str) : res (XTRANSPORT * DAGinfo) :=
  xd ← ephemeral x _sport (default DAGinfo_new (portToDAGinfo x !! _sport)) suffix;
  d ← complete_source xd.1 xd.2;
  d ← renew_source xd.1 d;
  Ok (set_info xd.1 _sport d, d).

Definition Xsendto (x : XTRANSPORT) (_sport : Z) (ddag : str) (data : list Z) (rnd : Z) : res (XTRANSPORT * list output) :=
  let dst := (parse_path XIAPath_reset (c_chars ddag)).1 in
  xd ← source_for x _sport (space ++ random_xid (lit "SID") rnd);
  let '(x, d) := xd in
  let src := a_src_path (di_addr d) in
  type ← init (a_sock_type (di_addr d));
  p ← (if decide (type = XSOCKET_RAW) then
         e ← new_header (default 0 (nxt_xport (xt_tables x) !! _sport)) LAST_NODE_DEFAULT (hlim_get x _sport) dst src
               (Z.of_nat (length data));
         Ok (encap e data false)
       else transport_packet (MakeDGRAMHeader entries fresh 0) (hlim_get x _sport) dst src data);
  Ok (x, [ToNetwork p]).

(** *** Chunks *)

(** One request. *)
Definition request_chunk (_sport : Z) (data : list Z) (now rnd : Z) (s : XTRANSPORT * list output) (dest : str)
    : res (XTRANSPORT * list output) :=
  let dst := (parse_path XIAPath_reset (c_chars dest)).1 in
  xd ← source_for s.1 _sport (space ++ random_xid (lit "SID") rnd);
  let '(x, d) := xd in
  e ← new_header CLICK_XIA_NXT_CID LAST_NODE_DEFAULT (hlim_get x _sport) dst (a_src_path (di_addr d)) (Z.of_nat (length data));
  let p := encap e (ext_encap (MakeRequestHeader entries fresh) data) true in
  source_sid ← destination_xid (a_src_path (di_addr d));
  destination_cid ← destination_xid dst;
  let x := set_XIDpairToPort x (source_sid, destination_cid) _sport in
  dp ← copy_cid_req_packet x p d;
  let c := di_chunks dp.1 in
  let expiry := now + make_msec ACK_DELAY in
  let c := mkChunks (<[destination_cid := dp.2]> (XIDtoCIDreqPkt c)) (<[destination_cid := expiry]> (XIDtoExpiryTime c))
    (<[destination_cid := true]> (XIDtoTimerOn c)) (<[destination_cid := WAITING_FOR_CHUNK]> (XIDtoStatus c))
    (<[destination_cid := false]> (XIDtoReadReq c)) (XIDtoCIDresponsePkt c) in
  let x := set_info (reschedule x expiry) _sport (with_chunks dp.1 c) in
  Ok (x, s.2 ++ [ToNetwork p]).

Definition XrequestChunk (x : XTRANSPORT) (_sport : Z) (dags : list str) (data : list Z) (now rnd : Z)
    : res (XTRANSPORT * list output) :=
  foldM (request_chunk _sport data now rnd) (x, []) dags.

(** The status of one chunk; a status with no text adds none. *)
Definition chunk_status (x : XTRANSPORT) (_sport : Z) (acc : list str) (dest : str) : res (list str) :=
  let dst := (parse_path XIAPath_reset (c_chars dest)).1 in
  destination_cid ← destination_xid dst;
  d ← info_at x _sport;
  Ok (match XIDtoStatus (di_chunks d) !! destination_cid with
      | Some status =>
          if decide (status = WAITING_FOR_CHUNK) then acc ++ [lit "WAITING"]
          else if decide (status = READY_TO_READ) then acc ++ [lit "READY"]
          else if decide (status = INVALID_HASH) then acc ++ [lit "INVALID_HASH"]
          else if decide (status = REQUEST_FAILED) then acc ++ [lit "FAILED"]
          else acc
      | None => acc ++ [lit "FAILED"]
      end).

Definition XgetChunkStatus (x : XTRANSPORT) (_sport : Z) (dags : list str) : res (XTRANSPORT * list output) :=
  status ← foldM (chunk_status x _sport) [] dags;
  Ok (x, [ToApi _sport (R_XGETCHUNKSTATUS dags status)]).

Definition set_read_req (d : DAGinfo) (cid : Xid) (b : bool) : DAGinfo :=
  let c := di_chunks d in
  with_chunks d (mkChunks (XIDtoCIDreqPkt c) (XIDtoExpiryTime c) (XIDtoTimerOn c) (XIDtoStatus c)
    (<[cid := b]> (XIDtoReadReq c)) (XIDtoCIDresponsePkt c)).

(** A chunk that is there is given to the application once. *)
Definition XreadChunk (x : XTRANSPORT) (_sport : Z) (dag : str) : res (XTRANSPORT * list output) :=
  let dst := (parse_path XIAPath_reset (c_chars dag)).1 in
  destination_cid ← destination_xid dst;
  d ← info_at x _sport;
  let d := set_read_req d destination_cid true in
  match XIDtoStatus (di_chunks d) !! destination_cid with
  | Some status =>
      if decide (status ≠ READY_TO_READ ∧ status ≠ INVALID_HASH) then Ok (set_info x _sport d, [])
      else
        let d := set_read_req d destination_cid false in
        match XIDtoCIDresponsePkt (di_chunks d) !! destination_cid with
        | None => Ub NullDeref
        | Some pkt =>
            dp ← copy_cid_response_packet x pkt d;
            let '(d, copy) := dp in
            src ← src_path copy;
            s ← text_of src;
            o ← payload copy; plen ← hdr_plen copy;
            data ← bytes_at copy o plen;
            let c := di_chunks d in
            let c := mkChunks (XIDtoCIDreqPkt c) (XIDtoExpiryTime c) (XIDtoTimerOn c) (XIDtoStatus c) (XIDtoReadReq c)
              (delete destination_cid (XIDtoCIDresponsePkt c)) in
            Ok (set_info x _sport (with_chunks d c), [ToApi _sport (R_XREADCHUNK s data)])
        end
  | None => Ok (set_info x _sport d, [])
  end.

(** The address of a chunk at this host. *)
Definition chunk_path (local : str) (cid : str) : XIAPath :=
  (parse_path XIAPath_reset (lit "RE " ++ local ++ lit " CID:" ++ cid)).1.

Definition XremoveChunk (x : XTRANSPORT) (_sport contextID : Z) (cid : str) : res (XTRANSPORT * list output) :=
  la ← text_re (n_local_addr (xt_node x));
  e ← new_header CLICK_XIA_NXT_CID LAST_NODE_DEFAULT HLIM_DEFAULT (n_local_addr (xt_node x)) (chunk_path la cid) 0;
  let ch := ContentHeaderEncap_full entries fresh 0 0 0 0 OP_LOCAL_REMOVECID contextID 86400 1024 0 in
  Ok (x, [ToCache (encap e (ext_encap ch []) true); ToApi _sport (R_XREMOVECHUNK contextID (c_chars cid) 0)]).

Definition hash_text (data : list Z) : str := SHA1 data ≫= print_02x.

Definition XputChunk (x : XTRANSPORT) (_sport contextID ttl cacheSize cachePolicy : Z) (data : list Z) (now_sec : Z)
    : res (XTRANSPORT * list output) :=
  let src := hash_text data in
  la ← text_re (n_local_addr (xt_node x));
  e ← new_header CLICK_XIA_NXT_CID LAST_NODE_DEFAULT (hlim_get x _sport) (n_local_addr (xt_node x)) (chunk_path la src) 0;
  let n := Z.of_nat (length data) in
  let ch := ContentHeaderEncap_full entries fresh 0 0 n n OP_LOCAL_PUTCID contextID ttl cacheSize cachePolicy in
  Ok (x, [ToCache (encap e (ext_encap ch data) true); ToApi _sport (R_XPUTCHUNK contextID src ttl now_sec data)]).

(** The time to live is passed in the place of the context. *)
Definition XpushChunkto (x : XTRANSPORT) (_sport : Z) (ddag : str) (ttl : Z) (data : list Z) (cid : str)
    : res (XTRANSPORT * list output) :=
  let dst := (parse_path XIAPath_reset (c_chars ddag)).1 in
  xd ← source_for x _sport [];
  let '(x, d) := xd in
  sp ← text_re (a_src_path (di_addr d));
  let cid_src := chunk_path sp cid in
  let n := Z.of_nat (length data) in
  e ← new_header CLICK_XIA_NXT_CID LAST_NODE_DEFAULT (hlim_get x _sport) dst cid_src n;
  let ch := ContentHeaderEncap_full entries fresh 0 0 n n OP_PUSH ttl 86400 1024 0 in
  source_cid ← destination_xid cid_src;
  destination_sid ← destination_xid dst;
  let x := set_XIDpairToPort x (source_cid, destination_sid) _sport in
  Ok (set_info x _sport d, [ToNetwork (encap e (ext_encap ch data) true)]).

(** *** Calls from the applications *)

Definition ProcessAPIPacket (x : XTRANSPORT) (_sport : Z) (m : api_msg) (now rnd : Z) : res (XTRANSPORT * list output) :=
  match m with
  | M_XSOCKET type => Ok (Xsocket x _sport type)
  | M_XSETSOCKOPT o v => Ok (Xsetsockopt x _sport o v)
  | M_XGETSOCKOPT o v => Ok (Xgetsockopt x _sport o v)
  | M_XBIND sdag => Xbind x _sport sdag
  | M_XCLOSE => Xclose x _sport now
  | M_XCONNECT ddag => Xconnect x _sport ddag now rnd
  | M_XACCEPT => Xaccept x _sport
  | M_XCHANGEAD ad ip4id => Xchangead x ad ip4id
  | M_XREADLOCALHOSTADDR => Xreadlocalhostaddr x _sport
  | M_XREADXCACHESID => XreadXcacheSid x _sport
  | M_XUPDATENAMESERVERDAG dag => Ok (Xupdatenameserverdag x dag)
  | M_XREADNAMESERVERDAG => Xreadnameserverdag x _sport
  | M_XISDUALSTACKROUTER => Ok (Xisdualstackrouter x _sport)
  | M_XSEND data => Xsend x _sport data now
  | M_XSENDTO ddag data => Xsendto x _sport ddag data rnd
  | M_XREQUESTCHUNK dags data => XrequestChunk x _sport dags data now rnd
  | M_XGETCHUNKSTATUS dags => XgetChunkStatus x _sport dags
  | M_XREADCHUNK dag => XreadChunk x _sport dag
  | M_XREMOVECHUNK ctx cid => XremoveChunk x _sport ctx cid
  | M_XPUTCHUNK ctx ttl size policy data => XputChunk x _sport ctx ttl size policy data (now / 1000000)
  | M_XGETPEERNAME => Xgetpeername x _sport
  | M_XGETSOCKNAME => Xgetsockname x _sport
  | M_XPUSHCHUNKTO ddag _ ttl _ _ data cid => XpushChunkto x _sport ddag ttl data cid
  | M_XBINDPUSH sdag => XbindPush x _sport sdag
  | M_OTHER => Ok (x, [])
  end.

(** *** Packets from the network *)

(** What every branch reads of a packet: the paths, the XID of the last visited
    node, the XID the source path ends in, the transport header. *)
Record incoming := mkIn {
  in_b : list Z;
  in_dst_path : XIAPath;
  in_src_path : XIAPath;
  in_dst : Xid;
  in_src : Xid;
  in_th : XIAGenericExtHeader }.

Definition read_incoming (b : list Z) : res incoming :=
  dst ← dst_path b;
  last ← hdr_last b;
  dx ← node_xid b last;
  src ← src_path b;
  sx ← destination_xid src;
  th ← XIAGenericExtHeader_of b;
  Ok (mkIn b dst src dx sx th).

(** An error message goes to the sockets that listen for them; the packet is
    gone after the first one. *)
Definition process_xcmp (x : XTRANSPORT) (i : incoming) : res (XTRANSPORT * list output) :=
  s ← text_of (in_src_path i);
  size ← hdr_size (in_b i); hd ← bytes_at (in_b i) 0 size;
  o ← payload (in_b i); plen ← hdr_plen (in_b i); pl ← bytes_at (in_b i) o plen;
  match xcmp_listeners x with
  | [] => Ok (x, [])
  | [port] => Ok (x, [ToApi port (R_XRECV s (hd ++ pl))])
  | _ => Ub NullDeref
  end.

(** The branches for the packets of a stream return the port, whether the packet
    goes up to the application, and what was sent. *)

(** A request is queued for every packet that arrives, and granted. *)
Definition process_syn (x : XTRANSPORT) (i : incoming) : res (XTRANSPORT * list output) :=
  let d := DAGinfo_new in
  let a := mkAddr (u16 (-1)) (in_dst_path i) (in_src_path i) (Some LAST_NODE_DEFAULT) (Some LAST_NODE_DEFAULT)
    (Some HLIM_DEFAULT) true None true false (Some 0) [] [] in
  let w := mkWin None None (Some 0) (Some 0) None None None in
  let x := with_pending x (pending_connection_buf x ++ [mkInfo a w (di_wait d) (di_chunks d)]) in
  let x := set_ConnectPending x (in_dst i, in_src i) true in
  p ← transport_packet (MakeSYNACKHeader entries fresh 0 0 0) HLIM_DEFAULT (in_src_path i) (in_dst_path i) connection_granted;
  Ok (x, [ToNetwork p]).

Definition process_synack (x : XTRANSPORT) (i : incoming) (_dport : Z) : res (XTRANSPORT * bool) :=
  d ← info_at x _dport;
  let t := di_wait d in
  let up := t_synack_waiting t in
  let t := mkWaits false (t_expiry t) false (t_dataack_waiting t) (t_teardown_waiting t) (t_teardown_expiry t)
    (t_num_connect_tries t) (t_syn_pkt t) in
  Ok (set_info x _dport (with_wait d t), up).

(** Only the packet with the expected number is taken; every packet is
    acknowledged with the number expected next. *)
Definition process_data (x : XTRANSPORT) (i : incoming) (_dport : Z) : res (XTRANSPORT * bool * list output) :=
  match portToActive (xt_tables x) !! _dport with
  | None => Ok (x, false, [])
  | Some _ =>
      d ← info_at x _dport;
      seq ← th_seq_num (in_th i);
      let w := di_win d in
      expected ← init (w_expected_seqnum w);
      let up := bool_decide (seq = expected) in
      let expected := if decide (seq = expected) then u32 (expected + 1) else expected in
      let w := mkWin (w_num_retransmit_tries w) (w_sent_pkt w) (w_seq_num w) (w_ack_num w) (w_base w) (w_next_seqnum w)
        (Some expected) in
      let d := set_dst_path (with_win d w) (in_src_path i) in
      p ← transport_packet (MakeACKHeader entries fresh 0 expected 0) HLIM_DEFAULT (in_src_path i) (in_dst_path i) cumulative_ACK;
      Ok (set_info x _dport d, up, [ToNetwork p])
  end.

(** The slots of the numbers from [base] up to [expected] are emptied. *)
Definition clear_slot (sent : list (option (list Z))) (i : Z) : res (list (option (list Z))) :=
  let idx := Z.rem i MAX_WIN_SIZE in
  _ ← vgetz sent idx; Ok (<[Z.to_nat idx := None]> sent).

Definition process_ack (x : XTRANSPORT) (i : incoming) (_dport now : Z) : res XTRANSPORT :=
  match portToActive (xt_tables x) !! _dport with
  | None => Ok x
  | Some _ =>
      d ← info_at x _dport;
      let d := set_dst_path d (in_src_path i) in
      ack ← th_ack_num (in_th i);
      let w := di_win d in
      base ← init (w_base w);
      sent ← init (w_sent_pkt w);
      let first := i32 base in
      let expected := i32 ack in
      sent ← foldM clear_slot sent (seqZ first (expected - first));
      let base := u32 expected in
      next ← init (w_next_seqnum w);
      let reset := bool_decide (first < expected) in
      let finished := bool_decide (base = next) in
      let t := di_wait d in
      let expiry := now + make_msec ACK_DELAY in
      let x := if reset then reschedule x expiry else x in
      let t := if reset then
          mkWaits (negb finished) expiry (t_synack_waiting t) (negb finished) (t_teardown_waiting t) (t_teardown_expiry t)
            (t_num_connect_tries t) (t_syn_pkt t)
        else t in
      let tries := if reset && finished then Some 0 else w_num_retransmit_tries w in
      let w := mkWin tries (Some sent) (w_seq_num w) (w_ack_num w) (Some base) (w_next_seqnum w) (w_expected_seqnum w) in
      Ok (set_info x _dport (with_wait (with_win d w) t))
  end.

(** What is left of a packet for the application. *)
Definition deliver_up (x : XTRANSPORT) (i : incoming) (_dport : Z) : res (XTRANSPORT * list output) :=
  let d := default DAGinfo_new (portToDAGinfo x !! _dport) in
  nxt ← hdr_nxt (in_b i);
  let '(x, d) := if a_initialized (di_addr d) then (x, d)
    else let d := set_initialized (set_dst_path d (in_src_path i)) true in (set_info x _dport d, d) in
  if decide (nxt = 22 ∧ a_isConnected (di_addr d) = true) then
    Ok (set_info x _dport (set_dst_path d (in_src_path i)), [])
  else
    s ← text_of (in_src_path i);
    plen ← hdr_plen (in_b i);
    data ← String_at (in_b i) (ext_payload (in_th i)) (plen - ext_hlen (in_th i));
    Ok (x, [ToApi _dport (R_XRECV s data)]).

Definition finish (x : XTRANSPORT) (i : incoming) (_dport : Z) (up : bool) (out : list output)
    : res (XTRANSPORT * list output) :=
  if decide (_dport ≠ 0 ∧ up = true) then r ← deliver_up x i _dport; Ok (r.1, out ++ r.2)
  else if decide (_dport = 0) then _ ← xid_unparse (in_dst i); Ok (x, out)
  else Ok (x, out).

Definition ProcessNetworkPacket (x : XTRANSPORT) (b : list Z) (now : Z) : res (XTRANSPORT * list output) :=
  i ← read_incoming b;
  nxt ← hdr_nxt b;
  let _dport := port_of x (in_dst i) in
  if decide (nxt = CLICK_XIA_NXT_XCMP) then process_xcmp x i
  else
    type ← th_type (in_th i);
    if decide (type = XSOCK_STREAM) then
      info ← th_pkt_info (in_th i);
      let pair_dport := pair_port x (in_dst i, in_src i) in
      if decide (info = SYN) then
        r ← process_syn x i; finish r.1 i _dport true r.2
      else if decide (info = SYNACK) then
        r ← process_synack x i pair_dport; finish r.1 i pair_dport r.2 []
      else if decide (info = DATA) then
        r ← process_data x i pair_dport; finish r.1.1 i pair_dport r.1.2 r.2
      else if decide (info = ACK) then
        x ← process_ack x i pair_dport now; finish x i pair_dport false []
      else finish x i _dport true []
    else if decide (type = XSOCK_DGRAM) then
      d ← info_at x _dport;
      st ← init (a_sock_type (di_addr d));
      finish x i _dport (bool_decide (st = XSOCKET_DGRAM)) []
    else finish x i _dport true [].

(** *** Packets from the cache *)

Definition cid_text (data : list Z) : str := lit "CID:" ++ hash_text data.

(** A chunk that was pushed to this host; a wrong hash is only reported. *)
Definition process_push (x : XTRANSPORT) (b : list Z) (dst src : XIAPath) (destination_sid source_cid : Xid)
    (ch : XIAGenericExtHeader) : res (XTRANSPORT * list output) :=
  o ← payload b; plen ← hdr_plen b; data ← bytes_at b o plen;
  cid ← xid_unparse source_cid;
  let _dport := default 0 (XIDtoPushPort (xt_tables x) !! destination_sid) in
  if decide (_dport = 0) then Ok (x, [])
  else
    d ← info_at x _dport;
    _ ← init (a_sock_type (di_addr d));
    _ ← text_of src;
    policy ← ch_cachePolicy ch; ttl ← ch_ttl ch; size ← ch_cacheSize ch; ctx ← ch_contextID ch; len ← ch_length ch;
    ddag ← text_of dst;
    Ok (x, [ToApi _dport (R_XPUSHCHUNKTO cid data policy ttl size ctx len ddag)]).

(** The answer to a request: its timer is removed, its status is the result of
    the comparison of the hash with the CID, and it is given to the application
    or kept. *)
Definition process_response (x : XTRANSPORT) (b : list Z) (src : XIAPath) (source_cid : Xid) (_dport : Z)
    : res (XTRANSPORT * list output) :=
  d ← info_at x _dport;
  o ← payload b; plen ← hdr_plen b; data ← bytes_at b o plen;
  cid ← xid_unparse source_cid;
  let status := if decide (cid_text data = cid) then READY_TO_READ else INVALID_HASH in
  let c := di_chunks d in
  let c := mkChunks (delete source_cid (XIDtoCIDreqPkt c)) (delete source_cid (XIDtoExpiryTime c))
    (delete source_cid (XIDtoTimerOn c)) (<[source_cid := status]> (XIDtoStatus c)) (XIDtoReadReq c) (XIDtoCIDresponsePkt c) in
  let d := with_chunks d c in
  if decide (XIDtoReadReq c !! source_cid = Some true) then
    s ← text_of src;
    let c := mkChunks (XIDtoCIDreqPkt c) (XIDtoExpiryTime c) (XIDtoTimerOn c) (XIDtoStatus c)
      (delete source_cid (XIDtoReadReq c)) (XIDtoCIDresponsePkt c) in
    Ok (set_info x _dport (with_chunks d c), [ToApi _dport (R_XREADCHUNK s data)])
  else
    dp ← copy_cid_response_packet x b d;
    let c := di_chunks dp.1 in
    let c := mkChunks (XIDtoCIDreqPkt c) (XIDtoExpiryTime c) (XIDtoTimerOn c) (XIDtoStatus c) (XIDtoReadReq c)
      (<[source_cid := dp.2]> (XIDtoCIDresponsePkt c)) in
    Ok (set_info x _dport (with_chunks dp.1 c), []).

Definition ProcessCachePacket (x : XTRANSPORT) (b : list Z) : res (XTRANSPORT * list output) :=
  dst ← dst_path b; src ← src_path b;
  destination_sid ← destination_xid dst; source_cid ← destination_xid src;
  ch ← XIAGenericExtHeader_of b;
  opcode ← ch_opcode ch;
  if decide (opcode = OP_PUSH) then process_push x b dst src destination_sid source_cid ch
  else
    let _dport := pair_port x (destination_sid, source_cid) in
    _ ← xid_unparse destination_sid; _ ← xid_unparse source_cid;
    if decide (_dport ≠ 0) then process_response x b src source_cid _dport else Ok (x, []).

(** *** The input ports *)

(** Packets by the port they come in at: a message of an application on its
    port, packets from the network, from the cache and from XHCP. *)
Inductive input :=
  | FromApi (_sport : Z) (m : api_msg)
  | FromBad
  | FromNetwork (b : list Z)
  | FromCache (b : list Z)
  | FromXhcp (b : list Z).

Definition transport_push (x : XTRANSPORT) (i : input) (now rnd : Z) : res (XTRANSPORT * list output) :=
  match i with
  | FromApi _sport m => ProcessAPIPacket x _sport m now rnd
  | FromBad => Ok (x, [])
  | FromNetwork b => ProcessNetworkPacket x b now
  | FromCache b => ProcessCachePacket x b
  | FromXhcp b => x ← ProcessXhcpPacket x b; Ok (x, [])
  end.

(** *** The timer *)

(** One retransmission: the socket follows a move, the copy is sent. *)
Definition resend (x : XTRANSPORT) (sent : list (option (list Z))) (s : DAGinfo * list output) (i : Z)
    : res (DAGinfo * list output) :=
  o ← vgetz sent (i mod MAX_WIN_SIZE);
  match o with
  | None => Ok s
  | Some p => dp ← copy_packet x p s.1; Ok (dp.1, s.2 ++ [ToNetwork dp.2])
  end.

Definition syn_timeout (x : XTRANSPORT) (d : DAGinfo) (now : Z) : res (DAGinfo * list output) :=
  let t := di_wait d in
  tries ← init (t_num_connect_tries t);
  if decide (tries ≤ MAX_CONNECT_TRIES) then
    p ← init (t_syn_pkt t);
    dp ← copy_packet x p d;
    let t := mkWaits true (now + make_msec ACK_DELAY) true (t_dataack_waiting t) (t_teardown_waiting t)
      (t_teardown_expiry t) (Some (tries + 1)) (t_syn_pkt t) in
    Ok (with_wait dp.1 t, [ToNetwork dp.2])
  else
    (* the message to the application is sent in debugging mode only *)
    Ok (with_wait d (mkWaits false (t_expiry t) false (t_dataack_waiting t) (t_teardown_waiting t)
          (t_teardown_expiry t) (t_num_connect_tries t) (t_syn_pkt t)), []).

Definition data_timeout (x : XTRANSPORT) (d : DAGinfo) (now : Z) : res (DAGinfo * list output) :=
  let w := di_win d in
  tries ← init (w_num_retransmit_tries w);
  r ← (if decide (tries < MAX_RETRANSMIT_TRIES) then
         base ← init (w_base w); next ← init (w_next_seqnum w); sent ← init (w_sent_pkt w);
         foldM (resend x sent) (d, []) (seqZ base (next - base))
       else Ok (d, []));
  let '(d, out) := r in
  let retransmit_sent := bool_decide (out ≠ []) in
  let t := di_wait d in
  let w := di_win d in
  let t := mkWaits retransmit_sent (if retransmit_sent then now + make_msec ACK_DELAY else t_expiry t)
    (t_synack_waiting t) retransmit_sent (t_teardown_waiting t) (t_teardown_expiry t) (t_num_connect_tries t) (t_syn_pkt t) in
  let w := mkWin (Some (if retransmit_sent then tries + 1 else 0)) (w_sent_pkt w) (w_seq_num w) (w_ack_num w) (w_base w)
    (w_next_seqnum w) (w_expected_seqnum w) in
  Ok (with_wait (with_win d w) t, out).

(** A requested chunk: the request is sent again when its time is over. *)
Definition cid_timeout (x : XTRANSPORT) (now : Z) (cid_now : Xid → Z) (s : DAGinfo * Z * list output) (cid : Xid)
    : res (DAGinfo * Z * list output) :=
  let '(d, earliest, out) := s in
  let c := di_chunks d in
  match XIDtoTimerOn c !! cid, XIDtoExpiryTime c !! cid with
  | Some timer_on, Some expiry =>
      r ← (if decide (timer_on = true ∧ expiry ≤ now) then
             match XIDtoCIDreqPkt c !! cid with
             | None => Ub NullDeref
             | Some p =>
                 dp ← copy_cid_req_packet x p d;
                 let c := di_chunks dp.1 in
                 let expiry := cid_now cid + make_msec ACK_DELAY in
                 let c := mkChunks (XIDtoCIDreqPkt c) (<[cid := expiry]> (XIDtoExpiryTime c))
                   (<[cid := true]> (XIDtoTimerOn c)) (XIDtoStatus c) (XIDtoReadReq c) (XIDtoCIDresponsePkt c) in
                 Ok (with_chunks dp.1 c, expiry, [ToNetwork dp.2])
             end
           else Ok (d, expiry, []));
      let '(d, expiry, sent) := r in
      Ok (d, if decide (timer_on = true ∧ now < expiry ∧ (expiry < earliest ∨ earliest = now)) then expiry else earliest,
          out ++ sent)
  | _, _ => Ub NullDeref
  end.

Definition earlier (now earliest expiry : Z) (on : bool) : Z :=
  if decide (on = true ∧ now < expiry ∧ (expiry < earliest ∨ earliest = now)) then expiry else earliest.

(** One socket.  A socket whose closing time has come is erased while the loop
    still uses it. *)
Definition socket_timeout (now : Z) (cid_now : Xid → Z) (s : XTRANSPORT * Z * list output) (_sport : Z)
    : res (XTRANSPORT * Z * list output) :=
  let '(x, earliest, out) := s in
  d ← info_at x _sport;
  let t := di_wait d in
  r ← (if t_timer_on t then
         if decide (t_synack_waiting t = true ∧ t_expiry t ≤ now) then syn_timeout x d now
         else if decide (t_dataack_waiting t = true ∧ t_expiry t ≤ now) then data_timeout x d now
         else if decide (t_teardown_waiting t = true ∧ t_teardown_expiry t ≤ now) then Ub NullDeref
         else Ok (d, [])
       else Ok (d, []));
  let '(d, sent) := r in
  let t := di_wait d in
  let earliest := earlier now earliest (t_expiry t) (t_timer_on t) in
  let earliest := earlier now earliest (t_teardown_expiry t) (t_timer_on t) in
  r ← foldM (cid_timeout x now cid_now) (d, earliest, []) (cid_order (XIDtoTimerOn (di_chunks d)));
  let '(d, earliest, resent) := r in
  Ok (set_info x _sport d, earliest, out ++ sent ++ resent).

(** The timer is not scheduled while it runs. *)
Definition run_timer (x : XTRANSPORT) (now : Z) (cid_now : Xid → Z) : res (XTRANSPORT * list output) :=
  let x := with_timer x None in
  r ← foldM (socket_timeout now cid_now) (x, now, []) (port_order (portToDAGinfo x));
  let '(x, earliest, out) := r in
  Ok (if decide (now < earliest) then with_timer x (Some earliest) else x, out).
End element.
