(* ===== verification/TransportWire.v ===== *)
(** * TransportWire: the packets of the transport element

    What the element writes into a packet is read from the packet, after any
    routing: the paths up to renumbering, the fields of the transport header and
    the data. *)

From Stdlib Require Import ZArith Lia Ascii String.
From stdpp Require Import base gmap sets list.
From S2P Require Import Prelude Text ConfParse XiaPath XiaPathOrder XiaPathCodec XidText XiaPathText XiaHeader PathCopies ExtHeader RouteTable Elements HeaderView PacketRouteSpec XTransport.

Local Open Scope Z_scope.

(** ** Reading a packet *)

(** The packet has the parsed paths [dst] and [src] in its header, and [data]
    behind it. *)
Record reads (b : list Z) (nxt : Z) (dst src : XIAPath) (data : list Z) : Prop := {
  rd_nxt : hdr_nxt b = Ok nxt;
  rd_plen : hdr_plen b = Ok (Z.of_nat (length data));
  rd_dst : dst_path b = Ok dst;
  rd_src : src_path b = Ok src;
  rd_parts : ∃ pre d s, b = pre ++ data ∧ hdr_dnode b = Ok d ∧ hdr_snode b = Ok s ∧ 1 ≤ d ∧ 1 ≤ s ∧ d + s < 256 ∧
    Z.of_nat (length pre) = node_off (d + s) }.

Lemma reads_size b nxt dst src data : reads b nxt dst src data →
  ∃ pre, b = pre ++ data ∧ hdr_size b = Ok (Z.of_nat (length pre)) ∧ (8 ≤ length pre)%nat.
Proof.
  intros [_ _ _ _ (pre & d & s & Hb & Hd & Hs & ? & ? & ? & Hl)]. exists pre. split; [done|].
  unfold hdr_size. rewrite Hd, Hs. cbn [mbind res_bind]. unfold hdr_size_of, u8. rewrite wrapU_small by lia. rewrite Hl.
  unfold node_off, HDR_LEN, NODE_LEN in *. split; [done|lia].
Qed.

Lemma reads_fields b nxt dst src data : reads b nxt dst src data → is_ok (hdr_last b) ∧ is_ok (hdr_hlim b).
Proof.
  intros H. destruct (reads_size _ _ _ _ _ H) as (pre & -> & _ & Hl). unfold hdr_last, hdr_hlim.
  destruct (vgetz_in (pre ++ data) 7) as (x & _ & ->); [rewrite length_app; lia|].
  destruct (vgetz_in (pre ++ data) 4) as (y & _ & ->); [rewrite length_app; lia|]. split; by eexists.
Qed.

(** ** Writing a packet *)

Definition hdr8 (nxt last hlim plen d s : Z) : list Z := [1; u8 nxt; u8 (plen / 256); u8 plen; u8 hlim; u8 d; u8 s; u8 last].

Section writing.
Context (fresh_nodes : Z → list xid_node) (Hnodes : ∀ n, 0 ≤ n → Z.of_nat (length (fresh_nodes n)) = n).

Lemma new_header_ok nxt last hlim dst src plen : path_fits dst → path_fits src →
  ∃ e dws sws, new_header fresh_nodes nxt last hlim dst src plen = Ok e ∧
    en_hdr e = hdr8 nxt last hlim plen (Z.of_nat (length dws)) (Z.of_nat (length sws)) ++ ((dws ++ sws) ≫= node_bytes) ∧
    Forall node_ok dws ∧ Forall node_ok sws ∧ (0 < length dws ≤ 127)%nat ∧ (0 < length sws ≤ 127)%nat ∧
    (∃ p', same_path dst p' (parse_node dws)) ∧ (∃ p', same_path src p' (parse_node sws)).
Proof using Hnodes.
  intros Hd Hs. unfold new_header.
  set (e0 := encap_set_hlim (encap_set_last (encap_set_nxt XIAHeaderEncap_new nxt) last) hlim).
  pose proof (size_range _ Hd). pose proof (size_range _ Hs).
  change (unparse_node_size (en_src e0)) with 0. rewrite Z.add_0_r.
  destruct (header_dst_written e0 (fresh_nodes (u8 (unparse_node_size dst))) dst eq_refl Hd)
    as (e1 & ws1 & -> & [Hh1 _ _ _ _] & Hs1 & Hg & Hps & Hpd); [apply Hnodes, wrapU_range; lia|].
  cbn [mbind res_bind]. pose proof (path_fits_same _ _ Hg Hps Hpd Hd) as Hd1.
  set (e1' := mkEncap (en_hdr e1) (en_dst e1) src).
  destruct (header_written e1' (fresh_nodes (u8 (unparse_node_size (en_dst e1) + unparse_node_size src))) Hd1 Hs)
    as (e2 & dws & sws & Hrun & [Hh2 H1 H2 H3 H4] & Hdp & Hsp); [apply Hnodes, wrapU_range; lia|].
  unfold encap_set_src_path. fold e1'. rewrite Hrun. cbn [mbind res_bind]. exists (encap_set_plen e2 plen), dws, sws.
  assert (∀ p p' ws, path_fits p → same_path p p' (parse_node ws) → (0 < length ws)%nat) as Hpos.
  { intros p p' [|w ws] Hp Hsp'; [|simpl; lia]. pose proof (sp_len _ _ _ Hsp') as Hlen. cbn in Hlen.
    pose proof (pv_src p (pf_valid p Hp)). pose proof (pf_src p Hp). lia. }
  split; [done|]. split; [|split_and!; try done; [by eapply Hpos|by eapply (Hpos src)|..]].
  - unfold encap_set_plen. cbn [en_hdr]. rewrite Hh2. unfold e1'. cbn [en_hdr]. rewrite Hh1. done.
  - exists (en_dst e2). by eapply same_path_transfer.
  - by exists (en_src e2).
Qed.

Lemma header_reads nxt last hlim dws sws data : 0 ≤ nxt < 256 → Forall node_ok dws → Forall node_ok sws →
  (0 < length dws ≤ 127)%nat → (0 < length sws ≤ 127)%nat → Z.of_nat (length data) < 65536 →
  reads (hdr8 nxt last hlim (Z.of_nat (length data)) (Z.of_nat (length dws)) (Z.of_nat (length sws))
    ++ ((dws ++ sws) ≫= node_bytes) ++ data) nxt (parse_node dws) (parse_node sws) data.
Proof using.
  intros Hn Hd Hs Hdl Hsl Hdata. set (ws := dws ++ sws). assert (Forall node_ok ws) as Hws by (by apply Forall_app_2).
  set (d := Z.of_nat (length dws)). set (s := Z.of_nat (length sws)). set (plen := Z.of_nat (length data)).
  assert (length ws = length dws + length sws)%nat as Hwl by apply length_app.
  assert (u8 nxt = nxt ∧ u8 d = d ∧ u8 s = s) as (En & Ed & Es) by (unfold u8; rewrite !wrapU_small by lia; done).
  pose proof (nodes_at_decode (hdr8 nxt last hlim plen d s) ws data eq_refl Hws 0 (length dws) ltac:(lia)) as Hdec.
  pose proof (nodes_at_decode (hdr8 nxt last hlim plen d s) ws data eq_refl Hws (length dws) (length sws) ltac:(lia)) as Hsec.
  change (Z.of_nat 0) with 0 in Hdec. fold d in Hdec, Hsec. fold s in Hsec.
  set (b := hdr8 nxt last hlim plen d s ++ (ws ≫= node_bytes) ++ data) in *.
  assert (take (length dws) (drop 0 ws) = dws) as Et1 by (unfold ws; by rewrite drop_0, take_app_length).
  assert (take (length sws) (drop (length dws) ws) = sws) as Et2 by (unfold ws; by rewrite drop_app_length, take_ge).
  rewrite Et1 in Hdec. rewrite Et2 in Hsec.
  destruct (header_fields 1 (u8 nxt) (u8 (plen / 256)) (u8 plen) (u8 hlim) (u8 d) (u8 s) (u8 last) ((ws ≫= node_bytes) ++ data))
    as (H1 & H2 & _ & H4' & H5' & _).
  assert (hdr_dnode b = Ok d) as H4 by (etrans; [exact H4'|by rewrite Ed]).
  assert (hdr_snode b = Ok s) as H5 by (etrans; [exact H5'|by rewrite Es]). split.
  - etrans; [exact H1|by rewrite En].
  - etrans; [exact H2|]. f_equal. pose proof (Z.div_mod plen 256 ltac:(lia)).
    assert (0 ≤ plen / 256 < 256) by (split; [apply Z.div_pos; lia|apply Z.div_lt_upper_bound; lia]).
    unfold u8. rewrite (wrapU_small 8 (plen / 256)) by lia. unfold wrapU. change (2 ^ 8) with 256. lia.
  - unfold dst_path. rewrite H4. cbn [mbind res_bind]. by rewrite Hdec.
  - unfold src_path. rewrite H4, H5. cbn [mbind res_bind]. by rewrite Hsec.
  - exists (hdr8 nxt last hlim plen d s ++ (ws ≫= node_bytes)), d, s. split; [unfold b; by rewrite <-app_assoc|].
    split_and!; [exact H4|exact H5|lia..|]. rewrite length_app, length_nodes by done.
    unfold node_off, HDR_LEN, NODE_LEN. cbn [length hdr8]. lia.
Qed.

Lemma u8_byte z : is_byte (u8 z).
Proof using. by apply wrapU_range. Qed.

Lemma nodes_bytes ws : Forall node_ok ws → path_printable (parse_node ws) → Forall is_byte (ws ≫= node_bytes).
Proof using.
  intros Hok Hp. assert (Forall (λ w, Forall is_byte (xid_id (wn_xid w))) ws) as Hids.
  { apply Forall_lookup. intros k w Hk. pose proof (lookup_lt_Some _ _ _ Hk) as Hlt. destruct (decide (S k = length ws)) as [Hl|Hl].
    - destruct (parse_node_ends ws k w Hk Hl) as (Hn & _ & Hsrc & _). apply (Hp k _ Hn). rewrite Hsrc. lia.
    - apply (Hp k _ (parse_node_lookup ws k w Hk ltac:(lia))). destruct (lookup_lt_is_Some_2 ws (length ws - 1)) as [z Hz]; [lia|].
      destruct (parse_node_ends ws _ z Hz) as (_ & _ & -> & _); lia. }
  clear Hp. induction Hok as [|w ws (_ & _ & Hsl) Hok IH]; [constructor|]. inversion Hids as [|? ? Hid Hids']. subst. rewrite bind_cons.
  apply Forall_app_2; [|by apply IH]. unfold node_bytes, xid_bytes. repeat apply Forall_app_2; [apply le_bytes_are_bytes|done|].
  rewrite Forall_map. eapply Forall_impl; [exact Hsl|]. intros e [??]. unfold is_byte, byte_of_slot. lia.
Qed.

(** A header with its length set to that of the data. *)
Lemma encap_reads nxt last hlim dst src data : 0 ≤ nxt < 256 → path_fits dst → path_fits src → Z.of_nat (length data) < 65536 →
  ∃ e dq sq, new_header fresh_nodes nxt last hlim dst src (Z.of_nat (length data)) = Ok e ∧
    reads (encap e data false) nxt dq sq data ∧ (∃ p', same_path dst p' dq) ∧ (∃ p', same_path src p' sq) ∧
    hdr_last (encap e data false) = Ok (i8 (u8 last)) ∧
    (path_printable dq → path_printable sq → Forall is_byte data → Forall is_byte (encap e data false)).
Proof using Hnodes.
  intros Hn Hd Hs Hdata.
  destruct (new_header_ok nxt last hlim dst src (Z.of_nat (length data)) Hd Hs)
    as (e & dws & sws & Hrun & Hh & Hdo & Hso & Hdl & Hsl & Hdp & Hsp).
  exists e, (parse_node dws), (parse_node sws). split; [done|]. unfold encap. rewrite Hh, <-app_assoc.
  split; [by apply header_reads|]. split; [done|]. split; [done|]. split.
  - by apply header_fields.
  - intros Hdpr Hspr Hb. repeat apply Forall_app_2; [|rewrite bind_app; apply Forall_app_2; by apply nodes_bytes|done].
    unfold hdr8. repeat constructor; try apply u8_byte; unfold is_byte; lia.
Qed.
End writing.

(** ** Routing *)

(** A packet that was routed to a node with the XID [x]. *)
Definition arrives (b b' : list Z) (x : Xid) : Prop :=
  ∃ d s last, hdr_dnode b = Ok d ∧ hdr_snode b = Ok s ∧ same_dag b b' d s ∧ hdr_last b' = Ok last ∧ node_xid b' last = Ok x.

(** What a path is parsed from: visited bits are not. *)
Definition view (w : xid_node) : Xid * list Z := (wn_xid w, map e_idx (wn_edge w)).

Lemma parse_node_view ws ws' : map view ws = map view ws' → parse_node ws = parse_node ws'.
Proof.
  intros Hv. assert (map (λ w, mkPNode (wn_xid w) (read_edges w) npos) ws = map (λ w, mkPNode (wn_xid w) (read_edges w) npos) ws') as Hm.
  { revert ws' Hv. induction ws as [|w ws IH]; intros [|w' ws'] Hv; try done. injection Hv as Hx He Hv.
    cbn [map]. f_equal; [|by apply IH]. f_equal; [done|]. unfold read_edges.
    assert (∀ l l' : list xid_edge, map e_idx l = map e_idx l' → ∀ n,
      omap (λ e, if decide (e_idx e = CLICK_XIA_XID_EDGE_UNUSED) then None else Some (Z.to_nat (e_idx e))) (take n l) =
      omap (λ e, if decide (e_idx e = CLICK_XIA_XID_EDGE_UNUSED) then None else Some (Z.to_nat (e_idx e))) (take n l')) as Hl.
    { intros l. induction l as [|e l IHl]; intros [|e' l'] H n; try done. injection H as H1 H2. destruct n; [done|].
      cbn. rewrite H1. by rewrite (IHl l' H2). }
    by apply Hl. }
  unfold parse_node. rewrite Hm. assert (length ws = length ws') as -> by (rewrite <-(length_map view ws), Hv; by rewrite length_map). done.
Qed.

Lemma node_view b i : view <$> node_at b i =
  (x ← node_xid b i; j0 ← edge_idx b i 0; j1 ← edge_idx b i 1; j2 ← edge_idx b i 2; j3 ← edge_idx b i 3;
   Ok (x, [j0; j1; j2; j3])).
Proof.
  unfold node_at, edge_idx, CLICK_XIA_XID_EDGE_NUM. destruct (node_xid b i); [|done]. cbn [mbind res_bind seq foldM].
  change (Z.of_nat 0) with 0. change (Z.of_nat 1) with 1. change (Z.of_nat 2) with 2. change (Z.of_nat 3) with 3.
  destruct (edge_byte b i 0); [|done]. destruct (edge_byte b i 1); [|done]. destruct (edge_byte b i 2); [|done].
  by destruct (edge_byte b i 3).
Qed.

Lemma nodes_view b b' d s : same_dag b b' d s → ∀ count first, 0 ≤ first → first + Z.of_nat count ≤ d + s →
  map view <$> nodes_at b' first (Z.of_nat count) = map view <$> nodes_at b first (Z.of_nat count).
Proof.
  intros Hsd count. induction count as [|count IH]; intros first Hf Hc; [done|]. unfold nodes_at in *.
  rewrite seqZ_S, !foldM_app. specialize (IH first Hf ltac:(lia)).
  assert (view <$> node_at b' (first + Z.of_nat count) = view <$> node_at b (first + Z.of_nat count)) as Hn.
  { rewrite !node_view, (sd_xid _ _ _ _ Hsd) by lia. by rewrite !(sd_idx _ _ _ _ Hsd) by lia. }
  destruct (foldM (λ acc i, w ← node_at b' i; Ok (acc ++ [w])) [] (seqZ first (Z.of_nat count))) as [l'|u'],
    (foldM (λ acc i, w ← node_at b i; Ok (acc ++ [w])) [] (seqZ first (Z.of_nat count))) as [l|u];
    cbn [fmap res_fmap] in IH; [|done..|by injection IH as ->]. injection IH as IH. cbn [mbind res_bind foldM].
  destruct (node_at b' _) as [w'|u'], (node_at b _) as [w|u]; cbn [fmap res_fmap] in Hn; [|done..|by injection Hn as ->].
  injection Hn as Hn1 Hn2. cbn [mbind res_bind fmap res_fmap]. rewrite !map_app, IH. cbn [map]. unfold view. by rewrite Hn1, Hn2.
Qed.

Lemma vgetz_same {A} (b b' : list A) k : length b' = length b → b' !! Z.to_nat k = b !! Z.to_nat k → vgetz b' k = vgetz b k.
Proof. intros Hl Hk. unfold vgetz, vget. by rewrite Hl, Hk. Qed.

Lemma nodes_same b b' d s count first ws : same_dag b b' d s → 0 ≤ first → 0 ≤ count → first + count ≤ d + s →
  nodes_at b first count = Ok ws → ∃ ws', nodes_at b' first count = Ok ws' ∧ parse_node ws' = parse_node ws ∧
    length ws' = Z.to_nat count.
Proof.
  intros Hsd Hf Hc Hle Hws. pose proof (nodes_view b b' d s Hsd (Z.to_nat count) first Hf ltac:(lia)) as Hv.
  destruct (nodes_at_ok b' d s (sd_ok _ _ _ _ Hsd) first (Z.to_nat count) Hf ltac:(lia)) as (ws' & Hws' & Hl).
  rewrite Z2Nat.id in Hv, Hws' by done. rewrite Hws, Hws' in Hv. injection Hv as Hv. exists ws'.
  split; [done|]. split; [by apply parse_node_view|done].
Qed.

Lemma paths_same b b' d s dst src : same_dag b b' d s → hdr_dnode b = Ok d → hdr_snode b = Ok s →
  (dst_path b = Ok dst → dst_path b' = Ok dst) ∧ (src_path b = Ok src → src_path b' = Ok src).
Proof.
  intros Hsd Hd Hs. pose proof (sd_ok _ _ _ _ Hsd) as Hok. pose proof (ho_dpos _ _ _ Hok). pose proof (ho_spos _ _ _ Hok).
  unfold dst_path, src_path. rewrite Hd, Hs, (ho_dnode _ _ _ Hok), (ho_snode _ _ _ Hok). cbn [mbind res_bind].
  split; intros (ws & Hws & Hp)%bind_Ok; injection Hp as <-.
  - destruct (nodes_same b b' d s d 0 ws Hsd ltac:(lia) ltac:(lia) ltac:(lia) Hws) as (ws' & -> & Hpw & _).
    cbn [mbind res_bind]. by rewrite Hpw.
  - destruct (nodes_same b b' d s s d ws Hsd ltac:(lia) ltac:(lia) ltac:(lia) Hws) as (ws' & -> & Hpw & _).
    cbn [mbind res_bind]. by rewrite Hpw.
Qed.

Lemma arrives_reads b b' x nxt dst src data : reads b nxt dst src data → arrives b b' x →
  reads b' nxt dst src data ∧ ∃ last, hdr_last b' = Ok last ∧ node_xid b' last = Ok x.
Proof.
  intros Hrd (d' & s' & last & Hd' & Hs' & Hsd & Hlast & Hx).
  destruct Hrd as [Hn Hp Hdst Hsrc (pre & d & s & Hb & Hd & Hs & Hd1 & Hs1 & Hds & Hpre)].
  rewrite Hd in Hd'. injection Hd' as <-. rewrite Hs in Hs'. injection Hs' as <-.
  pose proof Hsd as [Hok Hlen _ _ Hkeep]. pose proof (ho_dnode _ _ _ Hok) as Hdb. pose proof (ho_snode _ _ _ Hok) as Hsb.
  destruct (paths_same b b' d s dst src Hsd Hd Hs) as [Hdst' Hsrc'].
  split; [split|].
  - etrans; [|exact Hn]. apply vgetz_same; [done|]. apply Hkeep. left. lia.
  - rewrite <-Hp. unfold hdr_plen. by rewrite !(vgetz_same b b' _ Hlen) by (apply Hkeep; left; lia).
  - by apply Hdst'.
  - by apply Hsrc'.
  - exists (take (length pre) b'), d, s. split_and!; try done.
    + rewrite <-(take_drop (length pre) b') at 1. f_equal. apply list_eq. intros k. rewrite lookup_drop, Hkeep by (right; lia).
      rewrite Hb, lookup_app_r by lia. f_equal. lia.
    + rewrite length_take, Hlen, Hb, length_app. lia.
  - by exists last.
Qed.

(** ** Segments: packets with a transport header *)

(** A path that fits, can be printed, and ends in an XID. *)
Record addresses (p : XIAPath) (x : Xid) : Prop := {
  ad_fits : path_fits p;
  ad_print : path_printable p;
  ad_dst : destination_xid p = Ok x }.

Lemma addresses_copy p p' q x : addresses p x → same_path p p' q → addresses q x.
Proof.
  intros [Hf Hp Hd] Hs. split; [by eapply copy_fits|by eapply copy_printable|].
  unfold destination_xid in *. by rewrite (copy_destination p p' q Hf Hs).
Qed.

(** Whether a concrete path addresses an XID, by evaluation. *)
Definition addresses_check (p : XIAPath) (x : Xid) : bool :=
  bool_decide (Forall (λ n, Forall (λ j, (j < length (p_nodes p))%nat) (p_edges n)) (p_nodes p)) &&
  bool_decide (0 ≤ p_src p ∧ 0 ≤ p_dst p ∧ (length (p_nodes p) ≤ 128)%nat) &&
  match is_valid p with Ok (_, b) => b | Ub _ => false end &&
  bool_decide (Forall (λ n, 0 ≤ xid_type (p_xid n) < 2 ^ 32 ∧ length (xid_id (p_xid n)) = 20%nat) (p_nodes p)) &&
  forallb (λ '(i, n), bool_decide (Z.of_nat i = p_src p) ||
    bool_decide (known_word (xid_type (p_xid n)) ∧ length (xid_id (p_xid n)) = 20%nat ∧ Forall (λ b, 0 ≤ b < 256) (xid_id (p_xid n))))
    (imap pair (p_nodes p)) &&
  match destination_xid p with Ok y => bool_decide (y = x) | Ub _ => false end.

Lemma addresses_checked p x : addresses_check p x = true → addresses p x.
Proof.
  unfold addresses_check. intros (((((H1 & H2)%andb_prop & H3)%andb_prop & H4)%andb_prop & H5)%andb_prop & H6)%andb_prop.
  apply bool_decide_eq_true in H1, H2, H4. destruct H2 as (Hs & Hd & Hl). rewrite Forall_lookup in H1, H4.
  assert (in_range (p_nodes p)) as Hr by (intros i j (n & Hn & Hj); pose proof (H1 i n Hn) as H; rewrite Forall_forall in H; by apply H).
  split.
  - split; try done. destruct (is_valid_ok p Hr Hs Hd) as (p' & b & Hv & _ & _ & _ & Hb & _).
    rewrite Hv in H3. by apply Hb.
  - intros i n Hn Hi. rewrite forallb_forall in H5. specialize (H5 (i, n)). cbn in H5. rewrite bool_decide_false in H5 by done. cbn in H5.
    assert (In (i, n) (imap pair (p_nodes p))) as Hin
      by (apply list_elem_of_In, list_elem_of_lookup; exists i; by rewrite list_lookup_imap, Hn).
    specialize (H5 Hin). apply bool_decide_eq_true in H5. done.
  - destruct (destination_xid p) as [y|]; [|done]. apply bool_decide_eq_true in H6. by rewrite H6.
Qed.

Lemma addresses_text p x : addresses p x → is_ok (text_of p).
Proof. intros [Hf Hp _]. unfold text_of. destruct (path_unparse_total p Hf Hp) as [r ->]. by eexists. Qed.

Section segments.
Context (entries : kvmap → list (Z * list Z)) (fresh : nat → list Z) (fresh_nodes : Z → list xid_node).
Context (Hentries : ∀ m, entries m ≡ₚ map_to_list m) (Hfresh : ∀ n, length (fresh n) = n).
Context (Hnodes : ∀ n, 0 ≤ n → Z.of_nat (length (fresh_nodes n)) = n).

Definition is_u32 (z : Z) : Prop := 0 ≤ z < 2 ^ 32.

(** A segment of a stream from [sx] to [dx]. *)
Definition segment (b : list Z) (dx sx : Xid) (info seq ack : Z) (data : list Z) : Prop :=
  ∃ dst src, addresses dst dx ∧ addresses src sx ∧
    reads b CLICK_XIA_NXT_TRN dst src (ext_encap (TransportHeaderEncap entries fresh XSOCK_STREAM info seq ack 0) data) ∧
    0 ≤ info < 256 ∧ is_u32 seq ∧ is_u32 ack ∧ Z.of_nat (length data) + 24 < 65536 ∧ Forall is_byte b ∧ hdr_last b = Ok LAST_NODE_DEFAULT.

Lemma transport_header_ext type info seq ack len pre data :
  let th := TransportHeaderEncap entries fresh type info seq ack len in
  length (ee_hdr th) = 24%nat ∧ ext_encap th data = ee_hdr th ++ data ∧
  ext_hdr_hlen (pre ++ ext_encap th data) (Z.of_nat (length pre)) = Ok 24 ∧
  populate_map (pre ++ ext_encap th data) (Z.of_nat (length pre)) = Ok (transport_map type info seq ack len).
Proof using Hentries Hfresh.
  pose proof (transport_size type info seq ack len) as Hsize. intros th. unfold TransportHeaderEncap in th. cbn [ee_hdr ext_encap_new] in th.
  destruct (ext_read entries fresh Hentries Hfresh CLICK_XIA_NXT_NO EXT_LEN (transport_map type info seq ack len) pre data ltac:(lia))
    as (H1 & H2 & _ & H4 & H5). fold th in H1, H2, H4, H5.
  pose proof (length_ext_hdr entries fresh Hentries Hfresh CLICK_XIA_NXT_NO EXT_LEN (transport_map type info seq ack len) ltac:(lia)) as Hl.
  fold th in Hl. rewrite Hsize, padding_24 in Hl. split; [lia|]. split; [done|]. split; [|done].
  rewrite H4. f_equal. lia.
Qed.

Lemma transport_bytes type info seq ack len :
  Forall is_byte (ee_hdr (TransportHeaderEncap entries fresh type info seq ack len)).
Proof using Hentries Hfresh.
  unfold TransportHeaderEncap. cbn [ee_hdr ext_encap_new]. pose proof (transport_size type info seq ack len) as Hsize.
  rewrite (ext_update_bytes entries fresh Hentries Hfresh) by lia.
  assert (map_Forall (λ k v, is_byte k ∧ Forall is_byte v) (transport_map type info seq ack len)) as Hm.
  { unfold transport_map, TH_TYPE, TH_PKT_INFO, TH_SEQ_NUM, TH_ACK_NUM, TH_LENGTH.
    repeat (apply map_Forall_insert_2; [split; [unfold is_byte; lia|first [apply le_bytes_are_bytes|by repeat constructor; apply wrapU_range]]|]).
    apply map_Forall_empty. }
  repeat apply Forall_app_2; [| |apply Forall_replicate; unfold is_byte; lia].
  - repeat constructor; try apply u8_byte; unfold is_byte, CLICK_XIA_NXT_NO; lia.
  - apply map_Forall_to_list in Hm. rewrite <-(Hentries _) in Hm. clear -Hm. induction Hm as [|[k v] l [Hk Hv] Hl IH]; [constructor|].
    rewrite bind_cons. apply Forall_app_2; [|done]. unfold entry_bytes. constructor; [apply u8_byte|]. by constructor.
Qed.

(** The update before the packet is built changes nothing. *)
Lemma transport_hlen type info seq ack len :
  ee_hlen (ext_update entries fresh (TransportHeaderEncap entries fresh type info seq ack len)) = 24.
Proof using Hentries Hfresh.
  pose proof (transport_size type info seq ack len) as Hsize.
  set (th := TransportHeaderEncap entries fresh type info seq ack len).
  assert (ext_update entries fresh th =
    ext_update entries fresh (mkExtEncap [CLICK_XIA_NXT_NO; EXT_LEN] (transport_map type info seq ack len))) as ->.
  { unfold th, TransportHeaderEncap. unfold ext_update at 2. cbn [ee_hdr ext_encap_new ee_map].
    destruct (count_entries (entries _) EXT_LEN 0) as [size count]. unfold ext_update. cbn [ee_map ee_hdr]. done. }
  destruct (ext_read entries fresh Hentries Hfresh CLICK_XIA_NXT_NO EXT_LEN (transport_map type info seq ack len) [] [] ltac:(lia))
    as (_ & -> & _). rewrite length_ext_hdr by (done || lia). by rewrite Hsize.
Qed.

Lemma transport_fields type info seq ack len o h : 0 ≤ type < 256 → 0 ≤ info < 256 → is_u32 seq → is_u32 ack → 0 ≤ len < 65536 →
  let th := mkExt o h (transport_map type info seq ack len) in
  th_type th = Ok type ∧ th_pkt_info th = Ok info ∧ th_seq_num th = Ok seq ∧ th_ack_num th = Ok ack ∧ th_length th = Ok len.
Proof using.
  intros Ht Hi Hs Ha Hl th. unfold is_u32 in *. unfold th_type, th_pkt_info, th_seq_num, th_ack_num, th_length, field, th, transport_map.
  cbn [ext_map]. unfold TH_TYPE, TH_PKT_INFO, TH_SEQ_NUM, TH_ACK_NUM, TH_LENGTH. simplify_map_eq.
  unfold u8, u16, u32. rewrite !wrapU_small by lia. split_and!; f_equal; [lia..| | |].
  - by apply (of_le_bytes_le_bytes 4).
  - by apply (of_le_bytes_le_bytes 4).
  - by apply (of_le_bytes_le_bytes 2).
Qed.

(** The transport header of a packet. *)
Lemma reads_transport b nxt dst src type info seq ack len data :
  reads b nxt dst src (ext_encap (TransportHeaderEncap entries fresh type info seq ack len) data) →
  ∃ o, XIAGenericExtHeader_of b = Ok (mkExt o 24 (transport_map type info seq ack len)) ∧
    hdr_plen b = Ok (24 + Z.of_nat (length data)) ∧ bytes_at b (o + 24) (Z.of_nat (length data)) = Ok data.
Proof using Hentries Hfresh.
  intros Hrd. destruct (reads_size _ _ _ _ _ Hrd) as (pre & Hb & Hsize & _).
  destruct (transport_header_ext type info seq ack len pre data) as (Hl & He & Hh & Hm). exists (Z.of_nat (length pre)).
  split; [|split].
  - unfold XIAGenericExtHeader_of, next_header. rewrite Hsize. cbn [mbind res_bind]. rewrite Hb, Hh. cbn [mbind res_bind]. by rewrite Hm.
  - rewrite (rd_plen _ _ _ _ _ Hrd), He, length_app, Hl. f_equal. lia.
  - rewrite Hb, He, app_assoc. replace (Z.of_nat (length pre) + 24) with (Z.of_nat (length (pre ++ ee_hdr (TransportHeaderEncap entries fresh type info seq ack len))))
      by (rewrite length_app, Hl; lia).
    rewrite <-(app_nil_r data) at 1. apply bytes_at_app.
Qed.

Lemma segment_incoming b b' dx sx info seq ack data : segment b dx sx info seq ack data → arrives b b' dx →
  ∃ dst src o, read_incoming b' = Ok (mkIn b' dst src dx sx (mkExt o 24 (transport_map XSOCK_STREAM info seq ack 0))) ∧
    addresses dst dx ∧ addresses src sx ∧ hdr_nxt b' = Ok CLICK_XIA_NXT_TRN ∧ hdr_plen b' = Ok (24 + Z.of_nat (length data)) ∧
    bytes_at b' (o + 24) (Z.of_nat (length data)) = Ok data.
Proof using Hentries Hfresh.
  intros (dst & src & Hd & Hs & Hrd & _) Harr.
  destruct (arrives_reads _ _ _ _ _ _ _ Hrd Harr) as (Hrd' & last & Hlast & Hx).
  destruct (reads_transport _ _ _ _ _ _ _ _ _ _ Hrd') as (o & Hth & Hpl & Hdata). exists dst, src, o.
  split; [|split_and!; try done; apply Hrd']. unfold read_incoming.
  rewrite (rd_dst _ _ _ _ _ Hrd'), Hlast. cbn [mbind res_bind]. rewrite Hx.
  cbn [mbind res_bind]. rewrite (rd_src _ _ _ _ _ Hrd'). cbn [mbind res_bind]. rewrite (ad_dst _ _ Hs).
  cbn [mbind res_bind]. by rewrite Hth.
Qed.

(** Building a segment. *)
Lemma transport_packet_ok info seq ack hlim dst src data dx sx : addresses dst dx → addresses src sx →
  0 ≤ info < 256 → is_u32 seq → is_u32 ack → Z.of_nat (length data) + 24 < 65536 → Forall is_byte data →
  ∃ b, transport_packet entries fresh fresh_nodes (TransportHeaderEncap entries fresh XSOCK_STREAM info seq ack 0) hlim dst src data = Ok b ∧
    segment b dx sx info seq ack data.
Proof using Hentries Hfresh Hnodes.
  intros Hd Hs Hi Hseq Hack Hlen Hbd. unfold transport_packet. rewrite transport_hlen.
  set (th := TransportHeaderEncap entries fresh XSOCK_STREAM info seq ack 0).
  destruct (transport_header_ext XSOCK_STREAM info seq ack 0 [] data) as (Hl & He & _). fold th in Hl, He.
  assert (Z.of_nat (length (ext_encap th data)) = Z.of_nat (length data) + 24) as Hpl by (rewrite He, length_app, Hl; lia).
  rewrite <-Hpl. destruct (encap_reads fresh_nodes Hnodes CLICK_XIA_NXT_TRN LAST_NODE_DEFAULT hlim dst src (ext_encap th data))
    as (e & dq & sq & -> & Hrd & [p1 Hdq] & [p2 Hsq] & Hlq & Hbq); [unfold CLICK_XIA_NXT_TRN; lia|apply Hd|apply Hs|lia|].
  cbn [mbind res_bind]. eexists. split; [done|]. exists dq, sq.
  assert (addresses dq dx) as Hdq' by (by eapply addresses_copy). assert (addresses sq sx) as Hsq' by (by eapply addresses_copy).
  do 7 (split; [done|]). split; [|done]. apply Hbq; [apply Hdq'|apply Hsq'|]. rewrite He. by apply Forall_app_2; [apply transport_bytes|].
Qed.

(** Copying a segment. *)
Lemma copy_packet_ok qx qi x b d dx sx info seq ack data dx' sx' src' : segment b dx sx info seq ack data →
  relocate qx qi x (a_src_path (di_addr d)) = Ok src' → addresses src' sx' → addresses (a_dst_path (di_addr d)) dx' →
  ∃ b', copy_packet qx qi entries fresh fresh_nodes x b d = Ok (set_src_path d src', b') ∧ segment b' dx' sx' info seq ack data.
Proof using Hentries Hfresh Hnodes.
  intros (dst & src & Hd & Hs & Hrd & Hi & Hseq & Hack & Hlen & Hbytes & Hlast) Hrel Hs' Hd'. unfold copy_packet, copy_common. rewrite Hrel.
  cbn [mbind res_bind]. destruct (reads_fields _ _ _ _ _ Hrd) as [_ [hlim Hhlim]].
  destruct (reads_transport _ _ _ _ _ _ _ _ _ _ Hrd) as (o & Hth & Hpl & Hdata).
  rewrite (rd_nxt _ _ _ _ _ Hrd), Hlast, Hhlim, Hpl. cbn [mbind res_bind set_src_path with_addr di_addr a_dst_path].
  set (th := TransportHeaderEncap entries fresh XSOCK_STREAM info seq ack 0).
  destruct (transport_header_ext XSOCK_STREAM info seq ack 0 [] data) as (Hl & He & _). fold th in Hl, He.
  assert (24 + Z.of_nat (length data) = Z.of_nat (length (ext_encap th data))) as Hel by (rewrite He, length_app, Hl; lia).
  assert (Forall is_byte data) as Hbd.
  { destruct (reads_size _ _ _ _ _ Hrd) as (pre & Hb & _). rewrite Hb in Hbytes. fold th in Hbytes. rewrite He in Hbytes.
    by apply Forall_app in Hbytes as [_ [_ Hbytes]%Forall_app]. }
  rewrite Hel. destruct (encap_reads fresh_nodes Hnodes CLICK_XIA_NXT_TRN LAST_NODE_DEFAULT hlim (a_dst_path (di_addr d)) src' (ext_encap th data))
    as (e & dq & sq & -> & Hrd' & [p1 Hdq] & [p2 Hsq] & Hlq & Hbq); [unfold CLICK_XIA_NXT_TRN; lia|apply Hd'|apply Hs'|lia|].
  cbn [mbind res_bind]. rewrite Hth. cbn [mbind res_bind].
  destruct (transport_fields XSOCK_STREAM info seq ack 0 o 24) as (-> & -> & -> & -> & ->); [unfold XSOCK_STREAM; lia|done..|lia|].
  cbn [mbind res_bind ext_payload ext_at ext_hlen]. rewrite <-Hel. unfold ext_payload. cbn [ext_at ext_hlen].
  replace (u32 (24 + Z.of_nat (length data) - 24)) with (Z.of_nat (length data))
    by (unfold u32; rewrite wrapU_small; lia).
  rewrite Hdata. cbn [mbind res_bind fst snd]. eexists. split; [done|]. exists dq, sq.
  assert (addresses dq dx') as Hdq' by (by eapply addresses_copy). assert (addresses sq sx') as Hsq' by (by eapply addresses_copy).
  do 7 (split; [done|]). split; [|done]. apply Hbq; [apply Hdq'|apply Hsq'|]. rewrite He. by apply Forall_app_2; [apply transport_bytes|].
Qed.
End segments.
