(* ===== verification/Carriage.v ===== *)
(** * Carriage: packets across routers

    A packet that goes from router to router until it has arrived somewhere:
    every hop is a run of the routing core of [PacketRoute]. *)

From Stdlib Require Import ZArith Lia Ascii String.
From stdpp Require Import base gmap sets list.
From S2P Require Import Prelude Text ConfParse XiaPath XiaPathOrder XiaPathCodec XidText XiaPathText XiaHeader ExtHeader RouteTable Elements HeaderView PacketRoute PacketRouteSpec PacketRouteWalk XTransport TransportWire.

Local Open Scope Z_scope.

(** ** Hops *)

(** A router that can take the packet: it has its five tables, it counts hops,
    and it does not broadcast the packet. *)
Record able (r : XIAPacketRoute) (p : Packet) (d : Z) : Prop := {
  ab_tables : length (tables r) = 5%nat;
  ab_gprp : dec_active (GPRP r) = true;
  ab_paint : 0 ≤ XIA_PAINT_ANNO p ∨ XIA_PAINT_ANNO p = DESTINED_FOR_LOCALHOST;
  ab_dnode : hdr_dnode (p_data p) = Ok d;
  ab_unicast : unicast (tables r) (p_data p) d }.

(** The packet with the bytes [b] is routed by some routers, one after the other,
    and has the bytes [b'] where it arrives. *)
Inductive carried : list Z → list Z → Prop :=
  | carried_arrives r p d r' evs q : able r p d → packet_route (4 * Z.to_nat d + 8) r p = Ok (r', evs) →
      Arrived q ∈ evs → carried (p_data p) (p_data q)
  | carried_on r p d r' evs q b : able r p d → packet_route (4 * Z.to_nat d + 8) r p = Ok (r', evs) →
      Forwarded q ∈ evs → carried (p_data q) b → carried (p_data p) b.

Lemma walk_forward_edge edge dec d row k row' k' rt : walk edge dec d row k row' k' (OForward rt) → is_Some (edge row' k').
Proof.
  remember (OForward rt) as o eqn:Ho. intros Hw. induction Hw; try done; try (by eauto).
Qed.

(** A packet that can be routed. *)
Record routable (b : list Z) (d s : Z) (q : XIAPath) : Prop := {
  ro_ok : header_ok b d s;
  ro_row : ∃ row, current_row b = Ok row ∧ 0 ≤ row < d;
  ro_dst : dst_path b = Ok q;
  ro_range : in_range (p_nodes q);
  ro_acyclic : path_acyclic (p_nodes q) }.

Lemma hop r p d s q r' evs : routable (p_data p) d s q → able r p d →
  packet_route (4 * Z.to_nat d + 8) r p = Ok (r', evs) →
  (∀ p', Arrived p' ∈ evs → same_dag (p_data p) (p_data p') d s) ∧
  (∀ p', Forwarded p' ∈ evs → same_dag (p_data p) (p_data p') d s ∧ routable (p_data p') d s q).
Proof.
  intros [Hok (row & Hrow & Hr) Hq Hin Hac] [Ht Ha Hp _ Hu] Hrun. destruct (hlim_ok _ _ _ Hok) as (h & Hh & _).
  destruct (packet_route_walk r p d s h q row) as (r2 & evs2 & row' & k' & o & Hrun2 & _ & Hw & Hf); [done..|].
  rewrite Hrun in Hrun2. injection Hrun2 as <- <-. destruct o as [rt| | | |]; cbn [fate] in Hf.
  - destruct Hf as (p1 & red & -> & Hsd & Hrow' & _ & _ & _ & Hred).
    assert (∀ e, e ∈ red → ∃ z, e = Redirected z) as Hr2 by (intros e He; case_decide; [destruct Hred as [z ->]; exists z; by apply list_elem_of_singleton in He|subst; by apply elem_of_nil in He]).
    split; intros p' [[z ?]%Hr2|He%list_elem_of_singleton]%elem_of_app; try done; case_decide; try done.
    injection He as ->. split; [done|]. split; [apply Hsd| |by apply (paths_same _ _ _ _ q q Hsd (ho_dnode _ _ _ Hok) (ho_snode _ _ _ Hok))|done..].
    exists row'. split; [done|]. destruct (walk_forward_edge _ _ _ _ _ _ _ _ Hw) as [e He]. unfold dag_edge in He. by case_decide as Hd; [destruct Hd|].
  - destruct Hf as (p1 & idx & -> & Hsd & _). split; intros p' He%list_elem_of_singleton; [|done]. by injection He as ->.
  - destruct Hf as (p1 & -> & _). split; intros p' He%list_elem_of_singleton; done.
  - destruct Hf as (p1 & ->). split; intros p' He%list_elem_of_singleton; done.
  - destruct Hf as (p1 & -> & _). split; intros p' He%list_elem_of_singleton; done.
Qed.

Lemma carried_same b b' d s q : carried b b' → routable b d s q → same_dag b b' d s.
Proof.
  induction 1 as [r p d' r' evs p' Hab Hrun Hev|r p d' r' evs p' b' Hab Hrun Hev Hc IH]; intros Hro.
  - assert (d' = d) as -> by (pose proof (ab_dnode _ _ _ Hab); pose proof (ho_dnode _ _ _ (ro_ok _ _ _ _ Hro)); congruence).
    exact (proj1 (hop r p d s q r' evs Hro Hab Hrun) p' Hev).
  - assert (d' = d) as -> by (pose proof (ab_dnode _ _ _ Hab); pose proof (ho_dnode _ _ _ (ro_ok _ _ _ _ Hro)); congruence).
    destruct (proj2 (hop r p d s q r' evs Hro Hab Hrun) p' Hev) as [Hsd Hro']. eapply same_dag_trans; [done|by apply IH].
Qed.

(** ** Segments *)

(** The last node the packet has visited. *)
Definition lands (b : list Z) (x : Xid) : Prop := ∃ last, hdr_last b = Ok last ∧ node_xid b last = Ok x.

Section segments.
Context (entries : kvmap → list (Z * list Z)) (fresh : nat → list Z).

Lemma segment_routable b dx sx info seq ack data : segment entries fresh b dx sx info seq ack data →
  ∃ d s q, routable b d s q ∧ destination_xid q = Ok dx.
Proof.
  intros (dst & src & Hd & _ & Hrd & _ & _ & _ & _ & Hb & Hl). pose proof Hrd as [_ _ Hdst _ (pre & d & s & Hpre & Hdn & Hsn & Hd1 & Hs1 & _ & Hlen)].
  exists d, s, dst. pose proof (ad_fits _ _ Hd) as Hf. split; [|apply Hd]. split; [|exists (d - 1)|done|apply Hf|apply (pv_acyclic _ (pf_valid _ Hf))].
  - split; try done; [lia|]. rewrite Hpre, length_app. lia.
  - unfold current_row. rewrite Hl, Hdn. cbn [mbind res_bind]. unfold LAST_NODE_DEFAULT. rewrite decide_True by lia. split; [f_equal|]; lia.
Qed.

Lemma segment_arrives b b' dx sx info seq ack data : segment entries fresh b dx sx info seq ack data → carried b b' →
  lands b' dx → arrives b b' dx.
Proof.
  intros Hseg Hc (last & Hl & Hx). destruct (segment_routable _ _ _ _ _ _ _ Hseg) as (d & s & q & Hro & _).
  exists d, s, last. pose proof (ro_ok _ _ _ _ Hro) as Hok. split_and!; [apply Hok|apply Hok|by eapply carried_same|done|done].
Qed.

(** A segment at the node its destination path ends in. *)
Lemma segment_at_end b dx sx info seq ack data d : segment entries fresh b dx sx info seq ack data → hdr_dnode b = Ok d → d ≤ 127 →
  node_xid b (d - 1) = Ok dx → arrives b (<[7%nat := d - 1]> b) dx.
Proof.
  intros Hseg Hd Hle Hx. destruct (segment_routable _ _ _ _ _ _ _ Hseg) as (d' & s & q & [Hok _ _ _ _] & _).
  pose proof (ho_dnode _ _ _ Hok) as Hd'. assert (d' = d) as -> by congruence. pose proof (ho_dpos _ _ _ Hok). pose proof (ho_spos _ _ _ Hok).
  assert (same_dag b (<[7%nat := d - 1]> b) d s) as Hsd by (apply field_insert; [done|unfold is_byte; lia|lia|set_solver by lia]).
  exists d, s, (d - 1). split_and!; [done|apply Hok|done| |by rewrite (sd_xid _ _ _ _ Hsd) by lia].
  destruct (last_ok _ _ _ Hok) as (z & Hz & _). unfold hdr_last. assert (vgetz (<[7%nat := d - 1]> b) 7 = Ok (d - 1)) as ->.
  { apply vgetz_Ok. split; [lia|]. apply list_lookup_insert_eq. by apply lookup_lt_Some in Hz. }
  cbn [mbind res_bind]. unfold i8. by rewrite wrapS_small by lia.
Qed.
End segments.
