(* ===== verification/TransportSocket.v ===== *)
(** * TransportSocket: what the handlers do to a connected socket

    A socket of an established stream, its invariant, and the effect of sending,
    of the timer and of the packets of the stream on it.  The handlers are free
    of undefined behaviour on such a socket. *)

From Stdlib Require Import ZArith Lia Ascii String.
From stdpp Require Import base gmap sets list.
From S2P Require Import Prelude Text ConfParse XiaPath XiaPathOrder XiaPathCodec XidText XiaPathText XiaHeader PathCopies ExtHeader RouteTable Elements HeaderView PacketRouteSpec XTransport TransportWire.

Local Open Scope Z_scope.

(** ** Outputs *)

Definition packets (out : list output) : list (list Z) := omap (λ o, match o with ToNetwork p => Some p | _ => None end) out.

(** The data given to the application on a port. *)
Definition delivered (port : Z) (out : list output) : list (list Z) :=
  omap (λ o, match o with ToApi p (R_XRECV _ data) => if decide (p = port) then Some data else None | _ => None end) out.

Lemma packets_map ps : packets (map ToNetwork ps) = ps.
Proof. induction ps as [|p ps IH]; [done|]. unfold packets in *. cbn. by rewrite IH. Qed.

Lemma delivered_map port ps : delivered port (map ToNetwork ps) = [].
Proof. induction ps as [|p ps IH]; [done|]. unfold delivered in *. cbn. by rewrite IH. Qed.

(** ** Sockets *)

(** A socket the timer has nothing to do for. *)
Definition idle (d : DAGinfo) : Prop := t_timer_on (di_wait d) = false ∧ XIDtoTimerOn (di_chunks d) = ∅.

Section socket.
Context (query_xid : str → option Xid) (query_ip : str → option (list Z)).
Context (entries : kvmap → list (Z * list Z)) (fresh : nat → list Z) (fresh_nodes : Z → list xid_node).
Context (port_order : gmap Z DAGinfo → list Z) (cid_order : gmap Xid bool → list Xid).
Context (Hentries : ∀ m, entries m ≡ₚ map_to_list m) (Hfresh : ∀ n, length (fresh n) = n).
Context (Hnodes : ∀ n, 0 ≤ n → Z.of_nat (length (fresh_nodes n)) = n).
Context (Hports : ∀ m, port_order m ≡ₚ (map_to_list m).*1) (Hcids : ∀ m, cid_order m ≡ₚ (map_to_list m).*1).

(** The host's address makes a path for the service. *)
Definition home (x : XTRANSPORT) (sx : Xid) : Prop :=
  ∃ s, local_path x sx = Ok s ∧ addresses (parse_path_re query_xid query_ip s) sx.

Lemma relocate_ok x src sx : home x sx → addresses src sx →
  ∃ src', relocate query_xid query_ip x src = Ok src' ∧ addresses src' sx.
Proof using.
  intros (s & Hs & Ha) Hsrc. unfold relocate. rewrite (ad_dst _ _ Hsrc). cbn [mbind res_bind]. rewrite Hs. cbn [mbind res_bind].
  unfold text_re. destruct (unparse_re_total src (ad_fits _ _ Hsrc) (ad_print _ _ Hsrc)) as (p' & t & -> & _).
  cbn [mbind res_bind]. eexists. split; [done|]. by case_decide.
Qed.

Abbreviation seg := (segment entries fresh).

(** What is stored in the window: packets of the stream. *)
Definition stored (me peer : Xid) (sent : list (list Z)) (p : list Z) : Prop :=
  ∃ (k : nat) ack data, sent !! k = Some data ∧ seg p peer me DATA (Z.of_nat k) ack data.

Record socket (d : DAGinfo) (me peer : Xid) (sent : list (list Z)) (base nrcvd : nat) : Prop := {
  so_connected : a_isConnected (di_addr d) = true;
  so_init : a_initialized (di_addr d) = true;
  so_src : addresses (a_src_path (di_addr d)) me;
  so_dst : addresses (a_dst_path (di_addr d)) peer;
  so_ack : w_ack_num (di_win d) = Some 0;
  so_seq : w_seq_num (di_win d) = Some (Z.of_nat (length sent));
  so_next : w_next_seqnum (di_win d) = Some (Z.of_nat (length sent));
  so_base : w_base (di_win d) = Some (Z.of_nat base);
  so_expected : w_expected_seqnum (di_win d) = Some (Z.of_nat nrcvd);
  so_slots : ∃ slots, w_sent_pkt (di_win d) = Some slots ∧ length slots = 100%nat ∧
    ∀ i p, slots !! i = Some (Some p) → stored me peer sent p;
  so_tries : sent ≠ [] → is_Some (w_num_retransmit_tries (di_win d));
  so_quiet : sent = [] → t_dataack_waiting (di_wait d) = false;
  so_wait : t_timer_on (di_wait d) = true → t_dataack_waiting (di_wait d) = true;
  so_synack : t_synack_waiting (di_wait d) = false;
  so_teardown : t_teardown_waiting (di_wait d) = false;
  so_chunks : XIDtoTimerOn (di_chunks d) = ∅;
  so_few : Z.of_nat (length sent) < 2 ^ 31 ∧ Z.of_nat nrcvd < 2 ^ 31 ∧ (base ≤ length sent)%nat }.

(** The timer runs no later than a socket waits for it. *)
Definition armed (x : XTRANSPORT) (d : DAGinfo) : Prop :=
  t_timer_on (di_wait d) = true → ∃ t, _timer x = Some t ∧ t ≤ t_expiry (di_wait d).

(** The element of a host with the socket on [port]; its other sockets are idle. *)
Record endpoint (x : XTRANSPORT) (port : Z) (me peer : Xid) (sent : list (list Z)) (base nrcvd : nat) : Prop := {
  ep_port : port ≠ 0;
  ep_pair : pair_port x (me, peer) = port;
  ep_active : is_Some (portToActive (xt_tables x) !! port);
  ep_home : home x me;
  ep_info : ∃ d, portToDAGinfo x !! port = Some d ∧ socket d me peer sent base nrcvd ∧ armed x d;
  ep_idle : ∀ p d, portToDAGinfo x !! p = Some d → p ≠ port → idle d }.

(** The element after a step that changes the socket and the timer only. *)
Lemma endpoint_update x x' port me peer sent base n d' sent' base' n' : endpoint x port me peer sent base n →
  xt_tables x' = xt_tables x → xt_node x' = xt_node x → portToDAGinfo x' = <[port := d']> (portToDAGinfo x) →
  socket d' me peer sent' base' n' → armed x' d' → endpoint x' port me peer sent' base' n'.
Proof using.
  intros [H1 H2 H3 H4 H5 H6] Ht Hn Hm Hs Ha. split.
  - done.
  - unfold pair_port in *. by rewrite Ht.
  - by rewrite Ht.
  - destruct H4 as (s & Hl & Hp). exists s. split; [|done]. unfold local_path in *. by rewrite Hn.
  - exists d'. split; [|done]. rewrite Hm. by simplify_map_eq.
  - intros p d. rewrite Hm. intros Hp Hne. rewrite lookup_insert_ne in Hp by done. by apply (H6 p).
Qed.

Lemma reschedule_armed x d port : t_timer_on (di_wait d) = true →
  armed (set_info (reschedule x (t_expiry (di_wait d))) port d) d.
Proof using.
  intros _ _. unfold reschedule, set_info, with_infos. destruct (_timer x) as [t|] eqn:Ht; [case_decide|]; cbn [_timer].
  - eexists. split; [done|]. lia.
  - exists t. split; [done|]. lia.
  - eexists. split; [done|]. lia.
Qed.

Lemma stored_mono me peer sent data p : stored me peer sent p → stored me peer (sent ++ [data]) p.
Proof using. intros (k & ack & dt & Hk & Hs). exists k, ack, dt. split; [|done]. by apply lookup_app_l_Some. Qed.

(** ** Sending *)

Lemma complete_source_ok x d me : home x me → addresses (a_src_path (di_addr d)) me →
  ∃ d', complete_source query_xid query_ip x d = Ok d' ∧ addresses (a_src_path (di_addr d')) me ∧
    a_dst_path (di_addr d') = a_dst_path (di_addr d) ∧ a_isConnected (di_addr d') = a_isConnected (di_addr d) ∧
    a_initialized (di_addr d') = a_initialized (di_addr d) ∧
    di_win d' = di_win d ∧ di_wait d' = di_wait d ∧ di_chunks d' = di_chunks d.
Proof using.
  intros (s & Hs & Ha) Hsrc. unfold complete_source. destruct (a_full_src_dag (di_addr d)); [by exists d|].
  rewrite (ad_dst _ _ Hsrc). cbn [mbind res_bind]. rewrite Hs. cbn [mbind res_bind]. eexists. split; [done|]. done.
Qed.

Abbreviation Xsend' := (Xsend query_xid query_ip entries fresh fresh_nodes).

(** The socket after a message was sent: the packet is in its slot. *)
Definition sent_one (d d' : DAGinfo) (q : list Z) (n expiry : Z) : Prop :=
  ∃ slots, w_sent_pkt (di_win d) = Some slots ∧
    w_sent_pkt (di_win d') = Some (<[Z.to_nat (n mod MAX_WIN_SIZE) := Some q]> slots) ∧
    w_num_retransmit_tries (di_win d') = Some 0 ∧
    t_timer_on (di_wait d') = true ∧ t_dataack_waiting (di_wait d') = true ∧ t_expiry (di_wait d') = expiry.

Lemma send_ok x port me peer sent base n data now : endpoint x port me peer sent base n →
  Z.of_nat (length data) + 24 < 65536 → Forall is_byte data → Z.of_nat (S (length sent)) < 2 ^ 31 →
  ∃ x' p q d d', Xsend' x port data now = Ok (x', [ToNetwork p]) ∧
    seg p peer me DATA (Z.of_nat (length sent)) 0 data ∧ seg q peer me DATA (Z.of_nat (length sent)) 0 data ∧
    endpoint x' port me peer (sent ++ [data]) base n ∧
    portToDAGinfo x !! port = Some d ∧ portToDAGinfo x' !! port = Some d' ∧
    sent_one d d' q (Z.of_nat (length sent)) (now + make_msec ACK_DELAY).
Proof using Hentries Hfresh Hnodes.
  intros Hep Hlen Hbd Hfew. pose proof Hep as [_ _ _ Hhome (d & Hd & Hso & Harm) _]. unfold Xsend. rewrite Hd, (so_connected _ _ _ _ _ _ Hso).
  destruct (relocate_ok x _ me Hhome (so_src _ _ _ _ _ _ Hso)) as (src1 & -> & Hs1). cbn [mbind res_bind].
  destruct (complete_source_ok x (set_src_path d src1) me Hhome Hs1) as (d1 & -> & Hs2 & Hdst & Hcon & Hini & Hw & Ht & Hc).
  cbn [mbind res_bind]. rewrite Hw. cbn [set_src_path with_addr di_win di_addr di_wait di_chunks a_dst_path a_isConnected a_initialized] in *.
  rewrite (so_next _ _ _ _ _ _ Hso), (so_ack _ _ _ _ _ _ Hso), (so_seq _ _ _ _ _ _ Hso). cbn [init mbind res_bind].
  destruct (so_slots _ _ _ _ _ _ Hso) as (slots & Hslots & Hl100 & Hst). rewrite Hslots. cbn [init mbind res_bind].
  destruct (transport_packet_ok entries fresh fresh_nodes Hentries Hfresh Hnodes DATA (Z.of_nat (length sent)) 0 (hlim_get x port)
    (a_dst_path (di_addr d1)) (a_src_path (di_addr d1)) data peer me) as (p & Hp & Hseg);
    [rewrite Hdst; apply Hso|done|unfold DATA; lia|unfold is_u32; lia|unfold is_u32; lia|done|done|].
  unfold MakeDATAHeader. rewrite Hp. cbn [mbind res_bind].
  set (slot := Z.of_nat (length sent) mod MAX_WIN_SIZE). assert (0 ≤ slot < 100) as Hslot by (apply Z.mod_pos_bound; done).
  destruct (vgetz_in slots slot) as (o & _ & ->); [lia|]. cbn [mbind res_bind].
  destruct (relocate_ok x _ me Hhome Hs2) as (src2 & Hrel & Hs3).
  destruct (copy_packet_ok entries fresh fresh_nodes Hentries Hfresh Hnodes query_xid query_ip x p d1 peer me DATA
    (Z.of_nat (length sent)) 0 data peer me src2 Hseg Hrel Hs3) as (q & -> & Hq); [rewrite Hdst; apply Hso|].
  cbn [mbind res_bind fst snd]. eexists _, p, q, d, _. split; [reflexivity|]. split; [done|]. split; [done|].
  split; [|split; [done|split; [by unfold set_info, with_infos; cbn [portToDAGinfo]; simplify_map_eq|]]].
  - eapply endpoint_update; [done|by unfold reschedule; repeat case_match|by unfold reschedule; repeat case_match| | |].
    { unfold set_info, with_infos, reschedule. cbn [portToDAGinfo]. f_equal. by repeat case_match. }
    2:{ refine (reschedule_armed _ (with_wait _ _) _ _). done. }
    destruct Hso. split; cbn [with_wait with_win set_src_path with_addr di_addr di_win di_wait di_chunks a_isConnected a_initialized
      a_src_path a_dst_path w_ack_num w_seq_num w_next_seqnum w_base w_expected_seqnum w_sent_pkt w_num_retransmit_tries
      t_synack_waiting t_teardown_waiting]; rewrite ?Hw, ?Ht, ?Hc; try done; try congruence.
    + f_equal. rewrite length_app. unfold u32. rewrite wrapU_small; simpl; lia.
    + f_equal. rewrite length_app. unfold u32. rewrite wrapU_small; simpl; lia.
    + eexists. split; [done|]. split; [by rewrite length_insert|]. intros i p' Hi.
      destruct (decide (i = Z.to_nat slot)) as [->|Hne].
      * rewrite list_lookup_insert_eq in Hi by lia. injection Hi as <-. exists (length sent), 0, data. split; [|done].
        by rewrite list_lookup_middle.
      * rewrite list_lookup_insert_ne in Hi by done. apply stored_mono. by apply (Hst i).
    + intros []%app_nil; done.
    + rewrite length_app. simpl. lia.
  - exists slots. done.
Qed.

(** ** Receiving *)

Abbreviation receive' := (ProcessNetworkPacket entries fresh fresh_nodes).

(** What a received message leaves alone. *)
Definition same_window (d d' : DAGinfo) : Prop :=
  w_sent_pkt (di_win d') = w_sent_pkt (di_win d) ∧
  w_num_retransmit_tries (di_win d') = w_num_retransmit_tries (di_win d) ∧ di_wait d' = di_wait d.

Lemma deliver_up_ok x port d b' dst src dx sx o data info seq ack : portToDAGinfo x !! port = Some d →
  a_initialized (di_addr d) = true → addresses src sx → hdr_nxt b' = Ok CLICK_XIA_NXT_TRN →
  hdr_plen b' = Ok (24 + Z.of_nat (length data)) → bytes_at b' (o + 24) (Z.of_nat (length data)) = Ok data →
  ∃ s, deliver_up x (mkIn b' dst src dx sx (mkExt o 24 (transport_map XSOCK_STREAM info seq ack 0))) port
    = Ok (x, [ToApi port (R_XRECV s data)]).
Proof using.
  intros Hd Hi Hs Hn Hp Hdata. unfold deliver_up. rewrite Hd. change (default DAGinfo_new (Some d)) with d. cbn [in_b]. rewrite Hn. cbn [mbind res_bind]. rewrite Hi.
  rewrite decide_False by (unfold CLICK_XIA_NXT_TRN; lia). cbn [in_src_path in_th ext_payload ext_at ext_hlen].
  destruct (addresses_text _ _ Hs) as [t ->]. cbn [mbind res_bind]. rewrite Hp. cbn [mbind res_bind].
  unfold String_at, ext_payload. cbn [ext_at ext_hlen]. rewrite decide_False by lia.
  replace (24 + Z.of_nat (length data) - 24) with (Z.of_nat (length data)) by lia. rewrite Hdata. cbn [mbind res_bind]. by exists t.
Qed.

Lemma process_data_ok x port me peer sent base n b' dst src o k ack : endpoint x port me peer sent base n →
  addresses dst me → addresses src peer → is_u32 (Z.of_nat k) → is_u32 ack → Z.of_nat (S n) < 2 ^ 31 →
  let n' := if decide (k = n) then S n else n in
  ∃ x' p d d', process_data entries fresh fresh_nodes x
      (mkIn b' dst src me peer (mkExt o 24 (transport_map XSOCK_STREAM DATA (Z.of_nat k) ack 0))) port
      = Ok (x', bool_decide (k = n), [ToNetwork p]) ∧
    seg p peer me ACK 0 (Z.of_nat n') cumulative_ACK ∧ endpoint x' port me peer sent base n' ∧
    portToDAGinfo x !! port = Some d ∧ portToDAGinfo x' !! port = Some d' ∧ same_window d d'.
Proof using Hentries Hfresh Hnodes.
  intros Hep Hdst Hsrc Hk Hack Hfew n'. pose proof Hep as [_ _ [a Ha] _ (d & Hd & Hso & Harm) _]. unfold process_data. rewrite Ha.
  unfold info_at. rewrite Hd. cbn [mbind res_bind in_th in_src_path in_dst_path].
  destruct (transport_fields XSOCK_STREAM DATA (Z.of_nat k) ack 0 o 24) as (_ & _ & -> & _);
    [unfold XSOCK_STREAM, DATA; lia..|done|done|lia|].
  cbn [mbind res_bind]. rewrite (so_expected _ _ _ _ _ _ Hso). cbn [init mbind res_bind].
  assert ((if decide (Z.of_nat k = Z.of_nat n) then u32 (Z.of_nat n + 1) else Z.of_nat n) = Z.of_nat n') as ->.
  { unfold n'. destruct (decide (k = n)) as [->|Hne]; [rewrite decide_True by done|rewrite decide_False by lia; done].
    unfold u32. rewrite wrapU_small; lia. }
  destruct (transport_packet_ok entries fresh fresh_nodes Hentries Hfresh Hnodes ACK 0 (Z.of_nat n') HLIM_DEFAULT src dst
    cumulative_ACK peer me Hsrc Hdst) as (p & Hp & Hseg);
    [unfold ACK; lia|unfold is_u32; lia|unfold is_u32, n'; case_decide; lia|cbn; lia|by apply all_bytes|].
  unfold MakeACKHeader. rewrite Hp. cbn [mbind res_bind]. eexists _, p, d, _. split.
  { do 2 f_equal. f_equal. apply bool_decide_ext. lia. }
  split; [done|]. split; [|split; [done|split; [unfold set_info, with_infos; cbn [portToDAGinfo]; by simplify_map_eq|done]]].
  eapply endpoint_update; [done..|reflexivity| |exact Harm].
  destruct Hso. split; cbn [set_dst_path with_addr with_win di_addr di_win di_wait di_chunks a_isConnected a_initialized
    a_src_path a_dst_path w_ack_num w_seq_num w_next_seqnum w_base w_expected_seqnum w_sent_pkt w_num_retransmit_tries]; try done.
  unfold n'. case_decide; lia.
Qed.

Lemma data_ok x port me peer sent base n b b' k ack data now : endpoint x port me peer sent base n →
  seg b me peer DATA (Z.of_nat k) ack data → arrives b b' me → Z.of_nat (S n) < 2 ^ 31 →
  let n' := if decide (k = n) then S n else n in
  ∃ x' out p d d', receive' x b' now = Ok (x', out) ∧ packets out = [p] ∧
    delivered port out = (if decide (k = n) then [data] else []) ∧
    seg p peer me ACK 0 (Z.of_nat n') cumulative_ACK ∧ endpoint x' port me peer sent base n' ∧
    portToDAGinfo x !! port = Some d ∧ portToDAGinfo x' !! port = Some d' ∧ same_window d d'.
Proof using Hentries Hfresh Hnodes.
  intros Hep Hseg Harr Hfew n'. pose proof Hseg as (_ & _ & _ & _ & _ & _ & Hsq & Hack & _).
  destruct (segment_incoming entries fresh Hentries Hfresh _ _ _ _ _ _ _ _ Hseg Harr)
    as (dst & src & o & Hin & Hdst & Hsrc & Hn & Hpl & Hdata).
  destruct (process_data_ok x port me peer sent base n b' dst src o k ack Hep Hdst Hsrc Hsq Hack Hfew)
    as (x' & p & d & d' & Hrun & Hp & Hep' & Hd & Hd' & Hw).
  unfold ProcessNetworkPacket. rewrite Hin. cbn [mbind res_bind]. rewrite Hn. cbn [mbind res_bind in_dst in_src in_th].
  rewrite decide_False by (unfold CLICK_XIA_NXT_TRN, CLICK_XIA_NXT_XCMP; lia).
  destruct (transport_fields XSOCK_STREAM DATA (Z.of_nat k) ack 0 o 24) as (-> & -> & _);
    [unfold XSOCK_STREAM, DATA; lia..|done|done|lia|]. cbn [mbind res_bind]. rewrite (ep_pair _ _ _ _ _ _ _ Hep).
  rewrite (decide_True (P := XSOCK_STREAM = XSOCK_STREAM)), (decide_False (P := DATA = SYN)), (decide_False (P := DATA = SYNACK)),
    (decide_True (P := DATA = DATA)) by (unfold SYN, SYNACK, DATA; lia).
  rewrite Hrun. cbn [mbind res_bind fst snd]. unfold finish.
  destruct Hep' as [Hport H2 H3 H4 (d2 & Hd2 & Hso2 & Harm2) H6]. assert (d2 = d') as -> by congruence.
  destruct (decide (k = n)) as [->|Hne].
  - rewrite decide_True by (split; [done|by apply bool_decide_eq_true]).
    destruct (deliver_up_ok x' port d' b' dst src me peer o data DATA (Z.of_nat n) ack Hd' (so_init _ _ _ _ _ _ Hso2) Hsrc Hn Hpl Hdata)
      as (t & ->).
    cbn [mbind res_bind fst snd]. eexists x', _, p, d, d'. split; [done|]. split; [done|].
    split; [unfold delivered; cbn; by rewrite decide_True|]. split; [done|]. split; [|done]. split; try done. by exists d'.
  - rewrite decide_False by (intros [_ H%bool_decide_eq_true]; done). rewrite decide_False by done.
    eexists x', _, p, d, d'. do 4 (split; [done|]). split; [|done]. split; try done. by exists d'.
Qed.

(** ** Acknowledgements *)

Lemma clear_slots_ok : ∀ cnt slots first, 0 ≤ first → length slots = 100%nat →
  ∃ slots', foldM clear_slot slots (seqZ first (Z.of_nat cnt)) = Ok slots' ∧ length slots' = 100%nat ∧
    ∀ j, slots' !! j = slots !! j ∨ (slots' !! j = Some None ∧ ∃ i, first ≤ i < first + Z.of_nat cnt ∧ Z.to_nat (i mod 100) = j).
Proof using.
  induction cnt as [|cnt IH]; intros slots first Hf Hl; [exists slots; split; [done|]; split; [done|by left]|].
  rewrite seqZ_S, foldM_app. destruct (IH slots first Hf Hl) as (s1 & -> & Hl1 & Hs1). cbn [mbind res_bind foldM].
  unfold clear_slot, MAX_WIN_SIZE. rewrite Z.rem_mod_nonneg by lia. set (i := first + Z.of_nat cnt).
  assert (0 ≤ i mod 100 < 100) as Hi by (apply Z.mod_pos_bound; lia).
  destruct (vgetz_in s1 (i mod 100)) as (y & _ & ->); [lia|]. cbn [mbind res_bind].
  eexists. split; [done|]. split; [by rewrite length_insert|]. intros j.
  destruct (decide (j = Z.to_nat (i mod 100))) as [->|Hne].
  - right. split; [by rewrite list_lookup_insert_eq by lia|]. exists i. unfold i. split; [lia|done].
  - rewrite list_lookup_insert_ne by done. destruct (Hs1 j) as [?|[? (i' & ? & ?)]]; [by left|right]. split; [done|].
    exists i'. split; [lia|done].
Qed.

(** The socket after an acknowledgement of the first [a] messages. *)
Definition acked_upto (d d' : DAGinfo) (base a nsent : nat) : Prop :=
  ∃ slots slots', w_sent_pkt (di_win d) = Some slots ∧ w_sent_pkt (di_win d') = Some slots' ∧
    (∀ j, slots' !! j = slots !! j ∨ (slots' !! j = Some None ∧ ∃ i, Z.of_nat base ≤ i < Z.of_nat a ∧ Z.to_nat (i mod 100) = j)) ∧
    (if decide (base < a)%nat then t_timer_on (di_wait d') = bool_decide (a ≠ nsent) ∧ t_dataack_waiting (di_wait d') = bool_decide (a ≠ nsent)
     else di_wait d' = di_wait d).

Lemma ack_ok x port me peer sent base n b b' a dt now : endpoint x port me peer sent base n →
  seg b me peer ACK 0 (Z.of_nat a) dt → arrives b b' me → (a ≤ length sent)%nat →
  ∃ x' d d', receive' x b' now = Ok (x', []) ∧ endpoint x' port me peer sent a n ∧
    portToDAGinfo x !! port = Some d ∧ portToDAGinfo x' !! port = Some d' ∧ acked_upto d d' base a (length sent).
Proof using Hentries Hfresh.
  intros Hep Hseg Harr Ha. destruct (segment_incoming entries fresh Hentries Hfresh _ _ _ _ _ _ _ _ Hseg Harr)
    as (dst & src & o & Hin & Hdst & Hsrc & Hn & Hpl & Hdata).
  pose proof Hep as [Hport Hpair [act Hact] _ (d & Hd & Hso & Harm) _].
  pose proof (so_few _ _ _ _ _ _ Hso) as (Hf1 & Hf2 & Hf3). assert (Z.of_nat a < 2 ^ 31) as Ha' by lia.
  unfold ProcessNetworkPacket. rewrite Hin. cbn [mbind res_bind]. rewrite Hn. cbn [mbind res_bind in_dst in_src in_th].
  rewrite decide_False by (unfold CLICK_XIA_NXT_TRN, CLICK_XIA_NXT_XCMP; lia).
  destruct (transport_fields XSOCK_STREAM ACK 0 (Z.of_nat a) 0 o 24) as (-> & -> & _ & Hackf & _);
    [unfold XSOCK_STREAM, ACK; lia..|unfold is_u32; lia|unfold is_u32; lia|lia|]. cbn [mbind res_bind]. rewrite Hpair.
  rewrite (decide_True (P := XSOCK_STREAM = XSOCK_STREAM)), (decide_False (P := ACK = SYN)), (decide_False (P := ACK = SYNACK)),
    (decide_False (P := ACK = DATA)), (decide_True (P := ACK = ACK)) by (unfold SYN, SYNACK, DATA, ACK; lia).
  unfold process_ack. rewrite Hact. unfold info_at. rewrite Hd. cbn [mbind res_bind in_th in_src_path]. rewrite Hackf. cbn [mbind res_bind].
  cbn [set_dst_path with_addr di_win]. rewrite (so_base _ _ _ _ _ _ Hso). cbn [init mbind res_bind].
  destruct (so_slots _ _ _ _ _ _ Hso) as (slots & Hslots & Hl & Hst). rewrite Hslots. cbn [init mbind res_bind].
  unfold i32. rewrite !wrapS_small by lia.
  assert (∃ slots', foldM clear_slot slots (seqZ (Z.of_nat base) (Z.of_nat a - Z.of_nat base)) = Ok slots' ∧ length slots' = 100%nat ∧
    ∀ j, slots' !! j = slots !! j ∨ (slots' !! j = Some None ∧ ∃ i, Z.of_nat base ≤ i < Z.of_nat a ∧ Z.to_nat (i mod 100) = j))
    as (slots' & -> & Hl' & Hs').
  { destruct (clear_slots_ok (a - base) slots (Z.of_nat base) ltac:(lia) Hl) as (s' & Hrun & Hl' & Hs').
    exists s'. replace (seqZ (Z.of_nat base) (Z.of_nat a - Z.of_nat base)) with (seqZ (Z.of_nat base) (Z.of_nat (a - base))).
    - split; [done|]. split; [done|]. intros j. destruct (Hs' j) as [?|[? (i & ? & ?)]]; [by left|right]. split; [done|]. exists i. split; [lia|done].
    - unfold seqZ. f_equal. f_equal. lia. }
  cbn [mbind res_bind]. rewrite (so_next _ _ _ _ _ _ Hso). cbn [init mbind res_bind]. unfold finish.
  rewrite decide_False by (by intros [_ ?]). rewrite decide_False by done.
  assert (u32 (Z.of_nat a) = Z.of_nat a) as Hua by (apply wrapU_small; lia). rewrite Hua.
  eexists _, d, _. split; [done|]. split; [|split; [done|split; [by unfold set_info, with_infos; cbn [portToDAGinfo]; simplify_map_eq|]]].
  - eapply endpoint_update; [done|repeat (case_match || unfold reschedule); done|repeat (case_match || unfold reschedule); done| | |].
    { unfold set_info, with_infos, reschedule. cbn [portToDAGinfo]. f_equal. by repeat case_match. }
    2:{ destruct (bool_decide (Z.of_nat base < Z.of_nat a)); [|exact Harm]. intros Hon.
        by apply (reschedule_armed _ (with_wait (with_win (set_dst_path d src) _) (mkWaits _ _ _ _ _ _ _ _)) _). }
    destruct Hso. split; cbn [with_wait with_win set_dst_path with_addr di_addr di_win di_wait di_chunks a_isConnected a_initialized
      a_src_path a_dst_path w_ack_num w_seq_num w_next_seqnum w_base w_expected_seqnum w_sent_pkt w_num_retransmit_tries]; try done.
    + exists slots'. split; [done|]. split; [done|]. intros i p Hi. destruct (Hs' i) as [E|[E _]]; rewrite E in Hi; [by apply (Hst i)|done].
    + case_match; [by eexists|done].
    + intros ->. simpl in Ha. rewrite bool_decide_false by lia. by apply so_quiet0.
    + by case_match.
    + by case_match.
    + by case_match.
  - exists slots, slots'. split; [done|]. split; [done|]. split; [done|].
    cbn [with_wait with_win set_dst_path with_addr di_wait]. case_decide as Hlt.
    + rewrite bool_decide_true by lia. cbn [t_timer_on t_dataack_waiting].
      assert (negb (bool_decide (Z.of_nat a = Z.of_nat (length sent))) = bool_decide (a ≠ length sent)) as ->; [|done].
      rewrite <-bool_decide_not. apply bool_decide_ext. lia.
    + rewrite bool_decide_false by lia. done.
Qed.

(** ** The timer *)

Abbreviation run_timer' := (run_timer query_xid query_ip entries fresh fresh_nodes port_order cid_order).

(** A copy carries the same segment. *)
Definition resent (me peer : Xid) (q p : list Z) : Prop :=
  ∀ seq ack data, seg q peer me DATA seq ack data → seg p peer me DATA seq ack data.

(** The packets stored for a range of numbers. *)
Definition range_slots (slots : list (option (list Z))) (l : list Z) : list (list Z) :=
  omap (λ i, mjoin (slots !! Z.to_nat (i mod MAX_WIN_SIZE))) l.

Lemma set_src_id d : set_src_path d (a_src_path (di_addr d)) = d.
Proof using. by destruct d as [[] [] [] []]. Qed.

Lemma resend_ok x me peer slots : home x me → length slots = 100%nat →
  (∀ j p, slots !! j = Some (Some p) → ∃ seq ack data, seg p peer me DATA seq ack data) →
  ∀ l d out, addresses (a_src_path (di_addr d)) me → addresses (a_dst_path (di_addr d)) peer →
  ∃ src' ps, foldM (resend query_xid query_ip entries fresh fresh_nodes x slots) (d, out) l = Ok (set_src_path d src', out ++ map ToNetwork ps) ∧
    addresses src' me ∧ Forall2 (resent me peer) (range_slots slots l) ps.
Proof using Hentries Hfresh Hnodes.
  intros Hhome Hl Hseg. induction l as [|i l IH]; intros d out Hs Hd; cbn [foldM].
  { exists (a_src_path (di_addr d)), []. rewrite set_src_id, app_nil_r. done. }
  unfold resend at 2. assert (0 ≤ i mod MAX_WIN_SIZE < 100) as Hi by (apply Z.mod_pos_bound; done).
  destruct (vgetz_in slots (i mod MAX_WIN_SIZE)) as (o & Ho & ->); [lia|]. cbn [mbind res_bind].
  unfold range_slots. cbn [omap list_omap]. rewrite Ho. destruct o as [q|]; cbn [mjoin option_join]; [|by apply IH].
  destruct (Hseg _ _ Ho) as (seq & ack & data & Hq). cbn [fst snd].
  destruct (relocate_ok x _ me Hhome Hs) as (src1 & Hrel & Hs1).
  destruct (copy_packet_ok entries fresh fresh_nodes Hentries Hfresh Hnodes query_xid query_ip x q d peer me DATA seq ack data peer me src1 Hq Hrel Hs1 Hd)
    as (p & Hcp & Hp). rewrite Hcp. cbn [mbind res_bind fst snd].
  destruct (IH (set_src_path d src1) (out ++ [ToNetwork p]) Hs1 Hd) as (src2 & ps & -> & Hs2 & Hf).
  exists src2, (p :: ps). rewrite <-app_assoc. split; [done|]. split; [done|]. constructor; [|done].
  intros seq' ack' data' Hq'. destruct (copy_packet_ok entries fresh fresh_nodes Hentries Hfresh Hnodes query_xid query_ip x q d peer me DATA seq' ack' data' peer me src1 Hq' Hrel Hs1 Hd)
    as (p' & Hcp' & Hp'). congruence.
Qed.

(** The socket after its time was over: the packets [ps] were sent. *)
Definition timed_out (d d' : DAGinfo) (me peer : Xid) (base nsent : nat) (now : Z) (ps : list (list Z)) : Prop :=
  ∃ slots, w_sent_pkt (di_win d) = Some slots ∧ w_sent_pkt (di_win d') = Some slots ∧
    (if decide (t_timer_on (di_wait d) = true ∧ t_dataack_waiting (di_wait d) = true ∧ t_expiry (di_wait d) ≤ now) then
       ∃ tries, w_num_retransmit_tries (di_win d) = Some tries ∧ Forall2 (resent me peer) (if decide (tries < MAX_RETRANSMIT_TRIES)
         then range_slots slots (seqZ (Z.of_nat base) (Z.of_nat nsent - Z.of_nat base)) else []) ps ∧
       t_timer_on (di_wait d') = bool_decide (ps ≠ []) ∧ t_dataack_waiting (di_wait d') = bool_decide (ps ≠ [])
     else ps = [] ∧ d' = d).

Lemma data_timeout_ok x d me peer sent base n now : home x me → socket d me peer sent base n → sent ≠ [] →
  ∃ d' ps, data_timeout query_xid query_ip entries fresh fresh_nodes x d now = Ok (d', map ToNetwork ps) ∧
    socket d' me peer sent base n ∧ ∃ slots tries, w_sent_pkt (di_win d) = Some slots ∧ w_sent_pkt (di_win d') = Some slots ∧
    w_num_retransmit_tries (di_win d) = Some tries ∧
    Forall2 (resent me peer) (if decide (tries < MAX_RETRANSMIT_TRIES)
      then range_slots slots (seqZ (Z.of_nat base) (Z.of_nat (length sent) - Z.of_nat base)) else []) ps ∧
    t_timer_on (di_wait d') = bool_decide (ps ≠ []) ∧ t_dataack_waiting (di_wait d') = bool_decide (ps ≠ []) ∧
    (t_timer_on (di_wait d') = true → now < t_expiry (di_wait d')).
Proof using Hentries Hfresh Hnodes.
  intros Hhome Hso Hne. destruct (so_slots _ _ _ _ _ _ Hso) as (slots & Hslots & Hl & Hst).
  destruct (so_tries _ _ _ _ _ _ Hso Hne) as [tries Htries].
  destruct (resend_ok x me peer slots Hhome Hl) with (l := seqZ (Z.of_nat base) (Z.of_nat (length sent) - Z.of_nat base)) (d := d) (out := @nil output)
    as (src' & ps & Hrun & Hs' & Hps); [|apply Hso..|].
  { intros j p Hj. destruct (Hst j p Hj) as (k & ack & data & _ & Hseg). eauto. }
  assert (∃ src'' ps', (if decide (tries < MAX_RETRANSMIT_TRIES) then
      base ← init (w_base (di_win d)); next ← init (w_next_seqnum (di_win d)); sent ← init (w_sent_pkt (di_win d));
      foldM (resend query_xid query_ip entries fresh fresh_nodes x sent) (d, []) (seqZ base (next - base)) else Ok (d, []))
      = Ok (set_src_path d src'', map ToNetwork ps') ∧ addresses src'' me ∧
      Forall2 (resent me peer) (if decide (tries < MAX_RETRANSMIT_TRIES)
        then range_slots slots (seqZ (Z.of_nat base) (Z.of_nat (length sent) - Z.of_nat base)) else []) ps')
    as (src2 & ps2 & Hr & Hs2 & Hf2).
  { case_decide.
    - rewrite (so_base _ _ _ _ _ _ Hso), (so_next _ _ _ _ _ _ Hso), Hslots. cbn [init mbind res_bind]. rewrite Hrun. by exists src', ps.
    - exists (a_src_path (di_addr d)), []. rewrite set_src_id. split; [done|]. split; [apply Hso|done]. }
  unfold data_timeout. rewrite Htries. cbn [init mbind res_bind]. rewrite Hr. cbn [mbind res_bind].
  assert (bool_decide (map ToNetwork ps2 ≠ []) = bool_decide (ps2 ≠ [])) as Hb by (apply bool_decide_ext; by destruct ps2).
  rewrite Hb. eexists _, ps2. split; [done|]. split; [|exists slots, tries; split_and!; try done].
  2:{ cbn [with_wait di_wait t_timer_on t_expiry]. intros ->. unfold make_msec, ACK_DELAY. lia. }
  destruct Hso. split; cbn [with_wait with_win set_src_path with_addr di_addr di_win di_wait di_chunks a_isConnected a_initialized
    a_src_path a_dst_path w_ack_num w_seq_num w_next_seqnum w_base w_expected_seqnum w_sent_pkt w_num_retransmit_tries
    t_synack_waiting t_teardown_waiting]; try done.
Qed.

Lemma cid_order_empty : cid_order ∅ = [].
Proof using Hcids. apply Permutation_nil. symmetry. etrans; [apply Hcids|]. by rewrite map_to_list_empty. Qed.

Lemma set_info_id x p d : portToDAGinfo x !! p = Some d → set_info x p d = x.
Proof using. intros H. unfold set_info. rewrite insert_id by done. by destruct x. Qed.

Abbreviation timeout' := (socket_timeout query_xid query_ip entries fresh fresh_nodes cid_order).

Lemma idle_timeout now cid_now x earliest out p d : portToDAGinfo x !! p = Some d → idle d →
  timeout' now cid_now (x, earliest, out) p = Ok (x, earliest, out).
Proof using Hcids.
  intros Hp [Ht Hc]. unfold socket_timeout, info_at. rewrite Hp. cbn [mbind res_bind]. rewrite Ht. cbn [mbind res_bind].
  rewrite Ht, Hc, cid_order_empty. cbn [foldM mbind res_bind]. unfold earlier. rewrite !decide_False by (by intros [? _]).
  by rewrite set_info_id, !app_nil_r.
Qed.

Lemma idle_timeouts now cid_now l : ∀ x earliest out, (∀ p, p ∈ l → ∃ d, portToDAGinfo x !! p = Some d ∧ idle d) →
  foldM (timeout' now cid_now) (x, earliest, out) l = Ok (x, earliest, out).
Proof using Hcids.
  induction l as [|p l IH]; intros x earliest out Hl; [done|]. cbn [foldM]. destruct (Hl p ltac:(by left)) as (d & Hd & Hi).
  rewrite (idle_timeout _ _ _ _ _ _ d) by done. cbn [mbind res_bind]. apply IH. intros q Hq. apply Hl. by right.
Qed.

Lemma socket_timeout_ok now cid_now x earliest out port d me peer sent base n : home x me → portToDAGinfo x !! port = Some d →
  socket d me peer sent base n →
  ∃ d' ps e, timeout' now cid_now (x, earliest, out) port = Ok (set_info x port d', e, out ++ map ToNetwork ps) ∧
    socket d' me peer sent base n ∧ timed_out d d' me peer base (length sent) now ps ∧
    (t_timer_on (di_wait d') = true → earliest = now → now < e ≤ t_expiry (di_wait d')).
Proof using Hentries Hfresh Hnodes Hcids.
  intros Hhome Hd Hso. unfold socket_timeout, info_at. rewrite Hd. cbn [mbind res_bind].
  assert (∃ d' ps, (if t_timer_on (di_wait d) then
      if decide (t_synack_waiting (di_wait d) = true ∧ t_expiry (di_wait d) ≤ now) then syn_timeout query_xid query_ip entries fresh fresh_nodes x d now
      else if decide (t_dataack_waiting (di_wait d) = true ∧ t_expiry (di_wait d) ≤ now) then data_timeout query_xid query_ip entries fresh fresh_nodes x d now
      else if decide (t_teardown_waiting (di_wait d) = true ∧ t_teardown_expiry (di_wait d) ≤ now) then Ub NullDeref else Ok (d, [])
      else Ok (d, [])) = Ok (d', map ToNetwork ps) ∧ socket d' me peer sent base n ∧ timed_out d d' me peer base (length sent) now ps ∧
      (t_timer_on (di_wait d') = true → now < t_expiry (di_wait d')))
    as (d' & ps & -> & Hso' & Hto & Hon).
  { destruct (so_slots _ _ _ _ _ _ Hso) as (slots & Hslots & _).
    rewrite (so_synack _ _ _ _ _ _ Hso), (so_teardown _ _ _ _ _ _ Hso). rewrite (decide_False (P := false = true ∧ t_expiry (di_wait d) ≤ now)) by (by intros [? _]).
    destruct (t_timer_on (di_wait d)) eqn:Ht; [destruct (decide (t_dataack_waiting (di_wait d) = true ∧ t_expiry (di_wait d) ≤ now)) as [Hdec|Hdec]|].
    - assert (sent ≠ []) as Hne by (intros ->; destruct Hdec; rewrite (so_quiet _ _ _ _ _ _ Hso eq_refl) in *; done).
      destruct (data_timeout_ok x d me peer sent base n now Hhome Hso Hne) as (d' & ps & Hrun & Hso' & sl & tr & H1 & H2 & H3 & H4 & H5 & H6 & H7).
      exists d', ps. split; [done|]. split; [done|]. split; [|done]. exists sl. split_and!; try done. rewrite decide_True by done. by exists tr.
    - rewrite decide_False by (by intros [? _]). exists d, []. split; [done|]. split; [done|].
      assert (now < t_expiry (di_wait d)) as Hlt by (destruct (decide (t_expiry (di_wait d) ≤ now)); [|lia]; destruct Hdec; split; [by apply Hso|done]).
      split; [|done]. exists slots. split_and!; try done. rewrite decide_False by (intros (_ & ? & ?); by apply Hdec). done.
    - exists d, []. split; [done|]. split; [done|]. split; [|congruence]. exists slots. split_and!; try done.
      rewrite decide_False by (intros (? & _); congruence). done. }
  cbn [mbind res_bind]. rewrite (so_chunks _ _ _ _ _ _ Hso'), cid_order_empty. cbn [foldM mbind res_bind].
  exists d', ps. eexists. rewrite app_nil_r. do 3 (split; [done|]). intros Ht ->. specialize (Hon Ht). rewrite Ht. unfold earlier.
  rewrite (decide_True (P := true = true ∧ now < t_expiry (di_wait d') ∧ _)) by (split_and!; [done..|by right]). case_decide; lia.
Qed.

(** The timer visits every socket once. *)
Lemma ports_split m port d : m !! port = Some d → ∃ l1 l2, port_order m = l1 ++ port :: l2 ∧
  ∀ p, p ∈ l1 ∨ p ∈ l2 → p ≠ port ∧ ∃ dp, m !! p = Some dp.
Proof using Hports.
  intros Hd. assert (port ∈ port_order m) as (l1 & l2 & Hl)%list_elem_of_split.
  { rewrite Hports. apply list_elem_of_fmap. exists (port, d). split; [done|]. by apply elem_of_map_to_list. }
  assert (NoDup (l1 ++ port :: l2)) as Hnd by (rewrite <-Hl, Hports; apply NoDup_fst_map_to_list).
  exists l1, l2. split; [done|]. intros p Hp. split.
  - intros ->. apply NoDup_app in Hnd as (_ & H1 & H2). apply NoDup_cons in H2 as [H2 _]. destruct Hp as [Hp|Hp]; [|done].
    apply (H1 port Hp). by left.
  - assert (p ∈ port_order m) as Hin by (rewrite Hl; apply elem_of_app; destruct Hp; [by left|right; by right]). rewrite Hports in Hin.
    apply list_elem_of_fmap in Hin as ([? dp] & -> & Hin). exists dp. by apply elem_of_map_to_list in Hin.
Qed.

Lemma timer_ok x port me peer sent base n now cid_now : endpoint x port me peer sent base n →
  ∃ x' ps d d', run_timer' x now cid_now = Ok (x', map ToNetwork ps) ∧ endpoint x' port me peer sent base n ∧
    portToDAGinfo x !! port = Some d ∧ portToDAGinfo x' !! port = Some d' ∧ timed_out d d' me peer base (length sent) now ps.
Proof using Hentries Hfresh Hnodes Hports Hcids.
  intros Hep. pose proof Hep as [_ _ _ Hhome (d & Hd & Hso & Harm) Hidle]. unfold run_timer. set (x0 := with_timer x None).
  destruct (ports_split (portToDAGinfo x0) port d Hd) as (l1 & l2 & Hl & Hne).
  assert (∀ p, p ∈ l1 ∨ p ∈ l2 → ∃ dp, portToDAGinfo x !! p = Some dp ∧ idle dp ∧ p ≠ port) as Hrest.
  { intros p Hp. destruct (Hne p Hp) as (Hpn & dp & Hdp). exists dp. split; [done|]. split; [by apply (Hidle p)|done]. }
  rewrite Hl, foldM_app. rewrite idle_timeouts by (intros p Hp; destruct (Hrest p ltac:(by left)) as (dp & ? & ? & _); by exists dp).
  cbn [mbind res_bind foldM].
  destruct (socket_timeout_ok now cid_now x0 now [] port d me peer sent base n Hhome Hd Hso) as (d' & ps & e & -> & Hso' & Hto & He).
  cbn [mbind res_bind]. rewrite idle_timeouts.
  2:{ intros p Hp. destruct (Hrest p ltac:(by right)) as (dp & ? & ? & ?). exists dp. split; [|done].
      unfold set_info, with_infos. cbn [portToDAGinfo]. by rewrite lookup_insert_ne. }
  cbn [mbind res_bind app]. eexists _, ps, d, d'. split; [done|]. split; [|split; [done|split; [|done]]].
  - eapply endpoint_update; [done|by case_decide..|by case_decide|done|]. intros Ht. destruct (He Ht eq_refl) as [He1 He2].
    rewrite decide_True by done. by exists e.
  - case_decide; unfold set_info, with_infos, with_timer; cbn [portToDAGinfo]; by simplify_map_eq.
Qed.
End socket.

(** ** A host by evaluation *)

Definition demo_entries (m : kvmap) : list (Z * list Z) := map_to_list m.
Definition demo_fresh (n : nat) : list Z := replicate n 0.
Definition demo_nodes (n : Z) : list xid_node := replicate (Z.to_nat n) (mkXidNode Xid_undef []).
Definition demo_ports (m : gmap Z DAGinfo) : list Z := (map_to_list m).*1.
Definition demo_cids (m : gmap Xid bool) : list Xid := (map_to_list m).*1.

Lemma demo_laws : (∀ m, demo_entries m ≡ₚ map_to_list m) ∧ (∀ n, length (demo_fresh n) = n) ∧
  (∀ n, 0 ≤ n → Z.of_nat (length (demo_nodes n)) = n) ∧ (∀ m, demo_ports m ≡ₚ (map_to_list m).*1) ∧
  (∀ m, demo_cids m ≡ₚ (map_to_list m).*1).
Proof.
  split_and!; try done; unfold demo_fresh, demo_nodes; intros; rewrite length_replicate; [done|lia].
Qed.

Definition demo_xid (type k : Z) : Xid := mkXid (htonl type) (replicate 20 k).
Definition demo_addr (k : Z) : XIAPath :=
  mkPath [mkPNode Xid_undef [1]%nat npos; mkPNode (demo_xid CLICK_XIA_XID_TYPE_AD k) [2]%nat npos;
    mkPNode (demo_xid CLICK_XIA_XID_TYPE_HID k) [] npos] 0 2.
Definition demo_service (k : Z) : XIAPath :=
  mkPath [mkPNode Xid_undef [1]%nat npos; mkPNode (demo_xid CLICK_XIA_XID_TYPE_AD k) [2]%nat npos;
    mkPNode (demo_xid CLICK_XIA_XID_TYPE_HID k) [3]%nat npos; mkPNode (demo_xid CLICK_XIA_XID_TYPE_SID k) [] npos] 0 3.
Definition demo_sid (k : Z) : Xid := demo_xid CLICK_XIA_XID_TYPE_SID k.

Definition demo_table : XIAXIDRouteTable := mkTable ∅ (mkRoute (-1) 0 None) 1 4 XIAPath_reset Xid_undef.
Definition demo_local (k : Z) : LocalNode :=
  mkLocal Xid_undef (demo_xid CLICK_XIA_XID_TYPE_HID k) (demo_addr k) Xid_undef Xid_undef false XIAPath_reset.

(** The host number [k] with a stream to the host number [j] on port 1024. *)
Definition demo_socket (k j : Z) : DAGinfo :=
  mkInfo (mkAddr 1024 (demo_service k) (demo_service j) None None None true None true true None [] [])
    (mkWin (Some 0) (Some (replicate 100 None)) (Some 0) (Some 0) (Some 0) (Some 0) (Some 0))
    (di_wait DAGinfo_new) (di_chunks DAGinfo_new).
Definition demo_host (k j : Z) : XTRANSPORT :=
  mkXT None (demo_local k) (mkTables {[demo_sid k := 1024]} {[(demo_sid k, demo_sid j) := 1024]} ∅ {[1024 := true]} ∅ ∅ {[1024 := 250]})
    {[1024 := demo_socket k j]} [] [] demo_table.

Lemma demo_addresses : addresses (demo_service 1) (demo_sid 1) ∧ addresses (demo_service 2) (demo_sid 2).
Proof. split; apply addresses_checked; by vm_compute. Qed.

Lemma demo_homes x : (xt_node x = demo_local 1 → home (λ _, None) (λ _, None) x (demo_sid 1)) ∧
  (xt_node x = demo_local 2 → home (λ _, None) (λ _, None) x (demo_sid 2)).
Proof.
  split; intros Hx; unfold home, local_path; rewrite Hx; eexists; (split; [by vm_compute|]); apply addresses_checked; by vm_compute.
Qed.

Lemma demo_endpoint k j : addresses (demo_service k) (demo_sid k) → addresses (demo_service j) (demo_sid j) →
  home (λ _, None) (λ _, None) (demo_host k j) (demo_sid k) →
  endpoint (λ _, None) (λ _, None) demo_entries demo_fresh (demo_host k j) 1024 (demo_sid k) (demo_sid j) [] 0 0.
Proof.
  intros Hk Hj Hh. split; try done.
  - unfold pair_port. cbn [demo_host xt_tables XIDpairToPort]. by rewrite lookup_singleton_eq.
  - exists (demo_socket k j). cbn [demo_host portToDAGinfo]. rewrite lookup_singleton_eq. split; [done|]. split; [|done].
    split; try done. eexists. split; [done|]. split; [done|].
    intros i p Hi. by apply lookup_replicate in Hi as [? _].
  - intros p d. cbn [demo_host portToDAGinfo]. intros Hp Hne. by rewrite lookup_singleton_ne in Hp.
Qed.
