(* ===== verification/TransportStream.v ===== *)
(** * TransportStream: two hosts with a stream between them

    The two ends of an established stream, and the packets that were sent and
    may arrive any number of times, in any order, or never; every packet that
    arrives was carried by routers ([Carriage]).  What one application receives
    is what the other one has sent, in order; and a timeout whose packets arrive
    brings everything that is missing. *)

From Stdlib Require Import ZArith Lia Ascii String.
From stdpp Require Import base gmap sets list.
From S2P Require Import Prelude Text ConfParse XiaPath XiaPathOrder XiaPathCodec XidText XiaPathText XiaHeader PathCopies ExtHeader RouteTable Elements HeaderView PacketRoute PacketRouteSpec PacketRouteWalk XTransport TransportWire Carriage TransportSocket.

Local Open Scope Z_scope.

(** ** The system *)

Inductive side := Caller | Callee.
#[global] Instance side_eq_dec : EqDecision side.
Proof. solve_decision. Defined.

Definition other (i : side) : side := match i with Caller => Callee | Callee => Caller end.

Lemma other_other i : other (other i) = i.
Proof. by destruct i. Qed.
Lemma other_ne i : other i ≠ i.
Proof. by destruct i. Qed.
Lemma side_cases i j : j = i ∨ j = other i.
Proof. destruct i, j; auto. Qed.

Definition upd {A} (f : side → A) (i : side) (v : A) : side → A := λ j, if decide (j = i) then v else f j.

Lemma upd_eq {A} (f : side → A) i v : upd f i v i = v.
Proof. unfold upd. by rewrite decide_True. Qed.
Lemma upd_ne {A} (f : side → A) i j v : j ≠ i → upd f i v j = f j.
Proof. intros. unfold upd. by rewrite decide_False. Qed.

(** The hosts, what was sent into the network, and what the applications have
    sent and received. *)
Record system := mkSystem {
  host : side → XTRANSPORT;
  net : list (list Z);
  sent : side → list (list Z);
  rcvd : side → list (list Z) }.

Inductive action :=
  | Send (i : side) (data : list Z) (now : Z)
  | Timeout (i : side) (now : Z) (cid_now : Xid → Z)
  | Receive (i : side) (b : list Z) (now : Z)
  | Move (i : side) (addr : XIAPath).

Definition actor (e : action) : side :=
  match e with Send i _ _ | Timeout i _ _ | Receive i _ _ | Move i _ => i end.

Definition messages (e : action) : list (list Z) := match e with Send _ data _ => [data] | _ => [] end.

(** The first number that is not acknowledged, as the socket has it. *)
Definition window_base (x : XTRANSPORT) (port : Z) : Z := default 0 (portToDAGinfo x !! port ≫= λ d, w_base (di_win d)).

(** A packet to [x] that arrives there. *)
Definition carried_to (x : Xid) (b b' : list Z) : Prop :=
  (∃ q, dst_path b = Ok q ∧ destination_xid q = Ok x) ∧ carried b b' ∧ lands b' x.

Lemma mod_window a b : 0 ≤ a < b → b - a < 100 → Z.to_nat (a mod MAX_WIN_SIZE) ≠ Z.to_nat (b mod MAX_WIN_SIZE).
Proof.
  unfold MAX_WIN_SIZE. intros Hab Hlt Heq. pose proof (Z.mod_pos_bound a 100 ltac:(lia)). pose proof (Z.mod_pos_bound b 100 ltac:(lia)).
  pose proof (Z.div_mod a 100 ltac:(lia)). pose proof (Z.div_mod b 100 ltac:(lia)). lia.
Qed.

Lemma prefix_extend {A} (l1 l2 : list A) x : l1 `prefix_of` l2 → l2 !! length l1 = Some x → l1 ++ [x] `prefix_of` l2.
Proof.
  intros [k ->] Hx. rewrite lookup_app_r, Nat.sub_diag in Hx by lia. destruct k as [|y k]; [done|]. injection Hx as ->.
  exists k. by rewrite <-app_assoc.
Qed.

Section stream.
Context (query_xid : str → option Xid) (query_ip : str → option (list Z)).
Context (entries : kvmap → list (Z * list Z)) (fresh : nat → list Z) (fresh_nodes : Z → list xid_node).
Context (port_order : gmap Z DAGinfo → list Z) (cid_order : gmap Xid bool → list Xid).
Context (sid : side → Xid) (sport : side → Z).

(** What a host does. *)
Definition handle (s : system) (e : action) : res (XTRANSPORT * list output) :=
  match e with
  | Send i data now => Xsend query_xid query_ip entries fresh fresh_nodes (host s i) (sport i) data now
  | Timeout i now cid_now => run_timer query_xid query_ip entries fresh fresh_nodes port_order cid_order (host s i) now cid_now
  | Receive i b now => ProcessNetworkPacket entries fresh fresh_nodes (host s i) b now
  | Move i addr => x ← write_move (host s i) addr; Ok (x, [])
  end.

Definition run (s : system) (e : action) : res system :=
  r ← handle s e;
  let i := actor e in
  Ok (mkSystem (upd (host s) i r.1) (net s ++ packets r.2) (upd (sent s) i (sent s i ++ messages e))
    (upd (rcvd s) i (rcvd s i ++ delivered (sport i) r.2))).

(** The packets [l] arrive at [i], one after the other. *)
Definition receives (s : system) (i : side) (l : list (list Z)) (now : Z) : res system :=
  foldM (λ s b, run s (Receive i b now)) s l.

(** What may happen: messages that fit in a packet, packets from the network, and
    moves to an address that makes a path for the service. *)
Definition admissible (s : system) (e : action) : Prop :=
  match e with
  | Send i data _ => Z.of_nat (length data) + 24 < 65536 ∧ Forall is_byte data ∧ Z.of_nat (length (sent s i)) < 2 ^ 31 - 2
  | Timeout _ _ _ => True
  | Receive i b' _ => ∃ b, b ∈ net s ∧ carried_to (sid i) b b'
  | Move i addr => ∃ x, write_move (host s i) addr = Ok x ∧ home query_xid query_ip x (sid i)
  end.

(** What keeps the window in order: no more than 100 messages wait for their
    acknowledgement, acknowledgements are not overtaken, and the sender has not
    given up. *)
Definition in_flow (s : system) (e : action) : Prop :=
  match e with
  | Send i _ _ => Z.of_nat (length (sent s i)) < window_base (host s i) (sport i) + MAX_WIN_SIZE
  | Timeout i _ _ => ∀ d t, portToDAGinfo (host s i) !! sport i = Some d → w_num_retransmit_tries (di_win d) = Some t → t < MAX_RETRANSMIT_TRIES
  | Receive i b' _ => ∀ h a, XIAGenericExtHeader_of b' = Ok h → th_pkt_info h = Ok ACK → th_ack_num h = Ok a →
      window_base (host s i) (sport i) ≤ a
  | Move _ _ => True
  end.

Inductive reached (may : system → action → Prop) (s0 : system) : system → Prop :=
  | reached_init : reached may s0 s0
  | reached_step s e s' : reached may s0 s → may s e → run s e = Ok s' → reached may s0 s'.

(** The stream is established, and nothing was sent. *)
Definition established (s : system) : Prop :=
  net s = [] ∧ ∀ i, sent s i = [] ∧ rcvd s i = [] ∧
    endpoint query_xid query_ip entries fresh (host s i) (sport i) (sid i) (sid (other i)) [] 0 0.

Context (Hentries : ∀ m, entries m ≡ₚ map_to_list m) (Hfresh : ∀ n, length (fresh n) = n).
Context (Hnodes : ∀ n, 0 ≤ n → Z.of_nat (length (fresh_nodes n)) = n).
Context (Hports : ∀ m, port_order m ≡ₚ (map_to_list m).*1) (Hcids : ∀ m, cid_order m ≡ₚ (map_to_list m).*1).
Context (Hsid : sid Caller ≠ sid Callee).

Abbreviation seg := (segment entries fresh).
Abbreviation end_of := (endpoint query_xid query_ip entries fresh).

(** ** Invariants *)

(** A packet that [i] has sent: a message of the stream, or an acknowledgement of
    messages it has received. *)
Definition packet_of (s : system) (i : side) (b : list Z) : Prop :=
  stored entries fresh (sid i) (sid (other i)) (sent s i) b ∨
  ∃ (n : nat) dt, (n ≤ length (rcvd s i))%nat ∧ seg b (sid (other i)) (sid i) ACK 0 (Z.of_nat n) dt.

Definition good (s : system) (base : side → nat) (i : side) : Prop :=
  end_of (host s i) (sport i) (sid i) (sid (other i)) (sent s i) (base i) (length (rcvd s i)) ∧
  rcvd s i `prefix_of` sent s (other i) ∧ Z.of_nat (length (sent s i)) ≤ 2 ^ 31 - 2.

Definition inv (s : system) (base : side → nat) : Prop :=
  (∀ i, good s base i) ∧ ∀ b, b ∈ net s → ∃ i, packet_of s i b.

(** The messages that wait for an acknowledgement are in their slots, and the
    socket waits for the timer. *)
Definition window (x : XTRANSPORT) (port : Z) (me peer : Xid) (sent : list (list Z)) (base : nat) : Prop :=
  ∃ d slots, portToDAGinfo x !! port = Some d ∧ w_sent_pkt (di_win d) = Some slots ∧
    (∀ k data, (base ≤ k)%nat → sent !! k = Some data →
       ∃ q ack, slots !! Z.to_nat (Z.of_nat k mod MAX_WIN_SIZE) = Some (Some q) ∧ seg q peer me DATA (Z.of_nat k) ack data) ∧
    ((base < length sent)%nat → t_timer_on (di_wait d) = true ∧ t_dataack_waiting (di_wait d) = true).

Definition flow_at (s : system) (base : side → nat) (i : side) : Prop :=
  (base i ≤ length (rcvd s (other i)))%nat ∧ (length (sent s i) ≤ base i + 100)%nat ∧
  window (host s i) (sport i) (sid i) (sid (other i)) (sent s i) (base i).

Definition flow (s : system) (base : side → nat) : Prop := ∀ i, flow_at s base i.

(** ** What an action changes *)

Record effect (s s' : system) (i : side) (x : XTRANSPORT) (ps ms rs : list (list Z)) : Prop := {
  ef_host : host s' i = x;
  ef_sent : sent s' i = sent s i ++ ms;
  ef_rcvd : rcvd s' i = rcvd s i ++ rs;
  ef_host' : host s' (other i) = host s (other i);
  ef_sent' : sent s' (other i) = sent s (other i);
  ef_rcvd' : rcvd s' (other i) = rcvd s (other i);
  ef_net : net s' = net s ++ ps }.

Lemma run_effect s e x out : handle s e = Ok (x, out) → ∃ s', run s e = Ok s' ∧
  effect s s' (actor e) x (packets out) (messages e) (delivered (sport (actor e)) out).
Proof using.
  intros H. unfold run. rewrite H. cbn [mbind res_bind fst snd]. eexists. split; [done|].
  split; cbn [host sent rcvd net]; rewrite ?upd_eq, ?upd_ne by apply other_ne; done.
Qed.

Lemma packet_of_mono s s' i b : sent s i `prefix_of` sent s' i → rcvd s i `prefix_of` rcvd s' i → packet_of s i b → packet_of s' i b.
Proof using.
  intros Hs Hr [(k & ack & data & Hk & Hseg)|(n & dt & Hn & Hseg)].
  - left. exists k, ack, data. split; [by eapply prefix_lookup_Some|done].
  - right. exists n, dt. split; [|done]. apply prefix_length in Hr. lia.
Qed.

Lemma effect_prefix s s' i x ps ms rs j : effect s s' i x ps ms rs →
  sent s j `prefix_of` sent s' j ∧ rcvd s j `prefix_of` rcvd s' j.
Proof using.
  intros [_ H2 H3 _ H5 H6 _]. destruct (side_cases i j) as [-> | ->]; [|by rewrite H5, H6]. rewrite H2, H3. split; by eexists.
Qed.

Lemma inv_effect s s' base i x ps ms rs b : inv s base → effect s s' i x ps ms rs →
  end_of x (sport i) (sid i) (sid (other i)) (sent s i ++ ms) b (length (rcvd s i ++ rs)) →
  rcvd s i ++ rs `prefix_of` sent s (other i) → Z.of_nat (length (sent s i ++ ms)) ≤ 2 ^ 31 - 2 →
  Forall (packet_of s' i) ps → inv s' (upd base i b).
Proof using.
  intros [Hg Hn] He Hep Hpre Hlen Hps. split.
  - intros j. unfold good. destruct (side_cases i j) as [-> | ->].
    + by rewrite upd_eq, (ef_host _ _ _ _ _ _ _ He), (ef_sent _ _ _ _ _ _ _ He), (ef_rcvd _ _ _ _ _ _ _ He), (ef_sent' _ _ _ _ _ _ _ He).
    + rewrite upd_ne by apply other_ne. rewrite (ef_host' _ _ _ _ _ _ _ He), (ef_sent' _ _ _ _ _ _ _ He), (ef_rcvd' _ _ _ _ _ _ _ He), other_other.
      destruct (Hg (other i)) as (H1 & H2 & H3). rewrite other_other in H1, H2. split_and!; [done| |done].
      etrans; [exact H2|]. by apply (effect_prefix _ _ _ _ _ _ _ i He).
  - intros p. rewrite (ef_net _ _ _ _ _ _ _ He), elem_of_app. intros [Hp|Hp].
    + destruct (Hn p Hp) as [j Hj]. exists j. destruct (effect_prefix _ _ _ _ _ _ _ j He). by eapply packet_of_mono.
    + exists i. rewrite Forall_forall in Hps. by apply Hps.
Qed.

Lemma flow_effect s s' base i x ps ms rs b : flow s base → effect s s' i x ps ms rs →
  (b ≤ length (rcvd s (other i)))%nat → (length (sent s i ++ ms) ≤ b + 100)%nat →
  window x (sport i) (sid i) (sid (other i)) (sent s i ++ ms) b → flow s' (upd base i b).
Proof using.
  intros Hf He Hb Hl Hw j. unfold flow_at. destruct (side_cases i j) as [-> | ->].
  - by rewrite upd_eq, (ef_host _ _ _ _ _ _ _ He), (ef_sent _ _ _ _ _ _ _ He), (ef_rcvd' _ _ _ _ _ _ _ He).
  - rewrite upd_ne by apply other_ne. rewrite (ef_host' _ _ _ _ _ _ _ He), (ef_sent' _ _ _ _ _ _ _ He), other_other.
    destruct (Hf (other i)) as (H1 & H2 & H3). rewrite other_other in H1, H3. split_and!; try done.
    destruct (effect_prefix _ _ _ _ _ _ _ i He) as [_ Hp%prefix_length]. lia.
Qed.

(** ** The actions *)

Lemma send_step s base i data now : inv s base → admissible s (Send i data now) →
  ∃ s', run s (Send i data now) = Ok s' ∧ inv s' (upd base i (base i)) ∧
    (flow s base → in_flow s (Send i data now) → flow s' (upd base i (base i))).
Proof using Hentries Hfresh Hnodes.
  intros Hinv (Hlen & Hb & Hfew). destruct (proj1 Hinv i) as (Hep & Hpre & Hl).
  destruct (send_ok query_xid query_ip entries fresh fresh_nodes Hentries Hfresh Hnodes _ _ _ _ _ _ _ data now Hep Hlen Hb ltac:(lia))
    as (x & p & q & d & d' & Hrun & Hp & Hq & Hep' & Hd & Hd' & slots & Hs & Hs' & _ & Hon & Hdw & _).
  destruct (run_effect s (Send i data now) x _ Hrun) as (s' & Hr & He). exists s'. split; [done|]. cbn [actor messages packets delivered omap list_omap] in He.
  split.
  - eapply inv_effect; [done|done|by rewrite app_nil_r|by rewrite app_nil_r|rewrite length_app; simpl; lia|].
    constructor; [|done]. left. exists (length (sent s i)), 0, data. split; [|done]. rewrite (ef_sent _ _ _ _ _ _ _ He). by rewrite list_lookup_middle.
  - intros Hf Hin. destruct (Hf i) as (H1 & H2 & d0 & sl & Hd0 & Hsl & Hw & _). assert (d0 = d) as -> by congruence.
    assert (sl = slots) as -> by congruence. destruct (ep_info _ _ _ _ _ _ _ _ _ _ _ Hep) as (d1 & Hd1 & Hso & _). assert (d1 = d) as -> by congruence.
    cbn [in_flow] in Hin. unfold window_base in Hin. rewrite Hd in Hin. cbn in Hin. rewrite (so_base _ _ _ _ _ _ _ _ Hso) in Hin. cbn in Hin.
    unfold MAX_WIN_SIZE in Hin. destruct (so_slots _ _ _ _ _ _ _ _ Hso) as (sl & Hsl' & Hl100 & _). assert (sl = slots) as -> by congruence.
    eapply flow_effect; [done..|rewrite length_app; simpl; lia|]. eexists d', _. split; [done|]. split; [done|]. split; [|done].
    intros k dt Hk Hdt. destruct (decide (k = length (sent s i))) as [->|Hne].
    + rewrite list_lookup_middle in Hdt by done. injection Hdt as <-. exists q, 0. split; [|done]. apply list_lookup_insert_eq.
      rewrite Hl100. pose proof (Z.mod_pos_bound (Z.of_nat (length (sent s i))) MAX_WIN_SIZE ltac:(done)). unfold MAX_WIN_SIZE in *. lia.
    + pose proof (lookup_lt_Some _ _ _ Hdt) as Hlt. rewrite length_app in Hlt. simpl in Hlt. rewrite lookup_app_l in Hdt by lia.
      destruct (Hw k dt Hk Hdt) as (q0 & ack & Hq0 & Hs0). exists q0, ack. split; [|done]. rewrite list_lookup_insert_ne; [done|].
      apply not_eq_sym, mod_window; lia.
Qed.

(** A message arrives. *)
Lemma data_step s base i b b' k ack data now : inv s base → sent s (other i) !! k = Some data →
  seg b (sid i) (sid (other i)) DATA (Z.of_nat k) ack data → arrives b b' (sid i) →
  let n := length (rcvd s i) in let n' := if decide (k = n) then S n else n in
  ∃ s' x p rs, run s (Receive i b' now) = Ok s' ∧ effect s s' i x [p] [] rs ∧ inv s' (upd base i (base i)) ∧
    length (rcvd s' i) = n' ∧ seg p (sid (other i)) (sid i) ACK 0 (Z.of_nat n') cumulative_ACK ∧
    (flow s base → flow s' (upd base i (base i))).
Proof using Hentries Hfresh Hnodes.
  intros Hinv Hk Hseg Harr n n'. destruct (proj1 Hinv i) as (Hep & Hpre & Hl). pose proof (prefix_length _ _ Hpre) as Hpl.
  destruct (proj1 Hinv (other i)) as (_ & _ & Hlo).
  destruct (data_ok query_xid query_ip entries fresh fresh_nodes Hentries Hfresh Hnodes _ _ _ _ _ _ _ b b' k ack data now Hep Hseg Harr ltac:(lia))
    as (x & out & p & d & d' & Hrun & Hps & Hdel & Hp & Hep' & Hd & Hd' & Hsame). fold n in Hdel, Hp, Hep'. fold n' in Hp, Hep'.
  destruct (run_effect s (Receive i b' now) x _ Hrun) as (s' & Hr & He). cbn [actor messages] in He. rewrite Hps, Hdel in He.
  exists s', x, p. eexists. split; [done|]. split; [exact He|]. set (rs := if decide (k = n) then [data] else []) in *.
  assert (length (rcvd s i ++ rs) = n') as Hln by (rewrite length_app; unfold rs, n'; fold n; case_decide; simpl; lia).
  assert (length (rcvd s' i) = n') as Hn' by (by rewrite (ef_rcvd _ _ _ _ _ _ _ He)).
  split; [|split; [done|split; [done|]]].
  - eapply inv_effect; [done|done| | |by rewrite app_nil_r|].
    + rewrite app_nil_r, Hln. done.
    + unfold rs. case_decide as Hkn; [|by rewrite app_nil_r]. subst k. by apply prefix_extend.
    + constructor; [|done]. right. exists n', cumulative_ACK. by rewrite Hn'.
  - intros Hf. destruct (Hf i) as (H1 & H2 & d0 & sl & Hd0 & Hsl & Hw & Ht). assert (d0 = d) as -> by congruence.
    destruct Hsame as (Hs1 & _ & Hs2). eapply flow_effect; [done..|by rewrite app_nil_r|]. rewrite app_nil_r. exists d', sl.
    split_and!; [done|congruence|done|by rewrite Hs2].
Qed.

(** An acknowledgement arrives. *)
Lemma ack_step s base i b b' a dt now : inv s base → (a ≤ length (rcvd s (other i)))%nat →
  seg b (sid i) (sid (other i)) ACK 0 (Z.of_nat a) dt → arrives b b' (sid i) →
  ∃ s' x d d', run s (Receive i b' now) = Ok s' ∧ effect s s' i x [] [] [] ∧ inv s' (upd base i a) ∧
    portToDAGinfo (host s i) !! sport i = Some d ∧ portToDAGinfo x !! sport i = Some d' ∧
    acked_upto d d' (base i) a (length (sent s i)) ∧ ((base i ≤ a)%nat → flow s base → flow s' (upd base i a)).
Proof using Hentries Hfresh.
  intros Hinv Ha Hseg Harr. destruct (proj1 Hinv i) as (Hep & Hpre & Hl). destruct (proj1 Hinv (other i)) as (_ & Hpo%prefix_length & _).
  rewrite other_other in Hpo.
  destruct (ack_ok query_xid query_ip entries fresh fresh_nodes Hentries Hfresh _ _ _ _ _ _ _ b b' a dt now Hep Hseg Harr ltac:(lia))
    as (x & d & d' & Hrun & Hep' & Hd & Hd' & Hack).
  destruct (run_effect s (Receive i b' now) x _ Hrun) as (s' & Hr & He). cbn [actor messages packets delivered omap list_omap] in He.
  exists s', x, d, d'. split; [done|]. split; [done|]. split; [|do 3 (split; [done|])].
  - eapply inv_effect; [done|done|by rewrite !app_nil_r|by rewrite app_nil_r|by rewrite app_nil_r|constructor].
  - intros Hba Hf. destruct (Hf i) as (H1 & H2 & d0 & sl & Hd0 & Hsl & Hw & Ht). assert (d0 = d) as -> by congruence.
    destruct Hack as (slots & slots' & Hs & Hs' & Hcl & Hwait). assert (sl = slots) as -> by congruence.
    eapply flow_effect; [done|done|done|rewrite app_nil_r; lia|]. rewrite app_nil_r. exists d', slots'. split; [done|]. split; [done|].
    split.
    + intros k dt' Hk Hdt. destruct (Hw k dt' ltac:(lia) Hdt) as (q & ack & Hq & Hsq). exists q, ack. split; [|done].
      pose proof (lookup_lt_Some _ _ _ Hdt). destruct (Hcl (Z.to_nat (Z.of_nat k mod MAX_WIN_SIZE))) as [->|(_ & m & Hm & Heq)]; [done|].
      exfalso. apply (mod_window m (Z.of_nat k)); [lia|lia|done].
    + intros Hlt. case_decide as Hb; [|rewrite Hwait; apply Ht; lia]. destruct Hwait as [-> ->].
      rewrite bool_decide_true by lia. done.
Qed.

(** The packets of a timeout are messages of the stream. *)
Lemma timed_stored x d d' port me peer sent base n now ps : end_of x port me peer sent base n → portToDAGinfo x !! port = Some d →
  timed_out entries fresh d d' me peer base (length sent) now ps → Forall (stored entries fresh me peer sent) ps.
Proof using.
  intros Hep Hd (slots & Hsl & _ & Hto). case_decide; [|destruct Hto as [-> _]; constructor].
  destruct Hto as (tries & _ & Hps & _). case_decide; [|inversion Hps; constructor].
  destruct (ep_info _ _ _ _ _ _ _ _ _ _ _ Hep) as (d1 & Hd1 & Hso & _). assert (d1 = d) as -> by congruence.
  destruct (so_slots _ _ _ _ _ _ _ _ Hso) as (sl & Hsl' & _ & Hst). assert (sl = slots) as -> by congruence.
  apply Forall_forall. intros p [j Hj]%list_elem_of_lookup.
  destruct (Forall2_lookup_r _ _ _ _ _ Hps Hj) as (q & Hq%list_elem_of_lookup_2 & Hre).
  unfold range_slots in Hq. apply list_elem_of_omap in Hq as (z & _ & Hz).
  destruct (slots !! Z.to_nat (z mod MAX_WIN_SIZE)) as [o|] eqn:Ho; [|done]. cbn in Hz. subst o.
  destruct (Hst _ _ Ho) as (k & ack & data & Hk & Hseg). exists k, ack, data. split; [done|]. by apply Hre.
Qed.

(** The message [k] of a stream in a packet. *)
Definition message_of (me peer : Xid) (sent : list (list Z)) (k : nat) (p : list Z) : Prop :=
  ∃ ack data, sent !! k = Some data ∧ seg p peer me DATA (Z.of_nat k) ack data.

(** A timeout sends every message that waits. *)
Lemma timed_messages d d' slots me peer sent base now ps :
  w_sent_pkt (di_win d) = Some slots →
  (∀ k data, (base ≤ k)%nat → sent !! k = Some data →
     ∃ q ack, slots !! Z.to_nat (Z.of_nat k mod MAX_WIN_SIZE) = Some (Some q) ∧ seg q peer me DATA (Z.of_nat k) ack data) →
  t_timer_on (di_wait d) = true → t_dataack_waiting (di_wait d) = true → t_expiry (di_wait d) ≤ now →
  (∀ t, w_num_retransmit_tries (di_win d) = Some t → t < MAX_RETRANSMIT_TRIES) →
  timed_out entries fresh d d' me peer base (length sent) now ps →
  Forall2 (message_of me peer sent) (seq base (length sent - base)) ps.
Proof using.
  intros Hsl Hw H1 H2 H3 Htr (sl & Hsl' & _ & Hto). assert (sl = slots) as -> by congruence.
  rewrite decide_True in Hto by done. destruct Hto as (t & Ht & Hps & _). rewrite decide_True in Hps by (by apply Htr).
  assert (seqZ (Z.of_nat base) (Z.of_nat (length sent) - Z.of_nat base) = map Z.of_nat (seq base (length sent - base))) as Hseq.
  { unfold seqZ. replace (Z.to_nat (Z.of_nat (length sent) - Z.of_nat base)) with (length sent - base)%nat by lia.
    apply list_eq. intros j. rewrite list_lookup_fmap.
    change (map Z.of_nat ?l) with (Z.of_nat <$> l). rewrite list_lookup_fmap. destruct (decide (j < length sent - base)%nat).
    - rewrite !lookup_seq_lt by lia. cbn. f_equal. lia.
    - rewrite !lookup_seq_ge by lia. done. }
  rewrite Hseq in Hps. assert (∀ k, k ∈ seq base (length sent - base) → (base ≤ k < length sent)%nat) as Hin
    by (intros k Hk%elem_of_seq; lia).
  clear -Hps Hw Hin. revert ps Hps Hin. induction (seq base (length sent - base)) as [|k ks IH]; intros ps Hps Hin.
  - inversion Hps. constructor.
  - destruct (Hin k ltac:(by left)) as [Hk1 Hk2]. destruct (lookup_lt_is_Some_2 sent k Hk2) as [data Hdata].
    destruct (Hw k data Hk1 Hdata) as (q & ack & Hq & Hseg). unfold range_slots in Hps. cbn [map omap list_omap] in Hps. rewrite Hq in Hps.
    cbn [mjoin option_join] in Hps. inversion Hps as [|? p ? ps' Hre Hps' ]. subst. constructor.
    + exists ack, data. split; [done|]. by apply Hre.
    + apply IH; [done|]. intros k' Hk'. apply Hin. by right.
Qed.

Lemma timeout_step s base i now cid_now : inv s base →
  ∃ s' x ps d d', run s (Timeout i now cid_now) = Ok s' ∧ effect s s' i x ps [] [] ∧ inv s' (upd base i (base i)) ∧
    portToDAGinfo (host s i) !! sport i = Some d ∧ portToDAGinfo x !! sport i = Some d' ∧
    timed_out entries fresh d d' (sid i) (sid (other i)) (base i) (length (sent s i)) now ps ∧
    (flow s base → in_flow s (Timeout i now cid_now) → flow s' (upd base i (base i))).
Proof using Hentries Hfresh Hnodes Hports Hcids.
  intros Hinv. destruct (proj1 Hinv i) as (Hep & Hpre & Hl).
  destruct (timer_ok query_xid query_ip entries fresh fresh_nodes port_order cid_order Hentries Hfresh Hnodes Hports Hcids _ _ _ _ _ _ _ now cid_now Hep)
    as (x & ps & d & d' & Hrun & Hep' & Hd & Hd' & Hto).
  destruct (run_effect s (Timeout i now cid_now) x _ Hrun) as (s' & Hr & He). cbn [actor messages] in He.
  rewrite packets_map, delivered_map in He. exists s', x, ps, d, d'. split; [done|]. split; [done|]. split; [|do 3 (split; [done|])].
  - eapply inv_effect; [done|done|by rewrite !app_nil_r|by rewrite app_nil_r|by rewrite app_nil_r|].
    apply (Forall_impl _ _ _ (timed_stored _ _ _ _ _ _ _ _ _ _ _ Hep Hd Hto)). intros p Hp. left. by rewrite (ef_sent _ _ _ _ _ _ _ He), app_nil_r.
  - intros Hf Hin. destruct (Hf i) as (H1 & H2 & d0 & sl & Hd0 & Hsl & Hw & Ht). assert (d0 = d) as -> by congruence.
    pose proof Hto as (slots & Hs & Hs' & Hcase). assert (sl = slots) as -> by congruence.
    eapply flow_effect; [done|done|done|by rewrite app_nil_r|]. rewrite app_nil_r. exists d', slots. split_and!; try done.
    intros Hlt. destruct (Ht Hlt) as [Hon Hdw]. case_decide as Hdec; [|destruct Hcase as [_ ->]; done].
    pose proof (timed_messages d d' slots _ _ _ _ now ps Hs Hw Hon Hdw (proj2 (proj2 Hdec)) (λ t, Hin d t Hd) Hto) as Hms.
    destruct Hcase as (t & _ & _ & -> & ->). assert (ps ≠ []) as Hne.
    { intros ->. apply Forall2_length in Hms. rewrite length_seq in Hms. simpl in Hms. lia. }
    by rewrite bool_decide_true.
Qed.

Lemma move_step s base i addr : inv s base → admissible s (Move i addr) →
  ∃ s', run s (Move i addr) = Ok s' ∧ inv s' (upd base i (base i)) ∧ (flow s base → flow s' (upd base i (base i))).
Proof using.
  intros Hinv (x & Hmv & Hhome). destruct (proj1 Hinv i) as (Hep & Hpre & Hl).
  assert (handle s (Move i addr) = Ok (x, [])) as Hrun by (cbn [handle]; by rewrite Hmv).
  destruct (run_effect s (Move i addr) x _ Hrun) as (s' & Hr & He). cbn [actor messages packets delivered omap list_omap] in He.
  assert (xt_tables x = xt_tables (host s i) ∧ portToDAGinfo x = portToDAGinfo (host s i) ∧ _timer x = _timer (host s i)) as (Et & Ei & Em).
  { unfold write_move in Hmv. apply bind_Ok in Hmv as (? & _ & Hmv). apply bind_Ok in Hmv as (hid & _ & Hmv). by injection Hmv as <-. }
  exists s'. split; [done|]. split.
  - eapply inv_effect; [done|done| |by rewrite app_nil_r|by rewrite app_nil_r|constructor]. rewrite !app_nil_r.
    destruct Hep as [P1 P2 P3 P4 P5 P6]. split; try done.
    + unfold pair_port in *. by rewrite Et.
    + by rewrite Et.
    + destruct P5 as (d & Hd & Hso & Ha). exists d. rewrite Ei. split_and!; try done. unfold armed in *. by rewrite Em.
    + intros p d. rewrite Ei. apply P6.
  - intros Hf. destruct (Hf i) as (H1 & H2 & Hw). eapply flow_effect; [done|done|done|by rewrite app_nil_r|]. rewrite app_nil_r.
    unfold window in *. by rewrite Ei.
Qed.

(** A packet of the network that arrives at [i] is one of the other side. *)
Lemma from_other s i b b' : (∃ j, packet_of s j b) → carried_to (sid i) b b' → packet_of s (other i) b ∧ arrives b b' (sid i).
Proof using Hsid.
  intros [j Hj] ((q & Hq & Hx) & Hc & Hl). assert (∀ sx info seq ack data, seg b (sid (other j)) sx info seq ack data → j = other i ∧ arrives b b' (sid i)) as Hk.
  { intros sx info seq ack data Hseg. assert (sid (other j) = sid i) as Heq.
    { destruct Hseg as (dst & src & Hd & _ & Hrd & _). pose proof (rd_dst _ _ _ _ _ Hrd) as Hd2. rewrite Hq in Hd2. injection Hd2 as ->.
      pose proof (ad_dst _ _ Hd). congruence. }
    split; [|rewrite Heq in Hseg; by eapply segment_arrives].
    destruct (side_cases i j) as [-> | ->]; [|done]. exfalso. destruct i; cbn in Heq; congruence. }
  destruct Hj as [(k & ack & data & Hd & Hseg)|(n & dt & Hn & Hseg)]; destruct (Hk _ _ _ _ _ Hseg) as [-> Ha]; split; try done.
  - left. by exists k, ack, data.
  - right. by exists n, dt.
Qed.

Lemma receive_step s base i b' now : inv s base → admissible s (Receive i b' now) →
  ∃ s' base', run s (Receive i b' now) = Ok s' ∧ inv s' base' ∧ (flow s base → in_flow s (Receive i b' now) → flow s' base').
Proof using Hentries Hfresh Hnodes Hsid.
  intros Hinv (b & Hb & Hc). destruct (from_other s i b b' (proj2 Hinv b Hb) Hc) as [[(k & ack & data & Hk & Hseg)|(n & dt & Hn & Hseg)] Harr];
    rewrite other_other in Hseg.
  - destruct (data_step s base i b b' k ack data now Hinv Hk Hseg Harr) as (s' & x & p & rs & Hr & _ & Hi & _ & _ & Hf).
    exists s', (upd base i (base i)). split_and!; [done..|]. intros Hf1 _. by apply Hf.
  - destruct (ack_step s base i b b' n dt now Hinv Hn Hseg Harr) as (s' & x & d & d' & Hr & _ & Hi & Hd & Hd' & _ & Hf).
    exists s', (upd base i n). split_and!; [done..|]. intros Hf1 Hin. apply Hf; [|done].
    destruct (segment_incoming entries fresh Hentries Hfresh _ _ _ _ _ _ _ _ Hseg Harr) as (dst & src & o & Hri & _).
    assert (XIAGenericExtHeader_of b' = Ok (mkExt o 24 (transport_map XSOCK_STREAM ACK 0 (Z.of_nat n) 0))) as Hth.
    { unfold read_incoming in Hri. repeat (apply bind_Ok in Hri as (? & ? & Hri)). congruence. }
    pose proof Hseg as (_ & _ & _ & _ & _ & _ & _ & Hun & _).
    destruct (transport_fields XSOCK_STREAM ACK 0 (Z.of_nat n) 0 o 24) as (_ & Hinfo & _ & Hack & _);
      [unfold XSOCK_STREAM, ACK; lia..|unfold is_u32; lia|done|lia|].
    specialize (Hin _ _ Hth Hinfo Hack). destruct (proj1 Hinv i) as (Hep & _).
    destruct (ep_info _ _ _ _ _ _ _ _ _ _ _ Hep) as (d1 & Hd1 & Hso & _). unfold window_base in Hin. rewrite Hd1 in Hin. cbn in Hin.
    rewrite (so_base _ _ _ _ _ _ _ _ Hso) in Hin. cbn in Hin. lia.
Qed.

Lemma action_step s base e : inv s base → admissible s e →
  ∃ s' base', run s e = Ok s' ∧ inv s' base' ∧ (flow s base → in_flow s e → flow s' base').
Proof using Hentries Hfresh Hnodes Hports Hcids Hsid.
  intros Hinv Had. destruct e as [i data now|i now cid_now|i b' now|i addr].
  - destruct (send_step s base i data now Hinv Had) as (s' & ? & ? & ?). by eexists _, _.
  - destruct (timeout_step s base i now cid_now Hinv) as (s' & x & ps & d & d' & ? & _ & ? & _ & _ & _ & ?). by eexists _, _.
  - by apply receive_step.
  - destruct (move_step s base i addr Hinv Had) as (s' & ? & ? & Hf). eexists _, _. split_and!; [done..|]. intros Hf1 _. by apply Hf.
Qed.

Lemma established_inv s : established s → inv s (λ _, 0%nat) ∧ flow s (λ _, 0%nat).
Proof using.
  intros [Hnet Hall]. split; [split|].
  - intros i. destruct (Hall i) as (Hs & Hr & Hep). unfold good. rewrite Hs, Hr. split_and!; [done|apply prefix_nil|simpl; lia].
  - rewrite Hnet. intros b Hb. by apply elem_of_nil in Hb.
  - intros i. destruct (Hall i) as (Hs & Hr & Hep). unfold flow_at. rewrite Hs. split_and!; [lia|simpl; lia|].
    destruct (ep_info _ _ _ _ _ _ _ _ _ _ _ Hep) as (d & Hd & Hso & _). destruct (so_slots _ _ _ _ _ _ _ _ Hso) as (sl & Hsl & _).
    exists d, sl. split_and!; [done..|intros k data _ Hk; done|simpl; lia].
Qed.

Lemma reached_inv s0 s : established s0 → reached admissible s0 s → ∃ base, inv s base.
Proof using Hentries Hfresh Hnodes Hports Hcids Hsid.
  intros H0. induction 1 as [|s e s' Hr [base IH] Had Hrun]; [exists (λ _, 0%nat); by apply established_inv|].
  destruct (action_step s base e IH Had) as (s2 & base' & Hrun2 & Hinv & _). exists base'. congruence.
Qed.

Lemma reached_flow s0 s : established s0 → reached (λ s e, admissible s e ∧ in_flow s e) s0 s → ∃ base, inv s base ∧ flow s base.
Proof using Hentries Hfresh Hnodes Hports Hcids Hsid.
  intros H0. induction 1 as [|s e s' Hr (base & IH & Hf) [Had Hin] Hrun]; [exists (λ _, 0%nat); by apply established_inv|].
  destruct (action_step s base e IH Had) as (s2 & base' & Hrun2 & Hinv & Hfl). exists base'. rewrite Hrun in Hrun2. injection Hrun2 as <-. auto.
Qed.

(** ** A round of retransmission *)

Lemma window_base_inv s base i : inv s base → ∃ d, portToDAGinfo (host s i) !! sport i = Some d ∧
  socket entries fresh d (sid i) (sid (other i)) (sent s i) (base i) (length (rcvd s i)) ∧ armed (host s i) d ∧
  window_base (host s i) (sport i) = Z.of_nat (base i).
Proof using.
  intros [Hg _]. destruct (Hg i) as (Hep & _). destruct (ep_info _ _ _ _ _ _ _ _ _ _ _ Hep) as (d & Hd & Hso & Ha).
  exists d. split_and!; [done..|]. unfold window_base. rewrite Hd. cbn. by rewrite (so_base _ _ _ _ _ _ _ _ Hso).
Qed.


Definition ack_of (i : side) (n : nat) (b : list Z) : Prop := seg b (sid (other i)) (sid i) ACK 0 (Z.of_nat n) cumulative_ACK.

(** Messages from [k] on arrive at [i], which has received at least [k]. *)
Lemma receive_all i now m : ∀ k s base ps ps', inv s base → (k ≤ length (rcvd s i))%nat →
  Forall2 (message_of (sid (other i)) (sid i) (sent s (other i))) (seq k m) ps → Forall2 (carried_to (sid i)) ps ps' →
  ∃ s' base' acks ns, receives s i ps' now = Ok s' ∧ inv s' base' ∧ base' (other i) = base (other i) ∧
    host s' (other i) = host s (other i) ∧ sent s' (other i) = sent s (other i) ∧ net s' = net s ++ acks ∧
    (k + m ≤ length (rcvd s' i))%nat ∧ Forall2 (ack_of i) ns acks ∧ Forall (λ n, (n ≤ length (rcvd s' i))%nat) ns ∧
    (0 < m → last ns = Some (length (rcvd s' i)))%nat.
Proof using Hentries Hfresh Hnodes.
  induction m as [|m IH]; intros k s base ps ps' Hinv Hk Hps Hc.
  { inversion Hps. subst. inversion Hc. subst. exists s, base, [], []. rewrite app_nil_r. cbn [receives foldM].
    split_and!; try done; try constructor; try lia. }
  cbn [seq] in Hps. inversion Hps as [|? p ? ps1 Hp Hps1]. subst. inversion Hc as [|? p' ? ps1' Hp' Hc1]. subst.
  destruct Hp as (ack & data & Hdata & Hseg). assert (arrives p p' (sid i)) as Harr by (destruct Hp' as (_ & ? & ?); by eapply segment_arrives).
  destruct (data_step s base i p p' k ack data now Hinv Hdata Hseg Harr) as (s1 & x & a & rs & Hr & He & Hi1 & Hn & Ha & _).
  set (n' := if decide (k = length (rcvd s i)) then S (length (rcvd s i)) else length (rcvd s i)) in *.
  assert (S k ≤ n')%nat as Hk' by (unfold n'; case_decide; lia).
  destruct (IH (S k) s1 _ ps1 ps1' Hi1) as (s' & base' & acks & ns & Hrun & Hi' & Hb & Hh & Hs & Hnet & Hlen & Has & Hle & Hlast);
    [lia|by rewrite (ef_sent' _ _ _ _ _ _ _ He)|done|].
  assert (n' ≤ length (rcvd s' i))%nat as Hn'.
  { destruct (decide (m = 0%nat)) as [->|Hm]; [|specialize (Hlast ltac:(lia))]; [|].
    - inversion Hps1. subst. inversion Hc1. subst. cbn in Hrun. injection Hrun as <-. lia.
    - destruct (proj1 Hi1 i) as (_ & _ & _). rewrite <-Hn. clear -Hrun. revert s1 Hrun. induction ps1' as [|b l IHl]; intros s1 Hrun; [by injection Hrun as <-|].
      cbn [receives foldM] in Hrun. apply bind_Ok in Hrun as (s2 & Hr2 & Hrun). etrans; [|by apply IHl].
      unfold run in Hr2. apply bind_Ok in Hr2 as ([x out] & _ & Hr2). injection Hr2 as <-. cbn [rcvd actor]. rewrite upd_eq, length_app. lia. }
  exists s', base', (a :: acks), (n' :: ns). split_and!; try done.
  - cbn [receives foldM]. rewrite Hr. done.
  - rewrite Hb, upd_ne by apply other_ne. done.
  - by rewrite Hh, (ef_host' _ _ _ _ _ _ _ He).
  - by rewrite Hs, (ef_sent' _ _ _ _ _ _ _ He).
  - rewrite Hnet, (ef_net _ _ _ _ _ _ _ He), <-app_assoc. done.
  - lia.
  - by constructor.
  - by constructor.
  - intros _. destruct (decide (m = 0%nat)) as [->|Hm].
    + inversion Hps1. subst. inversion Hc1. subst. cbn in Hrun. injection Hrun as <-. assert (acks = []) as ->.
      { apply (f_equal length) in Hnet. rewrite length_app in Hnet. destruct acks; [done|simpl in Hnet; lia]. }
      inversion Has. subst. cbn. by rewrite Hn.
    + specialize (Hlast ltac:(lia)). destruct ns as [|n1 ns1]; [done|]. exact Hlast.
Qed.

(** Acknowledgements arrive at [i]; the last one is for everything. *)
Lemma acks_all i now acks : ∀ s base ns acks', inv s base →
  Forall (λ n, (n ≤ length (rcvd s (other i)))%nat) ns → Forall2 (ack_of (other i)) ns acks → Forall2 (carried_to (sid i)) acks acks' →
  (base i = length (sent s i) → ∀ d, portToDAGinfo (host s i) !! sport i = Some d → t_timer_on (di_wait d) = false) →
  ∃ s' base', receives s i acks' now = Ok s' ∧ inv s' base' ∧ base' i = default (base i) (last ns) ∧ sent s' i = sent s i ∧
    (base' i = length (sent s i) → ∀ d, portToDAGinfo (host s' i) !! sport i = Some d → t_timer_on (di_wait d) = false).
Proof using Hentries Hfresh.
  induction acks as [|p acks IH]; intros s base ns acks' Hinv Hle Has Hc Hoff.
  { inversion Has. subst. inversion Hc. subst. by exists s, base. }
  inversion Has as [|n ? ns1 ? Hn Has1]. subst. inversion Hc as [|? p' ? acks1' Hp' Hc1]. subst. inversion Hle as [|? ? Hle1 Hle2]. subst.
  unfold ack_of in Hn. rewrite other_other in Hn. assert (arrives p p' (sid i)) as Harr by (destruct Hp' as (_ & ? & ?); by eapply segment_arrives).
  destruct (ack_step s base i p p' n cumulative_ACK now Hinv Hle1 Hn Harr) as (s1 & x & d & d' & Hr & He & Hi1 & Hd & Hd' & Hack & _).
  assert (sent s1 i = sent s i) as Hs1 by (by rewrite (ef_sent _ _ _ _ _ _ _ He), app_nil_r).
  destruct (IH s1 _ ns1 acks1' Hi1) as (s' & base' & Hrun & Hi' & Hb & Hs & Hoff'); [by rewrite (ef_rcvd' _ _ _ _ _ _ _ He)|done|done| |].
  - rewrite upd_eq, Hs1, (ef_host _ _ _ _ _ _ _ He). intros -> d2 Hd2. assert (d2 = d') as -> by congruence.
    destruct Hack as (_ & _ & _ & _ & _ & Hw). case_decide; [destruct Hw as [-> _]; by apply bool_decide_eq_false; auto|].
    rewrite Hw. apply Hoff; [|done]. pose proof (proj1 Hinv i) as (Hep & _).
    destruct (ep_info _ _ _ _ _ _ _ _ _ _ _ Hep) as (d1 & Hd1 & Hso & _). pose proof (so_few _ _ _ _ _ _ _ _ Hso). lia.
  - exists s', base'. cbn [receives foldM]. rewrite Hr. cbn [mbind res_bind]. rewrite Hs1 in *. split_and!; try done.
    rewrite Hb, upd_eq, last_cons. by destruct (last ns1).
Qed.

(** ** The theorems *)

(** C7: whatever the network does to the packets of a stream (it may lose them,
    repeat them and change their order, and routers carry them), and wherever
    the hosts move, what an application has received is always a prefix of what
    the application at the other end has sent; and no action of a host on the
    stream is ever undefined: sending, receiving and the timer all return.  The
    network is empty when the stream starts; messages fit in a packet. *)
Theorem stream_in_order s0 s : established s0 → reached admissible s0 s →
  (∀ i, rcvd s i `prefix_of` sent s (other i)) ∧ ∀ e, admissible s e → is_ok (run s e).
Proof using Hentries Hfresh Hnodes Hports Hcids Hsid.
  intros H0 Hr. destruct (reached_inv s0 s H0 Hr) as (base & Hinv). split.
  - intros i. apply Hinv.
  - intros e Had. destruct (action_step s base e Hinv Had) as (s' & _ & -> & _). by eexists.
Qed.

(** C8: a host that has unacknowledged messages has its timer set no later than
    they expire; when the timer runs after that, and the packets it sends arrive
    in order, the other application has received everything, and when the
    acknowledgements arrive too, in order, nothing waits any more and the timer is
    off.  This is so under four conditions ([in_flow] and [established]).  No more
    than 100 messages were ever unacknowledged at a time, as further ones
    overwrite the oldest.  No acknowledgement was overtaken by a later one, which
    moves the window back.  The timer has not yet given up, which it does after
    100 attempts.  And no packet of the handshake is left in the network when the
    stream starts, since a repeated SYNACK would stop the timer. *)
Theorem stream_progress s0 s i d : established s0 → reached (λ s e, admissible s e ∧ in_flow s e) s0 s →
  portToDAGinfo (host s i) !! sport i = Some d → window_base (host s i) (sport i) < Z.of_nat (length (sent s i)) →
  (∃ t, _timer (host s i) = Some t ∧ t ≤ t_expiry (di_wait d)) ∧
  ∀ now cid_now, t_expiry (di_wait d) ≤ now → in_flow s (Timeout i now cid_now) →
  ∃ s1 ps, run s (Timeout i now cid_now) = Ok s1 ∧ net s1 = net s ++ ps ∧ ps ≠ [] ∧
  ∀ ps' now1, Forall2 (carried_to (sid (other i))) ps ps' →
  ∃ s2 acks, receives s1 (other i) ps' now1 = Ok s2 ∧ rcvd s2 (other i) = sent s i ∧ net s2 = net s1 ++ acks ∧
  ∀ acks' now2, Forall2 (carried_to (sid i)) acks acks' →
  ∃ s3, receives s2 i acks' now2 = Ok s3 ∧ window_base (host s3 i) (sport i) = Z.of_nat (length (sent s i)) ∧
    ∀ d', portToDAGinfo (host s3 i) !! sport i = Some d' → t_timer_on (di_wait d') = false.
Proof using Hentries Hfresh Hnodes Hports Hcids Hsid.
  intros H0 Hr Hd Hwait. destruct (reached_flow s0 s H0 Hr) as (base & Hinv & Hf).
  destruct (Hf i) as (Hb1 & Hb2 & d0 & slots & Hd0 & Hsl & Hw & Ht). assert (d0 = d) as -> by congruence.
  destruct (window_base_inv s base i Hinv) as (d1 & Hd1 & Hso & Harm & Hbase). assert (d1 = d) as -> by congruence.
  rewrite Hbase in Hwait. destruct (Ht ltac:(lia)) as [Hon Hdw]. split; [by apply Harm|]. intros now cid_now Hexp Hin.
  destruct (timeout_step s base i now cid_now Hinv) as (s1 & x1 & ps & dd & d' & Hr1 & He1 & Hi1 & Hdd & Hd' & Hto & _).
  assert (dd = d) as -> by congruence.
  pose proof (timed_messages d d' slots _ _ _ _ now ps Hsl Hw Hon Hdw Hexp (λ t, Hin d t Hd) Hto) as Hms.
  exists s1, ps. split; [done|]. split; [apply He1|]. split.
  { intros ->. apply Forall2_length in Hms. rewrite length_seq in Hms. simpl in Hms. lia. }
  intros ps' now1 Hc.
  assert (sent s1 i = sent s i) as Hs1 by (by rewrite (ef_sent _ _ _ _ _ _ _ He1), app_nil_r).
  destruct (receive_all (other i) now1 (length (sent s i) - base i) (base i) s1 _ ps ps' Hi1) as
    (s2 & base2 & acks & ns & Hr2 & Hi2 & Hbb & Hh & Hs & Hn & Hl & Has & Hle & Hlast).
  { by rewrite (ef_rcvd' _ _ _ _ _ _ _ He1). }
  { rewrite other_other, Hs1. done. }
  { done. }
  rewrite other_other in Hbb, Hh, Hs. rewrite upd_eq in Hbb. rewrite Hs1 in Hs.
  assert (rcvd s2 (other i) = sent s i) as Hall.
  { destruct (proj1 Hi2 (other i)) as (_ & Hp & _). rewrite other_other, Hs in Hp. destruct Hp as [tl Htl].
    pose proof (f_equal length Htl) as Hlen. rewrite length_app in Hlen. destruct tl; [by rewrite app_nil_r in Htl|simpl in Hlen; lia]. }
  exists s2, acks. do 3 (split; [done|]). intros acks' now2 Hc2.
  destruct (acks_all i now2 acks s2 base2 ns acks' Hi2 Hle Has Hc2) as (s3 & base3 & Hr3 & Hi3 & Hb3 & Hs3 & Hoff).
  { rewrite Hbb, Hs. lia. }
  rewrite Hlast in Hb3 by lia. cbn in Hb3. rewrite Hall in Hb3. exists s3. split; [done|].
  destruct (window_base_inv s3 base3 i Hi3) as (_ & _ & _ & _ & ->). split; [by rewrite Hb3|]. apply Hoff. by rewrite Hs, Hb3.
Qed.
End stream.

(** ** Witnesses *)

Definition demo_sids (i : side) : Xid := match i with Caller => demo_sid 1 | Callee => demo_sid 2 end.
Definition demo_sports (i : side) : Z := 1024.
Definition demo_system : system :=
  mkSystem (λ i, match i with Caller => demo_host 1 2 | Callee => demo_host 2 1 end) [] (λ _, []) (λ _, []).

Abbreviation demo_run := (run (λ _, None) (λ _, None) demo_entries demo_fresh demo_nodes demo_ports demo_cids demo_sports).
Abbreviation demo_may := (admissible (λ _, None) (λ _, None) demo_sids).

Lemma demo_established : established (λ _, None) (λ _, None) demo_entries demo_fresh demo_sids demo_sports demo_system.
Proof.
  destruct demo_addresses as [H1 H2]. split; [done|]. intros i. split; [done|]. split; [done|].
  destruct i; apply demo_endpoint; try done; by apply demo_homes.
Qed.

Lemma demo_sids_ne : demo_sids Caller ≠ demo_sids Callee.
Proof. done. Qed.

Definition demo_send : action := Send Caller [1; 2; 3] 0.

Lemma demo_send_may : demo_may demo_system demo_send.
Proof. cbn. split; [lia|]. split; [by apply all_bytes|lia]. Qed.

Lemma stream_in_order_witness : ∃ s, demo_run demo_system demo_send = Ok s ∧ ∀ i, rcvd s i `prefix_of` sent s (other i).
Proof.
  destruct demo_laws as (L1 & L2 & L3 & L4 & L5).
  destruct (stream_in_order (λ _, None) (λ _, None) demo_entries demo_fresh demo_nodes demo_ports demo_cids demo_sids demo_sports
    L1 L2 L3 L4 L5 demo_sids_ne demo_system demo_system demo_established (reached_init _ _ _ _ _ _ _ _ _ _)) as [_ Hok].
  destruct (Hok demo_send demo_send_may) as [s Hs]. exists s. split; [exact Hs|].
  destruct (stream_in_order (λ _, None) (λ _, None) demo_entries demo_fresh demo_nodes demo_ports demo_cids demo_sids demo_sports
    L1 L2 L3 L4 L5 demo_sids_ne demo_system s demo_established (reached_step _ _ _ _ _ _ _ _ _ _ _ _ _ (reached_init _ _ _ _ _ _ _ _ _ _) demo_send_may Hs))
    as [Hp _]. exact Hp.
Defined.

Definition demo_sent : system := match demo_run demo_system demo_send with Ok s => s | Ub _ => demo_system end.

Lemma demo_sent_run : demo_run demo_system demo_send = Ok demo_sent.
Proof. unfold demo_sent. assert (is_ok (demo_run demo_system demo_send)) as [s ->]; [|done].
  destruct demo_laws as (L1 & L2 & L3 & L4 & L5).
  destruct (send_step (λ _, None) (λ _, None) demo_entries demo_fresh demo_nodes demo_ports demo_cids demo_sids demo_sports L1 L2 L3 demo_system
    (λ _, 0%nat) Caller [1; 2; 3] 0) as (s & Hs & _); [by apply established_inv, demo_established|exact demo_send_may|by exists s].
Qed.

Lemma demo_sent_in_flow now cid_now : in_flow demo_sports demo_sent (Timeout Caller now cid_now).
Proof.
  intros d t Hd Ht. assert (default 0 (portToDAGinfo (host demo_sent Caller) !! 1024 ≫= λ d, w_num_retransmit_tries (di_win d)) <? 100 = true) as H
    by (by vm_compute).
  unfold demo_sports in Hd. rewrite Hd in H. cbn in H. rewrite Ht in H. cbn in H. unfold MAX_RETRANSMIT_TRIES. lia.
Qed.

Lemma stream_progress_witness : ∃ now s1 ps, demo_run demo_sent (Timeout Caller now (λ _, 0)) = Ok s1 ∧ net s1 = net demo_sent ++ ps ∧ ps ≠ [].
Proof.
  destruct demo_laws as (L1 & L2 & L3 & L4 & L5).
  assert (reached (λ _, None) (λ _, None) demo_entries demo_fresh demo_nodes demo_ports demo_cids demo_sports
    (λ s e, demo_may s e ∧ in_flow demo_sports s e) demo_system demo_sent) as Hr.
  { eapply reached_step; [apply reached_init| |exact demo_sent_run]. split; [exact demo_send_may|]. by vm_compute. }
  destruct (portToDAGinfo (host demo_sent Caller) !! 1024) as [d|] eqn:Hd.
  - destruct (stream_progress (λ _, None) (λ _, None) demo_entries demo_fresh demo_nodes demo_ports demo_cids demo_sids demo_sports
      L1 L2 L3 L4 L5 demo_sids_ne demo_system demo_sent Caller d demo_established Hr Hd) as [_ Hp]; [by vm_compute|].
    destruct (Hp (t_expiry (di_wait d)) (λ _, 0)) as (s1 & ps & H1 & H2 & H3 & _); [lia|apply demo_sent_in_flow|].
    exists (t_expiry (di_wait d)), s1, ps. auto.
  - exfalso. assert (bool_decide (is_Some (portToDAGinfo (host demo_sent Caller) !! 1024)) = true) as H by (by vm_compute).
    rewrite Hd in H. by apply bool_decide_eq_true in H as [??].
Defined.
