(* ===== verification/TransportSetup.v ===== *)
(** * TransportSetup: how a stream is established

    [Xsocket] and [Xconnect] at one host, [Xaccept] at the other, and the
    request and the grant that the network carries between them: the two sockets
    are the ends of an established stream of [TransportStream]. *)

From Stdlib Require Import ZArith Lia Ascii String.
From stdpp Require Import base gmap sets list.
From S2P Require Import Prelude Text ConfParse XiaPath XiaPathOrder XiaPathCodec XidText XiaPathText XiaHeader PathCopies ExtHeader RouteTable Elements HeaderView PacketRoute PacketRouteSpec PacketRouteWalk XTransport TransportWire Carriage TransportSocket TransportStream.

Local Open Scope Z_scope.

Section setup.
Context (query_xid : str → option Xid) (query_ip : str → option (list Z)).
Context (entries : kvmap → list (Z * list Z)) (fresh : nat → list Z) (fresh_nodes : Z → list xid_node).
Context (Hentries : ∀ m, entries m ≡ₚ map_to_list m) (Hfresh : ∀ n, length (fresh n) = n).
Context (Hnodes : ∀ n, 0 ≤ n → Z.of_nat (length (fresh_nodes n)) = n).

Abbreviation seg := (segment entries fresh).
Abbreviation home' := (home query_xid query_ip).
Abbreviation end_of := (endpoint query_xid query_ip entries fresh).

(** ** The sockets *)

(** A socket that was created and not used. *)
Record new_socket (d : DAGinfo) : Prop := {
  ns_sdag : a_sdag (di_addr d) = [];
  ns_slots : w_sent_pkt (di_win d) = Some (replicate (Z.to_nat MAX_WIN_SIZE) None);
  ns_tries : is_Some (w_num_retransmit_tries (di_win d));
  ns_connect : is_Some (t_num_connect_tries (di_wait d));
  ns_dataack : t_dataack_waiting (di_wait d) = false;
  ns_teardown : t_teardown_waiting (di_wait d) = false;
  ns_chunks : XIDtoTimerOn (di_chunks d) = ∅ }.

(** What [process_synack] leaves of the timer. *)
Definition granted (t : Waits) : Waits :=
  mkWaits false (t_expiry t) false (t_dataack_waiting t) (t_teardown_waiting t) (t_teardown_expiry t)
    (t_num_connect_tries t) (t_syn_pkt t).

(** A host whose socket waits for the grant. *)
Record calling (x : XTRANSPORT) (port : Z) (me peer : Xid) : Prop := {
  ca_port : port ≠ 0;
  ca_pair : pair_port x (me, peer) = port;
  ca_active : is_Some (portToActive (xt_tables x) !! port);
  ca_home : home' x me;
  ca_info : ∃ d, portToDAGinfo x !! port = Some d ∧ t_synack_waiting (di_wait d) = true ∧
    socket entries fresh (with_wait d (granted (di_wait d))) me peer [] 0 0;
  ca_idle : ∀ p d, portToDAGinfo x !! p = Some d → p ≠ port → idle d }.

Lemma home_node x x' me : xt_node x' = xt_node x → home' x me → home' x' me.
Proof using. intros Hn (s & Hs & Ha). exists s. split; [|done]. unfold local_path in *. by rewrite Hn. Qed.

Lemma empty_slots me peer sent : ∃ slots, Some (replicate (Z.to_nat MAX_WIN_SIZE) None) = Some slots ∧ length slots = 100%nat ∧
  ∀ i p, slots !! i = Some (Some p) → stored entries fresh me peer sent p.
Proof using.
  eexists. split; [done|]. split; [done|]. intros i p Hi. by apply lookup_replicate in Hi as [? _].
Qed.

Lemma syn_header : MakeSYNHeader entries fresh 0 (-1) 0 = TransportHeaderEncap entries fresh XSOCK_STREAM SYN 0 (2 ^ 32 - 1) 0.
Proof using. done. Qed.

Lemma connect_ok x c d ddag dst la src sx dx now rnd : portToDAGinfo x !! c = Some d → new_socket d → c ≠ 0 →
  is_Some (portToActive (xt_tables x) !! c) → (∀ p d, portToDAGinfo x !! p = Some d → p ≠ c → idle d) →
  (parse_path query_xid query_ip XIAPath_reset (c_chars ddag)).1 = dst → addresses dst dx →
  text_re (n_local_addr (xt_node x)) = Ok la →
  parse_path_re query_xid query_ip (la ++ space ++ random_xid (lit "SID") rnd) = src → addresses src sx → home' x sx →
  ∃ x' p, Xconnect query_xid query_ip entries fresh fresh_nodes x c ddag now rnd = Ok (x', [ToNetwork p]) ∧
    seg p dx sx SYN 0 (2 ^ 32 - 1) connection_request ∧ calling x' c sx dx.
Proof using Hentries Hfresh Hnodes.
  intros Hd [Hsd Hsl Htr [n Hn] Hda Htd Hch] Hc Hact Hidle Hdst Hadd Hla Hsrc Hads Hhome. unfold Xconnect. rewrite Hdst, Hd.
  change (default DAGinfo_new (Some d)) with d. rewrite Hn. cbn [init mbind res_bind]. rewrite Hla. cbn [mbind res_bind].
  rewrite (decide_True (P := a_sdag (di_addr d) = [])) by done. rewrite Hsrc, (ad_dst _ _ Hads). cbn [mbind res_bind].
  rewrite (ad_dst _ _ Hadd). cbn [mbind res_bind]. unfold addRoute.
  assert (∃ s, xid_unparse sx = Ok s) as [s Hs].
  { destruct Hhome as (t & Ht & _). unfold local_path in Ht. apply bind_Ok in Ht as (? & _ & Ht). apply bind_Ok in Ht as (s & Hs & _). by exists s. }
  rewrite Hs. cbn [mbind res_bind]. rewrite syn_header. set (hl := hlim_get x c).
  destruct (transport_packet_ok entries fresh fresh_nodes Hentries Hfresh Hnodes SYN 0 (2 ^ 32 - 1) hl dst src connection_request dx sx)
    as (p & -> & Hp); [done|done|unfold SYN; lia|unfold is_u32; lia|unfold is_u32; lia|cbn; lia|by apply all_bytes|].
  cbn [mbind res_bind]. set (x1 := reschedule _ _). set (d1 := mkInfo _ _ _ _).
  assert (xt_node x1 = xt_node x) as Hnode by (unfold x1, reschedule; by repeat case_match).
  pose proof (home_node x x1 sx Hnode Hhome) as Hhome1.
  destruct (relocate_ok query_xid query_ip x1 src sx Hhome1 Hads) as (src' & Hrel & Hads').
  destruct (copy_packet_ok entries fresh fresh_nodes Hentries Hfresh Hnodes query_xid query_ip x1 p d1 dx sx SYN 0 (2 ^ 32 - 1)
    connection_request dx sx src' Hp Hrel Hads' Hadd) as (q & -> & Hq).
  cbn [mbind res_bind fst snd]. eexists _, p. split; [done|]. split; [done|]. split.
  - done.
  - unfold pair_port, set_info, with_infos. cbn [xt_tables]. assert (XIDpairToPort (xt_tables x1) !! (sx, dx) = Some c) as ->; [|done].
    unfold x1, reschedule. repeat case_match; cbn; by simplify_map_eq.
  - unfold set_info, with_infos. cbn [xt_tables]. unfold x1, reschedule. repeat case_match; done.
  - by apply (home_node x).
  - eexists. split; [unfold set_info, with_infos; cbn [portToDAGinfo]; by simplify_map_eq|]. split; [done|].
    split; cbn; try done. rewrite Hsl. apply empty_slots.
  - intros pt d'. assert (portToDAGinfo x1 = portToDAGinfo x) as Hi by (unfold x1, reschedule; by repeat case_match).
    unfold set_info, with_infos. cbn [portToDAGinfo]. rewrite Hi. intros Hpt Hne. rewrite lookup_insert_ne in Hpt by done. by apply (Hidle pt).
Qed.

(** ** The request and the grant *)

(** The request arrives at the host of a bound socket: it is queued, granted, and
    the application is told. *)
Lemma syn_ok y p p' lp dl dx sx now : seg p dx sx SYN 0 (2 ^ 32 - 1) connection_request → arrives p p' dx →
  port_of y dx = lp → lp ≠ 0 → portToDAGinfo y !! lp = Some dl → a_initialized (di_addr dl) = true →
  ∃ y' q msg a, ProcessNetworkPacket entries fresh fresh_nodes y p' now =
      Ok (y', [ToNetwork q; ToApi lp (R_XRECV msg connection_request)]) ∧
    seg q sx dx SYNACK 0 0 connection_granted ∧
    y' = set_ConnectPending (with_pending y (pending_connection_buf y ++
      [mkInfo a (mkWin None None (Some 0) (Some 0) None None None) (di_wait DAGinfo_new) (di_chunks DAGinfo_new)])) (dx, sx) true ∧
    addresses (a_src_path a) dx ∧ addresses (a_dst_path a) sx ∧ a_isConnected a = true ∧ a_initialized a = true.
Proof using Hentries Hfresh Hnodes.
  intros Hseg Harr Hlp Hne Hdl Hini.
  destruct (segment_incoming entries fresh Hentries Hfresh _ _ _ _ _ _ _ _ Hseg Harr) as (dst & src & o & Hin & Hdst & Hsrc & Hn & Hpl & Hdata).
  unfold ProcessNetworkPacket. rewrite Hin. cbn [mbind res_bind]. rewrite Hn. cbn [mbind res_bind in_dst in_src in_th].
  rewrite (decide_False (P := CLICK_XIA_NXT_TRN = CLICK_XIA_NXT_XCMP)) by (unfold CLICK_XIA_NXT_TRN, CLICK_XIA_NXT_XCMP; lia).
  destruct (transport_fields XSOCK_STREAM SYN 0 (2 ^ 32 - 1) 0 o 24) as (-> & -> & _);
    [unfold XSOCK_STREAM, SYN, is_u32; lia..|]. cbn [mbind res_bind].
  rewrite (decide_True (P := XSOCK_STREAM = XSOCK_STREAM)), (decide_True (P := SYN = SYN)) by done.
  unfold process_syn. cbn [in_dst_path in_src_path in_dst in_src].
  destruct (transport_packet_ok entries fresh fresh_nodes Hentries Hfresh Hnodes SYNACK 0 0 HLIM_DEFAULT src dst connection_granted sx dx)
    as (q & Hq & Hqs); [done|done|unfold SYNACK; lia|unfold is_u32; lia|unfold is_u32; lia|cbn; lia|by apply all_bytes|].
  unfold MakeSYNACKHeader. rewrite Hq. cbn [mbind res_bind fst snd]. unfold finish. rewrite Hlp, decide_True by done.
  match goal with |- context [deliver_up ?y1 _ _] => destruct (deliver_up_ok y1 lp dl p' dst src dx sx o connection_request SYN 0 (2 ^ 32 - 1))
    as (msg & ->); [exact Hdl|done|done|done|exact Hpl|exact Hdata|] end.
  cbn [mbind res_bind fst snd app]. eexists _, q, msg, _. split; [done|]. split; [done|]. split; [done|]. done.
Qed.

(** The connection is accepted on a new port. *)
Lemma accept_ok y ap a dx sx : ap ≠ 0 → home' y dx → (∀ p d, portToDAGinfo y !! p = Some d → idle d) →
  pending_connection_buf y = [mkInfo a (mkWin None None (Some 0) (Some 0) None None None) (di_wait DAGinfo_new) (di_chunks DAGinfo_new)] →
  addresses (a_src_path a) dx → addresses (a_dst_path a) sx → a_isConnected a = true → a_initialized a = true →
  ∃ y' dag, Xaccept y ap = Ok (y', [ToApi ap (R_XACCEPT dag)]) ∧ end_of y' ap dx sx [] 0 0.
Proof using.
  intros Hap Hhome Hidle Hpend Hsrc Hdst Hcon Hini. unfold Xaccept. cbn [pending_connection_buf set_nxt_xport set_hlim_of with_tables].
  rewrite Hpend. cbn [di_addr di_win di_wait di_chunks a_src_path a_dst_path].
  rewrite (ad_dst _ _ Hsrc). cbn [mbind res_bind]. rewrite (ad_dst _ _ Hdst). cbn [mbind res_bind].
  destruct (addresses_text _ _ Hdst) as [dag ->]. cbn [mbind res_bind]. eexists _, dag. split; [done|]. split.
  - done.
  - unfold pair_port. cbn. by simplify_map_eq.
  - cbn. by simplify_map_eq.
  - by apply (home_node y).
  - eexists. split; [unfold set_info, with_infos; cbn; by simplify_map_eq|]. split; [|done]. split; try done. apply empty_slots.
  - intros pt d'. cbn. intros Hpt Hne. rewrite lookup_insert_ne in Hpt by done. by apply (Hidle pt).
Qed.

(** The grant arrives. *)
Lemma synack_ok x c q q' sx dx now : calling x c sx dx → seg q sx dx SYNACK 0 0 connection_granted → arrives q q' sx →
  ∃ x' msg, ProcessNetworkPacket entries fresh fresh_nodes x q' now = Ok (x', [ToApi c (R_XRECV msg connection_granted)]) ∧
    end_of x' c sx dx [] 0 0.
Proof using Hentries Hfresh.
  intros [Hc Hpair Hact Hhome (d & Hd & Hsw & Hso) Hidle] Hseg Harr.
  destruct (segment_incoming entries fresh Hentries Hfresh _ _ _ _ _ _ _ _ Hseg Harr) as (dst & src & o & Hin & Hdst & Hsrc & Hn & Hpl & Hdata).
  unfold ProcessNetworkPacket. rewrite Hin. cbn [mbind res_bind]. rewrite Hn. cbn [mbind res_bind in_dst in_src in_th].
  rewrite (decide_False (P := CLICK_XIA_NXT_TRN = CLICK_XIA_NXT_XCMP)) by (unfold CLICK_XIA_NXT_TRN, CLICK_XIA_NXT_XCMP; lia).
  destruct (transport_fields XSOCK_STREAM SYNACK 0 0 0 o 24) as (-> & -> & _); [unfold XSOCK_STREAM, SYNACK, is_u32; lia..|].
  cbn [mbind res_bind]. rewrite (decide_True (P := XSOCK_STREAM = XSOCK_STREAM)), (decide_False (P := SYNACK = SYN)),
    (decide_True (P := SYNACK = SYNACK)) by (unfold SYN, SYNACK; lia).
  unfold process_synack, info_at. rewrite Hpair, Hd. cbn [mbind res_bind fst snd]. rewrite Hsw. unfold finish. rewrite decide_True by done.
  change (mkWaits false _ false _ _ _ _ _) with (granted (di_wait d)). set (d' := with_wait d (granted (di_wait d))) in *.
  destruct (deliver_up_ok (set_info x c d') c d' q' dst src sx dx o connection_granted SYNACK 0 0) as (msg & ->);
    [unfold set_info, with_infos; cbn; by simplify_map_eq|apply Hso|done..|].
  cbn [mbind res_bind fst snd app]. eexists _, msg. split; [done|]. split; try done.
  - exists d'. split; [unfold set_info, with_infos; cbn; by simplify_map_eq|]. split; [done|]. by intros ?.
  - intros pt d2. unfold set_info, with_infos. cbn. intros Hpt Hne. rewrite lookup_insert_ne in Hpt by done. by apply (Hidle pt).
Qed.

Lemma xsocket_new x c type : ∃ d, portToDAGinfo (Xsocket x c type).1 !! c = Some d ∧ new_socket d ∧
  is_Some (portToActive (xt_tables (Xsocket x c type).1) !! c) ∧ xt_node (Xsocket x c type).1 = xt_node x ∧
  ∀ p d', portToDAGinfo (Xsocket x c type).1 !! p = Some d' → p ≠ c → portToDAGinfo x !! p = Some d'.
Proof using.
  eexists. cbn. split; [by simplify_map_eq|]. split; [by split; try eexists|]. split; [by simplify_map_eq|]. split; [done|].
  intros p d' Hp Hne. by rewrite lookup_insert_ne in Hp.
Qed.

(** ** The theorem *)

(** Two hosts with the ends of a stream, before anything is sent. *)
Definition stream_of (x y : XTRANSPORT) : system :=
  mkSystem (λ i, match i with Caller => x | Callee => y end) [] (λ _, []) (λ _, []).
Definition two {A} (a b : A) (i : side) : A := match i with Caller => a | Callee => b end.

(** C25: a socket that is created and connected to the address of a service sends
    a request; when the network carries it to the host of a socket that is bound
    to the service, that host queues and grants it and tells the application,
    whose [Xaccept] succeeds; when the grant is carried back, the caller is told,
    and the two sockets are the ends of an established stream. *)
Theorem handshake_establishes x y c lp ap dl ddag dst la src sx dx now rnd : c ≠ 0 → ap ≠ 0 → lp ≠ 0 →
  (∀ p d, portToDAGinfo x !! p = Some d → idle d) → (∀ p d, portToDAGinfo y !! p = Some d → idle d) →
  (parse_path query_xid query_ip XIAPath_reset (c_chars ddag)).1 = dst → addresses dst dx →
  text_re (n_local_addr (xt_node x)) = Ok la →
  parse_path_re query_xid query_ip (la ++ space ++ random_xid (lit "SID") rnd) = src → addresses src sx →
  home' x sx → home' y dx → port_of y dx = lp → portToDAGinfo y !! lp = Some dl → a_initialized (di_addr dl) = true →
  pending_connection_buf y = [] →
  ∃ x1 p, Xconnect query_xid query_ip entries fresh fresh_nodes (Xsocket x c XSOCK_STREAM).1 c ddag now rnd = Ok (x1, [ToNetwork p]) ∧
  ∀ p' t, carried_to dx p p' →
  ∃ y1 q m1, ProcessNetworkPacket entries fresh fresh_nodes y p' t = Ok (y1, [ToNetwork q; ToApi lp (R_XRECV m1 connection_request)]) ∧
  ∃ y2 dag, Xaccept y1 ap = Ok (y2, [ToApi ap (R_XACCEPT dag)]) ∧
  ∀ q' t', carried_to sx q q' →
  ∃ x2 m2, ProcessNetworkPacket entries fresh fresh_nodes x1 q' t' = Ok (x2, [ToApi c (R_XRECV m2 connection_granted)]) ∧
    established query_xid query_ip entries fresh (two sx dx) (two c ap) (stream_of x2 y2).
Proof using Hentries Hfresh Hnodes.
  intros Hc Hap Hlp Hix Hiy Hdst Hadd Hla Hsrc Hads Hhx Hhy Hport Hdl Hini Hpend.
  destruct (xsocket_new x c XSOCK_STREAM) as (d & Hd & Hnew & Hact & Hnode & Hold).
  destruct (connect_ok (Xsocket x c XSOCK_STREAM).1 c d ddag dst la src sx dx now rnd) as (x1 & p & Hcon & Hp & Hcall);
    try done; [by intros pt d' Hpt Hne; eapply Hix, Hold|].
  exists x1, p. split; [done|]. intros p' t (_ & Hcar & Hland). pose proof (segment_arrives _ _ _ _ _ _ _ _ _ _ Hp Hcar Hland) as Harr.
  destruct (syn_ok y p p' lp dl dx sx t) as (y1 & q & m1 & a & Hsyn & Hq & -> & Ha1 & Ha2 & Ha3 & Ha4); try done.
  eexists _, q, m1. split; [done|]. match goal with |- context [Xaccept ?y1 ap] =>
    destruct (accept_ok y1 ap a dx sx) as (y2 & dag & Hacc & Hey) end; try done; [cbn; by rewrite Hpend|].
  exists y2, dag. split; [done|]. intros q' t' (_ & Hcar' & Hland'). pose proof (segment_arrives _ _ _ _ _ _ _ _ _ _ Hq Hcar' Hland') as Harr'.
  destruct (synack_ok x1 c q q' sx dx t') as (x2 & m2 & Hsa & Hex); [done..|]. exists x2, m2. split; [done|].
  split; [done|]. intros []; done.
Qed.
End setup.

(** ** Witness *)

(** A host without sockets, and one with a socket bound to its service. *)
Definition demo_caller : XTRANSPORT := mkXT None (demo_local 1) (mkTables ∅ ∅ ∅ ∅ ∅ ∅ ∅) ∅ [] [] demo_table.
Definition demo_listener : DAGinfo :=
  mkInfo (mkAddr 80 (demo_service 2) XIAPath_reset None None None false None true true None [] [])
    (di_win DAGinfo_new) (di_wait DAGinfo_new) (di_chunks DAGinfo_new).
Definition demo_callee : XTRANSPORT :=
  mkXT None (demo_local 2) (mkTables {[demo_sid 2 := 80]} ∅ ∅ {[80 := true]} ∅ ∅ ∅) {[80 := demo_listener]} [] [] demo_table.

Definition demo_ddag : str := match text_of (demo_service 2) with Ok t => t | Ub _ => [] end.
Definition demo_la : str := match text_re (demo_addr 1) with Ok t => t | Ub _ => [] end.
Definition demo_src : XIAPath := parse_path_re (λ _, None) (λ _, None) (demo_la ++ space ++ random_xid (lit "SID") 77).
Definition demo_me : Xid := match destination_xid demo_src with Ok x => x | Ub _ => Xid_undef end.

Lemma handshake_establishes_witness : ∃ x1 p, Xconnect (λ _, None) (λ _, None) demo_entries demo_fresh demo_nodes
  (Xsocket demo_caller 1025 XSOCK_STREAM).1 1025 demo_ddag 0 77 = Ok (x1, [ToNetwork p]).
Proof.
  destruct demo_laws as (L1 & L2 & L3 & _ & _). destruct demo_addresses as [_ H2].
  destruct (handshake_establishes (λ _, None) (λ _, None) demo_entries demo_fresh demo_nodes L1 L2 L3 demo_caller demo_callee 1025 80 1026
    demo_listener demo_ddag (parse_path (λ _, None) (λ _, None) XIAPath_reset (c_chars demo_ddag)).1 demo_la demo_src demo_me (demo_sid 2) 0 77)
    as (x1 & p & Hrun & _); [lia|lia|lia| | |reflexivity| |by vm_compute|reflexivity| | |by apply demo_homes| | |reflexivity|reflexivity|by exists x1, p].
  - intros p d Hp. cbn in Hp. by rewrite lookup_empty in Hp.
  - intros p d Hp. cbn in Hp. destruct (decide (p = 80)) as [->|Hne]; [|by rewrite lookup_singleton_ne in Hp].
    rewrite lookup_singleton_eq in Hp. by injection Hp as <-.
  - apply addresses_checked. by vm_compute.
  - apply addresses_checked. by vm_compute.
  - eexists. split; [by vm_compute|]. apply addresses_checked. by vm_compute.
  - by vm_compute.
  - by vm_compute.
Defined.
