(* ===== verification/TransportFaults.v ===== *)
(** * TransportFaults: where the transport fails

    Packets that stop a stream or the whole element, and a close that ends in
    undefined behaviour. *)

From Stdlib Require Import ZArith Lia Ascii String.
From stdpp Require Import base gmap sets list.
From S2P Require Import Prelude Text ConfParse XiaPath XiaPathOrder XiaPathCodec XidText XiaPathText XiaHeader PathCopies ExtHeader RouteTable Elements HeaderView PacketRoute PacketRouteSpec PacketRouteWalk XTransport TransportWire Carriage TransportSocket TransportStream TransportSetup.

Local Open Scope Z_scope.

Section faults.
Context (query_xid : str → option Xid) (query_ip : str → option (list Z)).
Context (entries : kvmap → list (Z * list Z)) (fresh : nat → list Z) (fresh_nodes : Z → list xid_node).
Context (port_order : gmap Z DAGinfo → list Z) (cid_order : gmap Xid bool → list Xid).
Context (Hentries : ∀ m, entries m ≡ₚ map_to_list m) (Hfresh : ∀ n, length (fresh n) = n).
Context (Hnodes : ∀ n, 0 ≤ n → Z.of_nat (length (fresh_nodes n)) = n).
Context (Hports : ∀ m, port_order m ≡ₚ (map_to_list m).*1) (Hcids : ∀ m, cid_order m ≡ₚ (map_to_list m).*1).

Abbreviation seg := (segment entries fresh).
Abbreviation receive' := (ProcessNetworkPacket entries fresh fresh_nodes).
Abbreviation run_timer' := (run_timer query_xid query_ip entries fresh fresh_nodes port_order cid_order).

(** The branch for a grant. *)
Lemma receive_synack x q q' me peer dt now : seg q me peer SYNACK 0 0 dt → arrives q q' me →
  ∃ i, in_b i = q' ∧ receive' x q' now =
    (r ← process_synack x i (pair_port x (me, peer)); finish r.1 i (pair_port x (me, peer)) r.2 []).
Proof using Hentries Hfresh.
  intros Hseg Harr.
  destruct (segment_incoming entries fresh Hentries Hfresh _ _ _ _ _ _ _ _ Hseg Harr) as (dst & src & o & Hin & _ & _ & Hn & _).
  eexists (mkIn q' dst src me peer _). split; [done|]. unfold ProcessNetworkPacket. rewrite Hin. cbn [mbind res_bind]. rewrite Hn.
  cbn [mbind res_bind in_dst in_src in_th].
  rewrite (decide_False (P := CLICK_XIA_NXT_TRN = CLICK_XIA_NXT_XCMP)) by (unfold CLICK_XIA_NXT_TRN, CLICK_XIA_NXT_XCMP; lia).
  destruct (transport_fields XSOCK_STREAM SYNACK 0 0 0 o 24) as (-> & -> & _); [unfold XSOCK_STREAM, SYNACK, is_u32; lia..|].
  cbn [mbind res_bind]. by rewrite (decide_True (P := XSOCK_STREAM = XSOCK_STREAM)), (decide_False (P := SYNACK = SYN)),
    (decide_True (P := SYNACK = SYNACK)) by (unfold SYN, SYNACK; lia).
Qed.

(** a grant for a connection the host does not know is undefined behaviour:
    the element follows the pointer to a socket it has not found.  Any host can
    send such a packet. *)
Theorem stray_synack_undefined x q q' me peer dt now : seg q me peer SYNACK 0 0 dt → arrives q q' me →
  portToDAGinfo x !! pair_port x (me, peer) = None → receive' x q' now = Ub NullDeref.
Proof using Hentries Hfresh.
  intros Hseg Harr Hno. destruct (receive_synack x q q' me peer dt now Hseg Harr) as (i & _ & ->).
  unfold process_synack, info_at. by rewrite Hno.
Qed.

(** a second grant (the network repeats packets, and every request is granted)
    switches the timer of an established stream off: no message is sent again,
    however many wait for an acknowledgement, until the next one is sent. *)
Theorem late_synack_stops_timer x port me peer sent base n q q' dt now :
  endpoint query_xid query_ip entries fresh x port me peer sent base n →
  seg q me peer SYNACK 0 0 dt → arrives q q' me →
  ∃ x', receive' x q' now = Ok (x', []) ∧ endpoint query_xid query_ip entries fresh x' port me peer sent base n ∧
    ∀ now' cid_now, ∃ x'', run_timer' x' now' cid_now = Ok (x'', []).
Proof using Hentries Hfresh Hnodes Hports Hcids.
  intros Hep Hseg Harr. destruct (receive_synack x q q' me peer dt now Hseg Harr) as (i & _ & ->).
  rewrite (ep_pair _ _ _ _ _ _ _ _ _ _ _ Hep). pose proof Hep as [_ _ _ _ (d & Hd & Hso & _) _].
  unfold process_synack, info_at. rewrite Hd. cbn [mbind res_bind fst snd]. rewrite (so_synack _ _ _ _ _ _ _ _ Hso). unfold finish.
  rewrite decide_False by (by intros [_ ?]). rewrite decide_False by apply Hep. change (mkWaits false _ false _ _ _ _ _) with (granted (di_wait d)).
  eexists. split; [done|]. set (d' := with_wait d (granted (di_wait d))).
  assert (endpoint query_xid query_ip entries fresh (set_info x port d') port me peer sent base n) as Hep'.
  { eapply endpoint_update; [done..|reflexivity| |done]. by destruct Hso. }
  split; [done|]. intros now' cid_now.
  destruct (timer_ok query_xid query_ip entries fresh fresh_nodes port_order cid_order Hentries Hfresh Hnodes Hports Hcids _ _ _ _ _ _ _ now' cid_now Hep')
    as (x'' & ps & d1 & d2 & Hrun & _ & Hd1 & _ & slots & _ & _ & Hto).
  assert (d1 = d') as -> by (unfold set_info, with_infos in Hd1; cbn [portToDAGinfo] in Hd1; rewrite lookup_insert_eq in Hd1; congruence).
  rewrite decide_False in Hto by (by intros [? _]). destruct Hto as [-> _]. by exists x''.
Qed.

(** when a stream without unacknowledged messages has been closed, the timer
    that should remove the socket is undefined behaviour: the socket is erased
    while the loop still uses it. *)
Theorem close_undefined x port me peer sent n now : endpoint query_xid query_ip entries fresh x port me peer sent (length sent) n →
  (∀ d, portToDAGinfo x !! port = Some d → t_dataack_waiting (di_wait d) = false) →
  ∃ x', Xclose x port now = Ok (x', [ReturnResult port XCLOSE 0 0]) ∧
    ∀ now' cid_now, now + make_msec TEARDOWN_DELAY ≤ now' → run_timer' x' now' cid_now = Ub NullDeref.
Proof using Hports Hcids.
  intros Hep Hdw. pose proof Hep as [_ _ _ _ (d & Hd & Hso & _) Hidle]. specialize (Hdw d Hd).
  unfold Xclose, info_at. rewrite Hd. cbn [mbind res_bind]. eexists. split; [done|]. intros now' cid_now Hlate.
  set (t := mkWaits _ _ _ _ _ _ _ _). set (x' := with_listeners _ _).
  assert (portToDAGinfo (with_timer x' None) = <[port := with_wait d t]> (portToDAGinfo x)) as Hm.
  { unfold x'. cbn. f_equal. unfold reschedule. by repeat case_match. }
  destruct (ports_split port_order Hports (portToDAGinfo (with_timer x' None)) port (with_wait d t)) as (l1 & l2 & Hl & Hne);
    [rewrite Hm; by rewrite lookup_insert_eq|].
  unfold run_timer. rewrite Hl, foldM_app. rewrite (idle_timeouts query_xid query_ip entries fresh fresh_nodes cid_order Hcids).
  - cbn [mbind res_bind foldM]. unfold socket_timeout, info_at. rewrite Hm, lookup_insert_eq. cbn [mbind res_bind with_wait di_wait].
    unfold t. cbn [t_timer_on t_synack_waiting t_dataack_waiting t_teardown_waiting t_expiry t_teardown_expiry].
    rewrite (so_synack _ _ _ _ _ _ _ _ Hso), Hdw. rewrite !(decide_False (P := false = true ∧ _)) by (by intros [? _]).
    by rewrite decide_True.
  - intros p Hp. destruct (Hne p ltac:(by left)) as (Hpn & dp & Hdp). exists dp. split; [done|]. rewrite Hm, lookup_insert_ne in Hdp by done.
    by apply (Hidle p).
Qed.
End faults.

(** ** Witnesses *)

(** A grant from the host number 2 to the host number 1, where it is sent from and
    where it arrives. *)
Definition demo_grant : list Z :=
  match transport_packet demo_entries demo_fresh demo_nodes (MakeSYNACKHeader demo_entries demo_fresh 0 0 0) 250 (demo_service 1) (demo_service 2)
    connection_granted with Ok b => b | Ub _ => [] end.
Definition demo_grant' : list Z := <[7%nat := 2]> demo_grant.

Lemma demo_grant_ok : segment demo_entries demo_fresh demo_grant (demo_sid 1) (demo_sid 2) SYNACK 0 0 connection_granted ∧
  arrives demo_grant demo_grant' (demo_sid 1).
Proof.
  destruct demo_laws as (L1 & L2 & L3 & _ & _). destruct demo_addresses as [H1 H2].
  destruct (transport_packet_ok demo_entries demo_fresh demo_nodes L1 L2 L3 SYNACK 0 0 250 (demo_service 1) (demo_service 2) connection_granted
    (demo_sid 1) (demo_sid 2)) as (b & Hb & Hseg); [done|done|unfold SYNACK; lia|unfold is_u32; lia|unfold is_u32; lia|cbn; lia|by apply all_bytes|].
  assert (demo_grant = b) as Heq by (unfold demo_grant, MakeSYNACKHeader; by rewrite Hb). rewrite <-Heq in Hseg. split; [done|].
  apply (segment_at_end demo_entries demo_fresh _ _ (demo_sid 2) SYNACK 0 0 connection_granted 3); [done|by vm_compute|lia|by vm_compute].
Qed.

Lemma stray_synack_undefined_witness :
  ProcessNetworkPacket demo_entries demo_fresh demo_nodes demo_caller demo_grant' 0 = Ub NullDeref.
Proof.
  destruct demo_laws as (L1 & L2 & _). destruct demo_grant_ok as [Hs Ha].
  apply (stray_synack_undefined demo_entries demo_fresh demo_nodes L1 L2 demo_caller _ _ _ _ _ 0 Hs Ha). by vm_compute.
Defined.

Lemma late_synack_stops_timer_witness : ∃ x, ProcessNetworkPacket demo_entries demo_fresh demo_nodes (demo_host 1 2) demo_grant' 0 = Ok (x, []).
Proof.
  destruct demo_laws as (L1 & L2 & L3 & L4 & L5). destruct demo_grant_ok as [Hs Ha]. destruct demo_addresses as [H1 H2].
  destruct (late_synack_stops_timer (λ _, None) (λ _, None) demo_entries demo_fresh demo_nodes demo_ports demo_cids L1 L2 L3 L4 L5
    (demo_host 1 2) 1024 (demo_sid 1) (demo_sid 2) [] 0 0 _ _ _ 0 (demo_endpoint 1 2 H1 H2 (proj1 (demo_homes (demo_host 1 2)) eq_refl)) Hs Ha) as (x & Hx & _).
  exists x. exact Hx.
Defined.

Lemma close_undefined_witness : ∃ x, Xclose (demo_host 1 2) 1024 0 = Ok (x, [ReturnResult 1024 XCLOSE 0 0]).
Proof.
  destruct demo_laws as (L1 & L2 & L3 & L4 & L5). destruct demo_addresses as [H1 H2].
  destruct (close_undefined (λ _, None) (λ _, None) demo_entries demo_fresh demo_nodes demo_ports demo_cids L4 L5
    (demo_host 1 2) 1024 (demo_sid 1) (demo_sid 2) [] 0 0 (demo_endpoint 1 2 H1 H2 (proj1 (demo_homes (demo_host 1 2)) eq_refl))) as (x & Hx & _).
  - intros d Hd. cbn in Hd. by injection Hd as <-.
  - exists x. exact Hx.
Defined.
