(* ===== verification/ContentHash.v ===== *)
(** Chunks of content are named by their hash: what the transport element
    compares when a chunk arrives, with the hash function of the router. *)

From Stdlib Require Import ZArith Lia Ascii String.
From stdpp Require Import base gmap list.
From S2P Require Import Prelude Text XidText XiaPath XiaHeader ExtHeader Sha1 Sha1Spec XTransport TransportSocket.
Local Open Scope Z_scope.

(** The calls of the hash function in the element, on one piece of data; [junk]
    is the memory of the context on the stack.  Only for empty data a word is
    loaded that was never written ([piece_hash]), and its value is not used. *)
Definition element_hash (junk : list (option Z)) (data : list Z) : list Z :=
  match sha1_pieces false junk [data] with Ok d => d | Ub _ => [] end.

Lemma element_hash_sha1 junk data : length junk = 16%nat → Forall is_byte data → element_hash junk data = sha1 data.
Proof.
  intros Hj Hd. unfold element_hash. rewrite pieces_hash; [|done|done|by constructor]. simpl. by rewrite app_nil_r.
Qed.

(** ** Digests as names *)

Lemma digest_id h : length (digest h) = 20%nat ∧ Forall is_byte (digest h).
Proof.
  unfold digest. split; [by rewrite !length_app, !length_be_bytes|].
  rewrite !Forall_app. unfold be_bytes. repeat split; apply Forall_rev, le_bytes_are_bytes.
Qed.

Lemma sha1_id data : length (sha1 data) = 20%nat ∧ Forall is_byte (sha1 data).
Proof. apply digest_id. Qed.

Definition CID_WORD : Z := htonl CLICK_XIA_XID_TYPE_CID.

Lemma print_hex_lower fuel n acc : Forall (λ c, code c ≠ 67) acc → Forall (λ c, code c ≠ 67) (print_hex_digits fuel n acc).
Proof.
  revert n acc. induction fuel as [|fuel IH]; intros n acc Ha; [done|]. cbn [print_hex_digits].
  assert (Forall (λ c, code c ≠ 67) (digit (n mod 16) :: acc)) as Hd.
  { constructor; [|done]. pose proof (Z.mod_pos_bound n 16). generalize dependent (n mod 16). intros d Hd.
    assert (d ∈ seqZ 0 16) as Hin by (apply elem_of_seqZ; lia). clear Hd. revert d Hin. apply Forall_forall.
    by repeat constructor. }
  case_decide; auto.
Qed.

Lemma type_string_cid t : 0 ≤ t < 2 ^ 32 → xid_type_string t = lit "CID" ↔ t = CID_WORD.
Proof.
  intros Ht. split; [|by intros ->]. intros Heq. destruct (decide (known_word t)) as [Hk|Hk].
  - unfold known_word in Hk. cbn [map] in Hk. rewrite !elem_of_cons, elem_of_nil in Hk.
    destruct_or!; subst; done || by vm_compute in Heq.
  - rewrite unknown_word_print in Heq by done. unfold print_x in Heq.
    pose proof (print_hex_lower 8 t [] (Forall_nil_2 _)) as Hl. rewrite Heq in Hl. by inversion Hl.
Qed.

Lemma hex_inj a b : Forall is_byte a → Forall is_byte b → length a = length b → a ≫= print_02x = b ≫= print_02x → a = b.
Proof. intros Ha Hb Hl Heq. rewrite <-(read_id_print a), <-(read_id_print b) by done. by rewrite Heq, Hl. Qed.

(** The text of a hash is that of an XID exactly when the XID is the hash. *)
Lemma cid_text_name x s d : length (xid_id x) = 20%nat → Forall is_byte (xid_id x) → 0 ≤ xid_type x < 2 ^ 32 →
  length d = 20%nat → Forall is_byte d → xid_unparse x = Ok s →
  lit "CID:" ++ (d ≫= print_02x) = s ↔ x = mkXid CID_WORD d.
Proof.
  intros Hl Hb Ht Hld Hd Hs. unfold xid_unparse in Hs. case_decide; [|done]. injection Hs as <-.
  change (lit "CID:") with (lit "CID" ++ [":"%char]). rewrite <-app_assoc. cbn [app]. destruct x as [t id]. cbn [xid_type xid_id] in *.
  split.
  - intros Heq. apply app_inj_2 in Heq as [H1 H2]; [|cbn [length]; by rewrite !length_hex, Hl, Hld].
    injection H2 as H2. apply hex_inj in H2 as <-; [|done|done|congruence]. f_equal. by apply type_string_cid.
  - intros [= -> ->]. done.
Qed.

(** ** An answer to a request *)

(** What the element takes as the data of a packet. *)
Definition chunk_data (b : list Z) : res (list Z) := o ← payload b; plen ← hdr_plen b; bytes_at b o plen.

Section element.
Variable query_xid : str → option Xid.
Variable query_ip : str → option (list Z).
Variable entries : kvmap → list (Z * list Z).
Variable fresh : nat → list Z.
Variable fresh_nodes : Z → list xid_node.
Variable junk : list (option Z).
Hypothesis Hjunk : length junk = 16%nat.

Abbreviation response := (process_response query_xid query_ip entries fresh fresh_nodes (element_hash junk)).

Lemma chunk_data_bytes b data : Forall is_byte b → chunk_data b = Ok data → Forall is_byte data.
Proof.
  intros Hb H. unfold chunk_data in H. apply bind_Ok in H as (o & _ & H). apply bind_Ok in H as (n & _ & H).
  unfold bytes_at in H. case_decide; [|done]. injection H as <-. by apply Forall_take, Forall_drop.
Qed.

Lemma copy_keeps_chunks x b d r : copy_cid_response_packet query_xid query_ip entries fresh fresh_nodes x b d = Ok r →
  di_chunks r.1 = di_chunks d.
Proof.
  unfold copy_cid_response_packet, copy_common. intros H.
  apply bind_Ok in H as (de & Hde & H). repeat (apply bind_Ok in H as (? & _ & H)). injection H as <-. cbn [fst].
  apply bind_Ok in Hde as (src & _ & H). repeat (apply bind_Ok in H as (? & _ & H)). by injection H as <-.
Qed.

Lemma response_status x b src cid port d0 r : Forall is_byte b → xid_ok cid → Forall is_byte (xid_id cid) →
  portToDAGinfo x !! port = Some d0 → response x b src cid port = Ok r →
  ∃ data d, chunk_data b = Ok data ∧ portToDAGinfo r.1 !! port = Some d ∧
    XIDtoStatus (di_chunks d) !! cid = Some (if decide (cid = mkXid CID_WORD (sha1 data)) then READY_TO_READ else INVALID_HASH) ∧
    XIDtoTimerOn (di_chunks d) !! cid = None ∧
    (XIDtoReadReq (di_chunks d0) !! cid = Some true → ∃ s, r.2 = [ToApi port (R_XREADCHUNK s data)]).
Proof using Hjunk.
  intros Hb [Ht Hl] Hid Hd0 H. unfold process_response, info_at in H. rewrite Hd0 in H. cbn [mbind res_bind] in H.
  apply bind_Ok in H as (o & Ho & H). apply bind_Ok in H as (n & Hn & H). apply bind_Ok in H as (data & Hdata & H).
  assert (chunk_data b = Ok data) as Hcd by (unfold chunk_data; rewrite Ho; cbn [mbind res_bind]; by rewrite Hn).
  apply bind_Ok in H as (text & Htext & H). exists data.
  assert ((if decide (cid_text (element_hash junk) data = text) then READY_TO_READ else INVALID_HASH) =
    if decide (cid = mkXid CID_WORD (sha1 data)) then READY_TO_READ else INVALID_HASH) as Hst.
  { unfold cid_text, hash_text. rewrite element_hash_sha1 by (done || by apply (chunk_data_bytes b)).
    destruct (sha1_id data) as [H20 Hbs]. apply decide_ext. by apply cid_text_name. }
  rewrite Hst in H. cbn [XIDtoReadReq] in H. set (st := if decide (cid = _) then _ else _) in *. clearbody st. clear Hst.
  case_decide as Hreq.
  - apply bind_Ok in H as (s & _ & H). injection H as <-. eexists. split; [done|]. cbn [fst snd].
    split; [apply lookup_insert_eq|]. cbn [di_chunks with_chunks XIDtoStatus XIDtoTimerOn].
    split; [apply lookup_insert_eq|]. split; [apply lookup_delete_eq|]. intros _. by exists s.
  - apply bind_Ok in H as (dp & Hdp & H). apply copy_keeps_chunks in Hdp. injection H as <-. eexists. split; [done|]. cbn [fst snd].
    split; [apply lookup_insert_eq|]. rewrite Hdp. cbn [di_chunks with_chunks XIDtoStatus XIDtoTimerOn].
    split; [apply lookup_insert_eq|]. split; [apply lookup_delete_eq|]. done.
Qed.

Lemma put_name x sport ctx ttl size policy data now r : Forall is_byte data →
  XputChunk query_xid query_ip entries fresh fresh_nodes (element_hash junk) x sport ctx ttl size policy data now = Ok r →
  r.1 = x ∧ ∃ p s, r.2 = [ToCache p; ToApi sport (R_XPUTCHUNK ctx s ttl now data)] ∧
    ∀ old, query_xid (lit "CID:" ++ s) = None → xid_parse query_xid query_ip old (lit "CID:" ++ s) = mkXid CID_WORD (sha1 data).
Proof using Hjunk.
  intros Hd H. unfold XputChunk in H. apply bind_Ok in H as (la & _ & H). apply bind_Ok in H as (e & _ & H). injection H as <-.
  split; [done|]. eexists _, _. split; [done|]. intros old Hq. unfold hash_text in *. rewrite element_hash_sha1 in Hq by done. rewrite element_hash_sha1 by done.
  destruct (sha1_id data) as [H20 Hbs]. unfold xid_parse.
  pose proof (cp_xid_print query_xid query_ip (mkXid CID_WORD (sha1 data))) as Hp. cbn [xid_type xid_id] in Hp.
  change (lit "CID:" ++ ?z) with (lit "CID" ++ ":"%char :: z) in Hq |- *.
  change (lit "CID") with (xid_type_string CID_WORD) in Hq |- *. assert (known_word CID_WORD) as Hk by (apply (bool_decide_unpack _); by vm_compute).
  by rewrite Hp.
Qed.

(** C26: content is named by its SHA-1.  The name an application gets for a chunk
    it puts is the CID with the hash of the data.  When the answer to a request
    arrives, its status is that it may be read exactly when the CID is the hash
    of the data, and it is not requested again; an application that already
    waits for it is given the data whatever the status. *)
Theorem content_named_by_hash :
  (∀ x sport ctx ttl size policy data now r, Forall is_byte data →
    XputChunk query_xid query_ip entries fresh fresh_nodes (element_hash junk) x sport ctx ttl size policy data now = Ok r →
    r.1 = x ∧ ∃ p s, r.2 = [ToCache p; ToApi sport (R_XPUTCHUNK ctx s ttl now data)] ∧
      ∀ old, query_xid (lit "CID:" ++ s) = None → xid_parse query_xid query_ip old (lit "CID:" ++ s) = mkXid CID_WORD (sha1 data)) ∧
  (∀ x b dst src sid cid ch op d0 r,
    Forall is_byte b → dst_path b = Ok dst → src_path b = Ok src →
    destination_xid dst = Ok sid → destination_xid src = Ok cid → xid_ok cid → Forall is_byte (xid_id cid) →
    XIAGenericExtHeader_of b = Ok ch → ch_opcode ch = Ok op → op ≠ OP_PUSH → pair_port x (sid, cid) ≠ 0 →
    portToDAGinfo x !! pair_port x (sid, cid) = Some d0 →
    ProcessCachePacket query_xid query_ip entries fresh fresh_nodes (element_hash junk) x b = Ok r →
    ∃ data d, chunk_data b = Ok data ∧ portToDAGinfo r.1 !! pair_port x (sid, cid) = Some d ∧
      XIDtoStatus (di_chunks d) !! cid = Some (if decide (cid = mkXid CID_WORD (sha1 data)) then READY_TO_READ else INVALID_HASH) ∧
      XIDtoTimerOn (di_chunks d) !! cid = None ∧
      (XIDtoReadReq (di_chunks d0) !! cid = Some true → ∃ s, r.2 = [ToApi (pair_port x (sid, cid)) (R_XREADCHUNK s data)])).
Proof using Hjunk.
  split; [intros *; apply put_name|]. intros * Hb Hdst Hsrc Hsid Hcid Hok Hid Hch Hop Hpush Hport Hd0 H.
  unfold ProcessCachePacket in H. rewrite Hdst in H. cbn [mbind res_bind] in H. rewrite Hsrc in H. cbn [mbind res_bind] in H.
  rewrite Hsid in H. cbn [mbind res_bind] in H. rewrite Hcid in H. cbn [mbind res_bind] in H. rewrite Hch in H.
  cbn [mbind res_bind] in H. rewrite Hop in H. cbn [mbind res_bind] in H. rewrite decide_False in H by done.
  apply bind_Ok in H as (? & _ & H). apply bind_Ok in H as (? & _ & H). rewrite decide_True in H by done.
  by eapply response_status.
Qed.
End element.

(** The answer to a request of host 1 for the chunk 1, 2, 3. *)
Definition demo_chunk : Xid := mkXid CID_WORD (sha1 [1; 2; 3]).
Definition demo_chunk_path : XIAPath :=
  mkPath [mkPNode Xid_undef [1]%nat npos; mkPNode (demo_xid CLICK_XIA_XID_TYPE_AD 2) [2]%nat npos;
    mkPNode (demo_xid CLICK_XIA_XID_TYPE_HID 2) [3]%nat npos; mkPNode demo_chunk [] npos] 0 3.
Definition demo_requester : XTRANSPORT := set_XIDpairToPort (demo_host 1 2) (demo_sid 1, demo_chunk) 1024.
Definition demo_answer : list Z :=
  match new_header demo_nodes CLICK_XIA_NXT_CID LAST_NODE_DEFAULT 250 (demo_service 1) demo_chunk_path 3 with
  | Ok e => encap e (ext_encap (ContentHeaderEncap demo_entries demo_fresh OP_RESPONSE 0 3) [1; 2; 3]) false
  | Ub _ => []
  end.

Definition got {A} (a : A) (r : res A) : A := match r with Ok a => a | Ub _ => a end.
Definition gives {A} (r : res A) : bool := match r with Ok _ => true | Ub _ => false end.
Lemma gives_got {A} (a : A) r : gives r = true → r = Ok (got a r).
Proof. by destruct r. Qed.

Definition demo_hash : list Z → list Z := element_hash (replicate 16 None).
Definition demo_dst : XIAPath := got XIAPath_reset (dst_path demo_answer).
Definition demo_src : XIAPath := got XIAPath_reset (src_path demo_answer).
Definition demo_content : XIAGenericExtHeader := got (mkExt 0 0 ∅) (XIAGenericExtHeader_of demo_answer).
Definition demo_received : res (XTRANSPORT * list output) :=
  ProcessCachePacket (λ _, None) (λ _, None) demo_entries demo_fresh demo_nodes demo_hash demo_requester demo_answer.

Lemma demo_reads : (gives (dst_path demo_answer) && gives (src_path demo_answer) && gives (XIAGenericExtHeader_of demo_answer) &&
  bool_decide (destination_xid demo_dst = Ok (demo_sid 1)) && bool_decide (destination_xid demo_src = Ok demo_chunk) &&
  bool_decide (ch_opcode demo_content = Ok OP_RESPONSE) && bool_decide (pair_port demo_requester (demo_sid 1, demo_chunk) = 1024) &&
  gives demo_received && bool_decide (chunk_data demo_answer = Ok [1; 2; 3])) = true.
Proof. vm_compute. reflexivity. Qed.

Lemma content_named_by_hash_witness : ∃ d,
  portToDAGinfo (got (demo_requester, []) demo_received).1 !! 1024 = Some d ∧
  XIDtoStatus (di_chunks d) !! demo_chunk = Some READY_TO_READ.
Proof.
  pose proof demo_reads as Hr. rewrite !andb_true_iff, !bool_decide_eq_true in Hr.
  destruct Hr as [[[[[[[[Hdst Hsrc] Hch] Hsid] Hcid] Hop] Hport] Hrec] Hdata].
  apply (gives_got XIAPath_reset) in Hdst, Hsrc. apply (gives_got (mkExt 0 0 ∅)) in Hch. apply (gives_got (demo_requester, [])) in Hrec.
  destruct (sha1_id [1; 2; 3]) as [H20 Hbytes].
  destruct (content_named_by_hash (λ _, None) (λ _, None) demo_entries demo_fresh demo_nodes (replicate 16 None) eq_refl) as [_ H].
  edestruct (H demo_requester demo_answer) as (data & d & Hdata' & Hd & Hst & _);
    [by apply all_bytes; vm_compute|exact Hdst|exact Hsrc|exact Hsid|exact Hcid|split; [split; [discriminate|reflexivity]|exact H20]|exact Hbytes|exact Hch
    |exact Hop|discriminate|rewrite Hport; discriminate|rewrite Hport; apply lookup_singleton_eq|exact Hrec|].
  rewrite Hdata in Hdata'. injection Hdata' as <-. rewrite Hport in Hd. rewrite decide_True in Hst by reflexivity. exists d. split; [exact Hd|exact Hst].
Defined.
