(* ===== verification/SocketLib.v ===== *)
(** The socket library of applications: src/api/xsocket (state.c, Xutil.c and the
    calls), which talks to the transport element over local datagrams.

    A call is a function of the state of the library and of the datagrams that
    wait at its sockets; a call that waits for a datagram is [None].  The
    encoding of messages (protobuf) and the results of the kernel are parameters,
    and so is the heap: the library releases memory from [new\[\]] with [delete]. *)

From Stdlib Require Import ZArith Lia Ascii String.
From stdpp Require Import base gmap list.
From S2P Require Import Prelude Text DagNode DagAddr XTransport.
Local Open Scope Z_scope.

Definition XSOCK_INVALID : Z := -1.
Definition XSOCK_STREAM : Z := 1.
Definition XSOCK_DGRAM : Z := 2.
Definition XSOCK_RAW : Z := 3.
Definition XSOCK_CHUNK : Z := 4.
Definition MAXBUFLEN : Z := 15600.
Definition XIA_MAXBUF : Z := MAXBUFLEN.
Definition SIZEOF_SOCKADDR_X : Z := 568.
Definition MSG_PEEK : Z := 2.
Definition XOPT_HLIM : Z := 1.
Definition XOPT_NEXT_PROTO : Z := 2.
Definition XPROTO_XCMP : Z := 61.
Definition EBADF : Z := 9.
Definition EFAULT : Z := 14.
Definition EINVAL : Z := 22.
Definition ENOPROTOOPT : Z := 92.
Definition EOPNOTSUPP : Z := 95.
Definition EAFNOSUPPORT : Z := 97.
Definition ENOTCONN : Z := 107.
Definition ECONNREFUSED : Z := 111.
Definition ECLICKCONTROL : Z := 9999.

(** ** state.c *)

Record SocketState := mkSS {
  m_transportType : Z;
  m_connected : Z;
  m_async : Z;
  m_wrapped : Z;
  m_buf : option (list Z);
  m_bufLen : Z;
  m_peer : option sockaddr_x }.

Definition SocketState_new (tt : Z) : SocketState := mkSS tt 0 0 0 None 0 None.

Definition with_type (s : SocketState) (t : Z) : SocketState :=
  mkSS t (m_connected s) (m_async s) (m_wrapped s) (m_buf s) (m_bufLen s) (m_peer s).
Definition with_connected (s : SocketState) (c : Z) : SocketState :=
  mkSS (m_transportType s) c (m_async s) (m_wrapped s) (m_buf s) (m_bufLen s) (m_peer s).
Definition with_async (s : SocketState) (a : Z) : SocketState :=
  mkSS (m_transportType s) (m_connected s) a (m_wrapped s) (m_buf s) (m_bufLen s) (m_peer s).
Definition with_wrapped (s : SocketState) (w : Z) : SocketState :=
  mkSS (m_transportType s) (m_connected s) (m_async s) w (m_buf s) (m_bufLen s) (m_peer s).
Definition with_buf (s : SocketState) (b : option (list Z)) (n : Z) : SocketState :=
  mkSS (m_transportType s) (m_connected s) (m_async s) (m_wrapped s) b n (m_peer s).
Definition with_peer (s : SocketState) (p : option sockaddr_x) : SocketState :=
  mkSS (m_transportType s) (m_connected s) (m_async s) (m_wrapped s) (m_buf s) (m_bufLen s) p.

(** [memcpy] out of a block. *)
Definition block_read (b : option (list Z)) (o n : Z) : res (list Z) :=
  match b with
  | None => Ub NullDeref
  | Some blk => if decide (0 ≤ o ∧ 0 ≤ n ∧ o + n ≤ Z.of_nat (length blk)) then Ok (take (Z.to_nat n) (drop (Z.to_nat o) blk))
                else Ub OutOfBounds
  end.

(** [delete] of a block that [new\[\]] returned.  The language leaves it undefined;
    where [new] and [new\[\]] share one heap ([malloc] and [free]) it releases the
    block. *)
Definition delete_block (one_heap : bool) (b : option (list Z)) : res () :=
  match b with
  | None => Ok ()
  | Some _ => if one_heap then Ok () else Ub BadDelete
  end.

(** The number of bytes, the bytes, and the state. *)
Definition SocketState_data (one_heap : bool) (s : SocketState) (bufLen : Z) : res (Z * list Z * SocketState) :=
  if decide (m_bufLen s = 0) then Ok (0, [], s)
  else if decide (bufLen < m_bufLen s) then
    out ← block_read (m_buf s) 0 bufLen;
    let n := m_bufLen s - bufLen in
    rest ← block_read (m_buf s) bufLen n;
    Ok (i32 bufLen, out, with_buf s (option_map (λ blk, rest ++ drop (Z.to_nat n) blk) (m_buf s)) n)
  else
    out ← block_read (m_buf s) 0 (m_bufLen s);
    _ ← delete_block one_heap (m_buf s);
    Ok (i32 (m_bufLen s), out, with_buf s None 0).

Definition SocketState_setData (one_heap : bool) (s : SocketState) (buf : list Z) : res SocketState :=
  if decide (buf = []) then Ok s
  else
    _ ← delete_block one_heap (m_buf s);
    Ok (with_buf s (Some buf) (Z.of_nat (length buf))).

(** The library: its map of sockets (a null pointer is [None]), [errno], the
    messages it has sent, the datagrams that wait at the sockets ([None] is an
    error of the kernel), and whether [new] and [new\[\]] share one heap. *)
Record Lib := mkLib {
  sockets : gmap Z (option SocketState);
  errno : Z;
  outbox : list (Z * api_msg);
  inbox : gmap Z (list (option (list Z)));
  one_heap : bool }.

Definition call (A : Type) : Type := Lib → res (option (A * Lib)).
Definition done_with {A} (a : A) : call A := λ l, Ok (Some (a, l)).
#[global] Instance call_ret : MRet call := λ A a l, Ok (Some (a, l)).
#[global] Instance call_bind : MBind call := λ A B f m l,
  match m l with
  | Ok (Some (a, l)) => f a l
  | Ok None => Ok None
  | Ub u => Ub u
  end.
Definition undefined {A} (r : res A) : call A := λ l, match r with Ok a => Ok (Some (a, l)) | Ub u => Ub u end.
Definition set_errno (e : Z) : call () := λ l, Ok (Some ((), mkLib (sockets l) e (outbox l) (inbox l) (one_heap l))).
Definition fail {A} (e : Z) (a : A) : call A := _ ← set_errno e; mret a.

(** [sockets\[sock\]] makes an entry when there is none. *)
Definition SocketMap_get (sock : Z) : call (option SocketState) := λ l,
  let p := default None (sockets l !! sock) in
  Ok (Some (p, mkLib (<[sock := p]> (sockets l)) (errno l) (outbox l) (inbox l) (one_heap l))).
Definition put_state (sock : Z) (s : SocketState) : call () := λ l,
  Ok (Some ((), mkLib (<[sock := Some s]> (sockets l)) (errno l) (outbox l) (inbox l) (one_heap l))).
Definition SocketMap_add (sock tt : Z) : call () :=
  p ← SocketMap_get sock;
  match p with None => put_state sock (SocketState_new tt) | Some _ => mret () end.
Definition SocketMap_remove (sock : Z) : call () := λ l,
  Ok (Some ((), mkLib (delete sock (sockets l)) (errno l) (outbox l) (inbox l) (one_heap l))).

Definition allocSocketState (sock tt : Z) : call () := SocketMap_add sock tt.
Definition freeSocketState (sock : Z) : call () := SocketMap_remove sock.

(** The accessors: without a state there is a default, and nothing to set. *)
Definition reading {A} (sock : Z) (f : SocketState → A) (a : A) : call A :=
  p ← SocketMap_get sock; mret (match p with Some s => f s | None => a end).
Definition setting (sock : Z) (f : SocketState → SocketState) : call () :=
  p ← SocketMap_get sock; match p with Some s => put_state sock (f s) | None => mret () end.

Definition getSocketType (sock : Z) : call Z := reading sock m_transportType (-1).
Definition isConnected (sock : Z) : call Z := reading sock m_connected 0.
Definition setConnected (sock conn : Z) : call () := setting sock (λ s, with_connected s conn).
Definition isWrapped (sock : Z) : call Z := reading sock m_wrapped 0.
Definition setWrapped (sock w : Z) : call () := setting sock (λ s, with_wrapped s w).
Definition isAsync (sock : Z) : call Z := reading sock m_async 0.
Definition setAsync (sock a : Z) : call () := setting sock (λ s, with_async s a).
Definition setSocketType (sock tt : Z) : call () := setting sock (λ s, with_type s tt).
Definition heap_of : call bool := λ l, Ok (Some (one_heap l, l)).
Definition getSocketData (sock bufLen : Z) : call (Z * list Z) :=
  p ← SocketMap_get sock;
  h ← heap_of;
  match p with
  | Some s => r ← undefined (SocketState_data h s bufLen); _ ← put_state sock r.2; mret r.1
  | None => mret (0, [])
  end.
Definition setSocketData (sock : Z) (buf : list Z) : call () :=
  p ← SocketMap_get sock;
  h ← heap_of;
  match p with
  | Some s => s ← undefined (SocketState_setData h s buf); put_state sock s
  | None => mret ()
  end.
Definition setPeer (sock : Z) (addr : option sockaddr_x) : call () := setting sock (λ s, with_peer s addr).
Definition dgramPeer (sock : Z) : call (option sockaddr_x) := reading sock m_peer None.

(** ** Xutil.c *)

Section lib.
(** The encoding of messages, what a message that is decoded gives, and the
    result of [sendto]. *)
Variable serialize : api_msg → list Z.
Variable parse : list Z → reply.
Variable sendto : Z → list Z → Z.
Variable inet_addr : str → Z.

Definition validateSocket (sock stype err : Z) : call Z :=
  st ← getSocketType sock;
  if decide (st = stype ∨ st = XSOCK_RAW) then mret 0
  else if decide (st = XSOCK_INVALID) then fail EBADF (-1) else fail err (-1).

Definition post (sock : Z) (m : api_msg) : call () := λ l,
  Ok (Some ((), mkLib (sockets l) (errno l) (outbox l ++ [(sock, m)]) (inbox l) (one_heap l))).

(** A message goes out in one datagram, or not at all. *)
Definition click_send (sockfd : Z) (m : api_msg) : call Z :=
  let p_buf := serialize m in
  let remaining := Z.of_nat (length p_buf) in
  if decide (remaining ≤ 0) then mret 0
  else
    _ ← setWrapped sockfd 1;
    let rc := sendto sockfd p_buf in
    _ ← (if decide (rc = remaining) then post sockfd m else mret ());
    _ ← setWrapped sockfd 0;
    mret (if decide (rc = -1) then -1 else if decide (0 < remaining - rc) then -1 else if decide (0 ≤ rc) then 0 else -1).

(** [recvfrom]: the next datagram, cut to the buffer. *)
Definition recvfrom (sockfd n : Z) : call (option (list Z)) := λ l,
  match default [] (inbox l !! sockfd) with
  | [] => Ok None
  | d :: ds => Ok (Some (option_map (take (Z.to_nat n)) d, mkLib (sockets l) (errno l) (outbox l) (<[sockfd := ds]> (inbox l)) (one_heap l)))
  end.

Definition click_reply (sockfd buflen : Z) : call (option (list Z)) :=
  _ ← setWrapped sockfd 1; d ← recvfrom sockfd (buflen - 1); _ ← setWrapped sockfd 0; mret d.

(** A string that is made from the buffer ends at its first zero. *)
Fixpoint c_bytes (b : list Z) : list Z :=
  match b with [] => [] | x :: b => if decide (x = 0) then [] else x :: c_bytes b end.

(** The parts of a message; one that is absent has default values. *)
Definition x_result (r : reply) : XSocketCallType * Z * Z :=
  match r with R_XRESULT t rc err => (t, rc, err) | _ => (XSOCKET, 0, 0) end.
Definition x_recv (r : reply) : str * list Z := match r with R_XRECV dag p => (dag, p) | _ => ([], []) end.
Definition x_accept (r : reply) : str := match r with R_XACCEPT dag => dag | _ => [] end.
Definition x_getsockopt (r : reply) : Z := match r with R_XGETSOCKOPT _ v => v | _ => 0 end.
Definition x_readchunk (r : reply) : str * list Z := match r with R_XREADCHUNK dag p => (dag, p) | _ => ([], []) end.

Definition click_reply2 (sockfd : Z) : call (Z * XSocketCallType) :=
  d ← click_reply sockfd 1024;
  match d with
  | None => mret (-1, XSOCKET)
  | Some b =>
      let '(t, rc, err) := x_result (parse (c_bytes b)) in
      _ ← (if decide (rc = -1) then set_errno err else mret ());
      mret (rc, t)
  end.

(** The text of the address in a socket address. *)
Definition graph_of (addr : sockaddr_x) : res (Graph * nat) := from_sockaddr Graph_empty 0 addr.

(** ** The calls *)

(** A request whose answer is a result. *)
Definition control (sockfd : Z) (m : api_msg) : call (Z * XSocketCallType) :=
  rc ← click_send sockfd m; if decide (rc < 0) then mret (-1, XSOCKET) else click_reply2 sockfd.

(** [sockfd] is what the kernel returns for the new socket. *)
Definition Xsocket (family transport_type protocol sockfd : Z) : call Z :=
  if decide (family ≠ AF_XIA) then fail EAFNOSUPPORT (-1)
  else if decide (protocol ≠ 0) then fail EINVAL (-1)
  else if decide (transport_type ∉ [XSOCK_STREAM; XSOCK_DGRAM; XSOCK_CHUNK; XSOCK_RAW]) then fail EINVAL (-1)
  else if decide (sockfd = -1) then mret (-1)
  else
    r ← control sockfd (M_XSOCKET transport_type);
    rc ← (if decide (0 ≤ r.1 ∧ r.2 ≠ XSOCKET) then fail ECLICKCONTROL (-1) else mret r.1);
    if decide (rc = 0) then _ ← allocSocketState sockfd transport_type; mret sockfd else mret (-1).

Definition Xbind (sockfd : Z) (addr : option sockaddr_x) (addrlen : Z) : call Z :=
  if decide (addrlen = 0) then fail EINVAL (-1)
  else match addr with
  | None => fail EFAULT (-1)
  | Some a =>
      t ← getSocketType sockfd;
      if decide (t = XSOCK_INVALID) then fail EBADF (-1)
      else
        g ← undefined (graph_of a);
        if decide (num_nodes g.1 ≤ 0) then fail EINVAL (-1)
        else
          sdag ← undefined (dag_string g.1);
          r ← control sockfd (M_XBIND sdag);
          if decide (r.1 < 0) then mret (-1)
          else if decide (r.2 ≠ XBIND) then fail ECLICKCONTROL (-1) else mret r.1
  end.

Definition Xclose (sockfd : Z) : call Z :=
  t ← getSocketType sockfd;
  if decide (t = XSOCK_INVALID) then fail EBADF (-1)
  else
    r ← control sockfd M_XCLOSE;
    _ ← setWrapped sockfd 1; _ ← setWrapped sockfd 0;
    _ ← freeSocketState sockfd;
    mret r.1.

(** [strcmp] of a buffer that is not initialised behind the datagram. *)
Fixpoint strcmp_uninit (b lit : list Z) : res bool :=
  match b, lit with
  | [], _ => Ub Uninit
  | x :: _, [] => Ok (bool_decide (x = 0))
  | x :: b, y :: lit => if decide (x = y) then strcmp_uninit b lit else Ok false
  end.

Definition Xconnect (sockfd : Z) (addr : option sockaddr_x) : call Z :=
  match addr with
  | None => fail EINVAL (-1)
  | Some a =>
      v ← validateSocket sockfd XSOCK_STREAM EOPNOTSUPP;
      if decide (v < 0) then mret (-1)
      else
        g ← undefined (graph_of a);
        if decide (num_nodes g.1 ≤ 0) then fail EINVAL (-1)
        else
          ddag ← undefined (dag_string g.1);
          rc ← click_send sockfd (M_XCONNECT ddag);
          if decide (rc < 0) then mret (-1)
          else
            _ ← setWrapped sockfd 1;
            d ← recvfrom sockfd (MAXBUFLEN - 1);
            _ ← setWrapped sockfd 0;
            match d with
            | None => mret (-1)
            | Some b =>
                failed ← undefined (strcmp_uninit b (bytes_of (lit "^Connection-failed^")));
                if (failed : bool) then fail ECONNREFUSED (-1) else _ ← setConnected sockfd 1; mret 0
            end
  end.

(** [new_sockfd] and [bound] are what the kernel returns for the new socket;
    [addr] is the memory for the address, [addrlen] its length. *)
Definition Xaccept (sockfd : Z) (addr : option sockaddr_x) (addrlen : option Z) (new_sockfd : Z) (bound : bool)
    : call (Z * option sockaddr_x * option Z) :=
  if decide (is_Some addr ∧ addrlen = None) then fail EFAULT (-1, addr, addrlen)
  else
    v ← validateSocket sockfd XSOCK_STREAM EOPNOTSUPP;
    if decide (v < 0) then mret (-1, addr, addrlen)
    else
      d ← recvfrom sockfd (MAXBUFLEN - 1);
      if decide (d = None) then mret (-1, addr, addrlen)
      else if decide (new_sockfd = -1) then mret (-1, addr, addrlen)
      else if negb bound then mret (-1, addr, addrlen)
      else
        rc ← click_send new_sockfd M_XACCEPT;
        if decide (rc < 0) then mret (-1, addr, addrlen)
        else
          d ← click_reply new_sockfd XIA_MAXBUF;
          match d with
          | None => mret (-1, addr, addrlen)
          | Some b =>
              match parse (c_bytes b) with
              | R_XRESULT _ _ _ => fail ECONNABORTED (-1, addr, addrlen)
              | r =>
                  al ← (match addr, addrlen with
                        | Some a, Some n =>
                            a ← (if decide (n < SIZEOF_SOCKADDR_X) then mret a
                                 else g ← undefined (Graph_of_string inet_addr 0 (x_accept r)); undefined (fill_sockaddr g.1 a));
                            mret (Some a, Some SIZEOF_SOCKADDR_X)
                        | _, _ => mret (addr, addrlen)
                        end);
                  _ ← allocSocketState new_sockfd XSOCK_STREAM;
                  _ ← setConnected new_sockfd 1;
                  mret (new_sockfd, al.1, al.2)
              end
          end.

(** [buf] is the memory of the caller, of which [len] bytes are read. *)
Definition Xsend (sockfd : Z) (buf : option (list Z)) (len flags : Z) : call Z :=
  if decide (flags ≠ 0) then fail EOPNOTSUPP (-1)
  else if decide (len = 0) then mret 0
  else
    let len := Z.min len XIA_MAXBUF in
    match buf with
    | None => fail EFAULT (-1)
    | Some data =>
        v ← validateSocket sockfd XSOCK_STREAM EOPNOTSUPP;
        if decide (v < 0) then mret (-1)
        else
          c ← isConnected sockfd;
          if decide (c = 0) then fail ENOTCONN (-1)
          else
            payload ← undefined (block_read (Some data) 0 len);
            rc ← click_send sockfd (M_XSEND payload);
            mret (if decide (rc < 0) then -1 else len)
    end.

Definition Xsendto (sockfd : Z) (buf : option (list Z)) (len flags : Z) (addr : option sockaddr_x) (addrlen : Z) : call Z :=
  if decide (len = 0) then mret 0
  else if decide (addrlen < SIZEOF_SOCKADDR_X) then fail EINVAL (-1)
  else if decide (flags ≠ 0) then fail EINVAL (-1)
  else match buf, addr with
  | Some data, Some a =>
      v ← validateSocket sockfd XSOCK_DGRAM EOPNOTSUPP;
      if decide (v < 0) then mret (-1)
      else
        let len := Z.min len XIA_MAXBUF in
        g ← undefined (graph_of a);
        ddag ← undefined (dag_string g.1);
        payload ← undefined (block_read (Some data) 0 len);
        rc ← click_send sockfd (M_XSENDTO ddag payload);
        mret (if decide (rc < 0) then -1 else len)
  | _, _ => fail EFAULT (-1)
  end.

(** The bytes go to the memory of the caller, which has room for [len]: what is
    more is kept for later calls. *)
Definition take_payload (sockfd len : Z) (payload : list Z) : call (Z * list Z) :=
  let paylen := Z.of_nat (length payload) in
  if decide (paylen ≤ len) then mret (paylen, payload)
  else _ ← setSocketData sockfd (drop (Z.to_nat len) payload); mret (len, take (Z.to_nat len) payload).

Definition Xrecv (sockfd : Z) (rbuf : bool) (len flags : Z) : call (Z * list Z) :=
  if decide (flags ≠ 0) then fail EOPNOTSUPP (-1, [])
  else if decide (len = 0) then mret (0, [])
  else if negb rbuf then fail EFAULT (-1, [])
  else
    v ← validateSocket sockfd XSOCK_STREAM EOPNOTSUPP;
    if decide (v < 0) then mret (-1, [])
    else
      c ← isConnected sockfd;
      if decide (c = 0) then fail ENOTCONN (-1, [])
      else
        n ← getSocketData sockfd (u32 len);
        if decide (0 < n.1) then mret n
        else
          d ← click_reply sockfd MAXBUFLEN;
          match d with
          | None => mret (-1, [])
          | Some b => take_payload sockfd len (x_recv (parse b)).2
          end.

(** [sa] is the uninitialised address on the stack. *)
Definition Xrecvfrom (sockfd : Z) (rbuf : bool) (len flags : Z) (addr : option sockaddr_x) (addrlen : option Z) (sa : sockaddr_x)
    : call (Z * list Z * option sockaddr_x * option Z) :=
  if decide (flags ≠ 0 ∧ flags ≠ MSG_PEEK) then fail EINVAL (-1, [], addr, addrlen)
  else if decide (rbuf = false ∨ is_Some addr ∧ addrlen = None) then fail EFAULT (-1, [], addr, addrlen)
  else if decide (is_Some addr ∧ default 0 addrlen < SIZEOF_SOCKADDR_X) then fail EINVAL (-1, [], addr, addrlen)
  else
    v ← validateSocket sockfd XSOCK_DGRAM EOPNOTSUPP;
    if decide (v < 0) then mret (-1, [], addr, addrlen)
    else
      n ← getSocketData sockfd (u32 len);
      if decide (0 < n.1) then
        match addr with
        | Some _ =>
            p ← dgramPeer sockfd;
            p ← undefined (match p with Some p => Ok p | None => Ub NullDeref end);
            mret (n, Some p, Some SIZEOF_SOCKADDR_X)
        | None => mret (n, None, option_map (λ _, 0) addrlen)
        end
      else
        d ← click_reply sockfd MAXBUFLEN;
        match d with
        | None => mret (-1, [], addr, addrlen)
        | Some b =>
            let msg := x_recv (parse b) in
            r ← take_payload sockfd len msg.2;
            if decide (is_Some addr ∨ flags = MSG_PEEK) then
              g ← undefined (Graph_of_string inet_addr 0 msg.1);
              a ← (match addr with Some a => a ← undefined (fill_sockaddr g.1 a); mret (Some a) | None => mret None end);
              let addrlen := match addr with Some _ => Some SIZEOF_SOCKADDR_X | None => addrlen end in
              _ ← (if decide (flags = MSG_PEEK) then
                     p ← (match a with Some p => mret p | None => undefined (fill_sockaddr g.1 sa) end);
                     _ ← setSocketData sockfd msg.2;
                     setPeer sockfd (Some p)
                   else mret ());
              mret (r, a, addrlen)
            else mret (r, addr, addrlen)
        end.

(** [optval]: the integer the caller passes, of [optlen] bytes. *)
Definition Xsetsockopt (sockfd optname : Z) (optval : option Z) (optlen : Z) : call Z :=
  t ← getSocketType sockfd;
  if decide (t = XSOCK_INVALID) then fail EBADF (-1)
  else if decide (optname ≠ XOPT_HLIM ∧ optname ≠ XOPT_NEXT_PROTO) then fail ENOPROTOOPT (-1)
  else match optval with
  | None => fail EINVAL (-1)
  | Some v =>
      if decide (optlen ≠ 4) then fail EINVAL (-1)
      else if decide (optname = XOPT_HLIM ∧ ¬ 0 ≤ v ≤ 255) then fail EINVAL (-1)
      else if decide (optname = XOPT_NEXT_PROTO ∧ v ≠ XPROTO_XCMP) then fail EINVAL (-1)
      else r ← control sockfd (M_XSETSOCKOPT optname v); mret r.1
  end.

(** The result, the value, and the length. *)
Definition Xgetsockopt (sockfd optname : Z) (optval optlen : option Z) : call (Z * option Z * option Z) :=
  t ← getSocketType sockfd;
  if decide (t = XSOCK_INVALID) then fail EBADF (-1, optval, optlen)
  else match optval, optlen with
  | Some v, Some n =>
      if decide (optname ≠ XOPT_HLIM ∧ optname ≠ XOPT_NEXT_PROTO) then fail ENOPROTOOPT (-1, optval, optlen)
      else if decide (n < 4) then fail EINVAL (-1, optval, Some 4)
      else
        rc ← click_send sockfd (M_XGETSOCKOPT optname 0);
        if decide (rc < 0) then mret (-1, optval, optlen)
        else
          d ← click_reply sockfd MAXBUFLEN;
          match d with
          | None => mret (-1, optval, optlen)
          | Some b => mret (0, Some (x_getsockopt (parse (c_bytes b))), Some 4)
          end
  | _, _ => fail EINVAL (-1, optval, optlen)
  end.

(** A chunk that does not fit is lost. *)
Definition XreadChunk (sockfd : Z) (rbuf : bool) (len : Z) (cid : option str) : call (Z * list Z) :=
  v ← validateSocket sockfd XSOCK_CHUNK EAFNOSUPPORT;
  if decide (v < 0) then mret (-1, [])
  else if decide (len = 0) then mret (0, [])
  else match rbuf, cid with
  | true, Some dag =>
      rc ← click_send sockfd (M_XREADCHUNK dag);
      if decide (rc < 0) then mret (-1, [])
      else
        d ← click_reply sockfd MAXBUFLEN;
        match d with
        | None => mret (-1, [])
        | Some b =>
            let payload := (x_readchunk (parse b)).2 in
            let paylen := Z.of_nat (length payload) in
            if decide (len < paylen) then fail EFAULT (-1, []) else mret (paylen, payload)
        end
  | _, _ => fail EFAULT (-1, [])
  end.

(** At most 300 chunks are requested with one message; [None] is a null pointer. *)
Definition request_message (sockfd : Z) (chunks : list (option str)) : call Z :=
  let dags := omap id chunks in
  if decide (dags = []) then fail EFAULT (-1)
  else
    rc ← click_send sockfd (M_XREQUESTCHUNK dags (bytes_of (lit "Chunk request") ++ [0]));
    mret (if decide (rc < 0) then -1 else 0).

Fixpoint request_parts (fuel : nat) (sockfd : Z) (chunks : list (option str)) : call Z :=
  match fuel with
  | O => undefined (Ub OutOfFuel)
  | S fuel =>
      if decide (chunks = []) then mret 0
      else
        rv ← (v ← validateSocket sockfd XSOCK_CHUNK EAFNOSUPPORT;
              if decide (v < 0) then mret (-1) else request_message sockfd (take 300 chunks));
        if decide (rv = -1) then mret (-1)
        else rc ← request_parts fuel sockfd (drop 300 chunks); mret (if decide (rc = -1) then -1 else rv + rc)
  end.

Definition XrequestChunks (sockfd : Z) (chunks : option (list (option str))) : call Z :=
  v ← validateSocket sockfd XSOCK_CHUNK EAFNOSUPPORT;
  if decide (v < 0) then mret (-1)
  else match chunks with
  | None => fail EFAULT (-1)
  | Some [] => mret 0
  | Some l => if decide (300 < length l)%nat then request_parts (length l) sockfd l else request_message sockfd l
  end.

(** The status of a chunk from its name, and the summary of all. *)
Definition status_of (s : str) : Z :=
  if decide (s = lit "WAITING") then WAITING_FOR_CHUNK
  else if decide (s = lit "INVALID_HASH") then INVALID_HASH
  else if decide (s = lit "READY") then READY_TO_READ
  else REQUEST_FAILED.
Definition add_status (all s : Z) : Z := if decide (s = READY_TO_READ) then all else Z.lor (Z.ldiff all READY_TO_READ) s.

(** The answer has a status for every name that was sent, but one is read for
    every element of the list. *)
Definition XgetChunkStatuses (sockfd : Z) (statusList : option (list (option str))) : call (Z * list Z) :=
  v ← validateSocket sockfd XSOCK_CHUNK EAFNOSUPPORT;
  if decide (v < 0) then mret (-1, [])
  else match statusList with
  | None => fail EFAULT (-1, [])
  | Some [] => mret (0, [])
  | Some l =>
      let dags := omap id l in
      if decide (dags = []) then fail EFAULT (-1, [])
      else
        rc ← click_send sockfd (M_XGETCHUNKSTATUS dags);
        if decide (rc < 0) then mret (-1, [])
        else
          d ← click_reply sockfd MAXBUFLEN;
          match d with
          | None => mret (-1, [])
          | Some b =>
              match parse (c_bytes b) with
              | R_XGETCHUNKSTATUS _ status =>
                  st ← undefined (foldM (λ acc i, s ← vget status i; Ok (acc ++ [status_of s])) [] (seq 0 (length l)));
                  mret (fold_left add_status st READY_TO_READ, st)
              | _ => mret (-1, [])
              end
          end
  end.
End lib.

(** ** Names and addresses as text *)

Definition is_digit (c : ascii) : bool := bool_decide (48 ≤ code c ≤ 57).
Definition isalnum (c : ascii) : bool := is_digit c || bool_decide (65 ≤ code c ≤ 90) || bool_decide (97 ≤ code c ≤ 122).
Definition isxdigit (c : ascii) : bool := is_digit c || bool_decide (65 ≤ code c ≤ 70) || bool_decide (97 ≤ code c ≤ 102).

(** The loop of [checkXid]: [colon] is the number of characters behind the colon,
    [first] that nothing was read; it ends at the first character that fails. *)
Fixpoint xid_loop (s : str) (first : bool) (colon : option Z) : option Z :=
  match s with
  | [] => colon
  | c :: s =>
      if decide (c = ":"%char) then
        match colon with
        | Some _ => colon
        | None => if first then None else xid_loop s false (Some 0)
        end
      else match colon with
      | Some n => if isxdigit c then xid_loop s false (Some (n + 1)) else colon
      | None => if isalnum c then xid_loop s false None else None
      end
  end.

Definition checkXid (xid : str) (type : option str) : bool :=
  if decide (default [] type `prefix_of` xid) then bool_decide (xid_loop xid true None = Some 40) else false.

(** The loop of [checkDag]: [prev] that the character before is a space or the
    zero that replaced one, [tok] the XID that is begun; when it ends early, the
    text of the XID goes on to the end of the string. *)
Fixpoint dag_loop (s : str) (prev : bool) (fallback : Z) (tok : option str) : bool * Z * option str :=
  match s with
  | [] => (true, fallback, tok)
  | c :: s' =>
      let next := match s' with [] => true | d :: _ => bool_decide (d = " "%char) end in
      if decide (c = " "%char) then
        match tok with
        | Some t => if checkXid t None then dag_loop s' true fallback None else (false, fallback, tok)
        | None => dag_loop s' true fallback None
        end
      else if decide (c = "("%char) then
        if prev && next then dag_loop s' false (fallback + 1) tok else (false, fallback, option_map (λ t, t ++ s) tok)
      else if decide (c = ")"%char) then
        if prev && next then dag_loop s' false (fallback - 1) tok else (false, fallback, option_map (λ t, t ++ s) tok)
      else dag_loop s' false fallback (Some (default [] tok ++ [c]))
  end.

Definition checkDag (dag : str) : bool :=
  if decide (lit "RE " `prefix_of` dag) then
    let '(valid, fallback, tok) := dag_loop (drop 3 dag) true 0 None in
    if decide (fallback ≠ 0) then false else match tok with Some t => checkXid t None | None => valid end
  else false.
