(* ===== verification/SocketCalls.v ===== *)
(** The other calls of the socket library, src/api/xsocket: chunks that are put
    and pushed (XputChunk.c, XpushChunkto.c, XbindPush.c, XrecvChunkfrom.c), and
    what a host knows of itself (XupdateAD.c, XupdateNameServerDAG.c, and
    [Xgetpeername] and [Xgetsockname] of XgetDAGbyName.c).

    Memory is not exhausted; a file is its bytes. *)

From Stdlib Require Import ZArith Lia Ascii String.
From stdpp Require Import base gmap list.
From S2P Require Import Prelude Text DagNode DagAddr RouteTable XTransport SocketLib.
Local Open Scope Z_scope.

Definition XIA_MAXCHUNK : Z := MAXBUFLEN.
Definition DEFAULT_CHUNK_SIZE : Z := 2000.
Definition CID_HASH_SIZE : nat := 40.
Definition EMSGSIZE : Z := 90.

Record ChunkContext := mkCtx { ctx_sockfd : Z; ctx_contextID : Z; ctx_cachePolicy : Z; ctx_cacheSize : Z; ctx_ttl : Z }.

(** [cid] is an array of 41 characters; the structure has 72 bytes. *)
Record ChunkInfo := mkChunkInfo { ci_size : Z; ci_cid : str; ci_ttl : Z; ci_timestamp : Z }.
Definition SIZEOF_CHUNKINFO : Z := 72.
Definition ChunkInfo_zero : ChunkInfo := mkChunkInfo 0 [] 0 0.

(** [strcpy] to the array [cid]. *)
Definition cid_copy (s : str) : res str := if decide (length (c_chars s) ≤ CID_HASH_SIZE)%nat then Ok (c_chars s) else Ub OutOfBounds.

Section calls.
Variable serialize : api_msg → list Z.
Variable parse : list Z → reply.
Variable sendto : Z → list Z → Z.
Variable inet_addr : str → Z.

(** A request whose answer is a message; [None] is a failure. *)
Definition query (sockfd : Z) (m : api_msg) (buflen : Z) : call (option (list Z)) :=
  rc ← click_send serialize sendto sockfd m;
  if decide (rc < 0) then mret None else click_reply sockfd buflen.

(** ** Chunks *)

(** [sockfd] and [pid] are what the kernel returns. *)
Definition XallocCacheSlice (policy ttl size sockfd pid : Z) : call (option ChunkContext) :=
  fd ← Xsocket serialize parse sendto AF_XIA XSOCK_CHUNK 0 sockfd;
  mret (if decide (fd < 0) then None else Some (mkCtx fd pid policy size ttl)).

Definition XfreeCacheSlice (ctx : option ChunkContext) : call Z :=
  match ctx with None => mret 0 | Some c => Xclose serialize parse sendto (ctx_sockfd c) end.

(** [info]: how many bytes may be written at the pointer, and what is there. *)
Definition XputChunk (ctx : option ChunkContext) (data : option (list Z)) (len : Z) (info : option (Z * ChunkInfo)) : call (Z * ChunkInfo) :=
  let old := default ChunkInfo_zero (snd <$> info) in
  if decide (XIA_MAXCHUNK < len) then fail EMSGSIZE (-1, old)
  else match ctx, data, info with
  | Some c, Some data, Some (room, _) =>
      if decide (len = 0) then mret (0, old)
      else
        payload ← undefined (block_read (Some data) 0 len);
        d ← query (ctx_sockfd c) (M_XPUTCHUNK (ctx_contextID c) (ctx_ttl c) (ctx_cacheSize c) (ctx_cachePolicy c) payload) MAXBUFLEN;
        match d with
        | None => mret (-1, old)
        | Some b =>
            match parse b with
            | R_XPUTCHUNK _ cid ttl timestamp p =>
                cid ← undefined (cid_copy cid);
                _ ← undefined (if decide (SIZEOF_CHUNKINFO ≤ room) then Ok () else Ub OutOfBounds);
                mret (0, mkChunkInfo (Z.of_nat (length p)) cid ttl timestamp)
            | _ => mret (-1, old)
            end
        end
  | _, _, _ => fail EFAULT (-1, old)
  end.

Definition chunk_size (chunkSize : Z) : Z :=
  if decide (chunkSize = 0) then DEFAULT_CHUNK_SIZE else if decide (XIA_MAXBUF < chunkSize) then XIA_MAXBUF else chunkSize.

Definition num_chunks (len chunkSize : Z) : Z := u32 (len / chunkSize + (if decide (len mod chunkSize = 0) then 0 else 1)).

(** The bytes from element [i] of the list on, which [calloc] gave [n] times
    [chunkSize] bytes. *)
Definition info_at_index (n chunkSize i : Z) : option (Z * ChunkInfo) := Some (n * chunkSize - i * SIZEOF_CHUNKINFO, ChunkInfo_zero).

(** What puts one piece: [XputChunk] or [XpushChunkto]. *)
Definition putter : Type := list Z → Z → option (Z * ChunkInfo) → call (Z * ChunkInfo).

(** The loop over a buffer: the number of pieces that were put, and their
    information. *)
Fixpoint put_loop (put : putter) (n : nat) (p : list Z) (len chunkSize num i : Z) (infos : list ChunkInfo) : call (Z * list ChunkInfo) :=
  match n with
  | O => mret (i, infos)
  | S n =>
      let count := Z.min len chunkSize in
      r ← put p count (info_at_index num chunkSize i);
      if decide (r.1 < 0) then mret (i, infos)
      else put_loop put n (drop (Z.to_nat chunkSize) p) (len - count) chunkSize num (i + 1) (infos ++ [r.2])
  end.

Definition put_buffer (put : putter) (data : list Z) (len chunkSize : Z) : call (Z * list ChunkInfo) :=
  let chunkSize := chunk_size chunkSize in
  let num := num_chunks len chunkSize in
  r ← put_loop put (Z.to_nat num) data len chunkSize num 0 [];
  mret (if decide (r.1 = num) then num else -1, r.2).

(** The loop over a file: a read that gives less than it was asked for has met
    the end of the file. *)
Fixpoint file_loop (put : putter) (fuel : nat) (rest : list Z) (chunkSize num i : Z) (infos : list ChunkInfo) : call (Z * list ChunkInfo) :=
  match fuel with
  | O => undefined (Ub OutOfFuel)
  | S fuel =>
      let buf := take (Z.to_nat chunkSize) rest in
      let count := Z.of_nat (length buf) in
      let eof := bool_decide (count < chunkSize) in
      if decide (0 < count) then
        r ← put buf count (info_at_index num chunkSize i);
        if decide (r.1 < 0) then mret (i, infos)
        else if eof then mret (i + 1, infos ++ [r.2])
        else file_loop put fuel (drop (Z.to_nat chunkSize) rest) chunkSize num (i + 1) (infos ++ [r.2])
      else if eof then mret (i, infos)
      else file_loop put fuel (drop (Z.to_nat chunkSize) rest) chunkSize num i infos
  end.

Definition put_file (put : putter) (file : list Z) (chunkSize : Z) : call (Z * list ChunkInfo) :=
  let chunkSize := chunk_size chunkSize in
  let num := num_chunks (Z.of_nat (length file)) chunkSize in
  r ← file_loop put (S (length file)) file chunkSize num 0 [];
  mret (if decide (r.1 = num) then num else -1, r.2).

(** [file]: the bytes of the file, or [None] when it can not be opened. *)
Definition XputFile (ctx : option ChunkContext) (fname : option str) (file : option (list Z)) (chunkSize : Z) : call (Z * list ChunkInfo) :=
  match ctx, fname with
  | Some _, Some _ =>
      match file with
      | None => mret (-1, [])
      | Some b => put_file (λ p, XputChunk ctx (Some p)) b chunkSize
      end
  | _, _ => fail EFAULT (-1, [])
  end.

Definition XputBuffer (ctx : option ChunkContext) (data : option (list Z)) (len chunkSize : Z) : call (Z * list ChunkInfo) :=
  match ctx, data with
  | Some _, Some data => put_buffer (λ p, XputChunk ctx (Some p)) data len chunkSize
  | _, _ => fail EFAULT (-1, [])
  end.

Definition XremoveChunk (ctx : option ChunkContext) (cid : option str) : call Z :=
  match ctx, cid with
  | Some c, Some cid =>
      d ← query (ctx_sockfd c) (M_XREMOVECHUNK (ctx_contextID c) cid) 2048;
      match d with
      | None => mret (-1)
      | Some b => mret (match parse b with R_XREMOVECHUNK _ _ status => status | _ => -1 end)
      end
  | _, _ => fail EFAULT (-1)
  end.

Definition XpushChunkto (ctx : option ChunkContext) (buf : option (list Z)) (len flags : Z) (addr : option sockaddr_x) (addrlen : Z)
    (info : option (Z * ChunkInfo)) : call (Z * ChunkInfo) :=
  r ← XputChunk ctx buf (u32 len) info;
  if decide (r.1 < 0) then mret r
  else match addr with
  | None => fail EFAULT (-1, r.2)
  | Some a =>
      if decide (addrlen < SIZEOF_SOCKADDR_X) then fail EINVAL (-1, r.2)
      else if decide (flags ≠ 0) then fail EINVAL (-1, r.2)
      else
        c ← undefined (match ctx with Some c => Ok c | None => Ub NullDeref end);
        v ← validateSocket (ctx_sockfd c) XSOCK_CHUNK EOPNOTSUPP;
        if decide (v < 0) then mret (-1, r.2)
        else
          let len := Z.min len XIA_MAXBUF in
          g ← undefined (graph_of a);
          ddag ← undefined (dag_string g.1);
          payload ← undefined (block_read buf 0 len);
          rc ← click_send serialize sendto (ctx_sockfd c)
                 (M_XPUSHCHUNKTO ddag (ctx_contextID c) (ctx_ttl c) (ctx_cacheSize c) (ctx_cachePolicy c) payload (ci_cid r.2));
          mret (if decide (rc < 0) then -1 else len, r.2)
  end.

Definition XpushBufferto (ctx : option ChunkContext) (data : option (list Z)) (len flags : Z) (addr : option sockaddr_x) (addrlen chunkSize : Z)
    : call (Z * list ChunkInfo) :=
  match ctx, data with
  | Some _, Some data => put_buffer (λ p n, XpushChunkto ctx (Some p) n flags addr addrlen) data len chunkSize
  | _, _ => fail EFAULT (-1, [])
  end.

Definition XpushFileto (ctx : option ChunkContext) (fname : option str) (file : option (list Z)) (flags : Z) (addr : option sockaddr_x)
    (addrlen chunkSize : Z) : call (Z * list ChunkInfo) :=
  match ctx, fname with
  | Some _, Some _ =>
      match file with
      | None => mret (-1, [])
      | Some b => put_file (λ p n, XpushChunkto ctx (Some p) n flags addr addrlen) b chunkSize
      end
  | _, _ => fail EFAULT (-1, [])
  end.

Definition XbindPush (sockfd : Z) (addr : option sockaddr_x) (addrlen : Z) : call Z :=
  if decide (addrlen = 0) then fail EINVAL (-1)
  else match addr with
  | None => fail EFAULT (-1)
  | Some a =>
      t ← getSocketType sockfd;
      if decide (t = XSOCK_INVALID) then fail EBADF (-1)
      else
        g ← undefined (graph_of a);
        if decide (num_nodes g.1 ≤ 0) then fail EINVAL (-1)
        else
          sdag ← undefined (dag_string g.1);
          r ← control serialize parse sendto sockfd (M_XBINDPUSH sdag);
          if decide (r.1 < 0) then mret (-1)
          else if decide (r.2 ≠ XBINDPUSH) then fail ECLICKCONTROL (-1) else mret r.1
  end.

(** The parts of a chunk that was pushed; they are empty in another message. *)
Definition x_pushchunkto (r : reply) : str * list Z * Z * Z :=
  match r with R_XPUSHCHUNKTO cid p _ ttl _ _ len _ => (cid, p, ttl, len) | _ => ([], [], 0, 0) end.

(** [substr] throws when the name is shorter than its prefix. *)
Definition XrecvChunkfrom (sockfd : Z) (rbuf : bool) (len flags : Z) (ci : option ChunkInfo) : call (Z * list Z * option ChunkInfo) :=
  if decide (flags ≠ 0) then fail EINVAL (-1, [], ci)
  else if decide (rbuf = false ∨ ci = None) then fail EFAULT (-1, [], ci)
  else
    v ← validateSocket sockfd XSOCK_CHUNK EAFNOSUPPORT;
    if decide (v < 0) then mret (-1, [], ci)
    else if decide (len = 0) then mret (0, [], ci)
    else
      d ← click_reply sockfd MAXBUFLEN;
      match d with
      | None => mret (-1, [], ci)
      | Some b =>
          let '(cid, payload, ttl, size) := x_pushchunkto (parse b) in
          cid ← undefined (if decide (4 ≤ length cid)%nat then cid_copy (drop 4 cid) else Ub Uncaught);
          let ci := Some (mkChunkInfo size cid ttl 0) in
          let paylen := Z.of_nat (length payload) in
          if decide (len < paylen) then fail EFAULT (-1, [], ci) else mret (paylen, payload, ci)
      end.

(** ** The host *)

(** A request that has no answer. *)
Definition tell (sockfd : Z) (m : res api_msg) : call Z :=
  t ← getSocketType sockfd;
  if decide (t = XSOCK_INVALID) then fail EBADF (-1)
  else m ← undefined m; rc ← click_send serialize sendto sockfd m; mret (if decide (rc < 0) then -1 else 0).

(** A null [new4id] makes a string from a null pointer. *)
Definition XupdateAD (sockfd : Z) (newad new4id : option str) : call Z :=
  match newad with
  | None => fail EFAULT (-1)
  | Some ad => tell sockfd (match new4id with Some ip => Ok (M_XCHANGEAD ad ip) | None => Ub NullDeref end)
  end.

Definition XupdateNameServerDAG (sockfd : Z) (nsDAG : option str) : call Z :=
  match nsDAG with None => fail EFAULT (-1) | Some dag => tell sockfd (Ok (M_XUPDATENAMESERVERDAG dag)) end.

(** [strncpy], and a zero in the last place. *)
Definition fill_text (s : str) (len : Z) : res str :=
  if decide (1 ≤ len) then Ok (take (Z.to_nat (len - 1)) (c_chars s)) else Ub OutOfBounds.

(** A question of any socket; the answer is read as a C string. *)
Definition ask (sockfd : Z) (m : api_msg) : call (option reply) :=
  d ← query sockfd m MAXBUFLEN; mret (option_map (λ b, parse (c_bytes b)) d).

(** [present] that no pointer is null. *)
Definition XreadLocalHostAddr (sockfd : Z) (present : bool) (lenAD lenHID len4ID : Z) : call (Z * option (str * str * str)) :=
  t ← getSocketType sockfd;
  if decide (t = XSOCK_INVALID) then fail EBADF (-1, None)
  else if negb present then fail EINVAL (-1, None)
  else
    r ← ask sockfd M_XREADLOCALHOSTADDR;
    match r with
    | Some (R_XREADLOCALHOSTADDR ad hid ip4id) =>
        a ← undefined (fill_text ad lenAD); h ← undefined (fill_text hid lenHID); i ← undefined (fill_text ip4id len4ID);
        mret (0, Some (a, h, i))
    | _ => mret (-1, None)
    end.

Definition XisDualStackRouter (sockfd : Z) : call Z :=
  t ← getSocketType sockfd;
  if decide (t = XSOCK_INVALID) then fail EBADF (-1)
  else r ← ask sockfd M_XISDUALSTACKROUTER; mret (match r with Some (R_XISDUALSTACKROUTER flag) => if flag then 1 else 0 | _ => -1 end).

(** The address that was written, if one was; what is returned when the answer is
    of another kind is its length. *)
Definition XreadNameServerDAG (sockfd : Z) (nsDAG : option sockaddr_x) : call (Z * option sockaddr_x) :=
  t ← getSocketType sockfd;
  if decide (t = XSOCK_INVALID) then fail EBADF (-1, None)
  else match nsDAG with
  | None => fail EINVAL (-1, None)
  | Some a =>
      d ← query sockfd M_XREADNAMESERVERDAG MAXBUFLEN;
      match d with
      | None => mret (-1, None)
      | Some b =>
          match parse (c_bytes b) with
          | R_XREADNAMESERVERDAG dag =>
              g ← undefined (Graph_of_string inet_addr 0 (c_chars dag));
              if decide (0 < num_nodes g.1) then a ← undefined (fill_sockaddr g.1 a); mret (0, Some a)
              else mret (Z.of_nat (length b), None)
          | _ => mret (Z.of_nat (length b), None)
          end
      end
  end.

(** [Xgetpeername] and [Xgetsockname]: they differ in the message, and in the
    part of the answer [dag_of]. *)
Definition get_name (m : api_msg) (dag_of : reply → option str) (sockfd : Z) (addr : option sockaddr_x) (addrlen : option Z)
    : call (Z * option sockaddr_x * option Z) :=
  match addr, addrlen with
  | Some a, Some n =>
      if decide (n < SIZEOF_SOCKADDR_X) then fail EINVAL (-1, addr, addrlen)
      else
        v ← validateSocket sockfd XSOCK_STREAM EOPNOTSUPP;
        if decide (v < 0) then mret (-1, addr, addrlen)
        else
          c ← isConnected sockfd;
          if decide (c = 0) then fail ENOTCONN (-1, addr, addrlen)
          else
            r ← ask sockfd m;
            match r ≫= dag_of with
            | None => mret (-1, addr, addrlen)
            | Some dag =>
                g ← undefined (Graph_of_string inet_addr 0 (c_chars dag));
                a ← undefined (fill_sockaddr g.1 a);
                mret (0, Some a, Some SIZEOF_SOCKADDR_X)
            end
  | _, _ => fail EFAULT (-1, addr, addrlen)
  end.

Definition Xgetpeername : Z → option sockaddr_x → option Z → call (Z * option sockaddr_x * option Z) :=
  get_name M_XGETPEERNAME (λ r, match r with R_XGETPEERNAME dag => Some dag | _ => None end).
Definition Xgetsockname : Z → option sockaddr_x → option Z → call (Z * option sockaddr_x * option Z) :=
  get_name M_XGETSOCKNAME (λ r, match r with R_XGETSOCKNAME dag => Some dag | _ => None end).
End calls.
