(* ===== verification/SocketLibSpec.v ===== *)
(** What the socket library promises: the bytes of a stream come out of [Xrecv]
    as they were sent, however the calls cut them; and where a call fails. *)

From Stdlib Require Import ZArith Lia Ascii String.
From stdpp Require Import base gmap list.
From S2P Require Import Prelude Text DagNode DagAddr XTransport SocketLib SocketCalls.
Local Open Scope Z_scope.

(** ** The calls as computations *)

Lemma call_bind_some {A B} (m : call A) (f : A → call B) l a l' : m l = Ok (Some (a, l')) → (m ≫= f) l = f a l'.
Proof. intros H. unfold mbind, call_bind. by rewrite H. Qed.

Lemma call_bind_none {A B} (m : call A) (f : A → call B) l : m l = Ok None → (m ≫= f) l = Ok None.
Proof. intros H. unfold mbind, call_bind. by rewrite H. Qed.

Lemma call_bind_inv {A B} (m : call A) (f : A → call B) l b l' : (m ≫= f) l = Ok (Some (b, l')) →
  ∃ a l1, m l = Ok (Some (a, l1)) ∧ f a l1 = Ok (Some (b, l')).
Proof.
  unfold mbind, call_bind. destruct (m l) as [[[a l1]|]|u]; intros H; [|done|done]. by exists a, l1.
Qed.

Lemma undefined_inv {A} (r : res A) l a l' : undefined r l = Ok (Some (a, l')) → l' = l.
Proof. unfold undefined. destruct r; [by intros [= _ ->]|done]. Qed.

Lemma heap_bind {A} (f : bool → call A) l : (heap_of ≫= f) l = f (one_heap l) l.
Proof. done. Qed.

(** ** The bytes that are kept *)

Definition stash (s : SocketState) : list Z := take (Z.to_nat (m_bufLen s)) (default [] (m_buf s)).

(** The length never exceeds the block it counts, and a block has some. *)
Definition state_ok (s : SocketState) : Prop :=
  0 ≤ m_bufLen s ∧ (m_bufLen s ≠ 0 → ∃ blk, m_buf s = Some blk ∧ m_bufLen s ≤ Z.of_nat (length blk)) ∧
  (m_bufLen s = 0 → m_buf s = None).

Lemma length_stash s : state_ok s → Z.of_nat (length (stash s)) = m_bufLen s.
Proof.
  intros (H0 & Hb & _). unfold stash. destruct (decide (m_bufLen s = 0)) as [->|Hne]; [done|].
  destruct (Hb Hne) as (blk & -> & Hl). cbn [from_option id]. rewrite length_take. lia.
Qed.

(** All bytes that are kept are taken, and their block is released. *)
Definition takes_all (s : SocketState) (n : Z) : Prop := stash s ≠ [] ∧ Z.of_nat (length (stash s)) ≤ n.

(** Taking bytes out: they are the first ones, and the rest stays. *)
Lemma stored_data h s n : state_ok s → 0 ≤ n → (takes_all s n → h = true) → ∃ k s', SocketState_data h s n = Ok (i32 k, take (Z.to_nat n) (stash s), s') ∧
  k = Z.of_nat (length (take (Z.to_nat n) (stash s))) ∧ stash s' = drop (Z.to_nat n) (stash s) ∧ state_ok s' ∧
  m_transportType s' = m_transportType s ∧ m_connected s' = m_connected s ∧ m_peer s' = m_peer s.
Proof.
  intros Hok Hn Hh. pose proof (length_stash s Hok) as Hls. pose proof Hok as (H0 & Hb & Hz0). unfold SocketState_data.
  case_decide as Hz.
  - assert (stash s = []) as He by (apply nil_length_inv; lia). exists 0, s. rewrite He, take_nil, drop_nil.
    split; [done|]. split; [done|]. split; [done|]. split; [done|]. done.
  - assert (m_bufLen s ≤ n → h = true) as Hdel.
    { intros Hle. apply Hh. split; [intros Hnil; rewrite Hnil in Hls; cbn in Hls; lia|lia]. }
    destruct (Hb Hz) as (blk & Hblk & Hl). unfold stash in *. rewrite Hblk in *. cbn [from_option id] in *. case_decide as Hlt.
    + unfold block_read. rewrite decide_True by lia. cbn [mbind res_bind]. rewrite decide_True by lia. cbn [mbind res_bind].
      eexists n, _. split; [|split; [|split; [|split]]].
      * do 2 f_equal. rewrite take_take. f_equal. rewrite drop_0. f_equal. lia.
      * rewrite !length_take. lia.
      * cbn [with_buf m_buf m_bufLen option_map from_option id]. rewrite take_app_length' by (rewrite length_take, length_drop; lia).
        rewrite take_drop_commute. f_equal. f_equal. lia.
      * split; [cbn; lia|]. split; [|cbn; lia]. intros _. eexists. split; [done|].
        cbn [with_buf m_bufLen]. rewrite length_app, length_take, !length_drop. lia.
      * done.
    + rewrite (Hdel ltac:(lia)). unfold block_read. rewrite decide_True by lia. cbn [mbind res_bind delete_block]. eexists (m_bufLen s), _.
      split; [|split; [|split; [|split]]].
      * do 2 f_equal. rewrite drop_0, take_take. f_equal. f_equal. lia.
      * rewrite !length_take. lia.
      * cbn. rewrite drop_ge; [done|]. rewrite length_take. lia.
      * split; [done|]. split; [intros H; by destruct H|done].
      * done.
Qed.

(** On a heap of its own a block is not released. *)
Lemma stored_undefined s n : state_ok s → takes_all s n → SocketState_data false s n = Ub BadDelete.
Proof.
  intros Hok [Hne Hn]. pose proof (length_stash s Hok) as Hls. destruct Hok as (H0 & Hb & _). unfold SocketState_data.
  assert (m_bufLen s ≠ 0) as Hz by (intros Hz; rewrite Hz in Hls; by destruct (stash s)). rewrite decide_False by done.
  destruct (Hb Hz) as (blk & -> & Hl). rewrite decide_False by lia. unfold block_read. by rewrite decide_True by lia.
Qed.

Lemma setData_ok h s buf s' : state_ok s → SocketState_setData h s buf = Ok s' → state_ok s'.
Proof.
  intros Hs H. unfold SocketState_setData in H. case_decide as Hb; [by injection H as <-|].
  destruct (delete_block h (m_buf s)); [|done]. cbn in H. injection H as <-.
  split; [cbn; lia|]. split; [intros _; eexists; by split|]. cbn. intros Hl. destruct buf; [done|cbn in Hl; lia].
Qed.

(** Bytes are stored when none are kept, or where blocks are released. *)
Lemma setData_runs h s buf : state_ok s → stash s = [] ∨ h = true → buf ≠ [] → ∃ s', SocketState_setData h s buf = Ok s' ∧
  stash s' = buf ∧ m_transportType s' = m_transportType s ∧ m_connected s' = m_connected s ∧ m_peer s' = m_peer s.
Proof.
  intros Hs Hh Hb. unfold SocketState_setData. rewrite decide_False by done.
  assert (delete_block h (m_buf s) = Ok ()) as ->.
  { destruct Hh as [Hst| ->]; [|by destruct (m_buf s)]. pose proof (length_stash s Hs) as Hl. rewrite Hst in Hl.
    destruct Hs as (_ & _ & Hz). by rewrite Hz. }
  eexists. split; [done|]. split; [|done]. unfold stash. cbn. rewrite Nat2Z.id. by rewrite take_ge.
Qed.

(** ** The library keeps its memory in order *)

Definition lib_ok (l : Lib) : Prop := ∀ k s, sockets l !! k = Some (Some s) → state_ok s.

Definition keeps {A} (m : call A) : Prop := ∀ l a l', lib_ok l → m l = Ok (Some (a, l')) → lib_ok l' ∧ one_heap l' = one_heap l.

Lemma keeps_ret {A} (a : A) : keeps (mret a).
Proof. intros l b l' Hl [= _ <-]. done. Qed.
Lemma keeps_bind {A B} (m : call A) (f : A → call B) : keeps m → (∀ a, keeps (f a)) → keeps (m ≫= f).
Proof.
  intros Hm Hf l b l' Hl H. apply call_bind_inv in H as (a & l1 & H1 & H2). destruct (Hm l a l1 Hl H1) as [Hl1 <-]. by eapply Hf, H2.
Qed.
Lemma keeps_undefined {A} (r : res A) : keeps (undefined r).
Proof. intros l a l' Hl H. unfold undefined in H. destruct r; [|done]. by injection H as _ <-. Qed.
Lemma keeps_set_errno e : keeps (set_errno e).
Proof. intros l a l' Hl [= _ <-]. done. Qed.
Lemma keeps_fail {A} e (a : A) : keeps (fail e a).
Proof. apply keeps_bind; [apply keeps_set_errno|intros; apply keeps_ret]. Qed.

Lemma get_state l sock : ∃ l', SocketMap_get sock l = Ok (Some (default None (sockets l !! sock), l')) ∧
  (lib_ok l → lib_ok l') ∧ one_heap l' = one_heap l.
Proof.
  eexists. split; [done|]. split; [|done]. intros Hl k s. cbn [sockets]. destruct (decide (k = sock)) as [->|Hne].
  - rewrite lookup_insert_eq. intros [= Hs]. destruct (sockets l !! sock) as [o|] eqn:E; [|done]. cbn in Hs. subst o. by eapply Hl.
  - rewrite lookup_insert_ne by done. apply Hl.
Qed.

Lemma keeps_get_put sock (f : SocketState → SocketState) : (∀ s, state_ok s → state_ok (f s)) → keeps (setting sock f).
Proof.
  intros Hf l a l' Hl H. unfold setting in H. destruct (get_state l sock) as (l1 & Hg & Hl1 & Hh).
  rewrite (call_bind_some _ _ _ _ _ Hg) in H. specialize (Hl1 Hl).
  destruct (default None (sockets l !! sock)) as [s|] eqn:E; [|by injection H as _ <-].
  injection H as _ <-. split; [|done]. intros k s'. cbn [sockets]. destruct (decide (k = sock)) as [->|Hne].
  - rewrite lookup_insert_eq. intros [= <-]. apply Hf. destruct (sockets l !! sock) as [o|] eqn:E'; [|done]. cbn in E. subst o. by eapply Hl.
  - rewrite lookup_insert_ne by done. apply Hl1.
Qed.

Lemma keeps_reading {A} sock (f : SocketState → A) a : keeps (reading sock f a).
Proof.
  apply keeps_bind; [|intros; apply keeps_ret]. intros l b l' Hl H. destruct (get_state l sock) as (l1 & Hg & Hl1 & Hh).
  rewrite Hg in H. injection H as _ <-. auto.
Qed.

Create HintDb keeps.
#[export] Hint Resolve keeps_ret keeps_fail keeps_undefined keeps_set_errno keeps_reading : keeps.

(** Case analysis on the code of a call. *)
Ltac keeping :=
  repeat first
    [solve [eauto with keeps]
    |apply keeps_bind; [|intros ?]
    |match goal with
     | |- keeps (if ?b then _ else _) => destruct b
     | |- keeps (match ?x with _ => _ end) => destruct x
     | |- keeps (let '(_, _) := ?x in _) => destruct x
     end].

Lemma keeps_setConnected sock c : keeps (setConnected sock c).
Proof. by apply keeps_get_put. Qed.
Lemma keeps_setWrapped sock w : keeps (setWrapped sock w).
Proof. by apply keeps_get_put. Qed.
Lemma keeps_setPeer sock a : keeps (setPeer sock a).
Proof. by apply keeps_get_put. Qed.
Lemma keeps_setSocketData sock buf : keeps (setSocketData sock buf).
Proof.
  intros l a l' Hl H. unfold setSocketData in H. destruct (get_state l sock) as (l1 & Hg & Hl1 & Hh).
  rewrite (call_bind_some _ _ _ _ _ Hg), heap_bind in H. specialize (Hl1 Hl).
  destruct (default None (sockets l !! sock)) as [s|] eqn:E; [|by injection H as _ <-].
  assert (state_ok s) as Hs. { destruct (sockets l !! sock) as [o|] eqn:E'; [|done]. cbn in E. subst o. by eapply Hl. }
  apply call_bind_inv in H as (s' & l2 & H2 & H). pose proof (undefined_inv _ _ _ _ H2) as ->.
  unfold undefined in H2. destruct (SocketState_setData _ s buf) as [s1|] eqn:Hd; [|done]. injection H2 as ->.
  injection H as _ <-. split; [|done]. intros j t. cbn [sockets]. destruct (decide (j = sock)) as [->|Hne].
  - rewrite lookup_insert_eq. intros [= <-]. by eapply setData_ok.
  - rewrite lookup_insert_ne by done. apply Hl1.
Qed.
Lemma keeps_getSocketData sock n : 0 ≤ n → keeps (getSocketData sock n).
Proof.
  intros Hn l a l' Hl H. unfold getSocketData in H. destruct (get_state l sock) as (l1 & Hg & Hl1 & Hh).
  rewrite (call_bind_some _ _ _ _ _ Hg), heap_bind in H. specialize (Hl1 Hl).
  destruct (default None (sockets l !! sock)) as [s|] eqn:E; [|by injection H as _ <-].
  assert (state_ok s) as Hs. { destruct (sockets l !! sock) as [o|] eqn:E'; [|done]. cbn in E. subst o. by eapply Hl. }
  assert (takes_all s n → one_heap l1 = true) as Hdel.
  { intros Hall. destruct (one_heap l1) eqn:Hone; [done|]. unfold undefined, mbind, call_bind in H.
    by rewrite (stored_undefined s n Hs Hall) in H. }
  destruct (stored_data _ s n Hs Hn Hdel) as (k & s' & Hd & _ & _ & Hok & _). unfold undefined in H. rewrite Hd in H.
  cbn in H. injection H as _ <-. split; [|done]. intros j t. cbn [sockets]. destruct (decide (j = sock)) as [->|Hne].
  - rewrite lookup_insert_eq. by intros [= <-].
  - rewrite lookup_insert_ne by done. apply Hl1.
Qed.
Lemma keeps_allocSocketState sock tt : keeps (allocSocketState sock tt).
Proof.
  intros l a l' Hl H. unfold allocSocketState, SocketMap_add in H. destruct (get_state l sock) as (l1 & Hg & Hl1 & Hh).
  rewrite (call_bind_some _ _ _ _ _ Hg) in H. specialize (Hl1 Hl).
  destruct (default None (sockets l !! sock)) as [s|]; injection H as _ <-; [done|].
  split; [|done]. intros j t. cbn [sockets]. destruct (decide (j = sock)) as [->|Hne].
  - rewrite lookup_insert_eq. by intros [= <-].
  - rewrite lookup_insert_ne by done. apply Hl1.
Qed.
Lemma keeps_freeSocketState sock : keeps (freeSocketState sock).
Proof.
  intros l a l' Hl [= _ <-]. split; [|done]. intros j t. cbn [sockets]. rewrite lookup_delete_Some. intros [_ H]. by eapply Hl.
Qed.
Lemma keeps_post sock m : keeps (post sock m).
Proof. intros l a l' Hl [= _ <-]. done. Qed.
Lemma keeps_recvfrom sock n : keeps (recvfrom sock n).
Proof. intros l a l' Hl H. unfold recvfrom in H. destruct (default [] (inbox l !! sock)); [done|]. by injection H as _ <-. Qed.
#[export] Hint Resolve keeps_setConnected keeps_setWrapped keeps_setPeer keeps_setSocketData keeps_allocSocketState
  keeps_freeSocketState keeps_post keeps_recvfrom : keeps.

(** The calls of an application. *)
Inductive lib_call :=
  | LXsocket (family transport_type protocol sockfd : Z)
  | LXbind (sockfd : Z) (addr : option sockaddr_x) (addrlen : Z)
  | LXclose (sockfd : Z)
  | LXconnect (sockfd : Z) (addr : option sockaddr_x)
  | LXaccept (sockfd : Z) (addr : option sockaddr_x) (addrlen : option Z) (new_sockfd : Z) (bound : bool)
  | LXsend (sockfd : Z) (buf : option (list Z)) (len flags : Z)
  | LXsendto (sockfd : Z) (buf : option (list Z)) (len flags : Z) (addr : option sockaddr_x) (addrlen : Z)
  | LXrecv (sockfd : Z) (rbuf : bool) (len flags : Z)
  | LXrecvfrom (sockfd : Z) (rbuf : bool) (len flags : Z) (addr : option sockaddr_x) (addrlen : option Z) (sa : sockaddr_x)
  | LXsetsockopt (sockfd optname : Z) (optval : option Z) (optlen : Z)
  | LXgetsockopt (sockfd optname : Z) (optval optlen : option Z)
  | LXreadChunk (sockfd : Z) (rbuf : bool) (len : Z) (cid : option str)
  | LXrequestChunks (sockfd : Z) (chunks : option (list (option str)))
  | LXgetChunkStatuses (sockfd : Z) (statusList : option (list (option str)))
  | LXallocCacheSlice (policy ttl size sockfd pid : Z)
  | LXfreeCacheSlice (ctx : option ChunkContext)
  | LXputChunk (ctx : option ChunkContext) (data : option (list Z)) (len : Z) (info : option (Z * ChunkInfo))
  | LXputFile (ctx : option ChunkContext) (fname : option str) (file : option (list Z)) (chunkSize : Z)
  | LXputBuffer (ctx : option ChunkContext) (data : option (list Z)) (len chunkSize : Z)
  | LXremoveChunk (ctx : option ChunkContext) (cid : option str)
  | LXpushChunkto (ctx : option ChunkContext) (buf : option (list Z)) (len flags : Z) (addr : option sockaddr_x) (addrlen : Z)
      (info : option (Z * ChunkInfo))
  | LXpushBufferto (ctx : option ChunkContext) (data : option (list Z)) (len flags : Z) (addr : option sockaddr_x) (addrlen chunkSize : Z)
  | LXpushFileto (ctx : option ChunkContext) (fname : option str) (file : option (list Z)) (flags : Z) (addr : option sockaddr_x)
      (addrlen chunkSize : Z)
  | LXbindPush (sockfd : Z) (addr : option sockaddr_x) (addrlen : Z)
  | LXrecvChunkfrom (sockfd : Z) (rbuf : bool) (len flags : Z) (ci : option ChunkInfo)
  | LXupdateAD (sockfd : Z) (newad new4id : option str)
  | LXupdateNameServerDAG (sockfd : Z) (nsDAG : option str)
  | LXreadLocalHostAddr (sockfd : Z) (present : bool) (lenAD lenHID len4ID : Z)
  | LXisDualStackRouter (sockfd : Z)
  | LXreadNameServerDAG (sockfd : Z) (nsDAG : option sockaddr_x)
  | LXgetpeername (sockfd : Z) (addr : option sockaddr_x) (addrlen : option Z)
  | LXgetsockname (sockfd : Z) (addr : option sockaddr_x) (addrlen : option Z).

Section calls.
Context (serialize : api_msg → list Z) (parse : list Z → reply) (sendto : Z → list Z → Z) (inet_addr : str → Z).

Definition no_result {A} (m : call A) : call () := _ ← m; mret ().
Definition exec_call (c : lib_call) : call () :=
  match c with
  | LXsocket f t p fd => no_result (Xsocket serialize parse sendto f t p fd)
  | LXbind fd a n => no_result (Xbind serialize parse sendto fd a n)
  | LXclose fd => no_result (Xclose serialize parse sendto fd)
  | LXconnect fd a => no_result (Xconnect serialize sendto fd a)
  | LXaccept fd a n new bound => no_result (Xaccept serialize parse sendto inet_addr fd a n new bound)
  | LXsend fd buf len flags => no_result (Xsend serialize sendto fd buf len flags)
  | LXsendto fd buf len flags a n => no_result (Xsendto serialize sendto fd buf len flags a n)
  | LXrecv fd buf len flags => no_result (Xrecv parse fd buf len flags)
  | LXrecvfrom fd buf len flags a n sa => no_result (Xrecvfrom parse inet_addr fd buf len flags a n sa)
  | LXsetsockopt fd o v n => no_result (Xsetsockopt serialize parse sendto fd o v n)
  | LXgetsockopt fd o v n => no_result (Xgetsockopt serialize parse sendto fd o v n)
  | LXreadChunk fd buf len cid => no_result (XreadChunk serialize parse sendto fd buf len cid)
  | LXrequestChunks fd l => no_result (XrequestChunks serialize sendto fd l)
  | LXgetChunkStatuses fd l => no_result (XgetChunkStatuses serialize parse sendto fd l)
  | LXallocCacheSlice policy ttl size fd pid => no_result (XallocCacheSlice serialize parse sendto policy ttl size fd pid)
  | LXfreeCacheSlice ctx => no_result (XfreeCacheSlice serialize parse sendto ctx)
  | LXputChunk ctx data len info => no_result (XputChunk serialize parse sendto ctx data len info)
  | LXputFile ctx f file sz => no_result (XputFile serialize parse sendto ctx f file sz)
  | LXputBuffer ctx data len sz => no_result (XputBuffer serialize parse sendto ctx data len sz)
  | LXremoveChunk ctx cid => no_result (XremoveChunk serialize parse sendto ctx cid)
  | LXpushChunkto ctx buf len flags a n info => no_result (XpushChunkto serialize parse sendto ctx buf len flags a n info)
  | LXpushBufferto ctx data len flags a n sz => no_result (XpushBufferto serialize parse sendto ctx data len flags a n sz)
  | LXpushFileto ctx f file flags a n sz => no_result (XpushFileto serialize parse sendto ctx f file flags a n sz)
  | LXbindPush fd a n => no_result (XbindPush serialize parse sendto fd a n)
  | LXrecvChunkfrom fd buf len flags ci => no_result (XrecvChunkfrom parse fd buf len flags ci)
  | LXupdateAD fd ad ip => no_result (XupdateAD serialize sendto fd ad ip)
  | LXupdateNameServerDAG fd dag => no_result (XupdateNameServerDAG serialize sendto fd dag)
  | LXreadLocalHostAddr fd present n1 n2 n3 => no_result (XreadLocalHostAddr serialize parse sendto fd present n1 n2 n3)
  | LXisDualStackRouter fd => no_result (XisDualStackRouter serialize parse sendto fd)
  | LXreadNameServerDAG fd a => no_result (XreadNameServerDAG serialize parse sendto inet_addr fd a)
  | LXgetpeername fd a n => no_result (Xgetpeername serialize parse sendto inet_addr fd a n)
  | LXgetsockname fd a n => no_result (Xgetsockname serialize parse sendto inet_addr fd a n)
  end.

Lemma keeps_validateSocket sock t e : keeps (validateSocket sock t e).
Proof. unfold validateSocket, getSocketType. keeping. Qed.
Lemma keeps_click_send fd m : keeps (click_send serialize sendto fd m).
Proof. unfold click_send. keeping. Qed.
Lemma keeps_click_reply fd n : keeps (click_reply fd n).
Proof. unfold click_reply. keeping. Qed.
Hint Resolve keeps_validateSocket keeps_click_send keeps_click_reply : keeps.
Lemma keeps_click_reply2 fd : keeps (click_reply2 parse fd).
Proof. unfold click_reply2. keeping. Qed.
Hint Resolve keeps_click_reply2 : keeps.
Lemma keeps_control fd m : keeps (control serialize parse sendto fd m).
Proof. unfold control. keeping. Qed.
Hint Resolve keeps_control : keeps.
Lemma keeps_take_payload fd n p : keeps (take_payload fd n p).
Proof. unfold take_payload. keeping. Qed.
Lemma keeps_request_message fd l : keeps (request_message serialize sendto fd l).
Proof. unfold request_message. keeping. Qed.
Hint Resolve keeps_take_payload keeps_request_message : keeps.
Lemma keeps_request_parts fuel fd l : keeps (request_parts serialize sendto fuel fd l).
Proof. revert l. induction fuel as [|fuel IH]; intros l; cbn [request_parts]; keeping. Qed.
Hint Resolve keeps_request_parts : keeps.

Lemma keeps_get_u32 fd len : keeps (getSocketData fd (u32 len)).
Proof. apply keeps_getSocketData. pose proof (wrapU_range 32 len ltac:(lia)). unfold u32. lia. Qed.
Hint Resolve keeps_get_u32 : keeps.

Lemma keeps_Xsocket f t p fd : keeps (Xsocket serialize parse sendto f t p fd).
Proof. unfold Xsocket. keeping. Qed.
Lemma keeps_Xclose fd : keeps (Xclose serialize parse sendto fd).
Proof. unfold Xclose, getSocketType. keeping. Qed.
Lemma keeps_query fd m n : keeps (query serialize sendto fd m n).
Proof. unfold query. keeping. Qed.
Lemma keeps_tell fd m : keeps (tell serialize sendto fd m).
Proof. unfold tell, getSocketType. keeping. Qed.
Hint Resolve keeps_Xsocket keeps_Xclose keeps_query keeps_tell : keeps.
Lemma keeps_ask fd m : keeps (ask serialize parse sendto fd m).
Proof. unfold ask. keeping. Qed.
Hint Resolve keeps_ask : keeps.
Lemma keeps_get_name m f fd a n : keeps (get_name serialize parse sendto inet_addr m f fd a n).
Proof. unfold get_name, isConnected. keeping. Qed.
Lemma keeps_XputChunk ctx data len info : keeps (XputChunk serialize parse sendto ctx data len info).
Proof. unfold XputChunk. keeping. Qed.
Hint Resolve keeps_get_name keeps_XputChunk : keeps.
Lemma keeps_XpushChunkto ctx buf len flags a n info : keeps (XpushChunkto serialize parse sendto ctx buf len flags a n info).
Proof. unfold XpushChunkto. keeping. Qed.
Hint Resolve keeps_XpushChunkto : keeps.
Lemma keeps_put_buffer put data len sz : (∀ p n info, keeps (put p n info)) → keeps (put_buffer put data len sz).
Proof.
  intros Hput. apply keeps_bind; [|intros; apply keeps_ret]. generalize (chunk_size sz). intros z. generalize (num_chunks len z) at 2. intros num.
  generalize (Z.to_nat (num_chunks len z)). intros n. generalize 0, (@nil ChunkInfo). revert data len.
  induction n as [|n IH]; intros data len i infos; cbn [put_loop]; keeping.
Qed.
Lemma keeps_put_file put file sz : (∀ p n info, keeps (put p n info)) → keeps (put_file put file sz).
Proof.
  intros Hput. apply keeps_bind; [|intros; apply keeps_ret]. generalize (chunk_size sz). intros z. generalize (num_chunks (Z.of_nat (length file)) z).
  intros num. generalize (S (length file)). intros fuel. generalize 0, (@nil ChunkInfo). revert file.
  induction fuel as [|fuel IH]; intros file i infos; cbn [file_loop]; keeping.
Qed.
Hint Resolve keeps_put_buffer keeps_put_file : keeps.

Lemma exec_keeps c : keeps (exec_call c).
Proof.
  destruct c; cbn [exec_call]; unfold XallocCacheSlice, XfreeCacheSlice, XputFile, XputBuffer, XremoveChunk, XpushBufferto, XpushFileto, XbindPush,
    XrecvChunkfrom, XupdateAD, XupdateNameServerDAG, XreadLocalHostAddr, XisDualStackRouter, XreadNameServerDAG, Xgetpeername, Xgetsockname;
    unfold no_result, Xsocket, Xbind, Xclose, Xconnect, Xaccept, Xsend, Xsendto, Xrecv, Xrecvfrom, Xsetsockopt,
    Xgetsockopt, XreadChunk, XrequestChunks, XgetChunkStatuses, getSocketType, isConnected, dgramPeer; keeping.
Qed.

(** ** Calls that are always defined *)

(** The call is defined; if it releases kept bytes ([frees]), where the heap lets
    it. *)
Definition safe (frees : bool) {A} (m : call A) : Prop :=
  ∀ l, lib_ok l → (frees = true → one_heap l = true) → ∃ o, m l = Ok o.

Lemma safe_ret b {A} (a : A) : safe b (mret a).
Proof. intros l _ _. by eexists. Qed.
Lemma safe_bind b {A B} (m : call A) (f : A → call B) : safe b m → keeps m → (∀ a, safe b (f a)) → safe b (m ≫= f).
Proof.
  intros Hm Hk Hf l Hl Hb. destruct (Hm l Hl Hb) as [[[a l1]|] Ho].
  - rewrite (call_bind_some _ _ _ _ _ Ho). destruct (Hk l a l1 Hl Ho) as [Hl1 Hh]. apply Hf; [done|]. by rewrite Hh.
  - rewrite (call_bind_none _ _ _ Ho). by eexists.
Qed.
Lemma safe_set_errno b e : safe b (set_errno e).
Proof. intros l _ _. by eexists. Qed.
Lemma safe_fail b {A} e (a : A) : safe b (fail e a).
Proof. intros l _ _. by eexists. Qed.
Lemma safe_reading b {A} sock (f : SocketState → A) a : safe b (reading sock f a).
Proof. intros l _ _. by eexists. Qed.
Lemma safe_setting b sock f : safe b (setting sock f).
Proof.
  intros l _ _. unfold setting. destruct (get_state l sock) as (l1 & Hg & _). rewrite (call_bind_some _ _ _ _ _ Hg).
  destruct (default None (sockets l !! sock)); by eexists.
Qed.
Lemma safe_alloc b sock t : safe b (allocSocketState sock t).
Proof.
  intros l _ _. unfold allocSocketState, SocketMap_add. destruct (get_state l sock) as (l1 & Hg & _).
  rewrite (call_bind_some _ _ _ _ _ Hg). destruct (default None (sockets l !! sock)); by eexists.
Qed.
Lemma safe_free b sock : safe b (freeSocketState sock).
Proof. intros l _ _. by eexists. Qed.
Lemma safe_post b sock m : safe b (post sock m).
Proof. intros l _ _. by eexists. Qed.
Lemma safe_recvfrom b sock n : safe b (recvfrom sock n).
Proof. intros l _ _. unfold recvfrom. destruct (default [] (inbox l !! sock)); by eexists. Qed.
Lemma safe_block_read b blk o n : 0 ≤ o → 0 ≤ n → o + n ≤ Z.of_nat (length blk) → safe b (undefined (block_read (Some blk) o n)).
Proof. intros ? ? ? l _ _. unfold block_read. rewrite decide_True by done. by eexists. Qed.
Lemma safe_get fd len : safe true (getSocketData fd (u32 len)).
Proof.
  intros l Hl Hh. specialize (Hh eq_refl). unfold getSocketData. destruct (get_state l fd) as (l1 & Hg & Hl1 & Hh1).
  rewrite (call_bind_some _ _ _ _ _ Hg), heap_bind, Hh1, Hh. destruct (default None (sockets l !! fd)) as [s|] eqn:E; [|by eexists].
  assert (state_ok s) as Hs. { destruct (sockets l !! fd) as [o|] eqn:E'; [|done]. cbn in E. subst o. by eapply Hl. }
  destruct (stored_data true s (u32 len) Hs) as (k & s' & Hd & _); [|done|].
  { pose proof (wrapU_range 32 len ltac:(lia)). unfold u32. lia. }
  unfold undefined, mbind, call_bind. rewrite Hd. by eexists.
Qed.
Lemma safe_set_data fd buf : safe true (setSocketData fd buf).
Proof.
  intros l Hl Hh. specialize (Hh eq_refl). unfold setSocketData. destruct (get_state l fd) as (l1 & Hg & Hl1 & Hh1).
  rewrite (call_bind_some _ _ _ _ _ Hg), heap_bind, Hh1, Hh. destruct (default None (sockets l !! fd)) as [s|]; [|by eexists].
  unfold SocketState_setData, undefined, mbind, call_bind. case_decide; [by eexists|]. destruct (m_buf s); by eexists.
Qed.
Hint Resolve safe_ret safe_set_errno safe_fail safe_reading safe_setting safe_alloc safe_free safe_post safe_recvfrom safe_get safe_set_data : keeps.

Ltac safely :=
  repeat first
    [solve [eauto with keeps]
    |apply safe_bind; [|solve [keeping]|intros ?]
    |match goal with
     | |- safe _ (if ?b then _ else _) => destruct b
     | |- safe _ (match ?x with _ => _ end) => destruct x
     | |- safe _ (let '(_, _) := ?x in _) => destruct x
     end].

Lemma safe_validateSocket b sock t e : safe b (validateSocket sock t e).
Proof. unfold validateSocket, getSocketType. safely. Qed.
Lemma safe_click_send b fd m : safe b (click_send serialize sendto fd m).
Proof. unfold click_send, setWrapped. safely. Qed.
Lemma safe_click_reply b fd n : safe b (click_reply fd n).
Proof. unfold click_reply, setWrapped. safely. Qed.
Hint Resolve safe_validateSocket safe_click_send safe_click_reply : keeps.
Lemma safe_click_reply2 b fd : safe b (click_reply2 parse fd).
Proof. unfold click_reply2. safely. Qed.
Hint Resolve safe_click_reply2 : keeps.
Lemma safe_control b fd m : safe b (control serialize parse sendto fd m).
Proof. unfold control. safely. Qed.
Lemma safe_take_payload fd n p : safe true (take_payload fd n p).
Proof. unfold take_payload. safely. Qed.
Lemma safe_request_message b fd l : safe b (request_message serialize sendto fd l).
Proof. unfold request_message. safely. Qed.
Hint Resolve safe_control safe_take_payload safe_request_message : keeps.
Lemma safe_request_parts b fuel fd l : (length l + 300 ≤ 300 * fuel)%nat → safe b (request_parts serialize sendto fuel fd l).
Proof.
  revert l. induction fuel as [|fuel IH]; intros l Hl; [lia|]. cbn [request_parts]. case_decide as Hn; [apply safe_ret|].
  assert (length l ≠ 0)%nat by by destruct l.
  apply safe_bind; [safely|keeping|intros rv]. case_decide; [apply safe_ret|].
  apply safe_bind; [apply IH; rewrite length_drop; lia|keeping|intros; apply safe_ret].
Qed.

(** The calls that handle no address, and copy no names, texts or statuses out of
    a message; a call of [Xsend] is given memory of the length it names. *)
Definition plain_call (c : lib_call) : bool :=
  match c with
  | LXsend _ (Some buf) len _ => bool_decide (0 ≤ len ≤ Z.of_nat (length buf))
  | LXsocket _ _ _ _ | LXclose _ | LXsend _ None _ _ | LXrecv _ _ _ _ | LXsetsockopt _ _ _ _ | LXgetsockopt _ _ _ _
  | LXreadChunk _ _ _ _ | LXrequestChunks _ _ | LXallocCacheSlice _ _ _ _ _ | LXfreeCacheSlice _ | LXremoveChunk _ _
  | LXupdateNameServerDAG _ _ | LXisDualStackRouter _ => true
  | _ => false
  end.

Lemma safe_XrequestChunks b fd chunks : safe b (XrequestChunks serialize sendto fd chunks).
Proof.
  unfold XrequestChunks. apply safe_bind; [safely|keeping|intros v].
  case_decide; [apply safe_ret|]. destruct chunks as [[|o l]|]; [apply safe_ret| |apply safe_fail].
  case_decide; [|safely]. apply safe_request_parts. lia.
Qed.
Lemma keeps_XrequestChunks fd chunks : keeps (XrequestChunks serialize sendto fd chunks).
Proof. unfold XrequestChunks. keeping. Qed.
Lemma safe_Xsocket b f t p fd : safe b (Xsocket serialize parse sendto f t p fd).
Proof. unfold Xsocket. safely. Qed.
Lemma safe_Xclose b fd : safe b (Xclose serialize parse sendto fd).
Proof. unfold Xclose, getSocketType, setWrapped. safely. Qed.
Lemma safe_query b fd m n : safe b (query serialize sendto fd m n).
Proof. unfold query. safely. Qed.
Hint Resolve safe_XrequestChunks keeps_XrequestChunks safe_Xsocket safe_Xclose safe_query : keeps.
Lemma safe_ask b fd m : safe b (ask serialize parse sendto fd m).
Proof. unfold ask. safely. Qed.
Lemma safe_tell b fd m : safe b (tell serialize sendto fd (Ok m)).
Proof. unfold tell, getSocketType. safely. Qed.
Hint Resolve safe_ask safe_tell : keeps.

(** [Xrecv] releases bytes that it has kept. *)
Definition frees (c : lib_call) : bool := match c with LXrecv _ _ _ _ => true | _ => false end.

Lemma safe_Xsend b fd buf len flags : 0 ≤ len ≤ Z.of_nat (length buf) → safe b (Xsend serialize sendto fd (Some buf) len flags).
Proof.
  intros Hlen. unfold Xsend, isConnected. destruct (decide (flags ≠ 0)); [safely|]. destruct (decide (len = 0)); [safely|].
  apply safe_bind; [safely|keeping|intros v]. destruct (decide (v < 0)); [safely|].
  apply safe_bind; [safely|keeping|intros c]. destruct (decide (c = 0)); [safely|].
  apply safe_bind; [apply safe_block_read; unfold XIA_MAXBUF, MAXBUFLEN; lia|keeping|intros p]. safely.
Qed.

Lemma exec_safe c : plain_call c = true → safe (frees c) (exec_call c).
Proof.
  destruct c as [| | | | |fd buf len flags| | | | | | | | | | | | | | | | | | | | | | | | | |]; cbn [exec_call plain_call frees]; intros H; try done.
  3: { destruct buf as [buf|]; [|unfold no_result, Xsend, isConnected; safely]. apply bool_decide_eq_true in H.
       apply safe_bind; [by apply safe_Xsend| |intros; apply safe_ret]. unfold Xsend, isConnected. keeping. }
  all: unfold no_result, Xrecv, Xsetsockopt,
    Xgetsockopt, XreadChunk, XallocCacheSlice, XfreeCacheSlice, XremoveChunk, XupdateNameServerDAG, XisDualStackRouter,
    getSocketType, isConnected, setWrapped; safely.
Qed.

End calls.

(** ** A stream of bytes *)

Section recv.
(** The bytes of a message with an address and data. *)
Context (encode : str → list Z → list Z) (parse : list Z → reply) (inet_addr : str → Z).
Context (Hparse : ∀ dag p, parse (encode dag p) = R_XRECV dag p).

(** A connected stream socket that keeps some bytes, with messages that wait, and
    a heap that lets the library release its blocks. *)
Definition ready (l : Lib) (fd : Z) (kept : list Z) (waiting : list (str * list Z)) : Prop := one_heap l = true ∧ ∃ s,
  sockets l !! fd = Some (Some s) ∧ state_ok s ∧ m_transportType s = XSOCK_STREAM ∧ m_connected s ≠ 0 ∧ stash s = kept ∧
  default [] (inbox l !! fd) = map (λ m, Some (encode m.1 m.2)) waiting.

(** The message fits in the buffer of the library. *)
Definition fits (m : str * list Z) : Prop :=
  Z.of_nat (length (encode m.1 m.2)) < MAXBUFLEN ∧ Z.of_nat (length m.2) < 2 ^ 31.

Definition all_bytes_of (waiting : list (str * list Z)) : list Z := concat (map snd waiting).

Definition put (l : Lib) (fd : Z) (s : SocketState) : Lib := mkLib (<[fd := Some s]> (sockets l)) (errno l) (outbox l) (inbox l) (one_heap l).

Lemma get_of l fd s : sockets l !! fd = Some (Some s) → SocketMap_get fd l = Ok (Some (Some s, put l fd s)).
Proof. intros H. unfold SocketMap_get. by rewrite H. Qed.
Lemma reading_of {A} l fd s (f : SocketState → A) a : sockets l !! fd = Some (Some s) → reading fd f a l = Ok (Some (f s, put l fd s)).
Proof. intros H. unfold reading. by rewrite (call_bind_some _ _ _ _ _ (get_of _ _ _ H)). Qed.
Lemma setting_of l fd s f : sockets l !! fd = Some (Some s) →
  ∃ l', setting fd f l = Ok (Some ((), l')) ∧ sockets l' !! fd = Some (Some (f s)) ∧ inbox l' = inbox l ∧ outbox l' = outbox l.
Proof.
  intros H. unfold setting. rewrite (call_bind_some _ _ _ _ _ (get_of _ _ _ H)). eexists. split; [done|].
  cbn [put sockets inbox]. by rewrite lookup_insert_eq.
Qed.
Lemma setting_heap l fd f l' : setting fd f l = Ok (Some ((), l')) → one_heap l' = one_heap l.
Proof.
  unfold setting. destruct (get_state l fd) as (l1 & Hg & _ & <-). rewrite (call_bind_some _ _ _ _ _ Hg).
  destruct (default None (sockets l !! fd)); intros H; by injection H as <-.
Qed.
Lemma put_same l fd s : sockets (put l fd s) !! fd = Some (Some s).
Proof. apply lookup_insert_eq. Qed.

Lemma validate_type l fd s t e : sockets l !! fd = Some (Some s) → m_transportType s = t →
  validateSocket fd t e l = Ok (Some (0, put l fd s)).
Proof.
  intros H Ht. unfold validateSocket, getSocketType. rewrite (call_bind_some _ _ _ _ _ (reading_of _ _ _ _ _ H)).
  rewrite decide_True by auto. done.
Qed.

Lemma click_reply_of l fd s n d ds : sockets l !! fd = Some (Some s) → default [] (inbox l !! fd) = Some d :: ds →
  Z.of_nat (length d) ≤ n - 1 →
  ∃ l' s', click_reply fd n l = Ok (Some (Some d, l')) ∧ sockets l' !! fd = Some (Some s') ∧ s' = with_wrapped s 0 ∧ inbox l' !! fd = Some ds ∧
    one_heap l' = one_heap l.
Proof.
  intros H Hd Hn. unfold click_reply, setWrapped.
  destruct (setting_of l fd s (λ s, with_wrapped s 1) H) as (l1 & H1 & Hs1 & Hi1 & _). rewrite (call_bind_some _ _ _ _ _ H1).
  set (l2 := mkLib (sockets l1) (errno l1) (outbox l1) (<[fd := ds]> (inbox l1)) (one_heap l1)).
  assert (recvfrom fd (n - 1) l1 = Ok (Some (Some d, l2))) as H2.
  { unfold recvfrom, l2. rewrite Hi1, Hd. cbn [option_map]. by rewrite take_ge by lia. }
  rewrite (call_bind_some _ _ _ _ _ H2).
  destruct (setting_of l2 fd (with_wrapped s 1) (λ s, with_wrapped s 0) Hs1) as (l3 & H3 & Hs3 & Hi3 & _).
  rewrite (call_bind_some _ _ _ _ _ H3). exists l3, (with_wrapped s 0). split; [done|]. split; [done|]. split; [done|].
  rewrite Hi3, (setting_heap _ _ _ _ H3). split; [apply lookup_insert_eq|]. exact (setting_heap _ _ _ _ H1).
Qed.

Lemma click_reply_waits l fd s n : sockets l !! fd = Some (Some s) → default [] (inbox l !! fd) = [] → click_reply fd n l = Ok None.
Proof.
  intros H Hd. unfold click_reply, setWrapped. destruct (setting_of l fd s (λ s, with_wrapped s 1) H) as (l1 & H1 & Hs1 & Hi1 & _).
  rewrite (call_bind_some _ _ _ _ _ H1). apply call_bind_none. unfold recvfrom. by rewrite Hi1, Hd.
Qed.

(** Whatever the answer is, the socket stays as it was. *)
Lemma click_reply_state l fd s n o l' : sockets l !! fd = Some (Some s) → click_reply fd n l = Ok (Some (o, l')) →
  sockets l' !! fd = Some (Some (with_wrapped s 0)).
Proof.
  intros H Hrun. unfold click_reply, setWrapped in Hrun. destruct (setting_of l fd s (λ s, with_wrapped s 1) H) as (l1 & H1 & Hs1 & _).
  rewrite (call_bind_some _ _ _ _ _ H1) in Hrun. apply call_bind_inv in Hrun as (d & l2 & H2 & Hrun).
  assert (sockets l2 = sockets l1) as Hs2.
  { unfold recvfrom in H2. destruct (default [] (inbox l1 !! fd)); [done|]. by injection H2 as _ <-. }
  rewrite <-Hs2 in Hs1. destruct (setting_of l2 fd _ (λ s, with_wrapped s 0) Hs1) as (l3 & H3 & Hs3 & _).
  rewrite (call_bind_some _ _ _ _ _ H3) in Hrun. injection Hrun as _ <-. done.
Qed.

Lemma setting_runs fd f l : ∃ l', setting fd f l = Ok (Some ((), l')).
Proof.
  unfold setting. destruct (get_state l fd) as (l1 & Hg & _). rewrite (call_bind_some _ _ _ _ _ Hg).
  destruct (default None (sockets l !! fd)); by eexists.
Qed.
Lemma click_reply_runs fd n l : ∃ o, click_reply fd n l = Ok o.
Proof.
  unfold click_reply, setWrapped. destruct (setting_runs fd (λ s, with_wrapped s 1) l) as [l1 H1]. rewrite (call_bind_some _ _ _ _ _ H1).
  destruct (recvfrom fd (n - 1) l1) as [[[d l2]|]|u] eqn:Hr.
  - rewrite (call_bind_some _ _ _ _ _ Hr). destruct (setting_runs fd (λ s, with_wrapped s 0) l2) as [l3 H3].
    rewrite (call_bind_some _ _ _ _ _ H3). by eexists.
  - rewrite (call_bind_none _ _ _ Hr). by eexists.
  - unfold recvfrom in Hr. by destruct (default [] (inbox l1 !! fd)).
Qed.

Lemma get_data_of l fd s n : sockets l !! fd = Some (Some s) → state_ok s → 0 ≤ n → (takes_all s n → one_heap l = true) →
  ∃ l' s', getSocketData fd n l = Ok (Some ((i32 (Z.of_nat (length (take (Z.to_nat n) (stash s)))), take (Z.to_nat n) (stash s)), l')) ∧
    sockets l' !! fd = Some (Some s') ∧ stash s' = drop (Z.to_nat n) (stash s) ∧ state_ok s' ∧
    m_transportType s' = m_transportType s ∧ m_connected s' = m_connected s ∧ m_peer s' = m_peer s ∧ inbox l' = inbox l ∧
    one_heap l' = one_heap l.
Proof.
  intros H Hs Hn Hh. destruct (stored_data (one_heap l) s n Hs Hn Hh) as (k & s' & Hd & -> & Hst & Hok & Hs1 & Hs2 & Hs3).
  unfold getSocketData. rewrite (call_bind_some _ _ _ _ _ (get_of _ _ _ H)), heap_bind. unfold undefined, mbind, call_bind.
  cbn [put one_heap]. rewrite Hd. eexists _, s'. split; [done|]. cbn [sockets inbox]. rewrite lookup_insert_eq. auto 10.
Qed.

(** A message of which [len] bytes go out. *)
Lemma take_payload_of l fd s p len : sockets l !! fd = Some (Some s) → state_ok s → stash s = [] → 0 < len →
  ∃ l' s', take_payload fd len p l = Ok (Some ((Z.of_nat (length (take (Z.to_nat len) p)), take (Z.to_nat len) p), l')) ∧
    sockets l' !! fd = Some (Some s') ∧ stash s' = drop (Z.to_nat len) p ∧ state_ok s' ∧
    m_transportType s' = m_transportType s ∧ m_connected s' = m_connected s ∧ m_peer s' = m_peer s ∧ inbox l' = inbox l ∧
    one_heap l' = one_heap l.
Proof.
  intros H Hs Hst Hlen. unfold take_payload. case_decide as Hle.
  - exists l, s. rewrite take_ge, drop_ge by lia. done.
  - destruct (setData_runs (one_heap l) s (drop (Z.to_nat len) p) Hs) as (s' & Hd & Hst' & Hs'); [by left| |].
    { intros Hnil. apply (f_equal length) in Hnil. rewrite length_drop in Hnil. simpl in Hnil. lia. }
    assert (setSocketData fd (drop (Z.to_nat len) p) l = Ok (Some ((), put l fd s'))) as H1.
    { unfold setSocketData. rewrite (call_bind_some _ _ _ _ _ (get_of _ _ _ H)), heap_bind. unfold undefined, mbind, call_bind.
      cbn [put one_heap]. rewrite Hd. unfold put_state, put. cbn. by rewrite insert_insert_eq. }
    rewrite (call_bind_some _ _ _ _ _ H1). eexists _, s'. split; [|split; [apply put_same|]].
    + by replace (Z.of_nat (length (take (Z.to_nat len) p))) with len by (rewrite length_take; lia).
    + split; [done|]. split; [by eapply setData_ok|]. by destruct Hs' as (? & ? & ?).
Qed.

(** [Xrecv] on a connected stream socket. *)
Lemma Xrecv_connected l fd s len : sockets l !! fd = Some (Some s) → m_transportType s = XSOCK_STREAM → m_connected s ≠ 0 → 0 < len < 2 ^ 31 →
  Xrecv parse fd true len 0 l =
  (n ← getSocketData fd len;
   if decide (0 < n.1) then mret n
   else d ← click_reply fd MAXBUFLEN;
        match d with None => mret (-1, []) | Some b => take_payload fd len (x_recv (parse b)).2 end) (put (put l fd s) fd s).
Proof.
  intros Hs Ht Hc Hlen. unfold Xrecv. rewrite decide_False by (intros H; by apply H). rewrite decide_False by lia. cbn [negb].
  rewrite (call_bind_some _ _ _ _ _ (validate_type _ _ _ _ _ Hs Ht)). rewrite decide_False by lia.
  unfold isConnected. rewrite (call_bind_some _ _ _ _ _ (reading_of _ _ _ _ _ (put_same l fd s))). rewrite decide_False by done.
  unfold u32. by rewrite wrapU_small by lia.
Qed.

(** On separate heaps it is undefined exactly when it takes all bytes that are
    kept. *)
Lemma recv_separate l fd s len : sockets l !! fd = Some (Some s) → state_ok s → m_transportType s = XSOCK_STREAM → m_connected s ≠ 0 →
  0 < len < 2 ^ 31 → one_heap l = false →
  (takes_all s len → Xrecv parse fd true len 0 l = Ub BadDelete) ∧ (¬ takes_all s len → ∃ o, Xrecv parse fd true len 0 l = Ok o).
Proof.
  intros Hs Hok Ht Hc Hlen Hh. rewrite (Xrecv_connected _ _ _ _ Hs Ht Hc Hlen). split.
  - intros Hall. unfold getSocketData. unfold mbind at 1, call_bind at 1.
    rewrite (call_bind_some _ _ _ _ _ (get_of _ _ _ (put_same _ _ _))), heap_bind. unfold undefined, mbind, call_bind.
    cbn [put one_heap]. by rewrite Hh, stored_undefined.
  - intros Hn. destruct (get_data_of (put (put l fd s) fd s) fd s len (put_same _ _ _) Hok) as
      (l1 & s1 & Hget & Hs1 & Hst1 & Hok1 & _); [lia|done|].
    rewrite (call_bind_some _ _ _ _ _ Hget). cbn [fst]. case_decide as Hpos; [by eexists|].
    assert (stash s = []) as Hnil.
    { destruct (stash s) as [|x b] eqn:E; [done|]. destruct Hn. split; [by rewrite E|]. apply Z.nlt_ge. intros Hlt. apply Hpos.
      rewrite length_take. rewrite E in Hlt. unfold i32. rewrite wrapS_small; lia. }
    rewrite Hnil, drop_nil in Hst1. unfold mbind, call_bind. destruct (click_reply fd MAXBUFLEN l1) as [[[[d|] l2]|]|u] eqn:Hd; [|by eexists..|].
    + pose proof (click_reply_state _ _ _ _ _ _ Hs1 Hd) as Hs2.
      destruct (take_payload_of l2 fd _ (x_recv (parse d)).2 len Hs2) as (l3 & s3 & -> & _); [done|done|lia|]. by eexists.
    + by destruct (click_reply_runs fd MAXBUFLEN l1) as [o Ho]; rewrite Ho in Hd.
Qed.

(** One call. *)
Lemma recv_step l fd kept waiting len : ready l fd kept waiting → Forall fits waiting → Z.of_nat (length kept) < 2 ^ 31 →
  0 < len < 2 ^ 31 →
  match kept, waiting with
  | [], [] => Xrecv parse fd true len 0 l = Ok None
  | [], m :: ms => ∃ l', Xrecv parse fd true len 0 l =
      Ok (Some ((Z.of_nat (length (take (Z.to_nat len) m.2)), take (Z.to_nat len) m.2), l')) ∧ ready l' fd (drop (Z.to_nat len) m.2) ms
  | _, _ => ∃ l', Xrecv parse fd true len 0 l =
      Ok (Some ((Z.of_nat (length (take (Z.to_nat len) kept)), take (Z.to_nat len) kept), l')) ∧ ready l' fd (drop (Z.to_nat len) kept) waiting
  end.
Proof using Hparse.
  intros (Hh & s & Hs & Hok & Ht & Hc & Hst & Hin) Hfit Hkl Hlen.
  destruct (get_data_of (put (put l fd s) fd s) fd s len (put_same _ _ _) Hok) as
    (l1 & s1 & Hget & Hs1 & Hst1 & Hok1 & Ht1 & Hc1 & _ & Hi1 & Hh1); [lia|done|].
  rewrite Hst in Hget, Hst1. cbn [put one_heap] in Hh1.
  assert (Xrecv parse fd true len 0 l =
    if decide (0 < i32 (Z.of_nat (length (take (Z.to_nat len) kept))))
    then Ok (Some ((i32 (Z.of_nat (length (take (Z.to_nat len) kept))), take (Z.to_nat len) kept), l1))
    else (d ← click_reply fd MAXBUFLEN;
          match d with None => mret (-1, []) | Some b => take_payload fd len (x_recv (parse b)).2 end) l1) as ->.
  { rewrite (Xrecv_connected _ _ _ _ Hs Ht Hc Hlen), (call_bind_some _ _ _ _ _ Hget). cbn [fst]. by case_decide. }
  assert (i32 (Z.of_nat (length (take (Z.to_nat len) kept))) = Z.of_nat (length (take (Z.to_nat len) kept))) as Hi.
  { apply wrapS_small; [lia|]. rewrite length_take. lia. }
  rewrite Hi. destruct kept as [|b kept].
  - rewrite take_nil. cbn [length]. rewrite decide_False by done. rewrite drop_nil in Hst1.
    destruct waiting as [|m ms].
    + apply call_bind_none. eapply click_reply_waits; [done|]. by rewrite Hi1.
    + apply Forall_cons in Hfit as [[Hf Hp] Hfit]. cbn [map] in Hin.
      destruct (click_reply_of l1 fd s1 MAXBUFLEN (encode m.1 m.2) (map (λ m, Some (encode m.1 m.2)) ms)) as
        (l2 & s2 & H2 & Hs2 & -> & Hi2 & Hh2); [done|by rewrite Hi1|lia|].
      rewrite (call_bind_some _ _ _ _ _ H2). rewrite Hparse. cbn [x_recv snd].
      destruct (take_payload_of l2 fd _ m.2 len Hs2) as (l3 & s3 & H3 & Hs3 & Hst3 & Hok3 & Ht3 & Hc3 & _ & Hi3 & Hh3); [done|done|lia|].
      exists l3. split; [done|]. split; [congruence|]. exists s3. rewrite Ht3, Hc3, Hi3, Hi2. cbn [with_wrapped m_transportType m_connected]. rewrite Ht1, Hc1. done.
  - rewrite decide_True. 2: { rewrite length_take. cbn [length]. lia. }
    exists l1. split; [done|]. split; [congruence|]. exists s1. rewrite Ht1, Hc1, Hi1. done.
Qed.

(** A message that does not fit in the buffer is cut before it is decoded. *)
Lemma long_message_cut l fd s dag p rest len : sockets l !! fd = Some (Some s) → state_ok s → m_transportType s = XSOCK_STREAM →
  m_connected s ≠ 0 → stash s = [] → default [] (inbox l !! fd) = Some (encode dag p) :: rest →
  MAXBUFLEN ≤ Z.of_nat (length (encode dag p)) → 0 < len < 2 ^ 31 →
  ∃ l', Xrecv parse fd true len 0 l = take_payload fd len (x_recv (parse (take (Z.to_nat (MAXBUFLEN - 1)) (encode dag p)))).2 l'.
Proof using.
  intros Hs Hok Ht Hc Hst Hin Hlong Hlen. rewrite (Xrecv_connected _ _ _ _ Hs Ht Hc Hlen).
  destruct (get_data_of (put (put l fd s) fd s) fd s len (put_same _ _ _) Hok) as (l1 & s1 & Hget & Hs1 & _ & _ & _ & _ & _ & Hi1 & _);
    [lia|intros [Hne _]; by rewrite Hst in Hne|].
  rewrite Hst, take_nil in Hget. rewrite (call_bind_some _ _ _ _ _ Hget). cbn [fst length]. rewrite decide_False by done.
  unfold click_reply, setWrapped. destruct (setting_of l1 fd s1 (λ s, with_wrapped s 1) Hs1) as (l2 & H2 & Hs2 & Hi2 & _).
  set (l3 := mkLib (sockets l2) (errno l2) (outbox l2) (<[fd := rest]> (inbox l2)) (one_heap l2)).
  assert (recvfrom fd (MAXBUFLEN - 1) l2 = Ok (Some (Some (take (Z.to_nat (MAXBUFLEN - 1)) (encode dag p)), l3))) as H3.
  { unfold recvfrom, l3. rewrite Hi2, Hi1. cbn [put inbox]. by rewrite Hin. }
  destruct (setting_runs fd (λ s, with_wrapped s 0) l3) as [l4 H4]. exists l4.
  assert ((_ ← setting fd (λ s, with_wrapped s 1); d ← recvfrom fd (MAXBUFLEN - 1); _ ← setting fd (λ s, with_wrapped s 0); mret d) l1 =
    Ok (Some (Some (take (Z.to_nat (MAXBUFLEN - 1)) (encode dag p)), l4))) as Hr.
  { by rewrite (call_bind_some _ _ _ _ _ H2), (call_bind_some _ _ _ _ _ H3), (call_bind_some _ _ _ _ _ H4). }
  by rewrite (call_bind_some _ _ _ _ _ Hr).
Qed.

(** Calls of [Xrecv], one after the other, until one waits. *)
Fixpoint recvs (fd : Z) (lens : list Z) (l : Lib) : res (list (Z * list Z) * Lib) :=
  match lens with
  | [] => Ok ([], l)
  | len :: lens =>
      o ← Xrecv parse fd true len 0 l;
      match o with
      | None => Ok ([], l)
      | Some (r, l) => rs ← recvs fd lens l; Ok (r :: rs.1, rs.2)
      end
  end.

(** What is left to return: bytes, and messages that may be empty. *)
Definition left_over (kept : list Z) (waiting : list (str * list Z)) : nat :=
  (length kept + length (all_bytes_of waiting) + length waiting)%nat.

Lemma recvs_ok fd lens : ∀ l kept waiting, ready l fd kept waiting → Forall fits waiting → Z.of_nat (length kept) < 2 ^ 31 →
  Forall (λ len, 0 < len < 2 ^ 31) lens →
  ∃ rs l' kept' waiting', recvs fd lens l = Ok (rs, l') ∧ ready l' fd kept' waiting' ∧
    concat (map snd rs) ++ kept' ++ all_bytes_of waiting' = kept ++ all_bytes_of waiting ∧
    Forall2 (λ r len, r.1 = Z.of_nat (length r.2) ∧ r.1 ≤ len) rs (take (length rs) lens) ∧
    ((length rs < length lens)%nat → kept' = [] ∧ waiting' = []) ∧
    (length rs + left_over kept' waiting' ≤ left_over kept waiting)%nat.
Proof using Hparse.
  induction lens as [|len lens IH]; intros l kept waiting Hr Hf Hk Hl; cbn [recvs].
  { exists [], l, kept, waiting. split_and!; try done. cbn. lia. }
  apply Forall_cons in Hl as [Hlen Hl]. pose proof (recv_step l fd kept waiting len Hr Hf Hk Hlen) as Hst.
  assert (∀ c kept1 waiting1 l1, c ≠ [] ∨ (length waiting1 < length waiting)%nat → Forall fits waiting1 →
    Xrecv parse fd true len 0 l = Ok (Some ((Z.of_nat (length (take (Z.to_nat len) c)), take (Z.to_nat len) c), l1)) →
    kept1 = drop (Z.to_nat len) c → ready l1 fd kept1 waiting1 → c ++ all_bytes_of waiting1 = kept ++ all_bytes_of waiting →
    (length waiting1 ≤ length waiting)%nat → Z.of_nat (length c) < 2 ^ 31 →
    ∃ rs l' kept' waiting', (o ← Xrecv parse fd true len 0 l; match o with None => Ok ([], l) | Some (r, l) => rs ← recvs fd lens l; Ok (r :: rs.1, rs.2) end)
      = Ok (rs, l') ∧ ready l' fd kept' waiting' ∧
    concat (map snd rs) ++ kept' ++ all_bytes_of waiting' = kept ++ all_bytes_of waiting ∧
    Forall2 (λ r len, r.1 = Z.of_nat (length r.2) ∧ r.1 ≤ len) rs (take (length rs) (len :: lens)) ∧
    ((length rs < S (length lens))%nat → kept' = [] ∧ waiting' = []) ∧
    (length rs + left_over kept' waiting' ≤ left_over kept waiting)%nat) as Hgo.
  { intros c kept1 waiting1 l1 Hc Hf1 Hx -> Hr1 Heq Hw Hlc. destruct (IH l1 _ waiting1 Hr1 Hf1) as (rs & l' & k' & w' & Hrs & Hr' & Hcat & Hall & Hend & Hms);
      [rewrite length_drop; lia|done|].
    rewrite Hx. cbn [mbind res_bind]. rewrite Hrs. cbn [mbind res_bind fst snd]. eexists _, l', k', w'. split_and!; [done|done| | | |].
    - cbn [map concat snd]. rewrite <-app_assoc, Hcat, app_assoc, take_drop. done.
    - cbn [length take]. constructor; [|done]. cbn [fst snd]. split; [done|]. rewrite length_take. lia.
    - intros Hlt. apply Hend. cbn [length] in Hlt. lia.
    - unfold left_over in *. apply (f_equal length) in Heq. rewrite !length_app in Heq. rewrite length_drop in Hms. cbn [length].
      destruct Hc as [Hc|Hc]; [assert (length c ≠ 0)%nat by (by destruct c)|]; lia. }
  destruct kept as [|b kept]; [destruct waiting as [|m ms]|].
  - rewrite Hst. cbn [mbind res_bind]. exists [], l, [], []. split_and!; try done.
  - destruct Hst as (l1 & Hx & Hr1). apply Forall_cons in Hf as [Hm Hf]. eapply (Hgo m.2 _ ms l1); [right; cbn; lia|done..|cbn; lia|apply Hm].
  - destruct Hst as (l1 & Hx & Hr1). eapply (Hgo (b :: kept) _ waiting l1); [by left|done..].
Qed.

(** C9: calls of [Xrecv] on a connected stream socket return the bytes of the
    messages that wait there, in order and without a gap, however the lengths of
    the calls cut them; what a call has no room for is returned by the next; a
    call waits only when everything was returned, and enough calls return
    everything.  Two conditions are needed.  Every message that waits must be
    shorter, in its encoded form, than the 15600 bytes of the library's buffer: a
    longer one is cut when it is received ([long_message_cut]).  And [new] and
    [new\[\]] must share one heap, since kept bytes are released with [delete]. *)
Theorem recv_stream l fd waiting lens : ready l fd [] waiting → Forall fits waiting → Forall (λ len, 0 < len < 2 ^ 31) lens →
  ∃ rs l', recvs fd lens l = Ok (rs, l') ∧ concat (map snd rs) `prefix_of` all_bytes_of waiting ∧
    Forall2 (λ r len, r.1 = Z.of_nat (length r.2) ∧ r.1 ≤ len) rs (take (length rs) lens) ∧
    ((length rs < length lens)%nat → concat (map snd rs) = all_bytes_of waiting) ∧
    ((length (all_bytes_of waiting) + length waiting < length lens)%nat → concat (map snd rs) = all_bytes_of waiting).
Proof using Hparse.
  intros Hr Hf Hl. destruct (recvs_ok fd lens l [] waiting) as (rs & l' & k' & w' & Hrs & Hr' & Hcat & Hall & Hend & Hms); [done..|].
  assert (k' = [] ∧ w' = [] → concat (map snd rs) = all_bytes_of waiting) as Hfin.
  { intros [-> ->]. cbn in Hcat. by rewrite app_nil_r in Hcat. }
  exists rs, l'. split_and!; [done| |done|auto|].
  - eexists. symmetry. exact Hcat.
  - intros Hn. apply Hfin, Hend. unfold left_over in Hms. cbn [length] in Hms. lia.
Qed.
(** A socket of messages on which bytes of a message wait, but no address. *)
Lemma recvfrom_kept l fd s len a n sa : sockets l !! fd = Some (Some s) → state_ok s → m_transportType s = XSOCK_DGRAM →
  m_peer s = None → stash s ≠ [] → Z.of_nat (length (stash s)) < 2 ^ 31 → 0 < len < 2 ^ 31 → SIZEOF_SOCKADDR_X ≤ n → one_heap l = true →
  Xrecvfrom parse inet_addr fd true len 0 (Some a) (Some n) sa l = Ub NullDeref.
Proof using.
  intros Hs Hok Ht Hp Hne Hlt Hlen Hn Hh. unfold Xrecvfrom. rewrite decide_False by (by intros [? _]).
  rewrite decide_False by (by intros [? | [_ ?]]). rewrite decide_False by (intros [_ H]; cbn in H; lia).
  rewrite (call_bind_some _ _ _ _ _ (validate_type _ _ _ _ _ Hs Ht)). rewrite decide_False by lia.
  destruct (get_data_of (put l fd s) fd s (u32 len) (put_same _ _ _) Hok) as (l1 & s1 & Hget & Hs1 & _ & _ & _ & _ & Hp1 & _); [|done|].
  { pose proof (wrapU_range 32 len ltac:(lia)). unfold u32. lia. }
  rewrite (call_bind_some _ _ _ _ _ Hget). cbn [fst]. assert (u32 len = len) as -> by (apply wrapU_small; lia).
  assert (length (stash s) ≠ 0)%nat by by destruct (stash s).
  rewrite decide_True. 2: { unfold i32. rewrite wrapS_small; [rewrite length_take; lia|lia|]. rewrite length_take. lia. }
  unfold dgramPeer. rewrite (call_bind_some _ _ _ _ _ (reading_of _ _ _ _ _ Hs1)). by rewrite Hp1, Hp.
Qed.

(** when [Xrecvfrom] has returned a part of a message, the next call that asks
    for the address of the sender follows a null pointer: the address was not
    stored with the bytes. *)
Theorem recvfrom_null_peer l fd s dag p rest len addr addrlen sa r l1 : sockets l !! fd = Some (Some s) → state_ok s →
  m_transportType s = XSOCK_DGRAM → m_peer s = None → stash s = [] → one_heap l = true → default [] (inbox l !! fd) = Some (encode dag p) :: rest →
  Z.of_nat (length (encode dag p)) < MAXBUFLEN → 0 < len < Z.of_nat (length p) → Z.of_nat (length p) < 2 ^ 31 →
  Xrecvfrom parse inet_addr fd true len 0 addr addrlen sa l = Ok (Some (r, l1)) → r.1.1.1 = len →
  ∀ len' a n sa', 0 < len' < 2 ^ 31 → SIZEOF_SOCKADDR_X ≤ n →
  Xrecvfrom parse inet_addr fd true len' 0 (Some a) (Some n) sa' l1 = Ub NullDeref.
Proof using Hparse.
  intros Hs Hok Ht Hp Hst Hh Hin Hm Hlen Hlp Hrun Hr len' a n sa' Hlen' Hn.
  assert (∃ s1, sockets l1 !! fd = Some (Some s1) ∧ stash s1 = drop (Z.to_nat len) p ∧ state_ok s1 ∧ m_transportType s1 = XSOCK_DGRAM ∧ m_peer s1 = None ∧ one_heap l1 = true)
    as (s1 & H1 & H2 & H3 & H4 & H5 & H6).
  { unfold Xrecvfrom in Hrun. rewrite decide_False in Hrun by (by intros [? _]).
    case_decide; [injection Hrun as <- <-; cbn in Hr; lia|]. case_decide; [injection Hrun as <- <-; cbn in Hr; lia|].
    rewrite (call_bind_some _ _ _ _ _ (validate_type _ _ _ _ _ Hs Ht)), decide_False in Hrun by lia.
    destruct (get_data_of (put l fd s) fd s (u32 len) (put_same _ _ _) Hok) as (l2 & s2 & Hget & Hs2 & Hst2 & Hok2 & Ht2 & _ & Hp2 & Hi2 & Hh2); [|done|].
    { pose proof (wrapU_range 32 len ltac:(lia)). unfold u32. lia. }
    cbn [put one_heap] in Hh2.
    rewrite Hst, take_nil in Hget. rewrite Hst, drop_nil in Hst2. rewrite (call_bind_some _ _ _ _ _ Hget), decide_False in Hrun by done.
    destruct (click_reply_of l2 fd s2 MAXBUFLEN (encode dag p) rest) as (l3 & s3 & H3 & Hs3 & -> & Hi3 & Hh3); [done|by rewrite Hi2|lia|].
    rewrite (call_bind_some _ _ _ _ _ H3), Hparse in Hrun. cbn [x_recv snd fst] in Hrun.
    destruct (take_payload_of l3 fd _ p len Hs3) as (l4 & s4 & H4 & Hs4 & Hst4 & Hok4 & Ht4 & _ & Hp4 & _ & Hh4); [done|done|lia|].
    rewrite (call_bind_some _ _ _ _ _ H4) in Hrun. cbn [with_wrapped m_transportType m_peer] in *.
    assert (l4 = l1) as ->; [|exists s4; split_and!; congruence].
    case_decide; [|by injection Hrun]. apply call_bind_inv in Hrun as (g & l5 & Hg & Hrun). apply undefined_inv in Hg as ->.
    apply call_bind_inv in Hrun as (a2 & l6 & Ha & Hrun). rewrite decide_False in Hrun by done. injection Hrun as _ ->.
    destruct addr; [|by injection Ha]. apply call_bind_inv in Ha as (a3 & l7 & Ha & Ha'). apply undefined_inv in Ha as ->. by injection Ha'. }
  assert (length (stash s1) = (length p - Z.to_nat len)%nat) as Hl by (by rewrite H2, length_drop).
  apply (recvfrom_kept l1 fd s1); try done; [|lia]. intros Hnil. rewrite Hnil in Hl. cbn in Hl. lia.
Qed.
End recv.

(** C29: the library keeps the length of what it has stored within the block it is
    stored in, whatever is called and whatever arrives.  So a call that handles
    no address, and copies no names, texts or statuses, is never undefined: it
    returns, or waits for a datagram.  [Xsend] must be given as many bytes as it
    is told.  [Xrecv] releases memory from [new\[\]] with [delete], which is defined
    where both share one heap; elsewhere a call on a connected stream is
    undefined exactly when it takes all of the bytes that are kept. *)
Theorem library_sound (serialize : api_msg → list Z) (parse : list Z → reply) (sendto : Z → list Z → Z) (inet_addr : str → Z) c l : lib_ok l →
  (∀ l', exec_call serialize parse sendto inet_addr c l = Ok (Some ((), l')) → lib_ok l') ∧
  (plain_call c = true → (frees c = true → one_heap l = true) → ∃ o, exec_call serialize parse sendto inet_addr c l = Ok o) ∧
  (∀ fd s len, sockets l !! fd = Some (Some s) → m_transportType s = XSOCK_STREAM → m_connected s ≠ 0 → 0 < len < 2 ^ 31 →
    one_heap l = false →
    (takes_all s len → Xrecv parse fd true len 0 l = Ub BadDelete) ∧ (¬ takes_all s len → ∃ o, Xrecv parse fd true len 0 l = Ok o)).
Proof.
  intros Hl. split; [|split].
  - intros l' H. by eapply exec_keeps.
  - intros Hc Hh. by apply exec_safe.
  - intros fd s len Hs Ht Hc Hlen Hh. apply recv_separate; try done. by eapply Hl.
Qed.

(** ** Sending on a stream *)

Section send.
Context (serialize : api_msg → list Z) (sendto : Z → list Z → Z).
(** A message is never empty, and the kernel never sends more than it is given. *)
Context (Hser : ∀ d, serialize (M_XSEND d) ≠ []) (Hsendto : ∀ fd b, sendto fd b ≤ Z.of_nat (length b)).

Definition connected (l : Lib) (fd : Z) : Prop := ∃ s, sockets l !! fd = Some (Some s) ∧ m_transportType s = XSOCK_STREAM ∧ m_connected s ≠ 0.

(** The data of the messages that were sent on a socket. *)
Definition written (fd : Z) (out : list (Z * api_msg)) : list (list Z) :=
  omap (λ m, match m.2 with M_XSEND d => if decide (m.1 = fd) then Some d else None | _ => None end) out.

Lemma written_app fd a b : written fd (a ++ b) = written fd a ++ written fd b.
Proof. apply omap_app. Qed.

(** The bytes of [buf] that a call took which returned [rc]. *)
Definition accepted (buf : list Z) (rc : Z) : list Z := take (Z.to_nat rc) buf.

Lemma click_send_of l fd s d : sockets l !! fd = Some (Some s) →
  ∃ rc l', click_send serialize sendto fd (M_XSEND d) l = Ok (Some (rc, l')) ∧ sockets l' !! fd = Some (Some (with_wrapped s 0)) ∧
    (rc = 0 ∧ outbox l' = outbox l ++ [(fd, M_XSEND d)] ∨ rc = -1 ∧ outbox l' = outbox l).
Proof using Hser Hsendto.
  intros Hs. unfold click_send, setWrapped. cbv zeta. set (b := serialize (M_XSEND d)).
  assert (length b ≠ 0)%nat by (pose proof (Hser d : b ≠ []); by destruct b).
  rewrite decide_False by lia. pose proof (Hsendto fd b) as Hk.
  destruct (setting_of l fd s (λ s, with_wrapped s 1) Hs) as (l1 & H1 & Hs1 & Hi1 & Ho1). rewrite (call_bind_some _ _ _ _ _ H1).
  assert (∀ l2, sockets l2 !! fd = Some (Some (with_wrapped s 1)) → ∃ l3, setting fd (λ s, with_wrapped s 0) l2 = Ok (Some ((), l3)) ∧
    sockets l3 !! fd = Some (Some (with_wrapped s 0)) ∧ outbox l3 = outbox l2) as Hend.
  { intros l2 H2. destruct (setting_of l2 fd _ (λ s, with_wrapped s 0) H2) as (l3 & H3 & Hs3 & _ & Ho3). by exists l3. }
  destruct (decide (sendto fd b = Z.of_nat (length b))) as [Hrc|Hrc].
  - destruct (Hend (mkLib (sockets l1) (errno l1) (outbox l1 ++ [(fd, M_XSEND d)]) (inbox l1) (one_heap l1)) Hs1) as (l3 & H3 & Hs3 & Ho3).
    rewrite (call_bind_some _ _ _ _ _ (eq_refl : post _ _ _ = _)), (call_bind_some _ _ _ _ _ H3). rewrite Hrc.
    rewrite decide_False by lia. rewrite decide_False by lia. rewrite decide_True by lia. exists 0, l3. split; [done|]. split; [done|].
    left. split; [done|]. rewrite Ho3. cbn [outbox]. by rewrite Ho1.
  - destruct (Hend l1 Hs1) as (l3 & H3 & Hs3 & Ho3).
    rewrite (call_bind_some _ _ _ _ _ (eq_refl : (mret () : call ()) _ = _)), (call_bind_some _ _ _ _ _ H3). exists (-1), l3.
    split; [|split; [done|right; split; [done|congruence]]]. case_decide; [done|]. by rewrite decide_True by lia.
Qed.

(** One call: it takes the beginning of the bytes in one message, or nothing. *)
Lemma send_lib l fd buf : connected l fd → ∃ rc l', Xsend serialize sendto fd (Some buf) (Z.of_nat (length buf)) 0 l = Ok (Some (rc, l')) ∧
  connected l' fd ∧ concat (written fd (outbox l')) = concat (written fd (outbox l)) ++ accepted buf rc.
Proof using Hser Hsendto.
  intros (s & Hs & Ht & Hc). unfold Xsend. rewrite decide_False by (intros H; by apply H). case_decide as Hl.
  { exists 0, l. split; [done|]. split; [by exists s|]. cbn. by rewrite app_nil_r. }
  set (len := Z.of_nat (length buf) `min` XIA_MAXBUF).
  rewrite (call_bind_some _ _ _ _ _ (validate_type _ _ _ _ _ Hs Ht)). rewrite decide_False by lia.
  unfold isConnected. rewrite (call_bind_some _ _ _ _ _ (reading_of _ _ _ _ _ (put_same l fd s))). rewrite decide_False by done.
  assert (undefined (block_read (Some buf) 0 len) (put (put l fd s) fd s) = Ok (Some (take (Z.to_nat len) buf, put (put l fd s) fd s))) as Hrd.
  { unfold undefined, block_read. by rewrite decide_True by (unfold len, XIA_MAXBUF, MAXBUFLEN; lia). }
  rewrite (call_bind_some _ _ _ _ _ Hrd).
  destruct (click_send_of (put (put l fd s) fd s) fd s (take (Z.to_nat len) buf) (put_same _ _ _)) as (rc & l' & H1 & Hs1 & Hrc).
  rewrite (call_bind_some _ _ _ _ _ H1). eexists _, l'. split; [done|]. split; [by eexists|].
  destruct Hrc as [[-> ->]|[-> ->]]; cbn [put outbox].
  - rewrite decide_False by lia. rewrite written_app, concat_app. f_equal. cbn. rewrite decide_True by done. cbn. by rewrite app_nil_r.
  - rewrite decide_True by lia. cbn. by rewrite app_nil_r.
Qed.

(** Calls of [Xsend], one after the other. *)
Fixpoint sends (fd : Z) (bufs : list (list Z)) : call (list Z) :=
  match bufs with
  | [] => mret []
  | buf :: bufs => rc ← Xsend serialize sendto fd (Some buf) (Z.of_nat (length buf)) 0; rcs ← sends fd bufs; mret (rc :: rcs)
  end.

Lemma sends_ok fd bufs : ∀ l, connected l fd → ∃ rcs l', sends fd bufs l = Ok (Some (rcs, l')) ∧
  concat (written fd (outbox l')) = concat (written fd (outbox l)) ++ concat (zip_with accepted bufs rcs).
Proof using Hser Hsendto.
  induction bufs as [|buf bufs IH]; intros l Hl; cbn [sends].
  { exists [], l. split; [done|]. cbn. by rewrite app_nil_r. }
  destruct (send_lib l fd buf Hl) as (rc & l1 & H1 & Hc1 & Ho1). rewrite (call_bind_some _ _ _ _ _ H1).
  destruct (IH l1 Hc1) as (rcs & l2 & H2 & Ho2). rewrite (call_bind_some _ _ _ _ _ H2). exists (rc :: rcs), l2. split; [done|].
  rewrite Ho2, Ho1. cbn. by rewrite app_assoc.
Qed.
End send.

(** ** Names as text *)

(** The hexadecimal digits end here. *)
Definition digits_end (s : str) : Prop := match s with [] => True | c :: _ => isxdigit c = false end.

Lemma xid_digits s : ∀ first n, ∃ h rest, s = h ++ rest ∧ Forall (λ c, isxdigit c = true) h ∧ digits_end rest ∧
  xid_loop s first (Some n) = Some (n + Z.of_nat (length h)).
Proof.
  induction s as [|c s IH]; intros first n; cbn [xid_loop].
  { exists [], []. split_and!; try done. cbn. f_equal. lia. }
  destruct (isxdigit c) eqn:Hx.
  - rewrite decide_False by (by intros ->). destruct (IH false (n + 1)) as (h & rest & -> & Hh & Hr & ->).
    exists (c :: h), rest. split_and!; [done|by constructor|done|]. f_equal. cbn [length]. lia.
  - exists [], (c :: s). split_and!; try done. cbn [length]. rewrite Z.add_0_r. by case_decide.
Qed.

(** The digits before a point where they end are determined. *)
Lemma digits_unique h h' rest rest' : h ++ rest = h' ++ rest' → Forall (λ c, isxdigit c = true) h → Forall (λ c, isxdigit c = true) h' →
  digits_end rest → digits_end rest' → h = h'.
Proof.
  revert h'. induction h as [|c h IH]; intros [|c' h'] Heq Hh Hh' Hr Hr'; [done| | |].
  - cbn in Heq. subst rest. apply Forall_cons in Hh' as [Hc _]. cbn in Hr. congruence.
  - cbn in Heq. subst rest'. apply Forall_cons in Hh as [Hc _]. cbn in Hr'. congruence.
  - injection Heq as -> Heq. apply Forall_cons in Hh as [_ Hh]. apply Forall_cons in Hh' as [_ Hh']. f_equal. by eapply IH.
Qed.

Lemma xid_name s : ∀ first, xid_loop s first None = Some 40 ↔ ∃ t h rest, s = t ++ ":"%char :: h ++ rest ∧
  Forall (λ c, isalnum c = true) t ∧ (first = true → t ≠ []) ∧ length h = 40%nat ∧ Forall (λ c, isxdigit c = true) h ∧ digits_end rest.
Proof.
  induction s as [|c s IH]; intros first; cbn [xid_loop].
  { split; [done|]. by intros ([|??] & h & rest & ? & _). }
  case_decide as Hc; [subst c; destruct first|].
  - split; [done|]. intros ([|c t] & h & rest & Heq & Ht & Hf & _); [by specialize (Hf eq_refl)|].
    injection Heq as <- _. apply Forall_cons in Ht as [Ht _]. done.
  - destruct (xid_digits s false 0) as (h & rest & -> & Hh & Hr & ->). split.
    + intros [= Hl]. exists [], h, rest. split_and!; try done. lia.
    + intros ([|c t] & h' & rest' & Heq & Ht & _ & Hl & Hh' & Hr').
      * injection Heq as Heq. assert (h = h') as -> by (by eapply digits_unique). f_equal. lia.
      * injection Heq as <- _. apply Forall_cons in Ht as [Ht _]. done.
  - destruct (isalnum c) eqn:Ha.
    + rewrite IH. split; intros (t & h & rest & Heq & Ht & Hf & H).
      * exists (c :: t), h, rest. subst s. split_and!; [done|by constructor|done|apply H..].
      * destruct t as [|c' t]; [by injection Heq as -> _|]. injection Heq as -> Heq. apply Forall_cons in Ht as [_ Ht].
        exists t, h, rest. split_and!; try done; apply H.
    + split; [done|]. intros ([|c' t] & h & rest & Heq & Ht & _); [by injection Heq as -> _|].
      injection Heq as <- _. apply Forall_cons in Ht as [Ht _]. congruence.
Qed.

(** What [checkXid] accepts: the type that is asked for, a name, a colon and 40
    digits; what comes behind the digits does not matter. *)
Lemma checkXid_accepts xid type : checkXid xid type = true ↔ default [] type `prefix_of` xid ∧
  ∃ t h rest, xid = t ++ ":"%char :: h ++ rest ∧ Forall (λ c, isalnum c = true) t ∧ t ≠ [] ∧ length h = 40%nat ∧
    Forall (λ c, isxdigit c = true) h ∧ digits_end rest.
Proof.
  unfold checkXid. case_decide as Hp; [|by split; [done|intros [? _]]]. rewrite bool_decide_eq_true, xid_name. naive_solver.
Qed.

(** ** Witnesses *)

(** A message as the length of its address, the address, and its data. *)
Definition demo_encode (dag : str) (p : list Z) : list Z := Z.of_nat (length dag) :: map code dag ++ p.
Definition demo_parse (b : list Z) : reply :=
  match b with
  | [] => R_XRECV [] []
  | n :: b => R_XRECV (map (λ z, ascii_of_nat (Z.to_nat z)) (take (Z.to_nat n) b)) (drop (Z.to_nat n) b)
  end.

Lemma demo_parse_encode dag p : demo_parse (demo_encode dag p) = R_XRECV dag p.
Proof.
  unfold demo_parse, demo_encode. rewrite Nat2Z.id, take_app_length', drop_app_length' by (by rewrite length_map). f_equal.
  rewrite map_map. induction dag as [|c dag IH]; [done|]. cbn [map]. f_equal; [|done].
  unfold code. rewrite Nat2Z.id. apply ascii_nat_embedding.
Qed.

(** A library with a socket of the given type, that keeps nothing. *)
Definition demo_lib (type : Z) (waiting : list (str * list Z)) : Lib :=
  mkLib {[5 := Some (mkSS type 1 0 0 None 0 None)]} 0 [] {[5 := map (λ m, Some (demo_encode m.1 m.2)) waiting]} true.

Lemma demo_lib_state type waiting : sockets (demo_lib type waiting) !! 5 = Some (Some (mkSS type 1 0 0 None 0 None)) ∧
  default [] (inbox (demo_lib type waiting) !! 5) = map (λ m, Some (demo_encode m.1 m.2)) waiting.
Proof. cbn [demo_lib sockets inbox]. by rewrite !lookup_singleton_eq. Qed.

Lemma demo_ready waiting : ready demo_encode (demo_lib XSOCK_STREAM waiting) 5 [] waiting.
Proof.
  destruct (demo_lib_state XSOCK_STREAM waiting) as [Hs Hi]. split; [done|]. eexists. split; [exact Hs|]. split; [|by rewrite Hi].
  split; [done|]. split; [intros H; by destruct H|done].
Qed.

Lemma demo_lib_ok type waiting : lib_ok (demo_lib type waiting).
Proof.
  intros k s. cbn [demo_lib sockets]. rewrite lookup_singleton_Some. intros [_ [= <-]]. split; [done|]. split; [intros H; by destruct H|done].
Qed.

Definition demo_serialize (m : api_msg) : list Z := [1; 2; 3].
Definition demo_sendto (fd : Z) (b : list Z) : Z := Z.of_nat (length b).

Lemma library_sound_witness : ∃ l, exec_call demo_serialize demo_parse demo_sendto (λ _, 0) (LXrecv 5 true 2 0)
  (demo_lib XSOCK_STREAM [(lit "x", [7; 8; 9])]) = Ok (Some ((), l)) ∧ lib_ok l.
Proof.
  destruct (library_sound demo_serialize demo_parse demo_sendto (λ _, 0) (LXrecv 5 true 2 0) (demo_lib XSOCK_STREAM [(lit "x", [7; 8; 9])])
    (demo_lib_ok _ _)) as (Hk & Hs & _). destruct (Hs eq_refl (λ _, eq_refl)) as [[[[] l]|] Ho].
  - exists l. split; [exact Ho|]. by apply Hk.
  - vm_compute in Ho. discriminate Ho.
Defined.

Lemma recv_stream_witness : ∃ rs l, recvs demo_parse 5 [2; 2; 5; 1] (demo_lib XSOCK_STREAM [(lit "x", [7; 8; 9]); (lit "y", [10])]) = Ok (rs, l) ∧
  map snd rs = [[7; 8]; [9]; [10]].
Proof.
  destruct (recv_stream demo_encode demo_parse demo_parse_encode (demo_lib XSOCK_STREAM [(lit "x", [7; 8; 9]); (lit "y", [10])]) 5
    [(lit "x", [7; 8; 9]); (lit "y", [10])] [2; 2; 5; 1]) as (rs & l & Hrs & _ & _ & Hall & _); [apply demo_ready| | |].
  - repeat (apply Forall_cons_2; [split; vm_compute; reflexivity|]). apply Forall_nil_2.
  - repeat (apply Forall_cons_2; [lia|]). apply Forall_nil_2.
  - exists rs, l. split; [exact Hrs|]. vm_compute in Hrs. injection Hrs as <- _. reflexivity.
Defined.

Lemma recvfrom_null_peer_witness : ∃ r l, Xrecvfrom demo_parse (λ _, 0) 5 true 2 0 None None (mkSockaddr 0 0 []) (demo_lib XSOCK_DGRAM [(lit "x", [7; 8; 9])])
    = Ok (Some (r, l)) ∧
  Xrecvfrom demo_parse (λ _, 0) 5 true 2 0 (Some (mkSockaddr 0 0 [])) (Some SIZEOF_SOCKADDR_X) (mkSockaddr 0 0 []) l = Ub NullDeref.
Proof.
  destruct (demo_lib_state XSOCK_DGRAM [(lit "x", [7; 8; 9])]) as [Hs Hi]. eexists _, _. split; [vm_compute; reflexivity|].
  apply (recvfrom_null_peer demo_encode demo_parse (λ _, 0) demo_parse_encode _ 5 _ (lit "x") [7; 8; 9] [] 2 None None (mkSockaddr 0 0 [])
    (2, [7; 8], None, None) _ Hs); try done; vm_compute; reflexivity.
Defined.
