(* ===== verification/ByteStream.v ===== *)
(** * ByteStream: bytes from one application to another

    The whole way of a stream: the socket library of one application
    ([SocketLib]), the transport elements of two hosts and the routers between
    them ([TransportStream]), and the socket library of the other application. *)

From Stdlib Require Import ZArith Lia Ascii String.
From stdpp Require Import base gmap list.
From S2P Require Import Prelude Text ConfParse XiaPath XiaPathCodec XidText XiaPathText XiaHeader ExtHeader RouteTable Elements HeaderView PacketRoute PacketRouteSpec PacketRouteWalk DagNode DagAddr XTransport TransportWire Carriage TransportSocket TransportStream SocketLib SocketLibSpec.
Local Open Scope Z_scope.

Lemma concat_prefix {A} (l1 l2 : list (list A)) : l1 `prefix_of` l2 → concat l1 `prefix_of` concat l2.
Proof. intros [k ->]. exists (concat k). apply concat_app. Qed.

Section bytes.
Context (query_xid : str → option Xid) (query_ip : str → option (list Z)).
Context (entries : kvmap → list (Z * list Z)) (fresh : nat → list Z) (fresh_nodes : Z → list xid_node).
Context (port_order : gmap Z DAGinfo → list Z) (cid_order : gmap Xid bool → list Xid).
Context (sid : side → Xid) (sport : side → Z).
Context (Hentries : ∀ m, entries m ≡ₚ map_to_list m) (Hfresh : ∀ n, length (fresh n) = n).
Context (Hnodes : ∀ n, 0 ≤ n → Z.of_nat (length (fresh_nodes n)) = n).
Context (Hports : ∀ m, port_order m ≡ₚ (map_to_list m).*1) (Hcids : ∀ m, cid_order m ≡ₚ (map_to_list m).*1).
Context (Hsid : sid Caller ≠ sid Callee).
Context (serialize : api_msg → list Z) (sendto : Z → list Z → Z) (encode : str → list Z → list Z) (parse : list Z → reply).
Context (Hser : ∀ d, serialize (M_XSEND d) ≠ []) (Hsendto : ∀ fd b, sendto fd b ≤ Z.of_nat (length b)).
Context (Hparse : ∀ dag p, parse (encode dag p) = R_XRECV dag p).

Abbreviation may := (admissible query_xid query_ip sid).

(** C2: an application writes buffers with [Xsend] to an established stream; its
    messages reach the transport element of its host in order; the element sends
    them through a network that loses, repeats and reorders packets; the
    messages that the element of the other host has given to its application
    wait at the socket there.  Then the bytes that application reads with
    [Xrecv] are the first of the bytes that [Xsend] has accepted; and when all
    messages have arrived, enough calls read all of them.  The messages that wait
    must be shorter, in their encoded form, than the 15600 bytes of the buffer of
    the reading library, which cuts longer ones although [Xsend] accepts buffers
    of that length; and [new] and [new\[\]] must share one heap there ([ready]). *)
Theorem byte_stream s0 i l fd bufs : established query_xid query_ip entries fresh sid sport s0 → connected l fd → outbox l = [] →
  ∃ rcs l', sends serialize sendto fd bufs l = Ok (Some (rcs, l')) ∧
  ∀ s, reached query_xid query_ip entries fresh fresh_nodes port_order cid_order sport may s0 s →
  sent s (other i) `prefix_of` written fd (outbox l') →
  ∀ r fd' waiting lens, ready encode r fd' [] waiting → map snd waiting = rcvd s i → Forall (fits encode) waiting →
    Forall (λ len, 0 < len < 2 ^ 31) lens →
  ∃ rs r', recvs parse fd' lens r = Ok (rs, r') ∧
    concat (map snd rs) `prefix_of` concat (zip_with accepted bufs rcs) ∧
    (rcvd s i = written fd (outbox l') → (length (concat (rcvd s i)) + length (rcvd s i) < length lens)%nat →
     concat (map snd rs) = concat (zip_with accepted bufs rcs)).
Proof using Hentries Hfresh Hnodes Hports Hcids Hsid Hser Hsendto Hparse.
  intros Hest Hc Hout. destruct (sends_ok serialize sendto Hser Hsendto fd bufs l Hc) as (rcs & l' & Hsends & Hw).
  rewrite Hout in Hw. exists rcs, l'. split; [done|]. intros s Hre Hsent r fd' waiting lens Hrd Hwait Hfit Hlens.
  destruct (reached_inv query_xid query_ip entries fresh fresh_nodes port_order cid_order sid sport Hentries Hfresh Hnodes Hports Hcids Hsid
    s0 s Hest Hre) as (base & Hinv). destruct (proj1 Hinv i) as (_ & Hpre & _).
  destruct (recvs_ok encode parse Hparse fd' lens r [] waiting Hrd Hfit ltac:(done) Hlens) as (rs & r' & k' & w' & Hrs & _ & Hcat & _ & Hend & Hms).
  assert (all_bytes_of waiting = concat (rcvd s i)) as Hab by (unfold all_bytes_of; by rewrite Hwait).
  rewrite Hab in Hcat. exists rs, r'. split; [done|]. split.
  - rewrite <-(app_nil_l (concat (zip_with _ _ _))). change [] with (concat (written fd [])). rewrite <-Hw.
    transitivity (concat (rcvd s i)); [by eexists; symmetry|]. apply concat_prefix. by etransitivity.
  - intros Hall Hn. assert (k' = [] ∧ w' = []) as [-> ->].
    { apply Hend. unfold left_over in Hms. rewrite Hab in Hms. assert (length waiting = length (rcvd s i)) by (rewrite <-Hwait; by rewrite length_map).
      cbn [length] in Hms. lia. }
    cbn in Hcat. rewrite app_nil_r in Hcat. by rewrite Hcat, Hall, Hw.
Qed.
End bytes.

(** ** Witness *)

(** A router that is the host of every address, the packet of the message
    [1; 2; 3], and the packet where it arrives. *)
Definition demo_gate : XIAPacketRoute :=
  mkPacketRoute (replicate 5 (mkTable ∅ (mkRoute DESTINED_FOR_LOCALHOST 0 None) 1 4 XIAPath_reset Xid_undef)) (mkDecHLIM true 0).
Definition demo_pkt : list Z := Eval vm_compute in default [] (head (net demo_sent)).
Definition demo_run_gate : res (XIAPacketRoute * list event) := packet_route 20 demo_gate (mkPacket demo_pkt 0 0 Xid_undef).
Definition demo_arrived : list Z :=
  Eval vm_compute in match demo_run_gate with Ok (_, [Arrived q]) => p_data q | _ => [] end.

Lemma demo_able : able demo_gate (mkPacket demo_pkt 0 0 Xid_undef) 3.
Proof.
  split; [done|done|by left|by vm_compute|]. intros row k idx x He. cbn [p_data] in He.
  assert (∀ x, x = demo_xid CLICK_XIA_XID_TYPE_AD 2 ∨ x = demo_xid CLICK_XIA_XID_TYPE_HID 2 ∨ x = demo_xid CLICK_XIA_XID_TYPE_SID 2 →
    x ≠ _bcast_xid ∧ ∀ rt, decision (tables demo_gate) x = Some rt → rt_port rt ≠ DESTINED_FOR_BROADCAST) as Hx.
  { intros y [-> | [-> | ->]]; (split; [done|]); intros rt Hrt; vm_compute in Hrt; injection Hrt as <-; done. }
  apply Hx. clear Hx. unfold dag_edge in He. case_decide as Hr; [|done].
  assert (row = 0 ∨ row = 1 ∨ row = 2) as Hrow by lia. assert (k = 0 ∨ k = 1 ∨ k = 2 ∨ k = 3) as Hk by lia.
  destruct_or! Hrow; destruct_or! Hk; subst; vm_compute in He; try done; injection He as _ <-; auto.
Qed.

(** The checks below are evaluated. *)
Lemma demo_gate_run : packet_route (4 * Z.to_nat 3 + 8) demo_gate (mkPacket demo_pkt 0 0 Xid_undef) =
  Ok (demo_gate, [Arrived (mkPacket demo_arrived DESTINED_FOR_LOCALHOST 0 Xid_undef)]).
Proof. vm_compute. reflexivity. Qed.

Lemma demo_lands : lands demo_arrived (demo_sid 2).
Proof. exists 2. split; vm_compute; reflexivity. Qed.

Lemma demo_destination : ∃ q, dst_path demo_pkt = Ok q ∧ destination_xid q = Ok (demo_sid 2).
Proof. eexists. split; [vm_compute; reflexivity|]. vm_compute. reflexivity. Qed.

Lemma demo_carried : carried_to (demo_sid 2) demo_pkt demo_arrived.
Proof.
  split; [exact demo_destination|]. split; [|exact demo_lands].
  exact (carried_arrives demo_gate _ 3 _ _ _ demo_able demo_gate_run (list_elem_of_here _ _)).
Qed.

Lemma demo_net : net demo_sent = [demo_pkt].
Proof. vm_compute. reflexivity. Qed.

Lemma demo_receive_may : demo_may demo_sent (Receive Callee demo_arrived 0).
Proof. exists demo_pkt. split; [|exact demo_carried]. rewrite demo_net. apply list_elem_of_here. Qed.

Definition demo_got : system := match demo_run demo_sent (Receive Callee demo_arrived 0) with Ok s => s | Ub _ => demo_system end.

Abbreviation demo_reached := (reached (λ _, None) (λ _, None) demo_entries demo_fresh demo_nodes demo_ports demo_cids demo_sports demo_may demo_system).

Lemma demo_reached_sent : demo_reached demo_sent.
Proof. exact (reached_step _ _ _ _ _ _ _ _ _ _ _ _ _ (reached_init _ _ _ _ _ _ _ _ _ _) demo_send_may demo_sent_run). Qed.

Lemma demo_reached_got : demo_reached demo_got.
Proof.
  eapply reached_step; [exact demo_reached_sent|exact demo_receive_may|]. unfold demo_got.
  destruct demo_laws as (L1 & L2 & L3 & L4 & L5).
  destruct (reached_inv (λ _, None) (λ _, None) demo_entries demo_fresh demo_nodes demo_ports demo_cids demo_sids demo_sports
    L1 L2 L3 L4 L5 demo_sids_ne demo_system demo_sent demo_established demo_reached_sent) as (base & Hinv).
  destruct (receive_step (λ _, None) (λ _, None) demo_entries demo_fresh demo_nodes demo_ports demo_cids demo_sids demo_sports
    L1 L2 L3 demo_sids_ne demo_sent base Callee demo_arrived 0 Hinv demo_receive_may) as (s & _ & Hs & _).
  rewrite Hs. reflexivity.
Qed.

Lemma demo_got_rcvd : rcvd demo_got Callee = [[1; 2; 3]] ∧ sent demo_got Caller = [[1; 2; 3]].
Proof. split; vm_compute; reflexivity. Qed.

Lemma demo_connected : connected (demo_lib SocketLib.XSOCK_STREAM []) 5.
Proof. destruct (demo_lib_state SocketLib.XSOCK_STREAM []) as [Hs _]. eexists. split; [exact Hs|]. done. Qed.

Lemma demo_serialize_ne d : demo_serialize (M_XSEND d) ≠ [].
Proof. done. Qed.
Lemma demo_sendto_le fd b : demo_sendto fd b ≤ Z.of_nat (length b).
Proof. unfold demo_sendto. lia. Qed.

(** The message [1; 2; 3] is read in two parts. *)
Lemma byte_stream_witness : ∃ rs r, recvs demo_parse 5 [2; 2; 2; 2; 2] (demo_lib SocketLib.XSOCK_STREAM [(lit "x", [1; 2; 3])]) = Ok (rs, r) ∧
  concat (map snd rs) = [1; 2; 3].
Proof.
  destruct demo_laws as (L1 & L2 & L3 & L4 & L5).
  destruct (byte_stream (λ _, None) (λ _, None) demo_entries demo_fresh demo_nodes demo_ports demo_cids demo_sids demo_sports
    L1 L2 L3 L4 L5 demo_sids_ne demo_serialize demo_sendto demo_encode demo_parse demo_serialize_ne demo_sendto_le demo_parse_encode
    demo_system Callee (demo_lib SocketLib.XSOCK_STREAM []) 5 [[1; 2; 3]] demo_established demo_connected eq_refl)
    as (rcs & l & Hsend & Hall).
  vm_compute in Hsend. injection Hsend as <- <-. destruct demo_got_rcvd as [Hr Hs].
  destruct (Hall demo_got demo_reached_got) with (r := demo_lib SocketLib.XSOCK_STREAM [(lit "x", [1; 2; 3])]) (fd' := 5)
    (waiting := [(lit "x", [1; 2; 3])]) (lens := [2; 2; 2; 2; 2]) as (rs & r' & Hrs & _ & Hfull).
  - cbn [other]. rewrite Hs. vm_compute. exists []. reflexivity.
  - apply demo_ready.
  - rewrite Hr. reflexivity.
  - repeat (apply Forall_cons_2; [split; vm_compute; reflexivity|]). apply Forall_nil_2.
  - repeat (apply Forall_cons_2; [lia|]). apply Forall_nil_2.
  - exists rs, r'. split; [exact Hrs|]. rewrite Hr in Hfull. apply Hfull; [vm_compute; reflexivity|cbn; lia].
Defined.
