(* ===== verification/NameService.v ===== *)
(** Names: the messages of the name service and the calls that register and look
    up names (src/api/xsocket/XgetDAGbyName.c, src/api/include/xns.h), and the
    name server (src/daemons/nameserver/ns.cc). *)

From Stdlib Require Import ZArith Lia Ascii String.
From stdpp Require Import base gmap list.
From S2P Require Import Prelude Text StdMap DagNode DagAddr RouteTable XTransport SocketLib SocketCalls.
Local Open Scope Z_scope.

Definition NS_MAX_PACKET_SIZE : nat := 1024.
Definition NS_TYPE_REGISTER : Z := 1.
Definition NS_TYPE_QUERY : Z := 2.
Definition NS_TYPE_RESPONSE_REGISTER : Z := 3.
Definition NS_TYPE_RESPONSE_QUERY : Z := 4.
Definition NS_TYPE_RESPONSE_ERROR : Z := 5.
Definition NS_FLAGS_MIGRATE : Z := 1.
Definition NO_RECOVERY : Z := 3.

(** ** Messages *)

(** A message to be written: its strings, or null pointers. *)
Record ns_pkt := mkNs { ns_type : Z; ns_flags : Z; ns_name : option str; ns_dag : option str }.

(** [strcpy] of a string, with its zero. *)
Definition c_string (s : str) : list Z := bytes_of (c_chars s) ++ [0].

(** The length, and the buffer of [pkt_sz] bytes. *)
Definition make_ns_packet (np : ns_pkt) (pkt_sz : nat) : res (Z * list Z) :=
  if decide (pkt_sz = 0)%nat then Ok (0, [])
  else
    let buffer b := if decide (length b ≤ pkt_sz)%nat then Ok (b ++ replicate (pkt_sz - length b) 0) else Ub OutOfBounds in
    let head := [u8 (ns_type np); u8 (ns_flags np)] in
    let body :=
      if decide (ns_type np = NS_TYPE_REGISTER) then
        match ns_name np, ns_dag np with Some n, Some d => Some (c_string n ++ c_string d) | _, _ => None end
      else if decide (ns_type np = NS_TYPE_QUERY) then option_map c_string (ns_name np)
      else if decide (ns_type np = NS_TYPE_RESPONSE_QUERY) then option_map c_string (ns_dag np)
      else Some [] in
    pkt ← buffer (head ++ default [] body);
    Ok (match body with Some b => Z.of_nat (length (head ++ b)) | None => 0 end, pkt).

(** The string at an offset of a buffer: it ends with a zero inside. *)
Fixpoint string_at (buf : list Z) : res (list Z) :=
  match buf with
  | [] => Ub OutOfBounds
  | x :: buf => if decide (x = 0) then Ok [] else s ← string_at buf; Ok (x :: s)
  end.
Definition text_at (buf : list Z) (o : nat) : res str := s ← string_at (drop o buf); Ok (chars s).

(** A message that was read: its strings are offsets in the buffer. *)
Record ns_view := mkView { nv_type : Z; nv_flags : Z; nv_name : option nat; nv_dag : option nat }.

Definition i8 (x : Z) : Z := wrapS 8 x.

(** Of a message that is too short only the type is set. *)
Definition get_ns_packet (pkt : list Z) (sz : Z) : res ns_view :=
  if decide (sz < 2) then Ok (mkView NS_TYPE_RESPONSE_ERROR 0 None None)
  else
    t ← vget pkt 0; f ← vget pkt 1;
    let t := i8 t in
    if decide (t = NS_TYPE_QUERY) then Ok (mkView t (i8 f) (Some 2%nat) None)
    else if decide (t = NS_TYPE_REGISTER) then
      n ← string_at (drop 2 pkt); Ok (mkView t (i8 f) (Some 2%nat) (Some (2 + length n + 1)%nat))
    else if decide (t = NS_TYPE_RESPONSE_QUERY) then Ok (mkView t (i8 f) None (Some 2%nat))
    else Ok (mkView t (i8 f) None None).

(** A buffer that was cleared, with what was received. *)
Definition received (b : list Z) : list Z := b ++ replicate (NS_MAX_PACKET_SIZE - length b) 0.

(** A string of a message; a null pointer is not followed. *)
Definition text_of_view (pkt : list Z) (o : option nat) : res str :=
  match o with Some o => text_at pkt o | None => Ub NullDeref end.

(** ** The hosts file *)

(** [fgets]: a line with its end, or as much as fits. *)
Fixpoint fgets (n : nat) (b : list Z) : list Z * list Z :=
  match n, b with
  | S n, x :: b => if decide (x = 10) then ([x], b) else let r := fgets n b in (x :: r.1, r.2)
  | _, _ => ([], b)
  end.

(** The loop that goes back over the end of the line leaves the array when there
    is nothing else. *)
Definition line_end (x : Z) : bool := bool_decide (x = 13) || bool_decide (x = 10) || bool_decide (x = 0).
Fixpoint strip_back (r : list Z) : res (list Z) :=
  match r with
  | [] => Ub OutOfBounds
  | x :: r' => if line_end x then strip_back r' else Ok r
  end.
Definition strip_line (line : list Z) : res (list Z) := r ← strip_back (reverse (c_bytes line)); Ok (reverse r).

(** The address of a line for the name. *)
Definition line_dag (name : str) (line : list Z) : option str :=
  let n := bytes_of name in
  if decide (head line = Some 35) then None
  else if decide (take (length n) line = n ∧ line !! length n = Some 32) then Some (chars (drop (S (length n)) line)) else None.

(** The last line with the name counts. *)
Fixpoint hosts_loop (fuel : nat) (name : str) (b : list Z) (found : option str) : res (option str) :=
  match fuel with
  | O => Ub OutOfFuel
  | S fuel =>
      let r := fgets 510 b in
      if decide (r.1 = []) then Ok found
      else
        line ← strip_line r.1;
        hosts_loop fuel name r.2 (match line_dag name line with Some d => Some d | None => found end)
  end.

(** [hosts]: the file, if it can be opened. *)
Definition hostsLookup (hosts : option (list Z)) (name : str) : res (option str) :=
  match hosts with None => Ok None | Some b => hosts_loop (S (length b)) name b None end.

(** The names and addresses of the server. *)
Abbreviation name_table := (gmap str str).

(** ** The calls *)

Section calls.
Variable serialize : api_msg → list Z.
Variable parse : list Z → reply.
Variable sendto : Z → list Z → Z.
Variable inet_addr : str → Z.
(** The hosts file, the socket the kernel returns, and what is on the stack. *)
Variable hosts : option (list Z).
Variable sockfd : Z.
Variable stack : sockaddr_x.

Definition get_errno : call Z := λ l, Ok (Some (errno l, l)).

(** A message to the name server, and its answer, with the buffer it is in; [None]
    is a failure. *)
Definition ask_server (np : res (Z * list Z)) (ns_dag : sockaddr_x) : call (option (ns_view * list Z)) :=
  p ← undefined np;
  rc ← Xsendto serialize sendto sockfd (Some p.2) p.1 0 (Some ns_dag) SIZEOF_SOCKADDR_X;
  if decide (rc < 0) then err ← get_errno; _ ← Xclose serialize parse sendto sockfd; _ ← set_errno err; mret None
  else
    r ← Xrecvfrom parse inet_addr sockfd true (Z.of_nat NS_MAX_PACKET_SIZE) 0 None None stack;
    let '(rc, b) := r.1.1 in
    if decide (rc < 0) then err ← get_errno; _ ← Xclose serialize parse sendto sockfd; _ ← set_errno err; mret None
    else v ← undefined (get_ns_packet (received b) rc); _ ← Xclose serialize parse sendto sockfd; mret (Some (v, received b)).

(** The address of the name server; when it was not written, what is on the
    stack is read. *)
Definition server_address (r : Z * option sockaddr_x) : res sockaddr_x := init r.2.

(** The address of a text, if it has nodes. *)
Definition text_address (dag : str) (addr : sockaddr_x) : res (option sockaddr_x) :=
  g ← Graph_of_string inet_addr 0 dag;
  if decide (0 < num_nodes g.1) then _ ← dag_string g.1; a ← fill_sockaddr g.1 addr; Ok (Some a) else Ok None.

Definition XgetDAGbyName (name : option str) (addr : option sockaddr_x) (addrlen : option Z) : call (Z * option sockaddr_x * option Z) :=
  match name, addr, addrlen with
  | Some (_ :: _ as nm), Some a, Some n =>
      if decide (n < SIZEOF_SOCKADDR_X) then fail EINVAL (-1, addr, addrlen)
      else
        dag ← undefined (hostsLookup hosts nm);
        local ← undefined (match dag with Some d => text_address d a | None => Ok None end);
        match local with
        | Some a => mret (0, Some a, Some SIZEOF_SOCKADDR_X)
        | None =>
            direct ← undefined (if decide (lit "RE " `prefix_of` nm ∨ lit "DAG " `prefix_of` nm) then text_address nm a else Ok None);
            match direct with
            | Some a => mret (0, Some a, Some SIZEOF_SOCKADDR_X)
            | None =>
                sock ← Xsocket serialize parse sendto AF_XIA XSOCK_DGRAM 0 sockfd;
                if decide (sock < 0) then mret (-1, addr, addrlen)
                else
                  r ← XreadNameServerDAG serialize parse sendto inet_addr sock (Some stack);
                  if decide (r.1 < 0) then fail NO_RECOVERY (-1, addr, addrlen)
                  else
                    ns ← undefined (server_address r);
                    v ← ask_server (make_ns_packet (mkNs NS_TYPE_QUERY 0 (Some nm) None) NS_MAX_PACKET_SIZE) ns;
                    match v with
                    | Some (v, pkt) =>
                        if decide (nv_type v = NS_TYPE_RESPONSE_QUERY) then
                          dag ← undefined (text_of_view pkt (nv_dag v));
                          g ← undefined (Graph_of_string inet_addr 0 dag);
                          a ← undefined (fill_sockaddr g.1 a);
                          mret (0, Some a, Some SIZEOF_SOCKADDR_X)
                        else mret (-1, addr, addrlen)
                    | None => mret (-1, addr, addrlen)
                    end
            end
        end
  | _, _, _ => fail EINVAL (-1, addr, addrlen)
  end.

Definition _xregister (name : option str) (DAG : option sockaddr_x) (flags : Z) : call Z :=
  sock ← Xsocket serialize parse sendto AF_XIA XSOCK_DGRAM 0 sockfd;
  if decide (sock < 0) then mret (-1)
  else
    r ← XreadNameServerDAG serialize parse sendto inet_addr sock (Some stack);
    if decide (r.1 < 0) then fail NO_RECOVERY (-1)
    else match name, DAG with
    | Some (_ :: _ as nm), Some a =>
        if decide (sx_family a ≠ AF_XIA) then fail EINVAL (-1)
        else
          g ← undefined (graph_of a);
          if decide (num_nodes g.1 ≤ 0) then fail EINVAL (-1)
          else
            s ← undefined (dag_string g.1);
            ns ← undefined (server_address r);
            v ← ask_server (make_ns_packet (mkNs NS_TYPE_REGISTER flags (Some nm) (Some s)) NS_MAX_PACKET_SIZE) ns;
            mret (match v with
                  | Some (v, _) => if decide (nv_type v = NS_TYPE_RESPONSE_REGISTER) then 0 else -1
                  | None => -1
                  end)
    | _, _ => fail EINVAL (-1)
    end.

Definition XregisterName (name : option str) (DAG : option sockaddr_x) : call Z := _xregister name DAG 0.
Definition XregisterHost (name : option str) (DAG : option sockaddr_x) : call Z := _xregister name DAG NS_FLAGS_MIGRATE.

(** ** The server *)

Definition check_pair (g : Graph) (ad hid : Z) : res bool :=
  if decide (0 ≤ ad ∧ 0 ≤ hid) then es ← get_out_edges g ad; Ok (bool_decide (hid ∈ map i32 es)) else Ok false.

(** The last AD and the last node of interest of a graph. *)
Definition find_pair (is_ad is_hid : Node → bool) (g : Graph) : res (Z * option Node * Z * option Node) :=
  foldM (λ st i,
    n ← get_node g (Z.of_nat i);
    let '(ad, nad, hid, nhid) := st in
    Ok (if is_ad n then (Z.of_nat i, Some n, hid, nhid) else if is_hid n then (ad, nad, Z.of_nat i, Some n) else st))
    (-1, None, -1, None) (seq 0 (Z.to_nat (num_nodes g))).

(** A pointer that was set. *)
Definition the {A} (o : option A) : res A := match o with Some a => Ok a | None => Ub NullDeref end.

(** One record: the AD is replaced in the graph that was made from its text. *)
Definition migrate_record (old_ad new_hid new_ad : Node) (ds : str) : res Graph :=
  g ← Graph_of_string inet_addr 0 ds;
  st ← find_pair (Node_equal_to old_ad) (Node_equal_to new_hid) g.1;
  let '(ad, _, hid, _) := st in
  ok ← check_pair g.1 ad hid;
  if (ok : bool) then replace_node_at g.1 ad new_ad else Ok g.1.

Definition migrate (name dag : str) (t : name_table) : res name_table :=
  match t !! name with
  | None => Ok (<[name := dag]> t)
  | Some dag_str =>
      new_dag ← Graph_of_string inet_addr 0 dag;
      old_dag ← Graph_of_string inet_addr 0 dag_str;
      st ← find_pair (λ n, bool_decide (n_type n = XID_TYPE_AD)) (λ n, bool_decide (n_type n = XID_TYPE_HID)) new_dag.1;
      let '(ad, new_ad, hid, new_hid) := st in
      ok ← check_pair new_dag.1 ad hid;
      if (ok : bool) then
        new_ad ← the new_ad; new_hid ← the new_hid;
        st ← find_pair (λ n, bool_decide (n_type n = XID_TYPE_AD))
               (λ n, bool_decide (n_type n = XID_TYPE_HID) && Node_equal_to new_hid n) old_dag.1;
        let '(ad, old_ad, hid, _) := st in
        ok ← check_pair old_dag.1 ad hid;
        if (ok : bool) then
          old_ad ← the old_ad;
          let t := <[name := dag]> t in
          _ ← foldM (λ _ e, _ ← migrate_record old_ad new_hid new_ad e.2; Ok ()) () (StdMap.entries t);
          Ok t
        else Ok t
      else Ok t
  end.

(** One round of the main loop: the request that was received, and the answer. *)
Definition ns_serve (t : name_table) (b : list Z) : res (name_table * list Z) :=
  let pkt := received b in
  v ← get_ns_packet pkt (Z.of_nat (length b));
  r ← (if decide (nv_type v = NS_TYPE_REGISTER) then
         name ← text_of_view pkt (nv_name v);
         dag ← text_of_view pkt (nv_dag v);
         t ← (if decide (Z.land (nv_flags v) NS_FLAGS_MIGRATE ≠ 0) then migrate name dag t else Ok (<[name := dag]> t));
         Ok (t, NS_TYPE_RESPONSE_REGISTER, None)
       else if decide (nv_type v = NS_TYPE_QUERY) then
         name ← text_of_view pkt (nv_name v);
         Ok (match t !! name with
             | Some dag => (t, NS_TYPE_RESPONSE_QUERY, Some dag)
             | None => (t, NS_TYPE_RESPONSE_ERROR, None)
             end)
       else Ok (t, NS_TYPE_RESPONSE_ERROR, None));
  let '(t, rtype, dag) := r in
  p ← make_ns_packet (mkNs rtype 0 None dag) NS_MAX_PACKET_SIZE;
  Ok (t, take (Z.to_nat p.1) p.2).
End calls.
