(* ===== verification/NameSpec.v ===== *)
(** * NameSpec: what the name service promises

    Messages are read back as they were written; the server answers every request
    whose strings end, and a name that was registered is found.  A host that moves
    changes its own record only, although the comments of the server say that the
    records with its old network follow it. *)

From Stdlib Require Import ZArith Lia Ascii String.
From stdpp Require Import base gmap list.
From S2P Require Import Prelude Text StdMap DagNode DagAddr DagWf DagView DagText RouteTable XTransport SocketLib SocketCalls NameService.
Local Open Scope Z_scope.

(** ** Strings in buffers *)

(** A C string. *)
Definition plain (s : str) : Prop := Forall (λ c, code c ≠ 0) s.

Lemma c_chars_plain s : plain s → c_chars s = s.
Proof. induction 1 as [|c s Hc Hs IH]; [done|]. cbn [c_chars]. rewrite decide_False by done. by rewrite IH. Qed.

Lemma c_string_plain s : plain s → c_string s = bytes_of s ++ [0].
Proof. intros H. unfold c_string. by rewrite c_chars_plain. Qed.

Lemma chars_bytes s : chars (bytes_of s) = s.
Proof.
  unfold chars, bytes_of. rewrite map_map. rewrite <-(map_id s) at 2. apply map_ext. intros c. unfold chr, code.
  rewrite Nat2Z.id. apply ascii_nat_embedding.
Qed.

Lemma bytes_plain s : plain s → 0 ∉ bytes_of s.
Proof. intros Hs (c & Hc & Hin)%list_elem_of_fmap. eapply Forall_forall in Hs; [|done]. by apply Hs. Qed.

Lemma string_at_ok a r : 0 ∉ a → string_at (a ++ 0 :: r) = Ok a.
Proof.
  induction a as [|x a IH]; [done|]. intros [H1 H2]%not_elem_of_cons. cbn [string_at app]. rewrite decide_False by congruence. by rewrite IH.
Qed.

(** A string ends in the buffer or is read beyond it. *)
Lemma string_at_cases b : (∃ a r, b = a ++ 0 :: r ∧ 0 ∉ a ∧ string_at b = Ok a) ∨ (0 ∉ b ∧ string_at b = Ub OutOfBounds).
Proof.
  induction b as [|x b IH]; [right; split; [set_solver|done]|]. cbn [string_at]. case_decide as Hx.
  - left. exists [], b. subst. split; [done|]. split; [set_solver|done].
  - destruct IH as [(a & r & -> & Ha & ->)|[Hb ->]].
    + left. exists (x :: a), r. split; [done|]. split; [set_solver|done].
    + right. split; [set_solver|done].
Qed.

Lemma length_bytes s : length (bytes_of s) = length s.
Proof. apply length_map. Qed.

(** ** Addresses as text *)

Lemma print_digits_plain fuel : ∀ n acc, plain acc → plain (print_digits fuel n acc).
Proof.
  induction fuel as [|fuel IH]; intros n acc Hacc; [done|]. cbn [print_digits].
  assert (plain (digit (n mod 10) :: acc)) as Hd.
  { constructor; [|done]. pose proof (code_digit (n mod 10)). pose proof (Z.mod_pos_bound n 10). lia. }
  case_decide; auto.
Qed.

Lemma print_d_c_string n : plain (print_d n).
Proof. unfold print_d. case_decide; [constructor; [done|]|]; apply print_digits_plain; constructor. Qed.

Lemma node_plain n b : Forall is_byte (n_id n) → plain b → plain (type_string n ++ ":"%char :: id_string n ++ b).
Proof.
  intros Hn Hb. pose proof (to_string_chars n Hn) as Hc. change (":"%char :: id_string n ++ b) with ((":"%char :: id_string n) ++ b).
  rewrite app_assoc. apply Forall_app. split; [|done]. eapply Forall_impl; [exact Hc|]. unfold node_char. cbn. intros c Hch. lia.
Qed.

Lemma edges_plain g i src snk es : out_edges_for_index g i src snk = Ok es → plain es.
Proof.
  unfold out_edges_for_index. intros H. apply bind_Ok in H as (l & _ & [= <-]). induction l as [|e l IH]; [constructor|].
  cbn [map concat]. apply Forall_app. split; [|done]. constructor; [done|apply print_d_c_string].
Qed.

Lemma end_line_plain : plain end_line.
Proof. unfold plain, end_line. repeat (constructor; [done|]). constructor. Qed.

(** A printed address is a C string. *)
Lemma dag_string_plain g txt : (∀ n, n ∈ nodes_ g → Forall is_byte (n_id n)) → dag_string g = Ok txt → plain txt.
Proof.
  intros Hn H. unfold dag_string in H. apply bind_Ok in H as (st & _ & H). case_decide; [|injection H as <-; constructor].
  apply bind_Ok in H as (es & Hes%edges_plain & H). apply bind_Ok in H as (b & Hb & H). apply bind_Ok in H as (n & Hnode & [= <-]).
  assert (plain b) as Hpb.
  { eapply (foldM_inv plain); [|..|exact Hb].
    - intros acc i acc' _ Hacc Hstep. unfold dag_string_line in Hstep. case_decide; [by injection Hstep as <-|].
      apply bind_Ok in Hstep as (m & Hm%vget_Ok & Hstep). apply bind_Ok in Hstep as (es' & Hes'%edges_plain & [= <-]).
      apply Forall_app. split; [done|]. apply node_plain; [eapply Hn, list_elem_of_lookup_2; exact Hm|].
      apply Forall_app. split; [done|apply end_line_plain].
    - apply Forall_app. split; [repeat (constructor; [done|]); constructor|]. apply Forall_app. split; [done|apply end_line_plain]. }
  apply Forall_app. split; [done|]. rewrite <-(app_nil_r (id_string n)). apply node_plain; [|constructor].
  apply vgetz_Ok in Hnode as [_ Hnode]. eapply Hn, list_elem_of_lookup_2. exact Hnode.
Qed.

(** ** Messages *)

(** The bytes of a message that fits. *)
Lemma make_ok np b : (ns_type np = NS_TYPE_REGISTER ∧ ∃ n d, ns_name np = Some n ∧ ns_dag np = Some d ∧ b = c_string n ++ c_string d) ∨
  (ns_type np = NS_TYPE_QUERY ∧ ∃ n, ns_name np = Some n ∧ b = c_string n) ∨
  (ns_type np = NS_TYPE_RESPONSE_QUERY ∧ ∃ d, ns_dag np = Some d ∧ b = c_string d) ∨
  (ns_type np ∉ [NS_TYPE_REGISTER; NS_TYPE_QUERY; NS_TYPE_RESPONSE_QUERY] ∧ b = []) →
  (2 + length b ≤ NS_MAX_PACKET_SIZE)%nat →
  make_ns_packet np NS_MAX_PACKET_SIZE = Ok (Z.of_nat (2 + length b), received ([u8 (ns_type np); u8 (ns_flags np)] ++ b)).
Proof.
  intros Hb Hl. unfold make_ns_packet. rewrite decide_False by done.
  match goal with |- context [option_map c_string (ns_name np)] =>
    match goal with |- context [default [] ?e] => assert (e = Some b) as -> end end.
  { destruct Hb as [(-> & n & d & -> & -> & ->)|[(-> & n & -> & ->)|[(-> & d & -> & ->)|[Hn ->]]]]; [done..|].
    apply not_elem_of_cons in Hn as [? Hn]. apply not_elem_of_cons in Hn as [? Hn]. apply not_elem_of_cons in Hn as [? _].
    by rewrite !decide_False by done. }
  cbn [default from_option id]. rewrite decide_True by (cbn [length app]; lia). done.
Qed.

(** What goes over the wire. *)
Lemma wire_bytes t f b : take (Z.to_nat (Z.of_nat (2 + length b))) (received ([t; f] ++ b)) = [t; f] ++ b.
Proof. unfold received. rewrite Nat2Z.id. by rewrite take_app_length' by (rewrite length_app; done). Qed.

(** Requests as they are sent. *)
Definition register_request (flags : Z) (name dag : str) : list Z := [NS_TYPE_REGISTER; flags] ++ c_string name ++ c_string dag.
Definition query_request (name : str) : list Z := [NS_TYPE_QUERY; 0] ++ c_string name.

(** A received message is its bytes and zeros. *)
Lemma received_app b : (length b ≤ NS_MAX_PACKET_SIZE)%nat → length (received b) = NS_MAX_PACKET_SIZE.
Proof. intros H. unfold received. rewrite length_app, length_replicate. lia. Qed.

Lemma received_cons x y b : received (x :: y :: b) = x :: y :: (b ++ replicate (NS_MAX_PACKET_SIZE - (2 + length b)) 0).
Proof. done. Qed.

(** ** The server *)

Section server.
Context (inet_addr : str → Z).

(** The name that a request registers. *)
Definition registers (b : list Z) : option str :=
  match get_ns_packet (received b) (Z.of_nat (length b)) with
  | Ok v => if decide (nv_type v = NS_TYPE_REGISTER) then
              match text_of_view (received b) (nv_name v) with Ok n => Some n | Ub _ => None end else None
  | Ub _ => None
  end.

(** A move changes the record of the host, or nothing. *)
Lemma migrate_cases name dag t t' : migrate inet_addr name dag t = Ok t' → t' = <[name := dag]> t ∨ t' = t.
Proof.
  unfold migrate. destruct (t !! name) as [old|]; [|intros [= <-]; by left]. intros H.
  repeat match type of H with
  | (_ ≫= _) = Ok _ => apply bind_Ok in H as (? & _ & H)
  | (match ?x with _ => _ end) = _ => destruct x
  | Ok _ = Ok _ => injection H as <-
  end; auto.
Qed.

(** A request changes no record but that of the name it registers. *)
Lemma serve_others t b t' a k : ns_serve inet_addr t b = Ok (t', a) → registers b ≠ Some k → t' !! k = t !! k.
Proof.
  unfold ns_serve, registers. intros H Hk. apply bind_Ok in H as (v & Hv & H). rewrite Hv in Hk.
  apply bind_Ok in H as ([[t1 rt] d] & Hr & H). apply bind_Ok in H as (p & _ & [= <- _]).
  case_decide as Ht; [|case_decide; [apply bind_Ok in Hr as (n & _ & Hr); destruct (t !! n)|]; by injection Hr as <- _ _].
  apply bind_Ok in Hr as (n & Hn & Hr). rewrite Hn in Hk. apply bind_Ok in Hr as (dg & _ & Hr). apply bind_Ok in Hr as (t2 & Hm & [= <- _ _]).
  assert (n ≠ k) as Hne by congruence. case_decide.
  - apply migrate_cases in Hm as [-> | ->]; [by rewrite lookup_insert_ne|done].
  - injection Hm as <-. by rewrite lookup_insert_ne.
Qed.

(** Requests, one after the other. *)
Definition serves (t : name_table) (bs : list (list Z)) : res name_table := foldM (λ t b, r ← ns_serve inet_addr t b; Ok r.1) t bs.

Lemma serves_others bs k : ∀ t t', serves t bs = Ok t' → Forall (λ b, registers b ≠ Some k) bs → t' !! k = t !! k.
Proof.
  induction bs as [|b bs IH]; intros t t' H Hbs; [by injection H as ->|]. apply Forall_cons in Hbs as [Hb Hbs].
  cbn in H. apply bind_Ok in H as (t1 & H1 & H). apply bind_Ok in H1 as ([t2 a] & H1 & [= <-]).
  rewrite (IH t2 t' H Hbs). by eapply serve_others.
Qed.

Lemma get_register flags name dag : plain name → plain dag → is_byte flags → (length name + length dag + 4 ≤ NS_MAX_PACKET_SIZE)%nat →
  let b := register_request flags name dag in
  get_ns_packet (received b) (Z.of_nat (length b)) = Ok (mkView NS_TYPE_REGISTER (i8 flags) (Some 2%nat) (Some (2 + length name + 1)%nat)) ∧
  text_at (received b) 2 = Ok name ∧ text_at (received b) (2 + length name + 1) = Ok dag.
Proof.
  intros Hn Hd Hf Hl b. unfold b, register_request. rewrite !c_string_plain by done. cbn [app]. rewrite received_cons.
  set (z := replicate _ 0). unfold get_ns_packet. rewrite decide_False by (cbn [length]; lia). cbn [vget lookup list_lookup mbind res_bind].
  change (drop 2 (?x :: ?y :: ?r)) with r.
  assert (((bytes_of name ++ [0]) ++ bytes_of dag ++ [0]) ++ z = bytes_of name ++ 0 :: (bytes_of dag ++ 0 :: z)) as Heq
    by (by rewrite <-!app_assoc).
  split_and!.
  - change (i8 NS_TYPE_REGISTER) with 1. rewrite decide_False by done. rewrite decide_True by done.
    rewrite Heq, string_at_ok by (by apply bytes_plain). cbn [mbind res_bind]. by rewrite length_bytes.
  - unfold text_at. change (drop 2 (?x :: ?y :: ?r)) with r. rewrite Heq, string_at_ok by (by apply bytes_plain). cbn. by rewrite chars_bytes.
  - unfold text_at. change (drop (2 + length name + 1) (?x :: ?y :: ?r)) with (drop (length name + 1) r). rewrite Heq.
    assert (drop (length name + 1) (bytes_of name ++ 0 :: bytes_of dag ++ 0 :: z) = bytes_of dag ++ 0 :: z) as ->.
    { change (0 :: bytes_of dag ++ 0 :: z) with ([0] ++ bytes_of dag ++ 0 :: z). rewrite app_assoc. apply drop_app_length'.
      rewrite length_app, length_bytes. done. }
    rewrite string_at_ok by (by apply bytes_plain). cbn. by rewrite chars_bytes.
Qed.
(** A message whose one string starts behind the head. *)
Lemma text_head x y s b : plain s → text_at (received (x :: y :: c_string s ++ b)) 2 = Ok s.
Proof.
  intros Hs. rewrite c_string_plain, received_cons by done. unfold text_at. change (drop 2 (?x :: ?y :: ?r)) with r.
  rewrite <-!app_assoc. cbn [app]. rewrite string_at_ok by (by apply bytes_plain). cbn. by rewrite chars_bytes.
Qed.

(** The answers. *)
Definition plain_answer (type : Z) : list Z := [type; 0].
Definition dag_answer (dag : str) : list Z := [NS_TYPE_RESPONSE_QUERY; 0] ++ c_string dag.

Lemma answer_ok type : type ∉ [NS_TYPE_REGISTER; NS_TYPE_QUERY; NS_TYPE_RESPONSE_QUERY] → is_byte type →
  (p ← make_ns_packet (mkNs type 0 None None) NS_MAX_PACKET_SIZE; Ok (take (Z.to_nat p.1) p.2)) = Ok (plain_answer type).
Proof.
  intros Ht Hb. rewrite (make_ok _ []); [|by auto 6|unfold NS_MAX_PACKET_SIZE; cbn [length]; lia]. cbn [mbind res_bind fst snd ns_type ns_flags]. rewrite wire_bytes.
  unfold u8. rewrite wrapU_small by (unfold is_byte in Hb; lia). done.
Qed.

Lemma dag_answer_ok dag : plain dag → (length dag + 3 ≤ NS_MAX_PACKET_SIZE)%nat →
  (p ← make_ns_packet (mkNs NS_TYPE_RESPONSE_QUERY 0 None (Some dag)) NS_MAX_PACKET_SIZE; Ok (take (Z.to_nat p.1) p.2)) = Ok (dag_answer dag).
Proof.
  intros Hp Hl. rewrite (make_ok _ (c_string dag)); [|right; right; left; by eauto|].
  - cbn [mbind res_bind fst snd]. by rewrite wire_bytes.
  - rewrite c_string_plain, length_app, length_bytes by done. cbn [length]. lia.
Qed.

(** The server at a registration and at a query. *)
Lemma serve_register t name dag : plain name → plain dag → (length name + length dag + 4 ≤ NS_MAX_PACKET_SIZE)%nat →
  ns_serve inet_addr t (register_request 0 name dag) = Ok (<[name := dag]> t, plain_answer NS_TYPE_RESPONSE_REGISTER).
Proof.
  intros Hn Hd Hl. destruct (get_register 0 name dag Hn Hd ltac:(unfold is_byte; lia) Hl) as (Hv & H1 & H2).
  unfold ns_serve. rewrite Hv. cbn [mbind res_bind nv_type nv_name nv_dag nv_flags text_of_view]. rewrite decide_True by done.
  rewrite H1. cbn [mbind res_bind]. rewrite H2. cbn [mbind res_bind]. rewrite decide_False by (by intros H; apply H). cbn [mbind res_bind].
  assert (NS_TYPE_RESPONSE_REGISTER ∉ [NS_TYPE_REGISTER; NS_TYPE_QUERY; NS_TYPE_RESPONSE_QUERY]) as Hnot
    by (repeat (apply not_elem_of_cons; split; [done|]); apply not_elem_of_nil).
  pose proof (answer_ok NS_TYPE_RESPONSE_REGISTER Hnot ltac:(unfold is_byte, NS_TYPE_RESPONSE_REGISTER; lia)) as Ha.
  destruct (make_ns_packet _ _) as [p|]; cbn [mbind res_bind] in *; [|by discriminate Ha].
  f_equal. f_equal. by injection Ha.
Qed.

Lemma serve_query t name dag : plain name → plain dag → (length name + 3 ≤ NS_MAX_PACKET_SIZE)%nat → (length dag + 3 ≤ NS_MAX_PACKET_SIZE)%nat →
  t !! name = Some dag → ns_serve inet_addr t (query_request name) = Ok (t, dag_answer dag).
Proof.
  intros Hn Hd Hl1 Hl2 Ht. unfold ns_serve, query_request. set (b := [NS_TYPE_QUERY; 0] ++ c_string name).
  assert (get_ns_packet (received b) (Z.of_nat (length b)) = Ok (mkView NS_TYPE_QUERY 0 (Some 2%nat) None)) as ->.
  { unfold get_ns_packet, b. rewrite decide_False by (cbn [length app]; lia). done. }
  cbn [mbind res_bind nv_type nv_name text_of_view]. rewrite decide_False by done. rewrite decide_True by done.
  assert (text_at (received b) 2 = Ok name) as ->.
  { unfold b. rewrite <-(app_nil_r (c_string name)). by apply text_head. }
  cbn [mbind res_bind]. rewrite Ht. pose proof (dag_answer_ok dag Hd Hl2) as Ha.
  destruct (make_ns_packet _ _) as [p|]; cbn [mbind res_bind] in *; [|by discriminate Ha]. f_equal. f_equal. by injection Ha.
Qed.

(** The answer as the caller reads it. *)
Lemma read_answer dag : plain dag → (length dag + 3 ≤ NS_MAX_PACKET_SIZE)%nat →
  ∃ v, get_ns_packet (received (dag_answer dag)) (Z.of_nat (length (dag_answer dag))) = Ok v ∧ nv_type v = NS_TYPE_RESPONSE_QUERY ∧
    text_of_view (received (dag_answer dag)) (nv_dag v) = Ok dag.
Proof.
  intros Hd Hl. eexists. split; [|split].
  - unfold get_ns_packet. rewrite decide_False by (unfold dag_answer; cbn [length app]; lia). done.
  - done.
  - cbn [nv_dag text_of_view]. unfold dag_answer. rewrite <-(app_nil_r (c_string dag)). by apply text_head.
Qed.
(** ** The server answers *)

(** The addresses in the table fit in an answer. *)
Definition table_ok (t : name_table) : Prop := ∀ k d, t !! k = Some d → plain d ∧ (length d + 4 ≤ NS_MAX_PACKET_SIZE)%nat.

(** The strings of the request end in the buffer. *)
Definition ended (b : list Z) : Prop :=
  (head b = Some NS_TYPE_QUERY → 0 ∈ drop 2 (received b)) ∧
  (head b = Some NS_TYPE_REGISTER → ∃ n r, drop 2 (received b) = n ++ 0 :: r ∧ 0 ∉ n ∧ 0 ∈ r).

(** The request registers a host that moves. *)
Definition moves (b : list Z) : Prop := ∃ f r, b = NS_TYPE_REGISTER :: f :: r ∧ Z.land (i8 f) NS_FLAGS_MIGRATE ≠ 0.

Lemma i8_byte x c : is_byte x → 0 ≤ c < 128 → i8 x = c ↔ x = c.
Proof.
  unfold is_byte, i8, wrapS. intros Hx Hc. change (2 ^ (8 - 1)) with 128. change (2 ^ 8) with 256. pose proof (Z.mod_pos_bound (x + 128) 256 ltac:(lia)).
  destruct (decide (x < 128)).
  - rewrite Z.mod_small by lia. lia.
  - assert ((x + 128) mod 256 = x - 128) as ->; [|lia]. symmetry. apply (Z.mod_unique _ _ 1); lia.
Qed.

Lemma chars_plain a : 0 ∉ a → Forall is_byte a → plain (chars a) ∧ length (chars a) = length a.
Proof.
  intros H0 Hb. split; [|apply length_map]. unfold plain, chars. apply Forall_fmap, Forall_forall. intros z Hz. cbn.
  eapply Forall_forall in Hb; [|done]. rewrite code_chr by (unfold is_byte in Hb; lia). by intros ->.
Qed.

Lemma error_answer : (p ← make_ns_packet (mkNs NS_TYPE_RESPONSE_ERROR 0 None None) NS_MAX_PACKET_SIZE; Ok (take (Z.to_nat p.1) p.2)) = Ok [5; 0] ∧
  (p ← make_ns_packet (mkNs NS_TYPE_RESPONSE_REGISTER 0 None None) NS_MAX_PACKET_SIZE; Ok (take (Z.to_nat p.1) p.2)) = Ok [3; 0].
Proof.
  split; (apply answer_ok; [|unfold is_byte, NS_TYPE_RESPONSE_ERROR, NS_TYPE_RESPONSE_REGISTER; lia]);
    repeat (apply not_elem_of_cons; split; [done|]); apply not_elem_of_nil.
Qed.

(** The end of a round, from what was found. *)
Lemma serve_end (t : name_table) rtype dag a :
  (p ← make_ns_packet (mkNs rtype 0 None dag) NS_MAX_PACKET_SIZE; Ok (take (Z.to_nat p.1) p.2)) = Ok a →
  (p ← make_ns_packet (mkNs rtype 0 None dag) NS_MAX_PACKET_SIZE; Ok (t, take (Z.to_nat p.1) p.2)) = Ok (t, a).
Proof. destruct (make_ns_packet _ _) as [p|]; cbn; [|done]. congruence. Qed.

Lemma serve_query_cases t y r : let b := NS_TYPE_QUERY :: y :: r in table_ok t →
  (0 ∈ drop 2 (received b) → ∃ a, ns_serve inet_addr t b = Ok (t, a)) ∧ (0 ∉ drop 2 (received b) → ns_serve inet_addr t b = Ub OutOfBounds).
Proof.
  intros b Ht. unfold ns_serve. assert (get_ns_packet (received b) (Z.of_nat (length b)) = Ok (mkView NS_TYPE_QUERY (i8 y) (Some 2%nat) None)) as ->.
  { unfold get_ns_packet, b. rewrite decide_False by (cbn [length]; lia). done. }
  cbn [mbind res_bind nv_type nv_name text_of_view]. rewrite decide_False by done. rewrite decide_True by done. unfold text_at.
  destruct (string_at_cases (drop 2 (received b))) as [(n & rest & Heq & Hn & ->)|[Hn ->]]; (split; intros H0).
  - cbn [mbind res_bind]. destruct (t !! chars n) as [d|] eqn:Hd.
    + destruct (Ht _ _ Hd) as [Hp Hl]. eexists. apply serve_end, dag_answer_ok; [done|lia].
    + eexists. apply serve_end, error_answer.
  - exfalso. apply H0. rewrite Heq. apply elem_of_app. right. apply list_elem_of_here.
  - done.
  - done.
Qed.

Lemma serve_register_cases t y r : let b := NS_TYPE_REGISTER :: y :: r in table_ok t → Forall is_byte b → (length b ≤ NS_MAX_PACKET_SIZE)%nat →
  Z.land (i8 y) NS_FLAGS_MIGRATE = 0 →
  ((∃ n r, drop 2 (received b) = n ++ 0 :: r ∧ 0 ∉ n ∧ 0 ∈ r) → ∃ t' a, ns_serve inet_addr t b = Ok (t', a) ∧ table_ok t') ∧
  (¬ (∃ n r, drop 2 (received b) = n ++ 0 :: r ∧ 0 ∉ n ∧ 0 ∈ r) → ns_serve inet_addr t b = Ub OutOfBounds).
Proof.
  intros b Ht Hb Hl Hf. assert (length (drop 2 (received b)) = 1022%nat) as Hlr by (rewrite length_drop, received_app by done; done).
  assert (Forall is_byte (drop 2 (received b))) as Hbr.
  { apply Forall_drop, Forall_app. split; [done|]. apply Forall_replicate. unfold is_byte. lia. }
  unfold ns_serve, get_ns_packet. rewrite decide_False by (unfold b; cbn [length]; lia).
  assert (vget (received b) 0 = Ok NS_TYPE_REGISTER) as -> by done. assert (vget (received b) 1 = Ok y) as -> by done. cbn [mbind res_bind].
  change (i8 NS_TYPE_REGISTER) with 1. rewrite (decide_False (P := 1 = NS_TYPE_QUERY)) by done. rewrite (decide_True (P := 1 = NS_TYPE_REGISTER)) by done.
  destruct (string_at_cases (drop 2 (received b))) as [(n & rest & Heq & Hn & Hs)|[Hn Hs]]; rewrite Hs; cbn [mbind res_bind].
  2: { split; [|done]. intros (n & r' & Heq & _). exfalso. apply Hn. rewrite Heq. apply elem_of_app. right. apply list_elem_of_here. }
  cbn [nv_type nv_name nv_dag nv_flags text_of_view]. rewrite decide_True by done. unfold text_at. rewrite Hs. cbn [mbind res_bind].
  assert (drop (2 + length n + 1) (received b) = rest) as ->.
  { rewrite <-Nat.add_assoc, <-drop_drop, Heq. rewrite cons_middle, app_assoc. apply drop_app_length'. rewrite length_app. done. }
  rewrite Heq in Hbr, Hlr. apply Forall_app in Hbr as [_ Hbr]. apply Forall_cons in Hbr as [_ Hbr].
  destruct (string_at_cases rest) as [(d & rest' & -> & Hd & ->)|[Hd ->]]; cbn [mbind res_bind].
  - split; [intros _|intros Hno; exfalso; apply Hno; exists n, (d ++ 0 :: rest'); split; [done|]; split; [done|]; apply elem_of_app; right; apply list_elem_of_here].
    rewrite decide_False by (intros H; by apply H). cbn [mbind res_bind]. eexists _, _. split; [apply serve_end, error_answer|].
    apply Forall_app in Hbr as [Hbd _]. destruct (chars_plain d Hd Hbd) as [Hp Hlen]. intros k d'.
    destruct (decide (k = chars n)) as [->|Hk]; [rewrite lookup_insert_eq; intros [= <-]|rewrite lookup_insert_ne by done; apply Ht].
    split; [done|]. rewrite Hlen. rewrite !length_app in Hlr. cbn [length] in Hlr. rewrite length_app in Hlr. cbn [length] in Hlr.
    unfold NS_MAX_PACKET_SIZE. lia.
  - split; [|done]. intros (n' & r' & Heq' & Hn' & Hr'). exfalso. apply Hd.
    assert (n' = n) as ->. { pose proof (string_at_ok n' r' Hn') as H1. rewrite <-Heq', Hs in H1. by injection H1. }
    rewrite Heq in Heq'. apply app_inv_head in Heq'. injection Heq' as ->. done.
Qed.

(** Every request that is not of a host that moves, whatever its type. *)
Lemma serve_ordinary t b : table_ok t → Forall is_byte b → (length b ≤ NS_MAX_PACKET_SIZE)%nat → ¬ moves b →
  (ended b → ∃ t' a, ns_serve inet_addr t b = Ok (t', a) ∧ table_ok t') ∧ (¬ ended b → ns_serve inet_addr t b = Ub OutOfBounds).
Proof.
  intros Ht Hb Hl Hmv. destruct b as [|x [|y r]].
  - split; [intros _|intros []; by split]. eexists _, _. split; [|done]. apply serve_end, error_answer.
  - split; [intros _; eexists _, _; split; [|done]; apply serve_end, error_answer|]. intros []. unfold ended.
    assert (drop 2 (received [x]) = 0 :: 0 :: replicate 1020 0) as -> by (vm_compute; reflexivity).
    split; intros _; [apply list_elem_of_here|]. exists [], (0 :: replicate 1020 0). split; [done|]. split; [apply not_elem_of_nil|apply list_elem_of_here].
  - apply Forall_cons in Hb as Hb2. destruct Hb2 as [Hx _]. destruct (decide (x = NS_TYPE_QUERY)) as [->|Hq].
    { destruct (serve_query_cases t y r Ht) as [H1 H2]. split.
      - intros [He _]. destruct (H1 (He eq_refl)) as [a Ha]. by exists t, a.
      - intros Hne. apply H2. intros H0. apply Hne. split; [done|]. by intros [= ?]. }
    destruct (decide (x = NS_TYPE_REGISTER)) as [->|Hr].
    { destruct (serve_register_cases t y r Ht Hb Hl) as [H1 H2]; [destruct (decide (Z.land (i8 y) NS_FLAGS_MIGRATE = 0)); [done|]; exfalso; apply Hmv; by exists y, r|].
      split.
      - intros [_ He]. by apply H1, He.
      - intros Hne. apply H2. intros H0. apply Hne. split; [by intros [= ?]|done]. }
    split; [intros _|intros []; split; intros [= ?]; done]. exists t, [5; 0]. split; [|done]. unfold ns_serve, get_ns_packet.
    rewrite decide_False by (cbn [length]; lia). assert (vget (received (x :: y :: r)) 0 = Ok x) as -> by done.
    assert (vget (received (x :: y :: r)) 1 = Ok y) as -> by done. cbn [mbind res_bind].
    assert (i8 x ≠ NS_TYPE_QUERY) by (rewrite i8_byte; [done|done|unfold NS_TYPE_QUERY; lia]).
    assert (i8 x ≠ NS_TYPE_REGISTER) by (rewrite i8_byte; [done|done|unfold NS_TYPE_REGISTER; lia]).
    rewrite !decide_False by done. destruct (decide (i8 x = NS_TYPE_RESPONSE_QUERY)); cbn [mbind res_bind nv_type];
      rewrite !decide_False by done; cbn [mbind res_bind]; apply serve_end, error_answer.
Qed.

(** C40: the name server answers every request whose strings end in its buffer,
    and keeps its table such that every address fits in an answer; a request whose
    strings do not end makes it read beyond the buffer.  (Requests of hosts that
    move parse addresses as well, and are not included.) *)
Theorem server_answers t b : table_ok t → Forall is_byte b → (length b ≤ NS_MAX_PACKET_SIZE)%nat → ¬ moves b →
  (ended b → ∃ t' a, ns_serve inet_addr t b = Ok (t', a) ∧ table_ok t') ∧ (¬ ended b → ns_serve inet_addr t b = Ub OutOfBounds).
Proof. apply serve_ordinary. Qed.

(** ** Names are found *)

(** A request that is read within its buffer, does not register [name], and is not
    that of a host that moves. *)
Record passes (name : str) (b : list Z) : Prop := {
  pa_bytes : Forall is_byte b;
  pa_len : (length b ≤ NS_MAX_PACKET_SIZE)%nat;
  pa_ended : ended b;
  pa_stays : ¬ moves b;
  pa_other : registers b ≠ Some name }.

Lemma serves_run name bs : Forall (passes name) bs → ∀ t, table_ok t → ∃ t', serves t bs = Ok t'.
Proof.
  induction 1 as [|b bs [Hb Hl He Hm _] _ IH]; intros t Ht; [by exists t|].
  destruct (serve_ordinary t b Ht Hb Hl Hm) as [Hs _]. destruct (Hs He) as (t1 & a & Hrun & Ht1).
  destruct (IH t1 Ht1) as [t' Ht']. exists t'. unfold serves. cbn [foldM]. by rewrite Hrun.
Qed.

(** C23: an address that was registered for a name is found: the server handles any
    requests that come afterwards, queries and registrations of other names, and
    then a query for the name is answered with a text that is read as the graph
    that was registered.  The graph starts at the dummy source, and its text and
    the name fit in a request.  Requests of hosts that move (migrate requests) are
    not among those that come in between; see [move_changes_one_record]. *)
Theorem names_resolve t name g s d : table_ok t → plain name → address g s d → from_dummy g s →
  (∀ n, n ∈ nodes_ g → known_type (n_type n) ∧ valid_id (n_id n) ∧ (n_type n = XID_TYPE_IP → inet_addr (id_string n) = INADDR_NONE)) →
  (∀ txt, dag_string g = Ok txt → (length name + length txt + 4 ≤ NS_MAX_PACKET_SIZE)%nat) →
  ∃ txt t1, dag_string g = Ok txt ∧ ns_serve inet_addr t (register_request 0 name txt) = Ok (t1, plain_answer NS_TYPE_RESPONSE_REGISTER) ∧
  ∀ bs, Forall (passes name) bs →
  ∃ t2 a v txt' h k w, serves t1 bs = Ok t2 ∧ ns_serve inet_addr t2 (query_request name) = Ok (t2, a) ∧
    get_ns_packet (received a) (Z.of_nat (length a)) = Ok v ∧ nv_type v = NS_TYPE_RESPONSE_QUERY ∧ text_of_view (received a) (nv_dag v) = Ok txt' ∧
    Graph_of_string inet_addr 0 txt' = Ok (h, k) ∧ dag_view g = Ok w ∧ dag_view h = Ok w.
Proof.
  intros Ht Hn Hg Hdum Hnodes Hlen. destruct (dag_text_lossless inet_addr g s d 0 Hg Hnodes) as (txt & h & w & Htxt & Hh & _ & Hw & Hw' & Hsame).
  rewrite (Hsame Hdum) in Hw'. pose proof (Hlen txt Htxt) as Hl. assert (plain txt) as Hp.
  { eapply dag_string_plain; [|done]. intros n Hin. by destruct (Hnodes n Hin) as (_ & [_ ?] & _). }
  exists txt, (<[name := txt]> t). split; [done|]. split; [by apply serve_register|]. intros bs Hbs.
  assert (table_ok (<[name := txt]> t)) as Ht1.
  { intros k x. destruct (decide (k = name)) as [->|Hk]; [rewrite lookup_insert_eq; intros [= <-]; split; [done|lia]|].
    rewrite lookup_insert_ne by done. apply Ht. }
  destruct (serves_run name bs Hbs _ Ht1) as [t2 Hrun].
  assert (t2 !! name = Some txt) as Ht2.
  { rewrite (serves_others bs name _ _ Hrun), lookup_insert_eq; [done|]. eapply Forall_impl; [exact Hbs|]. by intros ? []. }
  destruct (read_answer txt Hp ltac:(lia)) as (v & Hv & Hvt & Hvd).
  exists t2, (dag_answer txt), v, txt, h, (0 + (order g - 1))%nat, w. split; [done|]. split; [apply serve_query; [done|done|lia|lia|done]|]. done.
Qed.

(** when a host registers again because it has moved, the records of other
    names are never changed (the graph that is updated for each of them is a copy
    that is dropped), also those whose addresses lead to the host through
    the network it has left. *)
Theorem move_changes_one_record t t' name dag : migrate inet_addr name dag t = Ok t' →
  (t' = <[name := dag]> t ∨ t' = t) ∧ ∀ k, k ≠ name → t' !! k = t !! k.
Proof.
  intros H. pose proof (migrate_cases _ _ _ _ H) as Hc. split; [done|]. intros k Hk. destruct Hc as [-> | ->]; [by rewrite lookup_insert_ne|done].
Qed.
End server.

(** ** Witnesses *)

Lemma server_answers_witness : ∃ t a, ns_serve (λ _, 0) ∅ (register_request 0 (lit "www") (lit "DAG")) = Ok (t, a) ∧ table_ok t.
Proof.
  destruct (server_answers (λ _, 0) ∅ (register_request 0 (lit "www") (lit "DAG"))) as [Hs _].
  - intros k d Hk. by rewrite lookup_empty in Hk.
  - by apply all_bytes.
  - apply Nat.leb_le. reflexivity.
  - intros (f & r & Heq & Hne). injection Heq as <- _. by apply Hne.
  - apply Hs. split; [done|]. intros _. exists (bytes_of (lit "www")), (bytes_of (lit "DAG") ++ 0 :: replicate 1014 0).
    split; [vm_compute; reflexivity|]. split; [apply bytes_plain; by repeat constructor|]. apply elem_of_app. right. apply list_elem_of_here.
Defined.

Lemma demo_text_fits txt : dag_string demo_graph = Ok txt → (length (lit "www") + length txt + 4 ≤ NS_MAX_PACKET_SIZE)%nat.
Proof.
  assert (match dag_string demo_graph with Ok txt => (length (lit "www") + length txt + 4 <=? NS_MAX_PACKET_SIZE)%nat | Ub _ => false end = true) as H
    by (vm_compute; reflexivity).
  intros Ht. rewrite Ht in H. by apply Nat.leb_le.
Qed.

(** Another name is registered in between. *)
Definition demo_between : list Z := register_request 0 (lit "ftp") (lit "DAG").

Lemma demo_between_passes : passes (lit "www") demo_between.
Proof.
  split.
  - by apply all_bytes.
  - apply Nat.leb_le. reflexivity.
  - split; [done|]. intros _. exists (bytes_of (lit "ftp")), (bytes_of (lit "DAG") ++ 0 :: replicate 1014 0).
    split; [vm_compute; reflexivity|]. split; [apply bytes_plain; by repeat constructor|]. apply elem_of_app. right. apply list_elem_of_here.
  - intros (f & r & Heq & Hne). injection Heq as <- _. by apply Hne.
  - assert (registers demo_between = Some (lit "ftp")) as -> by (vm_compute; reflexivity). done.
Qed.

Lemma names_resolve_witness : ∃ txt t1 t2 a, dag_string demo_graph = Ok txt ∧
  ns_serve (λ _, INADDR_NONE) ∅ (register_request 0 (lit "www") txt) = Ok (t1, plain_answer NS_TYPE_RESPONSE_REGISTER) ∧
  serves (λ _, INADDR_NONE) t1 [demo_between] = Ok t2 ∧ ns_serve (λ _, INADDR_NONE) t2 (query_request (lit "www")) = Ok (t2, a).
Proof.
  destruct (names_resolve (λ _, INADDR_NONE) ∅ (lit "www") demo_graph 0 1) as (txt & t1 & H1 & H2 & H3).
  - intros k d Hk. by rewrite lookup_empty in Hk.
  - by repeat constructor.
  - apply demo_address.
  - done.
  - intros n Hn. unfold demo_graph in Hn. cbn [nodes_] in Hn. rewrite !elem_of_cons, elem_of_nil in Hn.
    destruct Hn as [->|[->|[->|[->|[]]]]];
      (split_and!; [apply (bool_decide_unpack _); vm_compute; exact I|split; [done|]|done]);
      apply (bool_decide_unpack _); vm_compute; exact I.
  - apply demo_text_fits.
  - destruct (H3 [demo_between]) as (t2 & a & _ & _ & _ & _ & _ & H4 & H5 & _); [by constructor; [apply demo_between_passes|]|].
    by exists txt, t1, t2, a.
Defined.

(** A host, and a service on it. *)
Definition demo_host_id : str := lit "HID:5555555555555555555555555555555555555555".
Definition demo_dag (ad : str) (rest : str) : str := lit "RE AD:" ++ ad ++ lit "00000000000000000000000000000000000000 " ++ demo_host_id ++ rest.
Definition demo_names : name_table :=
  <[lit "web" := demo_dag (lit "11") (lit " SID:7777777777777777777777777777777777777777")]> {[lit "host" := demo_dag (lit "11") []]}.

Lemma demo_move : migrate (λ _, INADDR_NONE) (lit "host") (demo_dag (lit "22") []) demo_names = Ok (<[lit "host" := demo_dag (lit "22") []]> demo_names).
Proof. vm_compute. reflexivity. Qed.

(** The host moves from AD:11.. to AD:22..; the service keeps its old address. *)
Lemma move_changes_one_record_witness : ∃ t, migrate (λ _, INADDR_NONE) (lit "host") (demo_dag (lit "22") []) demo_names = Ok t ∧
  t !! lit "host" = Some (demo_dag (lit "22") []) ∧
  t !! lit "web" = Some (demo_dag (lit "11") (lit " SID:7777777777777777777777777777777777777777")).
Proof.
  eexists. split; [exact demo_move|]. destruct (move_changes_one_record _ _ _ _ _ demo_move) as [_ Hk]. split.
  - apply lookup_insert_eq.
  - rewrite Hk by discriminate. apply lookup_insert_eq.
Defined.
