(* ===== verification/ChunkPublish.v ===== *)
(** * ChunkPublish: data that is published in chunks

    [XputBuffer] and [XputFile] of the socket library cut data into pieces, put
    every piece, and return the names the transport element gives them. *)

From Stdlib Require Import ZArith Lia Ascii String.
From stdpp Require Import base gmap list.
From S2P Require Import Prelude Text DagNode DagAddr XidText RouteTable Sha1 Sha1Spec XTransport ContentHash SocketLib SocketLibSpec SocketCalls.
Local Open Scope Z_scope.

(** ** A file is put like a buffer *)

Lemma chunk_size_range n : 0 ≤ n → 0 < chunk_size n ≤ XIA_MAXBUF.
Proof. unfold chunk_size, DEFAULT_CHUNK_SIZE, XIA_MAXBUF, MAXBUFLEN. intros. repeat case_decide; lia. Qed.

Lemma num_chunks_ceil len sz : 0 ≤ len < 2 ^ 32 → 0 < sz → num_chunks len sz = (len + sz - 1) / sz.
Proof.
  intros Hn Hsz. unfold num_chunks. pose proof (Z.div_mod len sz ltac:(lia)) as Hd. pose proof (Z.mod_pos_bound len sz Hsz) as Hm.
  assert (0 ≤ len / sz) by (apply Z.div_pos; lia). assert (len / sz ≤ len) by (apply Z.div_le_upper_bound; nia).
  case_decide as Hz; [rewrite Hz in Hd|]; unfold u32.
  - rewrite wrapU_small by lia. rewrite Z.add_0_r. apply (Z.div_unique _ _ _ (sz - 1)); lia.
  - assert (len / sz + 1 = (len + sz - 1) / sz) as -> by (apply (Z.div_unique _ _ _ (len mod sz - 1)); lia).
    apply wrapU_small. split; [apply Z.div_pos; lia|]. apply Z.div_lt_upper_bound; nia.
Qed.

Lemma num_chunks_bounds len sz : 0 < len < 2 ^ 32 → 0 < sz → 0 < num_chunks len sz ∧ len ≤ num_chunks len sz * sz ∧ (num_chunks len sz - 1) * sz < len.
Proof.
  intros Hl Hsz. rewrite num_chunks_ceil by lia. pose proof (Z.div_mod (len + sz - 1) sz ltac:(lia)). pose proof (Z.mod_pos_bound (len + sz - 1) sz Hsz).
  split; [apply Z.div_str_pos; lia|]. nia.
Qed.

Lemma num_chunks_pos len sz : 0 < len < 2 ^ 32 → 0 < sz → 0 < num_chunks len sz ∧
  num_chunks len sz = (if decide (len ≤ sz) then 1 else num_chunks (len - sz) sz + 1).
Proof.
  intros Hlen Hsz. rewrite num_chunks_ceil by lia. split; [apply Z.div_str_pos; lia|].
  case_decide.
  - symmetry. apply (Z.div_unique _ _ _ (len - 1)); lia.
  - rewrite num_chunks_ceil by lia. rewrite <-Z.div_add by lia. f_equal. lia.
Qed.

Lemma num_chunks_0 sz : num_chunks 0 sz = 0.
Proof. unfold num_chunks. by rewrite Zdiv_0_l, Zmod_0_l. Qed.

(** A way to put a piece that looks only at its bytes. *)
Definition reads_piece (put : putter) : Prop := ∀ p n info l, 0 ≤ n ≤ Z.of_nat (length p) → put p n info l = put (take (Z.to_nat n) p) n info l.

Lemma call_bind_ext {A B} (m m' : call A) (f f' : A → call B) l : m l = m' l → (∀ a l', f a l' = f' a l') → (m ≫= f) l = (m' ≫= f') l.
Proof. intros Hm Hf. unfold mbind, call_bind. rewrite Hm. destruct (m' l) as [[[a l']|]|]; [apply Hf|done|done]. Qed.

Lemma loops_agree put sz num : reads_piece put → 0 < sz → ∀ fuel rest i infos l, (length rest < fuel)%nat → Z.of_nat (length rest) < 2 ^ 32 →
  file_loop put fuel rest sz num i infos l =
  put_loop put (Z.to_nat (num_chunks (Z.of_nat (length rest)) sz)) rest (Z.of_nat (length rest)) sz num i infos l.
Proof.
  intros Hput Hsz. induction fuel as [|fuel IH]; intros rest i infos l Hf Hl; [lia|]. cbn [file_loop].
  destruct (decide (rest = [])) as [->|Hne].
  { rewrite take_nil, num_chunks_0. cbn [length]. rewrite decide_False by lia. by rewrite bool_decide_true by lia. }
  assert (length rest ≠ 0)%nat as Hn0 by by destruct rest. destruct (num_chunks_pos (Z.of_nat (length rest)) sz ltac:(lia) Hsz) as [Hpos Hnum].
  set (count := Z.min (Z.of_nat (length rest)) sz). assert (Z.of_nat (length (take (Z.to_nat sz) rest)) = count) as -> by (rewrite length_take; lia).
  rewrite decide_True by lia. replace (Z.to_nat (num_chunks _ _)) with (S (Z.to_nat (num_chunks (Z.of_nat (length rest)) sz - 1))) by lia.
  cbn [put_loop]. fold count. apply call_bind_ext.
  - assert (take (Z.to_nat sz) rest = take (Z.to_nat count) rest) as ->; [|by rewrite <-Hput by lia].
    destruct (decide (Z.of_nat (length rest) ≤ sz)); [by rewrite !take_ge by lia|f_equal; lia].
  - intros r l'. destruct (decide (r.1 < 0)); [done|]. rewrite Hnum. clear Hnum. case_bool_decide as Heof.
    + rewrite decide_True by lia. done.
    + rewrite IH by (rewrite length_drop; lia). rewrite length_drop.
      replace (Z.of_nat (length rest - Z.to_nat sz)) with (Z.of_nat (length rest) - count) by lia. case_decide.
      * replace (Z.of_nat (length rest) - count) with 0 by lia. by rewrite num_chunks_0.
      * replace count with sz by lia. by rewrite Z.add_simpl_r.
Qed.

Lemma block_read_take p n : 0 ≤ n ≤ Z.of_nat (length p) → block_read (Some p) 0 n = block_read (Some (take (Z.to_nat n) p)) 0 n.
Proof.
  intros H. unfold block_read. rewrite !decide_True by (rewrite ?length_take; lia). by rewrite !drop_0, take_take, Nat.min_id.
Qed.

Section same.
Context (serialize : api_msg → list Z) (parse : list Z → reply) (sendto : Z → list Z → Z).

Lemma put_reads_piece ctx : reads_piece (λ p, XputChunk serialize parse sendto ctx (Some p)).
Proof.
  intros p n info l Hn. unfold XputChunk. case_decide; [done|]. destruct ctx as [c|]; [|done]. destruct info as [[room old]|]; [|done].
  case_decide; [done|]. by rewrite (block_read_take p n Hn).
Qed.

Lemma push_reads_piece ctx flags addr addrlen : reads_piece (λ p n, XpushChunkto serialize parse sendto ctx (Some p) n flags addr addrlen).
Proof.
  intros p n info l Hn. unfold XpushChunkto. apply call_bind_ext.
  - assert (0 ≤ u32 n ≤ n) as Hu. { unfold u32, wrapU. pose proof (Z.mod_pos_bound n (2 ^ 32)). pose proof (Z.mod_le n (2 ^ 32)). lia. }
    rewrite (put_reads_piece ctx p (u32 n)), (put_reads_piece ctx (take (Z.to_nat n) p) (u32 n)) by (rewrite ?length_take; lia).
    rewrite take_take. do 3 f_equal. lia.
  - intros r l'. case_decide; [done|]. destruct addr as [a|]; [|done]. repeat (case_decide; [done|]).
    apply call_bind_ext; [done|]. intros c l1. apply call_bind_ext; [done|]. intros v l2. case_decide; [done|].
    apply call_bind_ext; [done|]. intros g l3. apply call_bind_ext; [done|]. intros ddag l4. apply call_bind_ext; [|done].
    rewrite (block_read_take p), (block_read_take (take (Z.to_nat n) p)) by (rewrite ?length_take; unfold XIA_MAXBUF, MAXBUFLEN; lia).
    rewrite take_take. do 4 f_equal. lia.
Qed.

Lemma put_file_buffer put file sz l : reads_piece put → 0 ≤ sz → Z.of_nat (length file) < 2 ^ 32 →
  put_file put file sz l = put_buffer put file (Z.of_nat (length file)) sz l.
Proof.
  intros Hput Hsz Hl. unfold put_file, put_buffer. apply call_bind_ext; [|done].
  pose proof (chunk_size_range sz Hsz). apply loops_agree; [done|lia|lia|lia].
Qed.

(** putting or pushing a file does the same as putting or pushing a buffer with
    its bytes: the loop that reads until the end of the file makes the same
    pieces as the loop that counts them. *)
Theorem file_as_buffer ctx fname file sz flags addr addrlen l : 0 ≤ sz → Z.of_nat (length file) < 2 ^ 32 →
  XputFile serialize parse sendto ctx (Some fname) (Some file) sz l =
    XputBuffer serialize parse sendto ctx (Some file) (Z.of_nat (length file)) sz l ∧
  XpushFileto serialize parse sendto ctx (Some fname) (Some file) flags addr addrlen sz l =
    XpushBufferto serialize parse sendto ctx (Some file) (Z.of_nat (length file)) flags addr addrlen sz l.
Proof.
  intros Hsz Hl. destruct ctx as [c|]; [|done]. split; apply put_file_buffer; auto using put_reads_piece, push_reads_piece.
Qed.
End same.

(** ** What is published *)

(** [n] pieces of [sz] bytes, the last one shorter. *)
Fixpoint pieces (n sz : nat) (data : list Z) : list (list Z) :=
  match n with O => [] | S n => take sz data :: pieces n sz (drop sz data) end.

Lemma concat_pieces n sz : ∀ data, (length data ≤ n * sz)%nat → concat (pieces n sz data) = data.
Proof.
  induction n as [|n IH]; intros data Hl; [destruct data; [done|cbn in Hl; lia]|]. cbn [pieces concat].
  rewrite IH by (rewrite length_drop; lia). apply take_drop.
Qed.

Section publish.
Context (serialize : api_msg → list Z) (parse : list Z → reply) (sendto : Z → list Z → Z) (encode : reply → list Z) (junk : list (option Z)).
Context (c : ChunkContext).
Context (Hser : ∀ m, serialize m ≠ []) (Hsendto : ∀ b, sendto (ctx_sockfd c) b = Z.of_nat (length b)).
Context (Hparse : ∀ ctx cid ttl ts p, parse (encode (R_XPUTCHUNK ctx cid ttl ts p)) = R_XPUTCHUNK ctx cid ttl ts p) (Hjunk : length junk = 16%nat).

Abbreviation fd := (ctx_sockfd c).

(** The answer of the transport element to a chunk. *)
Definition put_reply (now : Z) (p : list Z) : reply := R_XPUTCHUNK (ctx_contextID c) (hash_text (element_hash junk) p) (ctx_ttl c) now p.

(** The message for a chunk, and what is returned of it. *)
Definition put_message (p : list Z) : api_msg := M_XPUTCHUNK (ctx_contextID c) (ctx_ttl c) (ctx_cacheSize c) (ctx_cachePolicy c) p.
Definition put_info (now : Z) (p : list Z) : ChunkInfo := mkChunkInfo (Z.of_nat (length p)) (sha1 p ≫= print_02x) (ctx_ttl c) now.

Definition waits (l : Lib) (now : Z) (ps : list (list Z)) (rest : list (option (list Z))) : Prop :=
  default [] (inbox l !! fd) = map (λ p, Some (encode (put_reply now p))) ps ++ rest.

Lemma setting_frame l f : ∃ l', setting fd f l = Ok (Some ((), l')) ∧ inbox l' = inbox l ∧ outbox l' = outbox l.
Proof using.
  unfold setting. destruct (get_state l fd) as (l1 & Hg & _). rewrite (call_bind_some _ _ _ _ _ Hg).
  injection Hg as Hl1. destruct (default None (sockets l !! fd)); eexists; (split; [done|]); by rewrite <-Hl1.
Qed.

Lemma query_ok l m d ds : default [] (inbox l !! fd) = Some d :: ds → Z.of_nat (length d) < MAXBUFLEN →
  ∃ l', query serialize sendto fd m MAXBUFLEN l = Ok (Some (Some d, l')) ∧ default [] (inbox l' !! fd) = ds ∧ outbox l' = outbox l ++ [(fd, m)].
Proof using Hser Hsendto Hjunk.
  intros Hin Hd. assert (length (serialize m) ≠ 0)%nat by (pose proof (Hser m); by destruct (serialize m)).
  unfold query, click_send, click_reply, setWrapped. cbv zeta. rewrite (decide_False (P := Z.of_nat (length (serialize m)) ≤ 0)) by lia.
  destruct (setting_frame l (λ s, with_wrapped s 1)) as (l1 & H1 & Hi1 & Ho1).
  set (l2 := mkLib (sockets l1) (errno l1) (outbox l1 ++ [(fd, m)]) (inbox l1) (one_heap l1)).
  destruct (setting_frame l2 (λ s, with_wrapped s 0)) as (l3 & H3 & Hi3 & Ho3).
  destruct (setting_frame l3 (λ s, with_wrapped s 1)) as (l4 & H4 & Hi4 & Ho4).
  set (l5 := mkLib (sockets l4) (errno l4) (outbox l4) (<[fd := ds]> (inbox l4)) (one_heap l4)).
  destruct (setting_frame l5 (λ s, with_wrapped s 0)) as (l6 & H6 & Hi6 & Ho6).
  assert (recvfrom fd (MAXBUFLEN - 1) l4 = Ok (Some (Some d, l5))) as H5.
  { unfold recvfrom, l5. rewrite Hi4, Hi3. cbn [inbox l2]. rewrite Hi1, Hin. cbn [option_map]. rewrite take_ge by lia. done. }
  exists l6. split.
  - erewrite call_bind_some.
    2: { rewrite (call_bind_some _ _ _ _ _ H1). rewrite Hsendto.
         rewrite (decide_True (P := Z.of_nat (length (serialize m)) = Z.of_nat (length (serialize m)))) by done. rewrite (call_bind_some _ _ _ _ _ (eq_refl : post _ _ _ = _)).
         fold l2. rewrite (call_bind_some _ _ _ _ _ H3). done. }
    rewrite (decide_False (P := _ = -1)) by lia. rewrite (decide_False (P := 0 < _)) by lia. rewrite (decide_True (P := 0 ≤ Z.of_nat _)) by lia.
    rewrite decide_False by lia. rewrite (call_bind_some _ _ _ _ _ H4), (call_bind_some _ _ _ _ _ H5), (call_bind_some _ _ _ _ _ H6). done.
  - rewrite Hi6, Ho6. cbn [inbox outbox l5]. rewrite lookup_insert_eq. split; [done|]. rewrite Ho4, Ho3. cbn [outbox l2]. by rewrite Ho1.
Qed.

Lemma hash_name p : Forall is_byte p → cid_copy (hash_text (element_hash junk) p) = Ok (sha1 p ≫= print_02x).
Proof using Hjunk.
  intros Hp. unfold hash_text. rewrite element_hash_sha1 by done. destruct (sha1_id p) as [Hl Hb]. unfold cid_copy.
  assert (c_chars (sha1 p ≫= print_02x) = sha1 p ≫= print_02x) as ->.
  { pose proof (id_string_hex (sha1 p) Hb) as Hh. unfold id_string_of in Hh. induction Hh as [|x s Hx _ IH]; [done|].
    cbn [c_chars]. rewrite decide_False by lia. by rewrite IH. }
  rewrite decide_True; [done|]. rewrite length_hex, Hl. done.
Qed.

(** One chunk: it is put, and its information is written if there is room. *)
Lemma put_chunk_ok l p n room old now ps rest : Forall is_byte p → 0 < n ≤ Z.of_nat (length p) → n ≤ XIA_MAXCHUNK →
  let piece := take (Z.to_nat n) p in waits l now (piece :: ps) rest → Z.of_nat (length (encode (put_reply now piece))) < MAXBUFLEN →
  if decide (SIZEOF_CHUNKINFO ≤ room) then
    ∃ l', XputChunk serialize parse sendto (Some c) (Some p) n (Some (room, old)) l = Ok (Some ((0, put_info now piece), l')) ∧
      waits l' now ps rest ∧ outbox l' = outbox l ++ [(fd, put_message piece)]
  else XputChunk serialize parse sendto (Some c) (Some p) n (Some (room, old)) l = Ub OutOfBounds.
Proof using Hser Hsendto Hparse Hjunk.
  intros Hb Hn Hmax piece Hw Hl. unfold waits in Hw. cbn [map app] in Hw.
  destruct (query_ok l (put_message piece) _ _ Hw Hl) as (l' & Hq & Hi & Ho). unfold XputChunk. rewrite (decide_False (P := XIA_MAXCHUNK < n)) by lia.
  rewrite (decide_False (P := n = 0)) by lia. unfold block_read. rewrite (decide_True (P := 0 ≤ 0 ∧ 0 ≤ n ∧ 0 + n ≤ Z.of_nat (length p))) by lia.
  rewrite drop_0. fold piece. rewrite (call_bind_some _ _ _ _ _ (eq_refl : undefined (Ok _) _ = _)). fold (put_message piece).
  rewrite (call_bind_some _ _ _ _ _ Hq). unfold put_reply. rewrite Hparse. cbv iota beta.
  assert (Forall is_byte piece) as Hbp by (by apply Forall_take).
  rewrite hash_name by done. rewrite (call_bind_some _ _ _ _ _ (eq_refl : undefined (Ok _) _ = _)).
  destruct (decide (SIZEOF_CHUNKINFO ≤ room)) as [Hroom|Hroom]; [|done]. exists l'. done.
Qed.

Lemma put_loop_ok sz num now rest : 0 < sz ≤ XIA_MAXCHUNK → SIZEOF_CHUNKINFO ≤ sz → ∀ n i data infos l,
  Forall is_byte data → Z.of_nat (length data) ≤ Z.of_nat n * sz → ((0 < n)%nat → (Z.of_nat n - 1) * sz < Z.of_nat (length data)) →
  i + Z.of_nat n ≤ num → 0 ≤ i → let ps := pieces n (Z.to_nat sz) data in waits l now ps rest →
  Forall (λ p, Z.of_nat (length (encode (put_reply now p))) < MAXBUFLEN) ps →
  ∃ l', put_loop (λ p, XputChunk serialize parse sendto (Some c) (Some p)) n data (Z.of_nat (length data)) sz num i infos l =
    Ok (Some ((i + Z.of_nat n, infos ++ map (put_info now) ps), l')) ∧ outbox l' = outbox l ++ map (λ p, (fd, put_message p)) ps.
Proof using Hser Hsendto Hparse Hjunk.
  intros Hsz Hbig. induction n as [|n IH]; intros i data infos l Hb Hle Hlt Hi H0 ps Hw Hl.
  { exists l. cbn. rewrite !app_nil_r, Z.add_0_r. done. }
  cbn [put_loop]. set (count := Z.of_nat (length data) `min` sz). specialize (Hlt ltac:(lia)).
  assert (take (Z.to_nat sz) data = take (Z.to_nat count) data) as Htake.
  { destruct (decide (Z.of_nat (length data) ≤ sz)); [by rewrite !take_ge by lia|f_equal; lia]. }
  unfold ps in *. cbn [pieces] in *. rewrite Htake in *. apply Forall_cons in Hl as [Hl1 Hl].
  pose proof (put_chunk_ok l data count (num * sz - i * SIZEOF_CHUNKINFO) ChunkInfo_zero now _ _ Hb ltac:(lia) ltac:(lia) Hw Hl1) as Hp.
  rewrite decide_True in Hp by (unfold SIZEOF_CHUNKINFO in *; nia). destruct Hp as (l1 & Hrun & Hw1 & Ho1).
  unfold info_at_index. rewrite (call_bind_some _ _ _ _ _ Hrun). rewrite decide_False by (cbn [fst]; lia). cbn [snd].
  destruct (IH (i + 1) (drop (Z.to_nat sz) data) (infos ++ [put_info now (take (Z.to_nat count) data)]) l1) as (l' & Hrec & Ho'); [..|done|done|].
  - by apply Forall_drop.
  - rewrite length_drop. nia.
  - intros Hn. rewrite length_drop. nia.
  - lia.
  - lia.
  - exists l'. rewrite length_drop in Hrec. replace (Z.of_nat (length data) - count) with (Z.of_nat (length data - Z.to_nat sz)) by lia.
    rewrite Hrec. split; [|rewrite Ho', Ho1; cbn [map]; by rewrite <-app_assoc].
    do 2 f_equal. cbn [map]. rewrite <-app_assoc. cbn [app]. do 2 f_equal. lia.
Qed.

Lemma put_loop_overrun sz num now rest : 0 < sz ≤ XIA_MAXCHUNK → sz < SIZEOF_CHUNKINFO → ∀ n i data infos l,
  Forall is_byte data → (0 < n)%nat → (Z.of_nat n - 1) * sz < Z.of_nat (length data) →
  i + Z.of_nat n = num → 0 ≤ i → let ps := pieces n (Z.to_nat sz) data in waits l now ps rest →
  Forall (λ p, Z.of_nat (length (encode (put_reply now p))) < MAXBUFLEN) ps →
  put_loop (λ p, XputChunk serialize parse sendto (Some c) (Some p)) n data (Z.of_nat (length data)) sz num i infos l = Ub OutOfBounds.
Proof using Hser Hsendto Hparse Hjunk.
  intros Hsz Hsmall. induction n as [|n IH]; intros i data infos l Hb Hn Hlt Hi H0 ps Hw Hl; [lia|].
  cbn [put_loop]. set (count := Z.of_nat (length data) `min` sz).
  assert (take (Z.to_nat sz) data = take (Z.to_nat count) data) as Htake.
  { destruct (decide (Z.of_nat (length data) ≤ sz)); [by rewrite !take_ge by lia|f_equal; lia]. }
  unfold ps in *. cbn [pieces] in *. rewrite Htake in *. apply Forall_cons in Hl as [Hl1 Hl].
  pose proof (put_chunk_ok l data count (num * sz - i * SIZEOF_CHUNKINFO) ChunkInfo_zero now _ _ Hb ltac:(nia) ltac:(lia) Hw Hl1) as Hp.
  unfold info_at_index. case_decide as Hroom; [|unfold mbind, call_bind; by rewrite Hp].
  destruct Hp as (l1 & Hrun & Hw1 & Ho1). rewrite (call_bind_some _ _ _ _ _ Hrun). rewrite decide_False by (cbn [fst]; lia).
  replace (Z.of_nat (length data) - count) with (Z.of_nat (length (drop (Z.to_nat sz) data))) by (rewrite length_drop; lia).
  apply IH; try done; [by apply Forall_drop|unfold SIZEOF_CHUNKINFO in *; nia|rewrite length_drop; unfold SIZEOF_CHUNKINFO in *; nia|lia|lia].
Qed.

(** C19: data that is published with [XputBuffer] is cut into pieces that make up
    the data; the transport element is sent every piece, and the caller gets, for
    every piece, its length and the SHA-1 of its bytes as its name.  This is so
    when chunks have at least 72 bytes; with smaller ones the information about
    the last piece is written behind the memory that was allocated for it.  In
    both cases the kernel must take every message whole, and the answer of the
    element to every piece, which repeats the piece, must be shorter in its
    encoded form than the 15600 bytes of the library's buffer: chunks close to
    the largest size, which is also 15600, get answers that are cut. *)
Theorem buffer_published data chunkSize now l rest : Forall is_byte data → 0 < Z.of_nat (length data) < 2 ^ 32 → 0 ≤ chunkSize →
  let sz := chunk_size chunkSize in
  let n := num_chunks (Z.of_nat (length data)) sz in
  let ps := pieces (Z.to_nat n) (Z.to_nat sz) data in
  waits l now ps rest → Forall (λ p, Z.of_nat (length (encode (put_reply now p))) < MAXBUFLEN) ps →
  concat ps = data ∧
  (SIZEOF_CHUNKINFO ≤ sz → ∃ l', XputBuffer serialize parse sendto (Some c) (Some data) (Z.of_nat (length data)) chunkSize l =
    Ok (Some ((n, map (put_info now) ps), l')) ∧ outbox l' = outbox l ++ map (λ p, (fd, put_message p)) ps) ∧
  (sz < SIZEOF_CHUNKINFO → XputBuffer serialize parse sendto (Some c) (Some data) (Z.of_nat (length data)) chunkSize l = Ub OutOfBounds).
Proof using Hser Hsendto Hparse Hjunk.
  intros Hb Hlen Hcs sz n ps Hw Hl. pose proof (chunk_size_range chunkSize Hcs) as Hsz. fold sz in Hsz.
  destruct (num_chunks_bounds (Z.of_nat (length data)) sz Hlen ltac:(lia)) as (Hn & Hlo & Hhi). fold n in Hn, Hlo, Hhi.
  split; [|split].
  - apply concat_pieces. nia.
  - intros Hbig. unfold XputBuffer, put_buffer. fold sz. fold n.
    destruct (put_loop_ok sz n now rest ltac:(unfold XIA_MAXCHUNK, XIA_MAXBUF in *; lia) Hbig (Z.to_nat n) 0 data [] l) as (l' & Hrun & Ho);
      [done|nia|nia|lia|lia|done|done|].
    exists l'. rewrite (call_bind_some _ _ _ _ _ Hrun). cbn [fst snd app]. rewrite decide_True by lia. done.
  - intros Hsmall. unfold XputBuffer, put_buffer. fold sz. fold n. unfold mbind, call_bind.
    rewrite (put_loop_overrun sz n now rest ltac:(unfold XIA_MAXCHUNK, XIA_MAXBUF in *; lia) Hsmall (Z.to_nat n) 0 data [] l);
      [done|done|lia|nia|lia|lia|done|done].
Qed.
End publish.

(** ** Witnesses *)

(** An answer as its numbers, and the bytes of its name and data. *)
Definition demo_encode_put (r : reply) : list Z :=
  match r with R_XPUTCHUNK ctx cid ttl ts p => [ctx; Z.of_nat (length cid); ttl; ts] ++ map code cid ++ p | _ => [] end.
Definition demo_parse_put (b : list Z) : reply :=
  match b with
  | ctx :: n :: ttl :: ts :: b => R_XPUTCHUNK ctx (map (λ z, ascii_of_nat (Z.to_nat z)) (take (Z.to_nat n) b)) ttl ts (drop (Z.to_nat n) b)
  | _ => R_XRECV [] []
  end.

Lemma demo_parse_encode_put ctx cid ttl ts p : demo_parse_put (demo_encode_put (R_XPUTCHUNK ctx cid ttl ts p)) = R_XPUTCHUNK ctx cid ttl ts p.
Proof.
  cbn [demo_parse_put demo_encode_put app]. rewrite Nat2Z.id, take_app_length', drop_app_length' by (by rewrite length_map). f_equal.
  rewrite map_map. induction cid as [|x cid IH]; [done|]. cbn [map]. f_equal; [|done]. unfold code. rewrite Nat2Z.id. apply ascii_nat_embedding.
Qed.

Definition demo_context : ChunkContext := mkCtx 5 77 0 0 60.
Definition demo_junk : list (option Z) := replicate 16 None.
Definition demo_put_reply : reply := put_reply demo_junk demo_context 9 [1; 2; 3].
Definition demo_put_lib : Lib := mkLib ∅ 0 [] {[5 := [Some (demo_encode_put demo_put_reply)]]} true.

Lemma demo_serialize_all m : demo_serialize m ≠ [].
Proof. done. Qed.
Lemma demo_sendto_all b : demo_sendto (ctx_sockfd demo_context) b = Z.of_nat (length b).
Proof. done. Qed.
Lemma demo_pieces : pieces (Z.to_nat (num_chunks (Z.of_nat (length [1; 2; 3])) (chunk_size 0))) (Z.to_nat (chunk_size 0)) [1; 2; 3] = [[1; 2; 3]].
Proof. vm_compute. reflexivity. Qed.
Lemma demo_put_fits : Z.of_nat (length (demo_encode_put demo_put_reply)) <? MAXBUFLEN = true.
Proof. vm_compute. reflexivity. Qed.

Lemma buffer_published_witness : ∃ infos l,
  XputBuffer demo_serialize demo_parse_put demo_sendto (Some demo_context) (Some [1; 2; 3]) 3 0 demo_put_lib = Ok (Some ((1, infos), l)) ∧
  map ci_cid infos = [sha1 [1; 2; 3] ≫= print_02x].
Proof.
  destruct (buffer_published demo_serialize demo_parse_put demo_sendto demo_encode_put demo_junk demo_context demo_serialize_all demo_sendto_all
    demo_parse_encode_put eq_refl [1; 2; 3] 0 9 demo_put_lib []) as (_ & Hput & _).
  - by apply all_bytes.
  - cbn [length]. lia.
  - lia.
  - rewrite demo_pieces. unfold waits, demo_put_lib. cbn [inbox ctx_sockfd demo_context]. rewrite lookup_singleton_eq. exact eq_refl.
  - rewrite demo_pieces. apply Forall_cons_2; [|apply Forall_nil_2]. apply Z.ltb_lt. exact demo_put_fits.
  - rewrite demo_pieces in Hput. destruct Hput as (l & Hrun & _); [apply Z.leb_le; vm_compute; reflexivity|].
    eexists _, l. split; [exact Hrun|exact eq_refl].
Defined.

Lemma file_as_buffer_witness : ∃ r, XputFile demo_serialize demo_parse_put demo_sendto (Some demo_context) (Some (lit "f")) (Some [1; 2; 3]) 0 demo_put_lib = r ∧
  XputBuffer demo_serialize demo_parse_put demo_sendto (Some demo_context) (Some [1; 2; 3]) 3 0 demo_put_lib = r.
Proof.
  destruct (file_as_buffer demo_serialize demo_parse_put demo_sendto (Some demo_context) (lit "f") [1; 2; 3] 0 0 None 0 demo_put_lib) as [Heq _];
    [lia|cbn [length]; lia|]. eexists. split; [exact Heq|exact eq_refl].
Defined.
