(* ===== verification/QSort.v ===== *)
(** * QSort: the sort of the router library (lib/glue.cc, [click_qsort])

    An insertion sort for short ranges, and a partition into the elements that
    are less than, equal to and greater than a pivot for the others; the ranges
    that are left are kept on a stack of fixed size.  Pointers into the array
    are indices of elements, and a range is the pair of its bounds.  The
    comparison is a function of two elements; the pivot is read through a copy
    or at the first place of the range, where no comparison moves it. *)

From Stdlib Require Import ZArith Lia.
From stdpp Require Import base list.
From S2P Require Import Prelude.

Local Open Scope nat_scope.

(** [(8 * SIZEOF_SIZE_T + 1) * 2] on a 64-bit machine. *)
Definition CQ_STACKSIZ : nat := 130.

Section sort.
Context {A : Type} (compar : A → A → Z).
Implicit Types (v : list A).

(** [cq_swap] *)
Definition cq_swap v (i j : nat) : res (list A) :=
  x ← vget v i; y ← vget v j; Ok (<[j := x]> (<[i := y]> v)).

(** [cq_swapfunc] on [n] elements. *)
Fixpoint cq_swapfunc v (i j n : nat) : res (list A) :=
  match n with
  | O => Ok v
  | S n => v ← cq_swap v i j; cq_swapfunc v (S i) (S j) n
  end.

Definition cmp_at v (i j : nat) : res Z := x ← vget v i; y ← vget v j; Ok (compar x y).

(** The median of three places. *)
Definition cq_med3 v (a b c : nat) : res nat :=
  ab ← cmp_at v a b;
  bc ← cmp_at v b c;
  if decide (ab < 0)%Z then
    if decide (bc < 0)%Z then Ok b
    else ac ← cmp_at v a c; Ok (if decide (ac < 0)%Z then c else a)
  else
    if decide (0 < bc)%Z then Ok b
    else ac ← cmp_at v a c; Ok (if decide (0 < ac)%Z then c else a).

(** The inner loop of the insertion sort, from [pj] down. *)
Fixpoint sift v (a pj : nat) : res (list A) :=
  match pj with
  | O => Ok v
  | S pj' =>
      if decide (a < pj) then
        r ← cmp_at v pj' pj;
        if decide (0 < r)%Z then v ← cq_swap v pj pj'; sift v a pj' else Ok v
      else Ok v
  end.

Definition insertion_sort v (a n : nat) : res (list A) :=
  foldM (λ v pi, sift v a pi) v (seq (a + 1) (n - 1)).

Definition find_pivot v (a n : nat) : res nat :=
  let pm := a + n / 2 in
  if decide (7 < n) then
    let p1 := a in
    let p2 := a + (n - 1) in
    r ← (if decide (40 < n) then
           let offset := n / 8 in
           p1 ← cq_med3 v p1 (p1 + offset) (p1 + 2 * offset);
           pm ← cq_med3 v (pm - offset) pm (pm + offset);
           p2 ← cq_med3 v (p2 - 2 * offset) (p2 - offset) p2;
           Ok (p1, pm, p2)
         else Ok (p1, pm, p2));
    let '(p1, pm, p2) := r in
    cq_med3 v p1 pm p2
  else Ok pm.

(** The loops of the partition: up from [pb], down from [pc]. *)
Fixpoint scan_up (fuel : nat) v (pivot : A) (pa pb pc : nat) : res (list A * nat * nat) :=
  match fuel with
  | O => Ub OutOfFuel
  | S fuel =>
      if decide (pb ≤ pc) then
        x ← vget v pb;
        let r := compar x pivot in
        if decide (r ≤ 0)%Z then
          if decide (r = 0)%Z then v ← cq_swap v pa pb; scan_up fuel v pivot (pa + 1) (pb + 1) pc
          else scan_up fuel v pivot pa (pb + 1) pc
        else Ok (v, pa, pb)
      else Ok (v, pa, pb)
  end.

Fixpoint scan_down (fuel : nat) v (pivot : A) (pb pc pd : nat) : res (list A * nat * nat) :=
  match fuel with
  | O => Ub OutOfFuel
  | S fuel =>
      if decide (pb ≤ pc) then
        x ← vget v pc;
        let r := compar x pivot in
        if decide (0 ≤ r)%Z then
          if decide (r = 0)%Z then v ← cq_swap v pc pd; scan_down fuel v pivot pb (pc - 1) (pd - 1)
          else scan_down fuel v pivot pb (pc - 1) pd
        else Ok (v, pc, pd)
      else Ok (v, pc, pd)
  end.

Fixpoint partition (fuel : nat) v (pivot : A) (pa pb pc pd : nat) : res (list A * nat * nat * nat * nat) :=
  match fuel with
  | O => Ub OutOfFuel
  | S fuel =>
      r ← scan_up (pc + 2 - pb) v pivot pa pb pc;
      let '(v, pa, pb) := r in
      r ← scan_down (pc + 2 - pb) v pivot pb pc pd;
      let '(v, pc, pd) := r in
      if decide (pc < pb) then Ok (v, pa, pb, pc, pd)
      else v ← cq_swap v pb pc; partition fuel v pivot pa (pb + 1) (pc - 1) pd
  end.

(** One range is partitioned: the array, the number of elements that are less
    and the number of those that are greater than the pivot. *)
Definition split_range v (a n : nat) : res (list A * nat * nat) :=
  pm ← find_pivot v a n;
  pivot ← vget v pm;
  v ← cq_swap v a pm;
  r ← partition (n + 1) v pivot (a + 1) (a + 1) (a + (n - 1)) (a + (n - 1));
  let '(v, pa, pb, pc, pd) := r in
  let pn := a + n in
  let s := if decide (pa - a < pb - pa) then pa - a else pb - pa in
  v ← cq_swapfunc v a (pb - s) s;
  let s := if decide (pd - pc < pn - pd - 1) then pd - pc else pn - pd - 1 in
  v ← cq_swapfunc v pb (pn - s) s;
  Ok (v, pb - pa, pd - pc).

(** The loop over the stack, whose top is the head of the list. *)
Fixpoint sort_loop (fuel : nat) v (stack : list (nat * nat)) : res (list A) :=
  match stack with
  | [] => Ok v
  | (lo, hi) :: stack =>
      match fuel with
      | O => Ub OutOfFuel
      | S fuel =>
          let n := hi - lo in
          if decide (n < 7) then v ← insertion_sort v lo n; sort_loop fuel v stack
          else
            r ← split_range v lo n;
            let '(v, less, greater) := r in
            if decide (less = 0 ∧ greater = 0) then sort_loop fuel v stack
            else if decide (2 * length stack + 4 < CQ_STACKSIZ) then
              let low := (lo, lo + less) in
              let high := (hi - greater, hi) in
              let '(first, second) := if decide (less < greater) then (high, low) else (low, high) in
              sort_loop fuel v
                (if decide (second.1 ≠ second.2) then second :: first :: stack else first :: stack)
            else Ub AssertFail
      end
  end.

Definition click_qsort v : res (list A) := sort_loop (2 * length v + 2) v [(0, length v)].

End sort.
