(* ===== verification/QSortSpec.v ===== *)
(** * QSortSpec: [click_qsort] ends, stays in its array and its stack, and sorts

    Whatever the comparison returns, the sort ends with the elements it was
    given, touches no place outside the array and never fills its stack.  When
    the comparison is an order, the result is sorted. *)

From Stdlib Require Import ZArith Lia.
From stdpp Require Import base list.
From S2P Require Import Prelude QSort.

Local Open Scope nat_scope.

Section spec.
Context {A : Type} (compar : A → A → Z).
Implicit Types (v w : list A).

(** ** Rearranging a range *)

(** [w] is [v] with the places from [lo] up to [hi] rearranged. *)
Record within (lo hi : nat) v w : Prop := {
  wi_perm : w ≡ₚ v;
  wi_out : ∀ i, i < lo ∨ hi ≤ i → w !! i = v !! i;
  wi_in : ∀ i, lo ≤ i < hi → ∃ j, lo ≤ j < hi ∧ w !! i = v !! j }.

Lemma within_refl lo hi v : within lo hi v v.
Proof. split; [done|done|]. intros i Hi. by exists i. Qed.

Lemma within_trans lo hi u v w : within lo hi u v → within lo hi v w → within lo hi u w.
Proof.
  intros [P1 O1 I1] [P2 O2 I2]. split; [by rewrite P2, P1|intros i Hi; by rewrite O2, O1|].
  intros i Hi. destruct (I2 i Hi) as (j & Hj & ->). by apply I1.
Qed.

Lemma within_mono lo hi lo' hi' v w : lo' ≤ lo → hi ≤ hi' → within lo hi v w → within lo' hi' v w.
Proof.
  intros Hl Hh [P1 O1 I1]. split; [done|intros i Hi; apply O1; lia|]. intros i Hi.
  destruct (decide (lo ≤ i < hi)) as [H|H].
  - destruct (I1 i H) as (j & Hj & E). exists j. split; [lia|done].
  - exists i. split; [done|]. apply O1. lia.
Qed.

Lemma within_length lo hi v w : within lo hi v w → length w = length v.
Proof. intros H. by rewrite (wi_perm _ _ _ _ H). Qed.

Lemma vget_lt v i : i < length v → ∃ x, vget v i = Ok x ∧ v !! i = Some x.
Proof. intros Hi. apply lookup_lt_is_Some in Hi as [x E]. exists x. by rewrite vget_Ok. Qed.

Lemma swap_ok v lo hi i j :
  lo ≤ i < hi → lo ≤ j < hi → hi ≤ length v →
  ∃ w, cq_swap v i j = Ok w ∧ within lo hi v w ∧
    ∀ k, w !! k = if decide (k = i) then v !! j else if decide (k = j) then v !! i else v !! k.
Proof.
  intros Hi Hj Hl. destruct (vget_lt v i) as (x & Ex & Hx); [lia|].
  destruct (vget_lt v j) as (y & Ey & Hy); [lia|]. unfold cq_swap. rewrite Ex, Ey. simpl.
  eexists. split; [done|].
  assert (Hk : ∀ k, <[j := x]> (<[i := y]> v) !! k =
            if decide (k = i) then v !! j else if decide (k = j) then v !! i else v !! k).
  { intros k. destruct (decide (k = j)) as [->|].
    - rewrite list_lookup_insert_eq by (rewrite length_insert; lia). rewrite Hx, Hy.
      destruct (decide (j = i)) as [->|]; congruence.
    - rewrite list_lookup_insert_ne by done. destruct (decide (k = i)) as [->|].
      + rewrite list_lookup_insert_eq by lia. done.
      + by rewrite list_lookup_insert_ne. }
  split; [|done]. split.
  - destruct (decide (i = j)) as [->|Hne].
    + simplify_eq. by rewrite list_insert_insert_eq, list_insert_id.
    + by apply Permutation_insert_swap.
  - intros k Hk'. rewrite Hk. by rewrite !decide_False by lia.
  - intros k Hk'. rewrite Hk. repeat case_decide; eauto.
Qed.

(** Two blocks are exchanged. *)
Lemma swapfunc_ok n v lo hi i j :
  lo ≤ i → i + n ≤ j → j + n ≤ hi → hi ≤ length v →
  ∃ w, cq_swapfunc v i j n = Ok w ∧ within lo hi v w ∧
    ∀ k, w !! k = if decide (i ≤ k < i + n) then v !! (k - i + j)
                  else if decide (j ≤ k < j + n) then v !! (k - j + i) else v !! k.
Proof.
  revert v i j. induction n as [|n IH]; intros v i j Hi Hij Hj Hl; simpl.
  { exists v. split; [done|]. split; [apply within_refl|]. intros k. by rewrite !decide_False by lia. }
  destruct (swap_ok v lo hi i j) as (u & -> & Hu & Eu); [lia..|]. simpl.
  destruct (IH u (S i) (S j)) as (w & -> & Hw & Ew); [lia..|by rewrite (within_length _ _ _ _ Hu)|].
  exists w. split; [done|]. split; [by eapply within_trans|]. intros k. rewrite Ew.
  destruct (decide (i = k)) as [->|].
  { rewrite decide_False, decide_False, Eu, decide_True by lia. rewrite decide_True by lia. f_equal. lia. }
  destruct (decide (j = k)) as [->|].
  { rewrite decide_False, decide_False, Eu, decide_False, decide_True by lia.
    rewrite decide_False, decide_True by lia. f_equal. lia. }
  destruct (decide (S i ≤ k < S i + n)) as [H1|H1].
  { rewrite Eu, !decide_False by lia. rewrite decide_True by lia. f_equal. lia. }
  rewrite (decide_False (P := i ≤ k < i + S n)) by lia.
  destruct (decide (S j ≤ k < S j + n)) as [H2|H2].
  { rewrite Eu, !decide_False by lia. rewrite decide_True by lia. f_equal. lia. }
  rewrite Eu, !decide_False by lia. done.
Qed.

(** ** The pivot *)

Lemma cmp_at_ok v i j : i < length v → j < length v → ∃ r, cmp_at compar v i j = Ok r.
Proof.
  intros Hi Hj. destruct (vget_lt v i Hi) as (x & Ex & _), (vget_lt v j Hj) as (y & Ey & _).
  unfold cmp_at. rewrite Ex, Ey. by eexists.
Qed.

Lemma med3_ok v lo hi a b c :
  lo ≤ a < hi → lo ≤ b < hi → lo ≤ c < hi → hi ≤ length v →
  ∃ m, cq_med3 compar v a b c = Ok m ∧ lo ≤ m < hi.
Proof.
  intros Ha Hb Hc Hl. unfold cq_med3.
  destruct (cmp_at_ok v a b) as [ab ->]; [lia..|]. destruct (cmp_at_ok v b c) as [bc ->]; [lia..|].
  destruct (cmp_at_ok v a c) as [ac ->]; [lia..|]. simpl.
  repeat case_decide; eexists; (split; [done|lia]).
Qed.

Lemma find_pivot_ok v a n :
  7 ≤ n → a + n ≤ length v → ∃ m, find_pivot compar v a n = Ok m ∧ a ≤ m < a + n.
Proof.
  intros Hn Hl. unfold find_pivot.
  assert (H2 : n / 2 < n) by (apply Nat.div_lt; lia).
  destruct (decide (7 < n)); [|exists (a + n / 2); split; [done|lia]].
  assert (∃ p1 pm p2, (if decide (40 < n) then
            p1 ← cq_med3 compar v a (a + n / 8) (a + 2 * (n / 8));
            pm ← cq_med3 compar v (a + n / 2 - n / 8) (a + n / 2) (a + n / 2 + n / 8);
            p2 ← cq_med3 compar v (a + (n - 1) - 2 * (n / 8)) (a + (n - 1) - n / 8) (a + (n - 1));
            Ok (p1, pm, p2)
          else Ok (a, a + n / 2, a + (n - 1))) = Ok (p1, pm, p2) ∧
          a ≤ p1 < a + n ∧ a ≤ pm < a + n ∧ a ≤ p2 < a + n) as (p1 & pm & p2 & -> & H1' & Hm' & H2').
  - destruct (decide (40 < n)); [|eexists _, _, _; split; [done|lia]].
    pose proof (Nat.div_mod_eq n 8). pose proof (Nat.mod_upper_bound n 8 ltac:(lia)).
    pose proof (Nat.div_mod_eq n 2). pose proof (Nat.mod_upper_bound n 2 ltac:(lia)).
    destruct (med3_ok v a (a + n) a (a + n / 8) (a + 2 * (n / 8))) as (p1 & -> & ?); [lia..|].
    destruct (med3_ok v a (a + n) (a + n / 2 - n / 8) (a + n / 2) (a + n / 2 + n / 8)) as (pm & -> & ?); [lia..|].
    destruct (med3_ok v a (a + n) (a + (n - 1) - 2 * (n / 8)) (a + (n - 1) - n / 8) (a + (n - 1)))
      as (p2 & -> & ?); [lia..|].
    by exists p1, pm, p2.
  - simpl. by apply med3_ok.
Qed.

(** ** The insertion sort *)

Lemma sift_within v a hi pj :
  pj < hi → hi ≤ length v → ∃ w, sift compar v a pj = Ok w ∧ within a hi v w.
Proof.
  revert v. induction pj as [|pj IH]; intros v Hp Hl; simpl; [exists v; split; [done|apply within_refl]|].
  destruct (decide (a < S pj)); [|exists v; split; [done|apply within_refl]].
  destruct (cmp_at_ok v pj (S pj)) as [r ->]; [lia..|]. simpl.
  destruct (decide (0 < r)%Z); [|exists v; split; [done|apply within_refl]].
  destruct (swap_ok v a hi (S pj) pj) as (u & -> & Hu & _); [lia..|]. simpl.
  destruct (IH u) as (w & -> & Hw); [lia|by rewrite (within_length _ _ _ _ Hu)|].
  exists w. split; [done|]. by eapply within_trans.
Qed.

(** ** The partition *)

(** From [lo] up: the pivot, places equal to it, less, not yet compared,
    greater, and again equal. *)
Record parted (lo hi : nat) (p : A) v (pa pb pc pd : nat) : Prop := {
  pt_bounds : lo < pa ∧ pa ≤ pb ∧ pb ≤ pc + 1 ∧ pc ≤ pd ∧ pd < hi ∧ hi ≤ length v;
  pt_pivot : v !! lo = Some p;
  pt_low : ∀ i x, lo < i < pa → v !! i = Some x → compar x p = 0%Z;
  pt_less : ∀ i x, pa ≤ i < pb → v !! i = Some x → (compar x p < 0)%Z;
  pt_greater : ∀ i x, pc < i ≤ pd → v !! i = Some x → (0 < compar x p)%Z;
  pt_high : ∀ i x, pd < i < hi → v !! i = Some x → compar x p = 0%Z }.

(** An element that is equal joins the lower places. *)
Lemma parted_low lo hi p v w pa pb pc pd x :
  parted lo hi p v pa pb pc pd → pb ≤ pc → v !! pb = Some x → compar x p = 0%Z →
  (∀ k, w !! k = if decide (k = pa) then v !! pb else if decide (k = pb) then v !! pa else v !! k) →
  length w = length v → parted lo hi p w (pa + 1) (pb + 1) pc pd.
Proof.
  intros [Hb Hp Hlo Hle Hgr Hhi] Hpc Ex Hx Hw Hlen. split.
  - lia.
  - rewrite Hw, !decide_False by lia. done.
  - intros i y Hi. rewrite Hw. destruct (decide (i = pa)) as [->|]; [congruence|].
    rewrite decide_False by lia. apply Hlo. lia.
  - intros i y Hi. rewrite Hw, decide_False by lia. destruct (decide (i = pb)) as [->|]; apply Hle; lia.
  - intros i y Hi. rewrite Hw, !decide_False by lia. by apply Hgr.
  - intros i y Hi. rewrite Hw, !decide_False by lia. by apply Hhi.
Qed.

Lemma parted_less lo hi p v pa pb pc pd x :
  parted lo hi p v pa pb pc pd → pb ≤ pc → v !! pb = Some x → (compar x p < 0)%Z →
  parted lo hi p v pa (pb + 1) pc pd.
Proof.
  intros [Hb Hp Hlo Hle Hgr Hhi] Hpc Ex Hx. split; [lia|done|done| |done|done].
  intros i y Hi E. destruct (decide (i = pb)) as [->|]; [congruence|]. apply (Hle i); [lia|done].
Qed.

Lemma parted_high lo hi p v w pa pb pc pd x :
  parted lo hi p v pa pb pc pd → pb ≤ pc → v !! pc = Some x → compar x p = 0%Z →
  (∀ k, w !! k = if decide (k = pc) then v !! pd else if decide (k = pd) then v !! pc else v !! k) →
  length w = length v → parted lo hi p w pa pb (pc - 1) (pd - 1).
Proof.
  intros [Hb Hp Hlo Hle Hgr Hhi] Hpc Ex Hx Hw Hlen. split.
  - lia.
  - rewrite Hw, !decide_False by lia. done.
  - intros i y Hi. rewrite Hw, !decide_False by lia. by apply Hlo.
  - intros i y Hi. rewrite Hw, !decide_False by lia. by apply Hle.
  - intros i y Hi. rewrite Hw. destruct (decide (i = pc)) as [->|]; [apply Hgr; lia|].
    rewrite decide_False by lia. apply Hgr. lia.
  - intros i y Hi. rewrite Hw. destruct (decide (i = pd)) as [->|].
    + destruct (decide (pd = pc)) as [->|]; congruence.
    + rewrite decide_False by lia. apply Hhi. lia.
Qed.

Lemma parted_greater lo hi p v pa pb pc pd x :
  parted lo hi p v pa pb pc pd → pb ≤ pc → v !! pc = Some x → (0 < compar x p)%Z →
  parted lo hi p v pa pb (pc - 1) pd.
Proof.
  intros [Hb Hp Hlo Hle Hgr Hhi] Hpc Ex Hx. split; [lia|done|done|done| |done].
  intros i y Hi E. destruct (decide (i = pc)) as [->|]; [congruence|]. apply (Hgr i); [lia|done].
Qed.

(** A pair on the wrong sides is exchanged. *)
Lemma parted_exchange lo hi p v w pa pb pc pd x y :
  parted lo hi p v pa pb pc pd → pb < pc → v !! pb = Some x → (0 < compar x p)%Z →
  v !! pc = Some y → (compar y p < 0)%Z →
  (∀ k, w !! k = if decide (k = pb) then v !! pc else if decide (k = pc) then v !! pb else v !! k) →
  length w = length v → parted lo hi p w pa (pb + 1) (pc - 1) pd.
Proof.
  intros [Hb Hp Hlo Hle Hgr Hhi] Hlt Ex Hx Ey Hy Hw Hlen. split.
  - lia.
  - rewrite Hw, !decide_False by lia. done.
  - intros i z Hi. rewrite Hw, !decide_False by lia. by apply Hlo.
  - intros i z Hi. rewrite Hw. destruct (decide (i = pb)) as [->|]; [congruence|].
    rewrite decide_False by lia. apply Hle. lia.
  - intros i z Hi. rewrite Hw, decide_False by lia. destruct (decide (i = pc)) as [->|]; [congruence|].
    apply Hgr. lia.
  - intros i z Hi. rewrite Hw, !decide_False by lia. by apply Hhi.
Qed.

Lemma scan_up_ok fuel lo hi p v pa pb pc pd :
  parted lo hi p v pa pb pc pd → pc + 1 - pb < fuel →
  ∃ w pa' pb', scan_up compar fuel v p pa pb pc = Ok (w, pa', pb') ∧ within lo hi v w ∧
    parted lo hi p w pa' pb' pc pd ∧ pb ≤ pb' ∧
    (pc < pb' ∨ ∃ x, w !! pb' = Some x ∧ (0 < compar x p)%Z).
Proof.
  revert v pa pb. induction fuel as [|fuel IH]; intros v pa pb Hp Hf; [lia|]. simpl.
  destruct (pt_bounds _ _ _ _ _ _ _ _ Hp) as (B1 & B2 & B3 & B4 & B5 & B6).
  destruct (decide (pb ≤ pc)) as [Hle|].
  2:{ exists v, pa, pb. split_and!; [done|apply within_refl|done|done|left; lia]. }
  destruct (vget_lt v pb) as (x & -> & Ex); [lia|]. simpl.
  destruct (decide (compar x p ≤ 0)%Z).
  2:{ exists v, pa, pb. split_and!; [done|apply within_refl|done|done|right; exists x; split; [done|lia]]. }
  destruct (decide (compar x p = 0)%Z) as [Hz|].
  - destruct (swap_ok v lo hi pa pb) as (u & -> & Hu & Eu); [lia..|]. simpl.
    destruct (IH u (pa + 1) (pb + 1)) as (w & pa' & pb' & -> & Hw & Hp' & Hge & Hx).
    + eapply parted_low; try done. by apply (within_length lo hi).
    + lia.
    + exists w, pa', pb'. split_and!; [done|by eapply within_trans|done|lia|done].
  - destruct (IH v pa (pb + 1)) as (w & pa' & pb' & -> & Hw & Hp' & Hge & Hx).
    + eapply parted_less; try done. lia.
    + lia.
    + exists w, pa', pb'. split_and!; [done|done|done|lia|done].
Qed.

Lemma scan_down_ok fuel lo hi p v pa pb pc pd :
  parted lo hi p v pa pb pc pd → pc + 1 - pb < fuel →
  ∃ w pc' pd', scan_down compar fuel v p pb pc pd = Ok (w, pc', pd') ∧ within lo hi v w ∧
    parted lo hi p w pa pb pc' pd' ∧ pc' ≤ pc ∧ (∀ i, i ≤ pc' → w !! i = v !! i) ∧
    (pc' < pb ∨ ∃ x, w !! pc' = Some x ∧ (compar x p < 0)%Z).
Proof.
  revert v pc pd. induction fuel as [|fuel IH]; intros v pc pd Hp Hf; [lia|]. simpl.
  destruct (pt_bounds _ _ _ _ _ _ _ _ Hp) as (B1 & B2 & B3 & B4 & B5 & B6).
  destruct (decide (pb ≤ pc)) as [Hle|].
  2:{ exists v, pc, pd. split_and!; [done|apply within_refl|done|done|done|left; lia]. }
  destruct (vget_lt v pc) as (x & -> & Ex); [lia|]. simpl.
  destruct (decide (0 ≤ compar x p)%Z).
  2:{ exists v, pc, pd. split_and!; [done|apply within_refl|done|done|done|right; exists x; split; [done|lia]]. }
  destruct (decide (compar x p = 0)%Z) as [Hz|].
  - destruct (swap_ok v lo hi pc pd) as (u & -> & Hu & Eu); [lia..|]. simpl.
    destruct (IH u (pc - 1) (pd - 1)) as (w & pc' & pd' & -> & Hw & Hp' & Hge & Hsame & Hx).
    + eapply parted_high; try done. by apply (within_length lo hi).
    + lia.
    + exists w, pc', pd'. split_and!; [done|by eapply within_trans|done|lia| |done].
      intros i Hi. rewrite Hsame, Eu, !decide_False by lia. done.
  - destruct (IH v (pc - 1) pd) as (w & pc' & pd' & -> & Hw & Hp' & Hge & Hsame & Hx).
    + eapply parted_greater; try done. lia.
    + lia.
    + exists w, pc', pd'. split_and!; [done|done|done|lia|done|done].
Qed.

Lemma partition_ok fuel lo hi p v pa pb pc pd :
  parted lo hi p v pa pb pc pd → pc + 1 - pb < fuel →
  ∃ w pa' pb' pc' pd', partition compar fuel v p pa pb pc pd = Ok (w, pa', pb', pc', pd') ∧
    within lo hi v w ∧ parted lo hi p w pa' pb' pc' pd' ∧ pb' = pc' + 1.
Proof.
  revert v pa pb pc pd. induction fuel as [|fuel IH]; intros v pa pb pc pd Hp Hf; [lia|].
  cbn [partition].
  destruct (scan_up_ok (pc + 2 - pb) lo hi p v pa pb pc pd Hp) as (u & pa1 & pb1 & -> & Hu & Hp1 & Hge & Hx).
  { destruct (pt_bounds _ _ _ _ _ _ _ _ Hp). lia. }
  cbn [mbind res_bind].
  destruct (scan_down_ok (pc + 2 - pb1) lo hi p u pa1 pb1 pc pd Hp1)
    as (w & pc1 & pd1 & -> & Hw & Hp2 & Hle & Hsame & Hy).
  { destruct (pt_bounds _ _ _ _ _ _ _ _ Hp1). lia. }
  cbn [mbind res_bind]. destruct (pt_bounds _ _ _ _ _ _ _ _ Hp2) as (B1 & B2 & B3 & B4 & B5 & B6).
  destruct (decide (pc1 < pb1)).
  { exists w, pa1, pb1, pc1, pd1. split_and!; [done|by eapply within_trans|done|lia]. }
  destruct Hx as [|(x & Ex & Hx)]; [lia|]. destruct Hy as [|(y & Ey & Hy)]; [lia|].
  rewrite <- Hsame in Ex by lia.
  assert (pb1 ≠ pc1). { intros ->. assert (x = y) by congruence. subst. lia. }
  destruct (swap_ok w lo hi pb1 pc1) as (z & -> & Hz & Ez); [lia..|]. cbn [mbind res_bind].
  destruct (IH z pa1 (pb1 + 1) (pc1 - 1) pd1) as (v' & pa' & pb' & pc' & pd' & -> & Hv' & Hp' & He).
  - eapply parted_exchange; try done; [lia|by apply (within_length lo hi)].
  - lia.
  - exists v', pa', pb', pc', pd'. split_and!; [done| |done|done].
    eapply within_trans; [done|]. eapply within_trans; [done|]. by eapply within_trans.
Qed.

(** The parts of a range after it is split around the pivot [p]. *)
Record split_at (lo hi less greater : nat) (p : A) w : Prop := {
  sp_less : ∀ i x, lo ≤ i < lo + less → w !! i = Some x → (compar x p < 0)%Z;
  sp_equal : ∀ i x, lo + less ≤ i < hi - greater → w !! i = Some x → compar x p = 0%Z ∨ x = p;
  sp_greater : ∀ i x, hi - greater ≤ i < hi → w !! i = Some x → (0 < compar x p)%Z }.

(** The places that are equal to the pivot move to the middle. *)
Lemma gather_ok lo hi p v pa pb pc pd :
  parted lo hi p v pa pb pc pd → pb = pc + 1 →
  ∃ w, (let s := if decide (pa - lo < pb - pa) then pa - lo else pb - pa in
        v ← cq_swapfunc v lo (pb - s) s;
        let s := if decide (pd - pc < hi - pd - 1) then pd - pc else hi - pd - 1 in
        cq_swapfunc v pb (hi - s) s) = Ok w ∧
    within lo hi v w ∧ split_at lo hi (pb - pa) (pd - pc) p w.
Proof.
  intros [(B1 & B2 & B3 & B4 & B5 & B6) Hp Hlo Hle Hgr Hhi] He. cbv zeta.
  assert (∃ e l g h, pa = lo + e ∧ pb = lo + e + l ∧ pd = pc + g ∧ hi = pc + g + 1 + h)
    as (e & l & g & h & Ea & Eb & Ed & Eh).
  { exists (pa - lo), (pb - pa), (pd - pc), (hi - pd - 1). lia. }
  replace (pa - lo) with e by lia. replace (pb - pa) with l by lia.
  replace (pd - pc) with g by lia. replace (hi - pd - 1) with h by lia.
  set (s1 := if decide (e < l) then e else l). set (s2 := if decide (g < h) then g else h).
  assert (T1 : s1 = e ∧ e ≤ l ∨ s1 = l ∧ l ≤ e) by (unfold s1; case_decide; lia).
  assert (T2 : s2 = g ∧ g ≤ h ∨ s2 = h ∧ h ≤ g) by (unfold s2; case_decide; lia).
  clearbody s1 s2.
  destruct (swapfunc_ok s1 v lo hi lo (pb - s1)) as (u & -> & Hu & Eu); [lia..|]. cbn [mbind res_bind].
  pose proof (within_length _ _ _ _ Hu) as Hlu.
  destruct (swapfunc_ok s2 u lo hi pb (hi - s2)) as (w & -> & Hw & Ew); [lia..|].
  exists w. split; [done|]. split; [by eapply within_trans|].
  assert (Hmid : ∀ i x, lo ≤ i < pa ∨ pd < i < hi → v !! i = Some x → compar x p = 0%Z ∨ x = p).
  { intros i x [Hi|Hi] E; [|left; by apply (Hhi i)].
    destruct (decide (i = lo)) as [->|]; [right; congruence|left; apply (Hlo i); [lia|done]]. }
  split; intros i x Hi E; rewrite Ew in E.
  - rewrite !decide_False, Eu in E by lia. destruct (decide (lo ≤ i < lo + s1)).
    + apply (Hle (i - lo + (pb - s1))); [lia|done].
    + rewrite decide_False in E by lia. apply (Hle i); [lia|done].
  - destruct (decide (pb ≤ i < pb + s2)).
    + rewrite Eu, !decide_False in E by lia. refine (Hmid _ _ _ E). right. lia.
    + rewrite (decide_False (P := hi - s2 ≤ i < hi - s2 + s2)), Eu in E by lia.
      rewrite (decide_False (P := lo ≤ i < lo + s1)) in E by lia.
      destruct (decide (pb - s1 ≤ i < pb - s1 + s1)); refine (Hmid _ _ _ E); [left|]; lia.
  - destruct (decide (pb ≤ i < pb + s2)).
    { lia. }
    destruct (decide (hi - s2 ≤ i < hi - s2 + s2)).
    + rewrite Eu, !decide_False in E by lia. apply (Hgr (i - (hi - s2) + pb)); [lia|done].
    + rewrite Eu, !decide_False in E by lia. apply (Hgr i); [lia|done].
Qed.

Lemma split_range_ok v a n :
  7 ≤ n → a + n ≤ length v →
  ∃ w less greater p, split_range compar v a n = Ok (w, less, greater) ∧ within a (a + n) v w ∧
    less + greater < n ∧ split_at a (a + n) less greater p w.
Proof.
  intros Hn Hl. unfold split_range.
  destruct (find_pivot_ok v a n) as (pm & -> & Hpm); [lia..|]. cbn [mbind res_bind].
  destruct (vget_lt v pm) as (p & -> & Ep); [lia|]. cbn [mbind res_bind].
  destruct (swap_ok v a (a + n) a pm) as (u & -> & Hu & Eu); [lia..|]. cbn [mbind res_bind].
  destruct (partition_ok (n + 1) a (a + n) p u (a + 1) (a + 1) (a + (n - 1)) (a + (n - 1)))
    as (w & pa & pb & pc & pd & -> & Hw & Hp & He).
  - split; try (intros; lia).
    + rewrite (within_length _ _ _ _ Hu). lia.
    + by rewrite Eu, decide_True.
  - lia.
  - cbn [mbind res_bind]. destruct (gather_ok a (a + n) p w pa pb pc pd Hp He) as (z & Ez & Hz & Hs).
    cbv zeta in Ez |- *. apply bind_Ok in Ez as (z1 & E1 & E2).
    rewrite E1. cbn [mbind res_bind]. rewrite E2. cbn [mbind res_bind].
    exists z, (pb - pa), (pd - pc), p. split_and!; [done| | |done].
    + eapply within_trans; [done|]. by eapply within_trans.
    + destruct (pt_bounds _ _ _ _ _ _ _ _ Hp). lia.
Qed.

(** ** The insertion sort leaves the other places alone *)

Lemma foldM_within lo hi (f : list A → nat → res (list A)) v l :
  (∀ v' k, k ∈ l → length v' = length v → ∃ w, f v' k = Ok w ∧ within lo hi v' w) →
  ∃ w, foldM f v l = Ok w ∧ within lo hi v w.
Proof.
  intros Hf. apply (foldM_ok (within lo hi v)); [|apply within_refl].
  intros u k Hk Hu. destruct (Hf u k Hk) as (w & E & Hw); [by apply (within_length lo hi)|].
  exists w. split; [done|]. by eapply within_trans.
Qed.

Lemma insertion_within v a n :
  a + n ≤ length v → ∃ w, insertion_sort compar v a n = Ok w ∧ within a (a + n) v w.
Proof.
  intros Hl. apply foldM_within. intros u k Hk Hu. apply elem_of_seq in Hk.
  apply sift_within; [lia|]. by rewrite Hu.
Qed.

(** ** The stack *)

(** The ranges lie in the array and apart from each other; below a range of
    [n] elements there are at most log2 (N / n) others. *)
Fixpoint stack_ok (N : nat) (stack : list (nat * nat)) : Prop :=
  match stack with
  | [] => True
  | (lo, hi) :: rest =>
      lo ≤ hi ≤ N ∧ (Z.of_nat (hi - lo) * 2 ^ Z.of_nat (length rest) ≤ Z.of_nat N)%Z ∧
      (∀ lo' hi', (lo', hi') ∈ rest → hi' ≤ lo ∨ hi ≤ lo') ∧ stack_ok N rest
  end.

Fixpoint steps_left (stack : list (nat * nat)) : nat :=
  match stack with
  | [] => 0
  | (lo, hi) :: rest => 2 * (hi - lo) + 1 + steps_left rest
  end.

(** The ranges that are pushed for the two parts, the larger first. *)
Definition push_parts (lo hi less greater : nat) (stack : list (nat * nat)) : list (nat * nat) :=
  let low := (lo, lo + less) in
  let high := (hi - greater, hi) in
  let '(first, second) := if decide (less < greater) then (high, low) else (low, high) in
  if decide (second.1 ≠ second.2) then second :: first :: stack else first :: stack.

Lemma half_below (n k N d : Z) : (0 ≤ d → 0 ≤ k → 2 * k ≤ n → n * 2 ^ d ≤ N → k * 2 ^ (d + 1) ≤ N)%Z.
Proof. intros Hd Hk Hn H. rewrite Z.pow_add_r by lia. nia. Qed.

Lemma push_parts_ok N lo hi less greater stack :
  stack_ok N ((lo, hi) :: stack) → less + greater < hi - lo →
  stack_ok N (push_parts lo hi less greater stack) ∧
  steps_left (push_parts lo hi less greater stack) < steps_left ((lo, hi) :: stack).
Proof.
  intros (Hb & Hs & Hd & Hr) Hn. pose proof (Z.pow_pos_nonneg 2 (Z.of_nat (length stack)) ltac:(lia) ltac:(lia)).
  unfold push_parts.
  assert (Hpart : ∀ k, k ≤ hi - lo → (Z.of_nat k * 2 ^ Z.of_nat (length stack) ≤ Z.of_nat N)%Z) by (intros; nia).
  assert (Hhalf : ∀ k, 2 * k ≤ hi - lo → (Z.of_nat k * 2 ^ Z.of_nat (S (length stack)) ≤ Z.of_nat N)%Z).
  { intros k Hk. replace (Z.of_nat (S (length stack))) with (Z.of_nat (length stack) + 1)%Z by lia.
    apply (half_below (Z.of_nat (hi - lo))); lia. }
  destruct (decide (less < greater)); case_decide; simpl in *; replace (lo + less - lo) with less by lia;
    replace (hi - (hi - greater)) with greater by lia; (split; [split_and!; try lia; try done|lia]).
  all: try (apply Hhalf; lia); try (apply Hpart; lia).
  all: intros lo' hi' Hin; try (apply elem_of_cons in Hin as [[= -> ->]|Hin]; [lia|]);
    specialize (Hd lo' hi' Hin); lia.
Qed.

(** The assertion on the stack holds when a range is split. *)
Lemma stack_fits N lo hi stack :
  (Z.of_nat N < 2 ^ 64)%Z → stack_ok N ((lo, hi) :: stack) → 7 ≤ hi - lo → 2 * length stack + 4 < CQ_STACKSIZ.
Proof.
  intros HN (_ & Hs & _) Hn. unfold CQ_STACKSIZ. destruct (decide (length stack < 62)) as [|Hge]; [lia|].
  exfalso. assert (2 ^ 62 ≤ 2 ^ Z.of_nat (length stack))%Z by (apply Z.pow_le_mono_r; lia).
  change (2 ^ 64)%Z with (4 * 2 ^ 62)%Z in HN. nia.
Qed.

(** ** Order *)

(** The comparison orders the elements; elements it takes for equal need not
    be the same. *)
Record ordered : Prop := {
  or_sign : ∀ x y, (compar x y < 0 ↔ 0 < compar y x)%Z;
  or_trans : ∀ x y z, (compar x y ≤ 0 → compar y z ≤ 0 → compar x z ≤ 0)%Z }.

Lemma or_refl x : ordered → compar x x = 0%Z.
Proof. intros Ho. pose proof (or_sign Ho x x). lia. Qed.

Lemma or_ge x y : ordered → (0 ≤ compar x y → compar y x ≤ 0)%Z.
Proof. intros Ho H. pose proof (or_sign Ho x y). lia. Qed.

(** The places [i] and [j] are in order. *)
Definition in_order v (i j : nat) : Prop := ∀ x y, v !! i = Some x → v !! j = Some y → (compar x y ≤ 0)%Z.

(** Places that are not in one range of the stack are in order. *)
Definition sorted_but v (stack : list (nat * nat)) : Prop :=
  ∀ i j, i < j → in_order v i j ∨ ∃ lo hi, (lo, hi) ∈ stack ∧ lo ≤ i ∧ j < hi.

(** Rearranging the range at the top leaves the other pairs in order. *)
Lemma sorted_within N lo hi stack v w i j :
  stack_ok N ((lo, hi) :: stack) → sorted_but v ((lo, hi) :: stack) → within lo hi v w →
  i < j → ¬ (lo ≤ i ∧ j < hi) →
  in_order w i j ∨ ∃ lo' hi', (lo', hi') ∈ stack ∧ lo' ≤ i ∧ j < hi'.
Proof.
  intros (_ & _ & Hd & _) Hs [_ Hout Hin] Hij Hno.
  assert (Hpre : ∀ k, ∃ k', w !! k = v !! k' ∧
    (if decide (lo ≤ k < hi) then lo ≤ k' < hi else k' = k)).
  { intros k. destruct (decide (lo ≤ k < hi)) as [Hk|Hk].
    - destruct (Hin k Hk) as (k' & Hk' & E). by exists k'.
    - exists k. split; [apply Hout; lia|done]. }
  destruct (Hpre i) as (i' & Ei & Hi'), (Hpre j) as (j' & Ej & Hj').
  assert (i' < j') as Hlt by (destruct (decide (lo ≤ i < hi)), (decide (lo ≤ j < hi)); lia).
  unfold in_order. rewrite Ei, Ej.
  destruct (Hs i' j' Hlt) as [Ho|(lo' & hi' & Hr & H1 & H2)]; [by left|].
  apply elem_of_cons in Hr as [[= -> ->]|Hr].
  - exfalso. destruct (decide (lo ≤ i < hi)), (decide (lo ≤ j < hi)); lia.
  - specialize (Hd lo' hi' Hr). right. exists lo', hi'. split; [done|].
    destruct (decide (lo ≤ i < hi)), (decide (lo ≤ j < hi)); lia.
Qed.

(** The parts of a split range are in order. *)
Lemma sorted_split N lo hi less greater p stack v w :
  ordered → stack_ok N ((lo, hi) :: stack) → sorted_but v ((lo, hi) :: stack) → within lo hi v w →
  less + greater < hi - lo → split_at lo hi less greater p w →
  sorted_but w (push_parts lo hi less greater stack).
Proof.
  intros Hor Hst Hs Hw Hn Hsp i j Hij.
  assert (Hparts : ∀ lo' hi', lo' ≤ i → j < hi' →
    (lo', hi') ∈ (lo, lo + less) :: (hi - greater, hi) :: stack →
    ∃ lo'' hi'', (lo'', hi'') ∈ push_parts lo hi less greater stack ∧ lo'' ≤ i ∧ j < hi'').
  { intros lo' hi' H1 H2 Hm. exists lo', hi'. split; [|done]. unfold push_parts.
    destruct (decide (less < greater)); case_decide as Hc; simpl in Hc;
      rewrite !elem_of_cons in *; intuition (simplify_eq; try lia; auto). }
  destruct (decide (lo ≤ i ∧ j < hi)) as [[H1 H2]|Hno].
  2:{ destruct (sorted_within N lo hi stack v w i j Hst Hs Hw Hij Hno) as [|(lo' & hi' & Hr & H1 & H2)];
        [by left|right]. apply (Hparts lo' hi'); [done..|]. by do 2 right. }
  destruct (decide (j < lo + less)) as [Hl|Hl].
  { right. apply (Hparts lo (lo + less)); [done..|left]. }
  destruct (decide (hi - greater ≤ i)) as [Hg|Hg].
  { right. apply (Hparts (hi - greater) hi); [done..|right; left]. }
  left. intros x y Ex Ey. apply (or_trans Hor x p y).
  - destruct (decide (i < lo + less)); [pose proof (sp_less _ _ _ _ _ _ Hsp i x ltac:(lia) Ex); lia|].
    destruct (sp_equal _ _ _ _ _ _ Hsp i x ltac:(lia) Ex) as [->| ->]; [done|by rewrite or_refl].
  - apply or_ge; [done|]. destruct (decide (hi - greater ≤ j)).
    + pose proof (sp_greater _ _ _ _ _ _ Hsp j y ltac:(lia) Ey). lia.
    + destruct (sp_equal _ _ _ _ _ _ Hsp j y ltac:(lia) Ey) as [->| ->]; [done|by rewrite or_refl].
Qed.

(** *** The insertion sort sorts *)

(** Only the element at [pj] may be out of order, with those before it. *)
Lemma sift_sorted a hi pi pj v w :
  ordered → a ≤ pj ≤ pi → pi < hi → hi ≤ length v →
  (∀ i j, a ≤ i < j → j ≤ pi → j ≠ pj → in_order v i j) →
  sift compar v a pj = Ok w → ∀ i j, a ≤ i < j → j ≤ pi → in_order w i j.
Proof.
  intros Hor. revert v. induction pj as [|pj IH]; intros v Hpj Hpi Hl Hord Hrun i j Hij Hj; simpl in Hrun.
  { simplify_eq. apply Hord; [done|done|lia]. }
  destruct (decide (a < S pj)) as [Ha|]; [|simplify_eq; apply Hord; [done|done|lia]].
  destruct (vget_lt v pj) as (x & Ex & Lx); [lia|]. destruct (vget_lt v (S pj)) as (y & Ey & Ly); [lia|].
  unfold cmp_at in Hrun. rewrite Ex, Ey in Hrun. simpl in Hrun.
  destruct (decide (0 < compar x y)%Z) as [Hgt|Hle].
  - destruct (swap_ok v a hi (S pj) pj) as (u & Eu & Hu & Lu); [lia..|]. rewrite Eu in Hrun. simpl in Hrun.
    apply (IH u); try done; [lia|by rewrite (within_length _ _ _ _ Hu)|].
    intros i' j' Hij' Hj' Hne x' y' E1 E2. rewrite Lu in E1, E2.
    rewrite (decide_False (P := j' = pj)) in E2 by lia.
    destruct (decide (j' = S pj)) as [->|].
    + rewrite (decide_False (P := i' = S pj)) in E1 by lia. destruct (decide (i' = pj)) as [->|].
      * pose proof (or_sign Hor y x). simplify_eq. lia.
      * eapply (Hord i' pj); [lia|lia|lia|done|done].
    + destruct (decide (i' = S pj)) as [->|]; [eapply (Hord pj j'); [lia|lia|lia|done|done]|].
      destruct (decide (i' = pj)) as [->|]; [eapply (Hord (S pj) j'); [lia|lia|lia|done|done]|].
      eapply (Hord i' j'); [lia|lia|lia|done|done].
  - simplify_eq. destruct (decide (j = S pj)) as [->|]; [|by apply Hord].
    intros x' y' E1 E2. simplify_eq. destruct (decide (i = pj)) as [->|]; [simplify_eq; lia|].
    apply (or_trans Hor x' x y); [|lia]. eapply (Hord i pj); [lia|lia|lia|done|done].
Qed.

Lemma insertion_sorted v a n w :
  ordered → a + n ≤ length v → insertion_sort compar v a n = Ok w →
  ∀ i j, a ≤ i < j → j < a + n → in_order w i j.
Proof.
  intros Hor Hl. unfold insertion_sort.
  enough (H : ∀ m, m ≤ n - 1 → ∀ w, foldM (λ v pi, sift compar v a pi) v (seq (a + 1) m) = Ok w →
    ∀ i j, a ≤ i < j → j ≤ a + m → in_order w i j).
  { intros Hrun i j Hij Hj. apply (H (n - 1)); [lia|done|done|lia]. }
  induction m as [|m IH]; intros Hm w' Hrun i j Hij Hj; [lia|].
  rewrite seq_S, foldM_app in Hrun. apply bind_Ok in Hrun as (u & Hu & Hrun). simpl in Hrun.
  apply bind_Ok in Hrun as (z & Hz & [= <-]).
  destruct (foldM_within a (a + n) (λ v pi, sift compar v a pi) v (seq (a + 1) m)) as (u' & Eu & Hw).
  { intros v' k Hk Hlen. apply elem_of_seq in Hk. apply sift_within; [lia|]. by rewrite Hlen. }
  assert (u' = u) as -> by congruence.
  eapply (sift_sorted a (a + n) (a + 1 + m) (a + 1 + m) u); [done|lia|lia| |  |done|done|lia].
  - by rewrite (within_length _ _ _ _ Hw).
  - intros i' j' Hij' Hj' Hne. apply (IH ltac:(lia) u Hu); [done|lia].
Qed.

(** ** The loop over the stack *)

Lemma sort_loop_split fuel v lo hi stack w less greater :
  7 ≤ hi - lo → 2 * length stack + 4 < CQ_STACKSIZ →
  split_range compar v lo (hi - lo) = Ok (w, less, greater) →
  sort_loop compar (S fuel) v ((lo, hi) :: stack) =
    sort_loop compar fuel w (if decide (less = 0 ∧ greater = 0) then stack else push_parts lo hi less greater stack).
Proof.
  intros Hn Hs E. cbn [sort_loop]. rewrite decide_False by lia. rewrite E. cbn [mbind res_bind].
  destruct (decide (less = 0 ∧ greater = 0)); [done|]. rewrite (decide_True _ _ Hs).
  unfold push_parts. by destruct (decide (less < greater)).
Qed.

Lemma sorted_but_mono v s1 s2 : (∀ r, r ∈ s1 → r.1 + 1 < r.2 → r ∈ s2) → sorted_but v s1 → sorted_but v s2.
Proof.
  intros Hsub Hs i j Hij. destruct (Hs i j Hij) as [|(lo & hi & Hr & H1 & H2)]; [by left|right].
  exists lo, hi. split; [|done]. apply (Hsub _ Hr). simpl. lia.
Qed.

Lemma sort_loop_ok fuel v stack :
  stack_ok (length v) stack → (Z.of_nat (length v) < 2 ^ 64)%Z → steps_left stack ≤ fuel →
  ∃ w, sort_loop compar fuel v stack = Ok w ∧ w ≡ₚ v ∧ (ordered → sorted_but v stack → sorted_but w []).
Proof.
  revert v stack. induction fuel as [|fuel IH]; intros v [|[lo hi] stack] Hst HN Hf.
  1,3: by exists v. { simpl in Hf. lia. }
  destruct (decide (hi - lo < 7)) as [Hn|Hn].
  - destruct (insertion_within v lo (hi - lo)) as (u & Eu & Hu); [destruct Hst; lia|].
    destruct (IH u stack) as (w & Ew & Hp & Hs).
    { rewrite (within_length _ _ _ _ Hu). apply Hst. }
    { by rewrite (within_length _ _ _ _ Hu). }
    { simpl in Hf. lia. }
    exists w. cbn [sort_loop]. rewrite decide_True by done. rewrite Eu. cbn [mbind res_bind].
    split_and!; [done|by rewrite Hp, (wi_perm _ _ _ _ Hu)|]. intros Hor Hv. apply Hs; [done|].
    replace (lo + (hi - lo)) with hi in Hu by (destruct Hst; lia). intros i j Hij.
    destruct (decide (lo ≤ i ∧ j < hi)) as [[H1 H2]|Hno].
    + left. apply (insertion_sorted v lo (hi - lo)); [done|destruct Hst; lia|done|lia|lia].
    + by eapply sorted_within.
  - destruct (split_range_ok v lo (hi - lo)) as (u & less & greater & p & Eu & Hu & Hlt & Hsp);
      [lia|destruct Hst; lia|].
    replace (lo + (hi - lo)) with hi in Hu, Hsp by (destruct Hst; lia).
    pose proof (stack_fits _ _ _ _ HN Hst ltac:(lia)) as Hfit.
    rewrite (sort_loop_split _ _ _ _ _ u less greater) by (done || lia).
    destruct (push_parts_ok _ _ _ _ _ _ Hst Hlt) as [Hst' Hst2].
    destruct (IH u (if decide (less = 0 ∧ greater = 0) then stack else push_parts lo hi less greater stack))
      as (w & -> & Hp & Hs).
    { rewrite (within_length _ _ _ _ Hu). destruct (decide _); [apply Hst|done]. }
    { by rewrite (within_length _ _ _ _ Hu). }
    { destruct (decide _); [simpl in Hf; lia|lia]. }
    exists w. split_and!; [done|by rewrite Hp, (wi_perm _ _ _ _ Hu)|]. intros Hor Hv. apply Hs; [done|].
    pose proof (sorted_split _ _ _ _ _ _ _ _ _ Hor Hst Hv Hu Hlt Hsp) as Hsort.
    destruct (decide (less = 0 ∧ greater = 0)) as [[-> ->]|]; [|done].
    eapply sorted_but_mono; [|exact Hsort]. intros r. unfold push_parts. simpl.
    rewrite (decide_False (P := hi - 0 ≠ hi)) by lia. rewrite elem_of_cons. intros [->|]; [simpl; lia|done].
Qed.

Lemma qsort_runs v :
  (Z.of_nat (length v) < 2 ^ 64)%Z →
  ∃ w, click_qsort compar v = Ok w ∧ w ≡ₚ v ∧ (ordered → sorted_but w []).
Proof.
  intros HN. destruct (sort_loop_ok (2 * length v + 2) v [(0, length v)]) as (w & E & Hp & Hs).
  - simpl. split_and!; [lia..| |done]. intros lo hi Hin. by apply not_elem_of_nil in Hin.
  - done.
  - simpl. lia.
  - exists w. split_and!; [done|done|]. intros Hor. apply Hs; [done|]. intros i j Hij.
    destruct (decide (j < length v)).
    + right. exists 0, (length v). split; [left|lia].
    + left. intros x y _ Ey. apply lookup_lt_Some in Ey. lia.
Qed.

(** C16: Sorting an array always ends, whatever the comparison returns for
    two elements, even when it is no order: the result holds exactly the given
    elements, no place outside the array is read or written, and the stack of
    ranges, which is of fixed size, never overflows. *)
Theorem qsort_any_comparison v :
  (Z.of_nat (length v) < 2 ^ 64)%Z → ∃ w, click_qsort compar v = Ok w ∧ w ≡ₚ v.
Proof. intros HN. destruct (qsort_runs v HN) as (w & E & Hp & _). eauto. Qed.

(** C24: When the comparison is an order, the array is sorted by it afterwards,
    and holds the elements it held before. *)
Theorem qsort_sorts v w :
  ordered → (Z.of_nat (length v) < 2 ^ 64)%Z → click_qsort compar v = Ok w →
  w ≡ₚ v ∧ ∀ i j x y, i < j → w !! i = Some x → w !! j = Some y → (compar x y ≤ 0)%Z.
Proof.
  intros Hor HN E. destruct (qsort_runs v HN) as (w' & E' & Hp & Hs).
  assert (w' = w) as -> by congruence. split; [done|].
  intros i j x y Hij Ex Ey. destruct (Hs Hor i j Hij) as [Ho|(lo & hi & Hin & _)]; [exact (Ho x y Ex Ey)|].
  by apply not_elem_of_nil in Hin.
Qed.

End spec.

(** ** Evaluation *)

(** A comparison that calls every element the greater one. *)
Lemma qsort_any_comparison_witness :
  ∃ w, click_qsort (λ _ _ : nat, 1%Z) (seq 0 50) = Ok w ∧ w ≡ₚ seq 0 50.
Proof. apply (qsort_any_comparison (λ _ _ : nat, 1%Z) (seq 0 50)). by vm_compute. Defined.

Definition by_value (x y : Z) : Z := (x - y)%Z.

Lemma by_value_ordered : ordered by_value.
Proof. split; unfold by_value; intros; lia. Qed.

Definition demo_input : list Z := [31; 4; 15; 92; 65; 35; 89; 79; 32; 38; 46; 26; 43; 38; 32; 79]%Z.
Definition demo_sorted : list Z := [4; 15; 26; 31; 32; 32; 35; 38; 38; 43; 46; 65; 79; 79; 89; 92]%Z.

Lemma demo_run : click_qsort by_value demo_input = Ok demo_sorted.
Proof. vm_compute. reflexivity. Qed.

Lemma qsort_sorts_witness :
  demo_sorted ≡ₚ demo_input ∧
  ∀ i j x y, i < j → demo_sorted !! i = Some x → demo_sorted !! j = Some y → (by_value x y ≤ 0)%Z.
Proof.
  apply (qsort_sorts by_value); [apply by_value_ordered|by vm_compute|apply demo_run].
Defined.
