(* ===== verification/XArpTable.v ===== *)
(** * XArpTable: the table of neighbours (elements/xia/xarptable.{cc,hh})

    The table maps the XIDs of neighbours to Ethernet addresses.  Packets for a
    neighbour whose address is not known wait in the queue of its entry.  Every
    entry is in a hash table and in the list [_age], from the entry that was
    confirmed first to the one that was confirmed last; both link the same
    objects, so that the list holds the keys of the hash table.  A read of a key
    that the hash table does not hold is the use of a deleted entry.  Times are
    jiffies, milliseconds in an unsigned 32-bit counter that wraps around. *)

From Stdlib Require Import ZArith Lia.
From stdpp Require Import base gmap sets list.
From S2P Require Import Prelude XiaPath XidText XiaHeader RouteTable.

Local Open Scope Z_scope.

(** ** Times and addresses *)

Definition CLICK_HZ : Z := 1000.
Definition EAGAIN : Z := 11.
Definition ENOMEM : Z := 12.

(** [click_jiffies_less]: the sign of the difference as a signed integer. *)
Definition click_jiffies_less (a b : Z) : bool := i32 (u32 (a - b)) <? 0.

(** An Ethernet address, its six bytes. *)
Abbreviation EtherAddress := (list Z).
Definition make_broadcast : EtherAddress := replicate 6 255.
Definition is_broadcast (e : EtherAddress) : bool := bool_decide (e = make_broadcast).
Definition is_group (e : EtherAddress) : bool := match e with b :: _ => Z.odd b | [] => false end.

(** ** Entries *)

(** [_queue] holds the packets from [_head] to [_tail]. *)
Record XARPEntry {P : Type} := mkXEntry {
  _xid : Xid;
  _eth : EtherAddress;
  _known : bool;
  _live_at_j : Z;
  _polled_at_j : Z;
  _queue : list P }.
Arguments XARPEntry P : clear implicits.

(** ** The table *)

Record XARPTable {P : Type} := mkXTable {
  _table : gmap Xid (XARPEntry P);
  _age : list Xid;
  _entry_count : Z;
  _packet_count : Z;
  _entry_capacity : Z;
  _packet_capacity : Z;
  _timeout_j : Z;
  _drops : Z;
  _expire_timer : option Z }.     (* the seconds it is scheduled after *)
Arguments XARPTable P : clear implicits.

(** An interval, as its seconds and the milliseconds of its fraction. *)
Record Timestamp := mkStamp { sec : Z; msec : Z }.
Definition jiffies (t : Timestamp) : Z := u32 (sec t * CLICK_HZ + msec t).

Section table.
Context {P : Type}.
Implicit Types (t : XARPTable P) (ae : XARPEntry P) (now : Z) (x : Xid).

Definition expired ae now (timeout_j : Z) : bool :=
  click_jiffies_less (u32 (_live_at_j ae + timeout_j)) now && negb (timeout_j =? 0).

Definition known ae now (timeout_j : Z) : bool := _known ae && negb (expired ae now timeout_j).

Definition new_XARPEntry x : XARPEntry P := mkXEntry P x make_broadcast false 0 0 [].

Definition with_queue ae (q : list P) : XARPEntry P :=
  mkXEntry P (_xid ae) (_eth ae) (_known ae) (_live_at_j ae) (_polled_at_j ae) q.
Definition with_live ae (l : Z) : XARPEntry P :=
  mkXEntry P (_xid ae) (_eth ae) (_known ae) l (_polled_at_j ae) (_queue ae).
Definition with_polled ae (l : Z) : XARPEntry P :=
  mkXEntry P (_xid ae) (_eth ae) (_known ae) (_live_at_j ae) l (_queue ae).

Definition with_entries t (m : gmap Xid (XARPEntry P)) (age : list Xid) : XARPTable P :=
  mkXTable P m age (_entry_count t) (_packet_count t) (_entry_capacity t) (_packet_capacity t)
    (_timeout_j t) (_drops t) (_expire_timer t).
Definition with_counts t (entries packets drops : Z) : XARPTable P :=
  mkXTable P (_table t) (_age t) entries packets (_entry_capacity t) (_packet_capacity t)
    (_timeout_j t) drops (_expire_timer t).
Definition with_expire_timer t (s : option Z) : XARPTable P :=
  mkXTable P (_table t) (_age t) (_entry_count t) (_packet_count t) (_entry_capacity t)
    (_packet_capacity t) (_timeout_j t) (_drops t) s.

(** Writing through a pointer to an entry. *)
Definition write_entry t ae : XARPTable P := with_entries t (<[_xid ae := ae]> (_table t)) (_age t).
Definition table_entry_at t x : res (XARPEntry P) :=
  match _table t !! x with Some ae => Ok ae | None => Ub NullDeref end.

(** *** Configuration *)

Definition set_capacity t (capacity : Z) : XARPTable P :=
  mkXTable P (_table t) (_age t) (_entry_count t) (_packet_count t) (_entry_capacity t) capacity
    (_timeout_j t) (_drops t) (_expire_timer t).
Definition set_entry_capacity t (entry_capacity : Z) : XARPTable P :=
  mkXTable P (_table t) (_age t) (_entry_count t) (_packet_count t) entry_capacity
    (_packet_capacity t) (_timeout_j t) (_drops t) (_expire_timer t).
Definition set_timeout t (timeout : Timestamp) : XARPTable P :=
  mkXTable P (_table t) (_age t) (_entry_count t) (_packet_count t) (_entry_capacity t)
    (_packet_capacity t)
    (if decide (4294967295 `div` CLICK_HZ ≤ u32 (sec timeout)) then 0 else jiffies timeout)
    (_drops t) (_expire_timer t).

(** The constructor, and [configure] with the values [Args] has read. *)
Definition new_XARPTable : XARPTable P := mkXTable P ∅ [] 0 0 0 2048 0 0 None.

Definition XARPTable_configure t (capacity entry_capacity : option Z) (timeout : option Timestamp) :
    XARPTable P :=
  let t := set_capacity t (default (_packet_capacity t) capacity) in
  let t := set_entry_capacity t (default (_entry_capacity t) entry_capacity) in
  let t := set_timeout t (default (mkStamp 300 0) timeout) in
  if decide (_timeout_j t = 0) then t
  else with_expire_timer t (Some (_timeout_j t `div` CLICK_HZ)).

(** *** Deleting entries and packets *)

(** The packets of a deleted entry are killed. *)
Fixpoint kill_all (packets drops : Z) (q : list P) : Z * Z :=
  match q with
  | [] => (packets, drops)
  | _ :: q => kill_all (u32 (packets - 1)) (u32 (drops + 1)) q
  end.

(** The first loop of [slim], along the list. *)
Fixpoint delete_old t now (age : list Xid) : res (XARPTable P) :=
  match age with
  | [] => Ok (with_entries t (_table t) [])
  | x :: rest =>
      ae ← table_entry_at t x;
      if expired ae now (_timeout_j t)
         || (negb (_entry_capacity t =? 0) && (_entry_capacity t <? _entry_count t))
      then
        let '(packets, drops) := kill_all (_packet_count t) (_drops t) (_queue ae) in
        let t := with_entries t (delete (_xid ae) (_table t)) rest in
        delete_old (with_counts t (u32 (_entry_count t - 1)) packets drops) now rest
      else Ok (with_entries t (_table t) age)
  end.

Definition too_many t : bool :=
  negb (_packet_capacity t =? 0) && (_packet_capacity t <? _packet_count t).

(** The loop over the packets of one entry: the oldest are killed. *)
Fixpoint kill_some (cap packets drops : Z) (q : list P) : Z * Z * list P :=
  match q with
  | [] => (packets, drops, [])
  | _ :: q' =>
      if cap <? packets then kill_some cap (u32 (packets - 1)) (u32 (drops + 1)) q'
      else (packets, drops, q)
  end.

(** The second loop of [slim], from the first entry that is left. *)
Fixpoint make_space t (age : list Xid) : res (XARPTable P) :=
  if too_many t then
    match age with
    | [] => Ub NullDeref
    | x :: rest =>
        ae ← table_entry_at t x;
        let '(packets, drops, q) :=
          kill_some (_packet_capacity t) (_packet_count t) (_drops t) (_queue ae) in
        make_space (with_counts (write_entry t (with_queue ae q)) (_entry_count t) packets drops) rest
    end
  else Ok t.

Definition slim t now : res (XARPTable P) :=
  t ← delete_old t now (_age t);
  make_space t (_age t).

Definition XARPTable_run_timer t now : res (XARPTable P) :=
  t ← slim t now;
  Ok (if decide (_timeout_j t = 0) then with_expire_timer t None
      else with_expire_timer t (Some (_timeout_j t `div` CLICK_HZ + 1))).

(** [clear] walks the hash table, in the order of the list given. *)
Definition XARPTable_clear t (order : list Xid) : XARPTable P :=
  let drops := fold_left (λ d x,
    match _table t !! x with Some ae => (kill_all 0 d (_queue ae)).2 | None => d end) order (_drops t) in
  with_counts (with_entries t ∅ []) 0 0 drops.

(** *** Entries for an address *)

(** [mem]: memory for an entry can be allocated. *)
Definition ensure (mem : bool) t x now : res (option (XARPTable P)) :=
  match _table t !! x with
  | Some _ => Ok (Some t)
  | None =>
      if mem then
        let t := with_counts t (u32 (_entry_count t + 1)) (_packet_count t) (_drops t) in
        t ← (if negb (_entry_capacity t =? 0) && (_entry_capacity t <? _entry_count t)
             then slim t now else Ok t);
        let ae := with_polled (with_live (new_XARPEntry x) now) (u32 (now - CLICK_HZ)) in
        Ok (Some (with_entries t (<[x := ae]> (_table t)) (_age t ++ [x])))
      else Ok None
  end.

(** [insert]: the packets that were waiting, when the caller asks for them.
    The position in the list changes when the entry is not the last. *)
Definition XARPTable_insert (mem : bool) t x (eth : EtherAddress) (head : bool) now :
    res (Z * XARPTable P * option (list P)) :=
  o ← ensure mem t x now;
  match o with
  | None => Ok (- ENOMEM, t, None)
  | Some t =>
      ae ← table_entry_at t x;
      let ae := mkXEntry P (_xid ae) eth (negb (is_broadcast eth)) now (u32 (now - CLICK_HZ)) (_queue ae) in
      let age := if decide (last (_age t) = Some x) then _age t
                 else filter (λ y, y ≠ x) (_age t) ++ [x] in
      if head then
        let n := (kill_all (_packet_count t) 0 (_queue ae)).1 in
        let t := with_entries t (<[x := with_queue ae []]> (_table t)) age in
        Ok (0, with_counts t (_entry_count t) n (_drops t), Some (_queue ae))
      else Ok (0, with_entries t (<[x := ae]> (_table t)) age, None)
  end.

(** The list from the entry after [x]. *)
Fixpoint age_after x (age : list Xid) : list Xid :=
  match age with
  | [] => []
  | y :: rest => if decide (y = x) then rest else age_after x rest
  end.

(** The list up to the entry before [x]. *)
Fixpoint age_before x (age : list Xid) : list Xid :=
  match age with
  | [] => []
  | y :: rest => if decide (y = x) then [] else y :: age_before x rest
  end.

(** Walking forward over the entries that were confirmed before [live]: the
    entries that are passed, and those that are left. *)
Fixpoint age_walk t (live : Z) (age : list Xid) : res (list Xid * list Xid) :=
  match age with
  | [] => Ok ([], [])
  | y :: rest =>
      ae ← table_entry_at t y;
      if click_jiffies_less (_live_at_j ae) live then
        r ← age_walk t live rest; Ok (y :: r.1, r.2)
      else Ok ([], age)
  end.

(** The entry stays this side of expiring, at its position in the list. *)
Definition keep_alive t ae now : res (XARPTable P) :=
  let live_at_j_min := u32 (now - _timeout_j t) in
  if click_jiffies_less (_live_at_j ae) live_at_j_min then
    let t := write_entry t (with_live ae live_at_j_min) in
    let x := _xid ae in
    w ← age_walk t live_at_j_min (age_after x (_age t));
    Ok (match w.1 with
        | [] => t
        | passed => with_entries t (_table t) (age_before x (_age t) ++ passed ++ x :: w.2)
        end)
  else Ok t.

(** [append_query]: -EAGAIN when the address is known, 1 when it is time to
    ask for it. *)
Definition append_query (mem : bool) t x (p : P) now : res (Z * XARPTable P) :=
  o ← ensure mem t x now;
  match o with
  | None => Ok (- ENOMEM, t)
  | Some t =>
      ae ← table_entry_at t x;
      if known ae now (_timeout_j t) then Ok (- EAGAIN, t)
      else
        t ← (if decide (_timeout_j t = 0) then Ok t else keep_alive t ae now);
        let t := with_counts t (_entry_count t) (u32 (_packet_count t + 1)) (_drops t) in
        t ← (if too_many t then slim t now else Ok t);
        ae ← table_entry_at t x;
        let ae := with_queue ae (_queue ae ++ [p]) in
        if negb (click_jiffies_less now (u32 (_polled_at_j ae + CLICK_HZ `div` 10)))
        then Ok (1, write_entry t (with_polled ae now))
        else Ok (0, write_entry t ae)
  end.

(** *** Lookups *)

(** -1 and nothing, or the address and whether it is time to ask again. *)
Definition lookup_entry t x (poll_timeout_j now : Z) : Z * option EtherAddress * XARPTable P :=
  match _table t !! x with
  | None => (-1, None, t)
  | Some ae =>
      if known ae now (_timeout_j t) then
        if negb (poll_timeout_j =? 0)
           && negb (click_jiffies_less now (u32 (_live_at_j ae + poll_timeout_j)))
           && negb (click_jiffies_less now (u32 (_polled_at_j ae + CLICK_HZ `div` 10)))
        then (1, Some (_eth ae), write_entry t (with_polled ae now))
        else (0, Some (_eth ae), t)
      else (-1, None, t)
  end.

Definition lookup_address t x now : EtherAddress :=
  match lookup_entry t x 0 now with
  | (r, Some eth, _) => if decide (0 ≤ r) then eth else make_broadcast
  | _ => make_broadcast
  end.

(** The first entry with the address, in the order of the hash table. *)
Fixpoint reverse_lookup t (order : list Xid) (eth : EtherAddress) : Xid :=
  match order with
  | [] => Xid_undef
  | x :: rest =>
      match _table t !! x with
      | Some ae => if decide (_eth ae = eth) then _xid ae else reverse_lookup t rest eth
      | None => reverse_lookup t rest eth
      end
  end.

(** *** Handlers *)

(** A new router takes the table of the old one; [late] is the error message. *)
Definition take_state t (xarpt : XARPTable P) : XARPTable P * XARPTable P * bool :=
  if decide (_table t = ∅) then
    let t' := mkXTable P (_table xarpt) (_age xarpt) (_entry_count xarpt) (_packet_count xarpt)
      (_entry_capacity t) (_packet_capacity t) (_timeout_j t) (_drops xarpt) (_expire_timer t) in
    let old := with_counts (with_entries xarpt (_table t) (_age t)) 0 0 (_drops xarpt) in
    (t', old, false)
  else (t, xarpt, true).

(** The write handlers, with the arguments [Args] has read, if it could. *)
Inductive table_command :=
  | h_insert (arg : option (Xid * EtherAddress))
  | h_delete (arg : option Xid)
  | h_clear (order : list Xid)
  | h_other.

Definition XARPTable_write_handler (mem : bool) t (c : table_command) now : res (Z * XARPTable P) :=
  match c with
  | h_insert (Some (x, eth)) => r ← XARPTable_insert mem t x eth false now; Ok (0, r.1.2)
  | h_delete (Some x) => r ← XARPTable_insert mem t x make_broadcast false now; Ok (0, r.1.2)
  | h_clear order => Ok (0, XARPTable_clear t order)
  | h_insert None | h_delete None | h_other => Ok (-1, t)
  end.

End table.
