(* ===== verification/XArpTableInv.v ===== *)
(** * XArpTableInv: the invariant of the table of neighbours

    The hash table and the list hold the same entries and the counters count
    them.  What [slim] leaves, that it never runs past the end of the list, and
    the entry that [ensure] returns. *)

From Stdlib Require Import ZArith Lia.
From stdpp Require Import base gmap sets list.
From S2P Require Import Prelude XiaPath XidText XiaHeader RouteTable XArpTable.

Local Open Scope Z_scope.

(** ** Counters that wrap around *)

Lemma u32_add_l a b : u32 (u32 a + b) = u32 (a + b).
Proof. apply Zplus_mod_idemp_l. Qed.
Lemma u32_sub_l a b : u32 (u32 a - b) = u32 (a - b).
Proof. apply Zminus_mod_idemp_l. Qed.
Lemma u32_range a : 0 ≤ u32 a < 2 ^ 32.
Proof. apply wrapU_range. lia. Qed.
Lemma u32_le a : 0 ≤ a → u32 a ≤ a.
Proof. intros. apply Z.mod_le; lia. Qed.
Lemma u32_id a : 0 ≤ a < 2 ^ 32 → u32 a = a.
Proof. apply wrapU_small. Qed.

Section spec.
Context {P : Type}.
Implicit Types (t : XARPTable P) (ae : XARPEntry P) (now : Z) (x y : Xid) (m : gmap Xid (XARPEntry P)).

(** ** The invariant *)

Definition qlen m x : Z := match m !! x with Some ae => Z.of_nat (length (_queue ae)) | None => 0 end.
Fixpoint total m (age : list Xid) : Z :=
  match age with [] => 0 | x :: age => qlen m x + total m age end.

(** The packets that wait. *)
Definition waiting t : Z := total (_table t) (_age t).

(** The hash table and the list hold the same entries, and an address that is
    known is not the broadcast address. *)
Record linked m (age : list Xid) : Prop := {
  lk_nodup : NoDup age;
  lk_age : ∀ x, x ∈ age ↔ is_Some (m !! x);
  lk_xid : ∀ x ae, m !! x = Some ae → _xid ae = x;
  lk_eth : ∀ x ae, m !! x = Some ae → _known ae = true → is_broadcast (_eth ae) = false }.

(** The counters are ahead of the table by [de] entries and [dp] packets. *)
Record table_at (de dp : Z) t : Prop := {
  at_linked : linked (_table t) (_age t);
  at_entries : _entry_count t = u32 (Z.of_nat (length (_age t)) + de);
  at_packets : _packet_count t = u32 (waiting t + dp) }.

Definition table_ok : XARPTable P → Prop := table_at 0 0.

Definition same_conf t t' : Prop :=
  _entry_capacity t' = _entry_capacity t ∧ _packet_capacity t' = _packet_capacity t ∧
  _timeout_j t' = _timeout_j t.

Lemma qlen_nonneg m x : 0 ≤ qlen m x.
Proof. unfold qlen. destruct (m !! x); lia. Qed.

Lemma total_nonneg m age : 0 ≤ total m age.
Proof. induction age as [|x age IH]; simpl; [lia|]. pose proof (qlen_nonneg m x). lia. Qed.

Lemma total_ext m m' age : (∀ x, x ∈ age → qlen m x = qlen m' x) → total m age = total m' age.
Proof.
  induction age as [|x age IH]; intros H; [done|]. simpl. rewrite IH.
  - f_equal. apply H. left.
  - intros y Hy. apply H. by right.
Qed.

Lemma total_app m a b : total m (a ++ b) = total m a + total m b.
Proof. induction a; simpl; lia. Qed.

Lemma total_perm m a b : a ≡ₚ b → total m a = total m b.
Proof. induction 1; simpl; lia. Qed.

Lemma qlen_insert m x ae y :
  qlen (<[x := ae]> m) y = if decide (y = x) then Z.of_nat (length (_queue ae)) else qlen m y.
Proof.
  unfold qlen. destruct (decide (y = x)) as [->|]; [by rewrite lookup_insert_eq|].
  by rewrite lookup_insert_ne.
Qed.

(** Writing one entry of a list without repetitions. *)
Lemma total_insert m x ae age :
  NoDup age → x ∈ age →
  total (<[x := ae]> m) age = total m age - qlen m x + Z.of_nat (length (_queue ae)).
Proof.
  intros Hnd Hx. apply list_elem_of_split in Hx as (a & b & ->).
  apply NoDup_app in Hnd as (_ & Ha & Hb). apply NoDup_cons in Hb as [Hb _].
  rewrite !total_app. simpl. rewrite qlen_insert, decide_True by done.
  rewrite (total_ext (<[x := ae]> m) m a), (total_ext (<[x := ae]> m) m b); [lia| |].
  - intros y Hy. rewrite qlen_insert, decide_False by (by intros ->). done.
  - intros y Hy. rewrite qlen_insert, decide_False; [done|]. intros ->. apply (Ha x Hy). left.
Qed.

Lemma total_insert_notin m x ae age : x ∉ age → total (<[x := ae]> m) age = total m age.
Proof.
  intros Hx. apply total_ext. intros y Hy. rewrite qlen_insert, decide_False; [done|]. by intros ->.
Qed.

Lemma linked_entry m age x : linked m age → x ∈ age → ∃ ae, m !! x = Some ae ∧ _xid ae = x.
Proof. intros [_ Ha Hx _] Hin. apply Ha in Hin as [ae E]. eauto. Qed.

(** An entry is replaced. *)
Lemma linked_insert m age x ae :
  linked m age → x ∈ age → _xid ae = x → (_known ae = true → is_broadcast (_eth ae) = false) →
  linked (<[x := ae]> m) age.
Proof.
  intros [Hnd Ha Hx He] Hin Hid Hk. split; [done| | |].
  - intros y. rewrite Ha. destruct (decide (y = x)) as [->|].
    + rewrite lookup_insert_eq. apply Ha in Hin. by split; eauto.
    + by rewrite lookup_insert_ne.
  - intros y ae' [[<- <-]|[_ E]]%lookup_insert_Some; [done|eauto].
  - intros y ae' [[<- <-]|[_ E]]%lookup_insert_Some; [done|eauto].
Qed.

(** An entry is added. *)
Lemma linked_add m age x ae :
  linked m age → m !! x = None → _xid ae = x → _known ae = false → linked (<[x := ae]> m) (age ++ [x]).
Proof.
  intros [Hnd Ha Hx He] Hno Hid Hk.
  assert (Hin : x ∉ age) by (rewrite Ha, Hno; by intros []).
  split.
  - apply NoDup_app. split; [done|]. split; [|apply NoDup_singleton]. set_solver.
  - intros y. destruct (decide (y = x)) as [->|].
    + rewrite lookup_insert_eq. set_solver.
    + rewrite lookup_insert_ne, elem_of_app, Ha by done. set_solver.
  - intros y ae' [[<- <-]|[_ E]]%lookup_insert_Some; [done|eauto].
  - intros y ae' [[<- <-]|[_ E]]%lookup_insert_Some; [congruence|eauto].
Qed.

(** The first entry of the list is deleted. *)
Lemma linked_pop m age x : linked m (x :: age) → linked (delete x m) age.
Proof.
  intros [Hnd Ha Hx He]. apply NoDup_cons in Hnd as [Hin Hnd]. split; [done| | |].
  - intros y. destruct (decide (y = x)) as [->|].
    + rewrite lookup_delete_eq. split; [done|by intros []].
    + rewrite lookup_delete_ne, <- Ha by done. set_solver.
  - intros y ae [_ E]%lookup_delete_Some. eauto.
  - intros y ae [_ E]%lookup_delete_Some. eauto.
Qed.

Lemma total_delete m x age : x ∉ age → total (delete x m) age = total m age.
Proof.
  intros Hx. apply total_ext. intros y Hy. unfold qlen. rewrite lookup_delete_ne; [done|]. by intros <-.
Qed.

(** The list is put into another order. *)
Lemma linked_perm m a b : a ≡ₚ b → linked m a → linked m b.
Proof.
  intros Hp [Hnd Ha Hx He]. split; [by rewrite <- Hp| |done|done]. intros x. by rewrite <- Hp.
Qed.

(** ** The loops of [slim] *)

Lemma kill_all_packets a d (q : list P) : (kill_all (u32 a) d q).1 = u32 (a - Z.of_nat (length q)).
Proof.
  revert a d. induction q as [|p q IH]; intros a d; simpl; [f_equal; lia|].
  rewrite u32_sub_l, IH. f_equal. lia.
Qed.

Lemma kill_some_packets cap a d (q : list P) :
  0 ≤ cap → ∃ k d', (k <= length q)%nat ∧
    kill_some cap (u32 a) d q = (u32 (a - Z.of_nat k), d', drop k q) ∧
    ((k < length q)%nat → u32 (a - Z.of_nat k) ≤ cap) ∧
    (u32 a ≤ cap → k = 0%nat) ∧ u32 (a - Z.of_nat k) = u32 a - Z.of_nat k.
Proof.
  intros Hc. revert a d. induction q as [|p q IH]; intros a d; simpl.
  { exists 0%nat, d. rewrite Z.sub_0_r. simpl. split_and!; done || lia. }
  destruct (cap <? u32 a) eqn:E.
  - apply Z.ltb_lt in E. rewrite u32_sub_l.
    destruct (IH (a - 1) (u32 (d + 1))) as (k & d' & Hk & Hr & Hle & Hz & He). exists (S k), d'.
    replace (a - Z.of_nat (S k)) with (a - 1 - Z.of_nat k) by lia.
    assert (H1 : u32 (a - 1) = u32 a - 1).
    { rewrite <- u32_sub_l. apply u32_id. pose proof (u32_range a). lia. }
    split_and!; [lia|done|intros; apply Hle; lia|lia|lia].
  - apply Z.ltb_ge in E. exists 0%nat, d. rewrite Z.sub_0_r. simpl. split_and!; done || lia.
Qed.

Definition over t : bool :=
  negb (_entry_capacity t =? 0) && (_entry_capacity t <? _entry_count t).

Lemma over_false t : over t = false ↔ _entry_capacity t = 0 ∨ _entry_count t ≤ _entry_capacity t.
Proof.
  unfold over. rewrite andb_false_iff, negb_false_iff, Z.eqb_eq, Z.ltb_ge. done.
Qed.

Lemma too_many_false t : too_many t = false ↔ _packet_capacity t = 0 ∨ _packet_count t ≤ _packet_capacity t.
Proof.
  unfold too_many. rewrite andb_false_iff, negb_false_iff, Z.eqb_eq, Z.ltb_ge. done.
Qed.

Lemma same_conf_refl t : same_conf t t.
Proof. done. Qed.

Lemma same_conf_trans t1 t2 t3 : same_conf t1 t2 → same_conf t2 t3 → same_conf t1 t3.
Proof. intros (?&?&?) (?&?&?). split_and!; congruence. Qed.

(** The state after the first entry of the list is deleted. *)
Definition popped t x rest ae : XARPTable P :=
  let k := kill_all (_packet_count t) (_drops t) (_queue ae) in
  with_counts (with_entries t (delete (_xid ae) (_table t)) rest) (u32 (_entry_count t - 1)) k.1 k.2.

Lemma delete_old_cons t now x rest ae :
  _table t !! x = Some ae →
  delete_old t now (x :: rest) =
    if expired ae now (_timeout_j t) || over t then delete_old (popped t x rest ae) now rest
    else Ok (with_entries t (_table t) (x :: rest)).
Proof.
  intros E. simpl. unfold table_entry_at. rewrite E. simpl. unfold over, popped.
  by destruct (kill_all _ _ _).
Qed.

Lemma popped_at de dp t x rest ae :
  _age t = x :: rest → table_at de dp t → _table t !! x = Some ae → table_at de dp (popped t x rest ae).
Proof.
  intros Ha [Hl He Hp] E. rewrite Ha in *. pose proof (lk_xid _ _ Hl x ae E) as Hid.
  split; simpl; rewrite ?Hid.
  - by apply linked_pop.
  - rewrite He, u32_sub_l. simpl. f_equal. lia.
  - rewrite Hp, kill_all_packets. unfold waiting. rewrite Ha. simpl. rewrite total_delete.
    + unfold qlen. rewrite E. f_equal. lia.
    + rewrite Hid. apply lk_nodup in Hl. by apply NoDup_cons in Hl as [? _].
Qed.

Lemma delete_old_ok de dp now age t :
  _age t = age → table_at de dp t →
  ∃ t' k, delete_old t now age = Ok t' ∧ table_at de dp t' ∧ same_conf t t' ∧
    _age t' = drop k age ∧
    (∀ x, x ∈ _age t' → _table t' !! x = _table t !! x) ∧
    (∀ x ae, head (_age t') = Some x → _table t' !! x = Some ae →
       expired ae now (_timeout_j t') = false ∧ over t' = false).
Proof.
  revert t. induction age as [|x rest IH]; intros t Ha Ht.
  { exists t, 0%nat. simpl. destruct t; simpl in *; subst. split_and!; try done. }
  destruct Ht as [Hl He Hp]. pose proof (linked_entry _ _ x Hl) as (ae & E & Hid); [rewrite Ha; left|].
  rewrite (delete_old_cons t now x rest ae E).
  destruct (expired ae now (_timeout_j t) || over t) eqn:Eo.
  - destruct (IH (popped t x rest ae)) as (t' & k & H1 & H2 & H3 & H4 & H5 & H6);
      [done|by apply popped_at|]. exists t', (S k).
    split_and!; [done|done|by apply H3..|done| |done].
    intros y Hy. rewrite (H5 y Hy). simpl. rewrite Hid, lookup_delete_ne; [done|]. intros <-.
    rewrite H4 in Hy. apply lk_nodup in Hl. rewrite Ha in Hl. apply NoDup_cons in Hl as [Hn _].
    apply Hn. rewrite <- (take_drop k rest). apply elem_of_app. by right.
  - apply orb_false_iff in Eo as [E1 E2]. exists t, 0%nat. simpl.
    assert (with_entries t (_table t) (x :: rest) = t) as -> by (destruct t; simpl in *; by subst).
    split_and!; try done. rewrite Ha. simpl. intros y ae' [= <-] E'. by simplify_eq.
Qed.

(** With room for the entries only the expired ones are deleted. *)
Lemma delete_old_keeps de dp now age t t' x ae :
  _age t = age → table_at de dp t → 0 ≤ de →
  (_entry_capacity t = 0 ∨ Z.of_nat (length age) + de ≤ _entry_capacity t) →
  delete_old t now age = Ok t' →
  _table t !! x = Some ae → expired ae now (_timeout_j t) = false →
  _table t' !! x = Some ae.
Proof.
  revert t. induction age as [|y rest IH]; intros t Ha Ht Hde Hroom Hrun Ex Hex.
  { apply at_linked in Ht. assert (x ∈ _age t) as Hin by (apply (lk_age _ _ Ht); eauto).
    rewrite Ha in Hin. by apply not_elem_of_nil in Hin. }
  pose proof (linked_entry _ _ y (at_linked _ _ _ Ht)) as (ae' & E & Hid); [rewrite Ha; left|].
  assert (Ho : over t = false).
  { apply over_false. destruct Hroom as [|Hroom]; [by left|right].
    rewrite (at_entries _ _ _ Ht), Ha. etrans; [apply u32_le; lia|done]. }
  rewrite (delete_old_cons t now y rest ae' E), Ho, orb_false_r in Hrun.
  destruct (expired ae' now (_timeout_j t)) eqn:Ey; [|by simplify_eq].
  assert (x ≠ y) as Hne by (intros ->; congruence).
  eapply (IH (popped t y rest ae')); [done|by apply popped_at|done| |done| |done]; simpl in *.
  - destruct Hroom; [by left|right; lia].
  - by rewrite Hid, lookup_delete_ne.
Qed.

(** The state after packets of the entry [x] are killed. *)
Lemma space_at de dp t x ae k d' :
  table_at de dp t → _table t !! x = Some ae → (k <= length (_queue ae))%nat →
  table_at de dp (with_counts (write_entry t (with_queue ae (drop k (_queue ae)))) (_entry_count t)
                    (u32 (waiting t + dp - Z.of_nat k)) d').
Proof.
  intros [Hl He Hp] E Hk. pose proof (lk_xid _ _ Hl x ae E) as Hid.
  assert (x ∈ _age t) as Hin by (apply (lk_age _ _ Hl); eauto).
  split; simpl; rewrite ?Hid; [|done|].
  - apply linked_insert; [done..|]. apply (lk_eth _ _ Hl x ae E).
  - unfold waiting. simpl. rewrite Hid, total_insert by (done || apply Hl). simpl.
    unfold qlen. rewrite E, length_drop. f_equal. lia.
Qed.

Lemma make_space_cons t x rest ae :
  _table t !! x = Some ae →
  make_space t (x :: rest) =
    if too_many t then
      let k := kill_some (_packet_capacity t) (_packet_count t) (_drops t) (_queue ae) in
      make_space (with_counts (write_entry t (with_queue ae k.2)) (_entry_count t) k.1.1 k.1.2) rest
    else Ok t.
Proof.
  intros E. simpl. unfold table_entry_at. rewrite E. simpl. by destruct (kill_some _ _ _ _) as [[] ?].
Qed.

(** The entries are the same, without the oldest of their packets. *)
Definition shortened t t' : Prop :=
  _age t' = _age t ∧
  ∀ x ae, _table t !! x = Some ae → ∃ k, _table t' !! x = Some (with_queue ae (drop k (_queue ae))).

Lemma shortened_refl t : shortened t t.
Proof. split; [done|]. intros x ae E. exists 0%nat. rewrite E. by destruct ae. Qed.

Lemma shortened_trans t1 t2 t3 : shortened t1 t2 → shortened t2 t3 → shortened t1 t3.
Proof.
  intros [A1 H1] [A2 H2]. split; [congruence|]. intros x ae E.
  destruct (H1 x ae E) as [k E']. destruct (H2 x _ E') as [k' E'']. exists (k + k')%nat.
  rewrite E''. simpl. by rewrite drop_drop.
Qed.

Lemma shortened_write t x ae k n c d :
  _table t !! x = Some ae → _xid ae = x →
  shortened t (with_counts (write_entry t (with_queue ae (drop k (_queue ae)))) n c d).
Proof.
  intros E Hid. split; [done|]. intros y ae' E'. simpl. rewrite Hid.
  destruct (decide (y = x)) as [->|].
  - rewrite lookup_insert_eq. exists k. by simplify_eq.
  - rewrite lookup_insert_ne by done. exists 0%nat. rewrite E'. by destruct ae'.
Qed.

Lemma make_space_ok de dp age t :
  table_at de dp t → 0 ≤ _packet_capacity t → NoDup age → (∀ x, x ∈ age → x ∈ _age t) →
  (_packet_capacity t = 0 ∨ _packet_count t - _packet_capacity t ≤ total (_table t) age) →
  ∃ t', make_space t age = Ok t' ∧ table_at de dp t' ∧ same_conf t t' ∧
    too_many t' = false ∧ shortened t t'.
Proof.
  revert t. induction age as [|x rest IH]; intros t Ht Hc Hnd Hsub Hsum.
  { assert (Hm : too_many t = false) by (apply too_many_false; simpl in Hsum; lia).
    exists t. simpl. rewrite Hm. split_and!; try done. apply shortened_refl. }
  pose proof (linked_entry _ _ x (at_linked _ _ _ Ht)) as (ae & E & Hid); [apply Hsub; left|].
  rewrite (make_space_cons t x rest ae E).
  destruct (too_many t) eqn:Hm; [|exists t; split_and!; try done; apply shortened_refl].
  destruct (kill_some_packets (_packet_capacity t) (waiting t + dp) (_drops t) (_queue ae) Hc)
    as (k & d' & Hk & Hr & Hle & _ & Hcnt).
  rewrite (at_packets _ _ _ Ht), Hr. simpl.
  set (t1 := with_counts _ _ _ _).
  assert (Ht1 : table_at de dp t1) by (by apply (space_at de dp t x)).
  apply NoDup_cons in Hnd as [Hx Hnd].
  destruct (IH t1) as (t' & H1 & H2 & H3 & H4 & H5); [done|done|done| | |].
  - intros y Hy. apply Hsub. by right.
  - destruct Hsum as [|Hsum]; [by left|]. right. simpl in *. rewrite Hid, total_insert_notin by done.
    rewrite (at_packets _ _ _ Ht) in Hsum. unfold qlen in Hsum. rewrite E in Hsum.
    pose proof (total_nonneg (_table t) rest). destruct (decide (k < length (_queue ae))%nat) as [Hlt|].
    + specialize (Hle Hlt). lia.
    + rewrite Hcnt. lia.
  - exists t'. split_and!; [done|done|by apply H3..|done|].
    eapply shortened_trans; [by apply (shortened_write t x)|done].
Qed.

(** ** [slim] *)

(** The values of the configuration are 32-bit; a capacity of 2^32 - 1 would
    let the counter wrap around before it is compared. *)
Record conf_ok t : Prop := {
  cf_entries : 0 ≤ _entry_capacity t < 2 ^ 32 - 1;
  cf_packets : 0 ≤ _packet_capacity t < 2 ^ 32 - 1 }.

Lemma conf_ok_same t t' : same_conf t t' → conf_ok t → conf_ok t'.
Proof. intros (E1 & E2 & _) [H1 H2]. split; congruence. Qed.

(** The second loop never runs past the end of the list. *)
Lemma make_space_all de dp t :
  table_at de dp t → conf_ok t → 0 ≤ dp ≤ 1 →
  ∃ t', make_space t (_age t) = Ok t' ∧ table_at de dp t' ∧ same_conf t t' ∧
    too_many t' = false ∧ shortened t t'.
Proof.
  intros Ht Hc Hdp. apply make_space_ok; [done|apply Hc|apply Ht|done|].
  pose proof (cf_packets _ Hc). destruct (decide (_packet_capacity t = 0)); [by left|right].
  rewrite (at_packets _ _ _ Ht). pose proof (total_nonneg (_table t) (_age t)).
  unfold waiting. pose proof (u32_le (total (_table t) (_age t) + dp)). lia.
Qed.

(** What [slim] leaves of a table. *)
Record slimmed (de dp : Z) now t t' : Prop := {
  sl_at : table_at de dp t';
  sl_conf : same_conf t t';
  sl_packets : too_many t' = false;
  sl_entries : _age t' = [] ∨ over t' = false;
  sl_suffix : ∃ k, _age t' = drop k (_age t);
  sl_kept : ∀ x, x ∈ _age t' → ∃ ae k, _table t !! x = Some ae ∧
              _table t' !! x = Some (with_queue ae (drop k (_queue ae))) }.

Lemma slim_ok de dp now t :
  table_at de dp t → conf_ok t → 0 ≤ dp ≤ 1 → ∃ t', slim t now = Ok t' ∧ slimmed de dp now t t'.
Proof.
  intros Ht Hc Hdp. unfold slim.
  destruct (delete_old_ok de dp now (_age t) t) as (t1 & k & -> & H1 & Hconf & Hage & Hsame & Hhead);
    [done..|]. simpl.
  destruct (make_space_all de dp t1) as (t2 & E2 & H2 & Hconf2 & Hm & Hage2 & Hs);
    [done|by eapply conf_ok_same|done|].
  exists t2. split; [done|]. split; [done|by eapply same_conf_trans|done| | |].
  - rewrite Hage2. destruct (_age t1) as [|x rest] eqn:Ea; [by left|right].
    destruct (linked_entry _ _ x (at_linked _ _ _ H1)) as (ae & E & _); [rewrite Ea; left|].
    destruct (Hhead x ae) as [_ Ho]; [done..|]. apply over_false. apply over_false in Ho.
    destruct Hconf2 as (-> & _ & _).
    rewrite (at_entries _ _ _ H2), Hage2. by rewrite (at_entries _ _ _ H1), Ea in Ho.
  - exists k. congruence.
  - intros x Hx. rewrite Hage2 in Hx.
    destruct (linked_entry _ _ x (at_linked _ _ _ H1)) as (ae & E & _); [done|].
    destruct (Hs x ae E) as [k' Ek]. exists ae, k'. by rewrite <- Hsame.
Qed.

(** An entry that has not expired stays, when there is room for the entries,
    and keeps its packets when there is room for these. *)
Lemma slim_keeps de dp now t t' x ae :
  table_at de dp t → conf_ok t → 0 ≤ de → 0 ≤ dp ≤ 1 →
  (_entry_capacity t = 0 ∨ Z.of_nat (length (_age t)) + de ≤ _entry_capacity t) →
  slim t now = Ok t' →
  _table t !! x = Some ae → expired ae now (_timeout_j t) = false →
  ∃ k, _table t' !! x = Some (with_queue ae (drop k (_queue ae))) ∧
    ((_packet_capacity t = 0 ∨ waiting t + dp ≤ _packet_capacity t) → k = 0%nat).
Proof.
  intros Ht Hc Hde Hdp Hroom Hs E Hex. unfold slim in Hs. apply bind_Ok in Hs as (t1 & E1 & E2).
  pose proof (delete_old_keeps de dp now (_age t) t t1 x ae eq_refl Ht Hde Hroom E1 E Hex) as Hx.
  destruct (delete_old_ok de dp now (_age t) t eq_refl Ht) as (t1' & k & E1' & H1 & Hconf & Hage & Hsame & _).
  assert (t1' = t1) as -> by congruence.
  destruct (too_many t1) eqn:Hm.
  - destruct (slim_ok de dp now t) as (t2 & E3 & Hs2); [done..|].
    unfold slim in E3. rewrite E1 in E3. simpl in E3.
    assert (t2 = t') as -> by congruence. assert (Hin : x ∈ _age t').
    { destruct (make_space_all de dp t1) as (t3 & E4 & _ & _ & _ & Ha & _);
        [done|by eapply conf_ok_same|done|].
      assert (t3 = t') as -> by congruence. rewrite Ha. apply (lk_age _ _ (at_linked _ _ _ H1)). eauto. }
    destruct (sl_kept _ _ _ _ _ Hs2 x Hin) as (ae' & k' & Ea & Eb). simplify_eq. exists k'.
    split; [done|]. intros Hp. exfalso. apply Bool.diff_true_false. rewrite <- Hm. apply too_many_false.
    destruct Hconf as (_ & -> & _). destruct Hp as [|Hp]; [by left|right].
    rewrite (at_packets _ _ _ H1). etrans; [apply u32_le|].
    + pose proof (total_nonneg (_table t1) (_age t1)). unfold waiting. lia.
    + assert (waiting t1 ≤ waiting t); [|lia]. unfold waiting.
      rewrite (total_ext (_table t1) (_table t) (_age t1)) by (intros y Hy; unfold qlen; by rewrite Hsame).
      rewrite Hage. rewrite <- (take_drop k (_age t)) at 2. rewrite total_app.
      pose proof (total_nonneg (_table t) (take k (_age t))). lia.
  - assert (t' = t1) as ->. { destruct (_age t1); simpl in E2; rewrite Hm in E2; by simplify_eq. }
    exists 0%nat. split; [|done]. rewrite Hx. by destruct ae.
Qed.

(** ** The bounds *)

Definition entries_fit (de : Z) t : Prop :=
  _entry_capacity t = 0 ∨ Z.of_nat (length (_age t)) + de ≤ _entry_capacity t.
Definition packets_fit (dp : Z) t : Prop :=
  _packet_capacity t = 0 ∨ waiting t + dp ≤ _packet_capacity t.

Record table_inv t : Prop := {
  inv_ok : table_ok t;
  inv_conf : conf_ok t;
  inv_entries : entries_fit 0 t;
  inv_packets : packets_fit 0 t }.

Lemma waiting_nonneg t : 0 ≤ waiting t.
Proof. apply total_nonneg. Qed.

(** The comparison of a counter that has not wrapped around. *)
Lemma over_fit de dp t :
  table_at de dp t → 0 ≤ Z.of_nat (length (_age t)) + de < 2 ^ 32 → over t = false ↔ entries_fit de t.
Proof.
  intros Ht Hr. by rewrite over_false, (at_entries _ _ _ Ht), u32_id.
Qed.

Lemma too_many_fit de dp t :
  table_at de dp t → 0 ≤ waiting t + dp < 2 ^ 32 → too_many t = false ↔ packets_fit dp t.
Proof.
  intros Ht Hr. by rewrite too_many_false, (at_packets _ _ _ Ht), u32_id.
Qed.

(** After [slim] the counters are not above the capacities. *)
Lemma slimmed_packets de dp now t t' :
  slimmed de dp now t t' → 0 ≤ dp → waiting t' + dp < 2 ^ 32 → packets_fit dp t'.
Proof.
  intros Hs Hdp Hr. apply (too_many_fit de dp t'); [apply Hs| |apply Hs].
  pose proof (waiting_nonneg t'). lia.
Qed.

Lemma slimmed_entries de dp now t t' :
  slimmed de dp now t t' → conf_ok t → 0 ≤ de ≤ 1 → Z.of_nat (length (_age t)) + de < 2 ^ 32 → entries_fit de t'.
Proof.
  intros Hs Hc Hde Hr. destruct (sl_suffix _ _ _ _ _ Hs) as [k Hk].
  assert (length (_age t') <= length (_age t))%nat by (rewrite Hk, length_drop; lia).
  destruct (sl_entries _ _ _ _ _ Hs) as [He|He].
  - pose proof (conf_ok_same _ _ (sl_conf _ _ _ _ _ Hs) Hc) as [? _].
    destruct (decide (_entry_capacity t' = 0)); [by left|right]. rewrite He. simpl. lia.
  - apply (over_fit de dp t'); [apply Hs|lia|done].
Qed.

Lemma total_suffix m k age : total m (drop k age) ≤ total m age.
Proof.
  rewrite <- (take_drop k age) at 2. rewrite total_app. pose proof (total_nonneg m (take k age)). lia.
Qed.

Lemma total_le m m' age : (∀ x, x ∈ age → qlen m x ≤ qlen m' x) → total m age ≤ total m' age.
Proof.
  induction age as [|x age IH]; intros H; simpl; [lia|].
  pose proof (H x ltac:(left)). assert (total m age ≤ total m' age); [|lia].
  apply IH. intros y Hy. apply H. by right.
Qed.

Lemma slimmed_waiting de dp now t t' : slimmed de dp now t t' → waiting t' ≤ waiting t.
Proof.
  intros Hs. unfold waiting. destruct (sl_suffix _ _ _ _ _ Hs) as [k Hk].
  etrans; [|apply (total_suffix _ k)]. rewrite <- Hk. apply total_le. intros x Hx.
  destruct (sl_kept _ _ _ _ _ Hs x Hx) as (ae & j & E & E'). unfold qlen. rewrite E, E'.
  simpl. rewrite length_drop. lia.
Qed.

(** ** An entry for an address *)

(** The entry [ensure] makes. *)
Definition fresh x now : XARPEntry P :=
  with_polled (with_live (new_XARPEntry x) now) (u32 (now - CLICK_HZ)).

(** A new entry at the end of the list. *)
Lemma add_at t x now :
  table_at 1 0 t → _table t !! x = None →
  table_ok (with_entries t (<[x := fresh x now]> (_table t)) (_age t ++ [x])).
Proof.
  intros [Hl He Hp] E. split; simpl.
  - by apply linked_add.
  - rewrite He, length_app. f_equal. simpl. lia.
  - rewrite Hp. unfold waiting. simpl. rewrite total_app. simpl. rewrite qlen_insert, decide_True by done.
    rewrite total_insert_notin; [f_equal; simpl; lia|]. rewrite (lk_age _ _ Hl), E. by intros [].
Qed.

Lemma ensure_ok mem t x now :
  table_inv t →
  (mem = false ∧ _table t !! x = None ∧ ensure mem t x now = Ok None) ∨
  ∃ t', ensure mem t x now = Ok (Some t') ∧ table_inv t' ∧ same_conf t t' ∧ x ∈ _age t' ∧
    (_table t !! x = None → _table t' !! x = Some (fresh x now)).
Proof.
  intros [Hok Hc He Hp]. unfold ensure. destruct (_table t !! x) eqn:E.
  { right. exists t. split_and!; try done. apply (lk_age _ _ (at_linked _ _ _ Hok)). eauto. }
  destruct mem; [right|by left].
  set (t1 := with_counts t _ _ _). fold (over t1).
  assert (H1 : table_at 1 0 t1).
  { destruct Hok as [Hl Hn Hq]. split; [done| |done]. simpl. rewrite Hn, u32_add_l. f_equal. lia. }
  assert (Hc1 : conf_ok t1) by (by destruct Hc).
  assert (∃ t2, (if over t1 then slim t1 now else Ok t1) = Ok t2 ∧ table_at 1 0 t2 ∧ same_conf t t2 ∧
            (Z.of_nat (length (_age t)) + 1 < 2 ^ 32 → entries_fit 1 t2) ∧ packets_fit 0 t2 ∧ _table t2 !! x = None)
    as (t2 & -> & H2 & Hconf & Hf & Hpf & Hno).
  { destruct (over t1) eqn:Ho.
    - destruct (slim_ok 1 0 now t1) as (t2 & -> & Hs); [done|done|lia|]. exists t2.
      split_and!; [done|apply Hs|apply Hs..|by apply (slimmed_entries 1 0 now t1)| |].
      + destruct (sl_conf _ _ _ _ _ Hs) as (_ & Ep & _). pose proof (slimmed_waiting _ _ _ _ _ Hs) as Hw.
        unfold packets_fit in *. rewrite Ep. change (waiting t1) with (waiting t) in Hw. simpl. lia.
      + destruct (_table t2 !! x) eqn:E2; [|done]. exfalso.
        assert (x ∈ _age t2) as Hin by (apply (lk_age _ _ (at_linked _ _ _ (sl_at _ _ _ _ _ Hs))); eauto).
        apply (sl_kept _ _ _ _ _ Hs) in Hin as (? & ? & E3 & _). simpl in E3. congruence.
    - exists t1. split_and!; try done. intros Hr. apply (over_fit 1 0 t1); [done| |done]. simpl in *. lia. }
  simpl. exists (with_entries t2 (<[x := fresh x now]> (_table t2)) (_age t2 ++ [x])).
  split_and!; [done| |apply Hconf..| |].
  - split; [by apply add_at|by destruct (conf_ok_same _ _ Hconf Hc)| |].
    + unfold entries_fit in *. simpl. rewrite length_app. simpl. destruct Hconf as (Ec & _ & _).
      destruct He as [He|He]; [left; congruence|]. destruct Hc as [Hc _].
      destruct Hf as [|Hf]; [lia|by left|right; lia].
    + unfold packets_fit, waiting in *. simpl. rewrite total_app. simpl.
      rewrite qlen_insert, decide_True by done. rewrite total_insert_notin; [simpl; lia|].
      rewrite (lk_age _ _ (at_linked _ _ _ H2)), Hno. by intros [].
  - simpl. set_solver.
  - intros _. simpl. by rewrite lookup_insert_eq.
Qed.

End spec.
