(* ===== verification/XArpTableSpec.v ===== *)
(** * XArpTableSpec: the operations of the table of neighbours

    Every operation keeps the invariant and the bounds, without undefined
    behaviour, and what each does to the entry of an address. *)

From Stdlib Require Import ZArith Lia.
From stdpp Require Import base gmap sets list.
From S2P Require Import Prelude XiaPath XidText XiaHeader RouteTable XArpTable XArpTableInv.

Local Open Scope Z_scope.

(** ** Times *)

Lemma u32_sub_r a b : u32 (a - u32 b) = u32 (a - b).
Proof. apply Zminus_mod_idemp_r. Qed.

Lemma less_cong a b c d : u32 (a - b) = u32 (c - d) → click_jiffies_less a b = click_jiffies_less c d.
Proof. unfold click_jiffies_less. by intros ->. Qed.

Lemma less_irrefl a : click_jiffies_less a a = false.
Proof. unfold click_jiffies_less. by rewrite Z.sub_diag. Qed.

(** Times that are less than 2^31 apart are compared as they are. *)
Lemma less_small a b : -2 ^ 31 ≤ a - b < 2 ^ 31 → click_jiffies_less a b = (a <? b).
Proof.
  intros H. unfold click_jiffies_less.
  assert (i32 (u32 (a - b)) = a - b) as ->.
  { unfold i32, wrapS, u32, wrapU. rewrite Zplus_mod_idemp_l. rewrite Z.mod_small; lia. }
  destruct (Z.ltb_spec a b); [apply Z.ltb_lt|apply Z.ltb_ge]; lia.
Qed.

Section spec.
Context {P : Type}.
Implicit Types (t : XARPTable P) (ae : XARPEntry P) (now : Z) (x y : Xid) (m : gmap Xid (XARPEntry P)).

(** ** The entry of a packet that waits stays alive *)

Lemma expired_min ae now timeout_j :
  expired (with_live ae (u32 (now - timeout_j))) now timeout_j = false.
Proof.
  unfold expired. simpl. rewrite u32_add_l.
  rewrite (less_cong _ now now now); [by rewrite less_irrefl|].
  rewrite u32_sub_l. f_equal. lia.
Qed.

Lemma expired_not_min ae now timeout_j :
  click_jiffies_less (_live_at_j ae) (u32 (now - timeout_j)) = false → expired ae now timeout_j = false.
Proof.
  intros H. unfold expired.
  rewrite (less_cong (u32 _) now (_live_at_j ae) (u32 (now - timeout_j))), H; [done|].
  rewrite u32_sub_l, u32_sub_r. f_equal. lia.
Qed.

Lemma expired_never ae now : expired ae now 0 = false.
Proof. unfold expired. by rewrite andb_false_r. Qed.

Lemma age_split x (age : list Xid) : x ∈ age → age = age_before x age ++ x :: age_after x age.
Proof.
  induction age as [|y age IH]; [by intros ?%not_elem_of_nil|]. intros Hx. simpl.
  destruct (decide (y = x)) as [->|]; [done|]. simpl. f_equal. apply IH.
  apply elem_of_cons in Hx as [|]; [congruence|done].
Qed.

Lemma age_walk_ok t live age :
  (∀ y, y ∈ age → is_Some (_table t !! y)) → ∃ w, age_walk t live age = Ok w ∧ w.1 ++ w.2 = age.
Proof.
  induction age as [|y age IH]; intros H; simpl; [by exists ([], [])|].
  destruct (H y) as [ae E]; [left|]. unfold table_entry_at. rewrite E. simpl.
  destruct (click_jiffies_less _ _); [|by exists ([], y :: age)].
  destruct IH as (w & -> & Hw); [intros z Hz; apply H; by right|]. simpl.
  exists (y :: w.1, w.2). split; [done|]. simpl. by rewrite Hw.
Qed.

(** An entry is written that differs in its times only. *)
Lemma write_at de dp t x ae ae' age :
  table_at de dp t → _table t !! x = Some ae → age ≡ₚ _age t → _xid ae' = x →
  length (_queue ae') = length (_queue ae) → (_known ae' = true → is_broadcast (_eth ae') = false) →
  table_at de dp (with_entries t (<[x := ae']> (_table t)) age).
Proof.
  intros [Hl He Hp] E Ha Hid Hq Hk.
  assert (Hin : x ∈ _age t) by (apply (lk_age _ _ Hl); eauto).
  split; simpl.
  - apply (linked_perm _ (_age t)); [by rewrite Ha|]. by apply linked_insert.
  - by rewrite He, Ha.
  - rewrite Hp. unfold waiting. simpl. rewrite (total_perm _ _ _ Ha).
    rewrite total_insert by (done || apply Hl). unfold qlen. rewrite E. f_equal. lia.
Qed.

Lemma keep_alive_ok de dp t x ae now :
  table_at de dp t → _table t !! x = Some ae →
  ∃ t' l, keep_alive t ae now = Ok t' ∧ table_at de dp t' ∧ same_conf t t' ∧
    _age t' ≡ₚ _age t ∧ _table t' = <[x := with_live ae l]> (_table t) ∧
    expired (with_live ae l) now (_timeout_j t) = false.
Proof.
  intros Ht E. pose proof (lk_xid _ _ (at_linked _ _ _ Ht) x ae E) as Hid. unfold keep_alive.
  destruct (click_jiffies_less _ _) eqn:El.
  - set (l := u32 (now - _timeout_j t)). set (t1 := write_entry t (with_live ae l)).
    assert (Hin : x ∈ _age t) by (apply (lk_age _ _ (at_linked _ _ _ Ht)); eauto).
    assert (Hk : ∀ age, age ≡ₚ _age t → table_at de dp (with_entries t (<[x := with_live ae l]> (_table t)) age)).
    { intros age Ha. apply (write_at de dp t x ae); try done. apply (lk_eth _ _ (at_linked _ _ _ Ht) x ae E). }
    assert (Ht1 : table_at de dp t1) by (unfold t1, write_entry; simpl; rewrite Hid; by apply Hk).
    destruct (age_walk_ok t1 l (age_after x (_age t1))) as (w & Ew & Happ).
    { intros y Hy. apply (lk_age _ _ (at_linked _ _ _ Ht1)). simpl. rewrite (age_split x (_age t) Hin).
      apply elem_of_app. right. right. done. }
    rewrite Hid, Ew. simpl. simpl in Happ. destruct (w.1) as [|y passed] eqn:E1.
    + exists t1, l. split_and!; try done; [simpl; by rewrite Hid|apply expired_min].
    + eexists _, l. split; [done|].
      assert (Hp : age_before x (_age t) ++ (y :: passed) ++ x :: w.2 ≡ₚ _age t).
      { rewrite (age_split x (_age t) Hin) at 2. rewrite <- Happ. by rewrite <- Permutation_middle. }
      assert (E3 : _table t1 = <[x := with_live ae l]> (_table t)) by (simpl; by rewrite Hid).
      split_and!; [|done..|exact Hp| |apply expired_min].
      * simpl in Hp, E3 |- *. rewrite E3. by apply (Hk _ Hp).
      * simpl in E3 |- *. done.
  - exists t, (_live_at_j ae). assert (with_live ae (_live_at_j ae) = ae) as -> by (by destruct ae).
    split_and!; try done; [by rewrite insert_id|by apply expired_not_min].
Qed.

(** ** The operations keep the invariant *)

Lemma inv_same t t' :
  table_inv t → table_ok t' → same_conf t t' → length (_age t') = length (_age t) →
  waiting t' ≤ waiting t → table_inv t'.
Proof.
  intros [_ Hc He Hp] Hok Hs Ha Hw. destruct (Hs) as (E1 & E2 & _).
  split; [done|by eapply conf_ok_same|unfold entries_fit in *; rewrite E1, Ha; done|].
  unfold packets_fit in *. rewrite E2. lia.
Qed.

Lemma inv_entry t x : table_inv t → x ∈ _age t → ∃ ae, _table t !! x = Some ae ∧ _xid ae = x.
Proof. intros Hi. apply linked_entry, Hi. Qed.

Lemma inv_known t x ae :
  table_inv t → _table t !! x = Some ae → _known ae = true → is_broadcast (_eth ae) = false.
Proof. intros Hi. apply (lk_eth _ _ (at_linked _ _ _ (inv_ok _ Hi))). Qed.

(** The entry of [x] is written, with at most the packets it had. *)
Lemma inv_write t x ae ae' age :
  table_inv t → _table t !! x = Some ae → age ≡ₚ _age t → _xid ae' = x → _queue ae' = _queue ae →
  (_known ae' = true → is_broadcast (_eth ae') = false) →
  table_inv (with_entries t (<[x := ae']> (_table t)) age).
Proof.
  intros Hi E Ha Hid Hq Hk.
  assert (Hok : table_ok (with_entries t (<[x := ae']> (_table t)) age)).
  { apply (write_at 0 0 t x ae); [apply Hi|done..|by rewrite Hq|done]. }
  apply (inv_same t); [done..|by rewrite <- Ha|].
  unfold waiting. simpl. rewrite (total_perm _ _ _ Ha).
  rewrite total_insert; [|apply Hi|apply (lk_age _ _ (at_linked _ _ _ (inv_ok _ Hi))); eauto].
  unfold qlen. rewrite E, Hq. lia.
Qed.

(** [insert] takes the packets out of the entry. *)
Lemma inv_taken t x ae ae' age :
  table_inv t → _table t !! x = Some ae → age ≡ₚ _age t → _xid ae' = x → _queue ae' = [] →
  (_known ae' = true → is_broadcast (_eth ae') = false) →
  table_inv (with_counts (with_entries t (<[x := ae']> (_table t)) age) (_entry_count t)
               (kill_all (_packet_count t) 0 (_queue ae)).1 (_drops t)).
Proof.
  intros Hi E Ha Hid Hq Hk. destruct (inv_ok _ Hi) as [Hl He Hp].
  assert (Hin : x ∈ _age t) by (apply (lk_age _ _ Hl); eauto).
  assert (Hw : total (<[x := ae']> (_table t)) age = waiting t - Z.of_nat (length (_queue ae))).
  { rewrite (total_perm _ _ _ Ha), total_insert by (done || apply Hl).
    unfold qlen, waiting. rewrite E, Hq. simpl. lia. }
  apply (inv_same t); [done| |done|simpl; by rewrite Ha|unfold waiting at 1; simpl; lia].
  split; simpl.
  - apply (linked_perm _ (_age t)); [by rewrite Ha|]. by apply linked_insert.
  - by rewrite He, Ha.
  - rewrite Hp, kill_all_packets. unfold waiting at 2. simpl. rewrite Hw. f_equal. lia.
Qed.

Lemma moved_back x (age : list Xid) :
  NoDup age → x ∈ age → filter (λ y, y ≠ x) age ++ [x] ≡ₚ age.
Proof.
  intros Hnd Hx. apply NoDup_Permutation; [|done|].
  - apply NoDup_app. split; [by apply NoDup_filter|]. split; [|apply NoDup_singleton].
    intros y [? _]%list_elem_of_filter ?%list_elem_of_singleton. done.
  - intros y. rewrite elem_of_app, list_elem_of_filter, list_elem_of_singleton.
    destruct (decide (y = x)); naive_solver.
Qed.

(** The entry [insert] writes. *)
Definition confirmed ae (eth : EtherAddress) now (q : list P) : XARPEntry P :=
  mkXEntry P (_xid ae) eth (negb (is_broadcast eth)) now (u32 (now - CLICK_HZ)) q.

Lemma insert_ok mem t x eth head now :
  table_inv t →
  (mem = false ∧ _table t !! x = None ∧ XARPTable_insert mem t x eth head now = Ok (- ENOMEM, t, None)) ∨
  ∃ t1 t' ae, ensure mem t x now = Ok (Some t1) ∧ _table t1 !! x = Some ae ∧
    XARPTable_insert mem t x eth head now = Ok (0, t', if head then Some (_queue ae) else None) ∧
    table_inv t' ∧ same_conf t t' ∧
    _table t' = <[x := confirmed ae eth now (if head then [] else _queue ae)]> (_table t1).
Proof.
  intros Hi. unfold XARPTable_insert.
  destruct (ensure_ok mem t x now Hi) as [(-> & E & ->)|(t1 & E1 & Hi1 & Hs & Hin & _)]; [by left|right].
  destruct (inv_entry t1 x Hi1 Hin) as (ae & E & Hid). rewrite E1. simpl. unfold table_entry_at. rewrite E. simpl.
  set (age := if decide _ then _ else _).
  assert (Ha : age ≡ₚ _age t1).
  { unfold age. destruct (decide _); [done|]. apply moved_back; [apply Hi1|done]. }
  assert (Hk : negb (is_broadcast eth) = true → is_broadcast eth = false) by (by destruct (is_broadcast eth)).
  destruct head; eexists t1, _, ae; (split_and!; [done|done|done| |apply Hs..|done]).
  - by apply (inv_taken t1 x ae).
  - by apply (inv_write t1 x ae).
Qed.

Lemma lookup_ok t x poll now :
  table_inv t → ∃ r o t', lookup_entry t x poll now = (r, o, t') ∧ table_inv t' ∧ same_conf t t' ∧
    _age t' = _age t ∧
    ((r = -1 ∧ o = None ∧ t' = t ∧ ∀ ae, _table t !! x = Some ae → known ae now (_timeout_j t) = false) ∨
     (∃ ae, _table t !! x = Some ae ∧ known ae now (_timeout_j t) = true ∧ 0 ≤ r ∧ o = Some (_eth ae) ∧
        (t' = t ∨ t' = write_entry t (with_polled ae now)))).
Proof.
  intros Hi. unfold lookup_entry. destruct (_table t !! x) as [ae|] eqn:E.
  2:{ eexists _, _, _. split; [done|]. split_and!; try done. left. split_and!; done. }
  destruct (known ae now (_timeout_j t)) eqn:Ek.
  2:{ eexists _, _, _. split; [done|]. split_and!; try done. left. split_and!; try done. by intros ? [= <-]. }
  destruct (_ && _) eqn:Eb; (eexists _, _, _; split; [done|]; split_and!; try done).
  - unfold write_entry. simpl. rewrite (lk_xid _ _ (at_linked _ _ _ (inv_ok _ Hi)) x ae E).
    apply (inv_write t x ae); try done; [|exact (inv_known t x ae Hi E)].
    simpl. apply (lk_xid _ _ (at_linked _ _ _ (inv_ok _ Hi)) x ae E).
  - right. exists ae. split_and!; try done. by right.
  - right. exists ae. split_and!; try done. by left.
Qed.

(** A packet is queued behind the others. *)
Lemma queue_at t x ae ae' p :
  table_at 0 1 t → _table t !! x = Some ae → _xid ae' = x → _queue ae' = _queue ae ++ [p] →
  _known ae' = _known ae → _eth ae' = _eth ae → table_ok (write_entry t ae').
Proof.
  intros [Hl He Hp] E Hid Hq Hk Hb. assert (Hin : x ∈ _age t) by (apply (lk_age _ _ Hl); eauto).
  assert (Hl' : linked (<[x := ae']> (_table t)) (_age t)).
  { apply linked_insert; [done..|]. rewrite Hk, Hb. apply (lk_eth _ _ Hl x ae E). }
  split; simpl; rewrite ?Hid; [done..|]. rewrite Hp. unfold waiting. simpl.
  rewrite Hid, total_insert by (done || apply Hl). unfold qlen. rewrite E, Hq, length_app. f_equal. simpl. lia.
Qed.

Lemma queue_waiting t x ae ae' p :
  linked (_table t) (_age t) → _table t !! x = Some ae → _xid ae' = x → _queue ae' = _queue ae ++ [p] →
  waiting (write_entry t ae') = waiting t + 1.
Proof.
  intros Hl E Hid Hq. assert (Hin : x ∈ _age t) by (apply (lk_age _ _ Hl); eauto).
  unfold waiting. simpl. rewrite Hid, total_insert by (done || apply Hl).
  unfold qlen. rewrite E, Hq, length_app. simpl. lia.
Qed.

(** The table when the packet is counted and not yet queued. *)
Definition counted_in t : XARPTable P :=
  with_counts t (_entry_count t) (u32 (_packet_count t + 1)) (_drops t).

Lemma counted_in_at t : table_ok t → table_at 0 1 (counted_in t).
Proof.
  intros [Hl He Hp]. split; [done|done|]. simpl. rewrite Hp, u32_add_l. f_equal. change (waiting (counted_in t)) with (waiting t). lia.
Qed.

(** The entry that is asked for is not deleted when space is made. *)
Lemma make_room t x ae now :
  table_inv t → _table t !! x = Some ae → expired ae now (_timeout_j t) = false →
  ∃ t' k, (if too_many (counted_in t) then slim (counted_in t) now else Ok (counted_in t)) = Ok t' ∧
    table_at 0 1 t' ∧ same_conf t t' ∧ entries_fit 0 t' ∧ packets_fit 1 t' ∧
    _table t' !! x = Some (with_queue ae (drop k (_queue ae))) ∧
    (packets_fit 1 t → k = 0%nat ∧ t' = counted_in t).
Proof.
  intros Hi E Hex. pose proof (inv_conf _ Hi) as Hc. pose proof (inv_packets _ Hi) as Hp.
  pose proof (counted_in_at t (inv_ok _ Hi)) as H1. assert (Hc1 : conf_ok (counted_in t)) by (by destruct Hc).
  pose proof (waiting_nonneg t). destruct (cf_packets _ Hc) as [Hp0 Hp1]. unfold packets_fit in Hp.
  destruct (too_many (counted_in t)) eqn:Hm.
  - destruct (slim_ok 0 1 now (counted_in t)) as (t' & E' & Hs); [done|done|lia|].
    destruct (slim_keeps 0 1 now (counted_in t) t' x ae) as (k & Ek & Hk); [done|done|lia|lia|apply Hi|done..|].
    exists t', k.
    assert (Hcap : _packet_capacity t ≠ 0).
    { intros Ez. apply Bool.diff_true_false. rewrite <- Hm. apply too_many_false. by left. }
    pose proof (slimmed_waiting _ _ _ _ _ Hs) as Hw. change (waiting (counted_in t)) with (waiting t) in Hw.
    split_and!; [done|apply Hs|apply Hs..| | |done|].
    + unfold entries_fit. destruct (sl_conf _ _ _ _ _ Hs) as (-> & _ & _). destruct (sl_suffix _ _ _ _ _ Hs) as [j ->].
      rewrite length_drop. pose proof (inv_entries _ Hi) as Hf. unfold entries_fit in Hf. simpl in *. lia.
    + apply (slimmed_packets 0 1 now (counted_in t)); [done|lia|lia].
    + intros Hf. exfalso. apply Bool.diff_true_false. rewrite <- Hm.
      destruct Hf as [|Hf]; [done|]. apply (too_many_fit 0 1); [done| |by right].
      change (waiting (counted_in t)) with (waiting t). lia.
  - exists (counted_in t), 0%nat. assert (with_queue ae (drop 0 (_queue ae)) = ae) as -> by (by destruct ae).
    split_and!; try done; [apply Hi|].
    apply too_many_false in Hm as [|Hm]; [by left|].
    destruct (decide (_packet_capacity t = 0)); [by left|right].
    rewrite (at_packets _ _ _ H1), u32_id in Hm by (change (waiting (counted_in t)) with (waiting t); lia). done.
Qed.

Lemma entry_some t x ae : _table t !! x = Some ae → table_entry_at t x = Ok ae.
Proof. unfold table_entry_at. by intros ->. Qed.

(** The entry before space is made. *)
Lemma revived t x ae now :
  table_inv t → _table t !! x = Some ae →
  ∃ t1 l, (if decide (_timeout_j t = 0) then Ok t else keep_alive t ae now) = Ok t1 ∧
    table_inv t1 ∧ same_conf t t1 ∧ _age t1 ≡ₚ _age t ∧ _table t1 = <[x := with_live ae l]> (_table t) ∧
    expired (with_live ae l) now (_timeout_j t) = false.
Proof.
  intros Hi E. destruct (decide (_timeout_j t = 0)) as [Ez|].
  - exists t, (_live_at_j ae). assert (with_live ae (_live_at_j ae) = ae) as -> by (by destruct ae).
    rewrite Ez. split_and!; try done; [by rewrite insert_id|apply expired_never].
  - destruct (keep_alive_ok 0 0 t x ae now (inv_ok _ Hi) E) as (t1 & l & E1 & H1 & Hs & Ha & Et & Hex).
    exists t1, l. split_and!; try done; [|apply Hs..].
    apply (inv_same t); try done; [by rewrite Ha|].
    unfold waiting. rewrite (total_perm _ _ _ Ha), Et.
    rewrite total_insert; [|apply Hi|apply (lk_age _ _ (at_linked _ _ _ (inv_ok _ Hi))); eauto].
    unfold qlen. rewrite E. simpl. lia.
Qed.

(** Whether it is time to ask for the address. *)
Definition ask_again ae now : bool := negb (click_jiffies_less now (u32 (_polled_at_j ae + CLICK_HZ `div` 10))).

(** The entry with the packet queued. *)
Definition queued_entry ae (live : Z) (k : nat) now (p : P) : XARPEntry P :=
  mkXEntry P (_xid ae) (_eth ae) (_known ae) live
    (if ask_again ae now then now else _polled_at_j ae) (drop k (_queue ae) ++ [p]).

Lemma append_unknown mem t x ae p now :
  table_inv t → _table t !! x = Some ae → known ae now (_timeout_j t) = false →
  ∃ t' l k, append_query mem t x p now = Ok (if ask_again ae now then 1 else 0, t') ∧
    table_inv t' ∧ same_conf t t' ∧ _table t' !! x = Some (queued_entry ae l k now p) ∧
    expired (with_live ae l) now (_timeout_j t) = false ∧
    (packets_fit 1 t → k = 0%nat ∧ _table t' = <[x := queued_entry ae l 0 now p]> (_table t) ∧ _age t' ≡ₚ _age t).
Proof.
  intros Hi E Hk. pose proof (lk_xid _ _ (at_linked _ _ _ (inv_ok _ Hi)) x ae E) as Hid.
  unfold append_query, ensure. rewrite E. simpl. rewrite (entry_some t x ae E). simpl. rewrite Hk.
  destruct (revived t x ae now Hi E) as (t1 & l & -> & Hi1 & Hs1 & Ha1 & Et1 & Hex). simpl. fold (counted_in t1).
  assert (E1 : _table t1 !! x = Some (with_live ae l)) by (by rewrite Et1, lookup_insert_eq).
  destruct (make_room t1 x (with_live ae l) now) as (t2 & k & -> & H2 & Hs2 & He2 & Hp2 & E2 & Hroom);
    [done|done|by destruct Hs1 as (_ & _ & ->)|]. simpl. rewrite (entry_some t2 x _ E2). simpl.
  fold (ask_again ae now).
  set (q := queued_entry ae l k now p).
  exists (write_entry t2 q), l, k. split; [unfold q, queued_entry; by destruct (ask_again ae now)|].
  assert (Hq : _queue q = _queue (with_queue (with_live ae l) (drop k (_queue ae))) ++ [p]) by done.
  pose proof (queue_waiting t2 x _ q p (at_linked _ _ _ H2) E2 Hid Hq) as Hw.
  pose proof (queue_at t2 x _ q p H2 E2 Hid Hq eq_refl eq_refl) as Hok.
  pose proof (same_conf_trans _ _ _ Hs1 Hs2) as Hs.
  split_and!; [|apply Hs..| |done|].
  - split; [done|by destruct (conf_ok_same _ _ Hs (inv_conf _ Hi))|done|].
    unfold packets_fit in *. rewrite Hw. simpl. lia.
  - unfold q. simpl. rewrite Hid. by rewrite lookup_insert_eq.
  - intros Hf. destruct Hroom as [-> ->].
    { unfold packets_fit in *. destruct Hs1 as (_ & -> & _). assert (waiting t1 = waiting t) as ->; [|done].
      unfold waiting. rewrite (total_perm _ _ _ Ha1), Et1.
      rewrite total_insert; [|apply Hi|apply (lk_age _ _ (at_linked _ _ _ (inv_ok _ Hi))); eauto].
      unfold qlen. rewrite E. simpl. lia. }
    split_and!; [done| |done]. simpl. rewrite Hid, Et1. by rewrite insert_insert_eq.
Qed.

(** *** Entries that are made on the way *)

(** With room for one more entry nothing is deleted for it. *)
Lemma ensure_roomy t x now :
  table_inv t → entries_fit 1 t → _table t !! x = None →
  ∃ t1, ensure true t x now = Ok (Some t1) ∧ table_inv t1 ∧ same_conf t t1 ∧
    _table t1 = <[x := fresh x now]> (_table t) ∧ _age t1 = _age t ++ [x] ∧ waiting t1 = waiting t.
Proof.
  intros Hi Hf E. destruct (ensure_ok true t x now Hi) as [(? & _)|(t1 & E1 & Hi1 & Hs & Hin & Hx)]; [done|].
  exists t1. split; [done|]. split; [done|]. split; [done|].
  assert (Ho : over (with_counts t (u32 (_entry_count t + 1)) (_packet_count t) (_drops t)) = false).
  { apply over_false. destruct Hf as [|Hf]; [by left|right]. simpl.
    rewrite (at_entries _ _ _ (inv_ok _ Hi)), u32_add_l. etrans; [apply u32_le|]; lia. }
  unfold ensure in E1. rewrite E in E1. fold (over (with_counts t (u32 (_entry_count t + 1)) (_packet_count t) (_drops t))) in E1.
  rewrite Ho in E1. simpl in E1. simplify_eq. split_and!; [done|done|].
  unfold waiting. simpl. rewrite total_app. simpl. rewrite qlen_insert, decide_True by done.
  rewrite total_insert_notin; [simpl; lia|]. rewrite (lk_age _ _ (at_linked _ _ _ (inv_ok _ Hi))), E. by intros [].
Qed.

Lemma append_ensure mem t t1 x ae p now :
  ensure mem t x now = Ok (Some t1) → _table t1 !! x = Some ae →
  append_query mem t x p now = append_query mem t1 x p now.
Proof.
  intros E E1. unfold append_query. rewrite E. unfold ensure. by rewrite E1.
Qed.

Lemma append_query_ok mem t x p now :
  table_inv t → ∃ r t', append_query mem t x p now = Ok (r, t') ∧ table_inv t' ∧ same_conf t t'.
Proof.
  intros Hi. destruct (ensure_ok mem t x now Hi) as [(-> & E & E1)|(t1 & E1 & Hi1 & Hs & Hin & _)].
  { unfold append_query. rewrite E1. simpl. by eexists _, _. }
  destruct (inv_entry t1 x Hi1 Hin) as (ae & E & Hid). rewrite (append_ensure mem t t1 x ae p now E1 E).
  destruct (known ae now (_timeout_j t1)) eqn:Ek.
  - unfold append_query, ensure. rewrite E. simpl. rewrite (entry_some t1 x ae E). simpl. rewrite Ek.
    eexists _, _. split; [done|]. by split.
  - destruct (append_unknown mem t1 x ae p now Hi1 E Ek) as (t' & l & k & -> & Hi' & Hs' & _).
    eexists _, _. split; [done|]. split; [done|]. by eapply same_conf_trans.
Qed.

(** A packet for an address that is not known, with room for it. *)
Lemma append_roomy t x p now :
  table_inv t → entries_fit 1 t → packets_fit 1 t →
  (∀ ae, _table t !! x = Some ae → known ae now (_timeout_j t) = false) →
  ∃ t' l ae, append_query true t x p now = Ok (if ask_again ae now then 1 else 0, t') ∧
    table_inv t' ∧ same_conf t t' ∧ (_table t !! x = Some ae ∨ _table t !! x = None ∧ ae = fresh x now) ∧
    _table t' = <[x := queued_entry ae l 0 now p]> (_table t) ∧
    (length (_age t') <= length (_age t) + 1)%nat ∧ waiting t' = waiting t + 1.
Proof.
  intros Hi He Hp Hk.
  assert (∃ t1 ae, ensure true t x now = Ok (Some t1) ∧ table_inv t1 ∧ same_conf t t1 ∧
    _table t1 !! x = Some ae ∧ (_table t !! x = Some ae ∨ _table t !! x = None ∧ ae = fresh x now) ∧
    known ae now (_timeout_j t1) = false ∧ (∀ e, <[x := e]> (_table t1) = <[x := e]> (_table t)) ∧
    (length (_age t1) <= length (_age t) + 1)%nat ∧ waiting t1 = waiting t)
    as (t1 & ae & E1 & Hi1 & Hs1 & Ex & Hor & Hkn & Hins & Hlen & Hw).
  { destruct (_table t !! x) as [ae|] eqn:E.
    - exists t, ae. unfold ensure. rewrite E. split_and!; first [done|by left|by apply Hk|lia].
    - destruct (ensure_roomy t x now Hi He E) as (t1 & E1 & Hi1 & Hs1 & Et & Ha & Hw).
      exists t1, (fresh x now). rewrite Et, Ha, length_app. 
      split_and!; first [done|apply Hs1|by rewrite lookup_insert_eq|by right|simpl; lia|intros e; by rewrite insert_insert_eq]. }
  rewrite (append_ensure true t t1 x ae p now E1 Ex).
  destruct (append_unknown true t1 x ae p now Hi1 Ex Hkn) as (t' & l & k & -> & Hi' & Hs' & _ & _ & Hroom).
  destruct Hroom as (-> & Et' & Ha').
  { unfold packets_fit in *. destruct Hs1 as (_ & -> & _). by rewrite Hw. }
  exists t', l, ae. split_and!; [done|done|by eapply same_conf_trans..|done|by rewrite Et', Hins|by rewrite Ha'|].
  rewrite <- Hw. unfold waiting. rewrite (total_perm _ _ _ Ha'), Et'.
  rewrite total_insert; [|apply Hi1|apply (lk_age _ _ (at_linked _ _ _ (inv_ok _ Hi1))); eauto].
  unfold qlen. rewrite Ex. simpl. rewrite drop_0, length_app. simpl. lia.
Qed.

Lemma slim_inv t now :
  table_inv t → ∃ t', slim t now = Ok t' ∧ table_inv t' ∧ same_conf t t'.
Proof.
  intros Hi. destruct (slim_ok 0 0 now t (inv_ok _ Hi) (inv_conf _ Hi)) as (t' & E & Hs); [lia|].
  exists t'. split; [done|]. split; [|apply Hs]. pose proof (slimmed_waiting _ _ _ _ _ Hs).
  destruct (sl_suffix _ _ _ _ _ Hs) as [k Hk]. destruct (sl_conf _ _ _ _ _ Hs) as (E1 & E2 & E3).
  pose proof (inv_entries _ Hi) as He. pose proof (inv_packets _ Hi) as Hp.
  split; [apply Hs|by eapply conf_ok_same; [apply Hs|apply Hi]| |].
  - unfold entries_fit in *. rewrite Hk, length_drop, E1. lia.
  - unfold packets_fit in *. rewrite E2. lia.
Qed.

Lemma timer_inv t s : table_inv t → table_inv (with_expire_timer t s).
Proof. intros [[Hl He Hp] [Hc1 Hc2] Hf Hg]. split; [by split|by split|done|done]. Qed.

Lemma clear_inv t order : conf_ok t → table_inv (XARPTable_clear t order).
Proof.
  intros Hc. split.
  - split; [split|done|done]; simpl; [apply NoDup_nil_2| |done|done].
    intros x. rewrite lookup_empty. split; [by intros ?%not_elem_of_nil|by intros []].
  - by destruct Hc.
  - unfold entries_fit. simpl. destruct Hc. lia.
  - unfold packets_fit, waiting. simpl. destruct Hc. lia.
Qed.

(** ** Sequences of operations *)

Inductive table_op :=
  | OpLookup (x : Xid) (poll_timeout_j : Z)
  | OpInsert (x : Xid) (eth : EtherAddress) (head : bool)
  | OpAppend (x : Xid) (p : P)
  | OpTimer
  | OpWrite (c : table_command).

(** An operation, the time, and whether memory can be allocated. *)
Definition table_step t (o : table_op * Z * bool) : res (XARPTable P) :=
  let '(op, now, mem) := o in
  match op with
  | OpLookup x poll => Ok (lookup_entry t x poll now).2
  | OpInsert x eth head => r ← XARPTable_insert mem t x eth head now; Ok r.1.2
  | OpAppend x p => r ← append_query mem t x p now; Ok r.2
  | OpTimer => XARPTable_run_timer t now
  | OpWrite c => r ← XARPTable_write_handler mem t c now; Ok r.2
  end.

Lemma insert_inv mem t x eth head now :
  table_inv t → ∃ r t' o, XARPTable_insert mem t x eth head now = Ok (r, t', o) ∧ table_inv t' ∧ same_conf t t'.
Proof.
  intros Hi. destruct (insert_ok mem t x eth head now Hi) as [(_ & _ & ->)|(t1 & t' & ae & _ & _ & -> & Hi' & Hs & _)].
  - by eexists _, _, _.
  - eexists _, _, _. split; [done|]. by split.
Qed.

Lemma table_step_ok t o : table_inv t → ∃ t', table_step t o = Ok t' ∧ table_inv t' ∧ same_conf t t'.
Proof.
  intros Hi. destruct o as [[[x poll|x eth head|x p| |c] now] mem]; simpl.
  - destruct (lookup_ok t x poll now Hi) as (r & o & t' & -> & Hi' & Hs & _). by exists t'.
  - destruct (insert_inv mem t x eth head now Hi) as (r & t' & o & -> & Hi' & Hs). by exists t'.
  - destruct (append_query_ok mem t x p now Hi) as (r & t' & -> & Hi' & Hs). by exists t'.
  - unfold XARPTable_run_timer. destruct (slim_inv t now Hi) as (t' & -> & Hi' & Hs). simpl.
    destruct (decide (_timeout_j t' = 0)); eexists; (split; [done|]; split; [by apply timer_inv|done]).
  - destruct c as [[[x eth]|]|[x|]|order|]; simpl; try (by exists t).
    + destruct (insert_inv mem t x eth false now Hi) as (r & t' & o & -> & Hi' & Hs). by exists t'.
    + destruct (insert_inv mem t x make_broadcast false now Hi) as (r & t' & o & -> & Hi' & Hs). by exists t'.
    + eexists. split; [done|]. split; [by apply clear_inv, inv_conf|done].
Qed.

Lemma linked_size m age : linked m age → size m = length age.
Proof.
  intros [Hnd Ha _ _]. rewrite <- size_dom, <- (size_list_to_set (C := gset Xid) age Hnd). f_equal.
  apply set_eq. intros x. by rewrite elem_of_dom, elem_of_list_to_set, Ha.
Qed.

(** The invariant over a sequence of operations. *)
Lemma table_run_ok t ops :
  table_inv t → ∃ t', foldM table_step t ops = Ok t' ∧ table_inv t' ∧ same_conf t t'.
Proof.
  intros Hi. apply (foldM_ok (λ t', table_inv t' ∧ same_conf t t')); [|done].
  intros s o _ [Hs Hc]. destruct (table_step_ok s o Hs) as (s' & E & Hi' & Hc').
  exists s'. split_and!; [done|done|by eapply same_conf_trans..].
Qed.

Lemma configured_inv pc ec timeout :
  0 ≤ pc < 2 ^ 32 - 1 → 0 ≤ ec < 2 ^ 32 - 1 →
  table_inv (XARPTable_configure (new_XARPTable (P := P)) (Some pc) (Some ec) timeout) ∧
  _entry_capacity (XARPTable_configure (new_XARPTable (P := P)) (Some pc) (Some ec) timeout) = ec ∧
  _packet_capacity (XARPTable_configure (new_XARPTable (P := P)) (Some pc) (Some ec) timeout) = pc.
Proof.
  intros Hpc Hec. unfold XARPTable_configure. destruct (decide _); simpl; (split; [|done]).
  - apply (clear_inv (set_timeout (set_entry_capacity (set_capacity (new_XARPTable (P := P)) pc) ec) (default (mkStamp 300 0) timeout)) []).
    by split.
  - apply timer_inv, (clear_inv (set_timeout (set_entry_capacity (set_capacity (new_XARPTable (P := P)) pc) ec) (default (mkStamp 300 0) timeout)) []).
    by split.
Qed.

(** C13: Whatever addresses are looked up, inserted, asked for, deleted or
    expire, at whatever times and also when memory runs out, the operations of
    a table never follow a null pointer or a deleted entry, the table never
    holds more entries and never more waiting packets than its two capacities
    allow, and its counters are exactly the numbers of both. *)
Theorem table_bounded pc ec timeout ops :
  0 < pc < 2 ^ 32 - 1 → 0 < ec < 2 ^ 32 - 1 →
  ∃ t, foldM table_step (XARPTable_configure (new_XARPTable (P := P)) (Some pc) (Some ec) timeout) ops = Ok t ∧
    Z.of_nat (size (_table t)) = _entry_count t ∧ _entry_count t ≤ ec ∧
    waiting t = _packet_count t ∧ _packet_count t ≤ pc.
Proof.
  intros Hpc Hec. destruct (configured_inv pc ec timeout) as (Hi & Ee & Ep); [lia..|].
  destruct (table_run_ok _ ops Hi) as (t & E & Ht & Hs). exists t. split; [done|].
  destruct Hs as (E1 & E2 & _). destruct Ht as [[Hl He Hp] _ Hf Hg].
  unfold entries_fit, packets_fit in *. rewrite E1, Ee in Hf. rewrite E2, Ep in Hg.
  pose proof (waiting_nonneg t). rewrite (linked_size _ _ Hl).
  rewrite He, Hp, !u32_id by lia. lia.
Qed.

End spec.

(** Two packets for one neighbour with room for one packet, then its address. *)
Lemma table_bounded_witness :
  ∃ t, foldM table_step (XARPTable_configure (@new_XARPTable nat) (Some 1) (Some 1) None)
         [(OpAppend Xid_undef 1%nat, 5, true); (OpAppend Xid_undef 2%nat, 6, true);
          (OpAppend (mkXid 1 []) 3%nat, 7, true)] = Ok t ∧
    Z.of_nat (size (_table t)) = _entry_count t ∧ _entry_count t ≤ 1 ∧
    waiting t = _packet_count t ∧ _packet_count t ≤ 1.
Proof. apply (table_bounded 1 1 None); lia. Defined.
