(* ===== verification/XArp.v ===== *)
(** * XArp: asking for Ethernet addresses, and answering
    (elements/xia/xarpquerier.{cc,hh}, elements/xia/xarpresponder.{cc,hh})

    The querier gives packets the Ethernet address of their next hop; packets
    whose address is not known wait in its table while it is asked for.  The
    responder answers such questions.  An element is a record, a handler a
    function that returns the frames it pushes.  Whether memory can be had is an
    argument, as are the readings of the clock. *)

From Stdlib Require Import ZArith Lia.
From stdpp Require Import base gmap sets list.
From S2P Require Import Prelude QSort XiaPath XidText XiaHeader RouteTable XArpTable.

Local Open Scope Z_scope.

(** ** Frames (include/clicknet/ether.h) *)

Definition ETHERTYPE_XARP : Z := 39312.   (* 0x9990 *)
Definition ETHERTYPE_XIP : Z := 49374.    (* 0xC0DE *)
Definition XARPHRD_ETHER : Z := 1.
Definition XARPOP_REQUEST : Z := 1.
Definition XARPOP_REPLY : Z := 2.

(** A 16-bit field in network order. *)
Definition net16 (z : Z) : list Z := [z `div` 256; z mod 256].

(** [struct click_ether], fourteen bytes, and [struct click_ether_xarp]. *)
Definition click_ether (dhost shost : EtherAddress) (type : Z) : list Z := dhost ++ shost ++ net16 type.

Definition click_ether_xarp (op : Z) (sha : EtherAddress) (spa : list Z) (tha : EtherAddress) (tpa : list Z) :
    list Z :=
  net16 XARPHRD_ETHER ++ net16 ETHERTYPE_XIP ++ [6; 24] ++ net16 op ++ sha ++ spa ++ tha ++ tpa.

Definition XARP_LEN : Z := 82.

Definition frame_field (b : list Z) (o n : nat) : list Z := take n (drop o b).
Definition field16 (b : list Z) (o : nat) : Z :=
  match frame_field b o 2 with [h; l] => 256 * h + l | _ => 0 end.

(** The fields of a frame that is long enough. *)
Definition ether_type (b : list Z) : Z := field16 b 12.
Definition ar_hrd (b : list Z) : Z := field16 b 14.
Definition ar_pro (b : list Z) : Z := field16 b 16.
Definition ar_op (b : list Z) : Z := field16 b 20.
Definition xarp_sha (b : list Z) : EtherAddress := frame_field b 22 6.
Definition xarp_spa (b : list Z) : list Z := frame_field b 28 24.
Definition xarp_tpa (b : list Z) : list Z := frame_field b 58 24.

(** The copy of an address field into a [struct click_xia_xid]. *)
Definition xid_of_field (f : list Z) : Xid := mkXid (of_le_bytes (take 4 f)) (drop 4 f).

(** A packet with the fourteen bytes before it, which become its Ethernet
    header. *)
Record Frame := mkFrame { f_mac : list Z; f_pkt : Packet }.

Definition ether_dhost (f : Frame) : EtherAddress := take 6 (f_mac f).
Definition set_dhost (f : Frame) (e : EtherAddress) : Frame := mkFrame (e ++ drop 6 (f_mac f)) (f_pkt f).
Definition set_shost (f : Frame) (e : EtherAddress) : Frame :=
  mkFrame (take 6 (f_mac f) ++ e ++ drop 12 (f_mac f)) (f_pkt f).
Definition set_ether_type (f : Frame) (type : Z) : Frame :=
  mkFrame (take 12 (f_mac f) ++ net16 type) (f_pkt f).

(** The bytes on the wire. *)
Definition frame_bytes (f : Frame) : list Z := f_mac f ++ p_data (f_pkt f).

(** ** XARPQuerier *)

Record XARPQuerier := mkQuerier {
  _xarpt : XARPTable Frame;
  _my_en : EtherAddress;
  _my_xid : Xid;
  _my_bcast_xid : Xid;
  _poll_timeout_j : Z;
  _broadcast_poll : bool;
  _xarp_queries : Z;
  q_drops : Z;
  _xarp_responses : Z;
  _my_xarpt : bool;
  _my_xid_configured : bool }.

Definition with_xarpt (q : XARPQuerier) (t : XARPTable Frame) : XARPQuerier :=
  mkQuerier t (_my_en q) (_my_xid q) (_my_bcast_xid q) (_poll_timeout_j q) (_broadcast_poll q)
    (_xarp_queries q) (q_drops q) (_xarp_responses q) (_my_xarpt q) (_my_xid_configured q).
Definition with_stats (q : XARPQuerier) (queries drops responses : Z) : XARPQuerier :=
  mkQuerier (_xarpt q) (_my_en q) (_my_xid q) (_my_bcast_xid q) (_poll_timeout_j q) (_broadcast_poll q)
    queries drops responses (_my_xarpt q) (_my_xid_configured q).

(** What memory there is for a packet: its header, an entry, a question. *)
Record memory := mkMemory { mac_header : bool; table_entry : bool; query_packet : bool }.

Definition send_query_for (mem : memory) (q : XARPQuerier) (f : Frame) (ether_dhost_valid : bool) :
    XARPQuerier * list (list Z) :=
  if query_packet mem then
    let dhost := if ether_dhost_valid && negb (_broadcast_poll q) then ether_dhost f else make_broadcast in
    let want_xid := nexthop_neighbor_xid_anno (f_pkt f) in
    (with_stats q (u32 (_xarp_queries q + 1)) (q_drops q) (_xarp_responses q),
     [click_ether dhost (_my_en q) ETHERTYPE_XARP
        ++ click_ether_xarp XARPOP_REQUEST (_my_en q) (xid_bytes (_my_xid q)) (replicate 6 0) (xid_bytes want_xid)])
  else (q, []).

(** The packet leaves with our address as its source. *)
Definition emit (q : XARPQuerier) (f : Frame) : list Z := frame_bytes (set_shost f (_my_en q)).

(** From [retry_read_lock] on: the table is looked up, and if the address is
    not known the packet is queued; -EAGAIN starts again.  The clock is read
    twice in each round. *)
Fixpoint resolve (fuel : nat) (mem : memory) (q : XARPQuerier) (f : Frame) (clock : nat → Z) :
    res (XARPQuerier * list (list Z)) :=
  match fuel with
  | O => Ub OutOfFuel
  | S fuel =>
      let x := nexthop_neighbor_xid_anno (f_pkt f) in
      let '(r, eth, t) := lookup_entry (_xarpt q) x (_poll_timeout_j q) (clock 0%nat) in
      let q := with_xarpt q t in
      match eth with
      | Some eth =>
          if is_broadcast eth then Ub AssertFail
          else
            let f := set_dhost f eth in
            let '(q, asked) := if decide (0 < r) then send_query_for mem q f true else (q, []) in
            Ok (q, asked ++ [emit q f])
      | None =>
          if decide (x = _my_bcast_xid q) then Ok (q, [emit q (set_dhost f make_broadcast)])
          else
            a ← append_query (table_entry mem) (_xarpt q) x f (clock 1%nat);
            let q := with_xarpt q a.2 in
            if decide (a.1 = - EAGAIN) then resolve fuel mem q f (λ n, clock (2 + n)%nat)
            else Ok (if decide (0 < a.1) then send_query_for mem q f false else (q, []))
      end
  end.

(** The rounds that [resolve] is given; one is enough. *)
Definition ROUNDS : nat := 2.

Definition handle_xip (mem : memory) (q : XARPQuerier) (f : Frame) (response : bool) (clock : nat → Z) :
    res (XARPQuerier * list (list Z)) :=
  if _my_xid_configured q then
    if response then resolve ROUNDS mem q f clock
    else if mac_header mem then resolve ROUNDS mem q (set_ether_type f ETHERTYPE_XIP) clock
    else Ok (with_stats q (_xarp_queries q) (u32 (q_drops q + 1)) (_xarp_responses q), [])
  else Ok (with_stats q (_xarp_queries q) (u32 (q_drops q + 1)) (_xarp_responses q), []).

(** The loop over the packets that were waiting; [clock] gives the readings
    for each. *)
Fixpoint send_cached (mem : memory) (q : XARPQuerier) (fs : list Frame) (clock : nat → nat → Z) :
    res (XARPQuerier * list (list Z)) :=
  match fs with
  | [] => Ok (q, [])
  | f :: fs =>
      r ← handle_xip mem q f true (clock 0%nat);
      s ← send_cached mem r.1 fs (λ n, clock (S n));
      Ok (s.1, r.2 ++ s.2)
  end.

(** [cached_packet] is not set when [insert] fails. *)
Definition handle_response (mem : memory) (q : XARPQuerier) (b : list Z) (now : Z) (clock : nat → nat → Z) :
    res (XARPQuerier * list (list Z)) :=
  if decide (Z.of_nat (length b) < XARP_LEN) then Ok (q, [])
  else
    let q := with_stats q (_xarp_queries q) (q_drops q) (u32 (_xarp_responses q + 1)) in
    let xida := xid_of_field (xarp_spa b) in
    let ena := xarp_sha b in
    if decide (ether_type b = ETHERTYPE_XARP ∧ ar_hrd b = XARPHRD_ETHER ∧ ar_pro b = ETHERTYPE_XIP
               ∧ ar_op b = XARPOP_REPLY ∧ is_group ena = false) then
      r ← XARPTable_insert (table_entry mem) (_xarpt q) xida ena true now;
      let '(_, t, cached) := r in
      fs ← init cached;
      send_cached mem (with_xarpt q t) fs clock
    else Ok (q, []).

(** What arrives at the two inputs. *)
Inductive xarp_arrival := Xip (f : Frame) | Answer (b : list Z).

Definition Querier_push (mem : memory) (q : XARPQuerier) (p : xarp_arrival) (now : Z) (clock : nat → nat → Z) :
    res (XARPQuerier * list (list Z)) :=
  match p with
  | Xip f => handle_xip mem q f false (clock 0%nat)
  | Answer b => handle_response mem q b now clock
  end.

(** The message to the error element: the low byte of the colour is painted. *)
Definition xarp_query_timeout (noutputs : Z) (p : Packet) : Z * Packet :=
  (noutputs - 1, SET_XIA_PAINT_ANNO p (256 * (u16 (XIA_PAINT_ANNO p) `div` 256) + u8 UNREACHABLE)).

(** *** Configuration *)

(** The keyword arguments, as [Args] reads them. *)
Record querier_args := mkArgs {
  a_capacity : option Z;
  a_entry_capacity : option Z;
  a_timeout : option Timestamp;
  a_broadcast : option Xid;
  a_table : option (XARPTable Frame);
  a_poll_timeout : option Timestamp;
  a_broadcast_poll : option bool }.

Definition timeout_jiffies (t : Timestamp) : Z :=
  if decide (4294967295 `div` CLICK_HZ ≤ u32 (sec t)) then 0 else jiffies t.

(** [None] is the error result, for arguments that cannot be read. *)
Definition Querier_configure (args : option querier_args) (addr : option (Xid * EtherAddress)) : option XARPQuerier :=
  a ← args;
  let '(t, mine) := match a_table a with
                    | Some t => (t, false)
                    | None => (XARPTable_configure new_XARPTable (a_capacity a) (a_entry_capacity a) (a_timeout a), true)
                    end in
  '(xid, en) ← addr;
  Some (mkQuerier t en xid (default _bcast_xid (a_broadcast a))
          (timeout_jiffies (default (mkStamp 60 0) (a_poll_timeout a)))
          (default false (a_broadcast_poll a)) 0 0 0 mine true).

(** [live_reconfigure] reads the addresses into the members; the local
    variables it then compares them with, and copies back, are as they were
    made: zero. *)
Definition live_reconfigure (q : XARPQuerier) (args : option querier_args) (addr : option (Xid * EtherAddress))
    (order : list Xid) : Z * XARPQuerier :=
  match args, addr with
  | None, _ => (-1, q)
  | Some a, None =>
      (-1, mkQuerier (_xarpt q) (_my_en q) (_my_xid q) (default (_my_bcast_xid q) (a_broadcast a))
             (_poll_timeout_j q) (_broadcast_poll q) (_xarp_queries q) (q_drops q) (_xarp_responses q)
             (_my_xarpt q) (_my_xid_configured q))
  | Some a, Some (xid, en) =>
      let my_xid := Xid_undef in
      let my_en := replicate 6 0 in
      let t := if decide ((my_xid ≠ xid ∨ my_en ≠ en) ∧ _my_xarpt q = true)
               then XARPTable_clear (_xarpt q) order else _xarpt q in
      let t := if _my_xarpt q then
                 let t := match a_capacity a with Some c => set_capacity t c | None => t end in
                 let t := match a_entry_capacity a with Some c => set_entry_capacity t c | None => t end in
                 match a_timeout a with Some s => set_timeout t s | None => t end
               else t in
      (0, mkQuerier t my_en my_xid _bcast_xid
            (match a_poll_timeout a with
             | Some s => timeout_jiffies s
             | None => timeout_jiffies (mkStamp (_poll_timeout_j q `div` CLICK_HZ) (_poll_timeout_j q mod CLICK_HZ))
             end)
            (default (_broadcast_poll q) (a_broadcast_poll a)) (_xarp_queries q) (q_drops q)
            (_xarp_responses q) (_my_xarpt q) (_my_xid_configured q))
  end.

Definition Querier_initialize (q : XARPQuerier) : XARPQuerier := with_stats q 0 0 0.

(** [take_state], with the old element, which keeps the rest of the table. *)
Definition Querier_take_state (q old : XARPQuerier) : XARPQuerier * XARPQuerier :=
  if decide (_my_xid q ≠ _my_xid old ∨ _my_en q ≠ _my_en old ∨ _my_bcast_xid q ≠ _my_bcast_xid old) then (q, old)
  else
    let '(t, t') := if _my_xarpt q && _my_xarpt old then (take_state (_xarpt q) (_xarpt old)).1
                    else (_xarpt q, _xarpt old) in
    (with_stats (with_xarpt q t) (_xarp_queries old) (q_drops old) (_xarp_responses old), with_xarpt old t').

Definition Querier_write_handler (mem : bool) (q : XARPQuerier) (c : table_command) (now : Z) : res (Z * XARPQuerier) :=
  match c with
  | h_insert _ | h_delete _ => r ← XARPTable_write_handler mem (_xarpt q) c now; Ok (r.1, with_xarpt q r.2)
  | h_clear order => Ok (0, with_stats (with_xarpt q (XARPTable_clear (_xarpt q) order)) 0 0 0)
  | h_other => Ok (-1, q)
  end.

(** ** XARPResponder *)

Record Entry := mkEntry { xida : Xid; ena : EtherAddress }.

(** [add], with the two words it parses; the second is parsed twice. *)
Definition responder_add (v : list Entry) (arg : option (Xid * option EtherAddress)) : Z * list Entry :=
  match arg with
  | None => (-1, v)
  | Some (x, Some e) => (0, v ++ [mkEntry x e])
  | Some (x, None) => (-22, v ++ [mkEntry x (replicate 6 0)])
  end.

(** The indices that are sorted all lie in the array. *)
Definition entry_compare (entries : list Entry) (a b : nat) : Z :=
  match entries !! a, entries !! b with
  | Some ea, Some eb =>
      if decide (xida ea = xida eb) then Z.of_nat b - Z.of_nat a else Z.of_nat a - Z.of_nat b
  | _, _ => Z.of_nat a - Z.of_nat b
  end.

(** An entry is dropped when the one before it has its XID. *)
Definition keep_entry (nv : list Entry) (e : Entry) : list Entry :=
  match last nv with
  | Some l => if decide (xida l = xida e) then nv else nv ++ [e]
  | None => nv ++ [e]
  end.

Definition normalize (v : list Entry) : res (list Entry) :=
  permute ← click_qsort (entry_compare v) (seq 0 (length v));
  foldM (λ nv i, e ← vget v i; Ok (keep_entry nv e)) [] permute.

(** The arguments that could not be read leave errors behind. *)
Definition Responder_configure (v : list Entry) (conf : list (option (Xid * option EtherAddress))) :
    res (Z * list Entry) :=
  let '(errors, nv) := fold_left (λ s arg, let r := responder_add s.2 arg in
                                   (if decide (r.1 < 0) then true else s.1, r.2)) conf (false, []) in
  if errors : bool then Ok (-1, v) else nv ← normalize nv; Ok (0, nv).

Fixpoint responder_lookup (v : list Entry) (x : Xid) : option EtherAddress :=
  match v with
  | [] => None
  | e :: v => if decide (x = xida e) then Some (ena e) else responder_lookup v x
  end.

Definition make_response (target_eth : EtherAddress) (target_xid : list Z) (src_eth : EtherAddress)
    (src_xid : list Z) : list Z :=
  click_ether target_eth src_eth ETHERTYPE_XARP
    ++ click_ether_xarp XARPOP_REPLY src_eth src_xid target_eth target_xid.

(** The answer, if there is memory for it; a frame without an answer goes to
    the second output. *)
Definition Responder_simple_action (mem : bool) (v : list Entry) (b : list Z) : option (list Z) * option (list Z) :=
  let q :=
    if decide (XARP_LEN ≤ Z.of_nat (length b) ∧ ether_type b = ETHERTYPE_XARP ∧ ar_hrd b = XARPHRD_ETHER
               ∧ ar_pro b = ETHERTYPE_XIP ∧ ar_op b = XARPOP_REQUEST) then
      match responder_lookup v (xid_of_field (xarp_tpa b)) with
      | Some ena => if mem then Some (make_response (xarp_sha b) (xarp_spa b) ena (xarp_tpa b)) else None
      | None => None
      end
    else None in
  (q, match q with Some _ => None | None => Some b end).

(** The handlers that add and remove an entry. *)
Definition Responder_add_handler (v : list Entry) (arg : option (Xid * option EtherAddress)) : res (Z * list Entry) :=
  let r := responder_add v arg in
  if decide (0 ≤ r.1) then nv ← normalize r.2; Ok (0, nv) else Ok (-1, v).

Fixpoint remove_entry (v : list Entry) (x : Xid) : option (list Entry) :=
  match v with
  | [] => None
  | e :: v => if decide (xida e = x) then Some v else option_map (cons e) (remove_entry v x)
  end.

Definition Responder_remove_handler (v : list Entry) (x : Xid) : Z * list Entry :=
  match remove_entry v x with Some v => (0, v) | None => (-22, v) end.
