(* ===== verification/XArpSpec.v ===== *)
(** * XArpSpec: packets reach the neighbour whose address is asked for

    A question that the querier sends is answered by the responder of the
    neighbour, and the answer sends the packets that wait, in their order, to
    the address it gives.  The querier keeps the invariant of its table. *)

From Stdlib Require Import ZArith Lia.
From stdpp Require Import base gmap sets list.
From S2P Require Import Prelude QSort QSortSpec XiaPath XidText XiaHeader RouteTable XArpTable XArpTableInv XArpTableSpec XArp.

Local Open Scope Z_scope.

(** ** Questions and answers *)

(** A question or an answer, from its parts. *)
Definition xarp_frame (dhost shost : EtherAddress) (op : Z) (sha : EtherAddress) (spa : list Z)
    (tha : EtherAddress) (tpa : list Z) : list Z :=
  click_ether dhost shost ETHERTYPE_XARP ++ click_ether_xarp op sha spa tha tpa.

Record frame_ok (dhost shost sha : EtherAddress) (spa : list Z) (tha : EtherAddress) (tpa : list Z) : Prop := {
  fo_dhost : length dhost = 6%nat; fo_shost : length shost = 6%nat; fo_sha : length sha = 6%nat;
  fo_spa : length spa = 24%nat; fo_tha : length tha = 6%nat; fo_tpa : length tpa = 24%nat }.

(** The fields of a frame that is made from its parts. *)
Lemma xarp_fields dhost shost op sha spa tha tpa :
  frame_ok dhost shost sha spa tha tpa → 0 ≤ op < 256 →
  let b := xarp_frame dhost shost op sha spa tha tpa in
  Z.of_nat (length b) = XARP_LEN ∧ ether_type b = ETHERTYPE_XARP ∧ ar_hrd b = XARPHRD_ETHER ∧
  ar_pro b = ETHERTYPE_XIP ∧ ar_op b = op ∧ xarp_sha b = sha ∧ xarp_spa b = spa ∧ xarp_tpa b = tpa.
Proof.
  intros [H1 H2 H3 H4 H5 H6] Hop b. unfold b, xarp_frame, click_ether, click_ether_xarp.
  assert (Hf : ∀ (pre f post : list Z) n k, length pre = n → length f = k → frame_field (pre ++ f ++ post) n k = f).
  { intros pre f post n k <- <-. unfold frame_field. by rewrite drop_app_length, take_app_length. }
  set (hdr := net16 XARPHRD_ETHER ++ net16 ETHERTYPE_XIP ++ [6; 24] ++ net16 op).
  assert (Hb : (dhost ++ shost ++ net16 ETHERTYPE_XARP) ++ net16 XARPHRD_ETHER ++ net16 ETHERTYPE_XIP
                 ++ [6; 24] ++ net16 op ++ sha ++ spa ++ tha ++ tpa
               = (dhost ++ shost) ++ net16 ETHERTYPE_XARP ++ hdr ++ sha ++ spa ++ tha ++ tpa)
    by (unfold hdr; by rewrite <- !app_assoc).
  rewrite Hb. split_and!.
  - rewrite !length_app, H1, H2, H3, H4, H5, H6. done.
  - unfold ether_type, field16. rewrite (Hf (dhost ++ shost) (net16 ETHERTYPE_XARP)); [done|by rewrite length_app, H1, H2|done].
  - unfold ar_hrd, field16. unfold hdr. rewrite (app_assoc (dhost ++ shost)), <- (app_assoc (net16 XARPHRD_ETHER)).
    rewrite (Hf _ (net16 XARPHRD_ETHER)); [done|by rewrite !length_app, H1, H2|done].
  - unfold ar_pro, field16. unfold hdr. rewrite <- !app_assoc, 3!app_assoc.
    rewrite (Hf _ (net16 ETHERTYPE_XIP)); [done|by rewrite !length_app, H1, H2|done].
  - unfold ar_op, field16. unfold hdr. rewrite <- !app_assoc, 5!app_assoc.
    rewrite (Hf _ (net16 op)); [|by rewrite !length_app, H1, H2|done]. unfold net16.
    rewrite (Z.div_small op 256), (Z.mod_small op 256) by done. lia.
  - unfold xarp_sha. rewrite (app_assoc (dhost ++ shost)), (app_assoc _ hdr).
    apply Hf; [|done]. rewrite !length_app, H1, H2. done.
  - unfold xarp_spa. rewrite (app_assoc (dhost ++ shost)), (app_assoc _ hdr), (app_assoc _ sha).
    apply Hf; [|done]. rewrite !length_app, H1, H2, H3. done.
  - unfold xarp_tpa. rewrite (app_assoc (dhost ++ shost)), (app_assoc _ hdr), (app_assoc _ sha), (app_assoc _ spa), (app_assoc _ tha).
    rewrite <- (app_nil_r tpa) at 1. apply Hf; [|done]. rewrite !length_app, H1, H2, H3, H4, H5. done.
Qed.

Lemma xid_field_bytes x : xid_ok x → xid_of_field (xid_bytes x) = x.
Proof.
  intros [Ht Hl]. unfold xid_of_field, xid_bytes.
  rewrite take_app_length', drop_app_length' by (by rewrite length_le_bytes).
  rewrite of_le_bytes_le_bytes by (simpl; lia). by destruct x.
Qed.

(** The question the querier sends to everybody. *)
Definition question (q : XARPQuerier) (x : Xid) : list Z :=
  xarp_frame make_broadcast (_my_en q) XARPOP_REQUEST (_my_en q) (xid_bytes (_my_xid q)) (replicate 6 0) (xid_bytes x).

(** The answer of the neighbour. *)
Definition answer (q : XARPQuerier) (x : Xid) (eth : EtherAddress) : list Z :=
  xarp_frame (_my_en q) eth XARPOP_REPLY eth (xid_bytes x) (_my_en q) (xid_bytes (_my_xid q)).

Lemma question_answered q x eth v :
  length (_my_en q) = 6%nat → xid_ok (_my_xid q) → xid_ok x → responder_lookup v x = Some eth →
  Responder_simple_action true v (question q x) = (Some (answer q x eth), None).
Proof.
  intros He Hm Hx Hv. unfold question.
  destruct (xarp_fields make_broadcast (_my_en q) XARPOP_REQUEST (_my_en q) (xid_bytes (_my_xid q)) (replicate 6 0) (xid_bytes x))
    as (Hl & F1 & F2 & F3 & F4 & F5 & F6 & F7).
  { split; try done; by apply length_xid_bytes. }
  { done. }
  unfold Responder_simple_action. rewrite decide_True by (split_and!; [by rewrite Hl|done..]).
  rewrite F7, xid_field_bytes, Hv, F5, F6 by done. done.
Qed.


(** ** Packets that wait *)

Definition querier_inv (q : XARPQuerier) : Prop := table_inv (_xarpt q) ∧ _my_xid_configured q = true.

(** The configuration of the querier is kept. *)
Record same_querier (q q' : XARPQuerier) : Prop := {
  sq_table : same_conf (_xarpt q) (_xarpt q');
  sq_en : _my_en q' = _my_en q;
  sq_xid : _my_xid q' = _my_xid q;
  sq_bcast : _my_bcast_xid q' = _my_bcast_xid q;
  sq_poll : _poll_timeout_j q' = _poll_timeout_j q }.

Lemma same_querier_refl q : same_querier q q.
Proof. by split. Qed.

Lemma same_querier_trans q1 q2 q3 : same_querier q1 q2 → same_querier q2 q3 → same_querier q1 q3.
Proof.
  intros [A1 A2 A3 A4 A5] [B1 B2 B3 B4 B5]. split; [by eapply same_conf_trans|congruence..].
Qed.

Definition enough : memory := mkMemory true true true.

Lemma send_query_same q f valid :
  ∃ n, (send_query_for enough q f valid).1 = with_stats q n (q_drops q) (_xarp_responses q).
Proof. unfold send_query_for. simpl. eauto. Qed.

(** The packet as it waits. *)
Definition waiting_frame (f : Frame) : Frame := set_ether_type f ETHERTYPE_XIP.

Definition next_hop (f : Frame) : Xid := nexthop_neighbor_xid_anno (f_pkt f).

(** The packets that wait for the neighbour [x], whose address is not known. *)
Definition waits (q : XARPQuerier) (x : Xid) (fs : list Frame) : Prop :=
  match _table (_xarpt q) !! x with
  | None => fs = []
  | Some ae => _known ae = false ∧ _queue ae = fs
  end.

Lemma fresh_asks {P} x now : ask_again (P := P) (fresh x now) now = true.
Proof.
  unfold ask_again, fresh. simpl. rewrite u32_add_l.
  rewrite (less_cong now _ (CLICK_HZ - CLICK_HZ `div` 10) 0); [done|].
  rewrite u32_sub_r. f_equal. unfold CLICK_HZ. simpl. lia.
Qed.

(** *** The three ways of a packet *)

Lemma resolve_known fuel q f clock r eth t :
  lookup_entry (_xarpt q) (next_hop f) (_poll_timeout_j q) (clock 0%nat) = (r, Some eth, t) →
  is_broadcast eth = false →
  ∃ n asked, resolve (S fuel) enough q f clock =
      Ok (with_stats (with_xarpt q t) n (q_drops q) (_xarp_responses q), asked ++ [emit q (set_dhost f eth)]) ∧
    (r ≤ 0 → asked = [] ∧ n = _xarp_queries q).
Proof.
  intros El Hb. cbn [resolve]. unfold next_hop in El. rewrite El, Hb.
  destruct (decide (0 < r)).
  - eexists _, _. split; [done|]. intros; lia.
  - exists (_xarp_queries q), []. split; [|done]. by destruct q.
Qed.

Lemma resolve_bcast fuel q f clock t :
  lookup_entry (_xarpt q) (next_hop f) (_poll_timeout_j q) (clock 0%nat) = (-1, None, t) →
  next_hop f = _my_bcast_xid q →
  resolve (S fuel) enough q f clock = Ok (with_xarpt q t, [emit q (set_dhost f make_broadcast)]).
Proof.
  intros El Hb. cbn [resolve]. unfold next_hop in *. rewrite El, Hb. simpl. by rewrite decide_True.
Qed.

Lemma resolve_unknown fuel q f clock a t t' :
  lookup_entry (_xarpt q) (next_hop f) (_poll_timeout_j q) (clock 0%nat) = (-1, None, t) →
  next_hop f ≠ _my_bcast_xid q →
  append_query true t (next_hop f) f (clock 1%nat) = Ok (a, t') → 0 ≤ a →
  ∃ n out, resolve (S fuel) enough q f clock =
      Ok (with_stats (with_xarpt q t') n (q_drops q) (_xarp_responses q), out) ∧
    (0 < a → out = [question q (next_hop f)]).
Proof.
  intros El Hb Ea Hr. cbn [resolve]. unfold next_hop in *. rewrite El.
  rewrite decide_False by done. cbn [with_xarpt _xarpt]. change (table_entry enough) with true.
  rewrite Ea. cbn [mbind res_bind fst snd]. rewrite decide_False by (unfold EAGAIN; lia).
  destruct (decide (0 < a)).
  - eexists _, _. split; [done|]. done.
  - exists (_xarp_queries q), []. split; [|lia]. by destruct q.
Qed.

(** One packet for the address [next_hop f], in one jiffy, with room for it:
    its effect on the packets that wait for [x]. *)
Lemma resolve_step fuel q f clock x fs :
  querier_inv q → entries_fit 1 (_xarpt q) → packets_fit 1 (_xarpt q) → clock 0%nat = clock 1%nat →
  x ≠ _my_bcast_xid q → waits q x fs →
  ∃ q' out, resolve (S fuel) enough q f clock = Ok (q', out) ∧ querier_inv q' ∧ same_querier q q' ∧
    (length (_age (_xarpt q')) <= length (_age (_xarpt q)) + 1)%nat ∧
    waiting (_xarpt q') ≤ waiting (_xarpt q) + 1 ∧
    waits q' x (if decide (next_hop f = x) then fs ++ [f] else fs) ∧
    (next_hop f ≠ x → _table (_xarpt q') !! x = _table (_xarpt q) !! x) ∧
    (next_hop f = x → _table (_xarpt q) !! x = None → question q x ∈ out).
Proof.
  intros [Hi Hc] He Hp Hclk Hb Hw.
  destruct (lookup_ok (_xarpt q) (next_hop f) (_poll_timeout_j q) (clock 0%nat) Hi)
    as (r & o & t' & El & Hi' & Hs & Ha & [(-> & -> & -> & Hun)|(ae & E & Ek & Hr & -> & Ht')]).
  - destruct (decide (next_hop f = _my_bcast_xid q)) as [Eb|Hnb].
    { rewrite (resolve_bcast fuel q f clock _ El Eb). eexists _, _. split; [done|].
      rewrite decide_False by congruence. split_and!; first [done|simpl; lia|congruence|idtac]. }
    destruct (append_roomy (_xarpt q) (next_hop f) f (clock 1%nat) Hi He Hp) as
      (t' & l & ae & Ea & Hi1 & Hs1 & Hor & Et & Hlen & Hwt).
    { intros ae E. rewrite <- Hclk. by apply Hun. }
    destruct (resolve_unknown fuel q f clock _ _ _ El Hnb Ea) as (n & out & -> & Hout).
    { by destruct (ask_again _ _). }
    eexists _, _. split; [done|]. split_and!; try done; [simpl; lia| | |].
    + unfold waits in *. simpl. rewrite Et. destruct (decide (next_hop f = x)) as [Ex|Hne].
      * rewrite Ex, lookup_insert_eq. simpl. rewrite Ex in Hor. destruct Hor as [E|[E ->]]; rewrite E in Hw.
        -- destruct Hw as [-> ->]. by rewrite drop_0.
        -- by subst.
      * by rewrite lookup_insert_ne.
    + intros Hne. simpl. by rewrite Et, lookup_insert_ne.
    + intros Ex En. rewrite Hout; [rewrite Ex; by apply list_elem_of_singleton|].
      rewrite Ex, En in Hor. destruct Hor as [|[_ ->]]; [done|]. by rewrite fresh_asks.
  - pose proof Ek as Ekn. unfold known in Ekn. apply andb_true_iff in Ekn as [Ekn _].
    destruct (resolve_known fuel q f clock _ _ _ El (inv_known _ _ _ Hi E Ekn)) as (n & asked & -> & _).
    assert (Hne : next_hop f ≠ x).
    { intros <-. unfold waits in Hw. rewrite E in Hw. destruct Hw as [Hw _]. congruence. }
    assert (waiting t' = waiting (_xarpt q) ∧ _table t' !! x = _table (_xarpt q) !! x) as [Hwt Hx].
    { destruct Ht' as [->| ->]; [done|].
      pose proof (lk_xid _ _ (at_linked _ _ _ (inv_ok _ Hi)) _ _ E) as Hid.
      split; [|simpl; rewrite Hid; by rewrite lookup_insert_ne].
      unfold waiting. simpl. rewrite Hid, total_insert;
        [|apply Hi|apply (lk_age _ _ (at_linked _ _ _ (inv_ok _ Hi))); eauto].
      unfold qlen. rewrite E. simpl. lia. }
    eexists _, _. split; [done|]. rewrite decide_False by done.
    split_and!; try done; [simpl; rewrite Ha; lia|simpl; lia|].
    unfold waits in *. simpl. by rewrite Hx.
Qed.

(** ** The packets that arrive, one after the other *)

Fixpoint push_all (q : XARPQuerier) (l : list (Frame * (nat → Z))) : res (XARPQuerier * list (list Z)) :=
  match l with
  | [] => Ok (q, [])
  | (f, clock) :: l =>
      r ← Querier_push enough q (Xip f) 0 (λ _, clock);
      s ← push_all r.1 l;
      Ok (s.1, r.2 ++ s.2)
  end.

(** The packets for [x] among them. *)
Definition for_hop (x : Xid) (l : list (Frame * (nat → Z))) : list Frame :=
  filter (λ f, next_hop f = x) (map fst l).

Definition one_jiffy (clock : nat → Z) : Prop := clock 0%nat = clock 1%nat.

Lemma push_all_ok q l x fs :
  querier_inv q → entries_fit (Z.of_nat (length l)) (_xarpt q) → packets_fit (Z.of_nat (length l)) (_xarpt q) →
  Forall (λ p, one_jiffy p.2) l → x ≠ _my_bcast_xid q → waits q x fs →
  ∃ q' out, push_all q l = Ok (q', out) ∧ querier_inv q' ∧ same_querier q q' ∧
    waits q' x (fs ++ map waiting_frame (for_hop x l)) ∧
    (_table (_xarpt q) !! x = None → for_hop x l ≠ [] → question q x ∈ out).
Proof.
  revert q fs. induction l as [|[f clock] l IH]; intros q fs Hq He Hp Hc Hb Hw.
  { exists q, []. split_and!; first [done|apply same_querier_refl|by rewrite app_nil_r]. }
  apply Forall_cons in Hc as [Hj Hc]. unfold entries_fit, packets_fit in *.
  cbn [length] in He, Hp.
  destruct (resolve_step 1 q (waiting_frame f) clock x fs) as (q1 & out & Er & Hq1 & Hs & Hlen & Hwt & Hw1 & Hkeep & Hask);
    [done|unfold entries_fit; lia|unfold packets_fit; lia|done..|].
  change (next_hop (waiting_frame f)) with (next_hop f) in *.
  destruct (sq_table _ _ Hs) as (C1 & C2 & _).
  destruct (IH q1 (if decide (next_hop f = x) then fs ++ [waiting_frame f] else fs))
    as (q2 & out2 & E2 & Hq2 & Hs2 & Hw2 & Hask2); [done|rewrite C1; lia|rewrite C2; lia|done| |done|].
  { by rewrite (sq_bcast _ _ Hs). }
  exists q2, (out ++ out2).
  assert (Hpush : push_all q ((f, clock) :: l) = Ok (q2, out ++ out2)).
  { cbn [push_all Querier_push]. unfold handle_xip. destruct Hq as [_ ->]. change (mac_header enough) with true.
    unfold ROUNDS. unfold waiting_frame in Er. rewrite Er. cbn [mbind res_bind fst snd]. by rewrite E2. }
  split; [done|]. split; [done|]. split; [by eapply same_querier_trans|].
  unfold for_hop in *. cbn [map fst]. rewrite filter_cons.
  assert (Hqs : question q1 x = question q x).
  { unfold question. by rewrite (sq_en _ _ Hs), (sq_xid _ _ Hs). }
  destruct (decide (next_hop f = x)) as [Ex|Hne].
  - split; [cbn [map]; by rewrite <- app_assoc in Hw2|]. intros Hno _. apply elem_of_app. left. by apply Hask.
  - split; [done|]. intros Hno Hx. apply elem_of_app. right. rewrite <- Hqs. apply Hask2; [|done].
    by rewrite Hkeep.
Qed.

(** ** The answer *)

Lemma fresh_known {P} (ae : XARPEntry P) eth now timeout q :
  is_broadcast eth = false → 0 ≤ timeout < 2 ^ 31 → known (confirmed ae eth now q) now timeout = true.
Proof.
  intros Hb Ht. unfold known, expired. simpl. rewrite Hb. simpl.
  rewrite (less_cong _ now timeout 0), less_small by (lia || (rewrite u32_sub_l; f_equal; lia)).
  destruct (Z.ltb_spec timeout 0); [lia|done].
Qed.

Lemma not_yet_polled now poll :
  0 ≤ poll < 2 ^ 31 → negb (poll =? 0) && negb (click_jiffies_less now (u32 (now + poll))) = false.
Proof.
  intros Hp. destruct (Z.eqb_spec poll 0); [done|]. simpl.
  rewrite (less_cong now _ 0 poll), less_small by (lia || (rewrite u32_sub_r; f_equal; lia)).
  destruct (Z.ltb_spec 0 poll); [done|lia].
Qed.

(** The packets that were waiting leave for the address, in their order. *)
Lemma send_cached_ok q x eth now ae qu fs clock :
  _my_xid_configured q = true → _table (_xarpt q) !! x = Some (confirmed ae eth now qu) → _xid ae = x →
  is_broadcast eth = false → 0 ≤ _timeout_j (_xarpt q) < 2 ^ 31 → 0 ≤ _poll_timeout_j q < 2 ^ 31 →
  Forall (λ f, next_hop f = x) fs → (∀ k, clock k 0%nat = now) →
  send_cached enough q fs clock = Ok (q, map (λ f, emit q (set_dhost f eth)) fs).
Proof.
  intros Hc E Hid Hb Ht Hp Hfs Hk. revert clock Hk. induction Hfs as [|f fs Hx _ IH]; intros clock Hk; [done|].
  cbn [send_cached]. unfold handle_xip. rewrite Hc. unfold ROUNDS.
  destruct (resolve_known 1 q f (clock 0%nat) 0 eth (_xarpt q)) as (n & asked & -> & Hn).
  - unfold lookup_entry. rewrite Hx, E, (Hk 0%nat), fresh_known by done. simpl.
    by rewrite (not_yet_polled now (_poll_timeout_j q) Hp).
  - done.
  - destruct Hn as [-> ->]; [lia|]. cbn [mbind res_bind fst snd app].
    assert (with_stats (with_xarpt q (_xarpt q)) (_xarp_queries q) (q_drops q) (_xarp_responses q) = q)
      as -> by (by destruct q).
    by rewrite (IH (λ n, clock (S n))).
Qed.

Lemma emitted q f eth :
  length (f_mac f) = 14%nat → length eth = 6%nat → length (_my_en q) = 6%nat →
  emit q (set_dhost (waiting_frame f) eth) = click_ether eth (_my_en q) ETHERTYPE_XIP ++ p_data (f_pkt f).
Proof.
  intros Hl He Hm. unfold emit, frame_bytes, set_shost, set_dhost, waiting_frame, set_ether_type, click_ether. simpl.
  rewrite take_app_length' by done. rewrite drop_app_ge by lia. rewrite He. simpl.
  rewrite drop_drop. simpl. rewrite drop_app_length' by (rewrite length_take; lia). done.
Qed.

(** The answer of the neighbour, when the packets [fs] wait for it. *)
Lemma answered q x eth fs now clock :
  querier_inv q → waits q x fs → Forall (λ f, next_hop f = x) fs →
  length (_my_en q) = 6%nat → xid_ok (_my_xid q) → xid_ok x → length eth = 6%nat → is_group eth = false →
  0 ≤ _timeout_j (_xarpt q) < 2 ^ 31 → 0 ≤ _poll_timeout_j q < 2 ^ 31 → (∀ k, clock k 0%nat = now) →
  ∃ q', handle_response enough q (answer q x eth) now clock =
      Ok (q', map (λ f, emit q (set_dhost f eth)) fs) ∧ lookup_address (_xarpt q') x now = eth.
Proof.
  intros [Hi Hc] Hw Hfs Hen Hmx Hx He Hg Ht Hp Hclk. unfold answer.
  destruct (xarp_fields (_my_en q) eth XARPOP_REPLY eth (xid_bytes x) (_my_en q) (xid_bytes (_my_xid q)))
    as (Hl & F1 & F2 & F3 & F4 & F5 & F6 & F7).
  { split; try done; by apply length_xid_bytes. }
  { done. }
  assert (Hb : is_broadcast eth = false).
  { apply bool_decide_eq_false. intros ->. done. }
  unfold handle_response. rewrite decide_False by (rewrite Hl; lia).
  rewrite F5, F6, xid_field_bytes by done. rewrite decide_True by done. cbn [table_entry enough with_stats _xarpt].
  destruct (insert_ok true (_xarpt q) x eth true now Hi) as [(? & _)|(t1 & t' & ae & E1 & Ex & -> & Hi' & Hs & Et)]; [done|].
  cbn [mbind res_bind init].
  assert (_queue ae = fs ∧ _xid ae = x) as [Hqu Hid].
  { destruct (ensure_ok true (_xarpt q) x now Hi) as [(? & _)|(t2 & E2 & Hi2 & _ & _ & Hf)]; [done|].
    assert (t2 = t1) as -> by congruence.
    split; [|apply (lk_xid _ _ (at_linked _ _ _ (inv_ok _ Hi2)) x ae Ex)].
    unfold waits in Hw. destruct (_table (_xarpt q) !! x) as [ae0|] eqn:E0.
    - unfold ensure in E1. rewrite E0 in E1. simplify_eq. by destruct Hw as [_ ->].
    - rewrite (Hf eq_refl) in Ex. by simplify_eq. }
  rewrite Hqu. destruct Hs as (_ & _ & Hto).
  rewrite (send_cached_ok _ x eth now ae []);
    [|done|simpl; by rewrite Et, lookup_insert_eq|done|done|simpl; by rewrite Hto|done|done|done].
  eexists. split; [done|].
  unfold lookup_address, lookup_entry. simpl. rewrite Et, lookup_insert_eq.
  rewrite fresh_known by (rewrite ?Hto; done). done.
Qed.

(** C12: Packets for a neighbour whose Ethernet address is not known, among
    packets for others, make the querier ask for it; the responder of the
    neighbour answers that question; and the answer makes the querier send
    every one of these packets, in the order in which they came and no other,
    with the address of the neighbour as destination and its own as source.
    From then on the table gives that address. *)
Theorem packets_delivered q v x eth l now clock :
  querier_inv q → length (_my_en q) = 6%nat → xid_ok (_my_xid q) →
  0 ≤ _timeout_j (_xarpt q) < 2 ^ 31 → 0 ≤ _poll_timeout_j q < 2 ^ 31 →
  xid_ok x → x ≠ _my_bcast_xid q → _table (_xarpt q) !! x = None →
  length eth = 6%nat → is_group eth = false → responder_lookup v x = Some eth →
  entries_fit (Z.of_nat (length l)) (_xarpt q) → packets_fit (Z.of_nat (length l)) (_xarpt q) →
  Forall (λ p, length (f_mac p.1) = 14%nat ∧ one_jiffy p.2) l → for_hop x l ≠ [] →
  (∀ k, clock k 0%nat = now) →
  ∃ q1 out reply q2,
    push_all q l = Ok (q1, out) ∧ question q x ∈ out ∧
    Responder_simple_action true v (question q x) = (Some reply, None) ∧
    handle_response enough q1 reply now clock =
      Ok (q2, map (λ f, click_ether eth (_my_en q) ETHERTYPE_XIP ++ p_data (f_pkt f)) (for_hop x l)) ∧
    lookup_address (_xarpt q2) x now = eth.
Proof.
  intros Hq Hen Hmx Ht Hp Hx Hb Hno He Hg Hv Hef Hpf Hl Hne Hclk.
  destruct (push_all_ok q l x []) as (q1 & out & E1 & Hq1 & Hs & Hw & Hask); [done..| |done| |].
  { eapply Forall_impl; [exact Hl|]. by intros p [_ ?]. }
  { unfold waits. by rewrite Hno. }
  assert (Ea : answer q x eth = answer q1 x eth) by (unfold answer; by rewrite (sq_en _ _ Hs), (sq_xid _ _ Hs)).
  destruct (answered q1 x eth (map waiting_frame (for_hop x l)) now clock) as (q2 & E2 & Hlook); try done.
  - apply Forall_map. apply Forall_forall. intros f Hf. unfold for_hop in Hf.
    apply list_elem_of_filter in Hf as [Hf _]. exact Hf.
  - by rewrite (sq_en _ _ Hs).
  - by rewrite (sq_xid _ _ Hs).
  - by destruct (sq_table _ _ Hs) as (_ & _ & ->).
  - by rewrite (sq_poll _ _ Hs).
  - exists q1, out, (answer q x eth), q2. split_and!; [done|by apply Hask|by apply question_answered| |done].
    rewrite Ea, E2. do 2 f_equal. rewrite map_map. apply map_ext_in. intros f Hf%list_elem_of_In.
    rewrite emitted; [by rewrite (sq_en _ _ Hs)| |done|by rewrite (sq_en _ _ Hs)].
    unfold for_hop in Hf. apply list_elem_of_filter in Hf as [_ Hf].
    apply list_elem_of_In, in_map_iff in Hf as (p & <- & Hp'%list_elem_of_In).
    rewrite Forall_forall in Hl. by apply Hl.
Qed.

(** ** Evaluation *)

Definition hop_a : Xid := mkXid 16 (replicate 20 10).
Definition hop_b : Xid := mkXid 16 (replicate 20 11).
Definition hop_c : Xid := mkXid 16 (replicate 20 12).
Definition eth_a : EtherAddress := [2; 0; 0; 0; 0; 10].
Definition eth_b : EtherAddress := [2; 0; 0; 0; 0; 11].

Definition host_a : XARPQuerier :=
  mkQuerier (XARPTable_configure new_XARPTable (Some 2048) (Some 16) None) eth_a hop_a _bcast_xid 60000 false 0 0 0 true true.

Definition host_b : list Entry := [mkEntry hop_b eth_b].

Definition frame_for (x : Xid) (b : Z) : Frame := mkFrame (replicate 14 0) (mkPacket [b] 0 0 x).
Definition at_time (now : Z) : nat → Z := λ _, now.

(** Packets 1 and 3 are for the neighbour [b], packet 2 for another. *)
Definition arrivals : list (Frame * (nat → Z)) :=
  [(frame_for hop_b 1, at_time 5); (frame_for hop_c 2, at_time 6); (frame_for hop_b 3, at_time 7)].

Lemma host_a_inv : querier_inv host_a.
Proof. split; [|done]. apply (configured_inv 2048 16 None); lia. Qed.

Lemma host_a_configured : Querier_configure (Some (mkArgs (Some 2048) (Some 16) None None None None None)) (Some (hop_a, eth_a)) = Some host_a.
Proof. vm_compute. reflexivity. Qed.

Lemma packets_delivered_witness :
  ∃ q1 out reply q2,
    push_all host_a arrivals = Ok (q1, out) ∧ question host_a hop_b ∈ out ∧
    Responder_simple_action true host_b (question host_a hop_b) = (Some reply, None) ∧
    handle_response enough q1 reply 9 (λ _, at_time 9) =
      Ok (q2, map (λ f, click_ether eth_b (_my_en host_a) ETHERTYPE_XIP ++ p_data (f_pkt f)) (for_hop hop_b arrivals)) ∧
    lookup_address (_xarpt q2) hop_b 9 = eth_b.
Proof.
  apply (packets_delivered host_a host_b hop_b eth_b arrivals 9 (λ _, at_time 9)).
  - exact host_a_inv.
  - reflexivity.
  - split; [simpl; lia|reflexivity].
  - vm_compute. split; [discriminate|reflexivity].
  - vm_compute. split; [discriminate|reflexivity].
  - split; [simpl; lia|reflexivity].
  - discriminate.
  - reflexivity.
  - reflexivity.
  - reflexivity.
  - reflexivity.
  - right. vm_compute. discriminate.
  - right. vm_compute. discriminate.
  - repeat constructor.
  - vm_compute. discriminate.
  - reflexivity.
Defined.
