(* ===== verification/XArpFaults.v ===== *)
(** * XArpFaults: the table of the responder, and inputs that go wrong

    A responder that is configured with different addresses answers for each of
    them.  After that, inputs for which the elements do not do what they mean
    to: a smaller capacity, a failed allocation, new arguments for a running
    querier, a long timeout, and two entries for one address. *)

From Stdlib Require Import ZArith Lia.
From stdpp Require Import base gmap sets list sorting.
From S2P Require Import Prelude QSort QSortSpec XiaPath XidText XiaHeader RouteTable XArpTable XArpTableInv XArpTableSpec XArp XArpSpec.

Local Open Scope Z_scope.

(** ** The responder is configured *)

Definition entry_arg (e : Entry) : option (Xid * option EtherAddress) := Some (xida e, Some (ena e)).

Lemma distinct_compare v a b : NoDup (map xida v) → entry_compare v a b = Z.of_nat a - Z.of_nat b.
Proof.
  intros Hnd. unfold entry_compare. destruct (v !! a) as [ea|] eqn:Ea; [|done].
  destruct (v !! b) as [eb|] eqn:Eb; [|done]. destruct (decide (xida ea = xida eb)) as [E|]; [|done].
  assert (a = b) as ->; [|lia]. eapply (NoDup_lookup (map xida v)); [done| |].
  - rewrite list_lookup_fmap, Ea. done.
  - rewrite list_lookup_fmap, Eb. simpl. by rewrite E.
Qed.

Lemma distinct_ordered v : NoDup (map xida v) → ordered (entry_compare v).
Proof. intros Hnd. split; intros *; rewrite !(distinct_compare v) by done; lia. Qed.

(** Numbers that are sorted and a permutation of the first [n] are these. *)
Lemma sorted_seq w n :
  w ≡ₚ seq 0 n → (∀ i j x y, (i < j)%nat → w !! i = Some x → w !! j = Some y → (x <= y)%nat) → w = seq 0 n.
Proof.
  intros Hp Hs. apply (StronglySorted_unique le).
  - apply Sorted_StronglySorted; [intros ? ? ?; lia|]. clear Hp. induction w as [|a w IH]; [done|].
    constructor.
    + apply IH. intros i j x y Hij. apply (Hs (S i) (S j)). lia.
    + destruct w as [|b w]; constructor. apply (Hs 0%nat 1%nat); [lia|done|done].
  - clear. generalize 0%nat. induction n as [|n IH]; intros k; [constructor|]. simpl. constructor; [apply IH|].
    apply Forall_forall. intros x Hx%elem_of_seq. lia.
  - done.
Qed.

Lemma normalize_keeps v kept todo :
  NoDup (map xida v) → v = kept ++ todo →
  foldM (λ nv i, e ← vget v i; Ok (keep_entry nv e)) kept (seq (length kept) (length todo)) = Ok v.
Proof.
  intros Hnd. revert kept. induction todo as [|e todo IH]; intros d Hv; [by rewrite app_nil_r in Hv; subst|].
  simpl. assert (Hg : vget v (length d) = Ok e) by (apply vget_Ok; subst; by rewrite list_lookup_middle).
  rewrite Hg. simpl.
  assert (Hk : keep_entry d e = d ++ [e]).
  { unfold keep_entry. destruct (last d) as [l|] eqn:El; [|done]. apply last_Some in El as [d' ->].
    rewrite decide_False; [done|]. intros E. subst v. rewrite !map_app in Hnd. simpl in Hnd.
    apply NoDup_app in Hnd as (_ & Hx & _). apply (Hx (xida e)); [|left].
    apply elem_of_app. right. rewrite E. left. }
  rewrite Hk. replace (S (length d)) with (length (d ++ [e])) by (rewrite length_app; simpl; lia).
  apply IH. subst. by rewrite <- app_assoc.
Qed.

Lemma normalize_distinct v :
  NoDup (map xida v) → Z.of_nat (length v) < 2 ^ 64 → normalize v = Ok v.
Proof.
  intros Hnd Hl. unfold normalize.
  destruct (qsort_runs (entry_compare v) (seq 0 (length v))) as (w & E & Hp & Hs); [by rewrite length_seq|].
  rewrite E. simpl. rewrite (sorted_seq w (length v) Hp).
  - by apply (normalize_keeps v [] v).
  - intros i j x y Hij Ex Ey.
    destruct (Hs (distinct_ordered v Hnd) i j Hij) as [Ho|(lo & hi & Hin & _)]; [|by apply not_elem_of_nil in Hin].
    specialize (Ho x y Ex Ey). rewrite (distinct_compare v) in Ho by done. lia.
Qed.

Lemma add_all v d :
  fold_left (λ s arg, let r := responder_add s.2 arg in (if decide (r.1 < 0) then true else s.1, r.2))
    (map entry_arg v) (false, d) = (false, d ++ v).
Proof.
  revert d. induction v as [|[x e] v IH]; intros d; simpl; [by rewrite app_nil_r|].
  rewrite IH. by rewrite <- app_assoc.
Qed.

Lemma lookup_distinct v x e : NoDup (map xida v) → mkEntry x e ∈ v → responder_lookup v x = Some e.
Proof.
  induction v as [|[y f] v IH]; intros Hnd Hin; [by apply not_elem_of_nil in Hin|].
  apply NoDup_cons in Hnd as [Hy Hnd]. apply elem_of_cons in Hin as [[= -> ->]|Hin]; simpl.
  - by rewrite decide_True.
  - rewrite decide_False; [by apply IH|]. intros ->. apply Hy. simpl.
    apply list_elem_of_fmap. by exists (mkEntry y e).
Qed.

(** A responder that is configured with entries for different addresses
    holds exactly these entries, in their order, and answers the question for
    any of the addresses with the Ethernet address of its entry. *)
Theorem responder_answers old v q x eth :
  NoDup (map xida v) → Z.of_nat (length v) < 2 ^ 64 → mkEntry x eth ∈ v →
  length (_my_en q) = 6%nat → xid_ok (_my_xid q) → xid_ok x →
  Responder_configure old (map entry_arg v) = Ok (0, v) ∧
  Responder_simple_action true v (question q x) = (Some (answer q x eth), None).
Proof.
  intros Hnd Hl Hin He Hm Hx. split.
  - unfold Responder_configure. rewrite add_all. simpl. by rewrite normalize_distinct.
  - apply question_answered; try done. by apply lookup_distinct.
Qed.

Lemma responder_answers_witness :
  Responder_configure [] (map entry_arg [mkEntry hop_a eth_a; mkEntry hop_b eth_b]) =
    Ok (0, [mkEntry hop_a eth_a; mkEntry hop_b eth_b]) ∧
  Responder_simple_action true [mkEntry hop_a eth_a; mkEntry hop_b eth_b] (question host_a hop_b) =
    (Some (answer host_a hop_b eth_b), None).
Proof.
  apply responder_answers.
  - apply NoDup_ListNoDup. repeat constructor; simpl; intuition discriminate.
  - reflexivity.
  - right. left.
  - reflexivity.
  - split; [simpl; lia|reflexivity].
  - split; [simpl; lia|reflexivity].
Defined.

(** ** Inputs that go wrong *)

(** Two entries for one address with another between them: both stay, and the
    earlier one answers. *)
Lemma later_entry_ignored :
  normalize [mkEntry hop_a eth_a; mkEntry hop_c eth_a; mkEntry hop_a eth_b] =
    Ok [mkEntry hop_a eth_a; mkEntry hop_c eth_a; mkEntry hop_a eth_b] ∧
  normalize [mkEntry hop_a eth_a; mkEntry hop_a eth_b] = Ok [mkEntry hop_a eth_b].
Proof. vm_compute. split; reflexivity. Qed.

(** A table whose capacity is lowered while packets wait deletes the entry that
    a packet is being queued for. *)
Lemma deleted_entry_used :
  (t ← foldM table_step (XARPTable_configure (new_XARPTable (P := nat)) (Some 1) (Some 2) None)
         [(OpAppend hop_a 1%nat, 5, true); (OpAppend hop_b 2%nat, 6, true)];
   append_query true (set_entry_capacity t 1) hop_a 3%nat 7) = Ub NullDeref.
Proof. vm_compute. reflexivity. Qed.

(** The timer brings such a table back within its bounds. *)
Lemma timer_restores {P} (t : XARPTable P) now :
  table_ok t → conf_ok t → Z.of_nat (length (_age t)) < 2 ^ 32 → waiting t < 2 ^ 32 →
  ∃ t', XARPTable_run_timer t now = Ok t' ∧ table_inv t'.
Proof.
  intros Hok Hc Hl Hw. unfold XARPTable_run_timer. destruct (slim_ok 0 0 now t Hok Hc) as (t' & -> & Hs); [lia|].
  assert (Hi : table_inv t').
  { split; [apply Hs|by eapply conf_ok_same; [apply Hs|]| |].
    - apply (slimmed_entries 0 0 now t); [done|done|lia|lia].
    - apply (slimmed_packets 0 0 now t); [done|lia|]. pose proof (slimmed_waiting _ _ _ _ _ Hs). lia. }
  simpl. destruct (decide _); eexists; (split; [done|by apply timer_inv]).
Qed.

(** An answer about a new address, when there is no memory for its entry: the
    loop reads the pointer that [insert] has not set. *)
Lemma answer_without_memory mem q x eth now clock :
  table_entry mem = false → _table (_xarpt q) !! x = None →
  length (_my_en q) = 6%nat → xid_ok (_my_xid q) → xid_ok x → length eth = 6%nat → is_group eth = false →
  handle_response mem q (answer q x eth) now clock = Ub Uninit.
Proof.
  intros Hmem Hno Hen Hmx Hx He Hg.
  destruct (xarp_fields (_my_en q) eth XARPOP_REPLY eth (xid_bytes x) (_my_en q) (xid_bytes (_my_xid q)))
    as (Hl & F1 & F2 & F3 & F4 & F5 & F6 & F7).
  { split; try done; by apply length_xid_bytes. }
  { done. }
  unfold answer, handle_response. rewrite decide_False by (rewrite Hl; lia).
  rewrite F5, F6, xid_field_bytes by done. rewrite decide_True by done.
  unfold XARPTable_insert, ensure. simpl. by rewrite Hno, Hmem.
Qed.

(** New arguments for a running querier: whatever addresses they give, the
    querier has none afterwards. *)
Lemma reconfigured_without_address q a xid en order :
  let q' := (live_reconfigure q (Some a) (Some (xid, en)) order).2 in
  _my_xid q' = Xid_undef ∧ _my_en q' = replicate 6 0.
Proof. done. Qed.

(** An address that was just confirmed is not known, when the timeout is more
    than 2^31 milliseconds. *)
Lemma long_timeout_expires {P} (ae : XARPEntry P) eth now q timeout_j :
  2 ^ 31 ≤ timeout_j < 2 ^ 32 → known (confirmed ae eth now q) now timeout_j = false.
Proof.
  intros Ht. unfold known, expired. simpl.
  rewrite (less_cong _ now (timeout_j - 2 ^ 32) 0), less_small.
  - destruct (Z.ltb_spec (timeout_j - 2 ^ 32) 0); [|lia]. destruct (Z.eqb_spec timeout_j 0); [lia|].
    simpl. by rewrite andb_false_r.
  - lia.
  - rewrite u32_sub_l, Z.sub_0_r. unfold u32, wrapU.
    replace (timeout_j - 2 ^ 32) with (timeout_j + (-1) * 2 ^ 32) by lia. rewrite Z.mod_add by lia. f_equal. lia.
Qed.

(** An address that is entered by hand leaves the packets that wait for it
    where they are. *)
Lemma insert_leaves_packets {P} (t : XARPTable P) x ae eth now :
  table_inv t → _table t !! x = Some ae → is_broadcast eth = false →
  ∃ t', XARPTable_write_handler true t (h_insert (Some (x, eth))) now = Ok (0, t') ∧
    ∃ ae', _table t' !! x = Some ae' ∧ _known ae' = true ∧ _queue ae' = _queue ae.
Proof.
  intros Hi E Hb.
  destruct (insert_ok true t x eth false now Hi) as [(? & _)|(t1 & t' & ae1 & E1 & Ex & Er & _ & _ & Et)]; [done|].
  assert (t1 = t) as -> by (unfold ensure in E1; rewrite E in E1; congruence).
  assert (ae1 = ae) as -> by congruence.
  exists t'. simpl. rewrite Er. split; [done|]. rewrite Et, lookup_insert_eq.
  eexists. split; [done|]. simpl. by rewrite Hb.
Qed.
