(* ===== verification/Xcmp.v ===== *)
(** * Xcmp: error messages and echoes (elements/xia/xcmp.{cc,hh})

    The element answers packets that cannot be forwarded with a message to their
    source, answers echo requests, and hands the other messages to the host.
    A message is written into memory from [new], whose bytes are an argument.
    [released] counts how often the element gives the packet away, by pushing or
    by killing it.  [DEBUG] is 1, so every handler logs: the text is left out, but
    not the printing of paths and XIDs for it, which may overrun a buffer, nor what
    is read from the packet.  (Printing a path writes the order of its nodes into
    it; every reader of the order computes it again first.) *)

From Stdlib Require Import ZArith Lia.
From stdpp Require Import base gmap sets list.
From S2P Require Import Prelude Text XiaPath XiaPathOrder XiaPathCodec XidText XiaPathText XiaHeader ExtHeader RouteTable XTransport.

Local Open Scope Z_scope.

(** ** Message types (include/clicknet/xia.h) *)

Definition XCMP_ECHOREPLY : Z := 0.
Definition XCMP_UNREACH : Z := 3.
Definition XCMP_UNREACH_HOST : Z := 1.
Definition XCMP_REDIRECT : Z := 5.
Definition XCMP_REDIRECT_HOST : Z := 1.
Definition XCMP_ECHO : Z := 8.
Definition XCMP_TIMXCEED : Z := 11.
Definition XCMP_TIMXCEED_REASSEMBLY : Z := 1.

(** [sizeof(struct click_xia_xcmp)] and [sizeof(struct click_xia_xid)]. *)
Definition XCMP_LEN : Z := 4.
Definition XID_LEN : Z := 24.

(** ** The checksum *)

(** The sum of the 16-bit words in the order of the machine; a last odd byte is
    a word of its own.  For the lengths that occur it stays below 2^31. *)
Fixpoint sum_words (b : list Z) : Z :=
  match b with
  | x :: y :: b => x + 256 * y + sum_words b
  | [x] => x
  | [] => 0
  end.

Definition in_cksum (b : list Z) : Z :=
  let sum := sum_words b in
  let sum := Z.shiftr sum 16 + Z.land sum 65535 in
  let sum := sum + Z.shiftr sum 16 in
  u16 (Z.lnot sum).

(** ** The element *)

(** What is pushed, with the output, and how often the packet is released. *)
Record xcmp_action := mkAction { a_out : list (Z * Packet); a_released : nat }.

(** Writing [d] at the place [o] of a block of memory. *)
Definition write_bytes (m : list Z) (o : Z) (d : list Z) : res (list Z) :=
  if decide (0 ≤ o ∧ o + Z.of_nat (length d) ≤ Z.of_nat (length m))
  then Ok (take (Z.to_nat o) m ++ d ++ drop (Z.to_nat o + length d) m) else Ub OutOfBounds.

(** Paths and XIDs are printed for the log. *)
Definition log_path (p : XIAPath) : res () := _ ← path_unparse (λ _, []) p; Ok ().
Definition log_xid (x : Xid) : res () := _ ← xid_unparse x; Ok ().

Section element.
Context (fresh_nodes : Z → list xid_node) (fresh_bytes : Z → list Z).
Context (_src_path : XIAPath).

(** [XIAHeaderEncap] with its next header and its paths. *)
Definition xcmp_header (dst src : XIAPath) : res XIAHeaderEncap :=
  let e := encap_set_nxt XIAHeaderEncap_new CLICK_XIA_NXT_XCMP in
  e ← encap_set_dst_path (fresh_nodes (u8 (unparse_node_size dst + unparse_node_size (en_src e)))) e dst;
  encap_set_src_path (fresh_nodes (u8 (unparse_node_size (en_dst e) + unparse_node_size src))) e src.

Definition xcmp_length (type size plen : Z) : Z :=
  let xlen := XCMP_LEN + XID_LEN * 2 + size + 8 in
  if decide (type = 0 ∧ xlen < XCMP_LEN + plen) then XCMP_LEN + plen else xlen.

(** The message about the packet [b]. *)
Definition xcmp_message (b : list Z) (type code : Z) (redirect : option (Xid * Xid)) : res (list Z) :=
  size ← hdr_size b;
  plen ← hdr_plen b;
  let xlen := xcmp_length type size plen in
  if decide (xlen < 1500) then
    pay ← payload b;
    let msg := fresh_bytes xlen in
    msg ← (if decide (type = 0) then d ← bytes_at b pay plen; write_bytes msg 0 d else Ok msg);
    msg ← (match redirect with
           | Some (lastaddr, nxthop) =>
               msg ← write_bytes msg XCMP_LEN (xid_bytes lastaddr);
               write_bytes msg (XCMP_LEN + XID_LEN) (xid_bytes nxthop)
           | None => Ok msg
           end);
    hd ← bytes_at b 0 size;
    msg ← write_bytes msg (XCMP_LEN + XID_LEN * 2) hd;
    first ← bytes_at b pay 8;
    msg ← write_bytes msg (XCMP_LEN + XID_LEN * 2 + size) first;
    msg ← write_bytes msg 0 [u8 type; u8 code; 0; 0];
    write_bytes msg 2 (le_bytes 2 (in_cksum msg))
  else Ub AssertFail.

(** The packet with the message, to the source of the packet [p_in]; its own
    source is [src], or the destination of [p_in]. *)
Definition sendXCMPPacket (p_in : Packet) (type code : Z) (redirect : option (Xid * Xid)) (src : option XIAPath) :
    res Packet :=
  let b := p_data p_in in
  msg ← xcmp_message b type code redirect;
  dst ← src_path b;
  src ← (match src with Some s => Ok s | None => dst_path b end);
  e ← xcmp_header dst src;
  Ok (mkPacket (encap e msg true) DESTINED_FOR_LOCALHOST 0 Xid_undef).

Definition sendUp (p_in : Packet) : Z * Packet := (1, SET_XIA_PAINT_ANNO p_in 0).

(** *** Packets that cannot be forwarded *)

(** The node the packet visited last. *)
Definition last_node (b : list Z) : res Xid :=
  last ← hdr_last b;
  dnode ← hdr_dnode b;
  node_xid b (if decide (last < 0) then last + dnode else last).

Definition processBadForwarding (p_in : Packet) : res (list (Z * Packet)) :=
  lnode ← last_node (p_data p_in);
  _ ← log_path _src_path;
  src ← src_path (p_data p_in);
  _ ← log_path src;
  _ ← log_xid lnode;
  p ← sendXCMPPacket p_in XCMP_REDIRECT XCMP_REDIRECT_HOST (Some (lnode, nexthop_neighbor_xid_anno p_in)) (Some _src_path);
  _ ← log_path _src_path;
  Ok [(0, p)].

Definition first_payload_byte (b : list Z) : res Z := pay ← payload b; vgetz b pay.

(** The line about a packet that cannot be delivered. *)
Definition log_unreachable (b : list Z) : res () :=
  _ ← log_path _src_path;
  src ← src_path b;
  _ ← log_path src;
  dst ← dst_path b;
  log_path dst.

Definition processUnreachable (p_in : Packet) : res (list (Z * Packet)) :=
  let b := p_data p_in in
  nxt ← hdr_nxt b;
  again ← (if decide (nxt = CLICK_XIA_NXT_XCMP) then t ← first_payload_byte b; Ok (bool_decide (t = XCMP_UNREACH))
           else Ok false);
  if again : bool then Ok []
  else
    dst ← dst_path b;
    v ← is_valid dst;
    if v.2 : bool then
      dst ← remove_node v.1 (Z.to_nat (p_dst v.1));
      if decide (unparse_node_size dst < 1) then Ok []
      else
        dst_hid ← path_xid dst (p_dst dst);
        if decide (dst_hid = _bcast_xid) then Ok []
        else
          _ ← log_unreachable b;
          p ← sendXCMPPacket p_in XCMP_UNREACH XCMP_UNREACH_HOST None (Some _src_path);
          _ ← log_path _src_path;
          src ← src_path b;
          _ ← log_path src;
          Ok [(0, p)]
    else
      _ ← unparse_re (λ _, []) v.1;
      _ ← log_unreachable b;
      Ok [].

Definition processExpired (p_in : Packet) : res (list (Z * Packet)) :=
  _ ← log_path _src_path;
  p ← sendXCMPPacket p_in XCMP_TIMXCEED XCMP_TIMXCEED_REASSEMBLY None (Some _src_path);
  _ ← log_path _src_path;
  Ok [(0, p)].

(** *** Messages that arrive *)

Definition gotPing (p_in : Packet) : res (list (Z * Packet)) :=
  _ ← log_path _src_path;
  pay ← payload (p_data p_in);
  _ ← bytes_at (p_data p_in) (pay + 6) 2;
  p ← sendXCMPPacket p_in XCMP_ECHOREPLY 0 None None;
  _ ← log_path _src_path;
  _ ← bytes_at (p_data p_in) 6 2;
  Ok [(0, p)].

Definition gotPong (p_in : Packet) : res (list (Z * Packet)) :=
  _ ← log_path _src_path;
  pay ← payload (p_data p_in);
  _ ← bytes_at (p_data p_in) (pay + 6) 2;
  Ok [sendUp p_in].

Definition gotExpired (p_in : Packet) : res (list (Z * Packet)) :=
  _ ← log_path _src_path; Ok [sendUp p_in].

Definition gotUnreachable (p_in : Packet) : res (list (Z * Packet)) :=
  _ ← log_path _src_path; Ok [sendUp p_in].

(** The most that is copied of a redirect. *)
Definition MSIZE : Z := 1024.

(** The redirect is packed again, for the host, behind a path to the
    destination it is about. *)
Definition gotRedirect (p_in : Packet) : res (list (Z * Packet)) :=
  let b := p_data p_in in
  _ ← log_path _src_path;
  pay ← payload b;
  baddest ← xid_at b (pay + XCMP_LEN);
  newroute ← xid_at b (pay + XCMP_LEN + XID_LEN);
  src ← src_path b;
  _ ← log_path src;
  dst ← dst_path b;
  _ ← log_path dst;
  _ ← log_xid baddest;
  _ ← log_xid newroute;
  plen ← hdr_plen b;
  let cplen := if decide (MSIZE < plen) then MSIZE else plen in
  msg ← bytes_at b pay cplen;
  let d := path_add_node XIAPath_reset Xid_undef in
  let n := path_add_node d.1 baddest in
  dest ← path_add_edge n.1 d.2 n.2 npos;
  e ← xcmp_header dest _src_path;
  Ok [(1, mkPacket (encap e msg true) 1 0 Xid_undef)].

(** *** The input *)

Definition processPacket (p_in : Packet) : res (option (list (Z * Packet))) :=
  if decide (XIA_PAINT_ANNO p_in ≤ -1 * TOTAL_SPECIAL_CASES) then o ← processBadForwarding p_in; Ok (Some o)
  else if decide (XIA_PAINT_ANNO p_in = UNREACHABLE) then o ← processUnreachable p_in; Ok (Some o)
  else
    hlim ← hdr_hlim (p_data p_in);
    if decide (hlim ≤ 1) then o ← processExpired p_in; Ok (Some o) else Ok None.

(** What is pushed, and how often the packet is given away on the way. *)
Definition gotXCMPPacket (p_in : Packet) : res xcmp_action :=
  t ← first_payload_byte (p_data p_in);
  if decide (t = XCMP_ECHO) then o ← gotPing p_in; Ok (mkAction o 0)
  else if decide (t = XCMP_ECHOREPLY) then o ← gotPong p_in; Ok (mkAction o 1)
  else if decide (t = XCMP_TIMXCEED) then o ← gotExpired p_in; Ok (mkAction o 1)
  else if decide (t = XCMP_UNREACH) then o ← gotUnreachable p_in; Ok (mkAction o 1)
  else if decide (t = XCMP_REDIRECT) then o ← gotRedirect p_in; Ok (mkAction o 1)
  else Ok (mkAction [] 0).

(** [push] kills the packet at its end, in every case. *)
Definition XCMP_push (p_in : Packet) : res xcmp_action :=
  r ← processPacket p_in;
  match r with
  | Some o => Ok (mkAction o 1)
  | None =>
      nxt ← hdr_nxt (p_data p_in);
      if decide (nxt = CLICK_XIA_NXT_XCMP) then a ← gotXCMPPacket p_in; Ok (mkAction (a_out a) (S (a_released a)))
      else Ok (mkAction [] 1)
  end.

End element.
