(* ===== verification/XcmpSpec.v ===== *)
(** * XcmpSpec: error messages and echoes

    Every message the element sends verifies against its checksum and goes back
    to the source of the packet.  An echo request is answered with its own
    identifier, number and data.  The faults are packets that are released
    twice, echo requests that stop the router, data that comes back changed and
    memory that leaves with the messages. *)

From Stdlib Require Import ZArith Lia.
From stdpp Require Import base gmap sets list.
From S2P Require Import Prelude Text XiaPath XiaPathOrder XiaPathCodec XidText XiaPathText XiaHeader ExtHeader PathCopies RouteTable XTransport TransportWire Xcmp.

Local Open Scope Z_scope.

(** ** The log *)

(** A path that can be printed. *)
Record loggable (p : XIAPath) : Prop := { lg_fits : path_fits p; lg_print : path_printable p }.

Lemma log_path_ok p : loggable p → log_path p = Ok ().
Proof. intros [Hf Hp]. unfold log_path. by destruct (path_unparse_total p Hf Hp) as [r ->]. Qed.

Lemma log_xid_ok x : printable x → log_xid x = Ok ().
Proof. intros (Hk & Hl & _). unfold log_xid. by rewrite (xid_unparse_known x Hk Hl). Qed.

(** ** The checksum *)

Definition fold16 (s : Z) : Z := let s1 := s / 65536 + s mod 65536 in (s1 + s1 / 65536) mod 65536.

Lemma fold16_mod s : 0 < s < 2 ^ 31 → fold16 s = (s - 1) mod 65535 + 1.
Proof.
  intros Hs. unfold fold16. cbv zeta.
  pose proof (Z.div_mod s 65536 ltac:(lia)) as Hd. pose proof (Z.mod_pos_bound s 65536 ltac:(lia)) as Hr.
  set (q := s / 65536) in *. set (r := s mod 65536) in *. clearbody q r.
  destruct (decide (q + r ≤ 65535)) as [Hle|Hgt].
  - rewrite (Z.div_small (q + r)), Z.add_0_r, Z.mod_small by lia.
    replace (s - 1) with (q + r - 1 + q * 65535) by lia. rewrite Z.mod_add, Z.mod_small by lia. lia.
  - replace ((q + r) / 65536) with 1 by (apply (Z.div_unique _ _ 1 (q + r - 65536)); lia).
    replace (q + r + 1) with (q + r - 65535 + 1 * 65536) by lia. rewrite Z.mod_add, Z.mod_small by lia.
    replace (s - 1) with (q + r - 1 - 65535 + (q + 1) * 65535) by lia. rewrite Z.mod_add, Z.mod_small by lia. lia.
Qed.

Lemma in_cksum_fold b : in_cksum b = 65535 - fold16 (sum_words b).
Proof.
  unfold in_cksum, fold16. cbv zeta. rewrite !Z.shiftr_div_pow2 by lia. change (2 ^ 16) with 65536.
  assert (∀ z, Z.land z 65535 = z mod 65536) as -> by (intros z; apply (Z.land_ones z 16); lia).
  set (z := _ + _ `div` 65536). unfold u16, wrapU. change (2 ^ 16) with 65536. unfold Z.lnot, Z.pred.
  pose proof (Z.div_mod z 65536 ltac:(lia)). pose proof (Z.mod_pos_bound z 65536 ltac:(lia)).
  symmetry. apply (Z.mod_unique _ _ (- (z / 65536) - 1)); lia.
Qed.

Lemma sum_words_le n b :
  (length b <= n)%nat → Forall is_byte b → 0 ≤ sum_words b ≤ 65535 * Z.of_nat (length b).
Proof.
  revert b. induction n as [|n IH]; intros b Hn Hb.
  { destruct b; [simpl; lia|simpl in Hn; lia]. }
  destruct Hb as [|x b' Hx [|y b'' Hy Hb]]; [simpl; lia| |].
  - unfold is_byte in Hx. simpl. lia.
  - unfold is_byte in Hx, Hy. specialize (IH b'' ltac:(simpl in Hn; lia) Hb). cbn [sum_words length]. lia.
Qed.

Lemma sum_words_bound b : Forall is_byte b → 0 ≤ sum_words b ≤ 65535 * Z.of_nat (length b).
Proof. by apply (sum_words_le (length b)). Qed.

Lemma in_cksum_range b : 0 ≤ in_cksum b < 65536.
Proof. apply wrapU_range. lia. Qed.

(** A message with its checksum in its place sums up to nothing. *)
Lemma cksum_verifies x0 x1 rest :
  is_byte x0 → is_byte x1 → Forall is_byte rest → Z.of_nat (length rest) < 32000 →
  in_cksum (x0 :: x1 :: le_bytes 2 (in_cksum (x0 :: x1 :: 0 :: 0 :: rest)) ++ rest) = 0.
Proof.
  intros H0 H1 Hr Hl. set (b := x0 :: x1 :: 0 :: 0 :: rest). set (c := in_cksum b).
  pose proof (in_cksum_range b) as Hc. fold c in Hc.
  pose proof (sum_words_bound rest Hr) as Hs. unfold is_byte in H0, H1.
  assert (Hsum : sum_words (x0 :: x1 :: le_bytes 2 c ++ rest) = sum_words b + c).
  { unfold b. cbn [le_bytes app sum_words]. pose proof (Z.div_mod c 256 ltac:(lia)).
    rewrite (Z.mod_small (c / 256)) by (split; [apply Z.div_pos|apply Z.div_lt_upper_bound]; lia). lia. }
  rewrite in_cksum_fold, Hsum. assert (Hb : 0 ≤ sum_words b < 2 ^ 31 - 65536) by (unfold b; cbn [sum_words]; lia).
  unfold c. rewrite in_cksum_fold. destruct (decide (sum_words b = 0)) as [->|]; [reflexivity|].
  rewrite (fold16_mod (sum_words b)) by lia. set (s := sum_words b) in *.
  pose proof (Z.mod_pos_bound (s - 1) 65535 ltac:(lia)). pose proof (Z.div_mod (s - 1) 65535 ltac:(lia)).
  rewrite fold16_mod by lia.
  replace (s + (65535 - ((s - 1) mod 65535 + 1)) - 1) with (65534 + ((s - 1) / 65535) * 65535) by lia.
  rewrite Z.mod_add, Z.mod_small by lia. lia.
Qed.

(** ** The message in memory *)

Lemma write_mid (a b c d : list Z) o :
  o = Z.of_nat (length a) → length d = length b → write_bytes (a ++ b ++ c) o d = Ok (a ++ d ++ c).
Proof.
  intros -> Hd. unfold write_bytes. rewrite decide_True by (rewrite !length_app; lia).
  rewrite Nat2Z.id, take_app_length. do 3 f_equal.
  rewrite drop_app_ge by lia. replace (length a + length d - length a)%nat with (length b) by lia.
  apply drop_app_length.
Qed.

Lemma write_first (b c d : list Z) : length d = length b → write_bytes (b ++ c) 0 d = Ok (d ++ c).
Proof. apply (write_mid [] b c d 0). done. Qed.

Lemma bytes_in (b : list Z) o n :
  0 ≤ o → 0 ≤ n → o + n ≤ Z.of_nat (length b) → bytes_at b o n = Ok (take (Z.to_nat n) (drop (Z.to_nat o) b)).
Proof. intros. unfold bytes_at. by rewrite decide_True. Qed.

(** A message with its type, its code and its checksum in front of [rest]. *)
Definition sealed (type code : Z) (rest : list Z) : list Z :=
  u8 type :: u8 code :: le_bytes 2 (in_cksum (u8 type :: u8 code :: 0 :: 0 :: rest)) ++ rest.

Lemma sealed_verifies type code rest :
  Forall is_byte rest → Z.of_nat (length rest) < 32000 → in_cksum (sealed type code rest) = 0.
Proof. apply cksum_verifies; apply u8_byte. Qed.

Lemma length_sealed type code rest : length (sealed type code rest) = (4 + length rest)%nat.
Proof. done. Qed.

Lemma drop_sealed type code rest : drop 4 (sealed type code rest) = rest.
Proof. done. Qed.

(** The first four bytes are written, then the checksum. *)
Lemma seal_ok m0 rest type code :
  length m0 = 4%nat →
  (msg ← write_bytes (m0 ++ rest) 0 [u8 type; u8 code; 0; 0]; write_bytes msg 2 (le_bytes 2 (in_cksum msg)))
  = Ok (sealed type code rest).
Proof.
  intros Hm. rewrite write_first by done. cbn [mbind res_bind].
  change ([u8 type; u8 code; 0; 0] ++ rest) with ([u8 type; u8 code] ++ [0; 0] ++ rest).
  rewrite write_mid by done. done.
Qed.

Section message.
Context (fresh_bytes : Z → list Z).
Context (Hfresh : ∀ n, 0 ≤ n → Z.of_nat (length (fresh_bytes n)) = n ∧ Forall is_byte (fresh_bytes n)).

(** The memory when the data of an echo request has been copied. *)
Definition copied (b : list Z) (type pay plen size : Z) : list Z :=
  let m := fresh_bytes (xcmp_length type size plen) in
  if decide (type = 0) then take (Z.to_nat plen) (drop (Z.to_nat pay) b) ++ drop (Z.to_nat plen) m else m.

(** The addresses of a redirect, or what the memory held. *)
Definition addresses (redirect : option (Xid * Xid)) (m : list Z) : list Z :=
  match redirect with
  | Some (l, n) => xid_bytes l ++ xid_bytes n
  | None => take 48 (drop 4 m)
  end.

Definition redirect_ok (redirect : option (Xid * Xid)) : Prop :=
  match redirect with Some (l, n) => xid_ok l ∧ xid_ok n | None => True end.

Lemma xcmp_length_le type size plen : 0 ≤ size → 0 ≤ plen →
  4 + 48 + size + 8 ≤ xcmp_length type size plen ∧ (type = 0 → plen ≤ xcmp_length type size plen).
Proof.
  intros Hs Hp. unfold xcmp_length, XCMP_LEN, XID_LEN. case_decide; lia.
Qed.

Lemma copied_ok b type pay plen size :
  0 ≤ size → 0 ≤ plen → 0 ≤ pay → (type = 0 → pay + plen ≤ Z.of_nat (length b)) →
  (msg ← (if decide (type = 0) then d ← bytes_at b pay plen; write_bytes (fresh_bytes (xcmp_length type size plen)) 0 d
          else Ok (fresh_bytes (xcmp_length type size plen))); Ok msg) = Ok (copied b type pay plen size) ∧
  Z.of_nat (length (copied b type pay plen size)) = xcmp_length type size plen.
Proof using Hfresh.
  intros Hs Hp Hpay Hfit. destruct (xcmp_length_le type size plen Hs Hp) as [Hx Hx0].
  destruct (Hfresh (xcmp_length type size plen)) as [Hl _]; [lia|]. unfold copied.
  destruct (decide (type = 0)) as [Ht|]; [|done]. specialize (Hfit Ht). specialize (Hx0 Ht).
  unfold bytes_at. rewrite decide_True by lia. cbn [mbind res_bind].
  assert (length (take (Z.to_nat plen) (drop (Z.to_nat pay) b)) = Z.to_nat plen) as Hd
    by (rewrite length_take, length_drop; lia).
  split.
  - rewrite <- (take_drop (Z.to_nat plen) (fresh_bytes _)) at 1. rewrite write_first; [done|].
    rewrite Hd, length_take. lia.
  - rewrite length_app, Hd, length_drop. lia.
Qed.

(** The parts of the memory that are written. *)
Lemma split_tail {A} (m : list A) size :
  drop 52 m = take (Z.to_nat size) (drop 52 m) ++ take 8 (drop (52 + Z.to_nat size) m) ++ drop (60 + Z.to_nat size) m.
Proof using.
  rewrite <- (take_drop (Z.to_nat size) (drop 52 m)) at 1. f_equal.
  rewrite drop_drop. rewrite <- (take_drop 8 (drop (52 + Z.to_nat size) m)) at 1. f_equal.
  rewrite drop_drop. f_equal. lia.
Qed.

Lemma length_addresses redirect m :
  redirect_ok redirect → (52 <= length m)%nat → length (addresses redirect m) = 48%nat.
Proof using.
  intros Hre Hl. destruct redirect as [[l n]|]; cbn [addresses redirect_ok] in *.
  - destruct Hre as [H1 H2]. by rewrite length_app, (length_xid_bytes l H1), (length_xid_bytes n H2).
  - rewrite length_take, length_drop. lia.
Qed.

Lemma addresses_ok redirect m :
  redirect_ok redirect → (52 <= length m)%nat →
  match redirect with
  | Some (lastaddr, nxthop) =>
      msg ← write_bytes m 4 (xid_bytes lastaddr); write_bytes msg (4 + 24) (xid_bytes nxthop)
  | None => Ok m
  end = Ok (take 4 m ++ addresses redirect m ++ drop 52 m).
Proof using.
  intros Hre Hl.
  assert (Hm : m = take 4 m ++ take 24 (drop 4 m) ++ take 24 (drop 28 m) ++ drop 52 m).
  { rewrite <- (take_drop 4 m) at 1. f_equal. rewrite <- (take_drop 24 (drop 4 m)) at 1. f_equal.
    replace (drop 24 (drop 4 m)) with (drop 28 m) by (by rewrite drop_drop).
    rewrite <- (take_drop 24 (drop 28 m)) at 1. f_equal. by rewrite drop_drop. }
  destruct redirect as [[l n]|]; cbn [addresses].
  - destruct Hre as [Hx Hn]. pose proof (length_xid_bytes l Hx) as Lx. pose proof (length_xid_bytes n Hn) as Ln.
    rewrite Hm at 1. rewrite (write_mid (take 4 m)) by (rewrite ?length_take, ?length_drop; lia). cbn [mbind res_bind].
    rewrite (app_assoc (take 4 m)), write_mid by (rewrite ?length_app, ?length_take, ?length_drop; lia).
    by rewrite <- !app_assoc.
  - f_equal. rewrite <- (take_drop 4 m) at 1. f_equal. rewrite <- (take_drop 48 (drop 4 m)) at 1. f_equal. by rewrite drop_drop.
Qed.

Lemma message_ok b type code redirect size plen pay :
  hdr_size b = Ok size → hdr_plen b = Ok plen → payload b = Ok pay →
  0 ≤ size ≤ Z.of_nat (length b) → 0 ≤ plen → 0 ≤ pay → pay + 8 ≤ Z.of_nat (length b) →
  (type = 0 → pay + plen ≤ Z.of_nat (length b)) → xcmp_length type size plen < 1500 → redirect_ok redirect →
  let m := copied b type pay plen size in
  xcmp_message fresh_bytes b type code redirect =
    Ok (sealed type code (addresses redirect m ++ take (Z.to_nat size) b ++ take 8 (drop (Z.to_nat pay) b)
                            ++ drop (60 + Z.to_nat size) m)).
Proof using Hfresh.
  intros Es Ep Epay Hs Hp Hpay H8 Hfit Hlt Hre m. unfold xcmp_message. rewrite Es, Ep. cbn [mbind res_bind].
  rewrite decide_True by done. rewrite Epay. cbn [mbind res_bind].
  destruct (copied_ok b type pay plen size) as [Ec Hl]; [lia..|done|]. fold m in Ec, Hl.
  destruct (xcmp_length_le type size plen) as [Hx _]; [lia..|].
  apply bind_Ok in Ec as (m' & -> & [= ->]). cbn [mbind res_bind].
  assert (Lm : (60 + Z.to_nat size <= length m)%nat) by lia. clear Hl Hx. clearbody m.
  unfold XCMP_LEN, XID_LEN. rewrite (addresses_ok redirect m) by (done || lia). cbn [mbind res_bind].
  rewrite (split_tail m size).
  set (m0 := take 4 m). set (m3 := take (Z.to_nat size) (drop 52 m)). set (m4 := take 8 (drop (52 + Z.to_nat size) m)).
  set (m5 := drop (60 + Z.to_nat size) m). assert (L0 : length m0 = 4%nat) by (unfold m0; rewrite length_take; lia).
  assert (L3 : length m3 = Z.to_nat size) by (unfold m3; rewrite length_take, length_drop; lia).
  assert (L4 : length m4 = 8%nat) by (unfold m4; rewrite length_take, length_drop; lia).
  assert (LA : length (addresses redirect m) = 48%nat) by (apply length_addresses; [done|lia]).
  rewrite (bytes_in b 0 size) by lia. cbn [mbind res_bind]. change (drop (Z.to_nat 0) b) with b.
  rewrite (app_assoc m0), write_mid; [|rewrite length_app; lia|rewrite length_take; lia]. cbn [mbind res_bind].
  rewrite (bytes_in b pay 8) by lia. cbn [mbind res_bind].
  rewrite (app_assoc _ (take (Z.to_nat size) b)), write_mid;
    [|rewrite !length_app, length_take; lia|rewrite length_take, length_drop; lia]. cbn [mbind res_bind].
  rewrite <- !app_assoc. by apply seal_ok.
Qed.

Lemma copied_bytes b type pay plen size :
  0 ≤ size → 0 ≤ plen → Forall is_byte b → Forall is_byte (copied b type pay plen size).
Proof using Hfresh.
  intros Hs Hp Hb. unfold copied. destruct (xcmp_length_le type size plen Hs Hp) as [Hx _].
  destruct (Hfresh (xcmp_length type size plen)) as [_ Hf]; [lia|].
  case_decide; [|done]. apply Forall_app_2; [by apply Forall_take, Forall_drop|by apply Forall_drop].
Qed.

(** ** Packets with messages *)

Context (fresh_nodes : Z → list xid_node) (Hnodes : ∀ n, 0 ≤ n → Z.of_nat (length (fresh_nodes n)) = n).

Lemma xcmp_header_new dst src plen :
  new_header fresh_nodes CLICK_XIA_NXT_XCMP (-1) 250 dst src plen =
    e ← xcmp_header fresh_nodes dst src; Ok (encap_set_plen e plen).
Proof using.
  unfold new_header, xcmp_header.
  change (encap_set_hlim (encap_set_last (encap_set_nxt XIAHeaderEncap_new CLICK_XIA_NXT_XCMP) (-1)) 250)
    with (encap_set_nxt XIAHeaderEncap_new CLICK_XIA_NXT_XCMP).
  destruct (encap_set_dst_path _ _ _); [|done]. cbn [mbind res_bind]. by destruct (encap_set_src_path _ _ _).
Qed.

Lemma encap_adjusted e data :
  Z.of_nat (length data) < 65536 →
  encap (encap_set_plen e (Z.of_nat (length data))) data false = encap e data true.
Proof using.
  intros H. unfold encap. simpl. unfold u16. by rewrite wrapU_small by lia.
Qed.

(** A packet with the message [msg] can be read. *)
Lemma packet_reads dst src msg :
  path_fits dst → path_fits src → Z.of_nat (length msg) < 65536 →
  ∃ e dq sq, xcmp_header fresh_nodes dst src = Ok e ∧ reads (encap e msg true) CLICK_XIA_NXT_XCMP dq sq msg ∧
    (∃ p', same_path dst p' dq) ∧ (∃ p', same_path src p' sq).
Proof using Hnodes.
  intros Hd Hs Hm.
  destruct (encap_reads fresh_nodes Hnodes CLICK_XIA_NXT_XCMP (-1) 250 dst src msg) as (e & dq & sq & E & Hr & H1 & H2 & _);
    [unfold CLICK_XIA_NXT_XCMP; lia|done..|].
  rewrite xcmp_header_new in E. apply bind_Ok in E as (e' & E & [= <-]).
  exists e', dq, sq. rewrite encap_adjusted in Hr by done. done.
Qed.

(** A packet that the element can answer: its header can be read, and eight
    bytes of its payload. *)
Record answerable (b : list Z) (nxt : Z) (dst src : XIAPath) (data : list Z) (pay size : Z) : Prop := {
  an_reads : reads b nxt dst src data;
  an_size : hdr_size b = Ok size;
  an_payload : payload b = Ok pay;
  an_first : 0 ≤ pay ∧ pay + 8 ≤ Z.of_nat (length b);
  an_bytes : Forall is_byte b;
  an_src : loggable src }.

Lemma answerable_size b nxt dst src data pay size :
  answerable b nxt dst src data pay size → 8 ≤ size ≤ Z.of_nat (length b).
Proof using.
  intros Ha. destruct (reads_size _ _ _ _ _ (an_reads _ _ _ _ _ _ _ Ha)) as (pre & -> & E & Hl).
  rewrite (an_size _ _ _ _ _ _ _ Ha) in E. injection E as ->. rewrite length_app. lia.
Qed.

(** The message [msg] about the packet [b]: the header of [b] and the first
    eight bytes of its payload, behind the addresses of a redirect. *)
Record message_about (b : list Z) (type code pay size : Z) (msg : list Z) : Prop := {
  ma_cksum : in_cksum msg = 0;
  ma_type : take 2 msg = [type; code];
  ma_header : take (Z.to_nat size) (drop 52 msg) = take (Z.to_nat size) b;
  ma_first : take 8 (drop (52 + Z.to_nat size) msg) = take 8 (drop (Z.to_nat pay) b) }.

Definition redirect_bytes (redirect : option (Xid * Xid)) : Prop :=
  match redirect with
  | Some (l, n) => Forall is_byte (xid_id l) ∧ Forall is_byte (xid_id n)
  | None => True
  end.

Lemma message_sound b nxt dst src data pay size type code redirect :
  answerable b nxt dst src data pay size → 0 ≤ type < 256 → 0 ≤ code < 256 →
  (type = 0 → pay + Z.of_nat (length data) ≤ Z.of_nat (length b)) →
  xcmp_length type size (Z.of_nat (length data)) < 1500 → redirect_ok redirect → redirect_bytes redirect →
  ∃ msg, xcmp_message fresh_bytes b type code redirect = Ok msg ∧ message_about b type code pay size msg ∧
    take 48 (drop 4 msg) = addresses redirect (copied b type pay (Z.of_nat (length data)) size) ∧
    Z.of_nat (length msg) < 1500.
Proof using Hfresh.
  intros Ha Ht Hc Hfit Hlt Hre Hrb. pose proof (answerable_size _ _ _ _ _ _ _ Ha) as Hs.
  destruct Ha as [Hr Es Ep [Hpay H8] Hb _].
  set (m := copied b type pay (Z.of_nat (length data)) size).
  destruct (copied_ok b type pay (Z.of_nat (length data)) size) as [_ Hl]; [lia..|done|]. fold m in Hl.
  destruct (xcmp_length_le type size (Z.of_nat (length data))) as [Hx _]; [lia..|].
  assert (LA : length (addresses redirect m) = 48%nat) by (apply length_addresses; [done|lia]).
  pose proof (message_ok b type code redirect size (Z.of_nat (length data)) pay) as Hmsg. cbv zeta in Hmsg. fold m in Hmsg.
  rewrite Hmsg; try done; [|apply Hr|lia..]. clear Hmsg.
  set (rest := addresses redirect m ++ _). eexists. split; [done|].
  assert (LS : length (take (Z.to_nat size) b) = Z.to_nat size) by (rewrite length_take; lia).
  assert (L8 : length (take 8 (drop (Z.to_nat pay) b)) = 8%nat) by (rewrite length_take, length_drop; lia).
  assert (Hbytes : Forall is_byte rest).
  { unfold rest. repeat apply Forall_app_2; try (by apply Forall_take, Forall_drop || by apply Forall_take).
    - destruct redirect as [[l n]|]; cbn [addresses].
      + destruct Hrb. unfold xid_bytes. repeat apply Forall_app_2; (apply le_bytes_are_bytes || done).
      + apply Forall_take, Forall_drop. apply copied_bytes; [lia..|done].
    - apply Forall_drop. apply copied_bytes; [lia..|done]. }
  assert (Lr : Z.of_nat (length rest) = xcmp_length type size (Z.of_nat (length data)) - 4).
  { unfold rest. rewrite !length_app, LA, LS, L8, length_drop. lia. }
  assert (E48 : drop 52 (sealed type code rest) = drop 48 rest) by done.
  split_and!.
  - split.
    + apply sealed_verifies; [done|lia].
    + simpl. unfold u8. by rewrite !wrapU_small by lia.
    + rewrite E48. unfold rest. rewrite drop_app_length' by done. rewrite take_app_length' by done. done.
    + rewrite <- drop_drop, E48.
      unfold rest. rewrite drop_app_length' by done. rewrite drop_app_length' by done.
      rewrite take_app_length' by done. done.
  - rewrite drop_sealed. unfold rest. by rewrite take_app_length'.
  - rewrite length_sealed. lia.
Qed.

Lemma send_sound p nxt dst src data pay size type code redirect s :
  answerable (p_data p) nxt dst src data pay size → 0 ≤ type < 256 → 0 ≤ code < 256 →
  (type = 0 → pay + Z.of_nat (length data) ≤ Z.of_nat (length (p_data p))) →
  xcmp_length type size (Z.of_nat (length data)) < 1500 → redirect_ok redirect → redirect_bytes redirect →
  path_fits (default dst s) →
  ∃ r dq sq msg, sendXCMPPacket fresh_nodes fresh_bytes p type code redirect s = Ok r ∧
    XIA_PAINT_ANNO r = DESTINED_FOR_LOCALHOST ∧ reads (p_data r) CLICK_XIA_NXT_XCMP dq sq msg ∧
    (∃ p', same_path src p' dq) ∧ (∃ p', same_path (default dst s) p' sq) ∧
    message_about (p_data p) type code pay size msg ∧
    take 48 (drop 4 msg) = addresses redirect (copied (p_data p) type pay (Z.of_nat (length data)) size).
Proof using Hfresh Hnodes.
  intros Ha Ht Hc Hfit Hlt Hre Hrb Hs. unfold sendXCMPPacket.
  destruct (message_sound _ _ _ _ _ _ _ type code redirect Ha) as (msg & -> & Hm & Had & Hl); [done..|].
  cbn [mbind res_bind]. pose proof (an_reads _ _ _ _ _ _ _ Ha) as Hr. rewrite (rd_src _ _ _ _ _ Hr). cbn [mbind res_bind].
  destruct (packet_reads src (default dst s) msg) as (e & dq & sq & E & Hrd & Hd & Hsq); [apply (an_src _ _ _ _ _ _ _ Ha)|done|lia|].
  exists (mkPacket (encap e msg true) DESTINED_FOR_LOCALHOST 0 Xid_undef), dq, sq, msg. split_and!; try done.
  destruct s as [s|]; cbn [default from_option id] in *; [|rewrite (rd_dst _ _ _ _ _ Hr)]; cbn [mbind res_bind]; by rewrite E.
Qed.

(** ** Packets that cannot be forwarded *)

Context (own : XIAPath) (Hown : loggable own).

(** Why a packet to [dst] is answered, and with what. *)
Inductive reason (p : Packet) (nxt : Z) (dst : XIAPath) : Z → Z → option (Xid * Xid) → Prop :=
  | Misdirected l :
      XIA_PAINT_ANNO p ≤ -1 * TOTAL_SPECIAL_CASES → last_node (p_data p) = Ok l → printable l →
      xid_ok (nexthop_neighbor_xid_anno p) → Forall is_byte (xid_id (nexthop_neighbor_xid_anno p)) →
      reason p nxt dst XCMP_REDIRECT XCMP_REDIRECT_HOST (Some (l, nexthop_neighbor_xid_anno p))
  | Undelivered i n :
      XIA_PAINT_ANNO p = UNREACHABLE →
      (nxt = CLICK_XIA_NXT_XCMP → ∃ t, first_payload_byte (p_data p) = Ok t ∧ t ≠ XCMP_UNREACH) →
      loggable dst → (3 <= length (p_nodes dst))%nat →
      p_dst dst = Z.of_nat (S i) → p_nodes dst !! i = Some n → p_xid n ≠ _bcast_xid →
      reason p nxt dst XCMP_UNREACH XCMP_UNREACH_HOST None
  | Expired hlim :
      -1 * TOTAL_SPECIAL_CASES < XIA_PAINT_ANNO p → XIA_PAINT_ANNO p ≠ UNREACHABLE →
      hdr_hlim (p_data p) = Ok hlim → hlim ≤ 1 →
      reason p nxt dst XCMP_TIMXCEED XCMP_TIMXCEED_REASSEMBLY None.

Lemma of_le_bytes_bound b : Forall is_byte b → 0 ≤ of_le_bytes b < 2 ^ (8 * Z.of_nat (length b)).
Proof using.
  induction 1 as [|x b Hx _ IH]; [simpl; lia|]. unfold is_byte in Hx. cbn [of_le_bytes length].
  replace (8 * Z.of_nat (S (length b))) with (8 + 8 * Z.of_nat (length b)) by lia.
  rewrite Z.pow_add_r by lia. change (2 ^ 8) with 256. lia.
Qed.

Lemma xid_at_ok b o x : Forall is_byte b → xid_at b o = Ok x → xid_ok x ∧ Forall is_byte (xid_id x).
Proof using.
  intros Hb. unfold xid_at. case_decide as Ho; [|done]. intros [= <-]. cbn [xid_type xid_id].
  set (s := drop (Z.to_nat o) b). assert (Hs : Forall is_byte s) by (by apply Forall_drop).
  assert (Hl : (24 <= length s)%nat) by (unfold s; rewrite length_drop; lia).
  split; [split|].
  - pose proof (of_le_bytes_bound (take 4 s) ltac:(by apply Forall_take)) as Hr.
    rewrite length_take in Hr. replace (4 `min` length s)%nat with 4%nat in Hr by lia. exact Hr.
  - cbn [xid_id]. rewrite length_take, length_drop. lia.
  - by apply Forall_take, Forall_drop.
Qed.

Lemma last_node_ok b l : Forall is_byte b → last_node b = Ok l → xid_ok l ∧ Forall is_byte (xid_id l).
Proof using.
  intros Hb. unfold last_node. intros H. apply bind_Ok in H as (x & _ & H). apply bind_Ok in H as (d & _ & H).
  by eapply xid_at_ok.
Qed.

Lemma reason_redirect p nxt dst type code redirect :
  Forall is_byte (p_data p) → reason p nxt dst type code redirect →
  redirect_ok redirect ∧ redirect_bytes redirect ∧ 0 < type < 256 ∧ 0 ≤ code < 256.
Proof using.
  intros Hb [l _ El _ Hn Hnb|i n _ _ _ _ _ _ _|h _ _ _ _].
  - destruct (last_node_ok _ _ Hb El) as [Hx Hxb]. by split_and!.
  - by split_and!.
  - by split_and!.
Qed.

(** The node before the destination, when the destination is removed. *)
Lemma before_destination dst i n :
  path_fits dst → (3 <= length (p_nodes dst))%nat → p_dst dst = Z.of_nat (S i) → p_nodes dst !! i = Some n →
  ∃ v dst', is_valid dst = Ok (v, true) ∧ remove_node v (Z.to_nat (p_dst v)) = Ok dst' ∧
    ¬ unparse_node_size dst' < 1 ∧ path_xid dst' (p_dst dst') = Ok (p_xid n).
Proof using.
  intros [Hr Hs Hd Hv Hl _] H3 Ei En.
  destruct (is_valid_ok dst Hr Hs Hd) as (v & b & E & [Hlen Hsame] & Evs & Evd & Hb & _).
  assert (b = true) as -> by (by apply Hb).
  destruct (Hsame i n En) as (n' & En' & Ex & _).
  exists v, (mkPath (map (λ n, with_edges n (drop_handle (S i) (p_edges n))) (delete (S i) (p_nodes v)))
               (drop_end (S i) (p_src v)) (drop_end (S i) (p_dst v))).
  split; [done|]. pose proof (pv_dst _ Hv) as Hpd.
  assert (Hdel : length (delete (S i) (p_nodes v)) = (length (p_nodes v) - 1)%nat).
  { rewrite length_delete; [lia|]. apply lookup_lt_is_Some_2. lia. }
  split_and!.
  - unfold remove_node. rewrite Evd, Ei, Nat2Z.id.
    destruct (cget (p_nodes v) (S i)) as [m|u] eqn:Ec; [done|]. exfalso. unfold cget in Ec.
    destruct (lookup_lt_is_Some_2 (p_nodes v) (S i)) as [m Em]; [lia|]. by rewrite Em in Ec.
  - unfold unparse_node_size. cbn [p_nodes]. rewrite length_map, Hdel. case_decide; lia.
  - unfold path_xid. cbn [p_nodes p_dst]. unfold drop_end. rewrite Evd, Ei, decide_True by (unfold npos; lia).
    replace (u64 (Z.of_nat (S i) - 1)) with (Z.of_nat i) by (unfold u64; rewrite wrapU_small; lia).
    assert (Hg : map (λ n, with_edges n (drop_handle (S i) (p_edges n))) (delete (S i) (p_nodes v)) !! i
              = Some (with_edges n' (drop_handle (S i) (p_edges n')))).
    { rewrite list_lookup_fmap, list_lookup_delete_lt by lia. by rewrite En'. }
    unfold cgetz. replace (u32 (Z.of_nat i)) with (Z.of_nat i) by (unfold u32; rewrite wrapU_small; lia).
    rewrite decide_True by (rewrite length_map, Hdel; lia). rewrite Nat2Z.id. unfold cget. rewrite Hg.
    cbn [mbind res_bind]. by rewrite <- Ex.
Qed.

Lemma xcmp_length_error type size plen : type ≠ 0 → xcmp_length type size plen = 60 + size.
Proof using. intros Ht. unfold xcmp_length, XCMP_LEN, XID_LEN. rewrite decide_False by tauto. lia. Qed.

(** What [push] does for a reason. *)
Lemma push_reason p nxt dst src data pay size type code redirect r :
  answerable (p_data p) nxt dst src data pay size → reason p nxt dst type code redirect →
  sendXCMPPacket fresh_nodes fresh_bytes p type code redirect (Some own) = Ok r →
  XCMP_push fresh_nodes fresh_bytes own p = Ok (mkAction [(0, r)] 1).
Proof using Hown.
  intros Ha Hwhy E. pose proof (an_reads _ _ _ _ _ _ _ Ha) as Hr. pose proof (log_path_ok own Hown) as Lo.
  pose proof (log_path_ok src (an_src _ _ _ _ _ _ _ Ha)) as Ls. unfold XCMP_push, processPacket.
  destruct Hwhy as [l Hp El Hpl Hn Hnb|i n Hp Hx Hd H3 Ei En Hb|h Hp1 Hp2 Eh Hh].
  - rewrite decide_True by done. unfold processBadForwarding. rewrite El. cbn [mbind res_bind].
    rewrite Lo. cbn [mbind res_bind]. rewrite (rd_src _ _ _ _ _ Hr). cbn [mbind res_bind]. rewrite Ls. cbn [mbind res_bind].
    rewrite log_xid_ok by done. cbn [mbind res_bind]. by rewrite E.
  - rewrite Hp. rewrite decide_False by (unfold UNREACHABLE, TOTAL_SPECIAL_CASES; lia). rewrite decide_True by done.
    unfold processUnreachable. rewrite (rd_nxt _ _ _ _ _ Hr). cbn [mbind res_bind].
    assert ((if decide (nxt = CLICK_XIA_NXT_XCMP)
             then t ← first_payload_byte (p_data p); Ok (bool_decide (t = XCMP_UNREACH)) else Ok false) = Ok false) as ->.
    { destruct (decide (nxt = CLICK_XIA_NXT_XCMP)) as [Hnx|]; [|done]. destruct (Hx Hnx) as (t & -> & Ht).
      cbn [mbind res_bind]. by rewrite bool_decide_false. }
    cbn [mbind res_bind]. rewrite (rd_dst _ _ _ _ _ Hr). cbn [mbind res_bind].
    destruct (before_destination dst i n (lg_fits _ Hd) H3 Ei En) as (v & dst' & -> & Hrm & Hsz & Hxid).
    cbn [mbind res_bind fst snd]. rewrite Hrm. cbn [mbind res_bind].
    rewrite (decide_False (P := unparse_node_size dst' < 1)) by exact Hsz. rewrite Hxid. cbn [mbind res_bind].
    rewrite (decide_False (P := p_xid n = _bcast_xid)) by done.
    assert (log_unreachable own (p_data p) = Ok ()) as ->.
    { unfold log_unreachable. rewrite Lo, (rd_src _ _ _ _ _ Hr). cbn [mbind res_bind]. rewrite Ls. cbn [mbind res_bind].
      rewrite (rd_dst _ _ _ _ _ Hr). by apply log_path_ok. }
    cbn [mbind res_bind]. rewrite E. cbn [mbind res_bind]. rewrite Lo, (rd_src _ _ _ _ _ Hr). cbn [mbind res_bind]. by rewrite Ls.
  - rewrite decide_False by lia. rewrite decide_False by done. rewrite Eh. cbn [mbind res_bind].
    rewrite decide_True by done. unfold processExpired. by rewrite Lo, E.
Qed.

(** C20: A packet that arrives on the wrong way, that cannot be delivered, or
    whose hop limit is used up is answered with one message to its source, from
    this router: of the type for the reason, with a checksum that verifies,
    with the whole header of the packet and the first eight bytes of its
    payload, and for a redirect with the destination and the better next hop.
    The packet itself is released exactly once.  This is so for packets with a
    header of less than 1440 bytes (a longer one fails the assertion on the size
    of the message) and at least eight bytes of payload; an undeliverable packet
    is reported when its destination has a node before the final intent, which
    is not the broadcast HID, and is not an UNREACH message itself (otherwise
    the packet is dropped); and the paths and addresses that are logged are of
    named types. *)
Theorem errors_reported p nxt dst src data pay size type code redirect :
  answerable (p_data p) nxt dst src data pay size → size < 1440 → reason p nxt dst type code redirect →
  ∃ r dq sq msg, XCMP_push fresh_nodes fresh_bytes own p = Ok (mkAction [(0, r)] 1) ∧
    reads (p_data r) CLICK_XIA_NXT_XCMP dq sq msg ∧
    (∃ p', same_path src p' dq) ∧ (∃ p', same_path own p' sq) ∧
    message_about (p_data p) type code pay size msg ∧
    match redirect with
    | Some (l, n) => take 48 (drop 4 msg) = xid_bytes l ++ xid_bytes n
    | None => True
    end.
Proof using Hfresh Hnodes Hown.
  intros Ha Hsz Hwhy.
  destruct (reason_redirect _ _ _ _ _ _ (an_bytes _ _ _ _ _ _ _ Ha) Hwhy) as (Hre & Hrb & Ht & Hc).
  destruct (send_sound p nxt dst src data pay size type code redirect (Some own))
    as (r & dq & sq & msg & E & _ & Hr & Hd & Hs & Hm & Had); try done; [lia|lia|rewrite xcmp_length_error; lia|apply Hown|].
  exists r, dq, sq, msg. split_and!; try done; [by eapply push_reason|].
  destruct redirect as [[l n]|]; done.
Qed.

(** ** Echo requests *)

(** The payload of a packet without extension headers is its data. *)
Lemma reads_payload b nxt dst src data :
  reads b nxt dst src data → CLICK_XIA_NXT_NO ≤ nxt →
  ∃ pre, b = pre ++ data ∧ hdr_size b = Ok (Z.of_nat (length pre)) ∧ payload b = Ok (Z.of_nat (length pre)) ∧
    (8 <= length pre)%nat.
Proof using.
  intros Hr Hn. destruct (reads_size _ _ _ _ _ Hr) as (pre & Hb & Hs & Hl). exists pre. split; [done|].
  split; [done|]. split; [|done]. unfold payload. rewrite (rd_nxt _ _ _ _ _ Hr). cbn [mbind res_bind].
  rewrite Hs. cbn [mbind res_bind payload_loop]. by rewrite decide_False by lia.
Qed.

(** A message that this element takes for itself. *)
Record accepted (p : Packet) (dst src : XIAPath) (data : list Z) : Prop := {
  ac_reads : reads (p_data p) CLICK_XIA_NXT_XCMP dst src data;
  ac_bytes : Forall is_byte (p_data p);
  ac_paint : -1 * TOTAL_SPECIAL_CASES < XIA_PAINT_ANNO p ∧ XIA_PAINT_ANNO p ≠ UNREACHABLE;
  ac_hlim : ∃ hlim, hdr_hlim (p_data p) = Ok hlim ∧ 1 < hlim }.

Lemma push_accepted p dst src data t :
  accepted p dst src data → first_payload_byte (p_data p) = Ok t →
  XCMP_push fresh_nodes fresh_bytes own p =
    a ← gotXCMPPacket fresh_nodes fresh_bytes own p; Ok (mkAction (a_out a) (S (a_released a))).
Proof using.
  intros [Hr _ [Hp1 Hp2] (h & Eh & Hh)] _. unfold XCMP_push, processPacket.
  rewrite decide_False by lia. rewrite decide_False by done. rewrite Eh. cbn [mbind res_bind].
  rewrite decide_False by lia. cbn [mbind res_bind]. rewrite (rd_nxt _ _ _ _ _ Hr). cbn [mbind res_bind].
  by rewrite decide_True.
Qed.

Lemma first_byte p dst src t data :
  reads (p_data p) CLICK_XIA_NXT_XCMP dst src (t :: data) → first_payload_byte (p_data p) = Ok t.
Proof using.
  intros Hr. destruct (reads_payload _ _ _ _ _ Hr) as (pre & Hb & _ & Ep & _); [done|].
  unfold first_payload_byte. rewrite Ep. cbn [mbind res_bind]. rewrite vgetz_nat. apply vget_Ok.
  rewrite Hb. by rewrite list_lookup_middle.
Qed.

Lemma echo_data (data m msg : list Z) k :
  take 48 (drop 4 msg) = take 48 (drop 4 (data ++ m)) → (k <= 48)%nat → (4 + k <= length data)%nat →
  take k (drop 4 msg) = take k (drop 4 data).
Proof using.
  intros H Hk Hl. assert (∀ l : list Z, take k (drop 4 l) = take k (take 48 (drop 4 l))) as Ht
    by (intros l; rewrite take_take; f_equal; lia).
  rewrite Ht, H, <- Ht. rewrite drop_app_le by lia. rewrite take_app_le; [done|]. rewrite length_drop. lia.
Qed.

Lemma ping_sent p dst src data size :
  accepted p dst src (XCMP_ECHO :: data) → (7 <= length data)%nat → path_fits dst → loggable src →
  hdr_size (p_data p) = Ok size → xcmp_length 0 size (Z.of_nat (S (length data))) < 1500 →
  ∃ r dq sq msg, XCMP_push fresh_nodes fresh_bytes own p = Ok (mkAction [(0, r)] 1) ∧
    reads (p_data r) CLICK_XIA_NXT_XCMP dq sq msg ∧
    (∃ p', same_path src p' dq) ∧ (∃ p', same_path dst p' sq) ∧
    message_about (p_data p) XCMP_ECHOREPLY 0 size size msg ∧
    take 48 (drop 4 msg) = take 48 (drop 4 ((XCMP_ECHO :: data) ++ drop (S (length data))
      (fresh_bytes (xcmp_length 0 size (Z.of_nat (S (length data))))))).
Proof using Hfresh Hnodes Hown.
  intros Hac H7 Hd Hs Es Hlt. pose proof (ac_reads _ _ _ _ Hac) as Hr.
  destruct (reads_payload _ _ _ _ _ Hr) as (pre & Hb & Es' & Ep & Hl); [done|].
  rewrite Es' in Es. injection Es as Es. rewrite Es in Es', Ep.
  assert (Hlen : Z.of_nat (length (p_data p)) = size + Z.of_nat (S (length data))) by (rewrite Hb, length_app; simpl; lia).
  assert (Ha : answerable (p_data p) CLICK_XIA_NXT_XCMP dst src (XCMP_ECHO :: data) size size).
  { split; try done; [lia|apply Hac]. }
  destruct (send_sound p _ _ _ _ _ _ XCMP_ECHOREPLY 0 None None Ha)
    as (r & dq & sq & msg & E & _ & Hrd & Hdq & Hsq & Hma & Had);
    [unfold XCMP_ECHOREPLY; lia|lia|intros _; rewrite Hlen; simpl; lia|done..|].
  pose proof (log_path_ok own Hown) as Lo. exists r, dq, sq, msg. split_and!; try done.
  - rewrite (push_accepted p dst src _ XCMP_ECHO Hac) by (by eapply first_byte).
    unfold gotXCMPPacket. rewrite (first_byte p dst src XCMP_ECHO data Hr). cbn [mbind res_bind].
    rewrite decide_True by done. unfold gotPing. rewrite Lo, Ep. cbn [mbind res_bind].
    rewrite bytes_in by lia. cbn [mbind res_bind]. rewrite E. cbn [mbind res_bind].
    rewrite bytes_in by lia. done.
  - etrans; [exact Had|]. cbn [addresses]. unfold copied. rewrite decide_True by done.
    rewrite Hb, <- Es, !Nat2Z.id, drop_app_length. by rewrite (take_ge (XCMP_ECHO :: data)).
Qed.

(** C38: An echo request of at least eight bytes, whose hop limit is above 1 and
    whose reply is shorter than 1500 bytes, is answered with one echo reply to
    its source, from the destination of the request: its checksum verifies, and
    it carries the identifier, the number and the data of the request, up to
    byte 52.  (With a hop limit of 1 the answer is TIME EXCEEDED; 1496 bytes or
    more fail an assertion; the paths that are logged are of named types.) *)
Theorem ping_answered p dst src data size :
  accepted p dst src (XCMP_ECHO :: data) → (7 <= length data)%nat → path_fits dst → loggable src →
  hdr_size (p_data p) = Ok size → xcmp_length 0 size (Z.of_nat (S (length data))) < 1500 →
  ∃ r dq sq msg, XCMP_push fresh_nodes fresh_bytes own p = Ok (mkAction [(0, r)] 1) ∧
    reads (p_data r) CLICK_XIA_NXT_XCMP dq sq msg ∧
    (∃ p', same_path src p' dq) ∧ (∃ p', same_path dst p' sq) ∧
    in_cksum msg = 0 ∧ take 2 msg = [XCMP_ECHOREPLY; 0] ∧
    ∀ k, (k <= 48)%nat → (3 + k <= length data)%nat → take k (drop 4 msg) = take k (drop 3 data).
Proof using Hfresh Hnodes Hown.
  intros Hac H7 Hd Hs Es Hlt.
  destruct (ping_sent p dst src data size Hac H7 Hd Hs Es Hlt) as (r & dq & sq & msg & E & Hr & Hdq & Hsq & Hm & Had).
  exists r, dq, sq, msg. destruct Hm as [Hck Hty _ _]. split_and!; try done.
  intros k Hk Hkl. eapply (echo_data (XCMP_ECHO :: data)); [exact Had|done|simpl; lia].
Qed.

(** ** Faults *)

(** From byte 52 on the reply carries the header of the request in place of
    its data. *)
Lemma long_ping_changed p dst src data size :
  accepted p dst src (XCMP_ECHO :: data) → (7 <= length data)%nat → path_fits dst → loggable src →
  hdr_size (p_data p) = Ok size → xcmp_length 0 size (Z.of_nat (S (length data))) < 1500 →
  ∃ r dq sq msg, XCMP_push fresh_nodes fresh_bytes own p = Ok (mkAction [(0, r)] 1) ∧
    reads (p_data r) CLICK_XIA_NXT_XCMP dq sq msg ∧ take (Z.to_nat size) (drop 52 msg) = take (Z.to_nat size) (p_data p).
Proof using Hfresh Hnodes Hown.
  intros Hac H7 Hd Hs Es Hlt.
  destruct (ping_sent p dst src data size Hac H7 Hd Hs Es Hlt) as (r & dq & sq & msg & E & Hr & _ & _ & Hm & _).
  exists r, dq, sq, msg. split_and!; try done. apply Hm.
Qed.

(** An echo request of 1496 bytes or more stops the router. *)
Lemma long_ping_stops p dst src data :
  accepted p dst src (XCMP_ECHO :: data) → 1496 ≤ Z.of_nat (S (length data)) →
  XCMP_push fresh_nodes fresh_bytes own p = Ub AssertFail.
Proof using Hown.
  intros Hac H. pose proof (ac_reads _ _ _ _ Hac) as Hr.
  destruct (reads_payload _ _ _ _ _ Hr) as (pre & Hb & Es & Ep & Hl); [done|].
  rewrite (push_accepted p dst src _ XCMP_ECHO Hac) by (by eapply first_byte).
  unfold gotXCMPPacket. rewrite (first_byte p dst src XCMP_ECHO data Hr). cbn [mbind res_bind].
  rewrite decide_True by done. unfold gotPing. rewrite (log_path_ok own Hown), Ep. cbn [mbind res_bind].
  rewrite (bytes_in _ (_ + 6)) by (rewrite ?Hb, ?length_app; simpl; lia). cbn [mbind res_bind].
  unfold sendXCMPPacket, xcmp_message. rewrite Es, (rd_plen _ _ _ _ _ Hr). cbn [mbind res_bind].
  rewrite (decide_False (P := xcmp_length XCMP_ECHOREPLY (Z.of_nat (length pre)) _ < 1500)); [done|].
  unfold xcmp_length, XCMP_LEN, XID_LEN, XCMP_ECHOREPLY. cbn [length]. case_decide; lia.
Qed.

(** An echo reply is pushed to the host and killed as well. *)
Lemma pong_released_twice p dst src data :
  accepted p dst src (XCMP_ECHOREPLY :: data) → (7 <= length data)%nat →
  XCMP_push fresh_nodes fresh_bytes own p = Ok (mkAction [(1, SET_XIA_PAINT_ANNO p 0)] 2).
Proof using Hown.
  intros Hac H. pose proof (ac_reads _ _ _ _ Hac) as Hr.
  destruct (reads_payload _ _ _ _ _ Hr) as (pre & Hb & Es & Ep & Hl); [done|].
  rewrite (push_accepted p dst src _ XCMP_ECHOREPLY Hac) by (by eapply first_byte).
  unfold gotXCMPPacket. rewrite (first_byte p dst src XCMP_ECHOREPLY data Hr). cbn [mbind res_bind].
  rewrite decide_False by done. rewrite decide_True by done. unfold gotPong. rewrite (log_path_ok own Hown), Ep. cbn [mbind res_bind].
  rewrite (bytes_in _ (_ + 6)) by (rewrite ?Hb, ?length_app; simpl; lia). done.
Qed.

(** The place of the addresses in a message that is not a redirect holds what
    the memory held. *)
Lemma memory_disclosed p nxt dst src data pay size type code :
  answerable (p_data p) nxt dst src data pay size → size < 1440 → reason p nxt dst type code None →
  ∃ r dq sq msg, XCMP_push fresh_nodes fresh_bytes own p = Ok (mkAction [(0, r)] 1) ∧
    reads (p_data r) CLICK_XIA_NXT_XCMP dq sq msg ∧
    take 48 (drop 4 msg) = take 48 (drop 4 (fresh_bytes (60 + size))).
Proof using Hfresh Hnodes Hown.
  intros Ha Hsz Hwhy.
  destruct (reason_redirect _ _ _ _ _ _ (an_bytes _ _ _ _ _ _ _ Ha) Hwhy) as (Hre & Hrb & Ht & Hc).
  destruct (send_sound p nxt dst src data pay size type code None (Some own))
    as (r & dq & sq & msg & E & _ & Hr & _ & _ & _ & Had); try done; [lia|lia|rewrite xcmp_length_error; lia|apply Hown|].
  exists r, dq, sq, msg. split_and!; try done; [by eapply push_reason|].
  rewrite Had. cbn [addresses]. unfold copied. rewrite decide_False by lia. by rewrite xcmp_length_error by lia.
Qed.

End message.

(** ** Instances *)

Definition blank_nodes (n : Z) : list xid_node := replicate (Z.to_nat n) (mkXidNode Xid_undef []).
Definition blank_bytes (n : Z) : list Z := replicate (Z.to_nat n) 0.

Lemma blank_nodes_ok n : 0 ≤ n → Z.of_nat (length (blank_nodes n)) = n.
Proof. intros Hn. unfold blank_nodes. rewrite length_replicate. lia. Qed.

Lemma blank_bytes_ok n : 0 ≤ n → Z.of_nat (length (blank_bytes n)) = n ∧ Forall is_byte (blank_bytes n).
Proof.
  intros Hn. unfold blank_bytes. rewrite length_replicate. split; [lia|].
  apply Forall_replicate. unfold is_byte. lia.
Qed.

(** A packet on [demo_path] with the data [d], and the path as it is read. *)
Definition demo_header : list Z :=
  match xcmp_header blank_nodes demo_path demo_path with Ok e => en_hdr e | Ub _ => [] end.
Definition demo_packet (paint hlim : Z) (d : list Z) : Packet :=
  mkPacket (<[4%nat := hlim]> (encap (mkEncap demo_header demo_path demo_path) d true)) paint 0 xid_a.
Definition wire_path : XIAPath :=
  mkPath [mkPNode xid_a [1%nat] npos; mkPNode xid_d [] npos; mkPNode Xid_undef [1%nat; 0%nat] npos] 2 1.

Lemma wire_fits : path_fits wire_path.
Proof.
  assert (in_range (p_nodes wire_path)) as Hr.
  { intros i j (n & Hn & Hj). destruct i as [|[|[|i]]]; [..|done]; injection Hn as <-; set_unfold in Hj; simpl in *; lia. }
  split; [done|simpl; lia..| |simpl; lia|].
  - destruct (is_valid_ok wire_path Hr) as (p' & b & E & _ & _ & _ & Hb & _); [simpl; lia..|].
    apply Hb. vm_compute in E. by injection E as _ <-.
  - intros i n Hn. destruct i as [|[|[|i]]]; [..|done]; injection Hn as <-; (split; [cbn; lia|done]).
Qed.

Lemma wire_loggable : loggable wire_path.
Proof.
  split; [apply wire_fits|]. intros i nd Hi Hne. destruct i as [|[|[|i]]]; [| |done|done]; injection Hi as <-.
  - by apply (demo_printable 1%nat (mkPNode xid_a [2%nat] npos)).
  - by apply (demo_printable 2%nat (mkPNode xid_d [] npos)).
Qed.

Lemma demo_loggable : loggable demo_path.
Proof. split; [apply demo_fits|apply demo_printable]. Qed.

Lemma demo_bytes b : forallb (λ x, bool_decide (0 ≤ x < 256)) b = true → Forall is_byte b.
Proof.
  intros H. apply Forall_forall. intros x Hx. rewrite forallb_forall in H.
  apply list_elem_of_In, H, bool_decide_eq_true in Hx. done.
Qed.

Definition demo_data (t : Z) : list Z := [t; 0; 0; 0; 1; 2; 0; 7; 9; 9].

Lemma demo_packet_reads paint hlim t :
  reads (p_data (demo_packet paint hlim (demo_data t))) CLICK_XIA_NXT_XCMP wire_path wire_path (demo_data t).
Proof.
  split; [reflexivity..|]. exists (take 120 (<[4%nat := hlim]> (encap (mkEncap demo_header demo_path demo_path) (demo_data t) true))), 2, 2.
    split_and!; reflexivity || lia.
Qed.

Lemma demo_answerable paint hlim t :
  Forall is_byte (p_data (demo_packet paint hlim (demo_data t))) →
  answerable (p_data (demo_packet paint hlim (demo_data t))) CLICK_XIA_NXT_XCMP wire_path wire_path (demo_data t) 120 120.
Proof.
  intros Hb. split; [apply demo_packet_reads|reflexivity|reflexivity|split; [done|vm_compute; discriminate]|done|apply wire_loggable].
Qed.

Lemma errors_reported_witness : ∃ r dq sq msg,
  XCMP_push blank_nodes blank_bytes demo_path (demo_packet 0 1 (demo_data 8)) = Ok (mkAction [(0, r)] 1) ∧
  reads (p_data r) CLICK_XIA_NXT_XCMP dq sq msg ∧ take 2 msg = [XCMP_TIMXCEED; XCMP_TIMXCEED_REASSEMBLY].
Proof.
  destruct (errors_reported blank_bytes blank_bytes_ok blank_nodes blank_nodes_ok demo_path demo_loggable
    (demo_packet 0 1 (demo_data 8)) CLICK_XIA_NXT_XCMP wire_path wire_path (demo_data 8) 120 120
    XCMP_TIMXCEED XCMP_TIMXCEED_REASSEMBLY None) as (r & dq & sq & msg & E & Hr & _ & _ & Hm & _).
  - apply demo_answerable, demo_bytes. reflexivity.
  - lia.
  - by apply (Expired _ _ _ 1).
  - exists r, dq, sq, msg. split; [exact E|]. split; [exact Hr|]. apply Hm.
Defined.

Lemma demo_accepted t :
  Forall is_byte (p_data (demo_packet 0 250 (demo_data t))) →
  accepted (demo_packet 0 250 (demo_data t)) wire_path wire_path (demo_data t).
Proof. intros Hb. split; [apply demo_packet_reads|done|done|by exists 250]. Qed.

Lemma ping_answered_witness : ∃ r dq sq msg,
  XCMP_push blank_nodes blank_bytes demo_path (demo_packet 0 250 (demo_data XCMP_ECHO)) = Ok (mkAction [(0, r)] 1) ∧
  reads (p_data r) CLICK_XIA_NXT_XCMP dq sq msg ∧ in_cksum msg = 0 ∧ take 6 (drop 4 msg) = [1; 2; 0; 7; 9; 9].
Proof.
  destruct (ping_answered blank_bytes blank_bytes_ok blank_nodes blank_nodes_ok demo_path demo_loggable
    (demo_packet 0 250 (demo_data XCMP_ECHO)) wire_path wire_path [0; 0; 0; 1; 2; 0; 7; 9; 9] 120)
    as (r & dq & sq & msg & E & Hr & _ & _ & Hck & _ & Hd).
  - apply demo_accepted, demo_bytes. reflexivity.
  - simpl. lia.
  - apply wire_fits.
  - apply wire_loggable.
  - reflexivity.
  - done.
  - exists r, dq, sq, msg. split; [exact E|]. split; [exact Hr|]. split; [exact Hck|]. apply (Hd 6%nat); simpl; lia.
Defined.
