(* ===== verification/XcmpRedirect.v ===== *)
(** * XcmpRedirect: redirects on the host

    A redirect is packed again behind a path to the destination it is about,
    and the route table for that destination takes the better next hop from it
    (elements/xia/xcmp.cc, elements/xia/xiaxidroutetable.cc). *)

From Stdlib Require Import ZArith Lia.
From stdpp Require Import base gmap sets list.
From S2P Require Import Prelude Text XiaPath XiaPathOrder XiaPathCodec XidText XiaPathText XiaHeader ExtHeader PathCopies RouteTable XTransport TransportWire Xcmp XcmpSpec.

Local Open Scope Z_scope.

(** ** Headers depend on the nodes of their paths only *)

Lemma unparse_node_free ns s d s' d' buf n p' buf' k :
  unparse_node (mkPath ns s d) buf n = Ok (p', buf', k) →
  p_src p' = s ∧ p_dst p' = d ∧ unparse_node (mkPath ns s' d') buf n = Ok (mkPath (p_nodes p') s' d', buf', k).
Proof.
  unfold unparse_node, topological_ordering. cbn [p_nodes p_src p_dst].
  destruct (count_indegrees ns) as [indeg|]; [|done]. cbn [mbind res_bind].
  destruct (order_loop _ _ _ _ _) as [r|]; [|done]. cbn [mbind res_bind fst snd p_nodes p_src p_dst].
  case_bool_decide; [|by intros [= <- <- <-]].
  change (unparse_node_size (mkPath r.1 s' d')) with (unparse_node_size (mkPath r.1 s d)).
  change (unparse_one (mkPath r.1 s' d')) with (unparse_one (mkPath r.1 s d)).
  case_decide; [by intros [= <- <- <-]|].
  destruct (foldM _ _ _) as [b|]; [|done]. cbn [mbind res_bind]. by intros [= <- <- <-].
Qed.

Lemma encap_update_free g h ns s d s' d' src e :
  encap_update g (mkEncap h (mkPath ns s d) src) = Ok e →
  p_src (en_dst e) = s ∧ p_dst (en_dst e) = d ∧
  encap_update g (mkEncap h (mkPath ns s' d') src) = Ok (mkEncap (en_hdr e) (mkPath (p_nodes (en_dst e)) s' d') (en_src e)).
Proof.
  unfold encap_update. cbn [en_hdr en_dst en_src].
  change (unparse_node_size (mkPath ns s' d')) with (unparse_node_size (mkPath ns s d)).
  set (dn := unparse_node_size (mkPath ns s d)). cbv zeta.
  intros H. apply bind_Ok in H as ([[p b] k] & E & H).
  destruct (unparse_node_free _ _ _ s' d' _ _ _ _ _ E) as (Hs & Hd & ->). cbn [mbind res_bind fst snd] in *.
  case_decide; [|done]. apply bind_Ok in H as (x & -> & H). cbn [mbind res_bind].
  case_decide; [|done]. injection H as <-. done.
Qed.

Lemma xcmp_header_free fresh_nodes ns s d s' d' src e :
  xcmp_header fresh_nodes (mkPath ns s d) src = Ok e →
  ∃ e', xcmp_header fresh_nodes (mkPath ns s' d') src = Ok e' ∧ en_hdr e' = en_hdr e.
Proof.
  unfold xcmp_header. cbv zeta. intros H. apply bind_Ok in H as (e1 & E1 & E2).
  unfold encap_set_dst_path, encap_set_src_path in *.
  destruct (encap_update_free _ _ _ _ _ s' d' _ _ E1) as (Hs & Hd & E1').
  change (unparse_node_size (mkPath ns s' d')) with (unparse_node_size (mkPath ns s d)).
  rewrite E1'. cbn [mbind res_bind en_hdr en_dst en_src].
  destruct e1 as [h1 [ns1 s1 d1] src1]. cbn [en_hdr en_dst en_src p_nodes p_src p_dst] in *.
  change (unparse_node_size (mkPath ns1 s' d')) with (unparse_node_size (mkPath ns1 s1 d1)).
  destruct (encap_update_free _ _ _ _ _ s' d' _ _ E2) as (_ & _ & E2'). rewrite E2'. by eexists.
Qed.

(** ** The path to the destination *)

Definition path_to (l : Xid) (s d : Z) : XIAPath := mkPath [mkPNode Xid_undef [1%nat] npos; mkPNode l [] npos] s d.

Lemma pedge_to l s d i j : pedge (p_nodes (path_to l s d)) i j → i = 0%nat ∧ j = 1%nat.
Proof.
  intros (n & Hn & Hj). destruct i as [|[|i]]; [..|done]; injection Hn as <-; set_unfold in Hj; simpl in Hj; lia.
Qed.

Lemma path_to_fits l : xid_ok l → path_fits (path_to l 0 1).
Proof.
  intros Hl. assert (path_acyclic (p_nodes (path_to l 0 1))) as Hac.
  { assert (∀ i j, tc (pedge (p_nodes (path_to l 0 1))) i j → (i < j)%nat) as H.
    { induction 1 as [i j [-> ->]%pedge_to|i j k [-> ->]%pedge_to _ IH]; lia. }
    intros i Hi%H. lia. }
  split; simpl; try lia.
  - intros i j [-> ->]%(pedge_to l 0 1). simpl. lia.
  - split; simpl; try lia; [..|done].
    + intros i n Hn. unfold out_ok. destruct i as [|[|i]]; [..|done]; injection Hn as <-; simpl;
        (split; [done|unfold CLICK_XIA_XID_EDGE_NUM; lia]).
    + intros i Hi Hno. destruct i as [|[|i]]; [done|exfalso|lia].
      apply (Hno 0%nat). eexists. split; [reflexivity|]. simpl. by left.
  - intros i n Hn. destruct i as [|[|i]]; [injection Hn as <-|injection Hn as <-|done]; [split; [cbn; lia|done]|done].
Qed.

(** ** A redirect that arrives *)

Lemma redirect_split (m : list Z) l n :
  xid_ok l → xid_ok n → take 48 (drop 4 m) = xid_bytes l ++ xid_bytes n →
  ∃ h rest, m = h ++ xid_bytes l ++ xid_bytes n ++ rest ∧ length h = 4%nat.
Proof.
  intros Hl Hn H. exists (take 4 m), (drop 48 (drop 4 m)). split.
  - rewrite (app_assoc (xid_bytes l)), <- H, take_drop. by rewrite take_drop.
  - assert (length (take 48 (drop 4 m)) = 48%nat) as HL.
    { rewrite H, length_app. by rewrite !length_xid_bytes. }
    rewrite length_take in *. rewrite length_drop in HL. lia.
Qed.

Lemma redirect_xids (pre m : list Z) l n :
  xid_ok l → xid_ok n → take 48 (drop 4 m) = xid_bytes l ++ xid_bytes n →
  xid_at (pre ++ m) (Z.of_nat (length pre) + 4) = Ok l ∧
  xid_at (pre ++ m) (Z.of_nat (length pre) + 4 + 24) = Ok n.
Proof.
  intros Hl Hn H. destruct (redirect_split m l n Hl Hn H) as (h & rest & -> & Hh). split.
  - rewrite app_assoc. replace (Z.of_nat (length pre) + 4) with (Z.of_nat (length (pre ++ h)))
      by (rewrite length_app; lia). by apply xid_at_bytes.
  - rewrite app_assoc, (app_assoc (pre ++ h)).
    replace (Z.of_nat (length pre) + 4 + 24) with (Z.of_nat (length ((pre ++ h) ++ xid_bytes l)))
      by (rewrite !length_app, length_xid_bytes by done; lia). by apply xid_at_bytes.
Qed.

(** The route table takes the next hop of a redirect. *)
Lemma route_redirected t u dq sq msg l n :
  reads (p_data u) CLICK_XIA_NXT_XCMP dq sq msg → xid_ok l → xid_ok n →
  take 48 (drop 4 msg) = xid_bytes l ++ xid_bytes n → printable l →
  path_fits (_local_addr t) → path_printable (_local_addr t) → _principal_type_enabled t ≠ 0 →
  ∃ t' d, route_push t (SET_XIA_PAINT_ANNO u REDIRECT) = Ok (t', []) ∧ _rts t' !! l = Some d ∧ rt_nexthop d = Some n ∧
    (∀ d0, _rts t !! l = Some d0 → rt_port d = rt_port d0 ∧ rt_flags d = rt_flags d0) ∧
    (∀ x, x ≠ l → _rts t' !! x = _rts t !! x).
Proof.
  intros Hr Hl Hn H48 Hpr Hf Hp Hen. destruct (reads_payload _ _ _ _ _ Hr) as (pre & Hb & _ & Ep & _); [done|].
  destruct (redirect_xids pre msg l n Hl Hn H48) as [E1 E2].
  unfold route_push. cbn [XIA_PAINT_ANNO SET_XIA_PAINT_ANNO]. rewrite decide_False by done. rewrite decide_True by done.
  unfold process_xcmp_redirect. cbn [p_data SET_XIA_PAINT_ANNO]. rewrite Ep. cbn [mbind res_bind].
  rewrite Hb, E1. cbn [mbind res_bind]. rewrite E2. cbn [mbind res_bind].
  destruct (_rts t !! l) as [d|] eqn:Ed.
  - eexists _, _. split; [reflexivity|]. cbn [_rts with_rts]. split; [apply lookup_insert_eq|].
    split_and!; [done|by intros d0 [= <-]|]. intros x Hx. by apply lookup_insert_ne.
  - destruct (path_unparse_total _ Hf Hp) as [a ->]. cbn [mbind res_bind].
    destruct Hpr as (Hk & Hk2 & _). rewrite (xid_unparse_known l Hk Hk2). cbn [mbind res_bind].
    eexists _, _. split; [reflexivity|]. cbn [_rts with_rts with_local]. split; [apply lookup_insert_eq|].
    split_and!; [done..|]. intros x Hx. by apply lookup_insert_ne.
Qed.

Section host.
Context (fresh_bytes : Z → list Z) (fresh_nodes : Z → list xid_node).
Context (Hnodes : ∀ n, 0 ≤ n → Z.of_nat (length (fresh_nodes n)) = n).
Context (own : XIAPath) (Hown : loggable own).

(** What the element does with a redirect: it is sent on towards the
    destination it is about. *)
Lemma redirect_repacked p dst src data l n :
  accepted p dst src (XCMP_REDIRECT :: data) → loggable dst → loggable src → xid_ok l → xid_ok n →
  take 48 (drop 3 data) = xid_bytes l ++ xid_bytes n → printable l → printable n →
  ∃ u dq sq msg, XCMP_push fresh_nodes fresh_bytes own p = Ok (mkAction [(1, u)] 2) ∧ XIA_PAINT_ANNO u = 1 ∧
    reads (p_data u) CLICK_XIA_NXT_XCMP dq sq msg ∧ (∃ p', same_path (path_to l 0 1) p' dq) ∧
    take 48 (drop 4 msg) = xid_bytes l ++ xid_bytes n.
Proof using Hnodes Hown.
  intros Hac Hds Hsr Hl Hn H48 Hpl Hpn. pose proof (ac_reads _ _ _ _ Hac) as Hr.
  destruct (reads_payload _ _ _ _ _ Hr) as (pre & Hb & _ & Ep & _); [done|].
  set (D := XCMP_REDIRECT :: data) in *. change (take 48 (drop 4 D) = xid_bytes l ++ xid_bytes n) in H48.
  destruct (redirect_xids pre D l n Hl Hn H48) as [E1 E2].
  assert (HD : (52 <= length D)%nat).
  { destruct (redirect_split D l n Hl Hn H48) as (h & rest & -> & Hh). rewrite !length_app, !length_xid_bytes by done. lia. }
  set (cplen := if decide (MSIZE < Z.of_nat (length D)) then MSIZE else Z.of_nat (length D)).
  assert (Hcp : 52 ≤ cplen ≤ Z.of_nat (length D) ∧ cplen ≤ 1024) by (unfold cplen, MSIZE; case_decide; lia).
  destruct (packet_reads fresh_nodes Hnodes (path_to l 0 1) own (take (Z.to_nat cplen) D))
    as (e & dq & sq & E & Hrd & Hd & _); [by apply path_to_fits|apply Hown|rewrite length_take; lia|].
  destruct (xcmp_header_free _ _ _ _ npos npos _ _ E) as (e' & E' & Ehdr).
  exists (mkPacket (encap e' (take (Z.to_nat cplen) D) true) 1 0 Xid_undef), dq, sq, (take (Z.to_nat cplen) D).
  split_and!; [|done| |done|].
  - rewrite (push_accepted fresh_bytes fresh_nodes own p dst src _ XCMP_REDIRECT Hac) by (by eapply first_byte).
    unfold gotXCMPPacket. rewrite (first_byte p dst src XCMP_REDIRECT data Hr). cbn [mbind res_bind].
    do 4 rewrite decide_False by done. rewrite decide_True by done.
    unfold gotRedirect. rewrite (log_path_ok own Hown), Ep. cbn [mbind res_bind]. unfold XCMP_LEN, XID_LEN.
    rewrite Hb, E1. cbn [mbind res_bind]. rewrite E2. cbn [mbind res_bind]. rewrite <- Hb.
    rewrite (rd_src _ _ _ _ _ Hr). cbn [mbind res_bind]. rewrite (log_path_ok src Hsr), (rd_dst _ _ _ _ _ Hr). cbn [mbind res_bind].
    rewrite (log_path_ok dst Hds), (log_xid_ok l Hpl), (log_xid_ok n Hpn), (rd_plen _ _ _ _ _ Hr). cbn [mbind res_bind]. fold cplen.
    rewrite bytes_in by (rewrite ?Hb, ?length_app; lia). cbn [mbind res_bind].
    change (path_add_edge _ _ _ npos) with (Ok (path_to l npos npos)). cbn [mbind res_bind].
    unfold path_to in *. rewrite E'. cbn [mbind res_bind].
    rewrite Hb, Nat2Z.id, drop_app_length. done.
  - unfold encap in *. cbn [p_data]. by rewrite Ehdr.
  - rewrite <- H48, skipn_firstn_comm, take_take. f_equal. lia.
Qed.

(** A redirect with an address whose type has no name, and whose type word is
    not small, overruns the buffer the address is printed into for the log. *)
Lemma redirect_overruns p dst src data l n :
  accepted p dst src (XCMP_REDIRECT :: data) → loggable dst → loggable src → xid_ok l → xid_ok n →
  take 48 (drop 3 data) = xid_bytes l ++ xid_bytes n → printable l →
  ¬ known_word (xid_type n) → 2 ^ 24 ≤ xid_type n →
  XCMP_push fresh_nodes fresh_bytes own p = Ub OutOfBounds.
Proof using Hown.
  intros Hac Hds Hsr Hl Hn H48 Hpl Hk Hw. pose proof (ac_reads _ _ _ _ Hac) as Hr.
  destruct (reads_payload _ _ _ _ _ Hr) as (pre & Hb & _ & Ep & _); [done|].
  destruct (redirect_xids pre (XCMP_REDIRECT :: data) l n Hl Hn H48) as [E1 E2].
  rewrite (push_accepted fresh_bytes fresh_nodes own p dst src _ XCMP_REDIRECT Hac) by (by eapply first_byte).
  unfold gotXCMPPacket. rewrite (first_byte p dst src XCMP_REDIRECT data Hr). cbn [mbind res_bind].
  do 4 rewrite decide_False by done. rewrite decide_True by done.
  unfold gotRedirect. rewrite (log_path_ok own Hown), Ep. cbn [mbind res_bind]. unfold XCMP_LEN, XID_LEN.
  rewrite Hb, E1. cbn [mbind res_bind]. rewrite E2. cbn [mbind res_bind]. rewrite <- Hb.
  rewrite (rd_src _ _ _ _ _ Hr). cbn [mbind res_bind]. rewrite (log_path_ok src Hsr), (rd_dst _ _ _ _ _ Hr). cbn [mbind res_bind].
  rewrite (log_path_ok dst Hds), (log_xid_ok l Hpl). cbn [mbind res_bind].
  destruct Hn as [Ht Hlen]. destruct (xid_unparse_unknown n Hk Hlen Ht) as [_ Ho]. unfold log_xid. by rewrite (Ho Hw).
Qed.

(** C22: A redirect changes the route of the host that receives it: the message
    goes on towards the destination [l] it is about, and the route table there
    leads to [l] over the next hop [n] of the message; the port and the flags
    of a route to [l], and the routes to all other XIDs, stay as they are.  The
    element prints the paths of the message and both addresses for its log, so
    they are paths that fit and addresses of named types (others may overrun a
    buffer, see [redirect_overruns]); and it releases the message twice. *)
Theorem redirect_learned p dst src data l n t :
  accepted p dst src (XCMP_REDIRECT :: data) → loggable dst → loggable src → xid_ok l → xid_ok n →
  take 48 (drop 3 data) = xid_bytes l ++ xid_bytes n → printable l → printable n →
  path_fits (_local_addr t) → path_printable (_local_addr t) → _principal_type_enabled t ≠ 0 →
  ∃ u dq t' d, XCMP_push fresh_nodes fresh_bytes own p = Ok (mkAction [(1, u)] 2) ∧ XIA_PAINT_ANNO u = 1 ∧
    dst_path (p_data u) = Ok dq ∧ (∃ p', same_path (path_to l 0 1) p' dq) ∧
    route_push t (SET_XIA_PAINT_ANNO u REDIRECT) = Ok (t', []) ∧ _rts t' !! l = Some d ∧ rt_nexthop d = Some n ∧
    (∀ d0, _rts t !! l = Some d0 → rt_port d = rt_port d0 ∧ rt_flags d = rt_flags d0) ∧
    (∀ x, x ≠ l → _rts t' !! x = _rts t !! x).
Proof using Hnodes Hown.
  intros Hac Hds Hsr Hl Hn H48 Hpr Hpn Hf Hp Hen.
  destruct (redirect_repacked p dst src data l n Hac Hds Hsr Hl Hn H48 Hpr Hpn) as (u & dq & sq & msg & E & Hpt & Hr & Hd & H48').
  destruct (route_redirected t u dq sq msg l n Hr Hl Hn H48' Hpr Hf Hp Hen) as (t' & d & Et & Hnew & Hnh & Hk & Hx).
  exists u, dq, t', d. split_and!; try done. apply Hr.
Qed.

End host.

(** ** An instance *)

(** A redirect about [xid_d] with the next hop [xid_a]. *)
Definition demo_redirect : list Z := [1; 0; 0] ++ xid_bytes xid_d ++ xid_bytes xid_a.
Definition demo_host_table : XIAXIDRouteTable := mkTable ∅ (mkRoute 3 0 None) 1 4 demo_path Xid_undef.

Lemma demo_redirect_accepted :
  accepted (demo_packet 0 250 (XCMP_REDIRECT :: demo_redirect)) wire_path wire_path (XCMP_REDIRECT :: demo_redirect).
Proof.
  split; [|apply demo_bytes; reflexivity|done|by exists 250].
  split; [reflexivity..|].
  exists (take 120 (p_data (demo_packet 0 250 (XCMP_REDIRECT :: demo_redirect)))), 2, 2. split_and!; reflexivity || lia.
Qed.

Lemma redirect_learned_witness : ∃ u t' d,
  XCMP_push blank_nodes blank_bytes demo_path (demo_packet 0 250 (XCMP_REDIRECT :: demo_redirect)) =
    Ok (mkAction [(1, u)] 2) ∧
  route_push demo_host_table (SET_XIA_PAINT_ANNO u REDIRECT) = Ok (t', []) ∧
  _rts t' !! xid_d = Some d ∧ rt_nexthop d = Some xid_a.
Proof.
  destruct (redirect_learned blank_bytes blank_nodes blank_nodes_ok demo_path demo_loggable
    (demo_packet 0 250 (XCMP_REDIRECT :: demo_redirect)) wire_path wire_path demo_redirect xid_d xid_a demo_host_table)
    as (u & dq & t' & d & E & _ & _ & _ & Et & Hd & Hn & _).
  - exact demo_redirect_accepted.
  - exact wire_loggable.
  - exact wire_loggable.
  - split; [cbn; lia|done].
  - split; [cbn; lia|done].
  - reflexivity.
  - by apply (demo_printable 2%nat (mkPNode xid_d [] npos)).
  - by apply (demo_printable 1%nat (mkPNode xid_a [2%nat] npos)).
  - exact demo_fits.
  - exact demo_printable.
  - done.
  - exists u, t', d. split; [exact E|]. split; [exact Et|]. split; [exact Hd|exact Hn].
Defined.
