(* ===== verification/Xhcp.v ===== *)
(** * Xhcp: the configuration of hosts (daemons/xhcp: xhcp_server.cc,
    xhcp_client.cc, xhcp.hh)

    The server on a gateway sends a beacon every second: the AD of its network,
    the HID and the 4ID of the gateway, and the address of the name server.  The
    client on a host reads the beacons, tells the transport element and the
    routing tables of its host where it is, and registers the name of the host.

    Both daemons are loops around the calls of the socket library; one pass of
    a loop is a Definition.  The configuration file of the name server is an
    argument, as is the memory of the stack.  What is logged is left out. *)

From Stdlib Require Import ZArith Lia Ascii String.
From stdpp Require Import base gmap list.
From S2P Require Import Prelude Text ConfParse XiaPath StdMap DagNode DagAddr RouteTable XRouted ControlSocket ControlClient XIARouter XTransport SocketLib SocketCalls NameService.
Local Open Scope Z_scope.

Definition XHCP_MAX_PACKET_SIZE : nat := 1024.
Definition XHCP_CLIENT_NAME_REGISTER_WAIT : Z := 5.
Definition MAX_XID_SIZE : Z := 100.
Definition beacon_response_freq : Z := 3.

Definition XHCP_TYPE_AD : Z := 1.
Definition XHCP_TYPE_GATEWAY_ROUTER_HID : Z := 2.
Definition XHCP_TYPE_GATEWAY_ROUTER_4ID : Z := 3.
Definition XHCP_TYPE_NAME_SERVER_DAG : Z := 4.

Definition BHID : str := lit "HID:FFFFFFFFFFFFFFFFFFFFFFFFFFFFFFFFFFFFFFFF".
Definition SID_XHCP : str := lit "SID:1110000000000000000000000000000000001111".
Definition SID_XROUTE : str := lit "SID:1110000000000000000000000000000000001112".

(** The address of the name server when no file names one. *)
Definition default_ns : str :=
  lit "RE AD:1000000000000000000000000000000000000000 HID:0000000000000000000000000000000000000000 SID:1110000000000000000000000000000000001113".

(** ** Beacons *)

Definition beacon_entry (type : Z) (data : str) : list Z := le_bytes 2 type ++ c_string data.

(** The packet is built in a buffer of fixed size. *)
Definition make_beacon (seq_num : Z) (ad hid ip ns : str) : res (list Z) :=
  let pkt := le_bytes 4 seq_num ++ le_bytes 2 4 ++
    beacon_entry XHCP_TYPE_AD ad ++ beacon_entry XHCP_TYPE_GATEWAY_ROUTER_HID hid ++
    beacon_entry XHCP_TYPE_GATEWAY_ROUTER_4ID ip ++ beacon_entry XHCP_TYPE_NAME_SERVER_DAG ns in
  if decide (length pkt ≤ XHCP_MAX_PACKET_SIZE)%nat then Ok pkt else Ub OutOfBounds.

(** What a beacon offers; an absent part is empty. *)
Record offer := mkOffer { self_dag : str; gw_dag : str; gw_4id : str; ns_dag_text : str }.
Definition no_offer : offer := mkOffer [] [] [] [].

(** A string inside the packet is shorter than the buffer it is copied to. *)
Definition store_entry (type : Z) (s : str) (o : offer) : offer :=
  if decide (type = XHCP_TYPE_AD) then mkOffer s (gw_dag o) (gw_4id o) (ns_dag_text o)
  else if decide (type = XHCP_TYPE_GATEWAY_ROUTER_HID) then mkOffer (self_dag o) s (gw_4id o) (ns_dag_text o)
  else if decide (type = XHCP_TYPE_GATEWAY_ROUTER_4ID) then mkOffer (self_dag o) (gw_dag o) s (ns_dag_text o)
  else if decide (type = XHCP_TYPE_NAME_SERVER_DAG) then mkOffer (self_dag o) (gw_dag o) (gw_4id o) s
  else o.

(** The loop over the entries: their number is not compared with what was
    received. *)
Fixpoint read_entries (n : nat) (pkt : list Z) (at_ : nat) (o : offer) : res offer :=
  match n with
  | O => Ok o
  | S n =>
      lo ← vget pkt at_; hi ← vget pkt (S at_);
      s ← text_at pkt (at_ + 2);
      read_entries n pkt (at_ + 2 + length s + 1) (store_entry (i16 (lo + 256 * hi)) s o)
  end.

Definition read_beacon (pkt : list Z) : res offer :=
  lo ← vget pkt 4; hi ← vget pkt 5;
  read_entries (Z.to_nat (lo + 256 * hi)) pkt 6 no_offer.

(** The buffer that was cleared, with what was received. *)
Definition cleared (b : list Z) : list Z := b ++ replicate (XHCP_MAX_PACKET_SIZE - length b) 0.

Definition incomplete (o : offer) : Prop := self_dag o = [] ∨ gw_dag o = [] ∨ gw_4id o = [] ∨ ns_dag_text o = [].
#[global] Instance incomplete_dec o : Decision (incomplete o).
Proof. unfold incomplete. apply _. Defined.

(** ** The client *)

(** The global pointers that hold the last beacon; nothing sets them. *)
Record adv_globals := mkAdv { adv_selfdag : option str; adv_gwdag : option str; adv_gw4id : option str; adv_nsdag : option str }.

Definition already_advertised (a : adv_globals) (o : offer) : res bool :=
  match adv_selfdag a, adv_gwdag a, adv_nsdag a with
  | Some s, Some g, Some n =>
      if decide (s ≠ self_dag o ∨ g ≠ gw_dag o) then Ok false
      else match adv_gw4id a with
           | Some i => Ok (bool_decide (i = gw_4id o ∧ n = ns_dag_text o))
           | None => Ub NullDeref
           end
  | _, _, _ => Ok false
  end.

(** [myHID] is an array that is not initialised before it is read. *)
Record XhcpClient := mkXhcp {
  myAD : str; myGWRHID : str; myNS_DAG : str;
  beacon_reception_count : Z; update_ns : bool;
  myHID : option str; adv : adv_globals }.

Definition new_client (hid : option str) : XhcpClient := mkXhcp [] [] [] 0 false hid (mkAdv None None None None).
Definition with_count (c : XhcpClient) (n : Z) : XhcpClient :=
  mkXhcp (myAD c) (myGWRHID c) (myNS_DAG c) n (update_ns c) (myHID c) (adv c).
Definition with_registered (c : XhcpClient) (hid : str) (n : Z) (again : bool) : XhcpClient :=
  mkXhcp (myAD c) (myGWRHID c) (myNS_DAG c) n again (Some hid) (adv c).

(** [config]: the room for the name of the host with the extension [xia]. *)
Definition make_fullname (hostname : str) : res str :=
  let fullname := hostname ++ lit ".xia" in
  if decide (length fullname + 1 ≤ length hostname + 3 + 1)%nat then Ok fullname else Ub OutOfBounds.

Section daemons.
Variable serialize : api_msg → list Z.
Variable parse : list Z → reply.
Variable sendto : Z → list Z → Z.
Variable inet_addr : str → Z.
(** The socket a registration gets, and what is on the stack. *)
Variable regfd : Z.
Variable stack : sockaddr_x.
Context {S : Type} (exchange : S → str → S * str) (chunk : nat → nat) (sizeof_string : Z) (fuel : nat).

(** [Node() * Node(a) * ...]. *)
Definition chain (ns : list Node) : res Graph :=
  foldM (λ g n, Graph_append g (Graph_of_node n)) (Graph_of_node dummy_source) ns.

Fixpoint nodes_of (alloc : nat) (xids : list str) : res (list Node) :=
  match xids with
  | [] => Ok []
  | x :: xids => n ← Node_of_string inet_addr alloc x; ns ← nodes_of n.2 xids; Ok (n.1 :: ns)
  end.

Definition address_of (xids : list str) : res sockaddr_x := ns ← nodes_of 0 xids; g ← chain ns; fill_sockaddr g stack.

(** *** Starting *)

(** The client that has connected to the router and bound its socket. *)
Definition client_start (host_known : bool) (hostname : str) (sockfd : Z) (x : XIARouter S) :
    call (option (XhcpClient * XIARouter S * sockaddr_x)) :=
  let x := setRouter x hostname in
  pseudo_gw_router_dag ← undefined (address_of [BHID; SID_XROUTE]);
  let '(x, rc) := xr_connect host_known x in
  if decide (rc ≠ 0) then mret None
  else
    fd ← Xsocket serialize parse sendto AF_XIA XSOCK_DGRAM 0 sockfd;
    if decide (fd < 0) then mret None
    else
      r ← XreadLocalHostAddr serialize parse sendto fd true MAX_XID_SIZE MAX_XID_SIZE MAX_XID_SIZE;
      _ ← (if decide (r.1 < 0) then Xclose serialize parse sendto fd else mret 0);
      sdag ← undefined (address_of [SID_XHCP]);
      b ← Xbind serialize parse sendto fd (Some sdag) SIZEOF_SOCKADDR_X;
      if decide (b < 0) then _ ← Xclose serialize parse sendto fd; mret None
      else mret (Some (new_client (option_map (λ a, a.1.2) r.2), x, pseudo_gw_router_dag)).

(** *** One beacon *)

Definition listRoutes (x : XIARouter S) (xidtype : str) : res (XIARouter S) :=
  r ← getRoutes exchange chunk fuel x xidtype; Ok r.1.1.

(** The AD of the host. *)
Definition follow_ad (sockfd : Z) (c : XhcpClient) (x : XIARouter S) (o : offer) : call (XhcpClient * XIARouter S) :=
  if decide (myAD c ≠ self_dag o) then
    _ ← XupdateAD serialize sendto sockfd (Some (self_dag o)) (Some (gw_4id o));
    let x := (delRoute exchange sizeof_string x (myAD c)).1 in
    let x := (setRoute exchange sizeof_string x (self_dag o) DESTINED_FOR_LOCALHOST [] 65535).1 in
    mret (mkXhcp (self_dag o) (myGWRHID c) (myNS_DAG c) (beacon_reception_count c) true (myHID c) (adv c), x)
  else mret (c, x).

(** The routes through the gateway. *)
Definition gateway_routes (x : XIARouter S) (old gw : str) : XIARouter S :=
  let set x xid := (setRoute exchange sizeof_string x xid 0 gw 65535).1 in
  let x := (delRoute exchange sizeof_string x old).1 in
  set (set (set (set (set x (lit "AD:-")) (lit "IP:-")) (lit "HID:-")) gw) (lit "HID:-").

Definition follow_gateway (c : XhcpClient) (x : XIARouter S) (o : offer) : XhcpClient * XIARouter S :=
  if decide (myGWRHID c ≠ gw_dag o) then
    (mkXhcp (myAD c) (gw_dag o) (myNS_DAG c) (beacon_reception_count c) (update_ns c) (myHID c) (adv c),
     gateway_routes x (myGWRHID c) (gw_dag o))
  else (c, x).

Definition follow_names (sockfd : Z) (c : XhcpClient) (o : offer) : call XhcpClient :=
  if decide (myNS_DAG c ≠ ns_dag_text o) then
    _ ← XupdateNameServerDAG serialize sendto sockfd (Some (ns_dag_text o));
    mret (mkXhcp (myAD c) (myGWRHID c) (ns_dag_text o) (beacon_reception_count c) (update_ns c) (myHID c) (adv c))
  else mret c.

Definition follow_offer (sockfd : Z) (c : XhcpClient) (x : XIARouter S) (o : offer) : call (XhcpClient * XIARouter S) :=
  let changed := bool_decide (myAD c ≠ self_dag o ∨ myGWRHID c ≠ gw_dag o) in
  r ← follow_ad sockfd c x o;
  let r := follow_gateway r.1 r.2 o in
  c ← follow_names sockfd r.1 o;
  x ← (if changed then x ← undefined (listRoutes r.2 (lit "AD")); undefined (listRoutes x (lit "HID")) else mret r.2);
  mret (c, x).

(** The message that registers the host at the gateway. *)
Definition host_register_message (hid : str) : str := lit "2^" ++ hid ++ lit "^".

Definition answer_beacon (sockfd : Z) (gw : sockaddr_x) (c : XhcpClient) : call () :=
  if decide (beacon_reception_count c mod beacon_response_freq = 0) then
    hid ← undefined (init (myHID c));
    let buffer := c_string (host_register_message hid) in
    _ ← undefined (if decide (length buffer ≤ XHCP_MAX_PACKET_SIZE)%nat then Ok () else Ub OutOfBounds);
    _ ← Xsendto serialize sendto sockfd (Some buffer) (Z.of_nat (length buffer) - 1) 0 (Some gw) SIZEOF_SOCKADDR_X;
    mret ()
  else mret ().

(** The address of the host: over its AD, or over the 4ID of its gateway. *)
Definition host_graph (ad hid ip : str) : res Graph :=
  ns ← nodes_of 0 [ip; ad; hid];
  n_ip ← vget ns 0; n_ad ← vget ns 1; n_hid ← vget ns 2;
  hg ← chain [n_ad; n_hid];
  via ← chain [n_ip; n_ad; n_hid];
  Graph_merge hg via.

Definition register_host (sockfd : Z) (fullname : str) (c : XhcpClient) : call XhcpClient :=
  if update_ns c && bool_decide (XHCP_CLIENT_NAME_REGISTER_WAIT ≤ beacon_reception_count c) then
    r ← XreadLocalHostAddr serialize parse sendto sockfd true MAX_XID_SIZE MAX_XID_SIZE MAX_XID_SIZE;
    match r.2 with
    | Some (ad, hid, ip) =>
        hg ← undefined (host_graph ad hid ip);
        hdag ← undefined (fill_sockaddr hg stack);
        rc ← XregisterHost serialize parse sendto inet_addr regfd stack (Some fullname) (Some hdag);
        if decide (rc < 0) then mret (with_registered c hid 0 true)
        else _ ← undefined (dag_string hg); mret (with_registered c hid (beacon_reception_count c) false)
    | None => mret c
    end
  else mret c.

(** One pass of the loop. *)
Definition client_round (sockfd : Z) (fullname : str) (gw : sockaddr_x) (c : XhcpClient) (x : XIARouter S) :
    call (XhcpClient * XIARouter S) :=
  r ← Xrecvfrom parse inet_addr sockfd true (Z.of_nat XHCP_MAX_PACKET_SIZE) 0 (Some stack) (Some SIZEOF_SOCKADDR_X) stack;
  let '(rc, b) := r.1.1 in
  if decide (rc < 0) then mret (c, x)
  else
    o ← undefined (read_beacon (cleared b));
    if decide (incomplete o) then mret (c, x)
    else
      same ← undefined (already_advertised (adv c) o);
      if (same : bool) then mret (c, x)
      else
        r ← follow_offer sockfd c x o;
        let c := with_count r.1 (u32 (beacon_reception_count r.1 + 1)) in
        _ ← answer_beacon sockfd gw c;
        c ← register_host sockfd fullname c;
        mret (c, r.2).

(** ** The server *)

Record XhcpServer := mkXhcpServer { sv_fd : Z; sv_ddag : sockaddr_x; sv_seq : Z; sv_ad : str; sv_hid : str; sv_4id : str; sv_ns : str }.

(** [nameserver]: what the configuration file says, given the default. *)
Definition server_start (sockfd sk : Z) (nameserver : str → str) : call (option XhcpServer) :=
  fd ← Xsocket serialize parse sendto AF_XIA XSOCK_DGRAM 0 sockfd;
  if decide (fd < 0) then mret None
  else
    ddag ← undefined (address_of [BHID; SID_XHCP]);
    r ← XreadLocalHostAddr serialize parse sendto fd true MAX_XID_SIZE MAX_XID_SIZE MAX_XID_SIZE;
    match r.2 with
    | None => mret None
    | Some (ad, hid, ip) =>
        let ns := nameserver default_ns in
        g ← undefined (Graph_of_string inet_addr 0 ns);
        _ ← undefined (fill_sockaddr g.1 stack);
        sk ← Xsocket serialize parse sendto AF_XIA XSOCK_DGRAM 0 sk;
        _ ← (if decide (0 ≤ sk) then
               _ ← XupdateNameServerDAG serialize sendto sk (Some ns); Xclose serialize parse sendto sk
             else mret 0);
        mret (Some (mkXhcpServer fd ddag 0 ad hid ip ns))
    end.

Definition server_round (s : XhcpServer) : call XhcpServer :=
  pkt ← undefined (make_beacon (sv_seq s) (sv_ad s) (sv_hid s) (sv_4id s) (sv_ns s));
  _ ← Xsendto serialize sendto (sv_fd s) (Some pkt) (Z.of_nat (length pkt)) 0 (Some (sv_ddag s)) SIZEOF_SOCKADDR_X;
  mret (mkXhcpServer (sv_fd s) (sv_ddag s) (u32 (sv_seq s + 1)) (sv_ad s) (sv_hid s) (sv_4id s) (sv_ns s)).

End daemons.
