(* ===== verification/XhcpSpec.v ===== *)
(** * XhcpSpec: beacons of the host configuration

    What a server puts in a beacon is what a client reads from it.  The calls
    the client makes for a beacon, and the packets and names for which the
    daemons leave their buffers. *)

From Stdlib Require Import ZArith Lia Ascii String.
From stdpp Require Import base gmap sets list.
From S2P Require Import Prelude Text StdMap DagNode DagAddr RouteTable XTransport SocketLib SocketLibSpec SocketCalls NameService NameSpec ChunkPublish Xhcp.
Local Open Scope Z_scope.

(** ** Beacons *)

Lemma c_chars_ends s : plain (c_chars s).
Proof. induction s as [|c s IH]; [constructor|]. cbn [c_chars]. case_decide; constructor; auto. Qed.

Lemma text_read pre s post : text_at (pre ++ c_string s ++ post) (length pre) = Ok (c_chars s).
Proof.
  unfold text_at, c_string. rewrite drop_app_length, <- app_assoc. cbn [app].
  rewrite string_at_ok by (apply bytes_plain, c_chars_ends). cbn [mbind res_bind]. by rewrite chars_bytes.
Qed.

Lemma length_c_string s : length (c_string s) = S (length (c_chars s)).
Proof. unfold c_string. rewrite length_app, length_bytes. cbn [length]. lia. Qed.

Lemma entry_read n pre t s post o : 0 ≤ t < 2 ^ 15 →
  read_entries (S n) (pre ++ beacon_entry t s ++ post) (length pre) o =
  read_entries n (pre ++ beacon_entry t s ++ post) (length (pre ++ beacon_entry t s)) (store_entry t (c_chars s) o).
Proof.
  intros Ht. cbn [read_entries]. unfold beacon_entry.
  assert (Hb : le_bytes 2 t = [t mod 256; t / 256 mod 256]) by done.
  assert (vget (pre ++ (le_bytes 2 t ++ c_string s) ++ post) (length pre) = Ok (t mod 256)) as ->
    by (rewrite Hb; cbn [app]; apply vget_Ok; by rewrite list_lookup_middle).
  assert (vget (pre ++ (le_bytes 2 t ++ c_string s) ++ post) (S (length pre)) = Ok (t / 256 mod 256)) as ->.
  { rewrite Hb. cbn [app]. apply vget_Ok. rewrite lookup_app_r by lia.
    by replace (S (length pre) - length pre)%nat with 1%nat by lia. }
  cbn [mbind res_bind].
  assert (text_at (pre ++ (le_bytes 2 t ++ c_string s) ++ post) (length pre + 2) = Ok (c_chars s)) as ->.
  { rewrite <- app_assoc, app_assoc.
    replace (length pre + 2)%nat with (length (pre ++ le_bytes 2 t)) by (rewrite length_app, length_le_bytes; lia).
    apply text_read. }
  cbn [mbind res_bind]. f_equal.
  - rewrite !length_app, length_le_bytes, length_c_string. lia.
  - f_equal. rewrite (Z.mod_small (t / 256)) by (split; [apply Z.div_pos; lia|apply Z.div_lt_upper_bound; lia]).
    pose proof (Z.div_mod t 256 ltac:(lia)). unfold i16. rewrite wrapS_small; lia.
Qed.

(** What a server sends is what a client reads: the AD of the network, the HID
    and the 4ID of the gateway, and the address of the name server. *)
Lemma beacon_roundtrip seq ad hid ip ns pkt : make_beacon seq ad hid ip ns = Ok pkt →
  (length pkt <= 1024)%nat ∧ read_beacon (cleared pkt) = Ok (mkOffer (c_chars ad) (c_chars hid) (c_chars ip) (c_chars ns)).
Proof.
  unfold make_beacon. cbv zeta. set (p := le_bytes 4 seq ++ _). case_decide as Hlen; [|done]. intros [= <-].
  split; [exact Hlen|]. clear Hlen.
  unfold cleared. set (z := replicate _ 0). clearbody z. unfold p.
  rewrite <- !app_assoc.
  set (h := le_bytes 4 seq ++ le_bytes 2 4). assert (Hh : length h = 6%nat) by done.
  rewrite (app_assoc (le_bytes 4 seq)). fold h. unfold read_beacon.
  assert (∀ r, vget (h ++ r) 4 = Ok 4 ∧ vget (h ++ r) 5 = Ok 0) as Hn by done.
  match goal with |- context [vget (h ++ ?r) 4] => destruct (Hn r) as [-> ->] end. cbn [mbind res_bind].
  change (Z.to_nat (4 + 256 * 0)) with 4%nat. rewrite <- Hh.
  do 3 (rewrite entry_read by done; rewrite app_assoc). rewrite entry_read by done. done.
Qed.

(** ** Faults *)

(** The name with its extension has one character more than there is room for. *)
Lemma fullname_overflows hostname : make_fullname hostname = Ub OutOfBounds.
Proof. unfold make_fullname. cbv zeta. rewrite decide_False; [done|]. rewrite length_app. change (length (lit ".xia")) with 4%nat. lia. Qed.

(** The number of entries is taken from the packet and not checked. *)
Lemma short_beacon_overruns : read_beacon (cleared [0; 0; 0; 0; 255; 255]) = Ub OutOfBounds.
Proof. vm_compute. done. Qed.

(** The address of a name server that the configuration file allows does not
    fit into the beacon. *)
Lemma long_beacon_overflows seq ad hid ip ns :
  (1006 < length (c_chars ad) + length (c_chars hid) + length (c_chars ip) + length (c_chars ns))%nat →
  make_beacon seq ad hid ip ns = Ub OutOfBounds.
Proof.
  intros H. unfold make_beacon. cbv zeta. rewrite decide_False; [done|].
  unfold beacon_entry. rewrite !length_app, !length_le_bytes, !length_c_string. unfold XHCP_MAX_PACKET_SIZE. lia.
Qed.

(** ** The calls for a beacon *)

(** Calls that return, whatever the state of the library. *)
Definition returns {A} (m : call A) : Prop := ∀ l, ∃ a l', m l = Ok (Some (a, l')).

Lemma returns_ret {A} (a : A) : returns (mret a).
Proof. intros l. by eexists _, _. Qed.
Lemma returns_bind {A B} (m : call A) (f : A → call B) : returns m → (∀ a, returns (f a)) → returns (m ≫= f).
Proof. intros Hm Hf l. destruct (Hm l) as (a & l' & H). rewrite (call_bind_some _ _ _ _ _ H). apply Hf. Qed.
Lemma returns_reading {A} sock (f : SocketState → A) a : returns (reading sock f a).
Proof. intros l. unfold reading. apply returns_bind; [by intros l1; eexists _, _|]. intros p. apply returns_ret. Qed.
Lemma returns_setting sock f : returns (setting sock f).
Proof.
  unfold setting. apply returns_bind; [by intros l1; eexists _, _|].
  intros [s|]; [by intros l1; eexists _, _|apply returns_ret].
Qed.

Section told.
Context (serialize : api_msg → list Z) (sendto : Z → list Z → Z) (fd : Z).

Lemma returns_tell m : returns (tell serialize sendto fd (Ok m)).
Proof using.
  unfold tell. apply returns_bind; [apply returns_reading|]. intros t. case_decide.
  { unfold fail. apply returns_bind; [by intros l; eexists _, _|]. intros _. apply returns_ret. }
  apply returns_bind; [by intros l; eexists _, _|]. intros m'. apply returns_bind; [|intros rc; apply returns_ret].
  unfold click_send. case_decide; [apply returns_ret|]. apply returns_bind; [apply returns_setting|]. intros _.
  apply returns_bind; [case_decide; [by intros l; eexists _, _|apply returns_ret]|]. intros _.
  apply returns_bind; [apply returns_setting|]. intros _. apply returns_ret.
Qed.

(** The kernel takes the messages. *)
Context (Hser : ∀ m, serialize m ≠ []) (Hsendto : ∀ b, sendto fd b = Z.of_nat (length b)).

Lemma send_posts l s m : sockets l !! fd = Some (Some s) →
  ∃ l', click_send serialize sendto fd m l = Ok (Some (0, l')) ∧ sockets l' !! fd = Some (Some (with_wrapped s 0)) ∧
    outbox l' = outbox l ++ [(fd, m)].
Proof using Hser Hsendto.
  intros Hs. assert (length (serialize m) ≠ 0)%nat by (pose proof (Hser m); by destruct (serialize m)).
  destruct (setting_of l fd s (λ s, with_wrapped s 1) Hs) as (l1 & H1 & Hs1 & _ & Ho1).
  set (l2 := mkLib (sockets l1) (errno l1) (outbox l1 ++ [(fd, m)]) (inbox l1) (one_heap l1)).
  destruct (setting_of l2 fd _ (λ s, with_wrapped s 0) Hs1) as (l3 & H3 & Hs3 & _ & Ho3).
  exists l3. split; [|split; [exact Hs3|rewrite Ho3; cbn [l2 outbox]; by rewrite Ho1]].
  unfold click_send, setWrapped. cbv zeta. rewrite Hsendto. set (n := Z.of_nat (length (serialize m))).
  rewrite (decide_False (P := n ≤ 0)) by lia. rewrite (call_bind_some _ _ _ _ _ H1). rewrite (decide_True (P := n = n)) by done.
  rewrite (call_bind_some _ _ _ _ _ (eq_refl : post _ _ _ = _)). fold l2. rewrite (call_bind_some _ _ _ _ _ H3).
  rewrite (decide_False (P := n = -1)) by lia. rewrite (decide_False (P := 0 < n - n)) by lia.
  by rewrite (decide_True (P := 0 ≤ n)) by lia.
Qed.

Lemma tell_posts l s m : sockets l !! fd = Some (Some s) → m_transportType s ≠ XSOCK_INVALID →
  ∃ l', tell serialize sendto fd (Ok m) l = Ok (Some (0, l')) ∧ sockets l' !! fd = Some (Some (with_wrapped s 0)) ∧
    outbox l' = outbox l ++ [(fd, m)].
Proof using Hser Hsendto.
  intros Hs Ht. unfold tell, getSocketType. rewrite (call_bind_some _ _ _ _ _ (reading_of _ _ _ _ _ Hs)).
  rewrite (decide_False (P := _ = XSOCK_INVALID)) by done.
  rewrite (call_bind_some _ _ _ _ _ (eq_refl : undefined (Ok m) _ = _)).
  destruct (send_posts (put l fd s) s m (put_same _ _ _)) as (l1 & H1 & Hs1 & Ho1). exists l1.
  by rewrite (call_bind_some _ _ _ _ _ H1).
Qed.
End told.

(** Calls that send nothing. *)
Definition quiet {A} (m : call A) : Prop := ∀ l a l', m l = Ok (Some (a, l')) → outbox l' = outbox l.

Lemma quiet_ret {A} (a : A) : quiet (mret a).
Proof. by intros l a' l' [= _ <-]. Qed.
Lemma quiet_bind {A B} (m : call A) (f : A → call B) : quiet m → (∀ a, quiet (f a)) → quiet (m ≫= f).
Proof. intros Hm Hf l b l' (a & l1 & H1 & H2)%call_bind_inv. rewrite (Hf _ _ _ _ H2). by eapply Hm. Qed.
Lemma quiet_undefined {A} (r : res A) : quiet (undefined r).
Proof. intros l a l' H. by rewrite (undefined_inv _ _ _ _ H). Qed.
Lemma quiet_get sock : quiet (SocketMap_get sock).
Proof. by intros l a l' [= _ <-]. Qed.
Lemma quiet_put sock s : quiet (put_state sock s).
Proof. by intros l a l' [= _ <-]. Qed.
Lemma quiet_errno e : quiet (set_errno e).
Proof. by intros l a l' [= _ <-]. Qed.
Lemma quiet_recvfrom sock n : quiet (recvfrom sock n).
Proof. intros l a l'. unfold recvfrom. destruct (default _ _); [done|]. by intros [= _ <-]. Qed.
Lemma quiet_heap : quiet heap_of.
Proof. by intros l a l' [= _ <-]. Qed.
Create HintDb quiet.
#[local] Hint Resolve quiet_heap quiet_ret quiet_undefined quiet_get quiet_put quiet_errno quiet_recvfrom : quiet.

#[local] Ltac quietly :=
  repeat (first [apply quiet_bind; [|intros ?] | case_match | progress auto with quiet]).

Lemma quiet_Xrecvfrom parse inet_addr fd rbuf len flags addr n sa : quiet (Xrecvfrom parse inet_addr fd rbuf len flags addr n sa).
Proof.
  unfold Xrecvfrom, validateSocket, getSocketType, dgramPeer, click_reply, take_payload, setWrapped, setSocketData, setPeer.
  quietly.
Qed.

(** A beacon that waits at the socket is received. *)
Lemma receive_beacon parse inet_addr stack l fd s d from pkt g a rest :
  sockets l !! fd = Some (Some s) → state_ok s → stash s = [] → m_transportType s = XSOCK_DGRAM →
  default [] (inbox l !! fd) = Some d :: rest → Z.of_nat (length d) < MAXBUFLEN → parse d = R_XRECV from pkt →
  (length pkt <= 1024)%nat → Graph_of_string inet_addr 0 from = Ok g → fill_sockaddr g.1 stack = Ok a →
  ∃ l' s', Xrecvfrom parse inet_addr fd true 1024 0 (Some stack) (Some SIZEOF_SOCKADDR_X) stack l =
      Ok (Some ((Z.of_nat (length pkt), pkt, Some a, Some SIZEOF_SOCKADDR_X), l')) ∧
    sockets l' !! fd = Some (Some s') ∧ m_transportType s' = XSOCK_DGRAM ∧ outbox l' = outbox l.
Proof.
  intros Hs Hok Hst Ht Hd Hdl Hp Hpl Hg Ha.
  assert (∃ l' s', Xrecvfrom parse inet_addr fd true 1024 0 (Some stack) (Some SIZEOF_SOCKADDR_X) stack l =
      Ok (Some ((Z.of_nat (length pkt), pkt, Some a, Some SIZEOF_SOCKADDR_X), l')) ∧
    sockets l' !! fd = Some (Some s') ∧ m_transportType s' = XSOCK_DGRAM) as (l' & s' & Hrun & Hs' & Ht').
  2: { exists l', s'. split_and!; try done. by eapply quiet_Xrecvfrom. }
  unfold Xrecvfrom. rewrite decide_False by (by intros [? _]). rewrite decide_False by (by intros [? | [_ ?]]).
  rewrite decide_False by (by intros [_ ?]).
  rewrite (call_bind_some _ _ _ _ _ (validate_type _ _ _ _ _ Hs Ht)). rewrite decide_False by lia.
  destruct (get_data_of (put l fd s) fd s (u32 1024) (put_same _ _ _) Hok) as (l1 & s1 & Hget & Hs1 & Hst1 & Hok1 & Ht1 & _ & _ & Hi1 & _);
    [done|by intros [? _]|].
  rewrite (call_bind_some _ _ _ _ _ Hget). rewrite Hst in *. rewrite take_nil, drop_nil in *. cbn [fst length]. rewrite decide_False by done.
  destruct (click_reply_of l1 fd s1 MAXBUFLEN d rest Hs1) as (l2 & s2 & H2 & Hs2 & -> & Hi2 & _); [by rewrite Hi1|lia|].
  rewrite (call_bind_some _ _ _ _ _ H2). rewrite Hp. cbn [x_recv snd fst].
  destruct (take_payload_of l2 fd _ pkt 1024 Hs2) as (l3 & s3 & H3 & Hs3 & _ & _ & Ht3 & _); [done|done|lia|].
  rewrite take_ge in H3 by lia. cbv zeta. rewrite (call_bind_some _ _ _ _ _ H3).
  rewrite decide_True by (left; by eexists). exists l3, s3. rewrite Ht3. cbn [with_wrapped m_transportType]. rewrite Ht1.
  split_and!; try done. unfold undefined, mbind, call_bind. rewrite Hg, Ha. done.
Qed.
