(* ===== verification/XhcpRoutes.v ===== *)
(** * XhcpRoutes: a host in the networks it visits

    The client of the host configuration, its calls of the socket library, its
    object for the router, the control connection and the routing tables
    composed: after every beacon the tables of the host lead to the network of
    that beacon, and nothing is left of the networks before it. *)

From Stdlib Require Import ZArith Lia Ascii String.
From stdpp Require Import base gmap sets list.
From S2P Require Import Prelude Text ConfParse XiaPath XiaPathOrder XiaPathCodec XidText XiaPathText XiaHeader RouteTable RouteTableSpec StdMap XRouted ControlSocket ControlClient ControlServe ControlSpec ControlCall XIARouter XIARouterSpec RoutesInstalled DagNode DagAddr XTransport SocketLib SocketLibSpec SocketCalls NameService Xhcp XhcpSpec.
Local Open Scope Z_scope.

(** ** The tables of a host *)

(** The host belongs to an AD, and its gateway has an HID: a network. *)
Abbreviation attachment := (Xid * Xid)%type.

Definition local_route : XIARouteData := mkRoute DESTINED_FOR_LOCALHOST 65535 None.
Definition gateway_route (h : Xid) : XIARouteData := mkRoute 0 65535 (Some h).

(** The routes [m] without those to [xs]. *)
Definition forget (m : gmap Xid XIARouteData) (xs : list Xid) : gmap Xid XIARouteData := foldr delete m xs.

(** The routes after [xs], one after the other, with a route to the last. *)
Definition visited (m : gmap Xid XIARouteData) (xs : list Xid) (r : Xid → XIARouteData) : gmap Xid XIARouteData :=
  match last xs with Some x => <[x := r x]> (forget m xs) | None => m end.

Lemma forget_lookup m xs x : forget m xs !! x = if decide (x ∈ xs) then None else m !! x.
Proof.
  induction xs as [|y xs IH]; cbn [forget foldr]; [by rewrite decide_False by set_solver|].
  destruct (decide (x = y)) as [->|Hne].
  - rewrite lookup_delete_eq. by rewrite decide_True by set_solver.
  - rewrite lookup_delete_ne by done. fold (forget m xs). rewrite IH.
    destruct (decide (x ∈ xs)); [by rewrite decide_True by set_solver|by rewrite decide_False by set_solver].
Qed.

Lemma visited_next m xs r x :
  visited m (xs ++ [x]) r = <[x := r x]> (match last xs with Some y => delete y (visited m xs r) | None => m end).
Proof.
  unfold visited. rewrite last_snoc. apply map_eq. intros z. destruct (decide (z = x)) as [->|Hz]; [by rewrite !lookup_insert_eq|].
  rewrite !lookup_insert_ne by done. rewrite forget_lookup. destruct (last xs) as [y|] eqn:E.
  - assert (y ∈ xs) as Hin by (by apply last_Some_elem_of). destruct (decide (z = y)) as [->|Hy].
    + rewrite lookup_delete_eq. by rewrite decide_True by set_solver.
    + rewrite lookup_delete_ne, lookup_insert_ne, forget_lookup by done.
      destruct (decide (z ∈ xs)); [by rewrite decide_True by set_solver|by rewrite decide_False by set_solver].
  - apply last_None in E as ->. by rewrite decide_False by set_solver.
Qed.

Lemma visited_same m xs r x : last xs = Some x → visited m (xs ++ [x]) r = visited m xs r.
Proof.
  intros E. rewrite visited_next, E. unfold visited. rewrite E. apply map_eq. intros z.
  destruct (decide (z = x)) as [->|Hz]; [by rewrite !lookup_insert_eq|].
  by rewrite lookup_insert_ne, lookup_delete_ne by done.
Qed.

Lemma visited_last m xs r x : last xs = Some x → visited m xs r !! x = Some (r x).
Proof. intros E. unfold visited. rewrite E. apply lookup_insert_eq. Qed.

Lemma size_visited m xs r : (size (visited m xs r) <= S (size m))%nat.
Proof.
  unfold visited. destruct (last xs) as [x|]; [|lia].
  assert (size (forget m xs) <= size m)%nat as Hf.
  { apply map_subseteq_size. apply map_subseteq_spec. intros y d Hy. rewrite forget_lookup in Hy. by case_decide. }
  pose proof (map_size_insert x (r x) (forget m xs)) as H. case_match; cbn in H; lia.
Qed.

(** The default route leads to the last gateway. *)
Definition through (t : XIAXIDRouteTable) (ns : list attachment) : XIAXIDRouteTable :=
  match last ns with Some n => with_default t (gateway_route n.2) | None => t end.

(** The tables when the ADs of [ns] and the gateways of [gs] were visited. *)
Definition ad_at (t : XIAXIDRouteTable) (ns gs : list attachment) : XIAXIDRouteTable :=
  through (with_rts t (visited (_rts t) (map fst ns) (λ _, local_route))) gs.
Definition hid_at (t : XIAXIDRouteTable) (ns gs : list attachment) : XIAXIDRouteTable :=
  through (with_rts t (visited (_rts t) (map snd ns) gateway_route)) gs.

Lemma through_rts t ns m : with_rts (through t ns) m = through (with_rts t m) ns.
Proof. unfold through. by destruct (last ns). Qed.
Lemma rts_through t ns : _rts (through t ns) = _rts t.
Proof. unfold through. by destruct (last ns). Qed.
Lemma through_next t ns n : with_default (through t ns) (gateway_route n.2) = through t (ns ++ [n]).
Proof. unfold through. rewrite last_snoc. by destruct (last ns). Qed.
Lemma through_same t ns m n : last ns = Some m → m.2 = n.2 → through t (ns ++ [n]) = through t ns.
Proof. intros E H. unfold through. by rewrite last_snoc, E, H. Qed.

Lemma last_map {A B} (f : A → B) l : last (map f l) = f <$> last l.
Proof. apply fmap_last. Qed.

Lemma ad_at_next t ns gs n :
  ad_at t (ns ++ [n]) gs = let u := match last ns with Some m => with_rts (ad_at t ns gs) (delete m.1 (_rts (ad_at t ns gs))) | None => ad_at t ns gs end in
  with_rts u (<[n.1 := local_route]> (_rts u)).
Proof.
  cbv zeta. unfold ad_at. rewrite map_app. cbn [map]. rewrite visited_next, last_map.
  destruct (last ns) as [m|] eqn:E; cbn [fmap option_fmap option_map].
  - rewrite !through_rts, !rts_through. done.
  - apply last_None in E as ->. rewrite through_rts, rts_through. done.
Qed.

Lemma hid_at_next t ns gs n :
  hid_at t (ns ++ [n]) gs = let u := match last ns with Some m => with_rts (hid_at t ns gs) (delete m.2 (_rts (hid_at t ns gs))) | None => hid_at t ns gs end in
  with_rts u (<[n.2 := gateway_route n.2]> (_rts u)).
Proof.
  cbv zeta. unfold hid_at. rewrite map_app. cbn [map]. rewrite visited_next, last_map.
  destruct (last ns) as [m|] eqn:E; cbn [fmap option_fmap option_map].
  - rewrite !through_rts, !rts_through. done.
  - apply last_None in E as ->. rewrite through_rts, rts_through. done.
Qed.

(** Listing stays possible. *)
Lemma listable_visited t xs r ns : listable t → (∀ x, x ∈ xs → printable x ∧ printable_route (r x)) →
  Forall (λ n : attachment, printable_route (gateway_route n.2)) ns → listable (through (with_rts t (visited (_rts t) xs r)) ns).
Proof.
  intros [Hd Hl] Hx Hn. split.
  - unfold through. destruct (last ns) as [n|] eqn:E; [|done]. rewrite Forall_forall in Hn. by apply Hn, last_Some_elem_of.
  - intros x d. rewrite rts_through. cbn [_rts with_rts]. unfold visited. destruct (last xs) as [y|] eqn:E; [|apply Hl].
    destruct (decide (x = y)) as [->|Hne].
    + rewrite lookup_insert_eq. intros [= <-]. by apply Hx, last_Some_elem_of.
    + rewrite lookup_insert_ne, forget_lookup by done. case_decide; [done|]. apply Hl.
Qed.

(** The AD and the HID of a network. *)
Definition attachment_ok (n : attachment) : Prop :=
  printable n.1 ∧ xid_type n.1 = htonl CLICK_XIA_XID_TYPE_AD ∧
  printable n.2 ∧ xid_type n.2 = htonl CLICK_XIA_XID_TYPE_HID ∧ xid_valid n.2 = true.

(** What a beacon of the network [n] offers. *)
Definition offer_for (o : offer) (n : attachment) : Prop :=
  attachment_ok n ∧ self_dag o = xid_word n.1 ∧ gw_dag o = xid_word n.2.

(** What the client remembers after the networks [ns] and the gateways [gs]. *)
Definition remembers (c : XhcpClient) (ns gs : list attachment) : Prop :=
  myAD c = match last ns with Some n => xid_word n.1 | None => [] end ∧
  myGWRHID c = match last gs with Some n => xid_word n.2 | None => [] end.

(** Tables as they are for the host after the networks [ns] and then [n]. *)
Record settled (tA tH tI tA' tH' tI' : XIAXIDRouteTable) (ns : list attachment) (n : attachment) : Prop := {
  st_ads x : _rts tA' !! x = if decide (x = n.1) then Some local_route else if decide (x ∈ map fst ns) then None else _rts tA !! x;
  st_hids x : _rts tH' !! x = if decide (x = n.2) then Some (gateway_route n.2) else if decide (x ∈ map snd ns) then None else _rts tH !! x;
  st_ips : _rts tI' = _rts tI;
  st_defaults : _rtdata tA' = gateway_route n.2 ∧ _rtdata tH' = gateway_route n.2 ∧ _rtdata tI' = gateway_route n.2 }.

Lemma visited_lookup m xs r x y : visited m (xs ++ [x]) r !! y =
  if decide (y = x) then Some (r x) else if decide (y ∈ xs) then None else m !! y.
Proof.
  unfold visited. rewrite last_snoc. case_decide as Hy; [subst; apply lookup_insert_eq|]. rewrite lookup_insert_ne by done.
  rewrite forget_lookup. destruct (decide (y ∈ xs)); [rewrite decide_True; [done|]|rewrite decide_False; [done|]];
    rewrite elem_of_app, list_elem_of_singleton; tauto.
Qed.

Lemma settled_at tA tH tI ns n :
  settled tA tH tI (ad_at tA (ns ++ [n]) (ns ++ [n])) (hid_at tH (ns ++ [n]) (ns ++ [n])) (through tI (ns ++ [n])) ns n.
Proof.
  unfold ad_at, hid_at, through. rewrite last_snoc. split; cbn [_rts _rtdata with_default with_rts]; try done;
    intros x; rewrite map_app; apply visited_lookup.
Qed.

Lemma default_types : lit "AD" ∈ [lit "AD"; lit "HID"; lit "IP"] ∧ lit "HID" ∈ [lit "AD"; lit "HID"; lit "IP"] ∧
  lit "IP" ∈ [lit "AD"; lit "HID"; lit "IP"].
Proof. set_solver. Qed.

Section host.
Context (qx : str → option Xid) (qi : str → option (list Z)).
Context (Hqx : ∀ s, qx s = None) (Hqi : ∀ s, qi s = None).
Context (order : gmap Xid XIARouteData → list (Xid * XIARouteData)) (Horder : ∀ m, order m ≡ₚ map_to_list m).
Context (complaint : str → str → str).
Context (other_write : XIAXIDRouteTable → str → str → XIAXIDRouteTable * Z).
Context (drops : XIAXIDRouteTable → Z).
Context (ll : connection → tables → str → str → connection * tables * Z).
Context (tcp : str → list (arrival * nat)) (Hdel : delivers tcp).
Context (sizeof_string : Z) (Hsize : 8 ≤ sizeof_string) (chunk : nat → nat) (fuel : nat).
Abbreviation peer := (control_peer (router := tables_router qx qi order complaint other_write drops) false ll tcp).
Context (rn : str) (Hrn : router_name rn).
Context (serialize : api_msg → list Z) (sendto : Z → list Z → Z) (fd : Z).

(** The three tables, at their places. *)
Record host_tables (ts : tables) (i j k : nat) (tA tH tI : XIAXIDRouteTable) : Prop := {
  ht_names : NoDup ts.*1;
  ht_ad : ts !! i = Some (table_name rn (lit "AD"), tA);
  ht_hid : ts !! j = Some (table_name rn (lit "HID"), tH);
  ht_ip : ts !! k = Some (table_name rn (lit "IP"), tI) }.

Lemma places_differ ts i j k tA tH tI : host_tables ts i j k tA tH tI → i ≠ j ∧ i ≠ k ∧ j ≠ k.
Proof using.
  intros [_ H1 H2 H3]. split_and!; intros ->; [rewrite H1 in H2; injection H2 as H _|rewrite H1 in H3; injection H3 as H _|
    rewrite H2 in H3; injection H3 as H _]; unfold table_name in H; by apply app_inv_head, app_inv_head in H.
Qed.

Lemma put_ad ts i j k tA tH tI t : host_tables ts i j k tA tH tI →
  host_tables (<[i := (table_name rn (lit "AD"), t)]> ts) i j k t tH tI.
Proof using.
  intros H. destruct (places_differ _ _ _ _ _ _ _ H) as (Hij & Hik & Hjk). destruct H as [Hn H1 H2 H3].
  split; [by erewrite names_insert| | |]; [|by rewrite list_lookup_insert_ne..].
  apply list_lookup_insert_eq. by eapply lookup_lt_Some.
Qed.
Lemma put_hid ts i j k tA tH tI t : host_tables ts i j k tA tH tI →
  host_tables (<[j := (table_name rn (lit "HID"), t)]> ts) i j k tA t tI.
Proof using.
  intros H. destruct (places_differ _ _ _ _ _ _ _ H) as (Hij & Hik & Hjk). destruct H as [Hn H1 H2 H3].
  split; [by erewrite names_insert|by rewrite list_lookup_insert_ne| |by rewrite list_lookup_insert_ne].
  apply list_lookup_insert_eq. by eapply lookup_lt_Some.
Qed.
Lemma put_ip ts i j k tA tH tI t : host_tables ts i j k tA tH tI →
  host_tables (<[k := (table_name rn (lit "IP"), t)]> ts) i j k tA tH t.
Proof using.
  intros H. destruct (places_differ _ _ _ _ _ _ _ H) as (Hij & Hik & Hjk). destruct H as [Hn H1 H2 H3].
  split; [by erewrite names_insert|by rewrite list_lookup_insert_ne..|].
  apply list_lookup_insert_eq. by eapply lookup_lt_Some.
Qed.

Lemma ad_string x : xid_type x = htonl CLICK_XIA_XID_TYPE_AD → xid_type_string (xid_type x) = lit "AD".
Proof using. intros ->. by vm_compute. Qed.
Lemma hid_string x : xid_type x = htonl CLICK_XIA_XID_TYPE_HID → xid_type_string (xid_type x) = lit "HID".
Proof using. intros ->. by vm_compute. Qed.

Lemma gateway_printable n : attachment_ok n → printable_route (gateway_route n.2).
Proof using.
  intros (_ & _ & Hp & _ & Hv). split; [cbn; lia|]. split; [cbn; lia|]. by intros x [= <-].
Qed.
Lemma local_printable : printable_route local_route.
Proof using. split; [cbn; unfold DESTINED_FOR_LOCALHOST; lia|]. split; [cbn; lia|]. done. Qed.

(** Nothing is removed when there was no network. *)
Lemma remove_nothing ts x : connected_to rn ts x → (delRoute peer sizeof_string x []).1 = x.
Proof using. intros (c & e & -> & _). done. Qed.

(** *** The messages to the transport element *)

(** The library after [msgs], when the kernel takes messages. *)
Definition posts (l : Lib) (msgs : list api_msg) (l' : Lib) : Prop :=
  (∀ m, serialize m ≠ []) → (∀ b, sendto fd b = Z.of_nat (length b)) →
  ∀ s, sockets l !! fd = Some (Some s) → m_transportType s ≠ XSOCK_INVALID →
  outbox l' = outbox l ++ map (pair fd) msgs ∧
  ∃ s', sockets l' !! fd = Some (Some s') ∧ m_transportType s' = m_transportType s.

Lemma posts_nil l : posts l [] l.
Proof using. intros _ _ s Hs _. cbn. rewrite app_nil_r. eauto. Qed.

Lemma posts_app l m1 l1 m2 l2 : posts l m1 l1 → posts l1 m2 l2 → posts l (m1 ++ m2) l2.
Proof using.
  intros H1 H2 Hser Hsend s Hs Ht. destruct (H1 Hser Hsend s Hs Ht) as (Ho1 & s1 & Hs1 & Ht1).
  destruct (H2 Hser Hsend s1 Hs1) as (Ho2 & s2 & Hs2 & Ht2); [congruence|].
  split; [by rewrite Ho2, Ho1, map_app, app_assoc|]. exists s2. split; [done|congruence].
Qed.

Lemma tell_run l m : ∃ rc l', tell serialize sendto fd (Ok m) l = Ok (Some (rc, l')) ∧ posts l [m] l'.
Proof using.
  destruct (returns_tell serialize sendto fd m l) as (rc & l' & H). exists rc, l'. split; [done|].
  intros Hser Hsend s Hs Ht. destruct (tell_posts serialize sendto fd Hser Hsend l s m Hs Ht) as (l2 & H2 & Hs2 & Ho2).
  rewrite H in H2. injection H2 as _ <-. split; [done|]. by eexists.
Qed.

Definition ad_news (ad : str) (o : offer) : list api_msg :=
  if decide (ad ≠ self_dag o) then [M_XCHANGEAD (self_dag o) (gw_4id o)] else [].
Definition ns_news (ns : str) (o : offer) : list api_msg :=
  if decide (ns ≠ ns_dag_text o) then [M_XUPDATENAMESERVERDAG (ns_dag_text o)] else [].

(** *** One beacon *)

(** The parts of the client that a beacon does not concern. *)
Definition same_rest (c c' : XhcpClient) : Prop :=
  beacon_reception_count c' = beacon_reception_count c ∧ myHID c' = myHID c ∧ adv c' = adv c.

Lemma same_name a b : printable a → printable b → xid_word a = xid_word b → a = b.
Proof using Hqx Hqi. by apply (xid_word_inj qx qi). Qed.

(** The calls on the router that a beacon leads to. *)
Lemma set_local ts i j k tA tH tI a x : host_tables ts i j k tA tH tI → connected_to rn ts x →
  printable a → xid_type a = htonl CLICK_XIA_XID_TYPE_AD →
  ∃ ts' x', setRoute peer sizeof_string x (xid_word a) DESTINED_FOR_LOCALHOST [] 65535 = (x', XR_OK) ∧ connected_to rn ts' x' ∧
    host_tables ts' i j k (with_rts tA (<[a := local_route]> (_rts tA))) tH tI.
Proof using Hqx Hqi Hdel Hsize Hrn.
  intros Ht Hx Hp Hty.
  destruct (set_route_step qx qi Hqx Hqi order complaint other_write drops ll tcp Hdel sizeof_string Hsize rn ts i tA a local_route x
    Hrn (ht_names _ _ _ _ _ _ _ Ht) Hp local_printable ltac:(rewrite (ad_string _ Hty); apply Ht) Hx) as (x' & Hrun & Hx').
  rewrite (ad_string _ Hty) in Hx'. eexists _, x'. split; [exact Hrun|]. split; [exact Hx'|]. by eapply put_ad.
Qed.

Lemma set_gateway ts i j k tA tH tI n x : host_tables ts i j k tA tH tI → connected_to rn ts x → attachment_ok n →
  ∃ ts' x', setRoute peer sizeof_string x (xid_word n.2) 0 (xid_word n.2) 65535 = (x', XR_OK) ∧ connected_to rn ts' x' ∧
    host_tables ts' i j k tA (with_rts tH (<[n.2 := gateway_route n.2]> (_rts tH))) tI.
Proof using Hqx Hqi Hdel Hsize Hrn.
  intros Ht Hx Hn. pose proof Hn as (_ & _ & Hp & Hty & _).
  destruct (set_route_step qx qi Hqx Hqi order complaint other_write drops ll tcp Hdel sizeof_string Hsize rn ts j tH n.2 (gateway_route n.2) x
    Hrn (ht_names _ _ _ _ _ _ _ Ht) Hp (gateway_printable n Hn) ltac:(rewrite (hid_string _ Hty); apply Ht) Hx) as (x' & Hrun & Hx').
  rewrite (hid_string _ Hty) in Hx'. eexists _, x'. split; [exact Hrun|]. split; [exact Hx'|]. by eapply put_hid.
Qed.

Lemma set_defaults ts i j k tA tH tI n x : host_tables ts i j k tA tH tI → connected_to rn ts x → attachment_ok n →
  (∃ ts' x', setRoute peer sizeof_string x (lit "AD:-") 0 (xid_word n.2) 65535 = (x', XR_OK) ∧ connected_to rn ts' x' ∧
    host_tables ts' i j k (with_default tA (gateway_route n.2)) tH tI) ∧
  (∃ ts' x', setRoute peer sizeof_string x (lit "HID:-") 0 (xid_word n.2) 65535 = (x', XR_OK) ∧ connected_to rn ts' x' ∧
    host_tables ts' i j k tA (with_default tH (gateway_route n.2)) tI) ∧
  (∃ ts' x', setRoute peer sizeof_string x (lit "IP:-") 0 (xid_word n.2) 65535 = (x', XR_OK) ∧ connected_to rn ts' x' ∧
    host_tables ts' i j k tA tH (with_default tI (gateway_route n.2))).
Proof using Hqx Hqi Hdel Hsize Hrn.
  intros Ht Hx Hn. pose proof Ht as [Hnd H1 H2 H3]. destruct default_types as (D1 & D2 & D3).
  pose proof (λ p t ty Hty Hi, set_default_step qx qi Hqx Hqi order complaint other_write drops ll tcp Hdel sizeof_string Hsize rn ts p t
    (gateway_route n.2) x ty Hty Hrn Hnd (gateway_printable n Hn) Hi Hx) as Hset.
  split_and!.
  - destruct (Hset i tA (lit "AD") D1 H1) as (x' & Hrun & Hx'). eexists _, x'.
    split; [exact Hrun|]. split; [exact Hx'|]. by eapply put_ad.
  - destruct (Hset j tH (lit "HID") D2 H2) as (x' & Hrun & Hx'). eexists _, x'.
    split; [exact Hrun|]. split; [exact Hx'|]. by eapply put_hid.
  - destruct (Hset k tI (lit "IP") D3 H3) as (x' & Hrun & Hx'). eexists _, x'.
    split; [exact Hrun|]. split; [exact Hx'|]. by eapply put_ip.
Qed.

(** The route to the AD or to the gateway of before is removed. *)
Lemma remove_ad ts i j k tA tH tI x ns : host_tables ts i j k tA tH tI → connected_to rn ts x → Forall attachment_ok ns →
  (∀ m, last ns = Some m → is_Some (_rts tA !! m.1)) →
  ∃ ts', connected_to rn ts' (delRoute peer sizeof_string x (match last ns with Some m => xid_word m.1 | None => [] end)).1 ∧
    host_tables ts' i j k
      (match last ns with Some m => with_rts tA (delete m.1 (_rts tA)) | None => tA end) tH tI.
Proof using Hqx Hqi Hdel Hsize Hrn.
  intros Ht Hx Hns Hin. destruct (last ns) as [m|] eqn:El; [|rewrite (remove_nothing ts x Hx); by exists ts].
  assert (attachment_ok m) as (Hpm & Htm & _) by (rewrite Forall_forall in Hns; by apply Hns, last_Some_elem_of).
  destruct (remove_route_step qx qi Hqx Hqi order complaint other_write drops ll tcp Hdel sizeof_string Hsize rn ts i
    tA m.1 x Hrn (ht_names _ _ _ _ _ _ _ Ht) Hpm (Hin m eq_refl) ltac:(rewrite (ad_string _ Htm); apply Ht) Hx) as (x' & Hrun & Hx').
  change (delRoute peer sizeof_string x (xid_word m.1) = (x', XR_OK)) in Hrun. rewrite Hrun.
  rewrite (ad_string _ Htm) in Hx'. eexists. split; [exact Hx'|]. by eapply put_ad.
Qed.

Lemma remove_gateway ts i j k tA tH tI x ns : host_tables ts i j k tA tH tI → connected_to rn ts x → Forall attachment_ok ns →
  (∀ m, last ns = Some m → is_Some (_rts tH !! m.2)) →
  ∃ ts', connected_to rn ts' (delRoute peer sizeof_string x (match last ns with Some m => xid_word m.2 | None => [] end)).1 ∧
    host_tables ts' i j k tA
      (match last ns with Some m => with_rts tH (delete m.2 (_rts tH)) | None => tH end) tI.
Proof using Hqx Hqi Hdel Hsize Hrn.
  intros Ht Hx Hns Hin. destruct (last ns) as [m|] eqn:El; [|rewrite (remove_nothing ts x Hx); by exists ts].
  assert (attachment_ok m) as (_ & _ & Hpm & Htm & _) by (rewrite Forall_forall in Hns; by apply Hns, last_Some_elem_of).
  destruct (remove_route_step qx qi Hqx Hqi order complaint other_write drops ll tcp Hdel sizeof_string Hsize rn ts j
    tH m.2 x Hrn (ht_names _ _ _ _ _ _ _ Ht) Hpm (Hin m eq_refl) ltac:(rewrite (hid_string _ Htm); apply Ht) Hx) as (x' & Hrun & Hx').
  change (delRoute peer sizeof_string x (xid_word m.2) = (x', XR_OK)) in Hrun. rewrite Hrun.
  rewrite (hid_string _ Htm) in Hx'. eexists. split; [exact Hx'|]. by eapply put_hid.
Qed.

Lemma follow_ad_step c x o n ns gs ts i j k tA tH tI l :
  Forall attachment_ok ns → offer_for o n → remembers c ns gs → connected_to rn ts x →
  host_tables ts i j k (ad_at tA ns gs) tH tI →
  ∃ c' x' l' ts', follow_ad serialize sendto peer sizeof_string fd c x o l = Ok (Some ((c', x'), l')) ∧
    remembers c' (ns ++ [n]) gs ∧ myNS_DAG c' = myNS_DAG c ∧ same_rest c c' ∧ posts l (ad_news (myAD c) o) l' ∧
    connected_to rn ts' x' ∧ host_tables ts' i j k (ad_at tA (ns ++ [n]) gs) tH tI.
Proof using Hqx Hqi Hdel Hsize Hrn.
  intros Hns (Hn & Hself & _) [Hm Hg] Hx Ht. pose proof Hn as (Hp & Hty & _). unfold follow_ad, ad_news. case_decide as Hne.
  - destruct (tell_run l (M_XCHANGEAD (self_dag o) (gw_4id o))) as (rc & l1 & H1 & Hpost).
    change (tell serialize sendto fd (Ok (M_XCHANGEAD (self_dag o) (gw_4id o))))
      with (XupdateAD serialize sendto fd (Some (self_dag o)) (Some (gw_4id o))) in H1.
    rewrite (call_bind_some _ _ _ _ _ H1). cbv zeta. rewrite Hm, Hself.
    destruct (remove_ad ts i j k _ tH tI x ns Ht Hx Hns) as (ts1 & Hx1 & Ht1).
    { intros m El. unfold ad_at. rewrite rts_through. exists local_route. apply visited_last. by rewrite last_map, El. }
    destruct (set_local ts1 i j k _ tH tI n.1 _ Ht1 Hx1 Hp Hty) as (ts2 & x2 & Hrun2 & Hx2 & Ht2). rewrite Hrun2. cbn [fst].
    eexists _, x2, l1, ts2. split; [reflexivity|]. split; [|split; [done|split; [by split_and!|split; [by rewrite <- Hself|split; [exact Hx2|]]]]].
    + by split; cbn [myAD myGWRHID]; [rewrite last_snoc|].
    + by rewrite ad_at_next.
  - assert (∃ m, last ns = Some m ∧ m.1 = n.1) as (m & El & Hmn).
    { destruct (last ns) as [m|] eqn:El; [|destruct (xid_word_ok _ Hp) as [He _]; by rewrite Hm, Hself in Hne].
      exists m. split; [done|]. apply same_name; [|done|congruence].
      rewrite Forall_forall in Hns. by apply Hns, last_Some_elem_of. }
    eexists c, x, l, ts. split; [reflexivity|]. split; [|split; [done|split; [by split_and!|split; [apply posts_nil|split; [done|]]]]].
    + split; [|done]. rewrite last_snoc, Hm, El. by rewrite Hmn.
    + unfold ad_at in *. rewrite map_app. cbn [map]. rewrite visited_same; [done|]. rewrite last_map, El. cbn. by rewrite Hmn.
Qed.

Lemma follow_gateway_step c x o n ns gs ts i j k tA tH tI :
  Forall attachment_ok gs → offer_for o n → remembers c ns gs → connected_to rn ts x →
  host_tables ts i j k (ad_at tA ns gs) (hid_at tH gs gs) (through tI gs) →
  ∃ c' x' ts', follow_gateway peer sizeof_string c x o = (c', x') ∧
    remembers c' ns (gs ++ [n]) ∧ myNS_DAG c' = myNS_DAG c ∧ same_rest c c' ∧ connected_to rn ts' x' ∧
    host_tables ts' i j k (ad_at tA ns (gs ++ [n])) (hid_at tH (gs ++ [n]) (gs ++ [n])) (through tI (gs ++ [n])).
Proof using Hqx Hqi Hdel Hsize Hrn.
  intros Hgs (Hn & _ & Hgw) [Hm Hg] Hx Ht. unfold follow_gateway. case_decide as Hne.
  - unfold gateway_routes. cbv zeta. rewrite Hg, Hgw.
    destruct (remove_gateway ts i j k _ _ _ x gs Ht Hx Hgs) as (ts1 & Hx1 & Ht1).
    { intros m El. unfold hid_at. rewrite rts_through. exists (gateway_route m.2). apply visited_last. by rewrite last_map, El. }
    destruct (set_defaults ts1 i j k _ _ _ n _ Ht1 Hx1 Hn) as ((ts2 & x2 & -> & Hx2 & Ht2) & _ & _). cbn [fst].
    destruct (set_defaults ts2 i j k _ _ _ n _ Ht2 Hx2 Hn) as (_ & _ & (ts3 & x3 & -> & Hx3 & Ht3)). cbn [fst].
    destruct (set_defaults ts3 i j k _ _ _ n _ Ht3 Hx3 Hn) as (_ & (ts4 & x4 & -> & Hx4 & Ht4) & _). cbn [fst].
    destruct (set_gateway ts4 i j k _ _ _ n _ Ht4 Hx4 Hn) as (ts5 & x5 & -> & Hx5 & Ht5). cbn [fst].
    destruct (set_defaults ts5 i j k _ _ _ n _ Ht5 Hx5 Hn) as (_ & (ts6 & x6 & -> & Hx6 & Ht6) & _). cbn [fst].
    eexists _, x6, ts6. split; [reflexivity|]. split; [by split; cbn [myAD myGWRHID]; [|rewrite last_snoc]|].
    split; [done|]. split; [by split_and!|].
    split; [exact Hx6|]. unfold ad_at. rewrite <- !through_next. unfold ad_at in Ht6.
    assert (hid_at tH (gs ++ [n]) (gs ++ [n]) = with_default (hid_at tH (gs ++ [n]) gs) (gateway_route n.2)) as ->
      by (unfold hid_at; by rewrite through_next).
    rewrite hid_at_next. exact Ht6.
  - assert (∃ m, last gs = Some m ∧ m.2 = n.2) as (m & El & Hmn).
    { pose proof Hn as (_ & _ & Hp & _). destruct (last gs) as [m|] eqn:El; [|destruct (xid_word_ok _ Hp) as [He _]; by rewrite Hg, Hgw in Hne].
      exists m. split; [done|]. apply same_name; [|done|congruence]. rewrite Forall_forall in Hgs. by apply Hgs, last_Some_elem_of. }
    eexists c, x, ts. split; [reflexivity|]. split; [split; [done|]; rewrite last_snoc, Hg, El; by rewrite Hmn|].
    split; [done|]. split; [by split_and!|]. split; [done|]. unfold ad_at, hid_at in *.
    rewrite !(through_same _ _ m n El Hmn). rewrite map_app. cbn [map]. rewrite visited_same; [done|]. rewrite last_map, El. cbn. by rewrite Hmn.
Qed.

(** Tables that can be listed with the fuel at hand, also after one more route. *)
Definition roomy (t : XIAXIDRouteTable) : Prop :=
  listable t ∧ Z.of_nat (S (size (_rts t))) < 10 ^ 6 ∧ (121 * S (S (size (_rts t))) <= fuel)%nat.

Lemma list_step ts i ty t x xs r gs : ty = lit "AD" ∨ ty = lit "HID" → NoDup ts.*1 →
  ts !! i = Some (table_name rn ty, through (with_rts t (visited (_rts t) xs r)) gs) → roomy t →
  (∀ y, y ∈ xs → printable y ∧ printable_route (r y)) → Forall attachment_ok gs → connected_to rn ts x →
  ∃ x', listRoutes peer chunk fuel x ty = Ok x' ∧ connected_to rn ts x'.
Proof using Hdel Horder Hrn.
  intros Hty Hnd Hi (Hl & Hb & Hf) Hxs Hgs Hx. set (u := through _ gs) in *.
  assert (size (_rts u) <= S (size (_rts t)))%nat as Hsz by (unfold u; rewrite rts_through; apply size_visited).
  destruct (get_routes_step qx qi order complaint other_write drops ll tcp Hdel chunk Horder rn ts i ty u x fuel) as (x' & Hrun & Hx');
    try done; try lia.
  - by destruct Hty as [-> | ->].
  - destruct Hty as [-> | ->]; by (apply (bool_decide_unpack (Forall (λ c, 32 < code c < 127 ∧ c ≠ "."%char) _)); vm_compute).
  - destruct Hty as [-> | ->]; vm_compute; lia.
  - apply listable_visited; [done|done|]. eapply Forall_impl; [exact Hgs|]. intros n. apply gateway_printable.
  - exists x'. split; [|exact Hx']. unfold listRoutes.
    assert (∃ z rs, getRoutes peer chunk fuel x ty = Ok (x', z, rs)) as (z & rs & ->) by (eexists _, _; exact Hrun). done.
Qed.

Lemma visited_ads ns y : Forall attachment_ok ns → y ∈ map fst ns → printable y ∧ printable_route local_route.
Proof using.
  intros Hns (n & -> & Hin)%list_elem_of_fmap. split; [|apply local_printable]. rewrite Forall_forall in Hns. by apply (Hns n).
Qed.
Lemma visited_gateways ns y : Forall attachment_ok ns → y ∈ map snd ns → printable y ∧ printable_route (gateway_route y).
Proof using.
  intros Hns (n & -> & Hin)%list_elem_of_fmap. rewrite Forall_forall in Hns. specialize (Hns n Hin).
  split; [apply Hns|]. by apply (gateway_printable n).
Qed.

(** The state after the networks [ns]. *)
Record in_network (c : XhcpClient) (x : XIARouter (connection * tables)) (ns : list attachment) (i j k : nat) (tA tH tI : XIAXIDRouteTable) : Prop := {
  in_known : Forall attachment_ok ns;
  in_client : remembers c ns ns;
  in_tables : ∃ ts, connected_to rn ts x ∧ host_tables ts i j k (ad_at tA ns ns) (hid_at tH ns ns) (through tI ns) }.

Lemma names_step c o l : ∃ c' l', follow_names serialize sendto fd c o l = Ok (Some (c', l')) ∧ myAD c' = myAD c ∧
  myGWRHID c' = myGWRHID c ∧ myNS_DAG c' = ns_dag_text o ∧ same_rest c c' ∧ posts l (ns_news (myNS_DAG c) o) l'.
Proof using.
  unfold follow_names, ns_news. case_decide as Hne; [|exists c, l; split_and!; try done; apply posts_nil].
  destruct (tell_run l (M_XUPDATENAMESERVERDAG (ns_dag_text o))) as (rc & l1 & H1 & Hp).
  change (tell serialize sendto fd (Ok (M_XUPDATENAMESERVERDAG (ns_dag_text o))))
    with (XupdateNameServerDAG serialize sendto fd (Some (ns_dag_text o))) in H1.
  rewrite (call_bind_some _ _ _ _ _ H1). eexists _, l1. split; [reflexivity|]. by split_and!.
Qed.

Lemma follow_step c x o n ns i j k tA tH tI l :
  roomy tA → roomy tH → in_network c x ns i j k tA tH tI → offer_for o n →
  ∃ c' x' l', follow_offer serialize sendto peer chunk sizeof_string fuel fd c x o l = Ok (Some ((c', x'), l')) ∧
    in_network c' x' (ns ++ [n]) i j k tA tH tI ∧ myNS_DAG c' = ns_dag_text o ∧ same_rest c c' ∧
    posts l (ad_news (myAD c) o ++ ns_news (myNS_DAG c) o) l'.
Proof using Hqx Hqi Hdel Hsize Hrn Horder.
  intros HA HH [Hns Hc (ts & Hx & Ht)] Ho. assert (Forall attachment_ok (ns ++ [n])) as Hns' by (apply Forall_app_2; [done|constructor; [apply Ho|constructor]]).
  unfold follow_offer.
  destruct (follow_ad_step c x o n ns ns ts i j k _ _ _ l Hns Ho Hc Hx Ht) as (c1 & x1 & l1 & ts1 & H1 & Hc1 & Hn1 & Hr1 & Hp1 & Hx1 & Ht1).
  rewrite (call_bind_some _ _ _ _ _ H1). cbn [fst snd].
  destruct (follow_gateway_step c1 x1 o n _ ns ts1 i j k _ _ _ Hns Ho Hc1 Hx1 Ht1) as (c2 & x2 & ts2 & H2 & Hc2 & Hn2 & Hr2 & Hx2 & Ht2).
  rewrite H2. cbn [fst snd].
  destruct (names_step c2 o l1) as (c3 & l3 & H3 & Ha3 & Hg3 & Hn3 & Hr3 & Hp3). rewrite (call_bind_some _ _ _ _ _ H3).
  assert (∃ x3, (if bool_decide (myAD c ≠ self_dag o ∨ myGWRHID c ≠ gw_dag o)
    then x ← undefined (listRoutes peer chunk fuel x2 (lit "AD")); undefined (listRoutes peer chunk fuel x (lit "HID")) else mret x2) l3 =
    Ok (Some (x3, l3)) ∧ connected_to rn ts2 x3) as (x3 & H4 & Hx3).
  { case_bool_decide; [|by exists x2]. pose proof Ht2 as [Hnd HtA HtH _].
    destruct (list_step ts2 i (lit "AD") tA x2 _ _ _ ltac:(by left) Hnd HtA HA (λ y, visited_ads _ y Hns') Hns' Hx2) as (x3 & Hl3 & Hx3).
    destruct (list_step ts2 j (lit "HID") tH x3 _ _ _ ltac:(by right) Hnd HtH HH (λ y, visited_gateways _ y Hns') Hns' Hx3) as (x4 & Hl4 & Hx4).
    exists x4. split; [|done]. unfold undefined, mbind, call_bind. by rewrite Hl3, Hl4. }
  rewrite (call_bind_some _ _ _ _ _ H4). exists c3, x3, l3. split; [reflexivity|]. split_and!.
  - split; [done| |by exists ts2]. destruct Hc2 as [Ha2 Hg2]. split; congruence.
  - done.
  - destruct Hr1 as (? & ? & ?), Hr2 as (? & ? & ?), Hr3 as (? & ? & ?). split_and!; congruence.
  - eapply posts_app; [exact Hp1|]. by rewrite <- Hn1, <- Hn2.
Qed.

(** *** Many beacons *)

Fixpoint follow_offers (c : XhcpClient) (x : XIARouter (connection * tables)) (os : list offer) :
    call (XhcpClient * XIARouter (connection * tables)) :=
  match os with
  | [] => mret (c, x)
  | o :: os => r ← follow_offer serialize sendto peer chunk sizeof_string fuel fd c x o; follow_offers r.1 r.2 os
  end.

(** What the transport element is told: an AD and a name server when they are
    not those of before. *)
Fixpoint told (ad ns : str) (os : list offer) : list api_msg :=
  match os with
  | [] => []
  | o :: os => ad_news ad o ++ ns_news ns o ++ told (self_dag o) (ns_dag_text o) os
  end.

Lemma follow_all os : ∀ c x ns n l i j k tA tH tI, roomy tA → roomy tH → in_network c x ns i j k tA tH tI → Forall2 offer_for os n →
  ∃ c' x' l', follow_offers c x os l = Ok (Some ((c', x'), l')) ∧ in_network c' x' (ns ++ n) i j k tA tH tI ∧
    posts l (told (myAD c) (myNS_DAG c) os) l'.
Proof using Hqx Hqi Hdel Hsize Hrn Horder.
  induction os as [|o os IH]; intros c x ns n l i j k tA tH tI HA HH Hin Ho.
  { apply Forall2_nil_inv_l in Ho as ->. exists c, x, l. rewrite app_nil_r. split_and!; try done. apply posts_nil. }
  apply Forall2_cons_inv_l in Ho as (n1 & n2 & Ho1 & Ho2 & ->). cbn [follow_offers told].
  destruct (follow_step c x o n1 ns i j k tA tH tI l HA HH Hin Ho1) as (c1 & x1 & l1 & H1 & Hin1 & Hns1 & _ & Hp1).
  rewrite (call_bind_some _ _ _ _ _ H1). cbn [fst snd].
  destruct (IH c1 x1 (ns ++ [n1]) n2 l1 i j k tA tH tI HA HH Hin1 Ho2) as (c2 & x2 & l2 & H2 & Hin2 & Hp2).
  exists c2, x2, l2. split; [done|]. split; [by rewrite <- app_assoc in Hin2|].
  assert (myAD c1 = self_dag o) as <-.
  { destruct (in_client _ _ _ _ _ _ _ _ _ Hin1) as [-> _]. rewrite last_snoc. symmetry. apply Ho1. }
  rewrite <- Hns1, app_assoc. by eapply posts_app.
Qed.

Lemma fresh_in_network hid x ts i j k tA tH tI : connected_to rn ts x → host_tables ts i j k tA tH tI →
  in_network (new_client hid) x [] i j k tA tH tI.
Proof using. intros Hx Ht. split; [done|done|]. exists ts. split; [done|]. by destruct tA, tH. Qed.

(** C17: A host that moves through networks has, after every beacon, the routes
    of the network of that beacon and no others: its AD is local, the gateway
    and the default routes lead to the gateway, the ADs and gateways of all
    networks before are removed, and every other route is as it was.  The
    transport element is told of every change of the AD and of the name server,
    in order. *)
Theorem host_follows_networks hid x ts i j k tA tH tI os o ns n l s :
  roomy tA → roomy tH → connected_to rn ts x → host_tables ts i j k tA tH tI → Forall2 offer_for os ns → offer_for o n →
  (∀ m, serialize m ≠ []) → (∀ b, sendto fd b = Z.of_nat (length b)) →
  sockets l !! fd = Some (Some s) → m_transportType s ≠ XSOCK_INVALID →
  ∃ c' x' l' ts' tA' tH' tI', follow_offers (new_client hid) x (os ++ [o]) l = Ok (Some ((c', x'), l')) ∧
    connected_to rn ts' x' ∧ host_tables ts' i j k tA' tH' tI' ∧ settled tA tH tI tA' tH' tI' ns n ∧
    outbox l' = outbox l ++ map (pair fd) (told [] [] (os ++ [o])).
Proof using Hqx Hqi Hdel Hsize Hrn Horder.
  intros HA HH Hx Ht Hos Ho Hser Hsend Hs Hty.
  destruct (follow_all (os ++ [o]) (new_client hid) x [] (ns ++ [n]) l i j k tA tH tI HA HH (fresh_in_network _ _ _ _ _ _ _ _ _ Hx Ht))
    as (c' & x' & l' & Hrun & [_ _ (ts' & Hx' & Ht')] & Hp); [by apply Forall2_app; [|constructor]|].
  eexists c', x', l', ts', _, _, _. split; [exact Hrun|]. split; [exact Hx'|]. split; [exact Ht'|]. split; [apply settled_at|].
  by apply (Hp Hser Hsend s Hs Hty).
Qed.

(** *** From the server to the tables *)

Context (parse : list Z → reply) (inet_addr : str → Z) (regfd : Z) (stack : sockaddr_x).

Lemma xid_word_c x : printable x → c_chars (xid_word x) = xid_word x.
Proof using.
  intros Hx. destruct (xid_word_ok x Hx) as [_ Hw]. induction Hw as [|c w [Hc _] _ IH]; [done|].
  cbn [c_chars]. rewrite decide_False by lia. by rewrite IH.
Qed.

(** C28: The first beacon that reaches a host configures it: when the packet of a
    server waits at the socket of the client, one pass of its loop sets the
    routes through the gateway of the server, and tells the transport element
    the AD, the 4ID and the name server. *)
Theorem beacon_configures_host fullname gwdag hid x ts i j k tA tH tI seq n ip ns pkt l s d from g a rest :
  roomy tA → roomy tH → connected_to rn ts x → host_tables ts i j k tA tH tI → attachment_ok n →
  make_beacon seq (xid_word n.1) (xid_word n.2) ip ns = Ok pkt → c_chars ip ≠ [] → c_chars ns ≠ [] →
  (∀ m, serialize m ≠ []) → (∀ b, sendto fd b = Z.of_nat (length b)) →
  sockets l !! fd = Some (Some s) → state_ok s → stash s = [] → m_transportType s = XSOCK_DGRAM →
  default [] (inbox l !! fd) = Some d :: rest → Z.of_nat (length d) < MAXBUFLEN → parse d = R_XRECV from pkt →
  Graph_of_string inet_addr 0 from = Ok g → fill_sockaddr g.1 stack = Ok a →
  ∃ c' x' l' ts' tA' tH' tI',
    client_round serialize parse sendto inet_addr regfd stack peer chunk sizeof_string fuel fd fullname gwdag (new_client hid) x l =
      Ok (Some ((c', x'), l')) ∧
    connected_to rn ts' x' ∧ host_tables ts' i j k tA' tH' tI' ∧ settled tA tH tI tA' tH' tI' [] n ∧
    outbox l' = outbox l ++ [(fd, M_XCHANGEAD (xid_word n.1) (c_chars ip)); (fd, M_XUPDATENAMESERVERDAG (c_chars ns))].
Proof using Hqx Hqi Hdel Hsize Hrn Horder.
  intros HA HH Hx Ht Hn Hmk Hip Hns Hser Hsend Hs Hok Hst Hty Hd Hdl Hp Hg Ha.
  destruct (beacon_roundtrip _ _ _ _ _ _ Hmk) as [Hlen Hread]. pose proof Hn as (Hp1 & _ & Hp2 & _).
  rewrite !xid_word_c in Hread by done. set (o := mkOffer _ _ _ _) in Hread.
  destruct (receive_beacon parse inet_addr stack l fd s d from pkt g a rest) as (l1 & s1 & H1 & Hs1 & Ht1 & Ho1); [done..|].
  destruct (follow_step (new_client hid) x o n [] i j k tA tH tI l1 HA HH (fresh_in_network _ _ _ _ _ _ _ _ _ Hx Ht))
    as (c2 & x2 & l2 & H2 & [_ _ (ts2 & Hx2 & Ht2)] & _ & (Hcount & _ & _) & Hpost); [done|].
  destruct (Hpost Hser Hsend s1 Hs1) as [Hout _]; [by rewrite Ht1|].
  eexists _, x2, l2, ts2, _, _, _. split; [|split; [exact Hx2|split; [exact Ht2|split; [apply (settled_at tA tH tI [] n)|]]]].
  - unfold client_round. rewrite (call_bind_some _ _ _ _ _ H1). cbn [fst snd]. rewrite decide_False by lia.
    assert (undefined (read_beacon (cleared pkt)) l1 = Ok (Some (o, l1))) as Hu by (unfold undefined; by rewrite Hread).
    rewrite (call_bind_some _ _ _ _ _ Hu). rewrite decide_False.
    2: { destruct (xid_word_ok _ Hp1) as [? _], (xid_word_ok _ Hp2) as [? _]. unfold incomplete, o. cbn. tauto. }
    rewrite (call_bind_some (undefined (already_advertised (adv (new_client hid)) o)) _ l1 false l1 eq_refl).
    rewrite (call_bind_some _ _ _ _ _ H2). cbn [fst snd]. rewrite Hcount. cbn [new_client beacon_reception_count].
    change (u32 (0 + 1)) with 1. unfold answer_beacon, register_host. cbn [with_count beacon_reception_count update_ns].
    rewrite decide_False by done. rewrite (call_bind_some _ _ _ _ _ (eq_refl : (mret () : call ()) _ = _)).
    change (bool_decide (XHCP_CLIENT_NAME_REGISTER_WAIT ≤ 1)) with false. rewrite andb_false_r. reflexivity.
  - rewrite Hout, Ho1. unfold ad_news, ns_news, o. cbn [new_client myAD myNS_DAG self_dag ns_dag_text gw_4id].
    destruct (xid_word_ok _ Hp1) as [? _]. by rewrite !decide_True by congruence.
Qed.
End host.

(** ** Instances *)

Abbreviation host_peer := (control_peer (router := tables_router (λ _, None) (λ _, None) map_to_list (λ _ _, [])
  (λ t _ _, (t, 0)) (λ _, 0)) false (λ c r _ _, (c, r, 0)) (λ s, [(Bytes s, 100%nat)])).
Definition three_tables : tables :=
  [(table_name (lit "host0") (lit "AD"), empty_table); (table_name (lit "host0") (lit "HID"), empty_table);
   (table_name (lit "host0") (lit "IP"), empty_table)].
Definition host_object : XIARouter (connection * tables) :=
  mkXIARouter true (lit "host0") (mkClient (mkConn [] 0 [] 0 false false, three_tables) [] true) no_err.

Definition home : attachment := (ad_a, hid_b).
Definition away : attachment := (ad_b, xid_of CLICK_XIA_XID_TYPE_HID 4).
Definition demo_offer (n : attachment) : offer := mkOffer (xid_word n.1) (xid_word n.2) (lit "IP:1") (lit "RE SID:1").

Lemma demo_offers : offer_for (demo_offer home) home ∧ offer_for (demo_offer away) away.
Proof.
  split; (split; [|done]); (split; [|split; [done|split; [|done]]]); apply xid_of_printable; (left || (right; left) || (unfold is_byte; lia)).
Qed.

Lemma host0_name : router_name (lit "host0").
Proof.
  split; [done|]. split; [apply (bool_decide_unpack (Forall (λ c, 32 < code c < 127 ∧ c ≠ "."%char) _)); by vm_compute|vm_compute; lia].
Qed.

Lemma three_tables_ok : host_tables (lit "host0") three_tables 0 1 2 empty_table empty_table empty_table.
Proof. split; [by apply (bool_decide_unpack _); vm_compute|done..]. Qed.

Lemma empty_roomy : roomy 300 empty_table.
Proof. split; [split; [by split_and!|done]|]. split; [by vm_compute|vm_compute; lia]. Qed.

Lemma host_connected : connected_to (lit "host0") three_tables host_object.
Proof. eexists _, _. split; [reflexivity|]. by split_and!. Qed.

Lemma host_tcp : delivers (λ s, [(Bytes s, 100%nat)]).
Proof. intros s. split; [by repeat constructor|cbn; apply app_nil_r]. Qed.

Lemma host_follows_networks_witness : ∃ c' x' l' ts' tA' tH' tI',
  follow_offers (λ _, None) (λ _, None) map_to_list (λ _ _, []) (λ t _ _, (t, 0)) (λ _, 0) (λ c r _ _, (c, r, 0))
    (λ s, [(Bytes s, 100%nat)]) 32 (λ _, 3%nat) 300 demo_serialize demo_sendto 5
    (new_client None) host_object [demo_offer home; demo_offer away] (demo_lib XSOCK_DGRAM []) = Ok (Some ((c', x'), l')) ∧
  connected_to (lit "host0") ts' x' ∧ host_tables (lit "host0") ts' 0 1 2 tA' tH' tI' ∧
  _rts tA' !! ad_a = None ∧ _rts tA' !! ad_b = Some local_route ∧ _rtdata tA' = gateway_route away.2.
Proof.
  destruct demo_offers as [Ho1 Ho2].
  destruct (host_follows_networks (λ _, None) (λ _, None) ltac:(done) ltac:(done) map_to_list ltac:(done) (λ _ _, []) (λ t _ _, (t, 0)) (λ _, 0)
    (λ c r _ _, (c, r, 0)) (λ s, [(Bytes s, 100%nat)]) host_tcp 32 ltac:(lia) (λ _, 3%nat) 300 (lit "host0") host0_name demo_serialize demo_sendto 5
    None host_object three_tables 0 1 2 empty_table empty_table empty_table [demo_offer home] (demo_offer away) [home] away
    (demo_lib XSOCK_DGRAM []) (mkSS XSOCK_DGRAM 1 0 0 None 0 None))
    as (c' & x' & l' & ts' & tA' & tH' & tI' & Hrun & Hx & Ht & Hst & _).
  - exact empty_roomy.
  - exact empty_roomy.
  - exact host_connected.
  - exact three_tables_ok.
  - constructor; [exact Ho1|constructor].
  - exact Ho2.
  - done.
  - done.
  - apply demo_lib_state.
  - done.
  - exists c', x', l', ts', tA', tH', tI'. split; [exact Hrun|]. split; [exact Hx|]. split; [exact Ht|].
    destruct Hst as [HA _ _ (Hd & _ & _)]. split; [rewrite (HA ad_a); reflexivity|]. split; [rewrite (HA ad_b); reflexivity|exact Hd].
Defined.

Definition demo_stack : sockaddr_x := mkSockaddr 0 0 (replicate 20 (mkNode_t 0 [] [])).
Definition demo_beacon : list Z :=
  match make_beacon 0 (xid_word home.1) (xid_word home.2) (lit "IP:1") (lit "RE SID:1") with Ok b => b | Ub _ => [] end.
Definition demo_from : str := lit "RE AD:1000000000000000000000000000000000000000 HID:0000000000000000000000000000000000000000".

Definition demo_from_nodes : Graph * nat := match Graph_of_string (λ _, 0) 0 demo_from with Ok g => g | Ub _ => (Graph_empty, 0%nat) end.
Definition demo_from_address : sockaddr_x := match fill_sockaddr demo_from_nodes.1 demo_stack with Ok a => a | Ub _ => demo_stack end.

Lemma demo_from_graph : Graph_of_string (λ _, 0) 0 demo_from = Ok demo_from_nodes ∧
  fill_sockaddr demo_from_nodes.1 demo_stack = Ok demo_from_address.
Proof. split; vm_compute; reflexivity. Qed.

Lemma beacon_configures_host_witness : ∃ c' x' l' ts' tA' tH' tI',
  client_round demo_serialize demo_parse demo_sendto (λ _, 0) 6 demo_stack host_peer (λ _, 3%nat) 32 300 5 (lit "host0.xia") demo_stack
    (new_client None) host_object (demo_lib XSOCK_DGRAM [(demo_from, demo_beacon)]) = Ok (Some ((c', x'), l')) ∧
  connected_to (lit "host0") ts' x' ∧ host_tables (lit "host0") ts' 0 1 2 tA' tH' tI' ∧
  _rts tA' !! ad_a = Some local_route ∧ _rtdata tA' = gateway_route hid_b ∧
  outbox l' = [(5, M_XCHANGEAD (xid_word ad_a) (lit "IP:1")); (5, M_XUPDATENAMESERVERDAG (lit "RE SID:1"))].
Proof.
  destruct demo_offers as [[Hn _] _]. destruct demo_from_graph as [Hg Ha].
  destruct (demo_lib_state XSOCK_DGRAM [(demo_from, demo_beacon)]) as [Hs Hi].
  destruct (beacon_configures_host (λ _, None) (λ _, None) ltac:(done) ltac:(done) map_to_list ltac:(done) (λ _ _, []) (λ t _ _, (t, 0)) (λ _, 0)
    (λ c r _ _, (c, r, 0)) (λ s, [(Bytes s, 100%nat)]) host_tcp 32 ltac:(lia) (λ _, 3%nat) 300 (lit "host0") host0_name demo_serialize demo_sendto 5
    demo_parse (λ _, 0) 6 demo_stack (lit "host0.xia") demo_stack None host_object three_tables 0 1 2 empty_table empty_table empty_table
    0 home (lit "IP:1") (lit "RE SID:1") demo_beacon (demo_lib XSOCK_DGRAM [(demo_from, demo_beacon)]) (mkSS XSOCK_DGRAM 1 0 0 None 0 None)
    (demo_encode demo_from demo_beacon) demo_from demo_from_nodes demo_from_address [])
    as (c' & x' & l' & ts' & tA' & tH' & tI' & Hrun & Hx & Ht & Hst & Ho).
  - exact empty_roomy.
  - exact empty_roomy.
  - exact host_connected.
  - exact three_tables_ok.
  - exact Hn.
  - vm_compute. reflexivity.
  - done.
  - done.
  - done.
  - done.
  - exact Hs.
  - split; [done|]. split; [intros H; by destruct H|done].
  - done.
  - done.
  - exact Hi.
  - vm_compute. reflexivity.
  - apply demo_parse_encode.
  - exact Hg.
  - exact Ha.
  - exists c', x', l', ts', tA', tH', tI'. split; [exact Hrun|]. split; [exact Hx|]. split; [exact Ht|].
    destruct Hst as [HA _ _ (Hd & _ & _)]. split; [rewrite (HA ad_a); reflexivity|]. split; [exact Hd|exact Ho].
Defined.
