(* ===== verification/AddrInfo.v ===== *)
(** * AddrInfo: the look-up of addresses (api/xsocket/Xgetaddrinfo.c)

    [Xgetaddrinfo] makes the address of a host and a service: of this host, of a
    host that is named, or of a host whose address is given.  Memory is not
    exhausted.  An array that is read before it is written is a [None]. *)

From Stdlib Require Import ZArith Lia Ascii String.
From stdpp Require Import base gmap list.
From S2P Require Import Prelude Text StdMap DagNode DagAddr RouteTable XTransport SocketLib SocketCalls NameService Xhcp.
Local Open Scope Z_scope.

(** The values of the C library (netdb.h). *)
Definition AF_UNSPEC : Z := 0.
Definition EAI_BADFLAGS : Z := -1.
Definition EAI_NONAME : Z := -2.
Definition EAI_FAMILY : Z := -6.
Definition EAI_SOCKTYPE : Z := -7.
Definition EAI_SERVICE : Z := -8.
Definition EAI_SYSTEM : Z := -11.

(** The bits of the flags; those for IPv4 and for international names are
    refused. *)
Definition AI_PASSIVE : Z := 0.
Definition AI_CANONNAME : Z := 1.
Definition XAI_DAGHOST : Z := 2.
Definition AI_V4MAPPED : Z := 3.
Definition AI_ALL : Z := 4.
Definition AI_ADDRCONFIG : Z := 5.
Definition AI_IDN_FLAGS : list Z := [6; 7; 8; 9].
Definition XAI_XIDSERV : Z := 10.
Definition XAI_FALLBACK : Z := 12.

Definition XID_TEXT_LEN : Z := 64.

Record addrinfo := mkAddrinfo { ai_family : Z; ai_socktype : Z; ai_protocol : Z; ai_flags : Z; ai_addr : option sockaddr_x }.

(** What the caller asks for: the address of this host, or of a host whose name
    is an address, with the wish for a fallback. *)
Record wish := mkWish { w_local : bool; w_havename : bool; w_fallback : bool; w_socktype : Z; w_protocol : Z }.

Definition check_hints (name service : option str) (hints : option addrinfo) : Z + wish :=
  match hints with
  | None => inr (mkWish (bool_decide (name = None)) false false 0 0)
  | Some h =>
      let flag b := Z.testbit (ai_flags h) b in
      if decide (ai_family h ≠ AF_XIA ∧ ai_family h ≠ AF_UNSPEC) then inl EAI_FAMILY
      else if decide (ai_protocol h ≠ 0) then inl EAI_SOCKTYPE
      else if decide (ai_socktype h ∉ [0; XSOCK_STREAM; XSOCK_DGRAM; XSOCK_CHUNK]) then inl EAI_SOCKTYPE
      else if flag AI_CANONNAME && bool_decide (name = None) then inl EAI_BADFLAGS
      else if flag XAI_XIDSERV && bool_decide (service = None) then inl EAI_BADFLAGS
      else if flag XAI_XIDSERV && negb (checkXid (default [] service) None) then inl EAI_SERVICE
      else if flag XAI_DAGHOST && bool_decide (name = None) then inl EAI_BADFLAGS
      else if flag AI_V4MAPPED || flag AI_ADDRCONFIG || flag AI_ALL || existsb flag AI_IDN_FLAGS then inl EAI_BADFLAGS
      else inr (mkWish (bool_decide (name = None)) (flag XAI_DAGHOST) (flag XAI_FALLBACK) (ai_socktype h) (ai_protocol h))
  end.

(** The type and the name of a service; without a colon the arrays are not
    written. *)
Definition split_service (service : str) : option (str * str) :=
  match list_find (λ c, c = ":"%char) service with
  | Some (i, _) => Some (take (Nat.min 20 i) service, take 40 (drop (S i) service))
  | None => None
  end.

(** [strncasecmp] with a text in lower case. *)
Definition lower (c : ascii) : ascii := if decide (65 ≤ code c ≤ 90) then chr (code c + 32) else c.

(** Whether the 4ID of the host is one that others can use. *)
Definition have4id (fid : str) : bool :=
  checkXid fid (Some (lit "IP:")) &&
  let ip := drop (length fid - 8) fid in
  bool_decide (ip ≠ lit "00000000") && bool_decide (map lower ip ≠ lit "0100007f").

Section info.
Variable serialize : api_msg → list Z.
Variable parse : list Z → reply.
Variable sendto : Z → list Z → Z.
Variable inet_addr : str → Z.
(** The hosts file, the socket the kernel returns, and what is on the stack. *)
Variable hosts : option (list Z).
Variable sockfd : Z.
Variable stack : sockaddr_x.

(** [Graph gf = Node(); g = gf + g]. *)
Definition with_fallback (fallback : bool) (g : Graph) : res Graph :=
  if fallback then Graph_merge (Graph_of_node dummy_source) g else Ok g.

(** [g * Node(stype, sname)]. *)
Definition with_service (service : option str) (alloc : nat) (g : Graph) : res Graph :=
  match service with
  | None => Ok g
  | Some s =>
      ts ← init (split_service s);
      Graph_append g (Graph_of_node (Node_of_strings inet_addr alloc ts.1 ts.2).1)
  end.

Definition local_graph (ad hid fid : str) : res Graph :=
  ns ← nodes_of inet_addr 0 [fid; ad; hid];
  n_ip ← vget ns 0; n_ad ← vget ns 1; n_hid ← vget ns 2;
  g ← chain [n_ad; n_hid];
  if have4id fid then via ← chain [n_ip; n_ad; n_hid]; Graph_merge g via else Ok g.

(** The address, or an error. *)
Definition find_address (w : wish) (name service : option str) : call (Z + sockaddr_x) :=
  if w_local w then
    sock ← Xsocket serialize parse sendto AF_XIA XSOCK_DGRAM 0 sockfd;
    if decide (sock < 0) then mret (inl EAI_SYSTEM)
    else
      r ← XreadLocalHostAddr serialize parse sendto sock true XID_TEXT_LEN XID_TEXT_LEN XID_TEXT_LEN;
      _ ← Xclose serialize parse sendto sock;
      match r.2 with
      | None => mret (inl EAI_SYSTEM)
      | Some (ad, hid, fid) =>
          g ← undefined (local_graph ad hid fid);
          g ← undefined (with_fallback (w_fallback w) g);
          g ← undefined (with_service service 3 g);
          sa ← undefined (fill_sockaddr g stack); mret (inr sa)
      end
  else if negb (w_havename w) then
    r ← XgetDAGbyName serialize parse sendto inet_addr hosts sockfd stack name (Some stack) (Some SIZEOF_SOCKADDR_X);
    if decide (r.1.1 < 0) then mret (inl EAI_NONAME)
    else
      sa ← undefined (init r.1.2);
      match service with
      | None => mret (inr sa)
      | Some _ =>
          g ← undefined (from_sockaddr Graph_empty 0 sa);
          h ← undefined (with_fallback (w_fallback w) g.1);
          h ← undefined (with_service service g.2 h);
          sa ← undefined (fill_sockaddr h sa); mret (inr sa)
      end
  else
    g ← undefined (Graph_of_string inet_addr 0 (default [] name));
    h ← undefined (with_fallback (w_fallback w) g.1);
    h ← undefined (with_service service g.2 h);
    sa ← undefined (fill_sockaddr h stack); mret (inr sa).

Definition Xgetaddrinfo (name service : option str) (hints : option addrinfo) : call (Z * option addrinfo) :=
  match check_hints name service hints with
  | inl e => mret (e, None)
  | inr w =>
      r ← find_address w name service;
      match r with
      | inl e => mret (e, None)
      | inr sa => mret (0, Some (mkAddrinfo AF_XIA (w_socktype w) (w_protocol w) 0 (Some sa)))
      end
  end.
End info.
