(* ===== verification/AddrInfoSpec.v ===== *)
(** * AddrInfoSpec: the address of a service on a host

    [Xgetaddrinfo] returns the address of the host with the service behind it:
    every node of the host is kept, and the service follows its final intent. *)

From Stdlib Require Import ZArith Lia Ascii String.
From stdpp Require Import base gmap sets list.
From S2P Require Import Prelude Text StdMap DagNode DagAddr DagWf DagView DagCodec RouteTable XTransport SocketLib SocketLibSpec SocketCalls NameService Xhcp AddrInfo.
Local Open Scope Z_scope.

(** ** A node behind an address *)

Lemma append_node g s t n : address g s t → n_type n ≠ XID_TYPE_DUMMY_SOURCE → (order g < 256)%nat →
  ∃ h, Graph_append g (Graph_of_node n) = Ok h ∧ nodes_ h = nodes_ g ++ [n] ∧
    (∀ a b, edge h a b ↔ edge g a b ∨ a = t ∧ b = order g) ∧ address h s (order g).
Proof.
  intros Ha Hn Hsmall. pose proof (ad_wf _ _ _ Ha) as Hwf.
  assert (Hno : ∀ i j, edge (Graph_of_node n) i j → ¬ dummy (Graph_of_node n) j) by (intros i j Hij; by apply edge_graph_of_node in Hij).
  destruct (append_ok g (Graph_of_node n) Hwf (wf_graph_of_node n) Hno) as (h & Hh & Hwfh & Hnodes & He).
  assert (merged true g (Graph_of_node n) = (push_node g n, [Some (order g)])) as Hm.
  { change (merged true g (Graph_of_node n)) with (merge_node true (g, []) n). unfold merge_node.
    rewrite bool_decide_false by done. cbn [andb fst snd app]. unfold add_node. rewrite decide_True; [done|]. by rewrite (wfg_out _ Hwf). }
  rewrite Hm in Hnodes, He. cbn [fst snd push_node nodes_] in *.
  assert (Hlast : ∀ b, (∃ s, entry (Graph_of_node n) s ∧ moved g (Graph_of_node n) s b) ↔ b = order g).
  { unfold moved. rewrite Hm. cbn [snd]. intros b. split.
    - intros ([|x] & _ & Hx); [by injection Hx as ->|by destruct x].
    - intros ->. exists 0%nat. split; [|done]. exists 0%nat. split.
      + split; [change (0 < 1)%nat; lia|]. intros j Hj. by apply edge_graph_of_node in Hj.
      + right. split; [|done]. by intros (m & [= <-] & Hty). }
  assert (He' : ∀ a b, edge h a b ↔ edge g a b ∨ a = t ∧ b = order g).
  { intros a b. rewrite He, Hlast. split.
    - intros [H|[(i & j & Hij & _)|[Hs Hb]]]; [by left|by apply edge_graph_of_node in Hij|right].
      split; [by apply (ad_sink _ _ _ Ha)|done].
    - intros [H|[-> ->]]; [by left|right; right]. split; [by apply (ad_sink _ _ _ Ha)|done]. }
  assert (Ho : order h = S (order g)) by (unfold order; rewrite Hnodes, length_app; cbn; lia).
  destruct (address_lt _ _ _ Ha) as [Hs Ht].
  exists h. split_and!; try done. split; [done| | |lia|lia].
  - intros x. split.
    + intros [Hx Hno']. assert (x < order g)%nat as Hlt.
      { destruct (decide (x = order g)) as [->|]; [|lia]. exfalso. apply (Hno' t), He'. by right. }
      apply (ad_source _ _ _ Ha). split; [done|]. intros j Hj. apply (Hno' j), He'. by left.
    + intros ->. destruct (proj2 (ad_source _ _ _ Ha s) eq_refl) as [_ Hsrc]. split; [lia|].
      intros j [Hj|[_ ->]]%He'; [by apply (Hsrc j)|lia].
  - intros x. split.
    + intros [Hx Hno']. destruct (decide (x = order g)) as [->|Hne]; [done|]. exfalso.
      assert (sink g x) as Hsink%(ad_sink _ _ _ Ha).
      { split; [lia|]. intros j Hj. apply (Hno' j), He'. by left. }
      apply (Hno' (order g)), He'. by right.
    + intros ->. split; [lia|]. intros j [Hj|[Heq _]]%He'; [|lia]. destruct (edge_lt g _ _ Hwf Hj). lia.
Qed.

Lemma length_construct inet_addr ty id : length (construct_from_strings inet_addr ty id).2 = ID_LEN.
Proof. unfold construct_from_strings. cbn [snd]. repeat case_decide; [done|by rewrite length_replicate|by rewrite length_fmap, length_seq]. Qed.

(** The bounds of a socket address, with room for the service. *)
Record fits_with_service (g : Graph) : Prop := {
  fs_order : (order g <= NODES_MAX)%nat;
  fs_edges i l : out_edges_ g !! i = Some l → (length l <= EDGES_MAX)%nat;
  fs_ids n : n ∈ nodes_ g → length (n_id n) = ID_LEN }.

Lemma append_service g s t n st : address g s t → fits_with_service g → n_type n ≠ XID_TYPE_DUMMY_SOURCE → length (n_id n) = ID_LEN →
  length (s_addr st) = NODES_MAX →
  ∃ h sa h' v, Graph_append g (Graph_of_node n) = Ok h ∧ nodes_ h = nodes_ g ++ [n] ∧
    (∀ a b, edge h a b ↔ edge g a b ∨ a = t ∧ b = order g) ∧ address h s (order g) ∧ fill_sockaddr h st = Ok sa ∧
    from_sockaddr Graph_empty 0 sa = Ok (h', order g) ∧ wf_graph h' ∧ dag_view h = Ok v ∧ dag_view h' = Ok (addressed v) ∧ (from_dummy h s → addressed v = v).
Proof.
  intros Ha [Ho Hdeg Hids] Hty Hid Hst. unfold NODES_MAX in *. destruct (append_node g s t n Ha Hty ltac:(lia)) as (h & Hh & Hn & He & Hah).
  assert (Horder : order h = S (order g)) by (unfold order; rewrite Hn, length_app; cbn; lia).
  destruct (sockaddr_reads_back h s (order g) st 0 Hah) as (sa & h' & v & Hfill & Hfrom & Hwf & Hv & Hv' & Hsame).
  - rewrite Horder. unfold NODES_MAX. lia.
  - intros i l Hl. pose proof (ad_wf _ _ _ Hah) as Hwf. pose proof (wfg_nodup_out _ Hwf i l Hl) as Hnd.
    destruct (decide (i = t)) as [->|Hne].
    + assert (length l <= length [order g])%nat; [|unfold EDGES_MAX; cbn in *; lia].
      apply submseteq_length, NoDup_submseteq; [done|]. intros j Hj. apply list_elem_of_singleton.
      destruct (proj1 (He t j)) as [Hg|[_ ->]]; [by exists l| |done].
      destruct (proj2 (ad_sink _ _ _ Ha t) eq_refl) as [_ Hsk]. by apply Hsk in Hg.
    + destruct (out_edges_ g !! i) as [k|] eqn:Ek.
      * transitivity (length k); [|by eapply Hdeg]. apply submseteq_length, NoDup_submseteq; [done|]. intros j Hj.
        destruct (proj1 (He i j)) as [(k' & Hk' & Hj')|[? _]]; [by exists l|congruence|done].
      * destruct l as [|j l]; [cbn; lia|]. exfalso. destruct (proj1 (He i j)) as [(k' & Hk' & _)|[? _]]; [|congruence|done].
        exists (j :: l). split; [done|by left].
  - intros m. rewrite Hn, elem_of_app, list_elem_of_singleton. intros [Hm|Hm]; [by apply Hids|by rewrite Hm].
  - done.
  - rewrite Horder, Nat.sub_1_r in Hfrom. cbn [Nat.pred Nat.add] in Hfrom. exists h, sa, h', v. by split_and!.
Qed.

(** ** The address that is returned *)

(** A host that is named is not this host. *)
Lemma wish_remote name service hints w : check_hints (Some name) service hints = inr w → w_local w = false.
Proof.
  unfold check_hints. destruct hints as [h|]; [|by intros [= <-]]. repeat case_decide; try done.
  repeat (case_match; try done). by intros [= <-].
Qed.

Section found.
Context (serialize : api_msg → list Z) (parse : list Z → reply) (sendto : Z → list Z → Z) (inet_addr : str → Z).
Context (hosts : option (list Z)) (sockfd : Z) (stack : sockaddr_x) (Hstack : length (s_addr stack) = NODES_MAX).

(** The graph [g] of the host that is asked for: its text is given, or its name
    is looked up. *)
Inductive host_graph_is (w : wish) (name : str) (l : Lib) (g : Graph) (al : nat) : Lib → Prop :=
  | Given : w_havename w = true → Graph_of_string inet_addr 0 name = Ok (g, al) → host_graph_is w name l g al l
  | Named sa n l' : w_havename w = false →
      XgetDAGbyName serialize parse sendto inet_addr hosts sockfd stack (Some name) (Some stack) (Some SIZEOF_SOCKADDR_X) l =
        Ok (Some ((0, Some sa, n), l')) →
      length (s_addr sa) = NODES_MAX → from_sockaddr Graph_empty 0 sa = Ok (g, al) → host_graph_is w name l g al l'.

(** C35: the address of a service on a host, whose address is given or looked up
    by its name, is the address of the host with one node more: the service,
    which follows the final intent of the host and is the final intent of the
    result.  The socket address that is returned reads back as this graph
    with the dummy source for its source, which is this graph when the source of
    the host's address was the dummy source.  (No fallback is asked for, and the
    service is written with its type and a colon.) *)
Theorem service_address name service hints w l l' g al s t ty sid :
  check_hints (Some name) (Some service) hints = inr w → w_fallback w = false → host_graph_is w name l g al l' →
  address g s t → fits_with_service g → split_service service = Some (ty, sid) → type_of_string ty ≠ XID_TYPE_DUMMY_SOURCE →
  let n := (Node_of_strings inet_addr al ty sid).1 in
  ∃ sa h h' v, Xgetaddrinfo serialize parse sendto inet_addr hosts sockfd stack (Some name) (Some service) hints l =
      Ok (Some ((0, Some (mkAddrinfo AF_XIA (w_socktype w) (w_protocol w) 0 (Some sa))), l')) ∧
    nodes_ h = nodes_ g ++ [n] ∧ (∀ a b, edge h a b ↔ edge g a b ∨ a = t ∧ b = order g) ∧ address h s (order g) ∧
    from_sockaddr Graph_empty 0 sa = Ok (h', order g) ∧ wf_graph h' ∧ dag_view h = Ok v ∧ dag_view h' = Ok (addressed v) ∧ (from_dummy h s → addressed v = v).
Proof using Hstack.
  intros Hw Hf Hhost Ha Hfit Hsp Hty n.
  assert (Hns : ∀ st, length (s_addr st) = NODES_MAX → ∃ sa h h' v,
    (h ← with_fallback (w_fallback w) g; h ← with_service inet_addr (Some service) al h; fill_sockaddr h st) = Ok sa ∧
    nodes_ h = nodes_ g ++ [n] ∧ (∀ a b, edge h a b ↔ edge g a b ∨ a = t ∧ b = order g) ∧ address h s (order g) ∧
    from_sockaddr Graph_empty 0 sa = Ok (h', order g) ∧ wf_graph h' ∧ dag_view h = Ok v ∧ dag_view h' = Ok (addressed v) ∧ (from_dummy h s → addressed v = v)).
  { intros st Hst. destruct (append_service g s t n st Ha Hfit) as (h & sa & h' & v & Hh & Hn & He & Hah & Hfill & Hrest); [done| |done|].
    { unfold n, Node_of_strings. cbn [fst n_id]. apply length_construct. }
    exists sa, h, h', v. split_and!; try done; [|apply Hrest..]. rewrite Hf. cbn [with_fallback mbind res_bind].
    unfold with_service. rewrite Hsp. cbn [init mbind res_bind fst snd]. fold n. rewrite Hh. done. }
  assert (Hrun : ∀ st sa l1, (h ← with_fallback (w_fallback w) g; h ← with_service inet_addr (Some service) al h; fill_sockaddr h st) = Ok sa →
    (h ← undefined (with_fallback (w_fallback w) g); h ← undefined (with_service inet_addr (Some service) al h);
     sa ← undefined (fill_sockaddr h st); mret (inr sa : Z + sockaddr_x)) l1 = Ok (Some (inr sa, l1))).
  { intros st sa l1 H. apply bind_Ok in H as (h1 & H1 & H). apply bind_Ok in H as (h2 & H2 & H3).
    unfold undefined, mbind, call_bind. by rewrite H1, H2, H3. }
  pose proof (wish_remote _ _ _ _ Hw) as Hloc.
  assert (∃ st, length (s_addr st) = NODES_MAX ∧ ∀ sa,
    (h ← with_fallback (w_fallback w) g; h ← with_service inet_addr (Some service) al h; fill_sockaddr h st) = Ok sa →
    find_address serialize parse sendto inet_addr hosts sockfd stack w (Some name) (Some service) l = Ok (Some (inr sa, l')))
    as (st & Hst & Hfind).
  { unfold find_address. rewrite Hloc. destruct Hhost as [Hh Hg|sa0 m l1 Hh Hget Hl0 Hg]; rewrite Hh; cbn [negb default from_option id].
    - exists stack. split; [done|]. intros sa Hsa.
      assert (undefined (Graph_of_string inet_addr 0 name) l = Ok (Some ((g, al), l))) as Hu by (unfold undefined; by rewrite Hg).
      rewrite (call_bind_some _ _ _ _ _ Hu). by apply Hrun.
    - exists sa0. split; [done|]. intros sa Hsa. rewrite (call_bind_some _ _ _ _ _ Hget). cbn [fst snd]. rewrite decide_False by lia.
      rewrite (call_bind_some (undefined (init (Some sa0))) _ l1 sa0 l1 eq_refl).
      assert (undefined (from_sockaddr Graph_empty 0 sa0) l1 = Ok (Some ((g, al), l1))) as Hu by (unfold undefined; by rewrite Hg).
      rewrite (call_bind_some _ _ _ _ _ Hu). by apply Hrun. }
  destruct (Hns st Hst) as (sa & h & h' & v & Hsa & Hrest). exists sa, h, h', v. split; [|exact Hrest].
  unfold Xgetaddrinfo. rewrite Hw. by rewrite (call_bind_some _ _ _ _ _ (Hfind sa Hsa)).
Qed.

(** A service without a colon is read from arrays that were not written. *)
Lemma plain_service_undefined name service hints w l g al :
  check_hints (Some name) (Some service) hints = inr w → w_fallback w = false → w_havename w = true →
  Graph_of_string inet_addr 0 name = Ok (g, al) → ":"%char ∉ service →
  Xgetaddrinfo serialize parse sendto inet_addr hosts sockfd stack (Some name) (Some service) hints l = Ub Uninit.
Proof using.
  intros Hw Hf Hh Hg Hc. unfold Xgetaddrinfo. rewrite Hw. unfold find_address. rewrite Hh.
  rewrite (wish_remote _ _ _ _ Hw).
  assert (split_service service = None) as Hs.
  { unfold split_service. destruct (list_find _ _) as [[i c]|] eqn:E; [|done].
    apply list_find_Some in E as (Hi & -> & _). by apply list_elem_of_lookup_2 in Hi. }
  cbn [negb default from_option id]. unfold undefined, mbind, call_bind. rewrite Hg, Hf. cbn [with_fallback fst snd].
  unfold with_service. by rewrite Hs.
Qed.
End found.

(** ** An instance *)

Definition info_name : str := lit "RE AD:1000000000000000000000000000000000000000 HID:0000000000000000000000000000000000000001".
Definition info_service : str := lit "SID:1110000000000000000000000000000000001113".
(** [XAI_DAGHOST | XAI_XIDSERV]. *)
Definition info_hints : addrinfo := mkAddrinfo AF_XIA XSOCK_STREAM 0 1028 None.
Definition info_graph : Graph * nat := match Graph_of_string (λ _, 0) 0 info_name with Ok g => g | Ub _ => (Graph_empty, 0%nat) end.
Definition info_stack : sockaddr_x := mkSockaddr 0 0 (replicate NODES_MAX (mkNode_t 0 [] [])).

Lemma info_graph_parsed : Graph_of_string (λ _, 0) 0 info_name = Ok info_graph.
Proof. vm_compute. reflexivity. Qed.

Lemma info_address : address info_graph.1 0 2.
Proof. apply address_check, (bool_decide_unpack _). vm_compute. exact I. Qed.

Lemma info_fits : fits_with_service info_graph.1.
Proof.
  assert (bool_decide (Forall (λ l : list nat, length l <= EDGES_MAX)%nat (out_edges_ info_graph.1)) = true) as H1%bool_decide_eq_true
    by (vm_compute; reflexivity).
  assert (bool_decide (Forall (λ n, length (n_id n) = ID_LEN) (nodes_ info_graph.1)) = true) as H2%bool_decide_eq_true
    by (vm_compute; reflexivity).
  split; [apply Nat.leb_le; vm_compute; reflexivity| |].
  - intros i l Hl. rewrite Forall_forall in H1. eapply H1, list_elem_of_lookup_2, Hl.
  - by apply Forall_forall.
Qed.

Lemma service_address_witness : ∃ sa h h', Xgetaddrinfo demo_serialize demo_parse demo_sendto (λ _, 0) None 5 info_stack
    (Some info_name) (Some info_service) (Some info_hints) (demo_lib XSOCK_DGRAM []) =
  Ok (Some ((0, Some (mkAddrinfo AF_XIA XSOCK_STREAM 0 0 (Some sa))), demo_lib XSOCK_DGRAM [])) ∧
  address h 0 3 ∧ from_sockaddr Graph_empty 0 sa = Ok (h', 3%nat).
Proof.
  destruct (service_address demo_serialize demo_parse demo_sendto (λ _, 0) None 5 info_stack eq_refl info_name info_service (Some info_hints)
    (mkWish false true false XSOCK_STREAM 0) (demo_lib XSOCK_DGRAM []) (demo_lib XSOCK_DGRAM []) info_graph.1 info_graph.2 0 2
    (lit "SID") (lit "1110000000000000000000000000000000001113")) as (sa & h & h' & v & Hrun & _ & _ & Ha & Hfrom & _).
  - vm_compute. reflexivity.
  - reflexivity.
  - apply Given; [reflexivity|]. rewrite info_graph_parsed. by destruct info_graph.
  - exact info_address.
  - exact info_fits.
  - vm_compute. reflexivity.
  - done.
  - exists sa, h, h'. split; [exact Hrun|]. split; [exact Ha|exact Hfrom].
Defined.
